(* ===== verification/_CoqProject ===== *)
-Q . S2P
Prelude.v
Mem.v
Heap.v
Cksum.v
RandomBits.v
Inet.v
PortInfo.v
Atomics.v
Headers.v
Pacing.v
Commands.v
Session.v
CommandFacts.v
Range.v
Mbuf.v
Capture.v
Burst.v
Special.v
Transmit.v
Receive.v
PcapFile.v
GapBuf.v
History.v
Keys.v
Strings.v
PortList.v
L2p.v
Loops.v
CliEnv.v
CliMap.v
CliFacts.v
Console.v
ConsoleFacts.v
CliTree.v
CliTreeFacts.v
CliTreeOk.v
CliTreeRm.v
CliTreePaths.v
Display.v
Lines.v
Terminal.v
TerminalFacts.v
Save.v
Log.v
SaveWords.v
SaveFacts.v
Restore.v
Reload.v
Lua.v
LuaReports.v
LuaFacts.v
LuaSave.v
Startup.v
