(* ===== verification/Prelude.v ===== *)
(** * A verification of the traffic generator of the software-switches suite

    The repository compares software switches.  Most of it is configuration,
    scripts and measured data; its programs are in [docker/dpdk-suite]: the
    traffic generator pktgen-dpdk ([pktgen-19.10.0], written [P/] below), the
    vendored DPDK it is built on ([dpdk-stable-18.11.2], [D/]) and a packet
    counter ([FloWatcher-DPDK]).  This library models the logic of pktgen, with
    the DPDK routines that logic consists of, and proves what it computes.

    ** Layout

    This file holds what everything shares: machine words as [Z] with their
    wrap-around ([wrap], [swrap], [in_word]), record updates ([Eta], [<| |>]),
    tactics and hints.  [Mem] is the byte memory of the target, [P/lib] and
    [P/app] are modelled in the files below.

    - Libraries.  [Heap]: the region allocator of [P/lib/utils/heap.c], over
      byte memory since it overlays list entries on the blocks.  [Cksum]:
      [P/lib/common/cksum.c] and the checksums of [D/lib/librte_net/rte_ip.h].
      [Inet]: the address parsers of [P/lib/utils/inet_pton.c] and the
      conversions of [P/lib/common/pg_inet.h].  [RandomBits]: the random bit
      fields of [P/app/pktgen-random.c].  [Strings]: [P/lib/common/pg_strings.c]
      with the C library's functions it rests on.  [PortList]:
      [P/lib/utils/portlist.c].  [L2p]: the mapping of cores to ports and queues
      of [P/lib/common/l2p.c], with its parser.
    - Data model.  [PortInfo]: the records of a port, its queues, packet
      slots, ranges, statistics and the global structure, and the flag helpers.
      [Atomics]: the compare-and-set loops on flags and transmit counts as a
      step relation over any number of cores.
    - Packets.  [Headers]: all header constructors and [pktgen_packet_ctor].
      [Range]: [pktgen_range_ctor], stepping a packet through its ranges.
    - Control plane.  [Pacing]: wire size, packet rate and video rate.
      [Commands]: the operations of [P/app/pktgen-cmds.c] on the world of one
      port; [Session]: all of them as one transition system with its
      invariant; [CommandFacts]: what single commands do.
    - Console.  [GapBuf]: the line editor of [P/lib/cli], a gap buffer in memory
      and its keys, against a text with a cursor.  [CliMap]: words, formats and
      addresses of a line ([pg_strqtok], [P/lib/cli/cli_map.c],
      [P/lib/utils/_atoip.c]); [CliFacts]: what is printed is read back.
      [Console]: the tables and handlers of [P/app/cli-functions.c], from typed
      lines to commands of [Session] on the ports of a list; [ConsoleFacts]: what
      all lines keep; [Lines]: what single lines do.  [Keys]: the key sequences of
      [P/lib/cli/cli_vt100.c]; [History]: [P/lib/cli/cli_history.c]; [CliEnv]: the
      variables of [P/lib/cli/cli_env.c].  [Terminal] puts them together: bytes
      edit a line, the return key executes it ([P/lib/cli/cli_input.c],
      [cli_execute] and the command files of [P/lib/cli/cli.c]);
      [TerminalFacts]: what typed lines and files come to.  [CliTree]: the directory
      tree of [P/lib/cli/cli.c] and [P/lib/cli/cli_search.c] that commands are looked
      for in, with [cd], [pwd], [mkdir] and [rm]; [CliTreeFacts]: [Console]'s tables
      are what the search in the tree pktgen creates finds; [CliTreeOk] and
      [CliTreeRm]: sessions keep it a tree, and a removal frees all that is below;
      [CliTreePaths]: the path [pwd] prints leads back.
    - Saved configurations.  [Save]: the lines [pktgen_script_save] writes, with
      what [printf] makes of numbers.  [SaveWords]: what the handlers of [Console]
      make of each kind of line, its words left open; [SaveFacts]: the commands
      the lines of a port are read as; [Restore]: what a port is left with when
      they are loaded; [Reload]: the same through the bytes of a file.
    - Lua.  [Lua]: the values of a script and the functions of [P/app/lpktgenlib.c]
      that carry out commands; [LuaReports]: those that return tables, and the
      table of functions a script sees; [LuaFacts]: what all calls keep, and where
      console and Lua do the same; [LuaSave]: the script [pktgen_lua_save] writes
      and what happens when it is loaded.
    - The program.  [Startup]: the options ([pktgen_parse_args]), [main] and
      [pktgen_config_ports].  [Loops]: the loops a core runs until it is stopped,
      around the turns of the data plane, and the links.  [Display]: the timer's
      thread, statistics, pages and their totals and averages.  [Log]: the messages
      of [P/app/pktgen-log.c] and the text of packet dumps.
    - Data plane.  [Mbuf]: packet buffers, their allocation, and the state [dp]
      of the data plane with its environment [Env].  [Burst]: time stamps and
      [pktgen_send_burst].  [Special]: ARP, ping and VLAN input, and requests.
      [Transmit]: pools, queues and [pktgen_main_transmit].  [Capture] and
      [Receive]: [P/app/pktgen-capture.c] and [pktgen_main_receive].  [PcapFile]:
      packet files as bytes with a position ([P/lib/common/pg_pcap.c]) and the
      pool [P/app/pktgen-pcap.c] fills from them.

    The control plane's functions take and return a [world]: one port with the
    global structure.  The console's state [console] is the global structure
    with all ports, of which the handlers' steps take one at a time into a
    world.  The data plane's state [dp] contains that world, so that
    a data-plane step calls the same constructors and flag helpers; an error
    the C code leaves undefined (an index past an array, a division by zero, a
    checksum length that wraps around) is [None].

    ** What is shown

    - Transmission: a started port sends exactly its count and stops by itself;
      a burst ends, and sends its queue in order, each packet once; a sequence
      pool is dealt out in turn; every field of a range walks its interval, but for
      the cases [range_walks_intervals] names; random bits are applied to each
      packet of a burst, with a draw of its own; constructed
      packets carry the configured fields and checksums that verify.
    - Reception: the latency accounted is that from the packet's last offer to the
      driver, however often it was left over before; the counters count; an ARP exchange teaches the peer's address; a capture file
      holds what was captured, and a pool filled from it sends that again.
    - Concurrency: every run of the compare-and-set loops is equivalent to a
      sequential one, loses no update, shares the transmit count out exactly,
      and a core left alone finishes.
    - Running: a transmitting core keeps to the pace of its first port; a core that
      receives as well keeps the same schedule while nothing comes in, once there is
      a rate; the timer's
      statistics are the differences of the devices' counters; the page asked for is
      the page drawn; the log's page is the last messages in order.
    - Start-up: whatever the devices and the options, but for lists of files, a
      program that gets to launch its cores has exactly the ports its cores handle,
      with their defaults, and they stay well formed.
    - Control: every session of commands keeps the port well formed and is
      defined, but for the video rates, overlong user patterns and slots that are
      not there; limits and defaults of the commands.
    - Console: typed lines keep every port well formed, whatever they are; a
      line reaches exactly the ports of its list; words
      (behind a plain first one), port lists, port sets,
      MAC and IPv4 addresses are read back as they were written; the gap buffer
      is a text with a cursor, the history a list of the last lines; a file does
      what its lines do, one after the other; the tree of directories stays one; cores of a parsed matrix share no
      queue.
    - Saving: each line of a saved port is read back as the command it was
      written from, or as the one named in [SaveFacts]; loading them restores
      [settings], with the exceptions [Restore] states.
    - Lua: calls keep every port well formed, the functions with a command of the
      same name do what its line does, but for those named in [LuaFacts]; a saved
      Lua script is never loaded to its end.
    - Libraries: checksums equal RFC 1071's sum, the allocator refines a
      first-fit free list, parsers accept what printers write.
    - Defects are theorems too, about the code as it is: no echo request is
      answered, answered ARP requests are freed while queued, offload requests
      never reach the driver, a short count overruns the queue, the VxLAN
      range is stuck, time stamps invalidate the UDP checksum (it is not
      recomputed), a block given back to the allocator can be lost,
      some lines fit their format and are carried out on the wrong word, each
      use of an alias loses an entry of the history, killed text is freed twice,
      and a directory made three levels deep hides the one it was to be made in.

    ** Bounds and fuel

    [send_loop] runs while the driver is slow: with a driver that accepts a
    packet at least every [D] offers ([serves D]), [length * D + 1] turns are
    enough, and [send_loop_total] proves it.  The walk over a capture zone of
    [n] bytes is given [n] turns, more than it has records.  The unrolled
    loop of [pg_pktmbuf_alloc_bulk] has a turn per packet.  Queues hold
    [DEFAULT_PKT_BURST] = 64 mbufs; storing beyond is [None].  An alias of the
    console is replaced once, since no alias stands for another: [cli_execute]
    gets two turns, in [Console] and in [Terminal].  A file is read with a turn per
    byte and one more, and at least a byte a turn.  The keys that move by words
    get a turn per character and two more.  Lines are cut into at most [CLI_MAX_ARGVS] words, port lists
    into [MAX_SPLIT] entries, as the code does.  Counting the packets of a file
    takes a turn more than it has packets, and the constructor of a pool's object
    two, since a file is rewound at most once for a packet.

    ** Assumptions

    The class [Env] answers what is not in the sources: how much of a burst the
    driver takes, the clock, the objects a mempool delivers, whether a TAP
    write succeeds, and whether another core stops the port between two turns of
    the send loop.  Its only laws are that the driver takes no more than it is
    offered and that a bulk allocation delivers what was asked for.  Stronger
    assumptions are hypotheses of the theorems that need them ([serves],
    [plentiful], [undisturbed]) and [demo_env] satisfies them.  The console has
    a class [Env] of its own: the devices, what TAP, bonding and statistics
    calls answer, and what uninitialised local variables contain; [lab] is one.
    [Lua] and [Devices] are what depends on Lua's number formats and on the texts
    of a device, [Boot] what the operating system and the drivers answer when the
    program starts.

    ** Not modelled

    The text of the pages and the screen under it; the commands that open files
    by name or show something, and the files of the directory tree; the completion
    of words; the ends of scripts, plugins and sockets around Lua
    ([P/lib/lua], a series of calls of its library); the topology of the host
    ([P/lib/common/coremap.c], read from the operating system's files);
    [FloWatcher-DPDK/main.c], a loop around DPDK's calls; JSON
    ([parson_json.c]), the Lua interpreter, DPDK's libraries and drivers, which
    are third-party; a main loop is modelled by the turns it takes, since nothing
    in it but a stop from outside ends it.
    Packets are one segment long, as pktgen's pools make them.  The spinlocks
    make the calls they guard atomic and are left out. *)
From stdpp Require Export base numbers list gmap strings.
From Stdlib Require Export ZArith Lia Bool.

#[export] Set Default Goal Selector "!".

(** ** Machine integers: an unsigned w-bit value is a [Z] in [0, 2^w) *)

Declare Scope word_scope.
Delimit Scope word_scope with word.
#[global] Open Scope Z_scope.

(** Truncation to [w] bits: what a C assignment to an unsigned w-bit object does. *)
Definition wrap (w x : Z) : Z := x `mod` 2 ^ w.

Abbreviation u8 := (wrap 8).
Abbreviation u16 := (wrap 16).
Abbreviation u32 := (wrap 32).
Abbreviation u64 := (wrap 64).

(** Two's complement reading of the low [w] bits: a conversion to a signed type. *)
Definition swrap (w x : Z) : Z := (x + 2 ^ (w - 1)) `mod` 2 ^ w - 2 ^ (w - 1).

Abbreviation s32 := (swrap 32).
Abbreviation s64 := (swrap 64).

Definition in_word (w x : Z) : Prop := 0 ≤ x < 2 ^ w.

#[global] Instance in_word_dec w x : Decision (in_word w x).
Proof. unfold in_word. apply _. Defined.

Lemma wrap_in_word w x : 0 ≤ w → in_word w (wrap w x).
Proof. intros Hw. apply Z.mod_pos_bound. lia. Qed.

Lemma wrap_small w x : in_word w x → wrap w x = x.
Proof. apply Z.mod_small. Qed.

Lemma wrap_wrap w x : wrap w (wrap w x) = wrap w x.
Proof. apply Zmod_mod. Qed.

Lemma wrap_add_l w x y : wrap w (wrap w x + y) = wrap w (x + y).
Proof. apply Zplus_mod_idemp_l. Qed.

Lemma wrap_add_r w x y : wrap w (x + wrap w y) = wrap w (x + y).
Proof. apply Zplus_mod_idemp_r. Qed.

(** A sum that overflowed once is the sum less the modulus. *)
Lemma wrap_once w x : 2 ^ w ≤ x < 2 * 2 ^ w → wrap w x = x - 2 ^ w.
Proof.
  intros H. unfold wrap. symmetry. apply Z.mod_unique with 1; lia.
Qed.

Lemma swrap_small w x : 0 < w → - 2 ^ (w - 1) ≤ x < 2 ^ (w - 1) → swrap w x = x.
Proof.
  intros Hw Hx. unfold swrap. rewrite Z.mod_small; [lia|].
  assert (2 ^ w = 2 * 2 ^ (w - 1)) as ->
    by (rewrite <-Z.pow_succ_r by lia; f_equal; lia). lia.
Qed.

(** ** Bit fields as arithmetic *)

Lemma lor_add a b : Z.land a b = 0 → Z.lor a b = a + b.
Proof. intros H. pose proof (Z.add_lor_land a b). lia. Qed.

(** Fields that do not overlap: [x] above bit [n], [y] below it. *)
Lemma lor_shift n x y : 0 ≤ n → 0 ≤ y < 2 ^ n → Z.lor (x * 2 ^ n) y = x * 2 ^ n + y.
Proof.
  intros Hn Hy. apply lor_add. apply Z.bits_inj'. intros i Hi.
  rewrite Z.land_spec, Z.bits_0. rewrite <-Z.shiftl_mul_pow2 by done.
  destruct (Z.ltb_spec i n).
  - by rewrite Z.shiftl_spec_low.
  - rewrite <-(Z.mod_small y (2 ^ n)), Z.mod_pow2_bits_high by lia. apply andb_false_r.
Qed.

Lemma land_ones_mod n x : 0 ≤ n → Z.land x (2 ^ n - 1) = x `mod` 2 ^ n.
Proof. intros Hn. rewrite <-Z.land_ones by done. f_equal. rewrite Z.ones_equiv. lia. Qed.

(** A range of the form [0 <= x < 2^w] with [w] a literal, unfolded for [lia]. *)
Ltac word_lia :=
  repeat match goal with
  | H : in_word _ _ |- _ => unfold in_word in H
  | |- in_word _ _ => unfold in_word
  end; simpl Z.pow in *; lia.

(** Drop truncations of values that [lia] shows to fit. *)
Ltac wsmall := rewrite ?wrap_wrap; repeat (rewrite wrap_small by (unfold in_word; simpl; lia)).

Create HintDb word.
Create Rewrite HintDb word.
#[export] Hint Resolve wrap_in_word : word.
#[export] Hint Extern 2 (0 ≤ _) => lia : word.
#[export] Hint Rewrite wrap_wrap wrap_add_l wrap_add_r : word.

(** ** Record update

    [r <| f := v |>] is [r] with field [f] replaced.  The updater of a field
    is derived from the eta expansion of its record type. *)

Class Eta (R : Type) := eta : R → R.
Class Updater {R T} (proj : R → T) := upd : (T → T) → R → R.
#[global] Hint Mode Updater + + + : typeclass_instances.
Arguments upd {R T} proj {_} f r.

Ltac derive_updater :=
  match goal with
  | |- @Updater ?R ?T ?proj =>
      let e := constr:(_ : Eta R) in
      let e := eval red in e in
      let f := fresh in let r := fresh in intros f r;
      let b := eval cbv beta in (e r) in
      match eval pattern (proj r) in b with
      | ?g _ => let t := eval cbv beta in (g (f (proj r))) in exact t
      end
  end.
#[global] Hint Extern 1 (Updater _) => derive_updater : typeclass_instances.

Notation "r <| f ::= g |>" := (upd f g r)
  (at level 12, f at next level, left associativity, format "r  <| f  ::=  g |>").
Notation "r <| f := v |>" := (upd f (λ _, v) r)
  (at level 12, f at next level, left associativity, format "r  <| f  :=  v |>").
