(* ===== verification/Mem.v ===== *)
(** * Byte-addressed memory of the target machine

    The C code under [src/] writes structures through raw, often unaligned and
    overlapping, pointers (packed packet headers, free-list entries laid over
    the blocks they describe).  Memory is therefore a function from addresses
    to bytes, and a w-bit object is [w/8] bytes in little-endian order: the
    layout of the x86_64 target the Dockerfile builds for. *)
From S2P Require Import Prelude.

Definition mem := Z → Z.

(** ** Bytes *)
Definition ld8 (m : mem) (a : Z) : Z := u8 (m a).
Definition st8 (m : mem) (a v : Z) : mem := λ b, if b =? a then u8 v else m b.

(** ** Little-endian objects of [n] bytes *)
Fixpoint load (n : nat) (m : mem) (a : Z) : Z :=
  match n with
  | O => 0
  | S n => ld8 m a + 256 * load n m (a + 1)
  end.

Fixpoint store (n : nat) (m : mem) (a v : Z) : mem :=
  match n with
  | O => m
  | S n => store n (st8 m a v) (a + 1) (v / 256)
  end.

Abbreviation ld16 := (load 2).
Abbreviation ld32 := (load 4).
Abbreviation ld64 := (load 8).
Abbreviation st16 := (store 2).
Abbreviation st32 := (store 4).
Abbreviation st64 := (store 8).

(** ** Block operations: [memset], [memcpy] (non-overlapping, as the C standard requires) *)
Definition memset (m : mem) (a v n : Z) : mem :=
  λ b, if (a <=? b) && (b <? a + n) then u8 v else m b.

Definition memcpy (m : mem) (dst src n : Z) : mem :=
  λ b, if (dst <=? b) && (b <? dst + n) then ld8 m (src + (b - dst)) else m b.

(** ** Byte order: [htons], [htonl] and their inverses on a little-endian host *)
Definition bswap16 (v : Z) : Z :=
  Z.lor (Z.shiftl (Z.land v 0xff) 8) (Z.land (Z.shiftr v 8) 0xff).
Definition bswap32 (v : Z) : Z :=
  Z.lor (Z.lor (Z.shiftl (Z.land v 0xff) 24)
               (Z.shiftl (Z.land (Z.shiftr v 8) 0xff) 16))
        (Z.lor (Z.shiftl (Z.land (Z.shiftr v 16) 0xff) 8)
               (Z.land (Z.shiftr v 24) 0xff)).

Abbreviation htons := bswap16.
Abbreviation ntohs := bswap16.
Abbreviation htonl := bswap32.
Abbreviation ntohl := bswap32.

(** ** Laws *)

Lemma ld8_range m a : 0 ≤ ld8 m a < 256.
Proof. apply (wrap_in_word 8); lia. Qed.

Lemma ld8_st8_eq m a v : ld8 (st8 m a v) a = u8 v.
Proof. unfold ld8, st8. rewrite Z.eqb_refl. apply wrap_wrap. Qed.

Lemma ld8_st8_ne m a b v : a ≠ b → ld8 (st8 m a v) b = ld8 m b.
Proof. intros H. unfold ld8, st8. destruct (Z.eqb_spec b a); [congruence|done]. Qed.

(** A store leaves every byte outside the stored object alone. *)
Lemma ld8_store_ne n m a v b :
  b < a ∨ a + Z.of_nat n ≤ b → ld8 (store n m a v) b = ld8 m b.
Proof.
  revert m a v. induction n as [|n IH]; intros m a v Hb; simpl; [done|].
  rewrite IH by lia. apply ld8_st8_ne. lia.
Qed.

Lemma load_store_ne n k m a v b :
  b + Z.of_nat k ≤ a ∨ a + Z.of_nat n ≤ b → load k (store n m a v) b = load k m b.
Proof.
  revert b. induction k as [|k IH]; intros b Hb; simpl; [done|].
  rewrite ld8_store_ne by lia. rewrite IH by lia. done.
Qed.

Lemma load_range n m a : 0 ≤ load n m a < 256 ^ Z.of_nat n.
Proof.
  revert a. induction n as [|n IH]; intros a; [simpl; lia|].
  rewrite Nat2Z.inj_succ, Z.pow_succ_r by lia. simpl load.
  specialize (IH (a + 1)). pose proof (ld8_range m a). nia.
Qed.

Lemma ld_one m a : load 1 m a = ld8 m a.
Proof. simpl. lia. Qed.

Lemma ld8_store1 m a v : ld8 (store 1 m a v) a = u8 v.
Proof. simpl. apply ld8_st8_eq. Qed.

Lemma ld16_bytes m a : ld16 m a = ld8 m a + 256 * ld8 m (a + 1).
Proof. simpl. lia. Qed.

Lemma ld32_bytes m a :
  ld32 m a = ld8 m a + 256 * ld8 m (a + 1) + 65536 * ld8 m (a + 2) + 16777216 * ld8 m (a + 3).
Proof.
  simpl. replace (a + 1 + 1) with (a + 2) by lia. replace (a + 2 + 1) with (a + 3) by lia. lia.
Qed.

Lemma mod_step v k : 0 < k → v `mod` (256 * k) = v `mod` 256 + 256 * ((v / 256) `mod` k).
Proof. intros Hk. apply Z.rem_mul_r; lia. Qed.

(** Reading back what was stored gives the value truncated to the object's width. *)
Lemma load_store_eq n m a v : load n (store n m a v) a = v `mod` 256 ^ Z.of_nat n.
Proof.
  revert m a v. induction n as [|n IH]; intros m a v; [by rewrite Z.mod_1_r|].
  rewrite Nat2Z.inj_succ, Z.pow_succ_r, mod_step by lia. simpl.
  rewrite IH, ld8_store_ne, ld8_st8_eq by lia. done.
Qed.

Lemma load_ext n m m' a :
  (∀ b, a ≤ b < a + Z.of_nat n → ld8 m b = ld8 m' b) → load n m a = load n m' a.
Proof.
  revert a. induction n as [|n IH]; intros a H; simpl; [done|].
  rewrite (H a), (IH (a + 1)) by (intros; try apply H; lia). done.
Qed.

(** Equal bytes at two places are equal values. *)
Lemma load_shift n m m' a a' :
  (∀ o, 0 ≤ o < Z.of_nat n → ld8 m (a + o) = ld8 m' (a' + o)) → load n m a = load n m' a'.
Proof.
  revert a a'. induction n as [|n IH]; intros a a' Hb; [done|]. cbn [load]. f_equal.
  - specialize (Hb 0). rewrite !Z.add_0_r in Hb. apply Hb. lia.
  - f_equal. apply IH. intros o Ho. rewrite <-!Z.add_assoc. apply Hb. lia.
Qed.

Lemma ld16_st16_eq m a v : ld16 (st16 m a v) a = u16 v.
Proof. apply load_store_eq. Qed.
Lemma ld32_st32_eq m a v : ld32 (st32 m a v) a = u32 v.
Proof. apply load_store_eq. Qed.
Lemma ld64_st64_eq m a v : ld64 (st64 m a v) a = u64 v.
Proof. apply load_store_eq. Qed.

Lemma ld8_memset m a v n b :
  ld8 (memset m a v n) b = if (a <=? b) && (b <? a + n) then u8 v else ld8 m b.
Proof. unfold ld8, memset. destruct (_ && _); [apply wrap_wrap|done]. Qed.

Lemma ld8_memcpy m dst src n b :
  ld8 (memcpy m dst src n) b =
  if (dst <=? b) && (b <? dst + n) then ld8 m (src + (b - dst)) else ld8 m b.
Proof. unfold ld8, memcpy. destruct (_ && _); [apply wrap_wrap|done]. Qed.

(** The [n] bytes at [a] *)
Definition read_bytes (m : mem) (a : Z) (n : nat) : list Z := (λ o, ld8 m (a + o)) <$> seqZ 0 (Z.of_nat n).

Lemma read_bytes_ext m m' a n :
  (∀ b, a ≤ b < a + Z.of_nat n → ld8 m' b = ld8 m b) → read_bytes m' a n = read_bytes m a n.
Proof.
  intros Hb. unfold read_bytes. apply list_fmap_ext. intros i o Ho. apply lookup_seqZ in Ho.
  apply Hb. lia.
Qed.

Lemma take_read_bytes m a n k : (n ≤ k)%nat → take n (read_bytes m a k) = read_bytes m a n.
Proof.
  intros Hn. unfold read_bytes. rewrite <-fmap_take. f_equal.
  replace (Z.of_nat k) with (Z.of_nat n + (Z.of_nat k - Z.of_nat n)) by lia.
  rewrite seqZ_app by lia. apply take_app_length'. rewrite length_seqZ. lia.
Qed.

Lemma length_read_bytes m a n : length (read_bytes m a n) = n.
Proof. unfold read_bytes. rewrite length_fmap, length_seqZ. lia. Qed.

Lemma read_bytes_app m a n k :
  read_bytes m a (n + k) = read_bytes m a n ++ read_bytes m (a + Z.of_nat n) k.
Proof.
  unfold read_bytes. rewrite Nat2Z.inj_add, seqZ_app, fmap_app by lia. f_equal.
  rewrite Z.add_0_l. replace (Z.of_nat n) with (Z.of_nat n + 0) at 1 by lia.
  rewrite <-fmap_add_seqZ, <-list_fmap_compose. apply list_fmap_ext. intros i x _. cbn. f_equal. lia.
Qed.

Lemma read_bytes_memcpy m dst src n :
  read_bytes (memcpy m dst src (Z.of_nat n)) dst n = read_bytes m src n.
Proof.
  unfold read_bytes. apply list_fmap_ext. intros i o Ho. apply lookup_seqZ in Ho as [-> Hi].
  rewrite ld8_memcpy. destruct (Z.leb_spec dst (dst + (0 + Z.of_nat i))); [|lia].
  destruct (Z.ltb_spec (dst + (0 + Z.of_nat i)) (dst + Z.of_nat n)); [|lia]. cbn [andb].
  f_equal. lia.
Qed.

Lemma load_memset_ne k m a v n b :
  b + Z.of_nat k ≤ a ∨ a + n ≤ b → load k (memset m a v n) b = load k m b.
Proof.
  intros H. apply load_ext. intros c Hc. rewrite ld8_memset.
  destruct (Z.leb_spec a c), (Z.ltb_spec c (a + n)); simpl; try done. lia.
Qed.

(** ** Byte order lemmas *)

Lemma land_ff x : Z.land x 0xff = x `mod` 256.
Proof. apply (land_ones_mod 8). lia. Qed.

Lemma bswap16_arith v : bswap16 v = 256 * (v `mod` 256) + (v / 256) `mod` 256.
Proof.
  unfold bswap16. rewrite !land_ff, Z.shiftl_mul_pow2, Z.shiftr_div_pow2 by lia.
  change (2 ^ 8) with 256 at 2.
  rewrite lor_shift; [change (2 ^ 8) with 256; lia|lia|]. apply Z.mod_pos_bound. lia.
Qed.

Lemma bswap32_arith v :
  bswap32 v = 16777216 * (v `mod` 256) + 65536 * ((v / 256) `mod` 256)
              + 256 * ((v / 65536) `mod` 256) + (v / 16777216) `mod` 256.
Proof.
  unfold bswap32. rewrite !land_ff, !Z.shiftl_mul_pow2, !Z.shiftr_div_pow2 by lia.
  change (2 ^ 8) with 256. change (2 ^ 16) with 65536. change (2 ^ 24) with 16777216.
  set (a := v `mod` 256). set (b := (v / 256) `mod` 256).
  set (c := (v / 65536) `mod` 256). set (d := (v / 16777216) `mod` 256).
  assert (0 ≤ b < 256 ∧ 0 ≤ c < 256 ∧ 0 ≤ d < 256) as (?&?&?)
    by (repeat split; apply Z.mod_pos_bound; lia).
  pose proof (lor_shift 24 a (b * 65536)) as E1.
  pose proof (lor_shift 8 c d) as E2.
  pose proof (lor_shift 16 (a * 256 + b) (c * 256 + d)) as E3.
  change (2 ^ 24) with 16777216 in E1. change (2 ^ 8) with 256 in E2.
  change (2 ^ 16) with 65536 in E3. rewrite E1, E2 by lia.
  replace (a * 16777216 + b * 65536) with ((a * 256 + b) * 65536) by lia.
  rewrite E3 by lia. lia.
Qed.

Lemma bswap16_range v : in_word 16 (bswap16 v).
Proof.
  rewrite bswap16_arith. pose proof (Z.mod_pos_bound v 256).
  pose proof (Z.mod_pos_bound (v / 256) 256). word_lia.
Qed.

Lemma bswap32_range v : in_word 32 (bswap32 v).
Proof.
  rewrite bswap32_arith. pose proof (Z.mod_pos_bound v 256).
  pose proof (Z.mod_pos_bound (v / 256) 256). pose proof (Z.mod_pos_bound (v / 65536) 256).
  pose proof (Z.mod_pos_bound (v / 16777216) 256). word_lia.
Qed.

(** The low bytes of a number are what [mod] and [/] of its big-endian sum give back. *)
Lemma byte_sum_split h l : 0 ≤ l < 256 → (256 * h + l) `mod` 256 = l ∧ (256 * h + l) / 256 = h.
Proof.
  intros Hl. rewrite (Z.add_comm (256 * h)), (Z.mul_comm 256), Z.mod_add, Z.div_add by lia.
  rewrite Z.mod_small, Z.div_small by lia. lia.
Qed.

Lemma bswap16_involutive v : bswap16 (bswap16 v) = u16 v.
Proof.
  rewrite (bswap16_arith (bswap16 v)), bswap16_arith.
  unfold wrap. change (2 ^ 16) with (256 * 256). rewrite mod_step by lia.
  set (x := v `mod` 256). set (y := (v / 256) `mod` 256).
  assert (0 ≤ x < 256) by (apply Z.mod_pos_bound; lia).
  assert (0 ≤ y < 256) by (apply Z.mod_pos_bound; lia).
  destruct (byte_sum_split x y) as [-> ->]; [lia|]. rewrite (Z.mod_small x) by lia. lia.
Qed.

Lemma bswap32_involutive v : bswap32 (bswap32 v) = u32 v.
Proof.
  rewrite (bswap32_arith (bswap32 v)), bswap32_arith.
  unfold wrap. change (2 ^ 32) with (256 * (256 * (256 * 256))).
  rewrite (mod_step v), (mod_step (v / 256)), (mod_step (v / 256 / 256)) by lia.
  rewrite !Z.div_div by lia. change (256 * 256) with 65536.
  change (256 * 65536) with 16777216. change (65536 * 256) with 16777216.
  set (a := v `mod` 256). set (b := (v / 256) `mod` 256).
  set (c := (v / 65536) `mod` 256). set (d := (v / 16777216) `mod` 256).
  assert (0 ≤ a < 256 ∧ 0 ≤ b < 256 ∧ 0 ≤ c < 256 ∧ 0 ≤ d < 256) as (?&?&?&?)
    by (repeat split; apply Z.mod_pos_bound; lia).
  replace (16777216 * a + 65536 * b + 256 * c + d)
    with (256 * (256 * (256 * a + b) + c) + d) by lia.
  change 16777216 with (256 * (256 * 256)). change 65536 with (256 * 256).
  rewrite <-!Z.div_div by lia.
  destruct (byte_sum_split (256 * (256 * a + b) + c) d) as [-> ->]; [lia|].
  destruct (byte_sum_split (256 * a + b) c) as [-> ->]; [lia|].
  destruct (byte_sum_split a b) as [-> ->]; [lia|].
  rewrite (Z.mod_small a) by lia. lia.
Qed.

(** Storing [htons v] leaves the two bytes of [v], most significant first. *)
Lemma st16_htons_bytes m a v :
  ld8 (st16 m a (htons v)) a = (v / 256) `mod` 256 ∧
  ld8 (st16 m a (htons v)) (a + 1) = v `mod` 256.
Proof.
  rewrite bswap16_arith. set (x := v `mod` 256). set (y := (v / 256) `mod` 256).
  assert (0 ≤ x < 256) by (apply Z.mod_pos_bound; lia).
  assert (0 ≤ y < 256) by (apply Z.mod_pos_bound; lia).
  destruct (byte_sum_split x y) as [Hm Hd]; [lia|].
  simpl. rewrite ld8_st8_ne, !ld8_st8_eq by lia. unfold wrap.
  change (2 ^ 8) with 256. rewrite Hd, Hm, Z.mod_small by lia. done.
Qed.

(** ** Bits of multi-byte objects *)

Lemma testbit_cat x y i :
  0 ≤ x < 256 → 0 ≤ i →
  Z.testbit (x + 256 * y) i = if i <? 8 then Z.testbit x i else Z.testbit y (i - 8).
Proof.
  intros Hx Hi. destruct (byte_sum_split y x Hx) as [Hm Hd].
  rewrite (Z.add_comm x). destruct (Z.ltb_spec i 8).
  - rewrite <-(Z.mod_pow2_bits_low _ 8) by lia. change (2 ^ 8) with 256. by rewrite Hm.
  - rewrite <-Hd at 2. change 256 with (2 ^ 8) at 3.
    rewrite <-Z.shiftr_div_pow2, Z.shiftr_spec by lia. f_equal. lia.
Qed.

Lemma testbit_byte v k r :
  0 ≤ k → 0 ≤ r < 8 → Z.testbit ((v / 256 ^ k) `mod` 256) r = Z.testbit v (8 * k + r).
Proof.
  intros Hk Hr. change 256 with (2 ^ 8). rewrite Z.mod_pow2_bits_low by lia.
  rewrite <-Z.pow_mul_r by lia. rewrite <-Z.shiftr_div_pow2, Z.shiftr_spec by lia.
  f_equal. lia.
Qed.

Lemma load_testbit n m a k r :
  0 ≤ k < Z.of_nat n → 0 ≤ r < 8 →
  Z.testbit (load n m a) (8 * k + r) = Z.testbit (ld8 m (a + k)) r.
Proof.
  revert a k. induction n as [|n IH]; intros a k Hk Hr; [lia|]. simpl load.
  rewrite testbit_cat by (try apply ld8_range; lia).
  destruct (Z.ltb_spec (8 * k + r) 8).
  - assert (k = 0) as -> by lia. by rewrite Z.add_0_r.
  - replace (8 * k + r - 8) with (8 * (k - 1) + r) by lia. rewrite IH by lia.
    do 2 f_equal. lia.
Qed.

Lemma ld8_store_byte n m a v k :
  0 ≤ k < Z.of_nat n → ld8 (store n m a v) (a + k) = (v / 256 ^ k) `mod` 256.
Proof.
  revert m a v k. induction n as [|n IH]; intros m a v k Hk; [lia|]. simpl store.
  destruct (Z.eq_dec k 0) as [->|].
  - rewrite ld8_store_ne, Z.add_0_r, ld8_st8_eq by lia. by rewrite Z.div_1_r.
  - replace (a + k) with (a + 1 + (k - 1)) by lia. rewrite IH by lia.
    rewrite Z.div_div by lia. rewrite <-Z.pow_succ_r by lia. do 3 f_equal. lia.
Qed.

Lemma store_testbit n m a v k r :
  0 ≤ k < Z.of_nat n → 0 ≤ r < 8 →
  Z.testbit (ld8 (store n m a v) (a + k)) r = Z.testbit v (8 * k + r).
Proof. intros. rewrite ld8_store_byte, testbit_byte by lia. done. Qed.

Lemma load_byte n m a k :
  0 ≤ k < Z.of_nat n → (load n m a / 256 ^ k) `mod` 256 = ld8 m (a + k).
Proof.
  intros Hk. apply Z.bits_inj'. intros r Hr.
  destruct (Z.ltb_spec r 8).
  - rewrite testbit_byte, load_testbit by lia. done.
  - change 256 with (2 ^ 8) at 2. rewrite Z.mod_pow2_bits_high by lia.
    rewrite <-(Z.mod_small (ld8 m (a + k)) (2 ^ 8)) by apply ld8_range.
    by rewrite Z.mod_pow2_bits_high by lia.
Qed.

(** Copying an object of [n] bytes with one load and one store copies its bytes. *)
Lemma ld8_store_load n m1 m2 a b c :
  ld8 (store n m1 a (load n m2 b)) c =
  if (a <=? c) && (c <? a + Z.of_nat n) then ld8 m2 (b + (c - a)) else ld8 m1 c.
Proof.
  destruct (Z.leb_spec a c), (Z.ltb_spec c (a + Z.of_nat n)); cbn [andb];
    try (apply ld8_store_ne; lia).
  replace c with (a + (c - a)) at 1 by lia.
  rewrite ld8_store_byte, load_byte by lia. done.
Qed.

(** [htonl] moves bit [r] of byte [q] to byte [3 - q]. *)
Lemma bswap32_testbit v q r :
  0 ≤ q < 4 → 0 ≤ r < 8 →
  Z.testbit (bswap32 v) (8 * q + r) = Z.testbit v (8 * (3 - q) + r).
Proof.
  intros Hq Hr. rewrite bswap32_arith.
  pose proof (Z.mod_pos_bound v 256). pose proof (Z.mod_pos_bound (v / 256) 256).
  pose proof (Z.mod_pos_bound (v / 65536) 256). pose proof (Z.mod_pos_bound (v / 16777216) 256).
  pose proof (testbit_byte v 0 r). pose proof (testbit_byte v 1 r).
  pose proof (testbit_byte v 2 r). pose proof (testbit_byte v 3 r).
  change (256 ^ 0) with 1 in *. rewrite Z.div_1_r in *.
  change (256 ^ 1) with 256 in *. change (256 ^ 2) with 65536 in *.
  change (256 ^ 3) with 16777216 in *.
  set (b0 := v `mod` 256) in *. set (b1 := (v / 256) `mod` 256) in *.
  set (b2 := (v / 65536) `mod` 256) in *. set (b3 := (v / 16777216) `mod` 256) in *.
  replace (16777216 * b0 + 65536 * b1 + 256 * b2 + b3)
    with (b3 + 256 * (b2 + 256 * (b1 + 256 * b0))) by lia.
  assert (q = 0 ∨ q = 1 ∨ q = 2 ∨ q = 3) as [->|[->|[->| ->]]] by lia;
    rewrite !testbit_cat by lia;
    repeat match goal with |- context [?a <? ?b] => destruct (Z.ltb_spec a b); [try lia|try lia] end;
    match goal with |- Z.testbit _ ?i = _ => replace i with r by lia end; auto with lia.
Qed.

(** One memory read after one write, decided by arithmetic. *)
Ltac mem_step :=
  match goal with
  | |- context [load 8 (store 8 ?m ?a ?v) ?a] => rewrite (ld64_st64_eq m a v)
  | |- context [load 4 (store 4 ?m ?a ?v) ?a] => rewrite (ld32_st32_eq m a v)
  | |- context [load 2 (store 2 ?m ?a ?v) ?a] => rewrite (ld16_st16_eq m a v)
  | |- context [ld8 (store 1 ?m ?a ?v) ?a] => rewrite (ld8_store1 m a v)
  | |- context [load ?k (store ?n ?m ?a ?v) ?b] =>
      rewrite (load_store_ne n k m a v b) by lia
  | |- context [ld8 (store ?n ?m ?a ?v) ?b] =>
      rewrite (ld8_store_ne n m a v b) by lia
  end.
Ltac mem_simpl := repeat mem_step.

#[global] Arguments load : simpl never.
#[global] Arguments store : simpl never.
#[global] Arguments wrap : simpl never.
#[global] Arguments swrap : simpl never.
(* Unification must not compute through a multi-byte access. *)
#[global] Opaque load store.
