(* ===== verification/Heap.v ===== *)
(** * The region allocator: [lib/utils/heap.c]

    A first-fit allocator over one caller-supplied region.  Free blocks are
    described by a [heap_entry] (next pointer, size) stored in their own first
    16 bytes and linked by a BSD [STAILQ].  The model keeps the list in the
    byte memory of [Mem]: [heap_alloc] treats the list head as an entry
    ([phd = (heap_entry_t * )&heap->list]) and [STAILQ_INSERT_TAIL] writes
    through the saved [stqh_last] pointer, so aliasing is part of the code. *)
From S2P Require Import Prelude.
From S2P Require Import Mem.

(** ** Data *)

(** [struct heap]: its [STAILQ_HEAD] lives in memory at [h_list]. *)
Record heap_t := mk_heap { h_list : Z; h_addr : Z; total_space : Z }.
#[global] Instance eta_heap : Eta heap_t := λ h, mk_heap (h_list h) (h_addr h) (total_space h).

Definition NULL : Z := 0.
Definition sizeof_heap_entry : Z := 16.

(** [struct heap_entry]: [next] at offset 0, [size] at offset 8. *)
Definition e_next (m : mem) (e : Z) : Z := ld64 m e.
Definition e_size (m : mem) (e : Z) : Z := ld64 m (e + 8).
Definition set_next (m : mem) (e v : Z) : mem := st64 m e v.
Definition set_size (m : mem) (e v : Z) : mem := st64 m (e + 8) v.

(** [STAILQ_HEAD]: [stqh_first] at offset 0, [stqh_last] at offset 8. *)
Definition stqh_first (m : mem) (hl : Z) : Z := ld64 m hl.
Definition stqh_last (m : mem) (hl : Z) : Z := ld64 m (hl + 8).

Definition STAILQ_INIT (m : mem) (hl : Z) : mem := st64 (st64 m hl NULL) (hl + 8) hl.

Definition STAILQ_INSERT_TAIL (m : mem) (hl elm : Z) : mem :=
  let m := set_next m elm NULL in
  let m := st64 m (stqh_last m hl) elm in
  st64 m (hl + 8) elm.

Definition RTE_PTR_ADD (p n : Z) : Z := u64 (p + n).
Definition RTE_ALIGN_CEIL (v align : Z) : Z :=
  Z.land (u64 (v + (align - 1))) (u64 (Z.lnot (align - 1))).

(** ** Operations *)

(** [calloc] is the C library's: it returns the address of the new [heap_t]
    (the address of its first member, the list head) or no memory. *)
Definition heap_create (calloc : option Z) (m : mem) (addr size : Z) : option (heap_t * mem) :=
  if size <? sizeof_heap_entry then None
  else match calloc with
  | None => None
  | Some hl =>
      let h := mk_heap hl addr size in
      let m := STAILQ_INIT m hl in
      let m := set_next m addr NULL in
      let m := set_size m addr size in
      Some (h, STAILQ_INSERT_TAIL m hl addr)
  end.

(** The [STAILQ_FOREACH] of [heap_free]: the entry to insert behind, or NULL. *)
Fixpoint free_search (fuel : nat) (m : mem) (p q : Z) : option Z :=
  match fuel with
  | O => None
  | S fuel =>
      if q =? NULL then Some NULL
      else if p <? e_next m q then Some q
      else free_search fuel m p (e_next m q)
  end.

(** Linking [p] between [q] and its successor, joining contiguous regions. *)
Definition free_insert (m : mem) (p q size : Z) : mem :=
  let m :=
    if RTE_PTR_ADD p size =? e_next m q then
      let m := set_size m p (u64 (e_size m p + e_size m q)) in
      set_next m p (e_next m (e_next m q))
    else set_next m p (e_next m q) in
  if RTE_PTR_ADD q (e_size m q) =? p then
    let m := set_size m q (u64 (e_size m q + e_size m p)) in
    set_next m q (e_next m p)
  else set_next m q p.

(** [heap_free]: result code and memory; [None] when the list walk does not end
    within [fuel].  [total_space] is not changed. *)
Definition heap_free (fuel : nat) (heap : option heap_t) (m : mem) (addr size : Z)
  : option (Z * mem) :=
  match heap with
  | None => Some (-1, m)
  | Some h =>
      if (addr =? NULL) || (size =? 0) then Some (-1, m)
      else
        let p := addr in
        let m := set_next m p NULL in
        let m := set_size m p size in
        match free_search fuel m p (stqh_first m (h_list h)) with
        | None => None
        | Some q =>
            Some (0, if q =? NULL then STAILQ_INSERT_TAIL m (h_list h) p
                     else free_insert m p q size)
        end
  end.

(** The first-fit loop of [heap_alloc]: pointer returned, new total, memory. *)
Fixpoint alloc_loop (fuel : nat) (m : mem) (total phd hd size : Z) : option (Z * Z * mem) :=
  match fuel with
  | O => None
  | S fuel =>
      if size =? e_size m hd then
        Some (hd, u64 (total - size), set_next m phd (e_next m hd))
      else if size <=? u64 (e_size m hd - sizeof_heap_entry) then
        let nxt_hd := RTE_PTR_ADD hd size in
        let m := set_next m nxt_hd (e_next m hd) in
        let m := set_size m nxt_hd (u64 (e_size m hd - size)) in
        Some (hd, u64 (total - size), set_next m phd nxt_hd)
      else
        let hd' := e_next m hd in
        if hd' =? NULL then Some (NULL, total, m)
        else alloc_loop fuel m total hd hd' size
  end.

Definition alloc_size (size : Z) : Z :=
  let size := RTE_ALIGN_CEIL size sizeof_heap_entry in
  if size <? sizeof_heap_entry then sizeof_heap_entry else size.

Definition heap_alloc (fuel : nat) (heap : option heap_t) (m : mem) (size : Z)
  : option (Z * option heap_t * mem) :=
  match heap with
  | None => Some (NULL, heap, m)
  | Some h =>
      if size =? 0 then Some (NULL, heap, m)
      else
        let size := alloc_size size in
        let hd := stqh_first m (h_list h) in
        if hd =? NULL then Some (NULL, heap, m)
        else if size <=? total_space h then
          match alloc_loop fuel m (total_space h) (h_list h) hd size with
          | None => None
          | Some (ret, total, m) => Some (ret, Some (h <| total_space := total |>), m)
          end
        else Some (NULL, heap, m)
  end.

Definition heap_malloc (fuel : nat) (heap : option heap_t) (m : mem) (size : Z)
  : option (Z * option heap_t * mem) :=
  match heap with
  | None => Some (NULL, heap, m)
  | Some _ =>
      if size =? 0 then Some (NULL, heap, m)
      else
        let size := if size <? sizeof_heap_entry then sizeof_heap_entry else size in
        match heap_alloc fuel heap m (u64 (size + 8)) with
        | None => None
        | Some (addr, heap, m) =>
            if addr =? NULL then Some (NULL, heap, m)
            else Some (addr + 8, heap, st64 m addr (u64 (size + 8)))
        end
  end.

Definition heap_mfree (fuel : nat) (heap : option heap_t) (m : mem) (addr : Z)
  : option (Z * mem) :=
  match heap with
  | None => Some (-1, m)
  | Some _ =>
      if addr =? NULL then Some (0, m)
      else if negb (Z.land addr 3 =? 0) then Some (-1, m)
      else
        let p := addr - 8 in
        let size := ld64 m p in
        if size =? 0 then Some (-1, m) else heap_free fuel heap m p size
  end.

(** The totals [heap_dump] prints: total free, largest area, segment count. *)
Fixpoint heap_dump_walk (fuel : nat) (m : mem) (p total largest count : Z) : option (Z * Z * Z) :=
  match fuel with
  | O => None
  | S fuel =>
      if p =? NULL then Some (total, largest, count)
      else
        let s := e_size m p in
        heap_dump_walk fuel m (e_next m p) (u64 (total + s))
          (if largest <? s then s else largest) (u64 (count + 1))
  end.

(** [Some None] is the NULL-heap message. *)
Definition heap_dump (fuel : nat) (heap : option heap_t) (m : mem) : option (option (Z * Z * Z)) :=
  match heap with
  | None => Some None
  | Some h =>
      match heap_dump_walk fuel m (stqh_first m (h_list h)) 0 0 0 with
      | None => None
      | Some t => Some (Some t)
      end
  end.

(** ** Abstract view: the free list as a list of (address, size) blocks *)

(** The entries reached from the pointer stored at address [link]. *)
Fixpoint chain (m : mem) (link : Z) (l : list (Z * Z)) : Prop :=
  match l with
  | [] => ld64 m link = NULL
  | (a, s) :: l => ld64 m link = a ∧ e_size m a = s ∧ chain m a l
  end.

(** Sorted, disjoint blocks of at least a header each, inside [lo, hi). *)
Fixpoint blocks (lo : Z) (l : list (Z * Z)) (hi : Z) : Prop :=
  match l with
  | [] => lo ≤ hi
  | (a, s) :: l => lo ≤ a ∧ sizeof_heap_entry ≤ s ∧ blocks (a + s) l hi
  end.

Record heap_inv (h : heap_t) (m : mem) (l : list (Z * Z)) (lo hi : Z) : Prop := {
  hi_chain : chain m (h_list h) l;
  hi_blocks : blocks lo l hi;
  hi_lo : 0 < lo;
  hi_hi : hi < 2 ^ 64;
  hi_head : 0 < h_list h < 2 ^ 64 ∧ (h_list h + 16 ≤ lo ∨ hi ≤ h_list h);
}.

(** First fit: the block taken and the list left. *)
Fixpoint first_fit (n : Z) (l : list (Z * Z)) : option (Z * list (Z * Z)) :=
  match l with
  | [] => None
  | (a, s) :: l =>
      if n =? s then Some (a, l)
      else if n <=? s - sizeof_heap_entry then Some (a, (a + n, s - n) :: l)
      else match first_fit n l with
           | None => None
           | Some (r, l') => Some (r, (a, s) :: l')
           end
  end.

(** Returning a block: behind the last entry that starts below it, joined
    with its left neighbour when contiguous. *)
Fixpoint give_back (p n : Z) (l : list (Z * Z)) : list (Z * Z) :=
  match l with
  | [] => []
  | (a, s) :: l' =>
      match l' with
      | [] => l
      | (b, _) :: _ =>
          if p <? b then if a + s =? p then (a, s + n) :: l' else (a, s) :: (p, n) :: l'
          else (a, s) :: give_back p n l'
      end
  end.

Definition block_sum (l : list (Z * Z)) : Z := foldr (λ '(_, s) t, s + t) 0 l.

(** ** Lemmas *)

Section Lemmas.
Implicit Types (m : mem) (l : list (Z * Z)) (h : heap_t).

Lemma blocks_le lo l hi : blocks lo l hi → lo ≤ hi.
Proof.
  revert lo. induction l as [|[a s] l IH]; intros lo; simpl; [done|].
  unfold sizeof_heap_entry. intros (? & ? & H%IH). lia.
Qed.

Lemma blocks_weaken lo lo' l hi : lo' ≤ lo → blocks lo l hi → blocks lo' l hi.
Proof. destruct l as [|[a s] l]; simpl; [lia|]. intros ? (? & ? & ?). split_and!; auto; lia. Qed.

(** A chain survives any change outside its headers, even moved to another link. *)
Lemma chain_frame_headers m m' link link' l :
  ld64 m' link' = ld64 m link →
  Forall (λ '(a, _), ∀ b, a ≤ b < a + 16 → ld8 m' b = ld8 m b) l →
  chain m link l → chain m' link' l.
Proof.
  revert link link'. induction l as [|[a s] l IH]; intros link link' Hl Hm; simpl in *.
  { congruence. }
  apply Forall_cons in Hm as [Hm Hms]. intros (Ha & Hsz & Hc).
  split_and!; [congruence| |].
  - unfold e_size in *. rewrite <-Hsz. apply load_ext. intros. apply Hm. lia.
  - apply (IH a a); [|done|done]. apply load_ext. intros. apply Hm. lia.
Qed.

Lemma blocks_forall lo l hi : blocks lo l hi → Forall (λ '(a, s), lo ≤ a ∧ 16 ≤ s ∧ a + s ≤ hi) l.
Proof.
  revert lo. induction l as [|[a s] l IH]; intros lo; simpl; [constructor|].
  unfold sizeof_heap_entry. intros (? & ? & Hb). pose proof (blocks_le _ _ _ Hb).
  constructor; [lia|]. eapply Forall_impl; [by apply IH|]. intros [? ?]. simpl. lia.
Qed.

Lemma chain_frame m m' link link' lo l hi :
  blocks lo l hi → ld64 m' link' = ld64 m link →
  (∀ b, lo ≤ b < hi → ld8 m' b = ld8 m b) →
  chain m link l → chain m' link' l.
Proof.
  intros Hb Hl Hm. apply chain_frame_headers; [done|].
  eapply Forall_impl; [by apply blocks_forall|]. intros [a s] ? b ?. simpl in *. apply Hm. lia.
Qed.

Lemma chain_link m link l : chain m link l → ld64 m link = match l with [] => NULL | (a, _) :: _ => a end.
Proof. destruct l as [|[a s] l]; simpl; tauto. Qed.

Lemma first_fit_blocks n lo l hi r l' :
  16 ≤ n → blocks lo l hi → first_fit n l = Some (r, l') → blocks lo l' hi ∧ lo ≤ r ∧ r + n ≤ hi.
Proof.
  intros Hn. revert lo l'. induction l as [|[a s] l IH]; intros lo l'; simpl; [done|].
  unfold sizeof_heap_entry. intros (? & ? & Hb). pose proof (blocks_le _ _ _ Hb).
  destruct (Z.eqb_spec n s).
  { intros [= <- <-]. split; [|lia]. eapply blocks_weaken; [|done]. lia. }
  destruct (Z.leb_spec n (s - 16)).
  { intros [= <- <-]. simpl. unfold sizeof_heap_entry. split_and!; try lia.
    by replace (a + n + (s - n)) with (a + s) by lia. }
  destruct (first_fit n l) as [[r' l'']|]; [|done]. intros [= <- <-].
  destruct (IH _ _ Hb eq_refl) as (? & ? & ?). simpl. unfold sizeof_heap_entry.
  split_and!; try done; lia.
Qed.

Lemma first_fit_sum n l r l' : first_fit n l = Some (r, l') → block_sum l' = block_sum l - n.
Proof.
  revert l'. induction l as [|[a s] l IH]; intros l'; simpl; [done|].
  destruct (Z.eqb_spec n s); [intros [= <- <-]; lia|].
  destruct (n <=? s - sizeof_heap_entry); [intros [= <- <-]; simpl; lia|].
  destruct (first_fit n l) as [[r' l'']|]; [|done]. intros [= <- <-].
  simpl. rewrite (IH _ eq_refl). lia.
Qed.

Lemma alloc_loop_spec fuel m total phd l lo hi n :
  chain m phd l → blocks lo l hi → 0 < lo → hi < 2 ^ 64 →
  phd + 8 ≤ lo ∨ hi ≤ phd → 16 ≤ n → l ≠ [] → (length l ≤ fuel)%nat →
  match first_fit n l with
  | None => alloc_loop fuel m total phd (ld64 m phd) n = Some (NULL, total, m)
  | Some (r, l') => ∃ m',
      alloc_loop fuel m total phd (ld64 m phd) n = Some (r, u64 (total - n), m') ∧
      chain m' phd l' ∧
      (∀ b, ¬ (phd ≤ b < phd + 8) → ¬ (lo ≤ b < hi) → ld8 m' b = ld8 m b)
  end.
Proof.
  revert phd fuel lo. induction l as [|[a s] l IH]; intros phd fuel lo Hc Hb Hlo Hhi Hp Hn Hl Hf; [done|].
  destruct fuel as [|fuel]; simpl in Hf; [lia|].
  destruct Hc as (Hhd & Hsz & Hc). destruct Hb as (Ha & Hs & Hb).
  pose proof (blocks_le _ _ _ Hb) as Hle. unfold sizeof_heap_entry in Hs.
  assert (Hs16 : u64 (s - sizeof_heap_entry) = s - 16)
    by (apply (wrap_small 64); unfold in_word, sizeof_heap_entry; lia).
  simpl. rewrite Hhd, Hsz, Hs16. change sizeof_heap_entry with 16.
  destruct (Z.eqb_spec n s) as [->|Hne].
  { eexists. split_and!; [done| |intros; unfold set_next; by mem_step].
    eapply (chain_frame m); [done| |intros; unfold set_next; by mem_step|done].
    unfold set_next. mem_step. apply (wrap_small 64). apply (load_range 8). }
  destruct (Z.leb_spec n (s - 16)) as [Hfit|Hnofit].
  { assert (Hnxt : RTE_PTR_ADD a n = a + n) by (unfold RTE_PTR_ADD; by wsmall).
    assert (Hrem : u64 (s - n) = s - n) by (by wsmall).
    rewrite Hnxt. unfold set_next, set_size, e_next, e_size in *.
    replace (load 8 (st64 m (a + n) (ld64 m a)) (a + 8)) with s by (by mem_step).
    rewrite Hrem. eexists. split_and!; [done| |].
    - simpl. unfold e_size. split_and!.
      + mem_step. by wsmall.
      + mem_simpl. by wsmall.
      + eapply (chain_frame m); [done| |intros; mem_simpl; done|done].
        mem_simpl. apply (wrap_small 64). apply (load_range 8).
    - intros. mem_simpl. done. }
  pose proof (chain_link _ _ _ Hc) as Hlink.
  destruct l as [|[b t] l].
  { simpl. unfold e_next. rewrite Hlink. done. }
  unfold e_next. assert ((ld64 m a =? NULL) = false) as ->.
  { rewrite Hlink. simpl in Hb. apply Z.eqb_neq. unfold NULL. lia. }
  specialize (IH a fuel (a + s) Hc Hb).
  destruct (first_fit n ((b, t) :: l)) as [[r l']|] eqn:Hfit; [|apply IH; simpl in *; lia || done].
  destruct IH as (m' & Heq & Hc' & Hm'); [simpl in *; lia || done ..|].
  exists m'. split_and!; [done| |].
  - simpl. split_and!; [|unfold e_size|done].
    + rewrite <-Hhd. apply load_ext. intros. apply Hm'; lia.
    + rewrite <-Hsz. unfold e_size. apply load_ext. intros. apply Hm'; lia.
  - intros. apply Hm'; lia.
Qed.
End Lemmas.

(** The block handed out and the blocks kept do not overlap. *)
Definition disjoint_from (r n : Z) (l : list (Z * Z)) : Prop :=
  Forall (λ '(a, s), r + n ≤ a ∨ a + s ≤ r) l.

Lemma blocks_above lo l hi r n : blocks lo l hi → r + n ≤ lo → disjoint_from r n l.
Proof.
  revert lo. induction l as [|[a s] l IH]; intros lo; simpl; [constructor|].
  unfold sizeof_heap_entry. intros (? & ? & Hb) ?. constructor; [lia|].
  apply (IH (a + s)); [done|lia].
Qed.

Lemma first_fit_disjoint n lo l hi r l' :
  16 ≤ n → blocks lo l hi → first_fit n l = Some (r, l') → disjoint_from r n l'.
Proof.
  intros Hn. revert lo l'. induction l as [|[a s] l IH]; intros lo l'; simpl; [done|].
  unfold sizeof_heap_entry. intros (? & ? & Hb).
  destruct (Z.eqb_spec n s).
  { intros [= <- <-]. eapply blocks_above; [done|lia]. }
  destruct (Z.leb_spec n (s - 16)).
  { intros [= <- <-]. constructor; [lia|]. eapply blocks_above; [done|lia]. }
  destruct (first_fit n l) as [[r' l'']|] eqn:Hf; [|done]. intros [= <- <-].
  destruct (first_fit_blocks _ _ _ _ _ _ Hn Hb Hf) as (? & ? & ?).
  constructor; [lia|]. by eapply IH.
Qed.

Lemma RTE_ALIGN_CEIL_16 v : 0 ≤ v → v + 15 < 2 ^ 64 → RTE_ALIGN_CEIL v 16 = 16 * ((v + 15) / 16).
Proof.
  intros Hv Hb. unfold RTE_ALIGN_CEIL. change (16 - 1) with 15.
  rewrite (wrap_small 64 (v + 15)) by (unfold in_word; lia).
  unfold wrap. rewrite <-(Z.land_ones (Z.lnot 15)) by lia.
  rewrite (Z.land_comm (Z.lnot 15)), Z.land_assoc, Z.land_ones by lia.
  rewrite Z.mod_small by lia. change 15 with (Z.ones 4) at 2.
  rewrite <-Z.ldiff_land, Z.ldiff_ones_r by lia.
  rewrite Z.shiftl_mul_pow2, Z.shiftr_div_pow2 by lia. change (2 ^ 4) with 16. lia.
Qed.

Lemma alloc_size_spec size : 0 < size → size + 15 < 2 ^ 64 →
  alloc_size size = 16 * ((size + 15) / 16) ∧ 16 ≤ alloc_size size ∧ size ≤ alloc_size size < size + 16.
Proof.
  intros Hs Hb. unfold alloc_size, sizeof_heap_entry. rewrite RTE_ALIGN_CEIL_16 by lia.
  pose proof (Z.div_mod (size + 15) 16). pose proof (Z.mod_pos_bound (size + 15) 16).
  destruct (Z.ltb_spec (16 * ((size + 15) / 16)) 16); lia.
Qed.

(** What linking a block behind [q] writes: the headers of the block and of [q]. *)
Lemma free_insert_frame m p q n b :
  ¬ (p ≤ b < p + 16) → ¬ (q ≤ b < q + 16) → ld8 (free_insert m p q n) b = ld8 m b.
Proof.
  intros Hp Hq. unfold free_insert, set_next, set_size.
  destruct (RTE_PTR_ADD p n =? e_next m q), (RTE_PTR_ADD q _ =? p); by mem_simpl.
Qed.

(** Linking [p] directly behind the entry [a], when it does not touch the next one. *)
Lemma free_insert_here m link a s b t l lo hi p n :
  chain m link ((a, s) :: (b, t) :: l) → blocks lo ((a, s) :: (b, t) :: l) hi →
  0 < lo → hi < 2 ^ 64 → link + 8 ≤ lo ∨ hi ≤ link → 16 ≤ n →
  a + s ≤ p → p + n < b → e_size m p = n →
  chain (free_insert m p a n) link
    (if a + s =? p then (a, s + n) :: (b, t) :: l else (a, s) :: (p, n) :: (b, t) :: l).
Proof.
  intros (Hla & Hsa & Hc) (? & ? & Hb) Hlo Hhi Hlink Hn Hap Hpb Hsp.
  pose proof (blocks_le _ _ _ Hb) as Hle. pose proof (blocks_forall _ _ _ Hb) as Hall.
  apply Forall_cons in Hall as [Hbt Hall]. unfold sizeof_heap_entry in *.
  assert (Hnext : ld64 m a = b) by (by destruct Hc).
  unfold free_insert, e_next, set_next, set_size, RTE_PTR_ADD in *. unfold e_size in *.
  rewrite (wrap_small 64 (p + n)) by (unfold in_word; simpl in Hb; lia). rewrite Hnext.
  destruct (Z.eqb_spec (p + n) b); [lia|].
  assert (Hsa' : ld64 (st64 m p b) (a + 8) = s) by (by mem_step).
  rewrite Hsa', (wrap_small 64 (a + s)) by (unfold in_word; lia).
  assert (Hw : u64 b = b) by (by wsmall).
  assert (Hr : ∀ m', (∀ c, b ≤ c < hi → ld8 m' c = ld8 m c) → ∀ x, ld64 m' x = b → chain m' x ((b, t) :: l)).
  { intros m' Hm' x Hx. apply (chain_frame m m' a x b _ hi); [|congruence|done|done].
    destruct Hb as (_ & ? & ?). split_and!; [lia|done|done]. }
  destruct (Z.eqb_spec (a + s) p) as [Hadj|Hadj].
  - split; [|split]; unfold e_size.
    + mem_simpl. done.
    + mem_simpl. rewrite Hsp. by wsmall.
    + apply Hr; [intros; by mem_simpl|]. mem_simpl. by rewrite wrap_wrap.
  - split; [|split; [|split; [|split]]]; unfold e_size.
    + mem_simpl. done.
    + mem_simpl. done.
    + mem_simpl. by wsmall.
    + mem_simpl. done.
    + apply Hr; [intros; by mem_simpl|]. by mem_simpl.
Qed.

Lemma chain_head_nonnull m link a s l lo hi :
  chain m link ((a, s) :: l) → blocks lo ((a, s) :: l) hi → 0 < lo → a ≠ NULL.
Proof. intros _ (? & _) ?. unfold NULL. lia. Qed.

Lemma free_search_insert fuel m link a s l lo hi p n :
  chain m link ((a, s) :: l) → blocks lo ((a, s) :: l) hi →
  0 < lo → hi < 2 ^ 64 → link + 8 ≤ lo ∨ hi ≤ link → 16 ≤ n →
  a < p → disjoint_from p n ((a, s) :: l) → Forall (λ '(b, _), p + n ≠ b) l →
  Exists (λ '(b, _), p < b) l → p + n ≤ hi → e_size m p = n → (length l ≤ fuel)%nat →
  ∃ q, free_search fuel m p a = Some q ∧ a ≤ q ∧ q + 16 ≤ hi ∧
       chain (free_insert m p q n) link (give_back p n ((a, s) :: l)) ∧
       blocks lo (give_back p n ((a, s) :: l)) hi.
Proof.
  revert link a s lo fuel.
  induction l as [|[b t] l IH]; intros link a s lo fuel Hc Hb Hlo Hhi Hlink Hn Hap Hd Hadj Hex Hphi Hsp Hf.
  { by apply Exists_nil in Hex. }
  destruct fuel as [|fuel]; simpl in Hf; [lia|].
  pose proof Hc as (Hla & Hsa & Hc'). pose proof Hb as (Hloa & Hs & Hb').
  pose proof (chain_head_nonnull _ _ _ _ _ _ _ Hc Hb Hlo) as Hnn.
  apply Forall_cons in Hd as [Hda Hd]. apply Forall_cons in Hadj as [Hadjb Hadj].
  apply Forall_cons in Hd as [Hdb Hd]. unfold sizeof_heap_entry in *. simpl in Hda, Hdb, Hadjb.
  pose proof Hb' as (? & ? & Hb''). unfold sizeof_heap_entry in *.
  pose proof (blocks_le _ _ _ Hb'') as ?.
  assert (Hnext : e_next m a = b) by (by destruct Hc').
  simpl free_search. rewrite Hnext. destruct (Z.eqb_spec a NULL); [done|].
  destruct (Z.ltb_spec p b) as [Hpb|Hpb].
  - exists a. split_and!; [done|lia|lia| |].
    + assert ((p <? b) = true) as Hltb by (by apply Z.ltb_lt).
      simpl. rewrite Hltb. eapply free_insert_here; try done; lia.
    + simpl. destruct (Z.ltb_spec p b); [|lia].
      destruct (Z.eqb_spec (a + s) p); simpl; unfold sizeof_heap_entry; split_and!; try done; try lia.
      all: eapply (blocks_weaken _ b); [lia|]; simpl; split_and!; done || lia.
  - apply Exists_cons in Hex as [?|Hex]; [lia|].
    destruct (IH a b t (a + s) fuel) as (q & Hq & Hqa & Hqh & Hcq & Hbq); try done; try lia.
    { by constructor. }
    exists q. simpl in *. destruct (Z.ltb_spec p b); [lia|]. split_and!; try done; try lia.
    simpl. assert (Hfr : ∀ c, c < a + s ∨ hi ≤ c → ld8 (free_insert m p q n) c = ld8 m c).
    { intros c Hcc. apply free_insert_frame; lia. }
    split_and!; [| |done].
    + rewrite <-Hla. apply load_ext. intros. apply Hfr. lia.
    + rewrite <-Hsa. unfold e_size. apply load_ext. intros. apply Hfr. lia.
Qed.

(** ** Correctness *)

(** The words a fresh heap consists of. *)
Lemma heap_create_words hl m addr size :
  0 < addr → sizeof_heap_entry ≤ size → addr + size < 2 ^ 64 →
  0 < hl < 2 ^ 64 → hl + 16 ≤ addr ∨ addr + size ≤ hl →
  ∃ m', heap_create (Some hl) m addr size = Some (mk_heap hl addr size, m') ∧
        ld64 m' hl = addr ∧ ld64 m' (hl + 8) = addr ∧ ld64 m' addr = NULL ∧ ld64 m' (addr + 8) = size.
Proof.
  intros Ha Hs Hb Hhl Hd. unfold heap_create, sizeof_heap_entry in *.
  destruct (Z.ltb_spec size 16); [lia|]. eexists. split; [done|].
  unfold STAILQ_INSERT_TAIL, STAILQ_INIT, set_next, set_size, stqh_last.
  assert (Hw : u64 hl = hl) by (by wsmall).
  assert (Hlast : ld64 (st64 (st64 (st64 (st64 (st64 m hl NULL) (hl + 8) hl) addr NULL)
     (addr + 8) size) addr NULL) (hl + 8) = hl) by (mem_simpl; exact Hw).
  rewrite Hlast. split_and!; mem_simpl; try done; by wsmall.
Qed.

(**  [heap_create] over a region of at least one header gives a heap whose
    free list is exactly that region. *)
Theorem heap_create_spec hl m addr size :
  0 < addr → sizeof_heap_entry ≤ size → addr + size < 2 ^ 64 →
  0 < hl < 2 ^ 64 → hl + 16 ≤ addr ∨ addr + size ≤ hl →
  ∃ m', heap_create (Some hl) m addr size = Some (mk_heap hl addr size, m') ∧
        heap_inv (mk_heap hl addr size) m' [(addr, size)] addr (addr + size).
Proof.
  intros Ha Hs Hb Hhl Hd.
  destruct (heap_create_words hl m addr size) as (m' & -> & ? & ? & ? & ?); try done.
  exists m'. split; [done|]. constructor; simpl; done || lia.
Qed.

(**  [heap_alloc] implements first fit: when the accounting allows it and a
    block fits, the first fitting block (exact, or with room for a header in
    what is left) is taken from its front, the rest stays on the list, the
    total is charged, and the block returned overlaps nothing that is still
    free; otherwise NULL is returned and nothing changes. *)
Theorem heap_alloc_spec fuel h m l lo hi size :
  heap_inv h m l lo hi → 0 < size → size + 15 < 2 ^ 64 → (length l ≤ fuel)%nat →
  let n := alloc_size size in
  match (if n <=? total_space h then first_fit n l else None) with
  | None => heap_alloc fuel (Some h) m size = Some (NULL, Some h, m)
  | Some (r, l') => ∃ m',
      let h' := h <| total_space := u64 (total_space h - n) |> in
      heap_alloc fuel (Some h) m size = Some (r, Some h', m') ∧
      heap_inv h' m' l' lo hi ∧ size ≤ n ∧ lo ≤ r ∧ r + n ≤ hi ∧
      disjoint_from r n l' ∧ block_sum l' = block_sum l - n
  end.
Proof.
  intros [Hc Hb Hlo Hhi [Hhl Hhd]] Hs Hs15 Hf n.
  destruct (alloc_size_spec size Hs Hs15) as (_ & Hn16 & Hns). fold n in Hn16, Hns.
  pose proof (chain_link _ _ _ Hc) as Hlink. unfold heap_alloc. fold n. unfold stqh_first.
  destruct (Z.eqb_spec size 0); [lia|].
  destruct l as [|[a s] l].
  { simpl. rewrite Hlink. by destruct (n <=? total_space h). }
  pose proof (chain_head_nonnull _ _ _ _ _ _ _ Hc Hb Hlo) as Hnn.
  destruct (Z.eqb_spec (ld64 m (h_list h)) NULL); [congruence|].
  destruct (Z.leb_spec n (total_space h)) as [Hfit|]; [|done].
  pose proof (alloc_loop_spec fuel m (total_space h) (h_list h) _ lo hi n Hc Hb Hlo Hhi) as Hloop.
  destruct (first_fit n ((a, s) :: l)) as [[r l']|] eqn:Hff.
  - destruct Hloop as (m' & -> & Hc' & _); [lia|lia|done|done|].
    destruct (first_fit_blocks _ _ _ _ _ _ Hn16 Hb Hff) as (? & ? & ?).
    exists m'. split_and!; [done| |lia|done|done| |by eapply first_fit_sum].
    + by constructor.
    + exact (first_fit_disjoint _ _ _ _ _ _ Hn16 Hb Hff).
  - rewrite Hloop by (done || lia). by destruct h.
Qed.

(**  [heap_free] of an allocated block that lies above the first free block,
    below the last one and does not touch its right neighbour puts the block
    back in address order, joined to its left neighbour when contiguous. *)
Theorem heap_free_spec fuel h m a s l lo hi p n :
  heap_inv h m ((a, s) :: l) lo hi → 16 ≤ n → a < p → p + n ≤ hi →
  disjoint_from p n ((a, s) :: l) → Forall (λ '(b, _), p + n ≠ b) l →
  Exists (λ '(b, _), p < b) l → (length l ≤ fuel)%nat →
  ∃ m', heap_free fuel (Some h) m p n = Some (0, m') ∧
        heap_inv h m' (give_back p n ((a, s) :: l)) lo hi ∧
        block_sum (give_back p n ((a, s) :: l)) = block_sum ((a, s) :: l) + n.
Proof.
  intros [Hc Hb Hlo Hhi [Hhl Hhd]] Hn Hap Hphi Hd Hadj Hex Hf.
  pose proof Hb as (Hloa & _). unfold heap_free.
  destruct (Z.eqb_spec p NULL) as [Hp0|_]; [unfold NULL in *; lia|].
  destruct (Z.eqb_spec n 0) as [|_]; [lia|]. simpl orb. cbv iota.
  set (m1 := set_size (set_next m p NULL) p n).
  assert (Hm1 : ∀ c, ¬ (p ≤ c < p + 16) → ld8 m1 c = ld8 m c).
  { intros c Hcp. unfold m1, set_size, set_next. by mem_simpl. }
  assert (Hlm : ld64 m1 (h_list h) = ld64 m (h_list h)).
  { apply load_ext. intros. apply Hm1. lia. }
  assert (Hc1 : chain m1 (h_list h) ((a, s) :: l)).
  { apply (chain_frame_headers m m1 (h_list h) (h_list h)); [done| |done].
    pose proof (blocks_forall _ _ _ Hb) as Hall. apply Forall_forall. intros [b t] Hin c Hcb.
    pose proof (proj1 (Forall_forall _ _) Hd _ Hin) as Hdb.
    pose proof (proj1 (Forall_forall _ _) Hall _ Hin) as Hb2. simpl in Hdb, Hb2. apply Hm1. lia. }
  assert (Hsp : e_size m1 p = n).
  { unfold e_size, m1, set_size. mem_simpl. by wsmall. }
  destruct (free_search_insert fuel m1 (h_list h) a s l lo hi p n) as (q & Hq & Hqa & Hqh & Hcq & Hbq);
    try done; try lia.
  replace (stqh_first m1 (h_list h)) with a by (destruct Hc1; done).
  rewrite Hq. destruct (Z.eqb_spec q NULL); [unfold NULL in *; lia|].
  eexists. split_and!; [done| |].
  - by constructor.
  - clear -Hex. revert a s. induction l as [|[b t] l IH]; intros a s.
    { by apply Exists_nil in Hex. }
    simpl. apply Exists_cons in Hex as [?|Hex].
    + destruct (Z.ltb_spec p b); [|lia]. destruct (a + s =? p); simpl; lia.
    + destruct (p <? b); [destruct (a + s =? p); simpl; lia|].
      specialize (IH Hex b t). simpl in *. lia.
Qed.

(**  Defect: a block allocated from a fresh heap and freed again is lost.
    [heap_alloc] moves the head entry without updating [stqh_last], so the tail
    insertion of [heap_free] writes through the stale pointer into the freed
    block itself: success is reported, the free list is the one before the
    free, and [total_space] is not given back. *)
Theorem heap_alloc_free_loses_block hl m addr size n :
  0 < addr → addr + size < 2 ^ 64 → 0 < hl < 2 ^ 64 →
  hl + 16 ≤ addr ∨ addr + size ≤ hl → 0 < n → n + 15 < 2 ^ 64 → alloc_size n + 16 ≤ size →
  ∃ h0 m0 h1 m1 m2,
    heap_create (Some hl) m addr size = Some (h0, m0) ∧
    heap_alloc 1 (Some h0) m0 n = Some (addr, Some h1, m1) ∧
    heap_free 2 (Some h1) m1 addr n = Some (0, m2) ∧
    chain m1 hl [(addr + alloc_size n, size - alloc_size n)] ∧
    chain m2 hl [(addr + alloc_size n, size - alloc_size n)] ∧
    total_space h1 = size - alloc_size n.
Proof.
  intros Ha Hsz Hhl Hd Hn Hn15 Hfit.
  destruct (alloc_size_spec n Hn Hn15) as (_ & Hk16 & _). set (k := alloc_size n) in *.
  destruct (heap_create_words hl m addr size) as (m0 & Hcr & F1 & F2 & F3 & F4);
    try (unfold sizeof_heap_entry; lia). 
  unfold heap_alloc, heap_free, set_size, set_next, stqh_first, e_next, e_size in *.
  exists (mk_heap hl addr size), m0. fold k. simpl h_list. simpl total_space.
  destruct (Z.eqb_spec n 0); [lia|]. rewrite F1.
  destruct (Z.eqb_spec addr NULL); [unfold NULL in *; lia|].
  destruct (Z.leb_spec k size); [|lia].
  simpl alloc_loop. unfold e_size, e_next, set_next, set_size, RTE_PTR_ADD, sizeof_heap_entry. rewrite F4.
  destruct (Z.eqb_spec k size); [lia|]. wsmall.
  destruct (Z.leb_spec k (size - 16)); [|lia]. rewrite load_store_ne, F4, F3 by lia. wsmall.
  set (m1 := st64 _ hl (addr + k)).
  assert (G1 : ld64 m1 hl = addr + k) by (unfold m1; mem_simpl; by wsmall).
  assert (G2 : ld64 m1 (hl + 8) = addr) by (unfold m1; by mem_simpl).
  assert (G3 : ld64 m1 (addr + k) = NULL) by (unfold m1; by mem_simpl).
  assert (G4 : ld64 m1 (addr + k + 8) = size - k) by (unfold m1; mem_simpl; by wsmall).
  eexists _, m1, _. split_and!; [done|done| | | |done].
  - simpl. destruct (Z.eqb_spec addr NULL), (Z.eqb_spec n 0); [lia..|]. simpl. mem_simpl. rewrite G1.
    destruct (Z.eqb_spec (addr + k) NULL); [unfold NULL in *; lia|]. unfold e_next. mem_simpl. rewrite G3.
    destruct (Z.ltb_spec addr NULL); [unfold NULL in *; lia|]. done.
  - simpl. unfold e_size. done.
  - clearbody m1. unfold STAILQ_INSERT_TAIL, stqh_last, set_next.
    assert (E : ld64 (st64 (st64 (st64 m1 addr NULL) (addr + 8) n) addr NULL) (hl + 8) = addr)
      by (by mem_simpl).
    rewrite E. change (NULL =? NULL) with true. cbn [chain]. unfold e_size. split_and!; by mem_simpl.
Qed.

(** Joining a freed block to its right neighbour adds the size of
    the block's {e left} neighbour ([p->size += q->size]).  Here a 64-byte
    region is given back right below a free 64-byte one; the joined entry
    claims 314 bytes of the 128 there, and an allocation is then served from
    beyond the end of all memory the heap was ever given. *)
Definition demo_mem : mem := λ _, 0.
Definition demo_run : option (Z * list (Z * Z)) :=
  match heap_create (Some 64) demo_mem 4096 250 with
  | None => None
  | Some (h, m) =>
      match heap_free 5 (Some h) m (4096 + 1024) 64 with
      | None => None
      | Some (_, m) =>
          match heap_free 5 (Some h) m (4096 + 960) 64 with
          | None => None
          | Some (_, m) =>
              let e1 := stqh_first m (h_list h) in
              let e2 := e_next m e1 in
              let e3 := e_next m e2 in
              match heap_alloc 5 (Some h) m 240 with
              | None => None
              | Some (r, _, _) => Some (r, [(e1, e_size m e1); (e2, e_size m e2); (e3, NULL)])
              end
          end
      end
  end.

Theorem heap_free_join_overruns :
  demo_run = Some (4096 + 960, [(4096, 250); (4096 + 960, 314); (NULL, NULL)]) ∧
  4096 + 1024 + 64 < (4096 + 960) + alloc_size 240.
Proof. split; vm_compute; reflexivity. Qed.

(** ** Witnesses: a 256-byte region at 4096, its heap structure at 64 *)

Lemma heap_create_spec_witness :
  0 < 4096 ∧ ∃ m', heap_create (Some 64) demo_mem 4096 256 = Some (mk_heap 64 4096 256, m') ∧
    heap_inv (mk_heap 64 4096 256) m' [(4096, 256)] 4096 (4096 + 256).
Proof. split; [lia|]. apply heap_create_spec; unfold sizeof_heap_entry; lia. Defined.

(** Three free regions, as two further [heap_free]s hand them to the heap. *)
Definition demo3 : mem :=
  st64 (st64 (st64 (st64 (st64 (st64 (st64 demo_mem 64 4096) 4096 5120) 4104 64) 5120 6144) 5128 128) 6144 0) 6152 64.
Definition demo3_blocks : list (Z * Z) := [(4096, 64); (5120, 128); (6144, 64)].

Lemma demo3_inv : heap_inv (mk_heap 64 4096 256) demo3 demo3_blocks 4096 8192.
Proof.
  constructor; [vm_compute; tauto|vm_compute; repeat split; discriminate|lia|lia|simpl; lia].
Qed.

Lemma heap_alloc_spec_witness :
  heap_inv (mk_heap 64 4096 256) demo3 demo3_blocks 4096 8192 ∧
  alloc_size 100 = 112 ∧ first_fit 112 demo3_blocks = Some (5120, [(4096, 64); (5232, 16); (6144, 64)]) ∧
  ∃ m', let h' := (mk_heap 64 4096 256) <| total_space := u64 (256 - alloc_size 100) |> in
      heap_alloc 3 (Some (mk_heap 64 4096 256)) demo3 100 = Some (5120, Some h', m') ∧
      heap_inv h' m' [(4096, 64); (5232, 16); (6144, 64)] 4096 8192 ∧ 100 ≤ alloc_size 100 ∧
      4096 ≤ 5120 ∧ 5120 + alloc_size 100 ≤ 8192 ∧
      disjoint_from 5120 (alloc_size 100) [(4096, 64); (5232, 16); (6144, 64)] ∧
      block_sum [(4096, 64); (5232, 16); (6144, 64)] = block_sum demo3_blocks - alloc_size 100.
Proof.
  split; [exact demo3_inv|]. split; [vm_compute; reflexivity|]. split; [vm_compute; reflexivity|].
  exact (heap_alloc_spec 3 (mk_heap 64 4096 256) demo3 demo3_blocks 4096 8192 100
    demo3_inv ltac:(lia) ltac:(lia) ltac:(simpl; lia)).
Defined.

Lemma heap_free_spec_witness :
  heap_inv (mk_heap 64 4096 256) demo3 demo3_blocks 4096 8192 ∧
  give_back 5248 32 demo3_blocks = [(4096, 64); (5120, 160); (6144, 64)] ∧
  ∃ m', heap_free 3 (Some (mk_heap 64 4096 256)) demo3 5248 32 = Some (0, m') ∧
    heap_inv (mk_heap 64 4096 256) m' [(4096, 64); (5120, 160); (6144, 64)] 4096 8192 ∧
    block_sum [(4096, 64); (5120, 160); (6144, 64)] = block_sum demo3_blocks + 32.
Proof.
  split; [exact demo3_inv|]. split; [vm_compute; reflexivity|].
  refine (heap_free_spec 3 (mk_heap 64 4096 256) demo3 4096 64 [(5120, 128); (6144, 64)] 4096 8192 5248 32
    demo3_inv ltac:(lia) ltac:(lia) ltac:(lia) _ _ _ ltac:(simpl; lia)).
  - repeat constructor; lia.
  - repeat constructor; lia.
  - right. left. lia.
Defined.

Lemma heap_alloc_free_loses_block_witness :
  0 < 4096 ∧ ∃ h0 m0 h1 m1 m2,
    heap_create (Some 64) demo_mem 4096 256 = Some (h0, m0) ∧
    heap_alloc 1 (Some h0) m0 32 = Some (4096, Some h1, m1) ∧
    heap_free 2 (Some h1) m1 4096 32 = Some (0, m2) ∧
    chain m1 64 [(4096 + alloc_size 32, 256 - alloc_size 32)] ∧
    chain m2 64 [(4096 + alloc_size 32, 256 - alloc_size 32)] ∧
    total_space h1 = 256 - alloc_size 32.
Proof.
  split; [lia|]. apply heap_alloc_free_loses_block; try lia.
  vm_compute. discriminate.
Defined.
