(* ===== verification/Cksum.v ===== *)
(** * Internet checksums

    [lib/common/cksum.c] of pktgen and the checksum routines of DPDK's
    [librte_net/rte_ip.h] that pktgen's header constructors call.  The
    buffers are addresses in a [mem]; every accumulator is 32 bits wide and
    every result 16 bits wide, as in the code.  The reference is RFC 1071's
    ones' complement sum over big-endian words. *)
From S2P Require Import Prelude Mem.

(** ** lib/common/cksum.c *)

(** [cksum += *pWd++] *)
Definition add_word (m : mem) (st : Z * Z) : Z * Z :=
  let '(c, pWd) := st in (u32 (c + ld16 m pWd), pWd + 2).

(** The three phases of [cksumUpdate]: sixteen words per turn, the words that
    remain, and the low byte of the word that holds the odd byte. *)
Definition cksumUpdate (m : mem) (pBuf size ck : Z) : Z :=
  let blocks := Z.to_nat (u32 (Z.shiftr size 5)) in
  let st := Nat.iter blocks (Nat.iter 16 (add_word m)) (ck, pBuf) in
  let words := Z.to_nat (Z.shiftr (Z.land size 0x1f) 1) in
  let '(c, pWd) := Nat.iter words (add_word m) st in
  if Z.land size 1 =? 0 then c
  else u32 (c + Z.land (ld16 m pWd) (htons 0xFF00)).

Definition cksumDone (ck : Z) : Z :=
  let ck := u32 (Z.land ck 0xFFFF + Z.shiftr ck 16) in
  let ck := u32 (Z.land ck 0xFFFF + Z.shiftr ck 16) in
  u16 (Z.lnot (u16 ck)).

Definition cksum (m : mem) (pBuf size ck : Z) : Z :=
  cksumDone (cksumUpdate m pBuf size ck).

Definition pseudoChecksum (src dst pro len sum : Z) : Z :=
  u32 (sum + Z.land src 0xFFFF + Z.shiftr src 16 + Z.land dst 0xFFFF +
       Z.shiftr dst 16 + ntohs len + ntohs pro).

(** Eight turns of the loop over the two address arrays. *)
Fixpoint addr_words (n : nat) (m : mem) (src dst sum : Z) : Z :=
  match n with
  | O => sum
  | S n => addr_words n m (src + 2) (dst + 2)
             (u32 (u32 (sum + ld16 m src) + ld16 m dst))
  end.

Definition pseudoIPv6Checksum (m : mem) (src dst next_hdr total_len sum : Z) : Z :=
  let len := htonl total_len in
  let sum := u32 (sum + next_hdr + Z.land len 0xFFFF + Z.shiftr len 16) in
  addr_words 8 m src dst sum.

(** ** librte_net/rte_ip.h *)

(** [while (len >= 8)]: four words per turn.  The fuel is the length. *)
Fixpoint raw_quads (fuel : nat) (m : mem) (p len sum : Z) : Z * Z * Z :=
  match fuel with
  | O => (p, len, sum)
  | S fuel =>
      if 8 <=? len then
        let '(sum, p) := Nat.iter 4 (add_word m) (sum, p) in
        raw_quads fuel m p (len - 8) sum
      else (p, len, sum)
  end.

Fixpoint raw_words (fuel : nat) (m : mem) (p len sum : Z) : Z * Z * Z :=
  match fuel with
  | O => (p, len, sum)
  | S fuel =>
      if 2 <=? len then
        let '(sum, p) := add_word m (sum, p) in raw_words fuel m p (len - 2) sum
      else (p, len, sum)
  end.

Definition __rte_raw_cksum (m : mem) (buf len sum : Z) : Z :=
  let '(p, len, sum) := raw_quads (Z.to_nat len) m buf len sum in
  let '(p, len, sum) := raw_words (Z.to_nat len) m p len sum in
  if len =? 1 then u32 (sum + ld8 m p) else sum.

Definition __rte_raw_cksum_reduce (sum : Z) : Z :=
  let sum := u32 (Z.shiftr (Z.land sum 0xffff0000) 16 + Z.land sum 0xffff) in
  let sum := u32 (Z.shiftr (Z.land sum 0xffff0000) 16 + Z.land sum 0xffff) in
  u16 sum.

Definition rte_raw_cksum (m : mem) (buf len : Z) : Z :=
  __rte_raw_cksum_reduce (__rte_raw_cksum m buf len 0).

Definition sizeof_ipv4_hdr : Z := 20.

Definition rte_ipv4_cksum (m : mem) (ip : Z) : Z :=
  let c := rte_raw_cksum m ip sizeof_ipv4_hdr in
  if c =? 0xffff then c else u16 (Z.lnot c).

Definition PKT_TX_TCP_SEG : Z := Z.shiftl 1 50.

(** The local [struct ipv4_psd_header]: twelve bytes of a memory of its own. *)
Definition ipv4_psd_header (src_addr dst_addr proto len : Z) : mem :=
  let m := λ _, 0 in
  let m := st32 m 0 src_addr in
  let m := st32 m 4 dst_addr in
  let m := store 1 m 8 0 in
  let m := store 1 m 9 proto in
  st16 m 10 len.

Definition rte_ipv4_phdr_cksum (m : mem) (ip ol_flags : Z) : Z :=
  let len := if Z.land ol_flags PKT_TX_TCP_SEG =? 0
             then htons (u16 (ntohs (ld16 m (ip + 2)) - sizeof_ipv4_hdr)) else 0 in
  let psd := ipv4_psd_header (ld32 m (ip + 12)) (ld32 m (ip + 16)) (ld8 m (ip + 9)) len in
  rte_raw_cksum psd 0 12.

(** The last fold, complement and zero substitution the two L4 routines share. *)
Definition l4_finish (c : Z) : Z :=
  let c := u32 (Z.shiftr (Z.land c 0xffff0000) 16 + Z.land c 0xffff) in
  let c := Z.land (u32 (Z.lnot c)) 0xffff in
  if c =? 0 then 0xffff else u16 c.

Definition rte_ipv4_udptcp_cksum (m : mem) (ip l4 : Z) : Z :=
  let l3_len := ntohs (ld16 m (ip + 2)) in
  if l3_len <? sizeof_ipv4_hdr then 0
  else
    let l4_len := u32 (l3_len - sizeof_ipv4_hdr) in
    l4_finish (u32 (rte_raw_cksum m l4 l4_len + rte_ipv4_phdr_cksum m ip 0)).

Definition ipv6_psd_header (len proto : Z) : mem :=
  st32 (st32 (λ _, 0) 0 len) 4 proto.

Definition rte_ipv6_phdr_cksum (m : mem) (ip ol_flags : Z) : Z :=
  let proto := u32 (Z.shiftl (ld8 m (ip + 6)) 24) in
  let len := if Z.land ol_flags PKT_TX_TCP_SEG =? 0 then ld16 m (ip + 4) else 0 in
  let sum := __rte_raw_cksum m (ip + 8) 32 0 in
  __rte_raw_cksum_reduce (__rte_raw_cksum (ipv6_psd_header len proto) 0 8 sum).

Definition rte_ipv6_udptcp_cksum (m : mem) (ip l4 : Z) : Z :=
  let l4_len := ntohs (ld16 m (ip + 4)) in
  l4_finish (u32 (rte_raw_cksum m l4 l4_len + rte_ipv6_phdr_cksum m ip 0)).

(** ** The reference: RFC 1071 *)

(** Sum of [k] little-endian words, without truncation. *)
Fixpoint sumw (k : nat) (m : mem) (p : Z) : Z :=
  match k with
  | O => 0
  | S k => ld16 m p + sumw k m (p + 2)
  end.

(** A buffer of [n] bytes: its words, and an odd last byte as the low half of a word. *)
Definition sum16 (m : mem) (p n : Z) : Z :=
  sumw (Z.to_nat (n / 2)) m p + (if Z.odd n then ld8 m (p + n - 1) else 0).

(** The bytes of a buffer, and their big-endian words. *)
Fixpoint bytes (n : nat) (m : mem) (p : Z) : list Z :=
  match n with
  | O => []
  | S n => ld8 m p :: bytes n m (p + 1)
  end.

Fixpoint be_words (l : list Z) : list Z :=
  match l with
  | h :: lo :: l => 256 * h + lo :: be_words l
  | [h] => [256 * h]
  | [] => []
  end.

(** Ones' complement addition: the carry comes back in at the right. *)
Definition oc_add (x y : Z) : Z := if x + y <? 65536 then x + y else x + y - 65535.

Definition rfc1071 (l : list Z) : Z := 65535 - foldr oc_add 0 (be_words l).

(** ** Loops *)

Lemma ld16_range m a : 0 ≤ ld16 m a < 65536.
Proof. apply load_range. Qed.

Lemma iter_nest {A} n k (f : A → A) x : Nat.iter n (Nat.iter k f) x = Nat.iter (n * k) f x.
Proof.
  induction n as [|n IH]; [done|]. rewrite Nat.iter_succ, IH, Nat.mul_succ_l, Nat.add_comm.
  by rewrite Nat.iter_add.
Qed.

Lemma iter_add_word k m c p :
  in_word 32 c →
  Nat.iter k (add_word m) (c, p) = (u32 (c + sumw k m p), p + 2 * Z.of_nat k).
Proof.
  revert c p. induction k as [|k IH]; intros c p Hc.
  - cbn. f_equal; [|lia]. rewrite Z.add_0_r, wrap_small by done. done.
  - rewrite Nat.iter_succ_r. cbn [add_word]. rewrite IH by auto with word.
    rewrite wrap_add_l. cbn [sumw]. f_equal; [f_equal; lia|lia].
Qed.

Lemma sumw_app j k m p : sumw (j + k) m p = sumw j m p + sumw k m (p + 2 * Z.of_nat j).
Proof.
  revert p. induction j as [|j IH]; intros p; cbn [sumw Nat.add].
  - by replace (p + 2 * Z.of_nat 0) with p by lia.
  - rewrite IH. replace (p + 2 + 2 * Z.of_nat j) with (p + 2 * Z.of_nat (S j)) by lia. lia.
Qed.

Lemma sumw_bounds k m p : 0 ≤ sumw k m p ≤ 65535 * Z.of_nat k.
Proof.
  revert p. induction k as [|k IH]; intros p; cbn [sumw]; [lia|].
  pose proof (ld16_range m p). specialize (IH (p + 2)). lia.
Qed.

Lemma sum16_bounds m p n : 0 ≤ n → 0 ≤ sum16 m p n ≤ 65535 * ((n + 1) / 2).
Proof.
  intros Hn. unfold sum16. pose proof (sumw_bounds (Z.to_nat (n / 2)) m p) as B.
  rewrite Z2Nat.id in B by (apply Z.div_pos; lia). pose proof (ld8_range m (p + n - 1)).
  destruct (Z.odd n) eqn:E.
  - apply Zodd_bool_iff, Zodd_ex in E as [k ->].
    replace (2 * k + 1 + 1) with ((k + 1) * 2) by lia. rewrite Z.div_mul by lia.
    assert ((2 * k + 1) / 2 = k) as Hk by (symmetry; apply Z.div_unique with 1; lia).
    rewrite Hk in *. lia.
  - assert (n / 2 ≤ (n + 1) / 2) by (apply Z.div_le_mono; lia). lia.
Qed.

(** The low half of a word that starts at the odd byte is that byte. *)
Lemma low_byte m p : Z.land (ld16 m p) (htons 0xFF00) = ld8 m p.
Proof.
  change (htons 0xFF00) with 255. rewrite land_ff.
  transitivity ((ld8 m p + ld8 m (p + 1) * 256) `mod` 256).
  - rewrite ld16_bytes. f_equal. lia.
  - rewrite Z.mod_add, Z.mod_small by (try apply ld8_range; lia). done.
Qed.

Lemma land_1 n : (Z.land n 1 =? 0) = negb (Z.odd n).
Proof.
  change 1 with (Z.ones 1). rewrite Z.land_ones by lia. change (2 ^ 1) with 2.
  rewrite Zmod_odd. by destruct (Z.odd n).
Qed.

Lemma half_split n : 0 ≤ n →
  (Z.to_nat (Z.shiftr n 5) * 16 + Z.to_nat (Z.shiftr (Z.land n 0x1f) 1) = Z.to_nat (n / 2))%nat.
Proof.
  intros Hn. rewrite !Z.shiftr_div_pow2 by lia. change 0x1f with (Z.ones 5).
  rewrite Z.land_ones by lia. change (2 ^ 5) with 32. change (2 ^ 1) with 2.
  pose proof (Z.div_mod n 32). pose proof (Z.mod_pos_bound n 32).
  assert (n / 2 = 16 * (n / 32) + n `mod` 32 / 2) as ->.
  { rewrite (Z.div_mod n 32) at 1 by lia.
    replace (32 * (n / 32)) with (16 * (n / 32) * 2) by lia. apply Z.div_add_l. lia. }
  assert (0 ≤ n / 32) by (apply Z.div_pos; lia).
  assert (0 ≤ n `mod` 32 / 2) by (apply Z.div_pos; lia). lia.
Qed.

(** ** Both accumulators compute the reference sum modulo 2^32 *)

Lemma cksumUpdate_sum m p n c :
  0 ≤ n < 2 ^ 31 → in_word 32 c → cksumUpdate m p n c = u32 (c + sum16 m p n).
Proof.
  intros Hn Hc. unfold cksumUpdate. rewrite (wrap_small 32 (Z.shiftr n 5)).
  2: { rewrite Z.shiftr_div_pow2 by lia. split; [apply Z.div_pos; lia|].
       apply Z.div_lt_upper_bound; simpl; lia. }
  rewrite iter_nest, <-Nat.iter_add, Nat.add_comm, half_split, iter_add_word by (lia || done).
  rewrite land_1, negb_if, low_byte. unfold sum16.
  assert (0 ≤ n / 2) by (apply Z.div_pos; lia). rewrite Z2Nat.id by done.
  destruct (Z.odd n) eqn:E; [|by rewrite Z.add_0_r].
  rewrite wrap_add_l, Z.add_assoc. do 3 f_equal.
  apply Zodd_bool_iff, Zodd_ex in E as [k ->].
  replace ((2 * k + 1) / 2) with k; [lia|]. apply Z.div_unique with 1; lia.
Qed.

Lemma sum16_step m p n k :
  0 ≤ n → 2 * Z.of_nat k ≤ n →
  sum16 m p n = sumw k m p + sum16 m (p + 2 * Z.of_nat k) (n - 2 * Z.of_nat k).
Proof.
  intros Hn Hk. unfold sum16.
  replace (n - 2 * Z.of_nat k) with (n + - Z.of_nat k * 2) by lia.
  rewrite Z.div_add by lia. assert (Z.of_nat k ≤ n / 2) by (apply Z.div_le_lower_bound; lia).
  replace (Z.to_nat (n / 2)) with (k + Z.to_nat (n / 2 + - Z.of_nat k))%nat by lia.
  rewrite sumw_app.
  replace (Z.odd (n + - Z.of_nat k * 2)) with (Z.odd n)
    by (rewrite Z.odd_add, Z.odd_mul, andb_false_r; apply eq_sym, xorb_false_r).
  replace (p + 2 * Z.of_nat k + (n + - Z.of_nat k * 2) - 1) with (p + n - 1) by lia. lia.
Qed.

(** What each while loop leaves: the same total, and fewer bytes than a turn takes. *)
Lemma raw_quads_spec fuel m p n c :
  0 ≤ n ≤ Z.of_nat fuel → in_word 32 c →
  ∃ q r s, raw_quads fuel m p n c = (q, r, s) ∧ 0 ≤ r < 8 ∧ r ≤ n ∧ in_word 32 s ∧
    u32 (s + sum16 m q r) = u32 (c + sum16 m p n).
Proof.
  revert p n c. induction fuel as [|fuel IH]; intros p n c Hn Hc; cbn [raw_quads].
  - exists p, n, c. split_and!; solve [done|lia].
  - destruct (Z.leb_spec 8 n); [|exists p, n, c; split_and!; solve [done|lia]].
    rewrite iter_add_word by done.
    destruct (IH (p + 2 * Z.of_nat 4) (n - 8) (u32 (c + sumw 4 m p)))
      as (q & r & s & -> & ? & ? & ? & E); [lia|auto with word|].
    exists q, r, s. split_and!; try (done || lia). rewrite E, wrap_add_l.
    rewrite (sum16_step m p n 4) by lia. change (2 * Z.of_nat 4) with 8. f_equal. lia.
Qed.

Lemma raw_words_spec fuel m p n c :
  0 ≤ n ≤ Z.of_nat fuel → in_word 32 c →
  ∃ q r s, raw_words fuel m p n c = (q, r, s) ∧ 0 ≤ r < 2 ∧ in_word 32 s ∧
    u32 (s + sum16 m q r) = u32 (c + sum16 m p n).
Proof.
  revert p n c. induction fuel as [|fuel IH]; intros p n c Hn Hc; cbn [raw_words].
  - exists p, n, c. split_and!; solve [done|lia].
  - destruct (Z.leb_spec 2 n); [|exists p, n, c; split_and!; solve [done|lia]].
    cbn [add_word].
    destruct (IH (p + 2) (n - 2) (u32 (c + ld16 m p)))
      as (q & r & s & -> & ? & ? & E); [lia|auto with word|].
    exists q, r, s. split_and!; try (done || lia). rewrite E, wrap_add_l.
    rewrite (sum16_step m p n 1) by lia. change (2 * Z.of_nat 1) with 2.
    cbn [sumw]. f_equal. lia.
Qed.

Lemma raw_cksum_sum m p n c :
  0 ≤ n → in_word 32 c → __rte_raw_cksum m p n c = u32 (c + sum16 m p n).
Proof.
  intros Hn Hc. unfold __rte_raw_cksum.
  destruct (raw_quads_spec (Z.to_nat n) m p n c) as (q & r & s & -> & ? & ? & Hs & E);
    [lia|done|].
  destruct (raw_words_spec (Z.to_nat r) m q r s) as (q2 & r2 & s2 & -> & ? & Hs2 & E2);
    [lia|done|].
  rewrite <-E, <-E2. destruct (Z.eqb_spec r2 1) as [->|].
  - unfold sum16. replace (q2 + 1 - 1) with q2 by lia. done.
  - assert (r2 = 0) as -> by lia. unfold sum16.
    change (Z.to_nat (0 / 2)) with 0%nat. cbn [sumw Z.odd]. by rewrite Z.add_0_r, wrap_small.
Qed.

(** ** Folding

    [folded r c]: [r] is the 16-bit ones' complement residue of the
    non-negative sum [c]; zero only for zero. *)
Definition folded (r c : Z) : Prop :=
  0 ≤ r ≤ 65535 ∧ (r = 0 → c = 0) ∧ ∃ k, 0 ≤ k ∧ c = r + 65535 * k.

Lemma folded_unique r s c d k :
  folded r c → folded s d → c = d + 65535 * k → (c = 0 ↔ d = 0) → r = s.
Proof.
  intros (?&?&i&?&?) (?&?&j&?&?) E Hz.
  destruct (Z.eq_dec r 0); [lia|]. destruct (Z.eq_dec s 0); [lia|]. nia.
Qed.

(** Swapping the bytes of a residue multiplies the sum by 256. *)
Lemma folded_bswap r c d k :
  folded r c → 0 ≤ d → 256 * c = d + 65535 * k → (c = 0 ↔ d = 0) → folded (bswap16 r) d.
Proof.
  intros (Hr & Hz & i & Hi & ->) Hd E Hz'.
  rewrite bswap16_arith.
  pose proof (Z.div_mod r 256). pose proof (Z.mod_pos_bound r 256).
  assert (0 ≤ r / 256) by (apply Z.div_pos; lia).
  assert (r / 256 < 256) by (apply Z.div_lt_upper_bound; lia).
  rewrite (Z.mod_small (r / 256)) by lia.
  set (h := r / 256) in *. set (l := r `mod` 256) in *.
  assert (256 * l + h = 0 → r = 0) by lia.
  assert (d = 256 * l + h + 65535 * (h + 256 * i - k)) by lia.
  split_and!; [lia|lia|intros; lia|].
  exists (h + 256 * i - k). split; [|lia].
  destruct (Z.eq_dec r 0); lia.
Qed.

Definition fold1 (c : Z) : Z := c `mod` 65536 + c / 65536.

Lemma fold1_range c : in_word 32 c → 0 ≤ fold1 c ≤ 131070.
Proof.
  intros [? Hc]. unfold fold1. pose proof (Z.mod_pos_bound c 65536).
  assert (0 ≤ c / 65536) by (apply Z.div_pos; lia).
  assert (c / 65536 < 65536) by (apply Z.div_lt_upper_bound; simpl in Hc; lia). lia.
Qed.

Lemma fold1_twice c : in_word 32 c → folded (fold1 (fold1 c)) c.
Proof.
  intros Hc. pose proof (fold1_range c Hc) as R.
  set (d := fold1 c) in *. destruct Hc as [Hc0 _].
  pose proof (Z.div_mod c 65536). pose proof (Z.mod_pos_bound c 65536).
  assert (0 ≤ c / 65536) by (apply Z.div_pos; lia).
  pose proof (Z.div_mod d 65536). pose proof (Z.mod_pos_bound d 65536).
  assert (0 ≤ d / 65536 < 2)
    by (split; [apply Z.div_pos|apply Z.div_lt_upper_bound]; lia).
  unfold fold1 at 1. unfold folded. unfold fold1 in d.
  split_and!; [lia..|]. exists (c / 65536 + d / 65536). lia.
Qed.

(** One fold is enough for the sum of two residues. *)
Lemma fold1_once c : 0 ≤ c ≤ 131070 → folded (fold1 c) c.
Proof.
  intros Hc. unfold fold1.
  pose proof (Z.div_mod c 65536). pose proof (Z.mod_pos_bound c 65536).
  assert (0 ≤ c / 65536 < 2)
    by (split; [apply Z.div_pos|apply Z.div_lt_upper_bound]; lia).
  split_and!; [lia..|]. exists (c / 65536). lia.
Qed.

Lemma fold1_code c : in_word 32 c → u32 (Z.land c 0xFFFF + Z.shiftr c 16) = fold1 c.
Proof.
  intros Hc. rewrite (land_ones_mod 16), Z.shiftr_div_pow2 by lia.
  change (2 ^ 16) with 65536. apply wrap_small. pose proof (fold1_range c Hc).
  fold (fold1 c). word_lia.
Qed.

Lemma high_half c :
  in_word 32 c → Z.shiftr (Z.land c 0xffff0000) 16 = Z.shiftr c 16.
Proof.
  intros [? Hc]. rewrite Z.shiftr_land. change (Z.shiftr 0xffff0000 16) with (2 ^ 16 - 1).
  rewrite land_ones_mod, Z.shiftr_div_pow2 by lia. apply Z.mod_small.
  split; [apply Z.div_pos; lia|apply Z.div_lt_upper_bound; simpl in *; lia].
Qed.

Lemma fold1_code' c :
  in_word 32 c →
  u32 (Z.shiftr (Z.land c 0xffff0000) 16 + Z.land c 0xffff) = fold1 c.
Proof. intros Hc. rewrite high_half, Z.add_comm by done. by apply fold1_code. Qed.

Lemma fold1_word c : in_word 32 c → in_word 32 (fold1 c).
Proof. intros Hc. pose proof (fold1_range c Hc). word_lia. Qed.

Lemma reduce_folded c : in_word 32 c → folded (__rte_raw_cksum_reduce c) c.
Proof.
  intros Hc. unfold __rte_raw_cksum_reduce. pose proof (fold1_twice c Hc) as F.
  rewrite (fold1_code' c) by done. rewrite fold1_code' by by apply fold1_word.
  rewrite wrap_small; [done|]. destruct F as [? _]. word_lia.
Qed.

Lemma lnot_complement w x : 0 ≤ w → in_word w x → wrap w (Z.lnot x) = 2 ^ w - 1 - x.
Proof.
  intros Hw Hx. unfold Z.lnot, wrap.
  symmetry. apply Z.mod_unique with (-1); unfold in_word in *; lia.
Qed.

(** The folded and complemented result of [cksumDone]. *)
Lemma cksumDone_folded c : in_word 32 c → folded (65535 - cksumDone c) c.
Proof.
  intros Hc. unfold cksumDone. pose proof (fold1_twice c Hc) as F.
  rewrite (fold1_code c) by done. rewrite fold1_code by by apply fold1_word. assert (Hr := F). destruct Hr as [? _].
  rewrite lnot_complement, wrap_small by (lia || word_lia || auto with word).
  change (2 ^ 16) with 65536.
  by replace (65535 - (65536 - 1 - fold1 (fold1 c))) with (fold1 (fold1 c)) by lia.
Qed.

(** ** Ones' complement sums of big-endian words *)

Lemma folded_oc_add w r c : 0 ≤ w ≤ 65535 → folded r c → folded (oc_add w r) (w + c).
Proof.
  intros Hw (Hr & Hz & k & Hk & ->). unfold oc_add.
  destruct (Z.ltb_spec (w + r) 65536);
    (split_and!; [lia..|]); [exists k|exists (k + 1)]; lia.
Qed.

Lemma folded_foldr l :
  Forall (λ w, 0 ≤ w ≤ 65535) l → folded (foldr oc_add 0 l) (foldr Z.add 0 l).
Proof.
  induction 1 as [|w l Hw _ IH]; cbn [foldr]; [|by apply folded_oc_add].
  split_and!; [lia..|]. exists 0. lia.
Qed.

(** The sum over big-endian words is 256 times the little-endian one, modulo 65535. *)
Lemma be_words_sum n m p :
  Forall (λ w, 0 ≤ w ≤ 65535) (be_words (bytes n m p)) ∧
  ∃ k, 0 ≤ foldr Z.add 0 (be_words (bytes n m p)) ∧
       256 * sum16 m p (Z.of_nat n) = foldr Z.add 0 (be_words (bytes n m p)) + 65535 * k ∧
       (sum16 m p (Z.of_nat n) = 0 ↔ foldr Z.add 0 (be_words (bytes n m p)) = 0).
Proof.
  revert p. induction n as [n IH] using lt_wf_ind. intros p.
  destruct n as [|[|n]]; cbn [bytes be_words foldr].
  - split; [done|]. exists 0. done.
  - pose proof (ld8_range m p). split; [by repeat constructor; lia|].
    exists 0. change (sum16 m p (Z.of_nat 1)) with (ld8 m (p + 1 - 1)).
    rewrite Z.add_simpl_r. lia.
  - destruct (IH n ltac:(lia) (p + 2)) as (HF & k & H0 & E & Hz).
    pose proof (ld8_range m p). pose proof (ld8_range m (p + 1)).
    replace (p + 1 + 1) with (p + 2) by lia.
    rewrite (sum16_step m p (Z.of_nat (S (S n))) 1) by lia. cbn [sumw].
    replace (Z.of_nat (S (S n)) - 2 * Z.of_nat 1) with (Z.of_nat n) by lia.
    change (2 * Z.of_nat 1) with 2. rewrite ld16_bytes.
    pose proof (sum16_bounds m (p + 2) (Z.of_nat n)).
    split; [by constructor; [lia|]|]. exists (ld8 m (p + 1) + k). lia.
Qed.

(** C40. The checksum that [cksum] computes and a caller stores in a header is,
    read as the big-endian field it is on the wire, the RFC 1071 checksum of
    the buffer's bytes: for every length, odd ones included, up to the
    131074 bytes for which the 32-bit accumulator cannot overflow. *)
Theorem cksum_rfc1071 (m : mem) (p n : Z) :
  0 ≤ n ≤ 131074 →
  ntohs (cksum m p n 0) = rfc1071 (bytes (Z.to_nat n) m p).
Proof.
  intros Hn. destruct (be_words_sum (Z.to_nat n) m p) as (HF & k & H0 & E & Hz).
  rewrite Z2Nat.id in * by lia.
  assert (in_word 32 (sum16 m p n)) as Hw.
  { pose proof (sum16_bounds m p n).
    assert ((n + 1) / 2 ≤ 65537) by (apply Z.lt_succ_r, Z.div_lt_upper_bound; lia).
    word_lia. }
  unfold cksum. rewrite cksumUpdate_sum, Z.add_0_l, (wrap_small 32) by (lia || done || word_lia).
  pose proof (cksumDone_folded _ Hw) as F. set (x := cksumDone _) in *.
  pose proof (folded_bswap _ _ _ k F H0 E Hz) as F'.
  pose proof (folded_unique _ _ _ _ 0 F' (folded_foldr _ HF)) as U.
  unfold rfc1071. rewrite <-U by lia. destruct F as [Hx _].
  rewrite !bswap16_arith.
  pose proof (Z.div_mod x 256). pose proof (Z.mod_pos_bound x 256).
  assert (0 ≤ x / 256) by (apply Z.div_pos; lia).
  assert (x / 256 < 256) by (apply Z.div_lt_upper_bound; lia).
  assert ((65535 - x) / 256 = 255 - x / 256 ∧ (65535 - x) `mod` 256 = 255 - x `mod` 256) as [-> ->].
  { split; symmetry.
    - apply Z.div_unique with (255 - x `mod` 256); lia.
    - apply Z.mod_unique with (255 - x / 256); lia. }
  rewrite (Z.mod_small (x / 256)), (Z.mod_small (255 - x / 256)) by lia. lia.
Qed.

Lemma cksum_rfc1071_witness :
  let m := st16 (st16 (λ _, 0) 0 0x0201) 2 3 in
  ntohs (cksum m 0 3 0) = rfc1071 (bytes (Z.to_nat 3) m 0) ∧ ntohs (cksum m 0 3 0) = 0xfbfd.
Proof.
  split; [|vm_compute; reflexivity]. apply cksum_rfc1071. lia.
Defined.

(** A checksum may be accumulated piece by piece: continuing at an even
    offset gives the sum over the whole buffer, whatever the accumulator was,
    and pktgen's unrolled loop and DPDK's loop compute the same accumulator. *)
Theorem cksumUpdate_split (m : mem) (p a b c : Z) :
  0 ≤ a → 0 ≤ b → a + b < 2 ^ 31 → Z.even a = true → in_word 32 c →
  cksumUpdate m (p + a) b (cksumUpdate m p a c) = __rte_raw_cksum m p (a + b) c.
Proof.
  intros Ha Hb Hab He Hc. rewrite raw_cksum_sum by (lia || done).
  rewrite (cksumUpdate_sum m p a) by (lia || done).
  rewrite cksumUpdate_sum, wrap_add_l by (lia || auto with word). f_equal.
  apply Zeven_bool_iff, Zeven_ex in He as [j ->].
  rewrite (sum16_step m p (2 * j + b) (Z.to_nat j)), (sum16_step m p (2 * j) (Z.to_nat j)) by lia.
  rewrite Z2Nat.id by lia.
  replace (2 * j + b - 2 * j) with b by lia. rewrite Z.sub_diag.
  change (sum16 m (p + 2 * j) 0) with 0. lia.
Qed.

Lemma cksumUpdate_split_witness :
  let m := st32 (λ _, 0) 0 0x04030201 in
  cksumUpdate m (0 + 2) 1 (cksumUpdate m 0 2 7) = __rte_raw_cksum m 0 (2 + 1) 7.
Proof. apply cksumUpdate_split; (done || lia). Defined.

(** ** A checksum stored in its field *)

Lemma sumw_store_ne k n m a v p :
  p + 2 * Z.of_nat k ≤ a ∨ a + Z.of_nat n ≤ p → sumw k (store n m a v) p = sumw k m p.
Proof.
  revert p. induction k as [|k IH]; intros p H; [done|]. cbn [sumw].
  rewrite load_store_ne, IH by lia. done.
Qed.

Lemma sum16_store_ne n m a v p len :
  0 ≤ len → p + len ≤ a ∨ a + Z.of_nat n ≤ p → sum16 (store n m a v) p len = sum16 m p len.
Proof.
  intros Hl H. unfold sum16. assert (2 * (len / 2) ≤ len) by (apply Z.mul_div_le; lia).
  assert (0 ≤ len / 2) by (apply Z.div_pos; lia). rewrite sumw_store_ne by lia.
  destruct (Z.odd len) eqn:E; [|done]. rewrite ld8_store_ne; [done|].
  destruct (Z.eq_dec len 0); [by subst|lia].
Qed.

(** Replacing one aligned word changes the sum by the difference. *)
Lemma sum16_store m p len j v :
  0 ≤ j → 2 * j + 2 ≤ len →
  sum16 (st16 m (p + 2 * j) v) p len = sum16 m p len - ld16 m (p + 2 * j) + u16 v.
Proof.
  intros Hj Hl. set (m' := st16 m (p + 2 * j) v).
  rewrite (sum16_step m' p len (Z.to_nat j)), (sum16_step m p len (Z.to_nat j)) by lia.
  rewrite Z2Nat.id by done.
  rewrite (sum16_step m' _ _ 1), (sum16_step m _ (len - 2 * j) 1) by lia. cbn [sumw].
  unfold m' at 1 3. rewrite sumw_store_ne, sum16_store_ne by lia.
  unfold m'. rewrite ld16_st16_eq. lia.
Qed.

Lemma raw_cksum_folded m p n :
  0 ≤ n ≤ 131074 → folded (rte_raw_cksum m p n) (sum16 m p n).
Proof.
  intros Hn. pose proof (sum16_bounds m p n).
  assert ((n + 1) / 2 ≤ 65537) by (apply Z.lt_succ_r, Z.div_lt_upper_bound; lia).
  unfold rte_raw_cksum. rewrite raw_cksum_sum, Z.add_0_l by (lia || done).
  rewrite wrap_small by word_lia. apply reduce_folded. word_lia.
Qed.

(** A residue with no remainder is all ones, unless the sum is zero. *)
Lemma folded_ones r c k : folded r c → c = 65535 * k → c ≠ 0 → r = 65535.
Proof. intros (?&?&i&?&?) ??. lia. Qed.

Lemma ipv4_cksum_ones (m : mem) (ip : Z) :
  let m0 := st16 m (ip + 10) 0 in
  rte_raw_cksum (st16 m0 (ip + 10) (rte_ipv4_cksum m0 ip)) ip sizeof_ipv4_hdr = 0xffff.
Proof.
  intros m0. set (ck := rte_ipv4_cksum m0 ip). set (m1 := st16 m0 (ip + 10) ck).
  unfold sizeof_ipv4_hdr in *.
  assert (sum16 m1 ip 20 = sum16 m0 ip 20 + u16 ck) as E.
  { pose proof (sum16_store m0 ip 20 5 ck) as H. change (ip + 2 * 5) with (ip + 10) in H.
    unfold m1. rewrite H by lia. unfold m0. rewrite ld16_st16_eq. change (u16 0) with 0. lia. }
  pose proof (raw_cksum_folded m0 ip 20 ltac:(lia)) as F0.
  pose proof (raw_cksum_folded m1 ip 20 ltac:(lia)) as F1.
  assert (u16 ck = ck ∧ 0 < sum16 m0 ip 20 + ck ∧ ∃ k, sum16 m0 ip 20 + ck = 65535 * k)
    as (Hu & Hp & k & Hk).
  { unfold ck, rte_ipv4_cksum, sizeof_ipv4_hdr. destruct F0 as (Hr & Hz & k & Hk & Hs).
    set (r := rte_raw_cksum m0 ip 20) in *. rewrite Hs.
    destruct (Z.eqb_spec r 0xffff) as [->|].
    - rewrite wrap_small by word_lia. split_and!; [done|lia|]. exists (k + 2). lia.
    - rewrite lnot_complement by (lia || word_lia). change (2 ^ 16) with 65536.
      rewrite wrap_small by word_lia. split_and!; [done|lia|]. exists (k + 1). lia. }
  rewrite E, Hu in F1. by apply (folded_ones _ _ _ F1 Hk); lia.
Qed.

(** The IPv4 header checksum: whatever the header holds, computing it over
    the header with a zero checksum field and storing it there (bytes 10 and
    11) leaves a header whose ones' complement sum is all ones, which is what
    a receiver checks. *)
Theorem rte_ipv4_cksum_validates (m : mem) (ip : Z) :
  let m0 := st16 m (ip + 10) 0 in
  rte_raw_cksum (st16 m0 (ip + 10) (rte_ipv4_cksum m0 ip)) ip sizeof_ipv4_hdr = 0xffff.
Proof. apply ipv4_cksum_ones. Qed.

Lemma l4_finish_spec c :
  0 ≤ c ≤ 131070 → 1 ≤ l4_finish c ≤ 65535 ∧ ∃ k, l4_finish c + c = 65535 * k.
Proof.
  intros Hc. unfold l4_finish. rewrite fold1_code' by word_lia.
  destruct (fold1_once c Hc) as (Hr & Hz & k & Hk & E). set (r := fold1 c) in *.
  rewrite lnot_complement by (lia || word_lia).
  rewrite (land_ones_mod 16) by lia.
  replace ((2 ^ 32 - 1 - r) `mod` 2 ^ 16) with (65535 - r)
    by (apply Z.mod_unique with 65535; simpl; lia).
  destruct (Z.eqb_spec (65535 - r) 0).
  - split; [lia|]. exists (k + 2). lia.
  - rewrite wrap_small by word_lia. split; [lia|]. exists (k + 1). lia.
Qed.

Lemma phdr_word m ip : let p := rte_ipv4_phdr_cksum m ip 0 in
  folded p (sum16 (ipv4_psd_header (ld32 m (ip + 12)) (ld32 m (ip + 16)) (ld8 m (ip + 9))
              (htons (u16 (ntohs (ld16 m (ip + 2)) - 20)))) 0 12).
Proof. apply raw_cksum_folded. lia. Qed.

Lemma udptcp_store_valid (m : mem) (ip l4 j : Z) :
  let total := ntohs (ld16 m (ip + 2)) in
  let len := total - sizeof_ipv4_hdr in
  let psd m := ipv4_psd_header (ld32 m (ip + 12)) (ld32 m (ip + 16)) (ld8 m (ip + 9))
                 (htons len) in
  let ck := rte_ipv4_udptcp_cksum m ip l4 in
  ip + sizeof_ipv4_hdr ≤ l4 → 0 ≤ j → ld16 m (l4 + 2 * j) = 0 →
  2 * j + 2 ≤ len ∨ len < 0 →
  let m1 := st16 m (l4 + 2 * j) ck in
  if total <? sizeof_ipv4_hdr then ck = 0
  else 1 ≤ ck ≤ 65535 ∧ ∃ k, sum16 m1 l4 len + sum16 (psd m1) 0 12 = 65535 * k.
Proof.
  intros total len psd ck Hip Hj H0 Hl m1. unfold sizeof_ipv4_hdr in *.
  destruct (Z.ltb_spec total 20) as [Hlt|Hge].
  - unfold ck, rte_ipv4_udptcp_cksum. fold total.
    unfold sizeof_ipv4_hdr. by destruct (Z.ltb_spec total 20); [|lia].
  - assert (2 * j + 2 ≤ len) as Hlen by lia. clear Hl.
    assert (0 ≤ total < 65536) by (pose proof (bswap16_range (ld16 m (ip + 2))); word_lia).
    pose proof (raw_cksum_folded m l4 len ltac:(lia)) as (Hr & _ & k1 & _ & E1).
    pose proof (phdr_word m ip) as (Hp & _ & k2 & _ & E2). fold total in E2. fold len in E2.
    rewrite wrap_small in E2 by word_lia.
    destruct (l4_finish_spec (rte_raw_cksum m l4 len + rte_ipv4_phdr_cksum m ip 0))
      as (Hck & k & Ek); [lia|].
    assert (ck = l4_finish (rte_raw_cksum m l4 len + rte_ipv4_phdr_cksum m ip 0)) as Eck.
    { unfold ck, rte_ipv4_udptcp_cksum. fold total. unfold sizeof_ipv4_hdr.
      destruct (Z.ltb_spec total 20); [lia|]. fold len.
      by rewrite (wrap_small 32 len), wrap_small by word_lia. }
    rewrite <-Eck in *. split; [done|].
    unfold m1, psd. rewrite sum16_store by lia. rewrite H0.
    rewrite wrap_small by word_lia.
    rewrite !load_store_ne, ld8_store_ne by lia.
    exists (k + k1 + k2). lia.
Qed.

(** UDP and TCP over IPv4: the checksum stored at an even offset of the
    segment makes the segment and its pseudo header sum to a multiple of
    65535, so the receiver accepts it, and it is never the zero that means
    "no checksum"; a total length below the header's is reported as 0. *)
Theorem rte_ipv4_udptcp_cksum_validates (m : mem) (ip l4 j : Z) :
  let total := ntohs (ld16 m (ip + 2)) in
  let len := total - sizeof_ipv4_hdr in
  let psd m := ipv4_psd_header (ld32 m (ip + 12)) (ld32 m (ip + 16)) (ld8 m (ip + 9))
                 (htons len) in
  let ck := rte_ipv4_udptcp_cksum m ip l4 in
  ip + sizeof_ipv4_hdr ≤ l4 → 0 ≤ j → ld16 m (l4 + 2 * j) = 0 →
  2 * j + 2 ≤ len ∨ len < 0 →
  let m1 := st16 m (l4 + 2 * j) ck in
  if total <? sizeof_ipv4_hdr then ck = 0
  else 1 ≤ ck ≤ 65535 ∧ ∃ k, sum16 m1 l4 len + sum16 (psd m1) 0 12 = 65535 * k.
Proof. apply udptcp_store_valid. Qed.

Lemma rte_ipv4_udptcp_cksum_validates_witness :
  let m := st16 (st16 (store 1 (λ _, 0) 9 17) 2 (htons 28)) 24 (htons 8) in
  let ck := rte_ipv4_udptcp_cksum m 0 20 in
  let m1 := st16 m (20 + 2 * 3) ck in
  1 ≤ ck ≤ 65535 ∧
  ∃ k, sum16 m1 20 8 + sum16 (ipv4_psd_header 0 0 17 (htons 8)) 0 12 = 65535 * k.
Proof.
  intros m ck m1.
  pose proof (rte_ipv4_udptcp_cksum_validates m 0 20 3) as T.
  change (ntohs (ld16 m (0 + 2))) with 28 in T. cbn zeta in T.
  change (28 <? sizeof_ipv4_hdr) with false in T.
  destruct T as [Hck [k Hk]];
    [unfold sizeof_ipv4_hdr; lia|lia|reflexivity|left; unfold sizeof_ipv4_hdr; lia|].
  split; [exact Hck|]. exists k. revert Hk. fold ck. fold m1.
  replace (ld8 m1 (0 + 9)) with 17 by (vm_compute; reflexivity).
  replace (ld32 m1 (0 + 12)) with 0 by (vm_compute; reflexivity).
  replace (ld32 m1 (0 + 16)) with 0 by (vm_compute; reflexivity). exact id.
Defined.

(** ** Pseudo headers without a buffer *)

Lemma word32_halves a : in_word 32 a → Z.land a 0xFFFF + Z.shiftr a 16 = fold1 a.
Proof.
  intros _. rewrite (land_ones_mod 16), Z.shiftr_div_pow2 by lia. done.
Qed.

Lemma ld32_words m a : ld32 m a = ld16 m a + 65536 * ld16 m (a + 2).
Proof.
  rewrite !ld16_bytes, ld32_bytes. replace (a + 2 + 1) with (a + 3) by lia. lia.
Qed.

Lemma fold1_ld32 m a : fold1 (ld32 m a) = ld16 m a + ld16 m (a + 2).
Proof.
  rewrite ld32_words. unfold fold1. pose proof (ld16_range m a).
  rewrite (Z.mul_comm 65536), Z.mod_add, Z.div_add by lia.
  rewrite Z.mod_small, Z.div_small by lia. lia.
Qed.

Lemma ipv4_psd_sum src dst pro len :
  in_word 32 src → in_word 32 dst → in_word 8 pro → in_word 16 len →
  sum16 (ipv4_psd_header src dst pro len) 0 12 = fold1 src + fold1 dst + 256 * pro + len.
Proof.
  intros Hs Hd Hp Hl. set (psd := ipv4_psd_header _ _ _ _).
  change (sum16 psd 0 12) with
    (ld16 psd 0 + (ld16 psd 2 + (ld16 psd 4 + (ld16 psd 6 + (ld16 psd 8 + (ld16 psd 10 + 0))))) + 0).
  assert (fold1 (ld32 psd 0) = fold1 src ∧ fold1 (ld32 psd 4) = fold1 dst ∧ ld16 psd 10 = len)
    as (E0 & E4 & ->).
  { unfold psd, ipv4_psd_header. mem_simpl. by rewrite !wrap_small by done. }
  rewrite fold1_ld32 in E0, E4. change (0 + 2) with 2 in E0. change (4 + 2) with 6 in E4.
  assert (ld16 psd 8 = 256 * pro) as ->; [|lia].
  rewrite ld16_bytes. unfold psd, ipv4_psd_header. mem_simpl.
  change (8 + 1) with 9. rewrite !ld8_store1. change (u8 0) with 0.
  rewrite wrap_small by done. lia.
Qed.

Lemma ipv6_psd_sum len pro :
  in_word 32 len → in_word 8 pro →
  sum16 (ipv6_psd_header len (u32 (Z.shiftl pro 24))) 0 8 = fold1 len + 256 * pro.
Proof.
  intros Hl Hp. rewrite Z.shiftl_mul_pow2 by lia. set (psd := ipv6_psd_header _ _).
  change (sum16 psd 0 8) with (ld16 psd 0 + (ld16 psd 2 + (ld16 psd 4 + (ld16 psd 6 + 0))) + 0).
  assert (fold1 (ld32 psd 0) = fold1 len ∧ fold1 (ld32 psd 4) = fold1 (pro * 2 ^ 24)) as (E0 & E4).
  { unfold psd, ipv6_psd_header. mem_simpl.
    by rewrite wrap_wrap, (wrap_small 32 len), (wrap_small 32 (_ * _)) by word_lia. }
  rewrite fold1_ld32 in E0, E4. change (0 + 2) with 2 in E0. change (4 + 2) with 6 in E4.
  assert (fold1 (pro * 2 ^ 24) = 256 * pro) as E; [|lia].
  unfold fold1. change (2 ^ 24) with (256 * 65536). rewrite Z.mul_assoc.
  rewrite Z.mod_mul, Z.div_mul by lia. lia.
Qed.

Lemma addr_words_sum n m a b c :
  in_word 32 c → addr_words n m a b c = u32 (c + sumw n m a + sumw n m b).
Proof.
  revert a b c. induction n as [|n IH]; intros a b c Hc; cbn [addr_words sumw].
  - by rewrite !Z.add_0_r, wrap_small.
  - rewrite IH by auto with word. rewrite <-Z.add_assoc, !wrap_add_l, <-Z.add_assoc, wrap_add_l.
    f_equal. lia.
Qed.

(** pktgen's [pseudoChecksum] of two addresses, a protocol and a length is
    the sum over the twelve bytes of DPDK's [ipv4_psd_header]; its
    [pseudoIPv6Checksum] is the sum over both addresses and DPDK's IPv6
    pseudo header, but for the next header, whose byte it adds to the wrong
    half of the word ([n] where the wire order gives [256 * n]). *)
Theorem pseudo_checksums (src dst pro len sum : Z) (m : mem) (a b tot : Z) :
  in_word 32 src → in_word 32 dst → in_word 8 pro → in_word 16 len →
  pseudoChecksum src dst pro len sum =
    u32 (sum + sum16 (ipv4_psd_header src dst pro (htons len)) 0 12) ∧
  u32 (pseudoIPv6Checksum m a b pro tot sum + 255 * pro) =
    u32 (sum + sum16 m a 16 + sum16 m b 16 +
         sum16 (ipv6_psd_header (htonl tot) (u32 (Z.shiftl pro 24))) 0 8).
Proof.
  intros Hs Hd Hp Hl. pose proof (bswap16_range len). pose proof (bswap32_range tot). split.
  - unfold pseudoChecksum. f_equal. rewrite ipv4_psd_sum by done.
    pose proof (word32_halves src Hs). pose proof (word32_halves dst Hd).
    rewrite (bswap16_arith pro). rewrite (Z.mod_small pro), Z.div_small by word_lia.
    change (0 `mod` 256) with 0. lia.
  - unfold pseudoIPv6Checksum. rewrite addr_words_sum by auto with word.
    rewrite ipv6_psd_sum by done. unfold sum16. change (Z.to_nat (16 / 2)) with 8%nat.
    cbn [Z.odd]. rewrite <-!Z.add_assoc, wrap_add_l, <-!Z.add_assoc, wrap_add_l.
    pose proof (word32_halves (htonl tot) ltac:(done)). f_equal. lia.
Qed.

Lemma pseudo_checksums_witness :
  pseudoChecksum 0x0100000a 0x0200000a 17 28 0 = 0x3014 ∧
  u32 (pseudoIPv6Checksum (λ _, 1) 0 16 17 28 0 + 255 * 17) =
    u32 (0 + sum16 (λ _, 1) 0 16 + sum16 (λ _, 1) 16 16 +
         sum16 (ipv6_psd_header (htonl 28) (u32 (Z.shiftl 17 24))) 0 8).
Proof.
  destruct (pseudo_checksums 0x0100000a 0x0200000a 17 28 0 (λ _, 1) 0 16 28) as [-> E];
    [done..|]. split; [vm_compute; reflexivity|exact E].
Defined.
