(* ===== verification/RandomBits.v ===== *)
(** * Random bit fields

    [app/pktgen-random.c] and [app/pktgen-random.h]: 32 bit-field
    specifications per port, each a 32-bit AND, OR and random mask applied at
    a byte offset of every packet sent, and the xorshift64* generator of
    [app/xorshift64star.h] that supplies the random bits. *)
From Stdlib Require Import Ascii String.
From S2P Require Import Prelude Mem.

(** ** xorshift64star.h: the state is one 64-bit word *)

Definition xorshift64star (xor_state : Z) : Z * Z :=
  let x := xor_state in
  let x := Z.lxor x (Z.shiftr x 12) in
  let x := Z.lxor x (u64 (Z.shiftl x 25)) in
  let x := Z.lxor x (Z.shiftr x 27) in
  (u64 (x * 0x2545F4914F6CDD1D), x).

Definition pktgen_default_rnd_func (xor_state : Z) : Z * Z :=
  let '(r, st) := xorshift64star xor_state in (u32 r, st).

(** [fread] into the eight bytes of the state: [None] when [/dev/urandom] does
    not open, otherwise the bytes read, at most eight, over the old ones. *)
Fixpoint fread_state (l : list Z) (st : mem) (a : Z) : mem :=
  match l with
  | [] => st
  | b :: l => fread_state l (store 1 st a b) (a + 1)
  end.

Definition pktgen_init_default_rnd (dev_random : option (list Z)) (xor_state : Z) : Z :=
  match dev_random with
  | None => xor_state
  | Some l => ld64 (fread_state (firstn 8 l) (st64 (λ _, 0) 0 xor_state) 0) 0
  end.

(** ** Specifications *)

Definition MAX_RND_BITFIELDS : Z := 32.
Definition MAX_BITFIELD_SIZE : Z := 32.

Record bf_spec_t := mk_bf_spec {
  offset : Z; andMask : Z; orMask : Z; rndMask : Z }.

Record rnd_bits_t := mk_rnd_bits { active_specs : Z; specs : list bf_spec_t }.

#[global] Instance eta_rnd_bits : Eta rnd_bits_t :=
  λ r, mk_rnd_bits (active_specs r) (specs r).

(** [rte_zmalloc_socket]: everything zero. *)
Definition rnd_bits_zero : rnd_bits_t :=
  mk_rnd_bits 0 (replicate 32 (mk_bf_spec 0 0 0 0)).

(** The loop over the mask string, left to right; [None] is its [default:] exit. *)
Fixpoint mask_loop (mask : string) (mask0 mask1 maskRnd : Z) : option (Z * Z * Z) :=
  match mask with
  | EmptyString => Some (mask0, mask1, maskRnd)
  | String c mask =>
      let mask0 := u32 (Z.shiftl mask0 1) in
      let mask1 := u32 (Z.shiftl mask1 1) in
      let maskRnd := u32 (Z.shiftl maskRnd 1) in
      if bool_decide (c = "0"%char) then mask_loop mask (u32 (mask0 + 1)) mask1 maskRnd
      else if bool_decide (c = "1"%char) then mask_loop mask mask0 (u32 (mask1 + 1)) maskRnd
      else if bool_decide (c = "."%char) then mask_loop mask mask0 mask1 maskRnd
      else if bool_decide (c = "x"%char ∨ c = "X"%char)
           then mask_loop mask mask0 mask1 (u32 (maskRnd + 1))
      else None
  end.

Definition pktgen_set_random_bitfield (rb : rnd_bits_t) (idx offset : Z) (mask : string)
    : Z * rnd_bits_t :=
  let leave rb := (active_specs rb, rb) in
  if MAX_RND_BITFIELDS <=? idx then leave rb
  else
    let mask_len := Z.of_nat (String.length mask) in
    if MAX_BITFIELD_SIZE <? mask_len then leave rb
    else if mask_len =? 0 then
      leave (rb <| active_specs ::= λ a, Z.land a (u32 (Z.lnot (u32 (Z.shiftl 1 idx)))) |>)
    else
      match mask_loop mask 0 0 0 with
      | None => leave rb
      | Some (mask0, mask1, maskRnd) =>
          let pad_len := MAX_BITFIELD_SIZE - mask_len in
          let mask0 := u32 (Z.shiftl mask0 pad_len) in
          let mask1 := u32 (Z.shiftl mask1 pad_len) in
          let maskRnd := u32 (Z.shiftl maskRnd pad_len) in
          let spec := mk_bf_spec offset (htonl (u32 (Z.lnot (Z.lor mask0 maskRnd))))
                        (htonl mask1) (htonl maskRnd) in
          leave (rb <| active_specs ::= λ a, Z.lor a (u32 (Z.shiftl 1 idx)) |>
                    <| specs ::= λ l, <[Z.to_nat idx := spec]> l |>)
      end.

(** Both calls of every turn of the initialisation loop. *)
Fixpoint init_specs (n : nat) (i : Z) (rb : rnd_bits_t) : rnd_bits_t :=
  match n with
  | O => rb
  | S n =>
      let rb := snd (pktgen_set_random_bitfield rb i 0 "????????????????????????????????"%string) in
      let rb := snd (pktgen_set_random_bitfield rb i 0 EmptyString) in
      init_specs n (i + 1) rb
  end.

Definition pktgen_rnd_bits_init (dev_random : option (list Z)) (xor_state : Z)
    : rnd_bits_t * Z :=
  (init_specs 32 0 rnd_bits_zero, pktgen_init_default_rnd dev_random xor_state).

(** ** Applying the specifications to packets *)

(** One active specification on the packet whose data starts at [data]. *)
Definition apply_spec (s : bf_spec_t) (data : Z) (m : mem) (xor_state : Z) : mem * Z :=
  let pkt_data := data + offset s in
  let m := st32 m pkt_data (Z.land (ld32 m pkt_data) (andMask s)) in
  let m := st32 m pkt_data (Z.lor (ld32 m pkt_data) (orMask s)) in
  if rndMask s =? 0 then (m, xor_state)
  else
    let '(rnd_value, xor_state) := pktgen_default_rnd_func xor_state in
    let rnd_value := Z.land rnd_value (rndMask s) in
    (st32 m pkt_data (Z.lor (ld32 m pkt_data) rnd_value), xor_state).

(** [while (active_specs > 0)]: the pointer [bf_spec] runs over [specs]. *)
Fixpoint apply_specs (l : list bf_spec_t) (active data : Z) (m : mem) (xor_state : Z) : mem * Z :=
  match l with
  | [] => (m, xor_state)
  | s :: l =>
      if 0 <? active then
        let '(m, xor_state) :=
          if Z.land active 1 =? 0 then (m, xor_state) else apply_spec s data m xor_state in
        apply_specs l (Z.shiftr active 1) data m xor_state
      else (m, xor_state)
  end.

Fixpoint apply_pkts (rb : rnd_bits_t) (pkts : list Z) (m : mem) (xor_state : Z) : mem * Z :=
  match pkts with
  | [] => (m, xor_state)
  | data :: pkts =>
      let '(m, xor_state) := apply_specs (specs rb) (active_specs rb) data m xor_state in
      apply_pkts rb pkts m xor_state
  end.

(** [info_bits] is [info->rnd_bitfields], used when no [rbits] is given;
    [pkts] lists the [rte_pktmbuf_mtod] addresses of the [cnt] packets. *)
Definition pktgen_rnd_bits_apply (info_bits : rnd_bits_t) (pkts : list Z)
    (rbits : option rnd_bits_t) (m : mem) (xor_state : Z) : mem * Z :=
  let rb := default info_bits rbits in
  if active_specs rb =? 0 then (m, xor_state) else apply_pkts rb pkts m xor_state.

(** ** The mask column of the display page *)

Definition mask_char (s : bf_spec_t) (i : Z) : ascii :=
  let curr_bit := u32 (Z.shiftl 1 (MAX_BITFIELD_SIZE - i - 1)) in
  if negb (Z.land (ntohl (rndMask s)) curr_bit =? 0) then "X"%char
  else if Z.land (ntohl (andMask s)) curr_bit =? 0 then "0"%char
  else if negb (Z.land (ntohl (orMask s)) curr_bit =? 0) then "1"%char else "."%char.

(** 35 columns, a space after every eighth bit. *)
Fixpoint mask_fill (n : nat) (i : Z) (s : bf_spec_t) (mask : list ascii) : list ascii :=
  match n with
  | O => mask
  | S n => mask_fill n (i + 1) s (<[Z.to_nat (i + Z.shiftr i 3) := mask_char s i]> mask)
  end.

Definition page_mask (s : bf_spec_t) : list ascii :=
  mask_fill 32 0 s (replicate 35 " "%char).

Definition page_row (rb : rnd_bits_t) (idx : Z) : option (Z * Z * bool * list ascii) :=
  s ← specs rb !! Z.to_nat idx;
  Some (idx, offset s,
        negb (Z.land (active_specs rb) (u32 (Z.shiftl 1 idx)) =? 0), page_mask s).

(** ** The generator never reaches the state it must not be seeded with *)

Lemma lxor_shiftr_zero n x : 0 < n → 0 ≤ x → Z.lxor x (Z.shiftr x n) = 0 → x = 0.
Proof.
  intros Hn Hx H. apply Z.lxor_eq in H. rewrite Z.shiftr_div_pow2 in H by lia.
  destruct (Z.eq_dec x 0); [done|].
  assert (x / 2 ^ n < x); [|lia]. apply Z.div_lt; [lia|].
  apply Z.pow_gt_1; lia.
Qed.

Lemma lxor_shiftl_zero x : in_word 64 x → Z.lxor x (u64 (Z.shiftl x 25)) = 0 → x = 0.
Proof.
  intros Hx H. apply Z.lxor_eq in H. rewrite Z.shiftl_mul_pow2 in H by lia.
  assert (∀ y, x = u64 (x * y) → x = u64 (x * (y * 2 ^ 25))) as S.
  { intros y Hy. rewrite H at 1. rewrite Hy at 1. unfold wrap.
    rewrite Zmult_mod_idemp_l. f_equal. lia. }
  apply S, S in H. rewrite H. unfold wrap.
  replace (x * (2 ^ 25 * 2 ^ 25 * 2 ^ 25)) with (x * 2 ^ 11 * 2 ^ 64) by lia.
  apply Z.mod_mul. lia.
Qed.

Lemma lxor_word w x y : 0 ≤ w → in_word w x → in_word w y → in_word w (Z.lxor x y).
Proof.
  intros Hw Hx Hy. rewrite <-(wrap_small w x), <-(wrap_small w y) by done.
  unfold wrap. rewrite <-!Z.land_ones by lia.
  replace (Z.lxor (Z.land x (Z.ones w)) (Z.land y (Z.ones w)))
    with (Z.land (Z.lxor x y) (Z.ones w)).
  - rewrite Z.land_ones by lia. apply Z.mod_pos_bound. lia.
  - apply Z.bits_inj'. intros i Hi. rewrite !Z.land_spec, !Z.lxor_spec, !Z.land_spec.
    by destruct (Z.testbit x i), (Z.testbit y i), (Z.testbit (Z.ones w) i).
Qed.

Lemma shiftr_word w x n : 0 ≤ n → in_word w x → in_word w (Z.shiftr x n).
Proof.
  intros Hn [H0 H1]. rewrite Z.shiftr_div_pow2 by done.
  assert (0 < 2 ^ n) by lia. split; [apply Z.div_pos; lia|].
  apply Z.le_lt_trans with x; [|done]. apply Z.div_le_upper_bound; nia.
Qed.

(** The state after a draw, and its linearity over GF(2). *)
Definition xs_next (x : Z) : Z := snd (xorshift64star x).

Lemma xs_next_word x : in_word 64 x → in_word 64 (xs_next x).
Proof.
  intros Hx. unfold xs_next, xorshift64star. cbn [snd].
  repeat (apply lxor_word || apply shiftr_word || apply wrap_in_word || done || lia).
Qed.

Lemma xs_next_zero x : in_word 64 x → xs_next x = 0 → x = 0.
Proof.
  intros Hx H. unfold xs_next, xorshift64star in H. cbn [snd] in H.
  set (y := Z.lxor x (Z.shiftr x 12)) in *. set (z := Z.lxor y (u64 (Z.shiftl y 25))) in *.
  assert (in_word 64 y) as Hy by (by apply lxor_word, shiftr_word).
  assert (in_word 64 z) as Hz by (by apply lxor_word, wrap_in_word).
  apply lxor_shiftr_zero in H; [|lia|by destruct Hz].
  apply lxor_shiftl_zero in H; [|done].
  apply lxor_shiftr_zero in H; [done|lia|by destruct Hx].
Qed.

Lemma lxor_wrap w x y : 0 ≤ w → wrap w (Z.lxor x y) = Z.lxor (wrap w x) (wrap w y).
Proof.
  intros Hw. unfold wrap. rewrite <-!Z.land_ones by done. apply Z.bits_inj'. intros i Hi.
  rewrite !Z.land_spec, !Z.lxor_spec, !Z.land_spec.
  by destruct (Z.testbit x i), (Z.testbit y i), (Z.testbit (Z.ones w) i).
Qed.

Lemma lxor_swap a b c d : Z.lxor (Z.lxor a b) (Z.lxor c d) = Z.lxor (Z.lxor a c) (Z.lxor b d).
Proof.
  rewrite !Z.lxor_assoc. f_equal. rewrite <-!Z.lxor_assoc. f_equal. apply Z.lxor_comm.
Qed.

Lemma step_shiftr_lxor n x y :
  Z.lxor (Z.lxor x y) (Z.shiftr (Z.lxor x y) n) =
  Z.lxor (Z.lxor x (Z.shiftr x n)) (Z.lxor y (Z.shiftr y n)).
Proof. rewrite Z.shiftr_lxor. apply lxor_swap. Qed.

Lemma step_shiftl_lxor n x y :
  Z.lxor (Z.lxor x y) (u64 (Z.shiftl (Z.lxor x y) n)) =
  Z.lxor (Z.lxor x (u64 (Z.shiftl x n))) (Z.lxor y (u64 (Z.shiftl y n))).
Proof. rewrite Z.shiftl_lxor, lxor_wrap by lia. apply lxor_swap. Qed.

Lemma xs_next_lxor x y : xs_next (Z.lxor x y) = Z.lxor (xs_next x) (xs_next y).
Proof.
  unfold xs_next, xorshift64star. cbn [snd].
  rewrite (step_shiftr_lxor 12), (step_shiftl_lxor 25), (step_shiftr_lxor 27). done.
Qed.

(** The generator's state: a draw is a permutation of the 64-bit words
    that fixes zero, so a non-zero seed never leads to the zero state, and a
    zero state (the seed when [/dev/urandom] does not open) stays there and
    yields only zeros. *)
Theorem xorshift_permutes (x y : Z) :
  in_word 64 x → in_word 64 y →
  in_word 64 (xs_next x) ∧ (xs_next x = xs_next y → x = y) ∧ (x ≠ 0 → xs_next x ≠ 0) ∧
  pktgen_default_rnd_func (pktgen_init_default_rnd None 0) = (0, 0).
Proof.
  intros Hx Hy. split_and!; [by apply xs_next_word| | |done].
  - intros E. apply Z.lxor_eq, xs_next_zero; [by apply lxor_word|].
    by rewrite xs_next_lxor, E, Z.lxor_nilpotent.
  - intros H E. by apply H, xs_next_zero.
Qed.

Lemma xorshift_permutes_witness : xs_next 1 ≠ 0 ∧ in_word 64 (xs_next 1).
Proof.
  destruct (xorshift_permutes 1 2) as (Hw & _ & Hz & _); [done|done|].
  split; [apply Hz; lia|exact Hw].
Defined.

(** ** What a mask string says about each bit *)

Definition is_zero (c : ascii) : bool := bool_decide (c = "0"%char).
Definition is_one (c : ascii) : bool := bool_decide (c = "1"%char).
Definition is_rnd (c : ascii) : bool := bool_decide (c = "x"%char ∨ c = "X"%char).
Definition is_mask_char (c : ascii) : bool :=
  is_zero c || is_one c || is_rnd c || bool_decide (c = "."%char).

(** Character [k] from the left; positions past the end are ignored bits. *)
Definition char_at (mask : string) (k : Z) : ascii :=
  default "."%char (String.get (Z.to_nat k) mask).

Fixpoint mask_ok (mask : string) : bool :=
  match mask with
  | EmptyString => true
  | String c mask => is_mask_char c && mask_ok mask
  end.

(** One component: the bits where [p] holds, the first character on top. *)
Fixpoint comp (p : ascii → bool) (mask : string) (a : Z) : Z :=
  match mask with
  | EmptyString => a
  | String c mask => comp p mask (2 * a + Z.b2z (p c))
  end.

Abbreviation strlen s := (Z.of_nat (String.length s)).

Lemma comp_testbit p mask a i :
  0 ≤ i →
  Z.testbit (comp p mask a) i =
  if i <? strlen mask then p (char_at mask (strlen mask - 1 - i)) else Z.testbit a (i - strlen mask).
Proof.
  revert a i. induction mask as [|c mask IH]; intros a i Hi; cbn [comp String.length].
  - change (Z.of_nat 0) with 0. destruct (Z.ltb_spec i 0); [lia|]. f_equal. lia.
  - rewrite IH by done. rewrite Nat2Z.inj_succ. unfold char_at.
    destruct (Z.ltb_spec i (strlen mask)), (Z.ltb_spec i (Z.succ (strlen mask))); try lia.
    + replace (Z.to_nat (Z.succ (strlen mask) - 1 - i))
        with (S (Z.to_nat (strlen mask - 1 - i))) by lia. done.
    + replace (i - strlen mask) with 0 by lia. rewrite Z.add_comm, Z.add_b2z_double_bit0.
      by replace (Z.to_nat (Z.succ (strlen mask) - 1 - i)) with 0%nat by lia.
    + replace (i - strlen mask) with (Z.succ (i - Z.succ (strlen mask))) by lia.
      apply Z.testbit_succ_r. lia.
Qed.

Lemma comp_bound p mask a n :
  0 ≤ a < 2 ^ n → 0 ≤ n → 0 ≤ comp p mask a < 2 ^ (n + strlen mask).
Proof.
  revert a n. induction mask as [|c mask IH]; intros a n Ha Hn; cbn [comp String.length].
  - by rewrite Z.add_0_r.
  - rewrite Nat2Z.inj_succ. replace (n + Z.succ (strlen mask)) with (Z.succ n + strlen mask) by lia.
    apply IH; [|lia]. rewrite Z.pow_succ_r by done. destruct (p c); simpl; lia.
Qed.

(** A step of the loop on one component, while it still fits. *)
Lemma shift_step a n :
  0 ≤ a < 2 ^ (31 - n) → 0 ≤ n ≤ 31 →
  u32 (Z.shiftl a 1) = 2 * a ∧ u32 (2 * a + 1) = 2 * a + 1 ∧ 0 ≤ 2 * a + 1 < 2 ^ (32 - n).
Proof.
  intros Ha Hn. rewrite Z.shiftl_mul_pow2 by lia. change (2 ^ 1) with 2.
  assert (2 ^ (32 - n) = 2 * 2 ^ (31 - n)) as E by (rewrite <-Z.pow_succ_r by lia; f_equal; lia).
  assert (2 ^ (32 - n) ≤ 2 ^ 32) by (apply Z.pow_le_mono_r; lia).
  rewrite Z.mul_comm. rewrite !wrap_small by (unfold in_word; lia). lia.
Qed.

Lemma mask_loop_spec mask a b c :
  strlen mask ≤ 32 →
  0 ≤ a < 2 ^ (32 - strlen mask) → 0 ≤ b < 2 ^ (32 - strlen mask) →
  0 ≤ c < 2 ^ (32 - strlen mask) →
  mask_loop mask a b c =
  if mask_ok mask then Some (comp is_zero mask a, comp is_one mask b, comp is_rnd mask c) else None.
Proof.
  revert a b c. induction mask as [|ch mask IH]; intros a b c Hl Ha Hb Hc; [done|].
  cbn [String.length] in *. rewrite Nat2Z.inj_succ in *.
  replace (32 - Z.succ (strlen mask)) with (31 - strlen mask) in * by lia.
  destruct (shift_step a (strlen mask)) as (Ea&Ea'&?); [done|lia|].
  destruct (shift_step b (strlen mask)) as (Eb&Eb'&?); [done|lia|].
  destruct (shift_step c (strlen mask)) as (Ec&Ec'&?); [done|lia|].
  cbn [mask_loop mask_ok comp]. rewrite Ea, Eb, Ec, Ea', Eb', Ec'. clear Ea Eb Ec Ea' Eb' Ec'.
  unfold is_mask_char, is_zero, is_one, is_rnd.
  repeat match goal with
  | |- context [if bool_decide ?P then _ else _] => destruct (decide P);
      [rewrite (bool_decide_eq_true_2 P) by done|rewrite (bool_decide_eq_false_2 P) by done]
  end; subst; cbn [orb andb Z.b2z]; rewrite ?Z.add_0_r; try (rewrite IH by lia); try done.
Qed.

Lemma get_some_lt n mask c : String.get n mask = Some c → (n < String.length mask)%nat.
Proof.
  revert n. induction mask as [|d mask IH]; intros [|n] H; cbn in *; try done; [lia|].
  apply IH in H. lia.
Qed.

(** A component shifted to the most significant bits: bit [31 - k] is character [k]. *)
Lemma comp_pad_testbit p mask k :
  strlen mask ≤ 32 → p "."%char = false → 0 ≤ k < 32 →
  Z.testbit (u32 (Z.shiftl (comp p mask 0) (32 - strlen mask))) (31 - k) = p (char_at mask k).
Proof.
  intros Hl Hp Hk. unfold wrap. rewrite Z.mod_pow2_bits_low, Z.shiftl_spec by lia.
  destruct (Z.ltb_spec (31 - k) (32 - strlen mask)).
  - rewrite Z.testbit_neg_r by lia. unfold char_at.
    destruct (String.get (Z.to_nat k) mask) eqn:E; [|done].
    assert (Z.to_nat k < String.length mask)%nat; [|lia].
    by apply get_some_lt in E.
  - rewrite comp_testbit by lia. destruct (Z.ltb_spec (31 - k - (32 - strlen mask)) (strlen mask)); [|lia].
    do 2 f_equal. lia.
Qed.

(** The masks of a specification say, in network byte order, what the string
    says: bit [r] of byte [q] is character [8 * q + 7 - r]. *)
Definition spec_says (s : bf_spec_t) (mask : string) : Prop :=
  ∀ q r, 0 ≤ q < 4 → 0 ≤ r < 8 →
    let c := char_at mask (8 * q + (7 - r)) in
    Z.testbit (andMask s) (8 * q + r) = negb (is_zero c || is_rnd c) ∧
    Z.testbit (orMask s) (8 * q + r) = is_one c ∧
    Z.testbit (rndMask s) (8 * q + r) = is_rnd c.

Definition mask_valid (mask : string) : Prop :=
  0 < strlen mask ≤ 32 ∧ mask_ok mask = true.

Lemma new_spec_says off mask :
  strlen mask ≤ 32 →
  let pad x := u32 (Z.shiftl x (32 - strlen mask)) in
  spec_says (mk_bf_spec off
    (htonl (u32 (Z.lnot (Z.lor (pad (comp is_zero mask 0)) (pad (comp is_rnd mask 0))))))
    (htonl (pad (comp is_one mask 0))) (htonl (pad (comp is_rnd mask 0)))) mask.
Proof.
  intros Hl pad q r Hq Hr c. cbn [andMask orMask rndMask]. rewrite !bswap32_testbit by done.
  replace (8 * (3 - q) + r) with (31 - (8 * q + (7 - r))) by lia.
  set (k := 8 * q + (7 - r)) in *.
  assert (∀ p, p "."%char = false → Z.testbit (pad (comp p mask 0)) (31 - k) = p c) as H.
  { intros p Hp. apply comp_pad_testbit; (done || lia). }
  rewrite !H by done. split_and!; try done.
  unfold wrap at 1. rewrite Z.mod_pow2_bits_low, Z.lnot_spec, Z.lor_spec, !H by (done || lia). done.
Qed.

(** ** The active-slot vector *)

Lemma bit_of_word i idx : 0 ≤ i → 0 ≤ idx < 32 →
  Z.testbit (u32 (Z.shiftl 1 idx)) i = (i =? idx).
Proof.
  intros Hi Hx. rewrite Z.shiftl_1_l, wrap_small.
  - rewrite Z.pow2_bits_eqb by lia. apply Z.eqb_sym.
  - split; [lia|]. apply Z.pow_lt_mono_r; lia.
Qed.

Lemma word_bit_high w x i : 0 ≤ w → in_word w x → w ≤ i → Z.testbit x i = false.
Proof.
  intros Hw Hx Hi. rewrite <-(wrap_small w x) by done. unfold wrap.
  apply Z.mod_pow2_bits_high. lia.
Qed.

Lemma active_set a i idx : 0 ≤ i → 0 ≤ idx < 32 →
  Z.testbit (Z.lor a (u32 (Z.shiftl 1 idx))) i = if i =? idx then true else Z.testbit a i.
Proof.
  intros Hi Hx. rewrite Z.lor_spec, bit_of_word by done.
  destruct (i =? idx); [apply orb_true_r|apply orb_false_r].
Qed.

Lemma active_clear a i idx : in_word 32 a → 0 ≤ i → 0 ≤ idx < 32 →
  Z.testbit (Z.land a (u32 (Z.lnot (u32 (Z.shiftl 1 idx))))) i =
  if i =? idx then false else Z.testbit a i.
Proof.
  intros Ha Hi Hx. rewrite Z.land_spec. destruct (Z.ltb_spec i 32) as [Hl|Hl].
  - unfold wrap at 1. rewrite Z.mod_pow2_bits_low, Z.lnot_spec, bit_of_word by lia.
    destruct (i =? idx); [apply andb_false_r|apply andb_true_r].
  - rewrite (word_bit_high 32 a i) by (done || lia). by destruct (i =? idx).
Qed.

(** [pktgen_set_random_bitfield]: a mask of 1 to 32 characters among
    [0], [1], [.], [x] and [X] activates the slot with masks that say in wire
    order what the string says; the empty mask only deactivates the slot; an
    index past 31, a longer mask or any other character changes nothing.  The
    result is always the vector of active slots. *)
Theorem set_random_bitfield_spec (rb : rnd_bits_t) (idx off : Z) (mask : string) :
  0 ≤ idx → length (specs rb) = 32%nat → in_word 32 (active_specs rb) →
  let '(act, rb') := pktgen_set_random_bitfield rb idx off mask in
  act = active_specs rb' ∧
  if (32 <=? idx) || (32 <? strlen mask) || negb (mask_ok mask) then rb' = rb
  else
    (∀ i, 0 ≤ i → Z.testbit (active_specs rb') i =
       if i =? idx then 0 <? strlen mask else Z.testbit (active_specs rb) i) ∧
    (∀ i, i ≠ Z.to_nat idx → specs rb' !! i = specs rb !! i) ∧
    if strlen mask =? 0 then specs rb' = specs rb
    else ∃ s, specs rb' !! Z.to_nat idx = Some s ∧ offset s = off ∧ spec_says s mask.
Proof.
  intros Hi Hlen Ha. unfold pktgen_set_random_bitfield, MAX_RND_BITFIELDS, MAX_BITFIELD_SIZE.
  destruct (Z.leb_spec 32 idx); [done|]. destruct (Z.ltb_spec 32 (strlen mask)); [done|].
  cbn [orb]. destruct (Z.eqb_spec (strlen mask) 0) as [E|E].
  - destruct mask as [|c mask]; [|cbn [String.length] in E; lia].
    split; [done|]. cbn [mask_ok negb]. split_and!; [|done..].
    intros i Hi'. by apply active_clear.
  - rewrite mask_loop_spec by (lia || (split; [lia|apply Z.pow_pos_nonneg; lia])).
    destruct (mask_ok mask); [|done]. split; [done|]. cbn [negb].
    destruct (Z.ltb_spec 0 (strlen mask)); [|lia]. split_and!.
    + intros i Hi'. by apply active_set.
    + intros i Hne. by apply list_lookup_insert_ne.
    + eexists. split_and!; [apply list_lookup_insert_eq;
        change (Z.to_nat idx < length (specs rb))%nat; lia|done|by apply new_spec_says].
Qed.

Lemma set_random_bitfield_spec_witness :
  ∃ s, specs (snd (pktgen_set_random_bitfield rnd_bits_zero 3 5 "01.x"%string)) !! 3%nat = Some s ∧
       offset s = 5 ∧ spec_says s "01.x"%string.
Proof.
  pose proof (set_random_bitfield_spec rnd_bits_zero 3 5 "01.x"%string ltac:(lia) eq_refl
                ltac:(unfold in_word; simpl; lia)) as T.
  destruct (pktgen_set_random_bitfield rnd_bits_zero 3 5 "01.x"%string) as [act rb'].
  destruct T as [_ [_ [_ T]]]. exact T.
Defined.

(** ** Applying one specification *)

Lemma land_lor_bit a and_ or_ i :
  Z.testbit (Z.lor (Z.land a and_) or_) i = Z.testbit a i && Z.testbit and_ i || Z.testbit or_ i.
Proof. by rewrite Z.lor_spec, Z.land_spec. Qed.

Lemma apply_spec_bits s mask data m st q r :
  spec_says s mask → 0 ≤ q < 4 → 0 ≤ r < 8 →
  let a := data + offset s + q in
  let c := char_at mask (8 * q + (7 - r)) in
  Z.testbit (ld8 (fst (apply_spec s data m st)) a) r =
  if is_zero c then false else if is_one c then true
  else if is_rnd c then Z.testbit (fst (pktgen_default_rnd_func st)) (8 * q + r)
  else Z.testbit (ld8 m a) r.
Proof.
  intros Hs Hq Hr a c. destruct (Hs q r Hq Hr) as (Ha & Ho & Hx). fold c in Ha, Ho, Hx.
  pose proof (load_testbit 4 m (data + offset s) q r ltac:(lia) Hr) as L. fold a in L.
  assert (Z.testbit (ld8 m a) r = Z.testbit (ld32 m (data + offset s)) (8 * q + r)) as -> by done.
  clear L. unfold apply_spec. mem_simpl. set (w := ld32 m (data + offset s)) in *.
  assert (∀ m v, Z.testbit (ld8 (st32 m (data + offset s) v) a) r = Z.testbit v (8 * q + r)) as S.
  { intros m1 v. unfold a. apply store_testbit; lia. }
  assert (∀ v, Z.testbit (u32 v) (8 * q + r) = Z.testbit v (8 * q + r)) as W.
  { intros v. unfold wrap. apply Z.mod_pow2_bits_low. lia. }
  assert (is_zero c && is_one c = false ∧ is_zero c && is_rnd c = false ∧ is_one c && is_rnd c = false)
    as (D1 & D2 & D3).
  { unfold is_zero, is_one, is_rnd.
    split_and!; repeat case_bool_decide; try done; destruct_or?; congruence. }
  destruct (Z.eqb_spec (rndMask s) 0) as [Hz|Hz].
  - rewrite Hz, Z.testbit_0_l in Hx. cbn [fst]. rewrite S, Z.lor_spec, W, Z.land_spec, Ha, Ho, <-Hx.
    destruct (is_zero c), (is_one c), (Z.testbit w _); done.
  - destruct (pktgen_default_rnd_func st) as [v st']. cbn [fst].
    mem_simpl. rewrite S, Z.lor_spec, W, Z.lor_spec, W, !Z.land_spec, Ha, Ho, Hx.
    destruct (is_zero c), (is_one c), (is_rnd c), (Z.testbit w _), (Z.testbit v _); done.
Qed.

Lemma apply_spec_frame s data m st b :
  b < data + offset s ∨ data + offset s + 4 ≤ b →
  ld8 (fst (apply_spec s data m st)) b = ld8 m b.
Proof.
  intros Hb. unfold apply_spec. destruct (rndMask s =? 0); cbn [fst].
  - rewrite !ld8_store_ne by lia. done.
  - destruct (pktgen_default_rnd_func st). cbn [fst]. rewrite !ld8_store_ne by lia. done.
Qed.

(** The walk over the active vector visits the active slots, lowest first. *)
Fixpoint active_list (active i : Z) (l : list bf_spec_t) : list bf_spec_t :=
  match l with
  | [] => []
  | s :: l => if Z.testbit active i then s :: active_list active (i + 1) l
              else active_list active (i + 1) l
  end.

Definition apply_all (l : list bf_spec_t) (data : Z) (p : mem * Z) : mem * Z :=
  fold_left (λ p s, apply_spec s data (fst p) (snd p)) l p.

Lemma active_list_zero i l : active_list 0 i l = [].
Proof.
  revert i. induction l as [|s l IH]; intros i; [done|]. cbn [active_list].
  by rewrite Z.testbit_0_l, IH.
Qed.

Lemma active_list_shift active i l :
  0 ≤ i → active_list (Z.shiftr active 1) i l = active_list active (i + 1) l.
Proof.
  revert i. induction l as [|s l IH]; intros i Hi; [done|]. cbn [active_list].
  rewrite Z.shiftr_spec, !IH by lia. done.
Qed.

Lemma apply_specs_active l active data m st :
  0 ≤ active → apply_specs l active data m st = apply_all (active_list active 0 l) data (m, st).
Proof.
  revert active m st. induction l as [|s l IH]; intros active m st Ha; [done|].
  cbn [apply_specs active_list]. destruct (Z.ltb_spec 0 active).
  - rewrite <-active_list_shift by lia. rewrite Z.bit0_odd.
    change 1 with (Z.ones 1) at 1. rewrite Z.land_ones, Zmod_odd by lia.
    assert (0 ≤ Z.shiftr active 1) by by apply Z.shiftr_nonneg.
    destruct (Z.odd active); cbn [Z.eqb].
    + destruct (apply_spec s data m st) as [m' st'] eqn:E. rewrite IH by done.
      unfold apply_all. cbn [fold_left fst snd]. by rewrite E.
    + by rewrite IH.
  - assert (active = 0) as -> by lia. by rewrite Z.testbit_0_l, active_list_zero.
Qed.

Lemma apply_all_frame l data p b :
  (∀ s, s ∈ l → b < data + offset s ∨ data + offset s + 4 ≤ b) →
  ld8 (fst (apply_all l data p)) b = ld8 (fst p) b.
Proof.
  revert p. induction l as [|s l IH]; intros p H; [done|].
  change (apply_all (s :: l) data p) with (apply_all l data (apply_spec s data (fst p) (snd p))).
  rewrite IH by (intros; apply H; by right). apply apply_spec_frame. apply H. by left.
Qed.

Lemma apply_pkts_frame rb pkts m st b :
  0 ≤ active_specs rb →
  (∀ data s, data ∈ pkts → s ∈ active_list (active_specs rb) 0 (specs rb) →
     b < data + offset s ∨ data + offset s + 4 ≤ b) →
  ld8 (fst (apply_pkts rb pkts m st)) b = ld8 m b.
Proof.
  intros Ha. revert m st. induction pkts as [|data pkts IH]; intros m st H; [done|].
  cbn [apply_pkts]. rewrite apply_specs_active by done.
  destruct (apply_all _ data (m, st)) as [m' st'] eqn:E.
  rewrite IH by (intros; apply H; [by right|done]).
  change m' with (fst (m', st')). rewrite <-E. apply apply_all_frame.
  intros s Hs. apply H; [by left|done].
Qed.

(** Draws of the generator: one for each active slot with random bits *)
Fixpoint draws (l : list bf_spec_t) : nat :=
  match l with
  | [] => 0
  | s :: l => (if rndMask s =? 0 then 0 else 1) + draws l
  end.

Lemma iter_succ {A} n (f : A → A) x : Nat.iter (S n) f x = Nat.iter n f (f x).
Proof. induction n as [|n IH]; [done|]. cbn in *. by rewrite IH. Qed.

Lemma apply_spec_state s data m st :
  snd (apply_spec s data m st) = if rndMask s =? 0 then st else xs_next st.
Proof. unfold apply_spec. by destruct (rndMask s =? 0). Qed.

Lemma apply_all_state l data p : snd (apply_all l data p) = Nat.iter (draws l) xs_next (snd p).
Proof.
  revert p. induction l as [|s l IH]; intros p; [done|].
  change (apply_all (s :: l) data p) with (apply_all l data (apply_spec s data (fst p) (snd p))).
  rewrite IH, apply_spec_state. cbn [draws]. destruct (rndMask s =? 0); [done|].
  by rewrite <-iter_succ.
Qed.

Lemma apply_pkts_state rb pkts m st :
  0 ≤ active_specs rb →
  snd (apply_pkts rb pkts m st) =
  Nat.iter (length pkts * draws (active_list (active_specs rb) 0 (specs rb))) xs_next st.
Proof.
  intros Ha. set (l := active_list _ _ _). revert m st.
  induction pkts as [|data pkts IH]; intros m st; [done|]. cbn [apply_pkts length].
  rewrite apply_specs_active by done. fold l. pose proof (apply_all_state l data (m, st)) as E.
  destruct (apply_all l data (m, st)) as [m' st']. cbn [snd] in E. rewrite IH, E.
  change (S (length pkts) * draws l)%nat with (draws l + length pkts * draws l)%nat.
  by rewrite (Nat.add_comm (draws l)), Nat.iter_add.
Qed.

Lemma apply_pkts_app rb ps1 ps2 m st :
  apply_pkts rb (ps1 ++ ps2) m st =
  apply_pkts rb ps2 (fst (apply_pkts rb ps1 m st)) (snd (apply_pkts rb ps1 m st)).
Proof.
  revert m st. induction ps1 as [|data ps1 IH]; intros m st; [done|]. cbn [app apply_pkts].
  by destruct (apply_specs _ _ _ _ _).
Qed.

Definition overlaps (s s' : bf_spec_t) : Prop := offset s - 4 < offset s' < offset s + 4.

(** One packet: what a slot that overlaps no other makes of its bits *)
Lemma apply_all_bits l1 s l2 mask data m st q r :
  (∀ s', s' ∈ l1 ++ l2 → ¬ overlaps s s') → spec_says s mask → 0 ≤ q < 4 → 0 ≤ r < 8 →
  let a := data + offset s + q in
  let c := char_at mask (8 * q + (7 - r)) in
  Z.testbit (ld8 (fst (apply_all (l1 ++ s :: l2) data (m, st))) a) r =
  if is_zero c then false else if is_one c then true
  else if is_rnd c
  then Z.testbit (fst (pktgen_default_rnd_func (Nat.iter (draws l1) xs_next st))) (8 * q + r)
  else Z.testbit (ld8 m a) r.
Proof.
  intros Hd Hs Hq Hr a c.
  assert (∀ s', s' ∈ l1 ++ l2 → a < data + offset s' ∨ data + offset s' + 4 ≤ a) as Ho.
  { intros s' Hs'. specialize (Hd s' Hs'). unfold overlaps, a in *. lia. }
  unfold apply_all. rewrite fold_left_app. cbn [fold_left]. fold (apply_all l1 data (m, st)).
  pose proof (apply_all_state l1 data (m, st)) as Est. cbn [snd] in Est.
  set (p1 := apply_all l1 data (m, st)) in *.
  match goal with |- context [fold_left ?f l2 ?x] => change (fold_left f l2 x) with (apply_all l2 data x) end.
  rewrite apply_all_frame by (intros s' Hs'; apply Ho, elem_of_app; by right).
  unfold a. rewrite apply_spec_bits with (mask := mask) by done. fold a c. rewrite Est.
  destruct (is_zero c), (is_one c), (is_rnd c); try done.
  f_equal. apply (apply_all_frame l1 data (m, st)). intros s' Hs'. apply Ho, elem_of_app. by left.
Qed.

(** C37. [pktgen_rnd_bits_apply] on a burst of packets applies the active slots, in
    the order of their index, to every packet of the burst, in the order of the
    burst.  In any packet of it, where an active slot overlaps no other one and
    no window of the other packets, every bit its string marks [0] or [1] has that
    value afterwards, a bit marked [.] keeps the value it had, and a bit marked
    [x] is the generator's bit of the draw made for this packet and this slot:
    every packet before it in the burst has taken one draw for each of its active slots
    with random bits, and so have the slots before this one in the same packet.
    No byte outside the active windows of the burst changes. *)
Theorem rnd_bits_apply_spec (info_bits : rnd_bits_t) (rbits : option rnd_bits_t)
    (before after : list Z) (data : Z) (m : mem) (st : Z) (l1 l2 : list bf_spec_t) (s : bf_spec_t)
    (mask : string) :
  let rb := default info_bits rbits in
  let pkts := before ++ data :: after in
  0 ≤ active_specs rb →
  active_list (active_specs rb) 0 (specs rb) = l1 ++ s :: l2 →
  (∀ s', s' ∈ l1 ++ l2 → ¬ overlaps s s') →
  (∀ d s', d ∈ before ++ after → s' ∈ l1 ++ s :: l2 →
     data + offset s + 4 ≤ d + offset s' ∨ d + offset s' + 4 ≤ data + offset s) →
  spec_says s mask →
  let m' := fst (pktgen_rnd_bits_apply info_bits pkts rbits m st) in
  let drawn := (length before * draws (l1 ++ s :: l2) + draws l1)%nat in
  (∀ q r, 0 ≤ q < 4 → 0 ≤ r < 8 →
     let a := data + offset s + q in
     let c := char_at mask (8 * q + (7 - r)) in
     Z.testbit (ld8 m' a) r =
     if is_zero c then false else if is_one c then true
     else if is_rnd c
     then Z.testbit (fst (pktgen_default_rnd_func (Nat.iter drawn xs_next st))) (8 * q + r)
     else Z.testbit (ld8 m a) r) ∧
  (∀ b, (∀ d s', d ∈ pkts → s' ∈ l1 ++ s :: l2 → b < d + offset s' ∨ d + offset s' + 4 ≤ b) →
     ld8 m' b = ld8 m b).
Proof.
  intros rb pkts Ha Hl Hd Hp Hs m' drawn. subst m'. unfold pktgen_rnd_bits_apply. fold rb.
  destruct (Z.eqb_spec (active_specs rb) 0) as [E|E].
  { rewrite E, active_list_zero in Hl. by destruct l1. }
  split; [|intros b Hb; apply apply_pkts_frame; [done|by rewrite Hl]].
  intros q r Hq Hr. cbv zeta. unfold pkts, drawn. rewrite apply_pkts_app.
  assert (∀ l m st, (∀ d, d ∈ l → d ∈ before ++ after) →
    ld8 (fst (apply_pkts rb l m st)) (data + offset s + q) = ld8 m (data + offset s + q)) as Hframe.
  { intros l m0 st0 Hsub. apply apply_pkts_frame; [done|]. intros d s' Hd' Hs'. rewrite Hl in Hs'.
    destruct (Hp d s' (Hsub d Hd') Hs'); lia. }
  cbn [apply_pkts]. rewrite apply_specs_active, apply_pkts_state, Hl by done.
  set (m1 := fst (apply_pkts rb before m st)). set (st1 := Nat.iter (length before * _) xs_next st).
  pose proof (apply_all_bits l1 s l2 mask data m1 st1 q r Hd Hs Hq Hr) as B. cbv zeta in B.
  destruct (apply_all (l1 ++ s :: l2) data (m1, st1)) as [m2 st2]. cbn [fst] in B.
  rewrite Hframe by (intros d Hd'; apply elem_of_app; by right). rewrite B.
  unfold st1, m1. rewrite <-Nat.iter_add, (Nat.add_comm (draws l1)).
  by rewrite Hframe by (intros d Hd'; apply elem_of_app; by left).
Qed.

(** The second of two packets, of which each takes a draw *)
Lemma rnd_bits_apply_spec_witness :
  let rb := snd (pktgen_set_random_bitfield rnd_bits_zero 3 5 "01.x"%string) in
  let m' := fst (pktgen_rnd_bits_apply rb [50; 100] None (λ _, 0xff) 1) in
  Z.testbit (ld8 m' 105) 7 = false ∧ Z.testbit (ld8 m' 105) 5 = Z.testbit 0xff 5 ∧
  Z.testbit (ld8 m' 105) 4 = Z.testbit (fst (pktgen_default_rnd_func (xs_next 1))) 4.
Proof.
  intros rb m'.
  assert (spec_says (mk_bf_spec 5 0xffffff6f 0x40 0x10) "01.x"%string) as Hs.
  { pose proof (new_spec_says 5 "01.x"%string ltac:(vm_compute; discriminate)) as H. exact H. }
  pose proof (rnd_bits_apply_spec rb None [50] [] 100 (λ _, 0xff) 1 [] [] _ "01.x"%string
    ltac:(vm_compute; discriminate) eq_refl ltac:(intros ? []%elem_of_nil)
    ltac:(intros d s' ->%list_elem_of_singleton ->%list_elem_of_singleton; right; cbn; lia) Hs) as [T _].
  split_and!; [exact (T 0 7 ltac:(lia) ltac:(lia))|exact (T 0 5 ltac:(lia) ltac:(lia))
    |exact (T 0 4 ltac:(lia) ltac:(lia))].
Defined.

(** ** The display page shows what was set *)

Definition norm_char (c : ascii) : ascii :=
  if is_rnd c then "X"%char else if is_zero c then "0"%char
  else if is_one c then "1"%char else "."%char.

(** Four groups of eight characters, separated by spaces. *)
Definition groups_of_8 (f : Z → ascii) : list ascii :=
  (f <$> seqZ 0 8) ++ [" "%char] ++ (f <$> seqZ 8 8) ++ [" "%char] ++
  (f <$> seqZ 16 8) ++ [" "%char] ++ (f <$> seqZ 24 8).

Lemma land_bit_test x i : 0 ≤ i < 32 → (Z.land x (u32 (Z.shiftl 1 i)) =? 0) = negb (Z.testbit x i).
Proof.
  intros Hi. destruct (Z.eqb_spec (Z.land x (u32 (Z.shiftl 1 i))) 0) as [E|E].
  - apply (f_equal (λ z, Z.testbit z i)) in E. rewrite Z.land_spec, bit_of_word, Z.eqb_refl,
      andb_true_r, Z.testbit_0_l in E by lia. by rewrite E.
  - destruct (Z.testbit x i) eqn:Ex; [done|]. destruct E. apply Z.bits_inj'. intros j Hj.
    rewrite Z.land_spec, bit_of_word, Z.testbit_0_l by lia.
    destruct (Z.eqb_spec j i) as [->|]; [by rewrite Ex|apply andb_false_r].
Qed.

Lemma mask_char_says s mask k :
  spec_says s mask → 0 ≤ k < 32 → mask_char s k = norm_char (char_at mask k).
Proof.
  intros Hs Hk. unfold mask_char, MAX_BITFIELD_SIZE. rewrite !land_bit_test by lia.
  set (q := (31 - k) / 8). set (r := (31 - k) `mod` 8).
  pose proof (Z.div_mod (31 - k) 8 ltac:(lia)) as E1.
  pose proof (Z.mod_pos_bound (31 - k) 8 ltac:(lia)) as E2. fold q r in E1, E2.
  replace (32 - k - 1) with (8 * q + r) by lia.
  rewrite !bswap32_testbit by lia.
  destruct (Hs (3 - q) r) as (Ha & Ho & Hx); [lia|lia|].
  replace (8 * (3 - q) + (7 - r)) with k in * by lia. rewrite Ha, Ho, Hx. unfold norm_char.
  by destruct (is_rnd _), (is_zero _), (is_one _).
Qed.

#[local] Opaque mask_char.
Lemma page_mask_groups s : page_mask s = groups_of_8 (mask_char s).
Proof. reflexivity. Qed.
#[local] Transparent mask_char.

(** The display page shows the mask as it was entered: after a valid mask
    is set, the row of its slot reads the index, the offset, "active", and the
    32 characters in groups of eight, short masks padded with [.] and [x]
    written [X]. *)
Theorem page_shows_mask (rb : rnd_bits_t) (idx off : Z) (mask : string) :
  0 ≤ idx < 32 → length (specs rb) = 32%nat → mask_valid mask →
  page_row (snd (pktgen_set_random_bitfield rb idx off mask)) idx =
  Some (idx, off, true, groups_of_8 (λ k, norm_char (char_at mask k))).
Proof.
  intros Hi Hlen [Hl Hok].
  unfold pktgen_set_random_bitfield, MAX_RND_BITFIELDS, MAX_BITFIELD_SIZE.
  destruct (Z.leb_spec 32 idx); [lia|]. destruct (Z.ltb_spec 32 (strlen mask)); [lia|].
  destruct (Z.eqb_spec (strlen mask) 0); [lia|].
  rewrite mask_loop_spec, Hok by (lia || (split; [lia|apply Z.pow_pos_nonneg; lia])).
  unfold page_row. cbn [snd specs active_specs upd].
  rewrite list_lookup_insert_eq by (change (Z.to_nat idx < length (specs rb))%nat; lia).
  cbn [mbind option_bind]. rewrite land_bit_test by lia.
  rewrite active_set, Z.eqb_refl by lia.
  cbn [negb offset]. rewrite page_mask_groups. do 2 f_equal. unfold groups_of_8.
  repeat match goal with |- _ ++ _ = _ => f_equal end;
    apply list_fmap_ext; intros i k Hk; apply list_elem_of_lookup_2, elem_of_seqZ in Hk;
    (apply mask_char_says; [by apply new_spec_says|lia]).
Qed.

Lemma page_shows_mask_witness :
  page_row (snd (pktgen_set_random_bitfield rnd_bits_zero 3 5 "01.x"%string)) 3 =
  Some (3, 5, true, groups_of_8 (λ k, norm_char (char_at "01.x"%string k))).
Proof.
  apply page_shows_mask; [lia|reflexivity|split; [cbn; lia|reflexivity]].
Defined.
