(* ===== verification/Inet.v ===== *)
(** * Internet addresses

    [lib/utils/inet_pton.c] (text to binary for both address families) and the
    address helpers of [lib/common/pg_inet.h].  A C string is a [string]
    without its terminating NUL; the parsers return the bytes they would copy
    to [dst], or [None] where they return 0 and leave [dst] untouched. *)
From Stdlib Require Import Ascii String.
From S2P Require Import Prelude Mem.

(** ** inet_pton.c *)

Definition code (c : ascii) : Z := Z.of_N (N_of_ascii c).

(** [strchr(digits, ch) - digits] *)
Definition digit (c : ascii) : option Z :=
  if (48 <=? code c) && (code c <=? 57) then Some (code c - 48) else None.

(** The same for [xdigits_l] and, failing that, [xdigits_u]. *)
Definition xdigit (c : ascii) : option Z :=
  match digit c with
  | Some d => Some d
  | None =>
      if (97 <=? code c) && (code c <=? 102) then Some (code c - 87)
      else if (65 <=? code c) && (code c <=? 70) then Some (code c - 55) else None
  end.

(** The loop of [inet_pton4]: [pre] are the octets below [tp], [cur] is [*tp]. *)
Fixpoint pton4_loop (src : string) (pre : list Z) (cur : Z) (saw_digit : bool) (octets : Z)
    : option (list Z) :=
  match src with
  | EmptyString => if octets <? 4 then None else Some (pre ++ [cur])
  | String ch src =>
      match digit ch with
      | Some d =>
          let new := cur * 10 + d in
          if saw_digit && (cur =? 0) then None
          else if 255 <? new then None
          else if saw_digit then pton4_loop src pre new true octets
          else if 4 <? octets + 1 then None
          else pton4_loop src pre new true (octets + 1)
      | None =>
          if bool_decide (ch = "."%char) && saw_digit then
            if octets =? 4 then None else pton4_loop src (pre ++ [cur]) 0 false octets
          else None
      end
  end.

Definition inet_pton4 (src : string) : option (list Z) := pton4_loop src [] 0 false 0.

(** State of [inet_pton6]: the 16 bytes of [tmp], the indices [tp] and [colonp]. *)
Record pton6 := mk_pton6 {
  tmp : list Z; tp : Z; colonp : option Z; seen_xdigits : Z; val : Z }.

#[global] Instance eta_pton6 : Eta pton6 :=
  λ r, mk_pton6 (tmp r) (tp r) (colonp r) (seen_xdigits r) (val r).

Definition put (st : pton6) (b : Z) : pton6 :=
  st <| tmp ::= λ l, <[Z.to_nat (tp st) := u8 b]> l |> <| tp ::= λ i, i + 1 |>.

(** [*tp++ = val >> 8; *tp++ = val] *)
Definition put_val (st : pton6) : pton6 :=
  let v := val st in
  put (put st (Z.land (u8 (Z.shiftr v 8)) 0xff)) (Z.land (u8 v) 0xff).

Definition NS_IN6ADDRSZ : Z := 16.

Fixpoint pton6_loop (src curtok : string) (st : pton6) : option pton6 :=
  match src with
  | EmptyString => Some st
  | String ch src =>
      match xdigit ch with
      | Some d =>
          let st := st <| val := Z.lor (u32 (Z.shiftl (val st) 4)) d |>
                       <| seen_xdigits ::= λ n, n + 1 |> in
          if 4 <? seen_xdigits st then None else pton6_loop src curtok st
      | None =>
          if bool_decide (ch = ":"%char) then
            let curtok := src in
            if seen_xdigits st =? 0 then
              match colonp st with
              | Some _ => None
              | None => pton6_loop src curtok (st <| colonp := Some (tp st) |>)
              end
            else if bool_decide (src = EmptyString) then None
            else if NS_IN6ADDRSZ <? tp st + 2 then None
            else pton6_loop src curtok (put_val st <| seen_xdigits := 0 |> <| val := 0 |>)
          else if bool_decide (ch = "."%char) && (tp st + 4 <=? NS_IN6ADDRSZ) then
            match inet_pton4 curtok with
            | Some l => Some (foldl put st l <| seen_xdigits := 0 |>)
            | None => None
            end
          else None
      end
  end.

(** The shift by hand: [endp[-i] = colonp[n - i]; colonp[n - i] = 0]. *)
Fixpoint shift_loop (k : nat) (i n c : Z) (l : list Z) : list Z :=
  match k with
  | O => l
  | S k =>
      let l := <[Z.to_nat (NS_IN6ADDRSZ - i) := nth (Z.to_nat (c + (n - i))) l 0]> l in
      shift_loop k (i + 1) n c (<[Z.to_nat (c + (n - i)) := 0]> l)
  end.

Definition pton6_finish (st : pton6) : option (list Z) :=
  let flushed :=
    if seen_xdigits st =? 0 then Some st
    else if NS_IN6ADDRSZ <? tp st + 2 then None else Some (put_val st) in
  match flushed with
  | None => None
  | Some st =>
      match colonp st with
      | Some c =>
          if tp st =? NS_IN6ADDRSZ then None
          else let n := tp st - c in Some (shift_loop (Z.to_nat n) 1 n c (tmp st))
      | None => if tp st =? NS_IN6ADDRSZ then Some (tmp st) else None
      end
  end.

Definition inet_pton6 (src : string) : option (list Z) :=
  let st := mk_pton6 (replicate 16 0) 0 None 0 0 in
  let run src := match pton6_loop src src st with Some st => pton6_finish st | None => None end in
  match src with
  | String ":" rest =>
      match rest with String ":" _ => run rest | _ => None end
  | _ => run src
  end.

Definition AF_INET : Z := 2.
Definition AF_INET6 : Z := 10.

(** The returned status and the new contents of [dst]. *)
Definition inet_pton (af : Z) (src : string) (dst : list Z) : Z * list Z :=
  let copy r := match r with
                | Some b => (1, b ++ drop (List.length b) dst)
                | None => (0, dst)
                end in
  if af =? AF_INET then copy (inet_pton4 src)
  else if af =? AF_INET6 then copy (inet_pton6 src)
  else (-1, dst).

(** ** pg_inet.h: addresses in memory *)

Definition ethAddrCopy (m : mem) (t f : Z) : mem :=
  let m := st16 m t (ld16 m f) in
  let m := st16 m (t + 2) (ld16 m (f + 2)) in
  st16 m (t + 4) (ld16 m (f + 4)).

Definition uint16Swap (m : mem) (t f : Z) : mem :=
  let v := ld16 m t in
  let m := st16 m t (ld16 m f) in
  st16 m f v.

Definition ethAddrSwap (m : mem) (t f : Z) : mem :=
  let m := uint16Swap m t f in
  let m := uint16Swap m (t + 2) (f + 2) in
  uint16Swap m (t + 4) (f + 4).

Definition inetAddrCopy (m : mem) (t f : Z) : mem := st32 m t (ld32 m f).

Definition inetAddrSwap (m : mem) (t f : Z) : mem :=
  let v := ld32 m t in
  let m := st32 m t (ld32 m f) in
  st32 m f v.

(** [for (i = 0; i < 32; i++) if ((mask & (1 << (31 - i))) == 0) break;] *)
Fixpoint mask_scan (n : nat) (i mask : Z) : Z :=
  match n with
  | O => i
  | S n => if Z.land mask (u32 (Z.shiftl 1 (31 - i))) =? 0 then i else mask_scan n (i + 1) mask
  end.

Definition mask_size (mask : Z) : Z :=
  if mask =? 0 then 0
  else if mask =? 0xFF000000 then 8
  else if mask =? 0xFFFF0000 then 16
  else if mask =? 0xFFFFFF00 then 24
  else if mask =? 0xFFFFFFFF then 32
  else mask_scan 32 0 mask.

Fixpoint mask_build (n : nat) (i mask : Z) : Z :=
  match n with
  | O => mask
  | S n => mask_build n (i + 1) (Z.lor mask (u32 (Z.shiftl 1 (31 - i))))
  end.

(** Lengths above 32 shift by a negative count in C and are outside the model. *)
Definition size_to_mask (len : Z) : Z :=
  if len =? 0 then 0
  else if len =? 8 then 0xFF000000
  else if len =? 16 then 0xFFFF0000
  else if len =? 24 then 0xFFFFFF00
  else if len =? 32 then 0xFFFFFFFF
  else mask_build (Z.to_nat len) 0 0.

(** [struct pg_ether_addr]: six bytes at [eaddr]. *)
Definition inet_mtoh64 (m : mem) (eaddr : Z) : Z :=
  u64 (Z.shiftl (ld8 m (eaddr + 5)) 0 + Z.shiftl (ld8 m (eaddr + 4)) 8 +
       Z.shiftl (ld8 m (eaddr + 3)) 16 + Z.shiftl (ld8 m (eaddr + 2)) 24 +
       Z.shiftl (ld8 m (eaddr + 1)) 32 + Z.shiftl (ld8 m (eaddr + 0)) 40).

Definition inet_h64tom (m : mem) (value eaddr : Z) : mem :=
  let m := store 1 m (eaddr + 5) (Z.land (Z.shiftr value 0) 0xFF) in
  let m := store 1 m (eaddr + 4) (Z.land (Z.shiftr value 8) 0xFF) in
  let m := store 1 m (eaddr + 3) (Z.land (Z.shiftr value 16) 0xFF) in
  let m := store 1 m (eaddr + 2) (Z.land (Z.shiftr value 24) 0xFF) in
  let m := store 1 m (eaddr + 1) (Z.land (Z.shiftr value 32) 0xFF) in
  store 1 m (eaddr + 0) (Z.land (Z.shiftr value 40) 0xFF).

(** ** Printing, the reference for the parsers *)

Definition chr (d : Z) : ascii := ascii_of_N (Z.to_N d).
Definition dchar (d : Z) : string := String (chr (48 + d)) EmptyString.

(** A byte in decimal, without leading zeros. *)
Definition dec (a : Z) : string :=
  if a <? 10 then dchar a
  else if a <? 100 then dchar (a / 10) +:+ dchar (a `mod` 10)
  else dchar (a / 100) +:+ dchar ((a / 10) `mod` 10) +:+ dchar (a `mod` 10).

Fixpoint join (sep : string) (l : list string) : string :=
  match l with
  | [] => EmptyString
  | [s] => s
  | s :: l => s +:+ sep +:+ join sep l
  end.

Definition dotted (l : list Z) : string := join "."%string (dec <$> l).

Lemma append_assoc (a b c : string) : (a +:+ b) +:+ c = a +:+ (b +:+ c).
Proof. induction a as [|x a IH]; [done|]. exact (f_equal (String x) IH). Qed.

Lemma append_nil_r (a : string) : a +:+ EmptyString = a.
Proof. induction a as [|x a IH]; [done|]. exact (f_equal (String x) IH). Qed.

Lemma join_snoc sep l s :
  join sep (l ++ [s]) = match l with [] => s | _ => join sep l +:+ sep +:+ s end.
Proof.
  induction l as [|x [|y l] IH]; [done|done|].
  change (join sep ((x :: y :: l) ++ [s])) with (x +:+ sep +:+ join sep ((y :: l) ++ [s])).
  rewrite IH. cbv beta iota.
  change (join sep (x :: y :: l)) with (x +:+ sep +:+ join sep (y :: l)).
  by rewrite !append_assoc.
Qed.

Lemma join_snoc' sep l s : l ≠ [] → join sep (l ++ [s]) = join sep l +:+ sep +:+ s.
Proof. intros Hl. rewrite join_snoc. by destruct l. Qed.

Lemma code_chr d : 0 ≤ d < 256 → code (chr d) = d.
Proof.
  intros Hd. unfold code, chr. rewrite N_ascii_embedding; [lia|]. apply N2Z.inj_lt. lia.
Qed.

Lemma chr_code c : chr (code c) = c.
Proof. unfold code, chr. rewrite N2Z.id. apply ascii_N_embedding. Qed.

Lemma digit_chr d : 0 ≤ d < 10 → digit (chr (48 + d)) = Some d.
Proof.
  intros Hd. unfold digit. rewrite code_chr by lia.
  destruct (Z.leb_spec 48 (48 + d)), (Z.leb_spec (48 + d) 57); try lia. simpl. f_equal. lia.
Qed.

Lemma digit_some c d : digit c = Some d → 0 ≤ d < 10 ∧ c = chr (48 + d).
Proof.
  unfold digit. destruct (Z.leb_spec 48 (code c)), (Z.leb_spec (code c) 57); try done.
  intros [= <-]. split; [lia|]. replace (48 + (code c - 48)) with (code c) by lia.
  by rewrite chr_code.
Qed.

Lemma dec_snoc a d :
  1 ≤ a → 0 ≤ d < 10 → 10 * a + d ≤ 255 → dec (10 * a + d) = dec a +:+ dchar d.
Proof.
  intros Ha Hd Hle. unfold dec.
  assert ((10 * a + d) / 10 = a) as E10 by (symmetry; apply Z.div_unique with d; lia).
  assert ((10 * a + d) `mod` 10 = d) as -> by (symmetry; apply Z.mod_unique with a; lia).
  assert ((10 * a + d) / 100 = a / 10) as ->.
  { change 100 with (10 * 10). rewrite <-Z.div_div by lia. by rewrite E10. }
  rewrite E10. destruct (Z.ltb_spec (10 * a + d) 10); [lia|].
  destruct (Z.ltb_spec (10 * a + d) 100), (Z.ltb_spec a 10); try lia; [done|].
  destruct (Z.ltb_spec a 100); [|lia]. by rewrite !append_assoc.
Qed.

(** ** inet_pton4 accepts exactly the canonical dotted quads *)

Definition is_byte (z : Z) : Prop := 0 ≤ z < 256.

(** The text consumed so far, as the loop's state remembers it. *)
Definition consumed (pre : list Z) (cur : Z) (saw : bool) : string :=
  if saw then dotted (pre ++ [cur])
  else match pre with [] => EmptyString | _ => dotted pre +:+ "."%string end.

Lemma dotted_snoc pre cur :
  dotted (pre ++ [cur]) = consumed pre cur false +:+ dec cur.
Proof.
  unfold dotted, consumed. rewrite fmap_app. cbn [fmap list_fmap]. rewrite join_snoc.
  destruct pre; [done|]. cbn [fmap list_fmap]. by rewrite !append_assoc.
Qed.

Lemma pton4_loop_sound src pre cur saw octets l :
  Forall is_byte pre → is_byte cur → (saw = false → cur = 0) →
  octets = Z.of_nat (length pre) + Z.b2z saw → octets ≤ 4 → (saw = false → octets < 4) →
  pton4_loop src pre cur saw octets = Some l →
  length l = 4%nat ∧ Forall is_byte l ∧ consumed pre cur saw +:+ src = dotted l.
Proof.
  revert pre cur saw octets. induction src as [|ch src IH];
    intros pre cur saw octets Hp Hc Hz Ho H4 H4' H; cbn [pton4_loop] in H.
  - destruct (Z.ltb_spec octets 4); [done|]. injection H as <-.
    destruct saw; [|specialize (H4' eq_refl); lia]. rewrite append_nil_r.
    split_and!; [rewrite length_app; cbn in *; lia|by apply Forall_app_2; [|constructor]|done].
  - destruct (digit ch) as [d|] eqn:Ed.
    + apply digit_some in Ed as [Hd ->].
      destruct saw; cbn [andb] in H.
      * destruct (Z.eqb_spec cur 0); [done|]. destruct (Z.ltb_spec 255 (cur * 10 + d)); [done|].
        unfold is_byte in *.
        destruct (IH pre (cur * 10 + d) true octets) as (?&?&E); try done; [lia|].
        split_and!; try done. rewrite <-E. unfold consumed.
        rewrite !dotted_snoc, Z.mul_comm, dec_snoc by lia.
        unfold dchar. by rewrite !append_assoc.
      * specialize (Hz eq_refl). subst cur. specialize (H4' eq_refl).
        change (0 * 10 + d) with d in H. destruct (Z.ltb_spec 255 d); [done|].
        destruct (Z.ltb_spec 4 (octets + 1)); [done|].
        destruct (IH pre d true (octets + 1)) as (?&?&E);
          try done; [unfold is_byte; lia|cbn in *; lia|].
        split_and!; try done. rewrite <-E. change (consumed pre d true) with (dotted (pre ++ [d])).
        rewrite dotted_snoc. unfold dec. destruct (Z.ltb_spec d 10); [|lia].
        by rewrite append_assoc.
    + case_bool_decide as Hdot; [|done]. destruct saw; [|done]. cbn [andb] in H.
      destruct (Z.eqb_spec octets 4); [done|]. subst ch.
      destruct (IH (pre ++ [cur]) 0 false octets) as (?&?&E); try done.
      * by apply Forall_app_2; [|constructor].
      * rewrite length_app. cbn in *. lia.
      * lia.
      * split_and!; try done. rewrite <-E. unfold consumed.
        destruct (pre ++ [cur]) eqn:E2; [by destruct pre|]. by rewrite append_assoc.
Qed.

Lemma pton4_digit d src pre cur octets (saw : bool) :
  0 ≤ d < 10 →
  pton4_loop (String (chr (48 + d)) src) pre cur saw octets =
  if saw && (cur =? 0) then None
  else if 255 <? cur * 10 + d then None
  else if saw then pton4_loop src pre (cur * 10 + d) true octets
  else if 4 <? octets + 1 then None else pton4_loop src pre (cur * 10 + d) true (octets + 1).
Proof. intros Hd. cbn [pton4_loop]. by rewrite digit_chr. Qed.

(** A printed byte is read back, whatever follows. *)
Lemma pton4_dec a src pre octets :
  is_byte a → octets < 4 →
  pton4_loop (dec a +:+ src) pre 0 false octets = pton4_loop src pre a true (octets + 1).
Proof.
  intros Ha Ho. unfold is_byte in Ha. unfold dec, dchar.
  pose proof (Z.div_mod a 10 ltac:(lia)). pose proof (Z.mod_pos_bound a 10 ltac:(lia)).
  pose proof (Z.div_mod (a / 10) 10 ltac:(lia)).
  pose proof (Z.mod_pos_bound (a / 10) 10 ltac:(lia)).
  assert (a / 100 = a / 10 / 10) as -> by (by rewrite Z.div_div by lia).
  set (x := a / 10 / 10) in *. set (y := (a / 10) `mod` 10) in *. set (z := a `mod` 10) in *.
  set (t := a / 10) in *.
  assert ((4 <? octets + 1) = false) as Ho' by (apply Z.ltb_ge; lia).
  destruct (Z.ltb_spec a 10) as [H10|H10]; [|destruct (Z.ltb_spec a 100) as [H100|H100]];
    cbn [append]; unfold append;
    rewrite pton4_digit by lia; cbn [andb]; rewrite Ho', Z.mul_0_l, Z.add_0_l;
    (match goal with |- context [255 <? ?c] => destruct (Z.ltb_spec 255 c); [lia|] end);
    [done|..];
    repeat (rewrite pton4_digit by lia; cbn [andb];
      (match goal with |- context [?c =? 0] => destruct (Z.eqb_spec c 0); [lia|] end);
      (match goal with |- context [255 <? ?c] => destruct (Z.ltb_spec 255 c); [lia|] end));
    f_equal; lia.
Qed.

Lemma pton4_dot src pre cur octets :
  octets < 4 →
  pton4_loop (String "." src) pre cur true octets = pton4_loop src (pre ++ [cur]) 0 false octets.
Proof.
  intros Ho. cbn [pton4_loop]. change (digit ".") with (@None Z).
  rewrite bool_decide_true by done. cbn [andb]. by destruct (Z.eqb_spec octets 4); [lia|].
Qed.

Lemma append_dot s : "."%string +:+ s = String "." s.
Proof. done. Qed.

(** [inet_pton] on [AF_INET] accepts exactly the canonical dotted quads:
    four decimal bytes without leading zeros, separated by dots and with
    nothing before, between or after, and [dst] then holds those bytes; on
    any other text it returns 0 and leaves [dst] as it was. *)
Theorem inet_pton4_canonical (src : string) (dst : list Z) :
  let '(r, dst') := inet_pton AF_INET src dst in
  (r = 1 ∧ ∃ a b c d, Forall is_byte [a; b; c; d] ∧ src = dotted [a; b; c; d] ∧
     dst' = [a; b; c; d] ++ drop 4 dst) ∨
  (r = 0 ∧ dst' = dst ∧ ∀ a b c d, Forall is_byte [a; b; c; d] → src ≠ dotted [a; b; c; d]).
Proof.
  change (inet_pton AF_INET src dst) with
    (match inet_pton4 src with
     | Some b => (1, b ++ drop (List.length b) dst) | None => (0, dst) end).
  destruct (inet_pton4 src) as [l|] eqn:E.
  - left. split; [done|]. unfold inet_pton4 in E.
    apply pton4_loop_sound in E as (Hl & Hb & Es); [|done..|lia|done|cbn; lia|cbn; lia].
    destruct l as [|a [|b [|c [|d [|? ?]]]]]; try done.
    exists a, b, c, d. split_and!; [done|exact Es|done].
  - right. split_and!; [done..|]. intros a b c d Hb ->.
    inversion_clear Hb as [|? ? Ha Hb']. inversion_clear Hb' as [|? ? Hb Hc'].
    inversion_clear Hc' as [|? ? Hc Hd']. inversion_clear Hd' as [|? ? Hd _].
    unfold inet_pton4, dotted in E. cbn [fmap list_fmap join] in E.
    rewrite pton4_dec, append_dot, pton4_dot in E by (done || lia).
    rewrite pton4_dec, append_dot, pton4_dot in E by (done || lia).
    rewrite pton4_dec, append_dot, pton4_dot in E by (done || lia). rewrite <-(append_nil_r (dec d)), pton4_dec in E by (done || lia).
    done.
Qed.

(** ** inet_pton6: groups of four hexadecimal digits *)

Definition hexd (d : Z) : ascii := chr (if d <? 10 then 48 + d else 87 + d).

Definition hex4 (g : Z) : string :=
  String (hexd (g / 4096)) (String (hexd ((g / 256) `mod` 16))
    (String (hexd ((g / 16) `mod` 16)) (String (hexd (g `mod` 16)) EmptyString))).

Definition group_bytes (gs : list Z) : list Z := gs ≫= λ g, [g / 256; g `mod` 256].

Lemma xdigit_hexd d : 0 ≤ d < 16 → xdigit (hexd d) = Some d.
Proof.
  intros Hd. unfold xdigit, hexd. destruct (Z.ltb_spec d 10); [by rewrite digit_chr by lia|].
  unfold digit. rewrite code_chr by lia.
  destruct (Z.leb_spec (87 + d) 57); [lia|]. rewrite andb_false_r.
  destruct (Z.leb_spec 97 (87 + d)), (Z.leb_spec (87 + d) 102); try lia. cbn [andb]. f_equal. lia.
Qed.

Lemma pton6_digit d src ct T t c n v :
  0 ≤ d < 16 → 0 ≤ v < 4096 → n < 4 →
  pton6_loop (String (hexd d) src) ct (mk_pton6 T t c n v) =
  pton6_loop src ct (mk_pton6 T t c (n + 1) (16 * v + d)).
Proof.
  intros Hd Hv Hn. cbn [pton6_loop]. rewrite xdigit_hexd by done.
  cbn [seen_xdigits val upd]. destruct (Z.ltb_spec 4 (n + 1)); [lia|]. f_equal.
  unfold upd. f_equal. cbn [val]. rewrite Z.shiftl_mul_pow2, wrap_small by word_lia.
  rewrite (lor_shift 4) by (lia || (change (2 ^ 4) with 16; lia)). change (2 ^ 4) with 16. lia.
Qed.

Lemma pton6_hex4 g src ct T t c :
  0 ≤ g < 65536 →
  pton6_loop (hex4 g +:+ src) ct (mk_pton6 T t c 0 0) = pton6_loop src ct (mk_pton6 T t c 4 g).
Proof.
  intros Hg. unfold hex4.
  pose proof (Z.div_mod g 16 ltac:(lia)). pose proof (Z.mod_pos_bound g 16 ltac:(lia)).
  pose proof (Z.div_mod (g / 16) 16 ltac:(lia)).
  pose proof (Z.mod_pos_bound (g / 16) 16 ltac:(lia)).
  pose proof (Z.div_mod (g / 16 / 16) 16 ltac:(lia)).
  pose proof (Z.mod_pos_bound (g / 16 / 16) 16 ltac:(lia)).
  replace (g / 4096) with (g / 16 / 16 / 16) by (rewrite !Z.div_div by lia; done).
  replace (g / 256) with (g / 16 / 16) by (rewrite !Z.div_div by lia; done).
  set (a := g / 16 / 16 / 16) in *. set (b := (g / 16 / 16) `mod` 16) in *.
  set (e := (g / 16) `mod` 16) in *. set (f := g `mod` 16) in *.
  change (String (hexd a) (String (hexd b) (String (hexd e) (String (hexd f) ""))) +:+ src)%string
    with (String (hexd a) (String (hexd b) (String (hexd e) (String (hexd f) src)))).
  rewrite !pton6_digit by lia. do 2 f_equal. lia.
Qed.

(** The loop's state between groups: [B] written, [c] the position of [::]. *)
Definition at_group (B : list Z) (c : option Z) : pton6 :=
  mk_pton6 (B ++ replicate (16 - length B) 0) (Z.of_nat (length B)) c 0 0.

Lemma insert_at {A} (l1 l2 : list A) x y n :
  n = length l1 → <[n := y]> (l1 ++ x :: l2) = l1 ++ y :: l2.
Proof. intros ->. induction l1 as [|z l1 IH]; [done|]. cbn. by f_equal. Qed.

Lemma put_tail B k c n v b :
  is_byte b →
  put (mk_pton6 (B ++ replicate (S k) 0) (Z.of_nat (length B)) c n v) b =
  mk_pton6 ((B ++ [b]) ++ replicate k 0) (Z.of_nat (length (B ++ [b]))) c n v.
Proof.
  intros Hb. unfold put, upd. cbn [tp tmp colonp seen_xdigits val].
  rewrite (wrap_small 8) by exact Hb. cbn [replicate]. rewrite insert_at by lia.
  rewrite <-app_assoc. f_equal. rewrite length_app. cbn [length]. lia.
Qed.

Lemma put_val_group B c n g :
  0 ≤ g < 65536 → (length B ≤ 14)%nat →
  put_val (mk_pton6 (B ++ replicate (16 - length B) 0) (Z.of_nat (length B)) c n g)
  = let B' := B ++ [g / 256; g `mod` 256] in
    mk_pton6 (B' ++ replicate (16 - length B') 0) (Z.of_nat (length B')) c n g.
Proof.
  intros Hg HB. cbn zeta. unfold put_val. cbn [val].
  assert (0 ≤ g / 256 < 256) by (split; [apply Z.div_pos|apply Z.div_lt_upper_bound]; lia).
  pose proof (Z.mod_pos_bound g 256 ltac:(lia)).
  rewrite !land_ff, Z.shiftr_div_pow2 by lia. change (2 ^ 8) with 256.
  rewrite (wrap_small 8 (g / 256)) by word_lia. rewrite (Z.mod_small (g / 256) 256) by lia.
  unfold wrap. change (2 ^ 8) with 256. rewrite Zmod_mod.
  replace (16 - length B)%nat with (S (S (14 - length B)))%nat by lia.
  rewrite put_tail by (unfold is_byte; lia). rewrite put_tail by (unfold is_byte; lia).
  rewrite !length_app. cbn [length].
  replace (16 - (length B + 2))%nat with (14 - length B)%nat by lia.
  rewrite <-!app_assoc. cbn [app]. f_equal. lia.
Qed.

Lemma pton6_colon src ct B c g :
  0 ≤ g < 65536 → (length B ≤ 14)%nat → src ≠ EmptyString →
  pton6_loop (String ":" src) ct
    (mk_pton6 (B ++ replicate (16 - length B) 0) (Z.of_nat (length B)) c 4 g) =
  pton6_loop src src (at_group (B ++ [g / 256; g `mod` 256]) c).
Proof.
  intros Hg HB Hs. cbn [pton6_loop]. change (xdigit ":") with (@None Z).
  rewrite bool_decide_true by done. cbn [seen_xdigits tp].
  change (4 =? 0) with false. cbv iota. rewrite bool_decide_false by done.
  unfold NS_IN6ADDRSZ. destruct (Z.ltb_spec 16 (Z.of_nat (length B) + 2)); [lia|].
  rewrite put_val_group by done. done.
Qed.

Lemma pton6_double_colon src ct B :
  pton6_loop (String ":" src) ct (at_group B None) =
  pton6_loop src src (at_group B (Some (Z.of_nat (length B)))).
Proof. done. Qed.

(** Groups that another colon follows are written before it. *)
Lemma pton6_groups gs src ct B c :
  gs ≠ [] → Forall (λ g, 0 ≤ g < 65536) gs → (length B + 2 * length gs ≤ 16)%nat →
  src ≠ EmptyString →
  ∃ ct', pton6_loop (join ":"%string (hex4 <$> gs) +:+ String ":" src) ct (at_group B c) =
         pton6_loop src ct' (at_group (B ++ group_bytes gs) c).
Proof.
  intros Hne HF. revert ct B Hne. induction HF as [|g gs Hg HF IH]; [done|].
  intros ct B _ HB Hs. cbn [length] in HB. destruct gs as [|g' gs].
  - exists src. cbn [fmap list_fmap join]. unfold at_group at 1.
    rewrite pton6_hex4, pton6_colon by (done || lia). done.
  - cbn [fmap list_fmap]. change (hex4 <$> gs) with (list_fmap _ _ hex4 gs).
    set (tl := join ":"%string (hex4 <$> (g' :: gs))).
    change (join ":"%string (hex4 g :: hex4 g' :: list_fmap _ _ hex4 gs))
      with (hex4 g +:+ String ":" tl).
    rewrite append_assoc. change (String ":" tl +:+ String ":" src)
      with (String ":" (tl +:+ String ":" src)).
    assert (tl +:+ String ":" src ≠ EmptyString) by by destruct tl.
    unfold at_group at 1. rewrite pton6_hex4, pton6_colon by (done || lia).
    destruct (IH (tl +:+ String ":" src) (B ++ [g / 256; g `mod` 256])) as [ct' E];
      [done|rewrite length_app; cbn [length] in *; lia|done|].
    exists ct'. fold tl in E. rewrite E. by rewrite <-app_assoc.
Qed.

(** The hand-made shift moves the bytes after [::] to the end. *)
Lemma shift_loop_spec (P X : list Z) (g : nat) (Y : list Z) (i n : Z) :
  (length P + length X + S g + length Y = 16)%nat →
  i = 1 + Z.of_nat (length Y) → n = i + Z.of_nat (length X) - 1 →
  shift_loop (length X) i n (Z.of_nat (length P)) (P ++ X ++ replicate (S g) 0 ++ Y) =
  P ++ replicate (S g) 0 ++ X ++ Y.
Proof.
  revert Y i. induction X as [|x X IH] using rev_ind; intros Y i Hlen Hi Hn; [done|].
  rewrite length_app in *. cbn [length] in *. rewrite Nat.add_comm. cbn [Nat.add shift_loop].
  replace (Z.to_nat (NS_IN6ADDRSZ - i)) with (length (P ++ (X ++ [x]) ++ replicate g 0)).
  2: { rewrite !length_app, length_replicate. unfold NS_IN6ADDRSZ. cbn [length]. lia. }
  replace (Z.to_nat (Z.of_nat (length P) + (n - i))) with (length (P ++ X))
    by (rewrite length_app; lia).
  replace (P ++ (X ++ [x]) ++ replicate (S g) 0 ++ Y)
    with ((P ++ (X ++ [x]) ++ replicate g 0) ++ 0 :: Y).
  2: { rewrite (replicate_S_end g). by rewrite <-!app_assoc. }
  replace (nth (length (P ++ X)) ((P ++ (X ++ [x]) ++ replicate g 0) ++ 0 :: Y) 0) with x.
  2: { rewrite <-!app_assoc, (app_assoc P X), app_nth2, Nat.sub_diag by lia. done. }
  rewrite insert_at by done.
  replace ((P ++ (X ++ [x]) ++ replicate g 0) ++ x :: Y)
    with ((P ++ X) ++ x :: (replicate g 0 ++ x :: Y)) by (by rewrite <-!app_assoc).
  rewrite insert_at by done. rewrite <-!app_assoc.
  change (0 :: replicate g 0 ++ x :: Y) with (replicate (S g) 0 ++ x :: Y).
  rewrite IH by (cbn [length]; lia). done.
Qed.

Lemma group_bytes_length gs : length (group_bytes gs) = (2 * length gs)%nat.
Proof.
  unfold group_bytes. induction gs as [|g gs IH]; [done|].
  rewrite bind_cons, length_app, IH. cbn [length]. lia.
Qed.

Lemma finish_elided P X :
  (length P + length X < 16)%nat →
  pton6_finish (at_group (P ++ X) (Some (Z.of_nat (length P)))) =
  Some (P ++ replicate (16 - length (P ++ X)) 0 ++ X).
Proof.
  intros H. unfold pton6_finish, at_group. cbn [seen_xdigits Z.eqb colonp tp tmp].
  rewrite length_app. unfold NS_IN6ADDRSZ.
  destruct (Z.eqb_spec (Z.of_nat (length P + length X)) 16); [lia|]. f_equal.
  replace (Z.of_nat (length P + length X) - Z.of_nat (length P)) with (Z.of_nat (length X)) by lia.
  rewrite Nat2Z.id. replace (16 - (length P + length X))%nat
    with (S (15 - (length P + length X))) by lia.
  rewrite <-app_assoc, <-(app_nil_r (replicate _ _)).
  rewrite shift_loop_spec by (cbn [length]; lia). by rewrite !app_nil_r.
Qed.

(** The last run of groups, and what is left to do at the end of the text. *)
Lemma pton6_tail gs ct B c :
  gs ≠ [] → Forall (λ g, 0 ≤ g < 65536) gs → (length B + 2 * length gs ≤ 16)%nat →
  ∃ st, pton6_loop (join ":"%string (hex4 <$> gs)) ct (at_group B c) = Some st ∧
        pton6_finish st = pton6_finish (at_group (B ++ group_bytes gs) c).
Proof.
  intros Hne HF HB. destruct (exists_last Hne) as (gs' & g & ->).
  apply Forall_app in HF as [HF Hg]. inversion_clear Hg as [|? ? Hg' _].
  rewrite length_app in HB. cbn [length] in HB. rewrite fmap_app. change (hex4 <$> [g]) with [hex4 g].
  assert (∀ B ct, (length B ≤ 14)%nat →
    pton6_loop (hex4 g) ct (at_group B c) =
      Some (mk_pton6 (B ++ replicate (16 - length B) 0) (Z.of_nat (length B)) c 4 g) ∧
    pton6_finish (mk_pton6 (B ++ replicate (16 - length B) 0) (Z.of_nat (length B)) c 4 g) =
    pton6_finish (at_group (B ++ [g / 256; g `mod` 256]) c)) as Hlast.
  { intros B' ct' HB'. split.
    - unfold at_group. rewrite <-(append_nil_r (hex4 g)), pton6_hex4 by done. done.
    - unfold pton6_finish at 1. cbn [seen_xdigits Z.eqb tp]. unfold NS_IN6ADDRSZ at 1.
      destruct (Z.ltb_spec 16 (Z.of_nat (length B') + 2)); [lia|].
      rewrite put_val_group by done. done. }
  destruct gs' as [|g0 gs'].
  - change (join _ _) with (hex4 g). destruct (Hlast B ct) as [E1 E2]; [lia|]. eexists. split; [exact E1|].
    rewrite E2. done.
  - rewrite join_snoc' by done. change (":"%string +:+ hex4 g) with (String ":" (hex4 g)).
    destruct (pton6_groups (g0 :: gs') (hex4 g) ct B c) as [ct' E]; [done|done|lia|done|].
    rewrite E. destruct (Hlast (B ++ group_bytes (g0 :: gs')) ct') as [E1 E2].
    { rewrite length_app, group_bytes_length. lia. }
    eexists. split; [exact E1|]. rewrite E2. unfold group_bytes at 2.
    rewrite bind_app. by rewrite <-app_assoc.
Qed.

Lemma inet_pton6_nocolon c src :
  c ≠ ":"%char →
  inet_pton6 (String c src) =
  match pton6_loop (String c src) (String c src) (at_group [] None) with
  | Some st => pton6_finish st | None => None end.
Proof.
  intros Hc. unfold inet_pton6, at_group. cbn [length replicate app Nat.sub].
  destruct c as [[] [] [] [] [] [] [] []]; done.
Qed.

Lemma hexd_not_colon d : 0 ≤ d < 16 → hexd d ≠ ":"%char.
Proof. intros Hd E. pose proof (xdigit_hexd d Hd) as X. by rewrite E in X. Qed.

Definition hex_groups (gs : list Z) : string := join ":"%string (hex4 <$> gs).
Definition is_group (g : Z) : Prop := 0 ≤ g < 65536.

Lemma inet_pton6_hex gs src :
  gs ≠ [] → Forall is_group gs →
  inet_pton6 (hex_groups gs +:+ src) =
  match pton6_loop (hex_groups gs +:+ src) (hex_groups gs +:+ src) (at_group [] None) with
  | Some st => pton6_finish st | None => None end.
Proof.
  intros Hne HF. destruct HF as [|g gs Hg _]; [done|]. unfold is_group in Hg.
  assert (∃ tl, hex_groups (g :: gs) +:+ src = String (hexd (g / 4096)) tl) as [tl ->].
  { unfold hex_groups. cbn [fmap list_fmap]. by destruct gs; eexists. }
  apply inet_pton6_nocolon, hexd_not_colon.
  split; [apply Z.div_pos|apply Z.div_lt_upper_bound]; lia.
Qed.

(** [inet_pton] on [AF_INET6]: eight groups are their sixteen bytes, most
    significant first, and [::] between two runs of at most seven groups, at
    either end or alone, stands for as many zero bytes as are missing. *)
Theorem inet_pton6_expands (gs1 gs2 : list Z) (dst : list Z) :
  Forall is_group gs1 → Forall is_group gs2 → length dst = 16%nat →
  ((length gs1 + length gs2 ≤ 7)%nat →
   inet_pton AF_INET6 (hex_groups gs1 +:+ "::"%string +:+ hex_groups gs2) dst =
   (1, group_bytes gs1 ++ replicate (16 - 2 * (length gs1 + length gs2)) 0 ++ group_bytes gs2)) ∧
  (length gs1 = 8%nat → inet_pton AF_INET6 (hex_groups gs1) dst = (1, group_bytes gs1)).
Proof.
  intros H1 H2 Hd.
  assert (∀ src b, inet_pton6 src = Some b → length b = 16%nat →
            inet_pton AF_INET6 src dst = (1, b)) as Hcopy.
  { intros src b E Hb. unfold inet_pton. cbn [AF_INET6 AF_INET Z.eqb Pos.eqb]. rewrite E, Hb.
    rewrite drop_ge, app_nil_r by lia. done. }
  split; intros Hlen.
  - apply Hcopy. 2: { rewrite !length_app, length_replicate, !group_bytes_length. lia. }
    assert (∀ ct B, length B = (2 * length gs1)%nat →
      match pton6_loop (hex_groups gs2) ct (at_group B (Some (Z.of_nat (length B)))) with
      | Some st => pton6_finish st | None => None end =
      Some (B ++ replicate (16 - 2 * (length gs1 + length gs2)) 0 ++ group_bytes gs2)) as Htail.
    { intros ct B HB. destruct gs2 as [|g gs2].
      - change (pton6_loop _ _ ?s) with (Some s). cbv iota.
        rewrite <-(app_nil_r B) at 1. rewrite finish_elided by (cbn [length] in *; lia).
        rewrite app_nil_r. change (group_bytes []) with (@nil Z). rewrite !app_nil_r, HB.
        cbn [length]. by rewrite Nat.add_0_r.
      - destruct (pton6_tail (g :: gs2) ct B (Some (Z.of_nat (length B)))) as (st & E & Ef);
          [done|done|lia|].
        fold (hex_groups (g :: gs2)) in E. rewrite E, Ef, finish_elided.
        + rewrite length_app, group_bytes_length, HB. do 4 f_equal. lia.
        + rewrite group_bytes_length. lia. }
    destruct gs1 as [|g gs1].
    + apply (Htail (hex_groups gs2) []). done.
    + rewrite inet_pton6_hex by done.
      change ("::"%string +:+ hex_groups gs2) with (String ":" (String ":" (hex_groups gs2))).
      destruct (pton6_groups (g :: gs1) (String ":" (hex_groups gs2))
                  (hex_groups (g :: gs1) +:+ String ":" (String ":" (hex_groups gs2))) [] None)
        as [ct E]; [done|done|cbn [length] in *; lia|done|].
      fold (hex_groups (g :: gs1)) in E. rewrite E. cbn [app]. rewrite pton6_double_colon.
      rewrite Htail by apply group_bytes_length. done.
  - apply Hcopy; [|rewrite group_bytes_length; lia].
    rewrite <-(append_nil_r (hex_groups gs1)). assert (gs1 ≠ []) by by destruct gs1.
    rewrite inet_pton6_hex by done. rewrite append_nil_r.
    destruct (pton6_tail gs1 (hex_groups gs1) [] None) as (st & E & Ef); [done|done|cbn; lia|].
    fold (hex_groups gs1) in E. rewrite E, Ef. unfold pton6_finish, at_group, NS_IN6ADDRSZ.
    cbn [seen_xdigits Z.eqb colonp tp tmp app]. rewrite group_bytes_length, Hlen.
    by rewrite app_nil_r.
Qed.

Lemma inet_pton6_expands_witness :
  inet_pton AF_INET6 (hex_groups [0xfe80] +:+ "::"%string +:+ hex_groups [1; 2]) (replicate 16 7) =
  (1, [0xfe; 0x80; 0; 0; 0; 0; 0; 0; 0; 0; 0; 0; 0; 1; 0; 2]).
Proof.
  refine (proj1 (inet_pton6_expands [0xfe80] [1; 2] (replicate 16 7) _ _ eq_refl) _);
    [repeat constructor; lia..|cbn; lia].
Defined.

(** ** Address helpers *)

Lemma base256 v : 0 ≤ v < 2 ^ 48 →
  v = 256 ^ 5 * ((v / 256 ^ 5) `mod` 256) + 256 ^ 4 * ((v / 256 ^ 4) `mod` 256)
      + 256 ^ 3 * ((v / 256 ^ 3) `mod` 256) + 256 ^ 2 * ((v / 256 ^ 2) `mod` 256)
      + 256 ^ 1 * ((v / 256 ^ 1) `mod` 256) + 256 ^ 0 * ((v / 256 ^ 0) `mod` 256).
Proof.
  intros Hv. assert (∀ k, 0 ≤ k →
    256 ^ k * (v / 256 ^ k) = 256 ^ (k + 1) * (v / 256 ^ (k + 1)) + 256 ^ k * ((v / 256 ^ k) `mod` 256))
    as S.
  { intros k Hk. rewrite Z.pow_add_r, <-Z.div_div by lia. change (256 ^ 1) with 256.
    rewrite (Z.div_mod (v / 256 ^ k) 256) at 1 by lia. lia. }
  pose proof (S 0 ltac:(lia)) as S0. pose proof (S 1 ltac:(lia)) as S1.
  pose proof (S 2 ltac:(lia)) as S2. pose proof (S 3 ltac:(lia)) as S3.
  pose proof (S 4 ltac:(lia)) as S4. pose proof (S 5 ltac:(lia)) as S5. clear S.
  change (0 + 1) with 1 in S0. change (1 + 1) with 2 in S1. change (2 + 1) with 3 in S2.
  change (3 + 1) with 4 in S3. change (4 + 1) with 5 in S4. change (5 + 1) with 6 in S5.
  rewrite (Z.div_small v (256 ^ 6)) in S5 by lia.
  change (256 ^ 0) with 1 in S0 at 1 2. rewrite Z.div_1_r in S0. lia.
Qed.

Lemma h64tom_byte m v a k :
  0 ≤ k < 6 → ld8 (inet_h64tom m v a) (a + k) = (v / 256 ^ (5 - k)) `mod` 256.
Proof.
  intros Hk. unfold inet_h64tom. rewrite !land_ff, !Z.shiftr_div_pow2 by lia.
  assert (k = 0 ∨ k = 1 ∨ k = 2 ∨ k = 3 ∨ k = 4 ∨ k = 5) as [->|[->|[->|[->|[->| ->]]]]] by lia;
    mem_simpl; unfold wrap; change (2 ^ 8) with 256; by rewrite Zmod_mod.
Qed.

Lemma h64tom_frame m v a b :
  b < a ∨ a + 6 ≤ b → ld8 (inet_h64tom m v a) b = ld8 m b.
Proof. intros Hb. unfold inet_h64tom. mem_simpl. done. Qed.

Definition mac_value (m : mem) (a : Z) : Z :=
  256 ^ 5 * ld8 m (a + 0) + 256 ^ 4 * ld8 m (a + 1) + 256 ^ 3 * ld8 m (a + 2)
  + 256 ^ 2 * ld8 m (a + 3) + 256 ^ 1 * ld8 m (a + 4) + 256 ^ 0 * ld8 m (a + 5).

Lemma mtoh64_value m a : inet_mtoh64 m a = mac_value m a.
Proof.
  pose proof (λ k, ld8_range m (a + k)) as R.
  pose proof (R 0). pose proof (R 1). pose proof (R 2). pose proof (R 3). pose proof (R 4).
  pose proof (R 5). unfold inet_mtoh64, mac_value. rewrite !Z.shiftl_mul_pow2 by lia.
  rewrite wrap_small; [lia|]. unfold in_word. lia.
Qed.

Lemma digit_of h b l n x :
  0 ≤ b < 256 → 0 ≤ l < n → x = n * 256 * h + n * b + l → b = (x / n) `mod` 256.
Proof.
  intros Hb Hl ->. replace (n * 256 * h + n * b + l) with (n * (256 * h + b) + l) by lia.
  rewrite (Z.mul_comm n), Z.div_add_l, (Z.div_small l) by lia.
  rewrite Z.add_0_r, Z.add_comm, (Z.mul_comm 256), Z.mod_add, Z.mod_small by lia. done.
Qed.

Lemma mtoh64_h64tom m a v : 0 ≤ v < 2 ^ 48 → inet_mtoh64 (inet_h64tom m v a) a = v.
Proof.
  intros Hv. rewrite mtoh64_value. unfold mac_value. rewrite !h64tom_byte by lia.
  symmetry. by apply base256.
Qed.

Lemma mtoh64_ext m m' a :
  (∀ b, a ≤ b < a + 6 → ld8 m b = ld8 m' b) → inet_mtoh64 m a = inet_mtoh64 m' a.
Proof. intros H. rewrite !mtoh64_value. unfold mac_value. rewrite !H by lia. done. Qed.

(** A MAC address and its 48-bit number determine each other: reading back
    the six bytes that [inet_h64tom] writes gives the number, writing the
    number that [inet_mtoh64] reads gives the same six bytes, and nothing
    outside them is touched. *)
Theorem mac_roundtrip (m m' : mem) (a v b : Z) :
  0 ≤ v < 2 ^ 48 →
  inet_mtoh64 (inet_h64tom m v a) a = v ∧
  ld8 (inet_h64tom m' (inet_mtoh64 m a) a) b =
    if (a <=? b) && (b <? a + 6) then ld8 m b else ld8 m' b.
Proof.
  intros Hv. split.
  - by apply mtoh64_h64tom.
  - destruct (Z.leb_spec a b), (Z.ltb_spec b (a + 6)); cbn [andb];
      try (apply h64tom_frame; lia).
    replace b with (a + (b - a)) by lia. set (k := b - a) in *.
    rewrite h64tom_byte, mtoh64_value by lia.
    pose proof (λ k, ld8_range m (a + k)) as R. unfold mac_value.
    pose proof (R 0). pose proof (R 1). pose proof (R 2). pose proof (R 3). pose proof (R 4).
    pose proof (R 5). symmetry.
    assert (k = 0 ∨ k = 1 ∨ k = 2 ∨ k = 3 ∨ k = 4 ∨ k = 5) as [->|[->|[->|[->|[->| ->]]]]] by lia.
    + apply (digit_of 0 _ (256 ^ 4 * ld8 m (a + 1) + 256 ^ 3 * ld8 m (a + 2)
        + 256 ^ 2 * ld8 m (a + 3) + 256 * ld8 m (a + 4) + ld8 m (a + 5))); lia.
    + apply (digit_of (ld8 m (a + 0)) _ (256 ^ 3 * ld8 m (a + 2)
        + 256 ^ 2 * ld8 m (a + 3) + 256 * ld8 m (a + 4) + ld8 m (a + 5))); lia.
    + apply (digit_of (256 * ld8 m (a + 0) + ld8 m (a + 1)) _
        (256 ^ 2 * ld8 m (a + 3) + 256 * ld8 m (a + 4) + ld8 m (a + 5))); lia.
    + apply (digit_of (256 ^ 2 * ld8 m (a + 0) + 256 * ld8 m (a + 1) + ld8 m (a + 2)) _
        (256 * ld8 m (a + 4) + ld8 m (a + 5))); lia.
    + apply (digit_of (256 ^ 3 * ld8 m (a + 0) + 256 ^ 2 * ld8 m (a + 1) + 256 * ld8 m (a + 2)
        + ld8 m (a + 3)) _ (ld8 m (a + 5))); lia.
    + apply (digit_of (256 ^ 4 * ld8 m (a + 0) + 256 ^ 3 * ld8 m (a + 1)
        + 256 ^ 2 * ld8 m (a + 2) + 256 * ld8 m (a + 3) + ld8 m (a + 4)) _ 0); lia.
Qed.

Lemma mac_roundtrip_witness :
  inet_mtoh64 (inet_h64tom (λ _, 0) 0x0102030405ff 64) 64 = 0x0102030405ff.
Proof. apply (mac_roundtrip (λ _, 0) (λ _, 0) 64 0x0102030405ff 64). lia. Defined.

(** A prefix length between 0 and 32 determines a mask and is what
    [mask_size] reads from it, the special cases and the bit loops alike. *)
Theorem mask_roundtrip (n : Z) :
  0 ≤ n ≤ 32 →
  size_to_mask n = 2 ^ 32 - 2 ^ (32 - n) ∧ mask_size (size_to_mask n) = n.
Proof.
  intros Hn. assert (In n (seqZ 0 33)) as Hin by (apply list_elem_of_In, elem_of_seqZ; lia).
  revert n Hn Hin. cut (Forall (λ n, size_to_mask n = 2 ^ 32 - 2 ^ (32 - n) ∧
                                   mask_size (size_to_mask n) = n) (seqZ 0 33)).
  - intros HF n _ Hin. rewrite Forall_forall in HF. apply HF, list_elem_of_In, Hin.
  - apply (bool_decide_unpack _). vm_compute. exact I.
Qed.

Lemma mask_roundtrip_witness : size_to_mask 23 = 0xfffffe00 ∧ mask_size (size_to_mask 23) = 23.
Proof. apply (mask_roundtrip 23). lia. Defined.

Ltac range_cases :=
  repeat match goal with
  | |- context [?a <=? ?b] => destruct (Z.leb_spec a b); try lia
  | |- context [?a <? ?b] => destruct (Z.ltb_spec a b); try lia
  end; cbn [andb].

(** What the byte-wise loads of a burst of copies see. *)
Ltac copy_bytes :=
  rewrite ?ld8_store_load; range_cases; try done.

Lemma swap16_spec m t f b :
  t + 2 ≤ f ∨ f + 2 ≤ t →
  ld8 (uint16Swap m t f) b =
  if (t <=? b) && (b <? t + 2) then ld8 m (f + (b - t))
  else if (f <=? b) && (b <? f + 2) then ld8 m (t + (b - f)) else ld8 m b.
Proof. intros Hd. unfold uint16Swap. change (Z.of_nat 2) with 2. copy_bytes. Qed.

Lemma ethAddrSwap_spec m t f b :
  t + 6 ≤ f ∨ f + 6 ≤ t →
  ld8 (ethAddrSwap m t f) b =
  if (t <=? b) && (b <? t + 6) then ld8 m (f + (b - t))
  else if (f <=? b) && (b <? f + 6) then ld8 m (t + (b - f)) else ld8 m b.
Proof.
  intros Hd. unfold ethAddrSwap. range_cases; do 3 (rewrite swap16_spec by lia; range_cases);
    try done; f_equal; lia.
Qed.

Lemma inetAddrSwap_spec m t f b :
  t + 4 ≤ f ∨ f + 4 ≤ t →
  ld8 (inetAddrSwap m t f) b =
  if (t <=? b) && (b <? t + 4) then ld8 m (f + (b - t))
  else if (f <=? b) && (b <? f + 4) then ld8 m (t + (b - f)) else ld8 m b.
Proof. intros Hd. unfold inetAddrSwap. change (Z.of_nat 4) with 4. copy_bytes. Qed.

Lemma ethAddrCopy_spec m t f b :
  t + 6 ≤ f ∨ f + 6 ≤ t →
  ld8 (ethAddrCopy m t f) b = if (t <=? b) && (b <? t + 6) then ld8 m (f + (b - t)) else ld8 m b.
Proof.
  intros Hd. unfold ethAddrCopy. rewrite !(load_store_ne 2 2) by lia.
  copy_bytes; f_equal; lia.
Qed.
