(* ===== verification/PortInfo.v ===== *)
(** * The data model of pktgen: packets, ranges, ports, the global structure

    The structures of [app/pktgen-seq.h], [app/pktgen-range.h],
    [app/pktgen-port-cfg.h], [app/pktgen-stats.h] and [app/pktgen.h], each in a
    Module of its own so that fields keep their names; the flag words and
    their compare-and-set loops; the queue counts of [lib/common/l2p.h].
    Fields no modelled operation reads are left out.  A MAC address is the
    48-bit number [inet_mtoh64] reads from it, an IP address field is its
    [addr.ipv4.s_addr], and [hdr] is the memory that starts at [pkt->hdr]. *)
From Stdlib Require Import Floats.SpecFloat.
From S2P Require Import Prelude Mem.

(** ** pktgen-seq.h *)
Module Pkt.
Record pkt_seq_t := mk {
  eth_dst_addr : Z; eth_src_addr : Z; ip_src_addr : Z; ip_dst_addr : Z; ip_mask : Z;
  sport : Z; dport : Z; ethType : Z; ipProto : Z; vlanid : Z; cos : Z; tos : Z;
  ether_hdr_size : Z; mpls_entry : Z; qinq_outerid : Z; qinq_innerid : Z; gre_key : Z;
  pktSize : Z; ttl : Z; gtpu_teid : Z; vni_flags : Z; group_id : Z; vxlan_id : Z;
  ol_flags : Z; hdr : mem }.
#[global] Instance eta_pkt : Eta pkt_seq_t := λ p,
  mk (eth_dst_addr p) (eth_src_addr p) (ip_src_addr p) (ip_dst_addr p) (ip_mask p)
     (sport p) (dport p) (ethType p) (ipProto p) (vlanid p) (cos p) (tos p)
     (ether_hdr_size p) (mpls_entry p) (qinq_outerid p) (qinq_innerid p) (gre_key p)
     (pktSize p) (ttl p) (gtpu_teid p) (vni_flags p) (group_id p) (vxlan_id p)
     (ol_flags p) (hdr p).
Definition zero : pkt_seq_t :=
  mk 0 0 0 0 0 0 0 0 0 0 0 0 0 0 0 0 0 0 0 0 0 0 0 0 (λ _, 0).
End Pkt.
Abbreviation pkt_seq_t := Pkt.pkt_seq_t.

(** ** pktgen-range.h *)
Module Rng.
Record range_info_t := mk {
  src_ip_inc : Z; dst_ip_inc : Z; src_port_inc : Z; dst_port_inc : Z; vlan_id_inc : Z;
  tos_inc : Z; cos_inc : Z; pkt_size_inc : Z; src_mac_inc : Z; dst_mac_inc : Z; ttl_inc : Z;
  src_ip : Z; src_ip_min : Z; src_ip_max : Z; dst_ip : Z; dst_ip_min : Z; dst_ip_max : Z;
  ip_proto : Z; src_port : Z; src_port_min : Z; src_port_max : Z;
  dst_port : Z; dst_port_min : Z; dst_port_max : Z;
  vlan_id : Z; vlan_id_min : Z; vlan_id_max : Z; cos : Z; cos_min : Z; cos_max : Z;
  tos : Z; tos_min : Z; tos_max : Z; pkt_size : Z; pkt_size_min : Z; pkt_size_max : Z;
  dst_mac : Z; dst_mac_min : Z; dst_mac_max : Z; src_mac : Z; src_mac_min : Z; src_mac_max : Z;
  ttl : Z; ttl_min : Z; ttl_max : Z;
  gtpu_teid : Z; gtpu_teid_inc : Z; gtpu_teid_min : Z; gtpu_teid_max : Z;
  vxlan_gid : Z; vxlan_gid_inc : Z; vxlan_gid_min : Z; vxlan_gid_max : Z;
  vxlan_vid : Z; vxlan_vid_inc : Z; vxlan_vid_min : Z; vxlan_vid_max : Z; vni_flags : Z }.
#[global] Instance eta_range : Eta range_info_t := λ r,
  mk (src_ip_inc r) (dst_ip_inc r) (src_port_inc r) (dst_port_inc r) (vlan_id_inc r)
     (tos_inc r) (cos_inc r) (pkt_size_inc r) (src_mac_inc r) (dst_mac_inc r) (ttl_inc r)
     (src_ip r) (src_ip_min r) (src_ip_max r) (dst_ip r) (dst_ip_min r) (dst_ip_max r)
     (ip_proto r) (src_port r) (src_port_min r) (src_port_max r)
     (dst_port r) (dst_port_min r) (dst_port_max r)
     (vlan_id r) (vlan_id_min r) (vlan_id_max r) (cos r) (cos_min r) (cos_max r)
     (tos r) (tos_min r) (tos_max r) (pkt_size r) (pkt_size_min r) (pkt_size_max r)
     (dst_mac r) (dst_mac_min r) (dst_mac_max r) (src_mac r) (src_mac_min r) (src_mac_max r)
     (ttl r) (ttl_min r) (ttl_max r)
     (gtpu_teid r) (gtpu_teid_inc r) (gtpu_teid_min r) (gtpu_teid_max r)
     (vxlan_gid r) (vxlan_gid_inc r) (vxlan_gid_min r) (vxlan_gid_max r)
     (vxlan_vid r) (vxlan_vid_inc r) (vxlan_vid_min r) (vxlan_vid_max r) (vni_flags r).
Definition zero : range_info_t :=
  mk 0 0 0 0 0 0 0 0 0 0 0 0 0 0 0 0 0 0 0 0 0 0 0 0 0 0 0 0 0 0 0 0 0 0 0 0 0 0 0 0 0 0 0 0 0
     0 0 0 0 0 0 0 0 0 0 0 0 0.
End Rng.
Abbreviation range_info_t := Rng.range_info_t.

(** ** pktgen-stats.h and the size counters of pktgen-port-cfg.h *)
Module Stats.
Record pkt_stats_t := mk {
  arp_pkts : Z; echo_pkts : Z; ip_pkts : Z; ipv6_pkts : Z; vlan_pkts : Z;
  dropped_pkts : Z; unknown_pkts : Z; tx_failed : Z }.
#[global] Instance eta_stats : Eta pkt_stats_t := λ s,
  mk (arp_pkts s) (echo_pkts s) (ip_pkts s) (ipv6_pkts s) (vlan_pkts s)
     (dropped_pkts s) (unknown_pkts s) (tx_failed s).
Definition zero : pkt_stats_t := mk 0 0 0 0 0 0 0 0.
End Stats.
Abbreviation pkt_stats_t := Stats.pkt_stats_t.

Module Sizes.
Record port_sizes_t := mk {
  _64 : Z; _65_127 : Z; _128_255 : Z; _256_511 : Z; _512_1023 : Z; _1024_1518 : Z;
  broadcast : Z; multicast : Z; jumbo : Z; runt : Z; unknown : Z }.
#[global] Instance eta_sizes : Eta port_sizes_t := λ s,
  mk (_64 s) (_65_127 s) (_128_255 s) (_256_511 s) (_512_1023 s) (_1024_1518 s)
     (broadcast s) (multicast s) (jumbo s) (runt s) (unknown s).
Definition zero : port_sizes_t := mk 0 0 0 0 0 0 0 0 0 0 0.
End Sizes.
Abbreviation port_sizes_t := Sizes.port_sizes_t.

(** [eth_stats_t] is DPDK's [struct rte_eth_stats]. *)
Module Eth.
Record eth_stats_t := mk {
  ipackets : Z; opackets : Z; ibytes : Z; obytes : Z;
  imissed : Z; ierrors : Z; oerrors : Z; rx_nombuf : Z }.
#[global] Instance eta_eth : Eta eth_stats_t := λ s,
  mk (ipackets s) (opackets s) (ibytes s) (obytes s) (imissed s) (ierrors s) (oerrors s)
     (rx_nombuf s).
Definition zero : eth_stats_t := mk 0 0 0 0 0 0 0 0.
End Eth.
Abbreviation eth_stats_t := Eth.eth_stats_t.

(** ** pktgen-port-cfg.h *)
Module Rate.
Record rate_info_t := mk {
  fps : Z; vlines : Z; pixels : Z; color_bits : Z; payload : Z; overhead : Z;
  bytes_per_vframe : Z; bits_per_sec : Z; pkts_per_vframe : Z; total_pkts_per_sec : Z;
  cycles_per_pkt : Z }.
#[global] Instance eta_rate : Eta rate_info_t := λ r,
  mk (fps r) (vlines r) (pixels r) (color_bits r) (payload r) (overhead r)
     (bytes_per_vframe r) (bits_per_sec r) (pkts_per_vframe r) (total_pkts_per_sec r)
     (cycles_per_pkt r).
Definition zero : rate_info_t := mk 0 0 0 0 0 0 0 0 0 0 0.
End Rate.
Abbreviation rate_info_t := Rate.rate_info_t.

(** A transmit queue: [tx_mbufs] holds [len] queued mbufs; a mempool is an
    identifier, 0 standing for [NULL]. *)
Module Q.
Record q_info := mk {
  flags : Z; m_table : list Z; tx_mp : Z; rate_mp : Z; range_mp : Z; seq_mp : Z; pcap_mp : Z;
  special_mp : Z }.
#[global] Instance eta_q : Eta q_info := λ q,
  mk (flags q) (m_table q) (tx_mp q) (rate_mp q) (range_mp q) (seq_mp q) (pcap_mp q)
     (special_mp q).
Definition zero : q_info := mk 0 [] 0 0 0 0 0 0.
End Q.
Abbreviation q_info := Q.q_info.

(** [pcap_info_t] of [lib/common/pg_pcap.h]: average packet size, number of
    packets, and the packet the display page starts at. *)
Module Pcap.
Record pcap_info_t := mk { pkt_size : Z; pkt_count : Z; pkt_idx : Z }.
#[global] Instance eta_pcap : Eta pcap_info_t := λ p, mk (pkt_size p) (pkt_count p) (pkt_idx p).
End Pcap.
Abbreviation pcap_info_t := Pcap.pcap_info_t.

Inductive fill_t := ZERO_FILL_PATTERN | ABC_FILL_PATTERN | USER_FILL_PATTERN | NO_FILL_PATTERN.

(** A [double] is a binary64 of the Standard Library's [SpecFloat]. *)

Module Info.
Record port_info_t := mk {
  pid : Z; tx_burst : Z; tx_rate : spec_float; port_flags : Z;
  transmit_count : Z; current_tx_count : Z; tx_cycles : Z; tx_pps : Z; delta : Z;
  seqIdx : Z; seqCnt : Z; prime_cnt : Z; vlanid : Z; cos : Z; tos : Z;
  seq_pkt : Z → pkt_seq_t; range : range_info_t; mpls_entry : Z; gre_key : Z;
  max_avg_latency : Z; avg_latency : Z; min_avg_latency : Z; rate : rate_info_t;
  vni_flags : Z; group_id : Z; vxlan_id : Z; magic_errors : Z; latency_nb_pkts : Z;
  jitter_threshold : Z; jitter_threshold_clks : Z; jitter_count : Z; prev_latency : Z;
  max_latency : Z; stats : pkt_stats_t; sizes : port_sizes_t; curr_stats : eth_stats_t;
  prev_stats : eth_stats_t; rate_stats : eth_stats_t; max_ipackets : Z; max_opackets : Z;
  max_missed : Z; link_speed : Z; q : Z → q_info; rx_tapfd : Z; tx_tapfd : Z;
  pcap : option pcap_info_t; dump_list : Z → Z; dump_head : Z; dump_tail : Z; dump_count : Z;
  tx_offload_capa : Z; user_pattern : Z → Z; fill_pattern_type : fill_t }.
#[global] Instance eta_info : Eta port_info_t := λ i,
  mk (pid i) (tx_burst i) (tx_rate i) (port_flags i) (transmit_count i) (current_tx_count i)
     (tx_cycles i) (tx_pps i) (delta i) (seqIdx i) (seqCnt i) (prime_cnt i) (vlanid i) (cos i)
     (tos i) (seq_pkt i) (range i) (mpls_entry i) (gre_key i) (max_avg_latency i)
     (avg_latency i) (min_avg_latency i) (rate i) (vni_flags i) (group_id i) (vxlan_id i)
     (magic_errors i) (latency_nb_pkts i) (jitter_threshold i) (jitter_threshold_clks i)
     (jitter_count i) (prev_latency i) (max_latency i) (stats i) (sizes i) (curr_stats i)
     (prev_stats i) (rate_stats i) (max_ipackets i) (max_opackets i) (max_missed i)
     (link_speed i) (q i) (rx_tapfd i) (tx_tapfd i) (pcap i) (dump_list i) (dump_head i)
     (dump_tail i) (dump_count i) (tx_offload_capa i) (user_pattern i) (fill_pattern_type i).
Definition zero : port_info_t :=
  mk 0 0 (S754_zero false) 0 0 0 0 0 0 0 0 0 0 0 0 (λ _, Pkt.zero) Rng.zero 0 0 0 0 0 Rate.zero
     0 0 0 0 0 0 0 0 0 0 Stats.zero Sizes.zero Eth.zero Eth.zero Eth.zero 0 0 0 0 (λ _, Q.zero)
     0 0 None (λ _, 0) 0 0 0 0 (λ _, 0) ZERO_FILL_PATTERN.
End Info.
Abbreviation port_info_t := Info.port_info_t.

(** ** pktgen.h: the global structure, with the transmit queue counts that
    [get_port_txcnt] of [lib/common/l2p.h] reads from [l2p->ports]. *)
Module Pg.
Record pktgen_t := mk {
  flags : Z; ident : Z; blinklist : Z; nb_ports : Z; starting_port : Z; ending_port : Z;
  nb_ports_per_page : Z; portNum : Z; hz : Z; tx_qid : Z → Z;
  cumm_rate_totals : eth_stats_t; max_total_ipackets : Z; max_total_opackets : Z }.
#[global] Instance eta_pktgen : Eta pktgen_t := λ g,
  mk (flags g) (ident g) (blinklist g) (nb_ports g) (starting_port g) (ending_port g)
     (nb_ports_per_page g) (portNum g) (hz g) (tx_qid g) (cumm_rate_totals g)
     (max_total_ipackets g) (max_total_opackets g).
End Pg.
Abbreviation pktgen_t := Pg.pktgen_t.

Definition get_port_txcnt (g : pktgen_t) (pid : Z) : Z := Pg.tx_qid g pid.

(** The state a port operation works on: the global structure and the port at hand. *)
Record world := mk_world { g : pktgen_t; info : port_info_t }.
#[global] Instance eta_world : Eta world := λ w, mk_world (g w) (info w).

(** Arrays of structures as functions of the index. *)
Definition set_at {A} (i : Z) (v : A) (f : Z → A) : Z → A := λ j, if j =? i then v else f j.

Lemma set_at_eq {A} i (v : A) f : set_at i v f i = v.
Proof. unfold set_at. by rewrite Z.eqb_refl. Qed.

Lemma set_at_ne {A} i j (v : A) f : j ≠ i → set_at i v f j = f j.
Proof. intros H. unfold set_at. by destruct (Z.eqb_spec j i). Qed.

(** [info->seq_pkt[idx]], read and written. *)
Definition get_pkt (w : world) (idx : Z) : pkt_seq_t := Info.seq_pkt (info w) idx.
Definition set_pkt (idx : Z) (p : pkt_seq_t) (w : world) : world :=
  w <| info ::= λ i, i <| Info.seq_pkt ::= set_at idx p |> |>.
Definition upd_pkt (idx : Z) (f : pkt_seq_t → pkt_seq_t) (w : world) : world :=
  set_pkt idx (f (get_pkt w idx)) w.
Definition upd_info (f : port_info_t → port_info_t) (w : world) : world := w <| info ::= f |>.

(** ** Constants *)
Definition SEND_ARP_REQUEST := Z.shiftl 1 0.
Definition SEND_GRATUITOUS_ARP := Z.shiftl 1 1.
Definition ICMP_ECHO_ENABLE_FLAG := Z.shiftl 1 2.
Definition BONDING_TX_PACKETS := Z.shiftl 1 3.
Definition PROCESS_INPUT_PKTS := Z.shiftl 1 4.
Definition CAPTURE_PKTS := Z.shiftl 1 5.
Definition SEND_PING4_REQUEST := Z.shiftl 1 6.
Definition SEND_PING6_REQUEST := Z.shiftl 1 7.
Definition PROCESS_RX_TAP_PKTS := Z.shiftl 1 8.
Definition PROCESS_TX_TAP_PKTS := Z.shiftl 1 9.
Definition PROCESS_GARP_PKTS := Z.shiftl 1 10.
Definition SEND_PCAP_PKTS := Z.shiftl 1 12.
Definition SEND_RANGE_PKTS := Z.shiftl 1 13.
Definition SEND_SEQ_PKTS := Z.shiftl 1 14.
Definition SEND_LATENCY_PKTS := Z.shiftl 1 15.
Definition SEND_RATE_PACKETS := Z.shiftl 1 16.
Definition SEND_RANDOM_PKTS := Z.shiftl 1 17.
Definition SEND_VLAN_ID := Z.shiftl 1 20.
Definition SEND_MPLS_LABEL := Z.shiftl 1 21.
Definition SEND_Q_IN_Q_IDS := Z.shiftl 1 22.
Definition SEND_GRE_IPv4_HEADER := Z.shiftl 1 23.
Definition SEND_GRE_ETHER_HEADER := Z.shiftl 1 24.
Definition SEND_VXLAN_PACKETS := Z.shiftl 1 25.
Definition SENDING_PACKETS := Z.shiftl 1 30.
Definition SEND_FOREVER := Z.shiftl 1 31.

Infix "|||" := Z.lor (at level 50, left associativity).

Definition SEND_ARP_PING_REQUESTS :=
  SEND_ARP_REQUEST ||| SEND_GRATUITOUS_ARP ||| SEND_PING4_REQUEST ||| SEND_PING6_REQUEST.
Definition EXCLUSIVE_MODES :=
  SEND_PCAP_PKTS ||| SEND_RANGE_PKTS ||| SEND_SEQ_PKTS ||| SEND_RANDOM_PKTS |||
  SEND_LATENCY_PKTS ||| SEND_RATE_PACKETS.
Definition EXCLUSIVE_PKT_MODES :=
  SEND_VLAN_ID ||| SEND_VXLAN_PACKETS ||| SEND_MPLS_LABEL ||| SEND_Q_IN_Q_IDS |||
  SEND_GRE_IPv4_HEADER ||| SEND_GRE_ETHER_HEADER.

(** Queue flags *)
Definition CLEAR_FAST_ALLOC_FLAG := 0x00000001.
Definition DO_TX_FLUSH := 0x00000002.

(** Packet slots and sizes *)
Definition NUM_SEQ_PKTS := 16.
Definition SINGLE_PKT := 16.
Definition PING_PKT := 17.
Definition RANGE_PKT := 18.
Definition DUMP_PKT := 19.
Definition RATE_PKT := 20.
Definition NUM_TOTAL_PKTS := 21.
Definition PG_ETHER_CRC_LEN := 4.
Definition PG_ETHER_MIN_LEN := 64.
Definition PG_ETHER_MAX_LEN := 1518.
Definition MIN_PKT_SIZE := PG_ETHER_MIN_LEN - PG_ETHER_CRC_LEN.
Definition MAX_PKT_SIZE := PG_ETHER_MAX_LEN - PG_ETHER_CRC_LEN.
Definition MIN_v6_PKT_SIZE := 78 - PG_ETHER_CRC_LEN.
Definition PKT_OVERHEAD_SIZE := 12 + 1 + 7 + PG_ETHER_CRC_LEN.
Definition DEFAULT_PKT_BURST := 64.

(** Ether types, IP protocols and ports *)
Definition PG_ETHER_TYPE_IPv4 := 0x0800.
Definition PG_ETHER_TYPE_IPv6 := 0x86DD.
Definition PG_ETHER_TYPE_ARP := 0x0806.
Definition PG_ETHER_TYPE_VLAN := 0x8100.
Definition ETHER_TYPE_MPLS_UNICAST := 0x8847.
Definition ETHER_TYPE_Q_IN_Q := 0x88A8.
Definition ETHER_TYPE_TRANSP_ETH_BR := 0x6558.
Definition PG_IPPROTO_ICMP := 1.
Definition PG_IPPROTO_TCP := 6.
Definition PG_IPPROTO_UDP := 17.
Definition PG_IPPROTO_GRE := 47.
Definition PG_IPPROTO_L4_GTPU_PORT := 2152.
Definition VXLAN_PORT_ID := 4789.

(** ** Flag words

    The C functions retry a compare-and-set until it succeeds; undisturbed,
    one turn does it.  [Atomics] takes the loops apart under interleaving. *)
Definition set_bits (v flags : Z) : Z := Z.lor v flags.
Definition clr_bits (v flags : Z) : Z := Z.land v (u32 (Z.lnot flags)).
Definition tst_bits (v flags : Z) : bool := negb (Z.land v flags =? 0).

Definition pktgen_set_port_flags (i : port_info_t) (flags : Z) : port_info_t :=
  i <| Info.port_flags ::= λ v, set_bits v flags |>.
Definition pktgen_clr_port_flags (i : port_info_t) (flags : Z) : port_info_t :=
  i <| Info.port_flags ::= λ v, clr_bits v flags |>.
Definition pktgen_tst_port_flags (i : port_info_t) (flags : Z) : bool :=
  tst_bits (Info.port_flags i) flags.

Definition upd_q (i : port_info_t) (q : Z) (f : q_info → q_info) : port_info_t :=
  i <| Info.q ::= λ t, set_at q (f (t q)) t |>.
Definition pktgen_set_q_flags (i : port_info_t) (q flags : Z) : port_info_t :=
  upd_q i q (λ x, x <| Q.flags ::= λ v, set_bits v flags |>).
Definition pktgen_clr_q_flags (i : port_info_t) (q flags : Z) : port_info_t :=
  upd_q i q (λ x, x <| Q.flags ::= λ v, clr_bits v flags |>).
Definition pktgen_tst_q_flags (i : port_info_t) (q flags : Z) : bool :=
  tst_bits (Q.flags (Info.q i q)) flags.

(** [for (q = 0; q < get_port_txcnt(...); q++) pktgen_set_q_flags(info, q, flags)] *)
Fixpoint set_q_flags_upto (n : nat) (q flags : Z) (i : port_info_t) : port_info_t :=
  match n with
  | O => i
  | S n => set_q_flags_upto n (q + 1) flags (pktgen_set_q_flags i q flags)
  end.

Definition all_q_flags (flags : Z) (w : world) : world :=
  upd_info (set_q_flags_upto (Z.to_nat (get_port_txcnt (g w) (Info.pid (info w)))) 0 flags) w.

(** [app/pktgen-cmds.c]: have the transmit cores rebuild their packets. *)
Definition pktgen_set_tx_update (w : world) : world := all_q_flags CLEAR_FAST_ALLOC_FLAG w.

(** ** Laws of the flag words *)

Lemma set_bits_spec v f i : Z.testbit (set_bits v f) i = Z.testbit v i || Z.testbit f i.
Proof. apply Z.lor_spec. Qed.

Lemma clr_bits_spec v f i :
  in_word 32 v → 0 ≤ i → Z.testbit (clr_bits v f) i = Z.testbit v i && negb (Z.testbit f i).
Proof.
  intros Hv Hi. unfold clr_bits. rewrite Z.land_spec. unfold wrap.
  destruct (Z.ltb_spec i 32).
  - by rewrite Z.mod_pow2_bits_low, Z.lnot_spec by lia.
  - rewrite <-(wrap_small 32 v) by done. unfold wrap. by rewrite !Z.mod_pow2_bits_high by lia.
Qed.

Lemma bits_word w v : 0 ≤ w → (∀ i, w ≤ i → Z.testbit v i = false) → in_word w v.
Proof.
  intros Hw H. assert (v = v `mod` 2 ^ w) as ->; [|apply Z.mod_pos_bound; lia].
  apply Z.bits_inj'. intros i Hi. destruct (Z.ltb_spec i w).
  - by rewrite Z.mod_pow2_bits_low.
  - rewrite Z.mod_pow2_bits_high by lia. by apply H.
Qed.

Lemma word_bits w v i : in_word w v → 0 ≤ w ≤ i → Z.testbit v i = false.
Proof.
  intros Hv Hi. rewrite <-(wrap_small w v) by done. unfold wrap.
  apply Z.mod_pow2_bits_high. lia.
Qed.

Lemma set_bits_word v f : in_word 32 v → in_word 32 f → in_word 32 (set_bits v f).
Proof.
  intros Hv Hf. apply bits_word; [lia|]. intros i Hi.
  by rewrite set_bits_spec, (word_bits 32 v), (word_bits 32 f) by (done || lia).
Qed.

Lemma clr_bits_word v f : in_word 32 v → in_word 32 (clr_bits v f).
Proof.
  intros Hv. apply bits_word; [lia|]. intros i Hi.
  by rewrite clr_bits_spec, (word_bits 32 v) by (done || lia).
Qed.

Lemma tst_bits_spec v f :
  0 ≤ v → tst_bits v f = true ↔ ∃ i, 0 ≤ i ∧ Z.testbit v i = true ∧ Z.testbit f i = true.
Proof.
  intros Hv. unfold tst_bits. destruct (Z.eqb_spec (Z.land v f) 0) as [E|E]; split; try done.
  - intros (i & Hi & Hvi & Hfi). apply (f_equal (λ z, Z.testbit z i)) in E.
    by rewrite Z.land_spec, Z.testbit_0_l, Hvi, Hfi in E.
  - intros _. assert (0 < Z.land v f) as Hp.
    { assert (0 ≤ Z.land v f) by (apply Z.land_nonneg; by left). lia. }
    exists (Z.log2 (Z.land v f)). split; [apply Z.log2_nonneg|].
    apply Z.bit_log2 in Hp. rewrite Z.land_spec in Hp. by apply andb_prop in Hp.
Qed.

Lemma tst_set_bits v f : 0 ≤ v → 0 < f → tst_bits (set_bits v f) f = true.
Proof.
  intros Hv Hf. apply tst_bits_spec; [apply Z.lor_nonneg; lia|].
  exists (Z.log2 f). split; [apply Z.log2_nonneg|].
  by rewrite set_bits_spec, Z.bit_log2, orb_true_r.
Qed.

Lemma tst_clr_bits v f : in_word 32 v → tst_bits (clr_bits v f) f = false.
Proof.
  intros Hv. destruct (tst_bits (clr_bits v f) f) eqn:E; [|done].
  apply tst_bits_spec in E as (i & Hi & H1 & H2); [|by destruct (clr_bits_word v f Hv)].
  by rewrite clr_bits_spec, H2, andb_false_r in H1.
Qed.
