(* ===== verification/Atomics.v ===== *)
(** * Compare-and-set loops under interleaving

    The port and queue flags of [app/pktgen.h] and the transmit counter of
    [app/pktgen-port-cfg.h] are shared by the display core and the transmit
    cores, which update them by reading a word and retrying [cmpset] until
    nobody changed the word in between.  A thread is such a loop; the
    interleavings are a step relation over the shared word, the threads and a
    ghost log of the updates that succeeded. *)
From S2P Require Import Prelude PortInfo.

(** What the loop body makes of the value it read: return at once, or try to
    swap in a new value and return a result when that succeeds. *)
Inductive outcome := Return (r : Z) | Swap (new r : Z).
Definition loop_body := Z → outcome.

Definition set_flags_body (flags : Z) : loop_body := λ val, Swap (set_bits val flags) 0.
Definition clr_flags_body (flags : Z) : loop_body := λ val, Swap (clr_bits val flags) 0.

(** [pkt_atomic64_tx_count]: take up to [burst] from the counter. *)
Definition tx_count_body (burst : Z) : loop_body := λ tmp1,
  if tmp1 =? 0 then Return 0
  else let tmp2 := if burst <? tmp1 then burst else tmp1 in Swap (tmp1 - tmp2) tmp2.

(** Alone on its core the loop succeeds in its first turn. *)
Definition run_alone (b : loop_body) (cell : Z) : Z * Z :=
  match b cell with Return r => (r, cell) | Swap new r => (r, new) end.

Definition pkt_atomic64_tx_count (cnt burst : Z) : Z * Z := run_alone (tx_count_body burst) cnt.

(** ** Interleavings *)

Inductive thread := Start (b : loop_body) | Loaded (b : loop_body) (val : Z) | Done (b : loop_body) (r : Z).

Record sys := mk_sys { cell : Z; threads : list thread; log : list nat }.

Inductive step : sys → sys → Prop :=
| step_load c ts l i b :
    ts !! i = Some (Start b) →
    step (mk_sys c ts l)
      match b c with
      | Return r => mk_sys c (<[i := Done b r]> ts) (l ++ [i])
      | Swap _ _ => mk_sys c (<[i := Loaded b c]> ts) l
      end
| step_cmpset_ok c ts l i b new r :
    ts !! i = Some (Loaded b c) → b c = Swap new r →
    step (mk_sys c ts l) (mk_sys new (<[i := Done b r]> ts) (l ++ [i]))
| step_cmpset_fail c ts l i b val :
    ts !! i = Some (Loaded b val) → val ≠ c →
    step (mk_sys c ts l) (mk_sys c (<[i := Start b]> ts) l).

Inductive steps : sys → sys → Prop :=
| steps_refl s : steps s s
| steps_trans s s' s'' : steps s s' → step s' s'' → steps s s''.

Definition init (c : Z) (bs : list loop_body) : sys := mk_sys c (Start <$> bs) [].

(** ** The sequential specification: the loops of the log, one after another *)

Definition body_of (bs : list loop_body) (i : nat) : loop_body :=
  match bs !! i with Some b => b | None => Return end.

Fixpoint replay (bs : list loop_body) (l : list nat) (c : Z) : Z * list (nat * Z) :=
  match l with
  | [] => (c, [])
  | i :: l =>
      let '(r, c) := run_alone (body_of bs i) c in
      let '(c, out) := replay bs l c in (c, (i, r) :: out)
  end.

Lemma replay_snoc bs l i c :
  replay bs (l ++ [i]) c =
  let '(c1, out) := replay bs l c in
  let '(r, c2) := run_alone (body_of bs i) c1 in (c2, out ++ [(i, r)]).
Proof.
  revert c. induction l as [|j l IH]; intros c; cbn [app replay].
  - destruct (run_alone (body_of bs i) c). done.
  - destruct (run_alone (body_of bs j) c) as [r c1]. rewrite IH.
    destruct (replay bs l c1) as [c2 out].
    destruct (run_alone (body_of bs i) c2). done.
Qed.

Definition thread_ok (bs : list loop_body) (out : list (nat * Z)) (l : list nat)
    (i : nat) (t : thread) : Prop :=
  match t with
  | Start b => bs !! i = Some b ∧ (i ∉ l)
  | Loaded b val => bs !! i = Some b ∧ (i ∉ l) ∧ (∃ new r, b val = Swap new r)
  | Done b r => bs !! i = Some b ∧ (i, r) ∈ out
  end.

(** The word and every result are those of the sequential run of the log. *)
Definition inv (c0 : Z) (bs : list loop_body) (s : sys) : Prop :=
  let '(c, out) := replay bs (log s) c0 in
  cell s = c ∧ NoDup (log s) ∧ length (threads s) = length bs ∧
  ∀ i t, threads s !! i = Some t → thread_ok bs out (log s) i t.

Lemma inv_init c0 bs : inv c0 bs (init c0 bs).
Proof.
  unfold inv, init. cbn. split_and!; [done|constructor|apply length_fmap|].
  intros i t Ht. rewrite list_lookup_fmap in Ht.
  destruct (bs !! i) as [b|] eqn:E; [|done]. injection Ht as <-. cbn. split; [done|].
  apply not_elem_of_nil.
Qed.

Lemma thread_ok_mono bs out l out' i j t :
  thread_ok bs out l i t → i ≠ j → (∀ x, x ∈ out → x ∈ out') → thread_ok bs out' (l ++ [j]) i t.
Proof.
  intros Ht Hij Hout. destruct t; cbn in *; destruct_and?; rewrite ?elem_of_app, ?list_elem_of_singleton; intuition eauto.
Qed.

(** Committing thread [i]: the log grows by it, whatever its body does. *)
Lemma inv_commit c0 bs c ts l i b r c' t0 :
  inv c0 bs (mk_sys c ts l) → ts !! i = Some t0 → bs !! i = Some b → i ∉ l →
  run_alone b c = (r, c') →
  inv c0 bs (mk_sys c' (<[i := Done b r]> ts) (l ++ [i])).
Proof.
  unfold inv. cbn [log cell threads]. intros H Hi Hb Hl Hr.
  assert (body_of bs i = b) as Eb by (unfold body_of; by rewrite Hb).
  rewrite replay_snoc, Eb. destruct (replay bs l c0) as [c1 out].
  destruct H as (-> & Hnd & Hlen & Hok). rewrite Hr. split_and!; [done| |by rewrite length_insert|].
  - apply NoDup_app. split_and!; [done| |apply NoDup_singleton].
    intros x Hx Hx'. apply list_elem_of_singleton in Hx'. by subst.
  - intros j t Hj. destruct (decide (j = i)) as [->|Hne].
    + rewrite list_lookup_insert_eq in Hj by (by eapply lookup_lt_Some).
      injection Hj as <-. cbn. split; [done|]. apply elem_of_app. right.
      by apply list_elem_of_singleton.
    + rewrite list_lookup_insert_ne in Hj by done.
      eapply thread_ok_mono; [by apply Hok|done|].
      intros x Hx. apply elem_of_app. by left.
Qed.

Lemma inv_step c0 bs s s' : inv c0 bs s → step s s' → inv c0 bs s'.
Proof.
  intros H Hs. destruct Hs as [c ts l i b Hi|c ts l i b new r Hi Hb|c ts l i b val Hi Hne].
  - assert (bs !! i = Some b ∧ (i ∉ l)) as [Hbi Hl].
    { unfold inv in H. cbn in H. destruct (replay bs l c0). destruct H as (_&_&_&H).
      by apply H in Hi. }
    destruct (b c) as [r|new r] eqn:Eb.
    + eapply inv_commit; [done..|]. unfold run_alone. by rewrite Eb.
    + unfold inv in *. cbn in *. destruct (replay bs l c0) as [c1 out].
      destruct H as (-> & Hnd & Hlen & Hok). split_and!; [done..|by rewrite length_insert|].
      intros j t Hj. destruct (decide (j = i)) as [->|].
      * rewrite list_lookup_insert_eq in Hj by (by eapply lookup_lt_Some).
        injection Hj as <-. cbn. eauto 10.
      * rewrite list_lookup_insert_ne in Hj by done. by apply Hok.
  - assert (bs !! i = Some b ∧ (i ∉ l)) as [Hbi Hl].
    { unfold inv in H. cbn in H. destruct (replay bs l c0). destruct H as (_&_&_&H).
      apply H in Hi. by destruct Hi as (?&?&_). }
    eapply inv_commit; [done..|]. unfold run_alone. by rewrite Hb.
  - unfold inv in *. cbn in *. destruct (replay bs l c0) as [c1 out].
    destruct H as (-> & Hnd & Hlen & Hok). split_and!; [done..|by rewrite length_insert|].
    intros j t Hj. destruct (decide (j = i)) as [->|].
    + rewrite list_lookup_insert_eq in Hj by (by eapply lookup_lt_Some).
      injection Hj as <-. apply Hok in Hi. cbn in *. naive_solver.
    + rewrite list_lookup_insert_ne in Hj by done. by apply Hok.
Qed.

Lemma inv_steps c0 bs s : steps (init c0 bs) s → inv c0 bs s.
Proof.
  remember (init c0 bs) as s0 eqn:E. induction 1 as [s|s s' s'' _ IH Hs]; subst.
  - apply inv_init.
  - eapply inv_step; eauto.
Qed.

(** ** Properties of the finished runs *)

Definition finished (s : sys) : Prop := ∀ i t, threads s !! i = Some t → ∃ b r, t = Done b r.

Lemma replay_fst bs l c : (snd (replay bs l c)).*1 = l.
Proof.
  revert c. induction l as [|i l IH]; intros c; [done|]. cbn [replay].
  destruct (run_alone (body_of bs i) c) as [r c1]. specialize (IH c1).
  destruct (replay bs l c1) as [c2 out]. cbn in *. by rewrite IH.
Qed.

Lemma log_bound c0 bs s : steps (init c0 bs) s → Forall (λ i, (i < length bs)%nat) (log s).
Proof.
  remember (init c0 bs) as s0 eqn:E. intros H. pose proof (inv_steps c0 bs) as Hinv.
  induction H as [s|s s' s'' Hss IH Hs]; subst; [constructor|].
  specialize (Hinv s' Hss). specialize (IH eq_refl).
  assert (length (threads s') = length bs) as Hlen.
  { unfold inv in Hinv. destruct (replay bs (log s') c0). by destruct_and? Hinv. }
  destruct Hs as [c ts l i b Hi|c ts l i b new r Hi Hb|c ts l i b val Hi Hne]; cbn in *;
    apply lookup_lt_Some in Hi; [destruct (b c)| |]; cbn; try done;
    (apply Forall_app; split; [done|]; constructor; [lia|constructor]).
Qed.

(** When every loop is done the log lists them all, each once. *)
Lemma finished_log c0 bs s :
  steps (init c0 bs) s → finished s → log s ≡ₚ seq 0 (length bs).
Proof.
  intros H Hf. pose proof (log_bound c0 bs s H) as Hb. pose proof (inv_steps c0 bs s H) as Hi.
  unfold inv in Hi. pose proof (replay_fst bs (log s) c0) as Hfst.
  destruct (replay bs (log s) c0) as [c out]. destruct Hi as (_ & Hnd & Hlen & Hok). cbn in Hfst.
  apply NoDup_Permutation; [done|apply NoDup_seq|]. intros i. rewrite elem_of_seq.
  split.
  - intros Hin. rewrite Forall_forall in Hb. specialize (Hb i Hin). lia.
  - intros [_ Hlt]. destruct (lookup_lt_is_Some_2 (threads s) i) as [t Ht]; [lia|].
    destruct (Hf i t Ht) as (b & r & ->). apply Hok in Ht as [_ Hin].
    rewrite <-Hfst. by apply (list_elem_of_fmap_2 fst) in Hin.
Qed.

(** C9. The compare-and-set loops are atomic: however the cores interleave,
    once all of them are done the shared word and every result are those of
    running the loops one after another, each exactly once, in some order. *)
Theorem cas_linearizable (c0 : Z) (bs : list loop_body) (s : sys) :
  steps (init c0 bs) s → finished s →
  ∃ l, l ≡ₚ seq 0 (length bs) ∧ cell s = fst (replay bs l c0) ∧
    ∀ i b r, threads s !! i = Some (Done b r) →
      bs !! i = Some b ∧ (i, r) ∈ snd (replay bs l c0).
Proof.
  intros H Hf. exists (log s). split; [by eapply finished_log|].
  apply inv_steps in H. unfold inv in H. destruct (replay bs (log s) c0) as [c out].
  destruct H as (Hc & _ & _ & Hok). split; [done|]. intros i b r Hi. by apply Hok in Hi.
Qed.

Lemma steps_l s s' s'' : step s s' → steps s' s'' → steps s s''.
Proof.
  intros Hs H. induction H as [s'|s1 s2 s3 H12 IH H23].
  - eapply steps_trans; [apply steps_refl|done].
  - eapply steps_trans; [by apply IH|done].
Qed.

(** A load that leads to a swap, and a load that returns. *)
Lemma step_load_swap c ts l i b new r :
  ts !! i = Some (Start b) → b c = Swap new r →
  step (mk_sys c ts l) (mk_sys c (<[i := Loaded b c]> ts) l).
Proof. intros Hi Hb. pose proof (step_load c ts l i b Hi) as H. by rewrite Hb in H. Qed.

Lemma step_load_return c ts l i b r :
  ts !! i = Some (Start b) → b c = Return r →
  step (mk_sys c ts l) (mk_sys c (<[i := Done b r]> ts) (l ++ [i])).
Proof. intros Hi Hb. pose proof (step_load c ts l i b Hi) as H. by rewrite Hb in H. Qed.

Lemma solo_from_start c ts l i b :
  ts !! i = Some (Start b) →
  ∃ c' l' r, steps (mk_sys c ts l) (mk_sys c' (<[i := Done b r]> ts) l').
Proof.
  intros Hi. destruct (b c) as [r|new r] eqn:E.
  - exists c, (l ++ [i]), r. eapply steps_l; [by apply step_load_return|apply steps_refl].
  - exists new, (l ++ [i]), r. eapply steps_l; [by eapply step_load_swap|].
    eapply steps_l; [|rewrite <-(list_insert_insert_eq ts i (Done b r) (Loaded b c)); apply steps_refl].
    apply step_cmpset_ok; [|done]. apply list_lookup_insert_eq. by eapply lookup_lt_Some.
Qed.

(** C39. A loop that is left alone finishes: from every reachable state, moves of
    one core only (at most a failed and a successful turn) complete its loop
    and leave the other cores where they were. *)
Theorem cas_obstruction_free (c0 : Z) (bs : list loop_body) (s : sys) (i : nat) :
  steps (init c0 bs) s → (i < length bs)%nat →
  ∃ s' b r, steps s s' ∧ threads s' !! i = Some (Done b r) ∧
    ∀ j, j ≠ i → threads s' !! j = threads s !! j.
Proof.
  intros H Hlt. apply inv_steps in H. destruct s as [c ts l]. unfold inv in H. cbn in H.
  destruct (replay bs l c0) as [c1 out]. destruct H as (-> & _ & Hlen & Hok).
  destruct (lookup_lt_is_Some_2 ts i) as [t Ht]; [lia|]. cbn [threads].
  assert (i < length ts)%nat as Hi by lia.
  destruct t as [b|b val|b r].
  - destruct (solo_from_start c1 ts l i b Ht) as (c' & l' & r & Hs).
    eexists _, b, r. split_and!; [exact Hs|by apply list_lookup_insert_eq|].
    intros j Hj. by apply list_lookup_insert_ne.
  - destruct (Hok i _ Ht) as (_ & _ & new & r & Hb). destruct (decide (val = c1)) as [->|Hne].
    + eexists _, b, r. split_and!;
        [eapply steps_l; [by eapply step_cmpset_ok|apply steps_refl]
        |by apply list_lookup_insert_eq|]. intros j Hj. by apply list_lookup_insert_ne.
    + destruct (solo_from_start c1 (<[i:=Start b]> ts) l i b) as (c' & l' & r' & Hs).
      { by apply list_lookup_insert_eq. }
      rewrite list_insert_insert_eq in Hs. eexists _, b, r'. split_and!;
        [eapply steps_l; [by eapply step_cmpset_fail|exact Hs]
        |by apply list_lookup_insert_eq|]. intros j Hj. by apply list_lookup_insert_ne.
  - eexists _, b, r. split_and!; [apply steps_refl|done|done].
Qed.

(** ** Flags: no update is lost *)

(** An operation of some core: set ([true]) or clear ([false]) the given bits. *)
Definition flag_body (op : bool * Z) : loop_body :=
  if fst op then set_flags_body (snd op) else clr_flags_body (snd op).

Definition touches (set : bool) (i : Z) (op : bool * Z) : bool :=
  Bool.eqb (fst op) set && Z.testbit (snd op) i.

Lemma flag_body_word op c :
  in_word 32 c → in_word 32 (snd op) → in_word 32 (snd (run_alone (flag_body op) c)).
Proof.
  intros Hc Ho. unfold flag_body. destruct (fst op); cbn.
  - by apply set_bits_word.
  - by apply clr_bits_word.
Qed.

Lemma flag_body_bit op c i :
  in_word 32 c → 0 ≤ i →
  Z.testbit (snd (run_alone (flag_body op) c)) i =
  (Z.testbit c i || touches true i op) && negb (touches false i op).
Proof.
  intros Hc Hi. unfold flag_body, touches. destruct op as [[] f]; cbn.
  - rewrite set_bits_spec. by rewrite andb_true_r.
  - rewrite clr_bits_spec by done. by rewrite orb_false_r.
Qed.

Definition op_at (ops : list (bool * Z)) (j : nat) : bool * Z := default (true, 0) (ops !! j).

Lemma replay_flags ops l c :
  in_word 32 c → Forall (λ op, in_word 32 (snd op)) ops → Forall (λ j, (j < length ops)%nat) l →
  in_word 32 (fst (replay (flag_body <$> ops) l c)) ∧
  ∀ i, 0 ≤ i →
    let v := Z.testbit (fst (replay (flag_body <$> ops) l c)) i in
    (existsb (λ j, touches false i (op_at ops j)) l = false →
     v = Z.testbit c i || existsb (λ j, touches true i (op_at ops j)) l) ∧
    (existsb (λ j, touches true i (op_at ops j)) l = false →
     v = Z.testbit c i && negb (existsb (λ j, touches false i (op_at ops j)) l)).
Proof.
  intros Hc Ho Hl. revert c Hc. induction Hl as [|j l Hj Hl IH]; intros c Hc.
  - split; [done|]. intros i Hi. cbn. by rewrite orb_false_r, andb_true_r.
  - destruct (lookup_lt_is_Some_2 ops j Hj) as [op Hop].
    assert (body_of (flag_body <$> ops) j = flag_body op) as Eb.
    { unfold body_of. rewrite list_lookup_fmap. by rewrite Hop. }
    assert (op_at ops j = op) as Eo by (unfold op_at; by rewrite Hop).
    assert (in_word 32 (snd op)) as Hw by (rewrite Forall_lookup in Ho; by apply (Ho j)).
    cbn [replay existsb]. rewrite Eb, Eo.
    pose proof (flag_body_word op c Hc Hw) as Hc1.
    pose proof (λ i, flag_body_bit op c i Hc) as Hbit.
    destruct (run_alone (flag_body op) c) as [r c1]. cbn [snd] in *.
    destruct (IH c1 Hc1) as [Hw' Hb]. destruct (replay _ l c1) as [c2 out]. cbn [fst] in *.
    split; [done|]. intros i Hi. specialize (Hb i Hi) as [Hb1 Hb2]. specialize (Hbit i Hi).
    split; intros E; apply orb_false_elim in E as [E1 E2].
    + rewrite (Hb1 E2), Hbit, E1. by rewrite andb_true_r, orb_assoc.
    + rewrite (Hb2 E2), Hbit, E1. by rewrite orb_false_r, negb_orb, andb_assoc.
Qed.

Lemma existsb_perm ops l (p : bool * Z → bool) :
  l ≡ₚ seq 0 (length ops) → existsb (λ j, p (op_at ops j)) l = existsb p ops.
Proof.
  intros Hl. apply eq_true_iff_eq. rewrite !existsb_exists. split.
  - intros (j & Hj & Hp). apply list_elem_of_In in Hj. rewrite Hl in Hj.
    apply elem_of_seq in Hj as [_ Hj]. cbn in Hj.
    destruct (lookup_lt_is_Some_2 ops j Hj) as [op Hop]. unfold op_at in Hp. rewrite Hop in Hp.
    exists op. split; [|done]. apply list_elem_of_In. by eapply list_elem_of_lookup_2.
  - intros (op & Hin & Hp). apply list_elem_of_In, list_elem_of_lookup in Hin as [j Hj].
    exists j. split.
    + apply list_elem_of_In. rewrite Hl, elem_of_seq. apply lookup_lt_Some in Hj. lia.
    + unfold op_at. by rewrite Hj.
Qed.

(** No flag update is lost: once a set of concurrent flag operations is done,
    a bit that nobody clears is set exactly if it was or some core set it, and
    a bit that nobody sets is left exactly if no core cleared it. *)
Theorem flags_no_lost_update (c0 : Z) (ops : list (bool * Z)) (s : sys) (i : Z) :
  in_word 32 c0 → Forall (λ op, in_word 32 (snd op)) ops → 0 ≤ i →
  steps (init c0 (flag_body <$> ops)) s → finished s →
  (existsb (touches false i) ops = false →
   Z.testbit (cell s) i = Z.testbit c0 i || existsb (touches true i) ops) ∧
  (existsb (touches true i) ops = false →
   Z.testbit (cell s) i = Z.testbit c0 i && negb (existsb (touches false i) ops)).
Proof.
  intros Hc Ho Hi H Hf. pose proof (finished_log _ _ _ H Hf) as Hl.
  rewrite length_fmap in Hl. pose proof (log_bound _ _ _ H) as Hb. rewrite length_fmap in Hb.
  apply inv_steps in H. unfold inv in H.
  destruct (replay_flags ops (log s) c0 Hc Ho Hb) as [_ Hr]. specialize (Hr i Hi).
  destruct (replay _ (log s) c0) as [c out]. destruct H as (-> & _). cbn [fst] in Hr.
  by rewrite !existsb_perm in Hr.
Qed.

(** ** The transmit counter is shared out exactly *)

Fixpoint taken (ts : list thread) : Z :=
  match ts with
  | [] => 0
  | Done _ r :: ts => r + taken ts
  | _ :: ts => taken ts
  end.

Definition result (t : thread) : Z := match t with Done _ r => r | _ => 0 end.

Lemma taken_insert ts i t t0 :
  ts !! i = Some t0 → taken (<[i := t]> ts) = taken ts - result t0 + result t.
Proof.
  revert i. induction ts as [|x ts IH]; intros [|i] Hi; try done.
  - injection Hi as ->. cbn. destruct t, t0; cbn; lia.
  - change (<[S i := t]> (x :: ts)) with (x :: <[i := t]> ts).
    cbn in Hi. specialize (IH i Hi). destruct x; cbn [taken]; lia.
Qed.

Definition tx_thread_ok (bursts : list Z) (c : Z) (i : nat) (t : thread) : Prop :=
  ∃ burst, bursts !! i = Some burst ∧
  match t with
  | Start b => b = tx_count_body burst
  | Loaded b val => b = tx_count_body burst ∧ 0 < val
  | Done b r => b = tx_count_body burst ∧ 0 ≤ r ≤ burst ∧ (r < burst → c = 0)
  end.

Definition tx_inv (c0 : Z) (bursts : list Z) (s : sys) : Prop :=
  0 ≤ cell s ∧ cell s + taken (threads s) = c0 ∧
  (∀ i t, threads s !! i = Some t → tx_thread_ok bursts (cell s) i t).

Lemma tx_body_cases burst v :
  0 < burst → 0 ≤ v →
  (v = 0 ∧ tx_count_body burst v = Return 0) ∨
  (0 < v ∧ ∃ r, tx_count_body burst v = Swap (v - r) r ∧ 0 < r ≤ burst ∧ r ≤ v ∧
     (r < burst → v - r = 0)).
Proof.
  intros Hb Hv. unfold tx_count_body. destruct (Z.eqb_spec v 0); [by left|right].
  split; [lia|]. destruct (Z.ltb_spec burst v); eexists; (split; [reflexivity|lia]).
Qed.

Lemma tx_thread_zero bursts c c' i t :
  tx_thread_ok bursts c i t → (c = 0 → c' = 0) → tx_thread_ok bursts c' i t.
Proof.
  intros (burst & Hb & Ht) Hc. exists burst. split; [done|]. destruct t; naive_solver.
Qed.

Lemma tx_inv_update c0 bursts c ts i t0 t c' l l' :
  tx_inv c0 bursts (mk_sys c ts l) → ts !! i = Some t0 → result t0 = 0 →
  0 ≤ c' → c' + result t = c → (c = 0 → c' = 0) → tx_thread_ok bursts c' i t →
  tx_inv c0 bursts (mk_sys c' (<[i := t]> ts) l').
Proof.
  intros (H0 & Hsum & Hok) Hi Hr Hc' Hc Hz Ht. unfold tx_inv. cbn in *. split_and!; [done| |].
  - rewrite (taken_insert _ _ _ t0) by done. lia.
  - intros j tj Hj. destruct (decide (j = i)) as [->|].
    + rewrite list_lookup_insert_eq in Hj by (by eapply lookup_lt_Some). by injection Hj as <-.
    + rewrite list_lookup_insert_ne in Hj by done. eapply tx_thread_zero; eauto.
Qed.

Lemma tx_inv_step c0 bursts s s' :
  Forall (λ b, 0 < b) bursts → tx_inv c0 bursts s → step s s' → tx_inv c0 bursts s'.
Proof.
  intros HF H Hs. assert (H' := H). destruct H' as (H0 & Hsum & Hok). rewrite Forall_lookup in HF.
  destruct Hs as [c ts l i b Hi|c ts l i b new r Hi Hb|c ts l i b val Hi Hne]; cbn in *;
    destruct (Hok i _ Hi) as (burst & Hbi & Hb').
  - subst b. destruct (tx_body_cases burst c (HF _ _ Hbi) H0) as [[-> ->]|(Hc & r & -> & Hr)].
    + eapply tx_inv_update; [done..|lia|cbn; lia|done|]. exists burst. specialize (HF _ _ Hbi).
      split_and!; (done || lia).
    + eapply tx_inv_update; [done..|cbn; lia|done|]. exists burst. by split.
  - destruct Hb' as [-> Hc].
    destruct (tx_body_cases burst c (HF _ _ Hbi) H0) as [[-> _]|(_ & r' & E & Hr)]; [lia|].
    rewrite E in Hb. injection Hb as <- <-.
    eapply tx_inv_update; [done..|lia|cbn; lia|lia|]. exists burst. split_and!; (done || lia).
  - destruct Hb' as [-> Hv]. eapply tx_inv_update; [done..|cbn; lia|done|]. by exists burst.
Qed.

Lemma tx_inv_steps c0 bursts s :
  0 ≤ c0 → Forall (λ b, 0 < b) bursts → steps (init c0 (tx_count_body <$> bursts)) s →
  tx_inv c0 bursts s.
Proof.
  intros Hc HF H. remember (init c0 _) as s0 eqn:E.
  induction H as [s|s s' s'' _ IH Hs]; subst; [|by eapply tx_inv_step; eauto].
  unfold init, tx_inv. cbn. split_and!; [done| |].
  - enough (taken (Start <$> (tx_count_body <$> bursts)) = 0) by lia.
    induction bursts as [|b bursts IH]; [done|]. inversion_clear HF. cbn. by apply IH.
  - intros i t Hi. rewrite !list_lookup_fmap in Hi. destruct (bursts !! i) as [b|] eqn:Eb; [|done].
    injection Hi as <-. by exists b.
Qed.

(** The transmit counter loaded into a port is shared out exactly among the
    transmit queues: at any point of any interleaving what the queues took and
    what is left add up to the initial count, no queue takes more than its
    burst, and a queue gets less than its burst only when nothing is left. *)
Theorem tx_count_conserved (c0 : Z) (bursts : list Z) (s : sys) :
  0 ≤ c0 → Forall (λ b, 0 < b) bursts →
  steps (init c0 (tx_count_body <$> bursts)) s →
  0 ≤ cell s ∧ cell s + taken (threads s) = c0 ∧
  ∀ i b r, threads s !! i = Some (Done b r) →
    ∃ burst, bursts !! i = Some burst ∧ 0 ≤ r ≤ burst ∧ (r < burst → cell s = 0).
Proof.
  intros Hc HF H. destruct (tx_inv_steps _ _ _ Hc HF H) as (H0 & Hsum & Hok).
  split_and!; [done..|]. intros i b r Hi. destruct (Hok i _ Hi) as (burst & Hb & _ & Hr).
  exists burst. naive_solver.
Qed.

(** ** Witnesses: two cores, interleaved so that the first one's swap fails once *)

Lemma demo_run : steps (init 5 (tx_count_body <$> [3; 4]))
  (mk_sys 0 [Done (tx_count_body 3) 1; Done (tx_count_body 4) 4] [1; 0]%nat).
Proof.
  eapply steps_l; [eapply (step_load_swap _ _ _ 0); reflexivity|].
  eapply steps_l; [eapply (step_load_swap _ _ _ 1); reflexivity|].
  eapply steps_l; [eapply (step_cmpset_ok _ _ _ 1); reflexivity|].
  eapply steps_l; [eapply (step_cmpset_fail _ _ _ 0); [reflexivity|cbn; lia]|].
  eapply steps_l; [eapply (step_load_swap _ _ _ 0); reflexivity|].
  eapply steps_l; [eapply (step_cmpset_ok _ _ _ 0); reflexivity|].
  apply steps_refl.
Defined.

Lemma demo_finished :
  finished (mk_sys 0 [Done (tx_count_body 3) 1; Done (tx_count_body 4) 4] [1; 0]%nat).
Proof. intros [|[|i]] t Ht; cbn in Ht; try (injection Ht as <-); eauto; done. Defined.

Lemma tx_count_conserved_witness : 0 ≤ 0 ∧ 0 + taken [Done (tx_count_body 3) 1; Done (tx_count_body 4) 4] = 5.
Proof.
  destruct (tx_count_conserved 5 [3; 4] _ ltac:(lia) ltac:(repeat constructor) demo_run)
    as (H0 & H1 & _). split; [exact H0|exact H1].
Defined.

Lemma cas_linearizable_witness :
  ∃ l, l ≡ₚ [0; 1]%nat ∧ 0 = fst (replay (tx_count_body <$> [3; 4]) l 5).
Proof.
  destruct (cas_linearizable 5 _ _ demo_run demo_finished) as (l & H1 & H2 & _).
  exists l. split; [exact H1|exact H2].
Defined.

Lemma cas_obstruction_free_witness :
  ∃ s' b r, steps (init 5 [tx_count_body 3; tx_count_body 4]) s' ∧
            threads s' !! 1%nat = Some (Done b r).
Proof.
  destruct (cas_obstruction_free 5 [tx_count_body 3; tx_count_body 4] _ 1 (steps_refl _)
              ltac:(cbn; lia)) as (s' & b & r & H1 & H2 & _).
  exists s', b, r. split; [exact H1|exact H2].
Defined.

Lemma demo_flags : steps (init 1 (flag_body <$> [(true, 4); (false, 1)]))
  (mk_sys 4 [Done (flag_body (true, 4)) 0; Done (flag_body (false, 1)) 0] [1; 0]%nat).
Proof.
  eapply steps_l; [eapply (step_load_swap _ _ _ 1); reflexivity|].
  eapply steps_l; [eapply (step_cmpset_ok _ _ _ 1); reflexivity|].
  eapply steps_l; [eapply (step_load_swap _ _ _ 0); reflexivity|].
  eapply steps_l; [eapply (step_cmpset_ok _ _ _ 0); reflexivity|].
  apply steps_refl.
Defined.

Lemma flags_no_lost_update_witness : Z.testbit 4 2 = Z.testbit 1 2 || true.
Proof.
  refine (proj1 (flags_no_lost_update 1 [(true, 4); (false, 1)] _ 2 _ _ _ demo_flags _) eq_refl).
  - unfold in_word. lia.
  - repeat constructor; cbn; lia.
  - lia.
  - intros [|[|i]] t Ht; cbn in Ht; try (injection Ht as <-); eauto; done.
Defined.
