(* ===== verification/Headers.v ===== *)
(** * Packet construction

    The header constructors of [app/pktgen-ether.c], [pktgen-ipv4.c],
    [pktgen-ipv6.c], [pktgen-tcp.c], [pktgen-udp.c], [pktgen-gre.c] and
    [pktgen-gtpu.c], and [pktgen_fill_pattern] and [pktgen_packet_ctor] of
    [app/pktgen.c].  They write through overlapping packed structures into the
    memory that starts at [pkt->hdr]; a header pointer is an offset into it. *)
From Stdlib Require Import Ascii String.
From S2P Require Import Prelude Mem Cksum Inet PortInfo.

(** Write the memory of the packet. *)
Abbreviation on_hdr p f := (p <| Pkt.hdr ::= f |>).
Abbreviation st8' := (store 1).

Definition sizeof_ether_hdr := 14.
Definition sizeof_vlan_hdr := 4.
Definition sizeof_ipv6_hdr := 40.
Definition sizeof_tcp_hdr := 20.
Definition sizeof_udp_hdr := 8.
Definition sizeof_gtpu_hdr := 8.

(** ** pktgen_fill_pattern *)

(** [for (i = 0; i < len; i++) p[i] = f(i)] *)
Definition fill_bytes (m : mem) (p len : Z) (f : Z → Z) : mem :=
  λ b, if (p <=? b) && (b <? p + len) then u8 (f (b - p)) else m b.

Definition abc_chars : list Z :=
  (λ c, Z.of_N (N_of_ascii c)) <$> list_ascii_of_string "abcdefghijklmnopqrstuvwxyz012345".

Definition pktgen_fill_pattern (m : mem) (p len : Z) (type : fill_t) (user : Z → Z) : mem :=
  match type with
  | USER_FILL_PATTERN => fill_bytes (memset m p 0 len) p len (λ i, user (Z.land i 15))
  | NO_FILL_PATTERN => m
  | ZERO_FILL_PATTERN => memset m p 0 len
  | ABC_FILL_PATTERN =>
      fill_bytes m p len (λ i, nth (Z.to_nat (Z.land i 0x1f)) abc_chars 0)
  end.

(** ** pktgen_ether_hdr_ctor: the packet and the pointer past the header *)
Definition pktgen_ether_hdr_ctor (flags : Z) (p : pkt_seq_t) (eth : Z) : pkt_seq_t * Z :=
  let p := on_hdr p (λ m, inet_h64tom m (Pkt.eth_src_addr p) (eth + 6)) in
  let p := on_hdr p (λ m, inet_h64tom m (Pkt.eth_dst_addr p) eth) in
  if tst_bits flags SEND_VLAN_ID then
    let p := on_hdr p (λ m, st16 m (eth + 12) (htons PG_ETHER_TYPE_VLAN)) in
    let vlan := eth + sizeof_ether_hdr in
    let vlan_id := u16 (Z.lor (Pkt.vlanid p) (Z.shiftl (Pkt.cos p) 13)) in
    let p := on_hdr p (λ m, st16 m vlan (htons vlan_id)) in
    let p := on_hdr p (λ m, st16 m (vlan + 2) (htons (Pkt.ethType p))) in
    (p <| Pkt.ether_hdr_size := sizeof_ether_hdr + sizeof_vlan_hdr |>, vlan + sizeof_vlan_hdr)
  else if tst_bits flags SEND_MPLS_LABEL then
    let p := on_hdr p (λ m, st16 m (eth + 12) (htons ETHER_TYPE_MPLS_UNICAST)) in
    let mpls := eth + sizeof_ether_hdr in
    let mpls_label := Z.lor (Pkt.mpls_entry p) (Z.shiftl 1 8) in
    let p := on_hdr p (λ m, st32 m mpls (htonl mpls_label)) in
    (p <| Pkt.ether_hdr_size := sizeof_ether_hdr + 4 |>, mpls + 4)
  else if tst_bits flags SEND_Q_IN_Q_IDS then
    let p := on_hdr p (λ m, st16 m (eth + 12) (htons ETHER_TYPE_Q_IN_Q)) in
    let qinq := eth + sizeof_ether_hdr in
    let p := on_hdr p (λ m, st16 m qinq (htons (Pkt.qinq_outerid p))) in
    let p := on_hdr p (λ m, st16 m (qinq + 2) (htons PG_ETHER_TYPE_VLAN)) in
    let p := on_hdr p (λ m, st16 m (qinq + 4) (htons (Pkt.qinq_innerid p))) in
    let p := on_hdr p (λ m, st16 m (qinq + 6) (htons (Pkt.ethType p))) in
    (p <| Pkt.ether_hdr_size := sizeof_ether_hdr + 8 |>, qinq + 8)
  else
    let p := on_hdr p (λ m, st16 m (eth + 12) (htons (Pkt.ethType p))) in
    (p <| Pkt.ether_hdr_size := sizeof_ether_hdr |>, eth + sizeof_ether_hdr).

(** ** IP constructors; [ident] is [pktgen.ident] *)

Definition pktgen_ipv4_ctor (p : pkt_seq_t) (ip ident : Z) : pkt_seq_t * Z :=
  let tlen := u16 (Pkt.pktSize p - Pkt.ether_hdr_size p) in
  let ident := u16 (ident + 27) in
  (on_hdr p (λ m,
     let m := memset m ip 0 sizeof_ipv4_hdr in
     let m := st8' m ip (Z.lor (Z.shiftl 4 4) (sizeof_ipv4_hdr / 4)) in
     let m := st16 m (ip + 2) (htons tlen) in
     let m := st8' m (ip + 8) (Pkt.ttl p) in
     let m := st8' m (ip + 1) (Pkt.tos p) in
     let m := st16 m (ip + 4) (htons ident) in
     let m := st16 m (ip + 6) 0 in
     let m := st8' m (ip + 9) (Pkt.ipProto p) in
     let m := st32 m (ip + 12) (htonl (Pkt.ip_src_addr p)) in
     let m := st32 m (ip + 16) (htonl (Pkt.ip_dst_addr p)) in
     let m := st16 m (ip + 10) 0 in
     st16 m (ip + 10) (rte_ipv4_cksum m ip)), ident).

(** The two addresses, each in bytes 8 to 11 of its field. *)
Definition ipv6_addrs (p : pkt_seq_t) (ip : Z) (m : mem) : mem :=
  let m := st32 m (ip + 24 + 8) (htonl (Pkt.ip_dst_addr p)) in
  st32 m (ip + 8 + 8) (htonl (Pkt.ip_src_addr p)).

Definition pktgen_ipv6_ctor (p : pkt_seq_t) (ip : Z) : pkt_seq_t :=
  on_hdr p (λ m,
    let m := memset m ip 0 sizeof_ipv6_hdr in
    let m := st32 m ip (htonl (u32 (Z.shiftl 6 28))) in
    let tlen := u16 (Pkt.pktSize p - (Pkt.ether_hdr_size p + sizeof_ipv6_hdr)) in
    let m := st16 m (ip + 4) (htons tlen) in
    let m := st8' m (ip + 7) 4 in
    let m := st8' m (ip + 6) (Pkt.ipProto p) in
    ipv6_addrs p ip m).

(** ** TCP and UDP constructors *)

Definition DEFAULT_PKT_NUMBER := 0x012345678.
Definition DEFAULT_ACK_NUMBER := 0x012345690.
Definition DEFAULT_WND_SIZE := 8192.
Definition ACK_FLAG := 0x10.

(** The addresses, length and protocol the L4 checksums need in the IPv4 header. *)
Definition l4_ipv4_fields (p : pkt_seq_t) (ipv4 : Z) (m : mem) : mem :=
  let m := st32 m (ipv4 + 12) (htonl (Pkt.ip_src_addr p)) in
  let m := st32 m (ipv4 + 16) (htonl (Pkt.ip_dst_addr p)) in
  let tlen := u16 (Pkt.pktSize p - Pkt.ether_hdr_size p) in
  let m := st16 m (ipv4 + 2) (htons tlen) in
  st8' m (ipv4 + 9) (Pkt.ipProto p).

Definition l4_ipv6_fields (p : pkt_seq_t) (ipv6 : Z) (m : mem) : mem :=
  let m := memset m (ipv6 + 24) 0 16 in
  let m := memset m (ipv6 + 8) 0 16 in
  let m := ipv6_addrs p ipv6 m in
  let tlen := u16 (Pkt.pktSize p - (Pkt.ether_hdr_size p + sizeof_ipv6_hdr)) in
  let m := st16 m (ipv6 + 4) (htons tlen) in
  st8' m (ipv6 + 6) (Pkt.ipProto p).

Definition tcp_fields (p : pkt_seq_t) (tcp : Z) (m : mem) : mem :=
  let m := st16 m tcp (htons (Pkt.sport p)) in
  let m := st16 m (tcp + 2) (htons (Pkt.dport p)) in
  let m := st32 m (tcp + 4) (htonl DEFAULT_PKT_NUMBER) in
  let m := st32 m (tcp + 8) (htonl DEFAULT_ACK_NUMBER) in
  let m := st8' m (tcp + 12) (Z.shiftl (sizeof_tcp_hdr / 4) 4) in
  let m := st8' m (tcp + 13) ACK_FLAG in
  let m := st16 m (tcp + 14) (htons DEFAULT_WND_SIZE) in
  let m := st16 m (tcp + 18) 0 in
  st16 m (tcp + 16) 0.

Definition pktgen_tcp_hdr_ctor (p : pkt_seq_t) (hdr type : Z) : pkt_seq_t :=
  if type =? PG_ETHER_TYPE_IPv4 then
    let tcp := hdr + sizeof_ipv4_hdr in
    on_hdr p (λ m,
      let m := l4_ipv4_fields p hdr m in
      let m := tcp_fields p tcp m in
      st16 m (tcp + 16) (rte_ipv4_udptcp_cksum m hdr tcp))
  else
    let tcp := hdr + sizeof_ipv6_hdr in
    on_hdr p (λ m,
      let m := l4_ipv6_fields p hdr m in
      let m := tcp_fields p tcp m in
      st16 m (tcp + 16) (rte_ipv6_udptcp_cksum m hdr tcp)).

Definition udp_ports (p : pkt_seq_t) (udp tlen : Z) (m : mem) : mem :=
  let m := st16 m (udp + 4) (htons tlen) in
  let m := st16 m udp (htons (Pkt.sport p)) in
  st16 m (udp + 2) (htons (Pkt.dport p)).

Definition vxlan_fields (p : pkt_seq_t) (vxlan : Z) (m : mem) : mem :=
  let m := st16 m vxlan (htons (Pkt.vni_flags p)) in
  let m := st16 m (vxlan + 2) (htons (Pkt.group_id p)) in
  st32 m (vxlan + 4) (u32 (Z.shiftl (htonl (Pkt.vxlan_id p)) 8)).

(** Store the checksum, then replace a zero by 0xFFFF. *)
Definition udp_store_cksum (udp ck : Z) (m : mem) : mem :=
  let m := st16 m (udp + 6) ck in
  if ld16 m (udp + 6) =? 0 then st16 m (udp + 6) 0xFFFF else m.

Definition pktgen_udp_hdr_ctor (p : pkt_seq_t) (hdr type : Z) : pkt_seq_t :=
  if type =? PG_ETHER_TYPE_IPv4 then
    let udp := hdr + sizeof_ipv4_hdr in
    on_hdr p (λ m,
      let m := l4_ipv4_fields p hdr m in
      let tlen := u16 (Pkt.pktSize p - (Pkt.ether_hdr_size p + sizeof_ipv4_hdr)) in
      let m := udp_ports p udp tlen m in
      let m := if Pkt.dport p =? VXLAN_PORT_ID
               then vxlan_fields p (udp + sizeof_udp_hdr) m else m in
      let m := st16 m (udp + 6) 0 in
      udp_store_cksum udp (rte_ipv4_udptcp_cksum m hdr udp) m)
  else
    let udp := hdr + sizeof_ipv6_hdr in
    on_hdr p (λ m,
      let m := l4_ipv6_fields p hdr m in
      let tlen := u16 (Pkt.pktSize p - (Pkt.ether_hdr_size p + sizeof_ipv6_hdr)) in
      let m := udp_ports p udp tlen m in
      let m := st16 m (udp + 6) 0 in
      udp_store_cksum udp (rte_ipv6_udptcp_cksum m hdr udp) m).

(** ** GRE *)

Definition GRE_SRC_ADDR :=
  Z.lor (Z.lor (Z.lor (Z.shiftl 10 24) (Z.shiftl 10 16)) (Z.shiftl 1 8)) 1.
Definition GRE_DST_ADDR :=
  Z.lor (Z.lor (Z.lor (Z.shiftl 10 24) (Z.shiftl 10 16)) (Z.shiftl 1 8)) 2.
Definition sizeof_greIp := 36.
Definition sizeof_greEther := 50.

(** The outer IPv4 header both constructors write at [gre]. *)
Definition gre_outer_ip (p : pkt_seq_t) (gre ident : Z) (m : mem) : mem :=
  let m := st8' m gre (Z.lor (Z.shiftl 4 4) (sizeof_ipv4_hdr / 4)) in
  let m := st8' m (gre + 1) 0 in
  let m := st16 m (gre + 2) (htons (u16 (Pkt.pktSize p - Pkt.ether_hdr_size p))) in
  let m := st16 m (gre + 4) (htons ident) in
  let m := st16 m (gre + 6) 0 in
  let m := st8' m (gre + 8) 64 in
  let m := st8' m (gre + 9) PG_IPPROTO_GRE in
  let m := st32 m (gre + 12) (htonl GRE_SRC_ADDR) in
  let m := st32 m (gre + 16) (htonl GRE_DST_ADDR) in
  st16 m (gre + 10) (rte_ipv4_cksum m gre).

(** First byte of the GRE header, from the bit fields (reserved0_0 in the low
    four bits, then seq_present, key_present, unused, chk_present). *)
Definition gre_flags (chk_present key_present seq_present : bool) : Z :=
  Z.b2z seq_present * 16 + Z.b2z key_present * 32 + Z.b2z chk_present * 128.

(** Header, optional fields, and how many of these are in use. *)
Definition gre_header (p : pkt_seq_t) (gh eth_type : Z) (m : mem) : mem * Z :=
  let chk_present := false in
  let key_present := true in
  let seq_present := false in
  let m := st8' m gh (gre_flags chk_present key_present seq_present) in
  let m := st8' m (gh + 1) 0 in
  let m := st16 m (gh + 2) (htons eth_type) in
  let extra_count := if chk_present then 1 else 0 in
  let '(m, extra_count) :=
    if key_present
    then (st32 m (gh + 4 + 4 * extra_count) (htonl (Pkt.gre_key p)), extra_count + 1)
    else (m, extra_count) in
  let extra_count := if seq_present then extra_count + 1 else extra_count in
  (m, extra_count).

Definition pktgen_gre_hdr_ctor (p : pkt_seq_t) (gre ident : Z) : pkt_seq_t * Z * Z :=
  let ident := u16 (ident + 27) in
  let m := memset (Pkt.hdr p) gre 0 sizeof_greIp in
  let m := gre_outer_ip p gre ident m in
  let '(m, extra_count) := gre_header p (gre + sizeof_ipv4_hdr) PG_ETHER_TYPE_IPv4 m in
  let unused := 4 * (3 - extra_count) in
  (p <| Pkt.hdr := m |> <| Pkt.ether_hdr_size ::= λ s, u16 (s + (sizeof_greIp - unused)) |>,
   gre + sizeof_greIp - unused, ident).

Definition pktgen_gre_ether_hdr_ctor (p : pkt_seq_t) (gre ident : Z) : pkt_seq_t * Z * Z :=
  let ident := u16 (ident + 27) in
  let m := memset (Pkt.hdr p) gre 0 sizeof_greEther in
  let m := gre_outer_ip p gre ident m in
  let '(m, extra_count) :=
    gre_header p (gre + sizeof_ipv4_hdr) ETHER_TYPE_TRANSP_ETH_BR m in
  let eth_hdr := gre + sizeof_ipv4_hdr + 2 + 2 + 4 * extra_count in
  let m := inet_h64tom m (Pkt.eth_src_addr p) (eth_hdr + 6) in
  let m := inet_h64tom m (Pkt.eth_dst_addr p) eth_hdr in
  let m := st16 m (eth_hdr + 12) (htons PG_ETHER_TYPE_IPv4) in
  let unused := 4 * (3 - extra_count) in
  (p <| Pkt.hdr := m |> <| Pkt.ether_hdr_size ::= λ s, u16 (s + (sizeof_greEther - unused)) |>,
   gre + sizeof_greEther - unused, ident).

(** ** GTP-U *)

Definition GTPu_VERSION := 0x20.
Definition GTPu_PT_FLAG := 0x10.
Definition GTPu_E_FLAG := 0x04.
Definition GTPu_S_FLAG := 0x02.
Definition GTPu_PN_FLAG := 0x01.

(** The optional fields are stored from the start of the header, and each test
    reads the flags byte as it is by then. *)
Definition gtpu_option (gtp : Z) (flag n v : Z) (st : mem * Z) : mem * Z :=
  let '(m, q) := st in
  if tst_bits (ld8 m gtp) flag then
    let m := if n =? 2 then st16 m q v else st8' m q v in
    (st16 m (gtp + 2) (u16 (ld16 m (gtp + 2) + n)), q + n)
  else (m, q).

Definition pktgen_gtpu_hdr_ctor (p : pkt_seq_t) (hdr ipProto flags seq_no npdu_no next_ext : Z)
    : pkt_seq_t :=
  let l4HdrSize := if ipProto =? PG_IPPROTO_UDP then sizeof_udp_hdr else sizeof_tcp_hdr in
  let gtp := hdr + sizeof_ipv4_hdr + l4HdrSize in
  on_hdr p (λ m,
    let m := memset m gtp 0 sizeof_gtpu_hdr in
    let m := st8' m gtp flags in
    let m := st8' m (gtp + 1) 0xff in
    let m := st32 m (gtp + 4) (htonl (Pkt.gtpu_teid p)) in
    let st := gtpu_option gtp GTPu_S_FLAG 2 seq_no (m, gtp) in
    let st := gtpu_option gtp GTPu_PN_FLAG 1 npdu_no st in
    let '(m, _) := gtpu_option gtp GTPu_E_FLAG 1 next_ext st in
    st16 m (gtp + 2) (htons (u16 (Pkt.pktSize p -
      (l4HdrSize + sizeof_gtpu_hdr + Pkt.ether_hdr_size p))))).

(** ** pktgen_packet_ctor *)

Definition ICMP4_ECHO_REPLY := 0.
Definition ICMP4_ECHO := 8.
Definition ICMP4_TIMESTAMP := 13.

(** Size of [pkt->hdr] and the padding after it. *)
Definition DEFAULT_MBUF_SIZE := 2048 + 128.

(** The ICMP message at [icmp = &udp[1]]; [union icmp_data] overlays it. *)
Definition icmp_message (type icmp : Z) (m : mem) : mem :=
  let m := st8' m (icmp + 1) 0 in
  if (type =? -1) || (type =? ICMP4_TIMESTAMP) then
    let m := st8' m icmp ICMP4_TIMESTAMP in
    let m := st16 m icmp 0x1234 in
    let m := st16 m (icmp + 2) 0x5678 in
    let m := st32 m (icmp + 4) 0x80004321 in
    let m := st32 m (icmp + 8) 0 in
    st32 m (icmp + 12) 0
  else if type =? ICMP4_ECHO then
    let m := st8' m icmp ICMP4_ECHO in
    let m := st16 m icmp 0x1234 in
    let m := st16 m (icmp + 2) 0x5678 in
    st32 m (icmp + 4) 0
  else m.

Definition icmp_ctor (p : pkt_seq_t) (l3_hdr type : Z) : pkt_seq_t :=
  let udp := l3_hdr + sizeof_ipv4_hdr in
  let icmp := udp + sizeof_udp_hdr in
  let tlen := u16 (Pkt.pktSize p - (Pkt.ether_hdr_size p + sizeof_ipv4_hdr)) in
  on_hdr p (λ m,
    let m := st32 m (l3_hdr + 12) (htonl (Pkt.ip_src_addr p)) in
    let m := st32 m (l3_hdr + 16) (htonl (Pkt.ip_dst_addr p)) in
    let m := st16 m (l3_hdr + 2) (htons tlen) in
    let m := st8' m (l3_hdr + 9) (Pkt.ipProto p) in
    let m := icmp_message type icmp m in
    let m := st16 m (icmp + 2) 0 in
    let m := st16 m (icmp + 2) (rte_raw_cksum m icmp tlen) in
    if ld16 m (icmp + 2) =? 0 then st16 m (icmp + 2) 0xFFFF else m).

Definition arp_ctor (p : pkt_seq_t) (arp : Z) : pkt_seq_t :=
  on_hdr p (λ m,
    let m := st16 m arp (htons 1) in
    let m := st16 m (arp + 2) (htons PG_ETHER_TYPE_IPv4) in
    let m := st8' m (arp + 4) 6 in
    let m := st8' m (arp + 5) 4 in
    let m := st16 m (arp + 6) (htons 2) in
    let m := inet_h64tom m (Pkt.eth_src_addr p) (arp + 8) in
    let m := st32 m (arp + 8) (htonl (Pkt.ip_src_addr p)) in
    let m := inet_h64tom m (Pkt.eth_dst_addr p) (arp + 18) in
    st32 m (arp + 24) (htonl (Pkt.ip_dst_addr p))).

(** The L3 and L4 part for IPv4. *)
Definition ipv4_payload_ctor (flags : Z) (p : pkt_seq_t) (l3_hdr ident type : Z) : pkt_seq_t * Z :=
  let gtpu p := pktgen_gtpu_hdr_ctor p l3_hdr (Pkt.ipProto p) (GTPu_VERSION ||| GTPu_PT_FLAG) 0 0 0 in
  let tcp p := pktgen_tcp_hdr_ctor p l3_hdr PG_ETHER_TYPE_IPv4 in
  let udp p := pktgen_udp_hdr_ctor p l3_hdr PG_ETHER_TYPE_IPv4 in
  let ipv4 p := pktgen_ipv4_ctor p l3_hdr ident in
  if Pkt.ipProto p =? PG_IPPROTO_TCP then
    if negb (Pkt.dport p =? PG_IPPROTO_L4_GTPU_PORT) then ipv4 (tcp p)
    else ipv4 (tcp (gtpu p))
  else if Pkt.ipProto p =? PG_IPPROTO_UDP then
    if tst_bits flags SEND_VXLAN_PACKETS then ipv4 (udp (p <| Pkt.dport := VXLAN_PORT_ID |>))
    else if negb (Pkt.dport p =? PG_IPPROTO_L4_GTPU_PORT) then ipv4 (udp p)
    else ipv4 (udp (gtpu p))
  else if Pkt.ipProto p =? PG_IPPROTO_ICMP then ipv4 (icmp_ctor p l3_hdr type)
  else (p, ident).

Definition ctor_pkt (i : port_info_t) (ident : Z) (p : pkt_seq_t) (type : Z) : pkt_seq_t * Z :=
  let eth := 0 in
  let l3_hdr := eth + sizeof_ether_hdr in
  let p := on_hdr p (λ m, pktgen_fill_pattern m 0 DEFAULT_MBUF_SIZE (Info.fill_pattern_type i)
                            (Info.user_pattern i)) in
  let flags := Info.port_flags i in
  let '(p, l3_hdr, ident) :=
    if tst_bits flags SEND_GRE_IPv4_HEADER then pktgen_gre_hdr_ctor p l3_hdr ident
    else if tst_bits flags SEND_GRE_ETHER_HEADER then pktgen_gre_ether_hdr_ctor p l3_hdr ident
    else (pktgen_ether_hdr_ctor flags p eth, ident) in
  if Pkt.ethType p =? PG_ETHER_TYPE_IPv4 then ipv4_payload_ctor flags p l3_hdr ident type
  else if Pkt.ethType p =? PG_ETHER_TYPE_IPv6 then
    (if Pkt.ipProto p =? PG_IPPROTO_TCP then
       pktgen_ipv6_ctor (pktgen_tcp_hdr_ctor p l3_hdr PG_ETHER_TYPE_IPv6) l3_hdr
     else if Pkt.ipProto p =? PG_IPPROTO_UDP then
       pktgen_ipv6_ctor (pktgen_udp_hdr_ctor p l3_hdr PG_ETHER_TYPE_IPv6) l3_hdr
     else p, ident)
  else if Pkt.ethType p =? PG_ETHER_TYPE_ARP then (arp_ctor p l3_hdr, ident)
  else (p, ident).

Definition pktgen_packet_ctor (w : world) (seq_idx type : Z) : world :=
  let '(p, ident) := ctor_pkt (info w) (Pg.ident (g w)) (get_pkt w seq_idx) type in
  set_pkt seq_idx p (w <| g ::= λ x, x <| Pg.ident := ident |> |>).

(** ** Frames *)

Lemma ld16_htons_eq m a v : ntohs (ld16 (st16 m a (htons v)) a) = u16 v.
Proof.
  rewrite ld16_st16_eq, (wrap_small 16) by apply bswap16_range. apply bswap16_involutive.
Qed.

Lemma ld16_htons_val v : ntohs (u16 (htons v)) = u16 v.
Proof. rewrite (wrap_small 16) by apply bswap16_range. apply bswap16_involutive. Qed.

Lemma ld32_htonl_val v : ntohl (u32 (htonl v)) = u32 v.
Proof. rewrite (wrap_small 32) by apply bswap32_range. apply bswap32_involutive. Qed.

Lemma ld8_memset_ne m a v n b : b < a ∨ a + n ≤ b → ld8 (memset m a v n) b = ld8 m b.
Proof. intros H. rewrite ld8_memset. range_cases; done || lia. Qed.

(** What [pktgen_ipv4_ctor] leaves in the header, and that it touches nothing else. *)
Record ipv4_fields (m : mem) (p : pkt_seq_t) (ip ident : Z) : Prop := {
  if_version : ld8 m ip = 0x45;
  if_tos : ld8 m (ip + 1) = u8 (Pkt.tos p);
  if_total : ntohs (ld16 m (ip + 2)) = u16 (Pkt.pktSize p - Pkt.ether_hdr_size p);
  if_ident : ntohs (ld16 m (ip + 4)) = ident;
  if_frag : ld16 m (ip + 6) = 0;
  if_ttl : ld8 m (ip + 8) = u8 (Pkt.ttl p);
  if_proto : ld8 m (ip + 9) = u8 (Pkt.ipProto p);
  if_src : ntohl (ld32 m (ip + 12)) = u32 (Pkt.ip_src_addr p);
  if_dst : ntohl (ld32 m (ip + 16)) = u32 (Pkt.ip_dst_addr p);
  if_cksum : rte_raw_cksum m ip sizeof_ipv4_hdr = 0xffff }.

Lemma ipv4_ctor_fields p ip ident :
  let '(p', ident') := pktgen_ipv4_ctor p ip ident in
  ident' = u16 (ident + 27) ∧ ipv4_fields (Pkt.hdr p') p ip ident'.
Proof.
  unfold pktgen_ipv4_ctor. split; [done|]. cbn [Pkt.hdr upd]. unfold sizeof_ipv4_hdr.
  split; try (mem_simpl; rewrite ?ld16_htons_val, ?ld32_htonl_val, ?wrap_wrap; done).
  all: apply ipv4_cksum_ones.
Qed.

Lemma ipv4_ctor_frame p ip ident b :
  b < ip ∨ ip + 20 ≤ b →
  ld8 (Pkt.hdr (fst (pktgen_ipv4_ctor p ip ident))) b = ld8 (Pkt.hdr p) b.
Proof.
  intros Hb. unfold pktgen_ipv4_ctor. cbn [fst Pkt.hdr upd]. unfold sizeof_ipv4_hdr.
  mem_simpl. apply ld8_memset_ne. lia.
Qed.

(** ** TCP and UDP over IPv4: the segment a receiver accepts *)

(** The segment at [l4] and the pseudo header of the IPv4 header at [ip] sum to
    a multiple of 65535. *)
Definition l4_valid (m : mem) (ip l4 : Z) : Prop :=
  let len := ntohs (ld16 m (ip + 2)) - sizeof_ipv4_hdr in
  ∃ k, sum16 m l4 len +
       sum16 (ipv4_psd_header (ld32 m (ip + 12)) (ld32 m (ip + 16)) (ld8 m (ip + 9)) (htons len))
             0 12 = 65535 * k.

Lemma sumw_ext k m m' p :
  (∀ b, p ≤ b < p + 2 * Z.of_nat k → ld8 m b = ld8 m' b) → sumw k m p = sumw k m' p.
Proof.
  revert p. induction k as [|k IH]; intros p H; [done|]. cbn [sumw].
  rewrite (IH (p + 2)) by (intros b Hb; apply H; lia).
  rewrite !ld16_bytes, !H by lia. done.
Qed.

Lemma sum16_ext m m' p len :
  0 ≤ len → (∀ b, p ≤ b < p + len → ld8 m b = ld8 m' b) → sum16 m p len = sum16 m' p len.
Proof.
  intros Hl H. unfold sum16. assert (2 * (len / 2) ≤ len) by (apply Z.mul_div_le; lia).
  assert (0 ≤ len / 2) by (apply Z.div_pos; lia).
  rewrite (sumw_ext _ m m') by (intros b Hb; apply H; lia).
  destruct (Z.odd len) eqn:E; [|done]. rewrite H; [done|].
  destruct (Z.eq_dec len 0); [by subst|lia].
Qed.

Lemma l4_valid_ext m m' ip l4 :
  ld16 m (ip + 2) = ld16 m' (ip + 2) → ld32 m (ip + 12) = ld32 m' (ip + 12) →
  ld32 m (ip + 16) = ld32 m' (ip + 16) → ld8 m (ip + 9) = ld8 m' (ip + 9) →
  sizeof_ipv4_hdr ≤ ntohs (ld16 m (ip + 2)) →
  (∀ b, l4 ≤ b → ld8 m b = ld8 m' b) → l4_valid m ip l4 → l4_valid m' ip l4.
Proof.
  intros H2 H12 H16 H9 Hge Hb. unfold l4_valid. rewrite <-H2, <-H12, <-H16, <-H9.
  intros [k Hk]. exists k. rewrite <-Hk. f_equal. symmetry. apply sum16_ext; [lia|].
  intros b ?. apply Hb. lia.
Qed.

(** What the L4 constructors put in the IPv4 header for their checksum. *)
Record l4_pseudo (m : mem) (p : pkt_seq_t) (ip : Z) : Prop := {
  lp_total : ld16 m (ip + 2) = htons (u16 (Pkt.pktSize p - Pkt.ether_hdr_size p));
  lp_proto : ld8 m (ip + 9) = u8 (Pkt.ipProto p);
  lp_src : ld32 m (ip + 12) = htonl (Pkt.ip_src_addr p);
  lp_dst : ld32 m (ip + 16) = htonl (Pkt.ip_dst_addr p) }.

Ltac word_vals :=
  rewrite ?(wrap_small 16 (bswap16 _)) by apply bswap16_range;
  rewrite ?(wrap_small 32 (bswap32 _)) by apply bswap32_range.

Ltac pseudo_fields := split; mem_simpl; word_vals; done.

Lemma l4_ipv4_fields_pseudo m p ip : l4_pseudo (l4_ipv4_fields p ip m) p ip.
Proof. unfold l4_ipv4_fields. pseudo_fields. Qed.

Lemma l4_pseudo_frame m m' p ip :
  (∀ b, b < ip + 20 → ld8 m' b = ld8 m b) → l4_pseudo m p ip → l4_pseudo m' p ip.
Proof.
  intros H [H2 H9 H12 H16].
  split; [rewrite <-H2|rewrite <-H9|rewrite <-H12|rewrite <-H16];
    first [apply load_ext; intros b Hb; apply H; lia|apply H; lia].
Qed.

Lemma ipv4_ctor_pseudo p ip ident : l4_pseudo (Pkt.hdr (fst (pktgen_ipv4_ctor p ip ident))) p ip.
Proof. unfold pktgen_ipv4_ctor, sizeof_ipv4_hdr. cbn [fst Pkt.hdr upd]. pseudo_fields. Qed.

(** Both leave the same pseudo header, and the IPv4 constructor keeps the segment. *)
Lemma l4_valid_ipv4_ctor p ip ident l4 :
  ip + 20 ≤ l4 → 20 ≤ u16 (Pkt.pktSize p - Pkt.ether_hdr_size p) →
  l4_pseudo (Pkt.hdr p) p ip → l4_valid (Pkt.hdr p) ip l4 →
  l4_valid (Pkt.hdr (fst (pktgen_ipv4_ctor p ip ident))) ip l4.
Proof.
  intros Hl Hlen [H2 H9 H12 H16].
  destruct (ipv4_ctor_pseudo p ip ident) as [E2 E9 E12 E16].
  apply l4_valid_ext; rewrite ?E2, ?E9, ?E12, ?E16; try done.
  - rewrite H2, bswap16_involutive, wrap_wrap. done.
  - intros b Hb. symmetry. apply ipv4_ctor_frame. lia.
Qed.

(** The checksum as the constructors store it, at byte [2 * j] of the segment. *)
Lemma l4_store_valid m p ip l4 j :
  l4_pseudo m p ip → ip + 20 ≤ l4 → 0 ≤ j → ld16 m (l4 + 2 * j) = 0 →
  2 * j + 22 ≤ u16 (Pkt.pktSize p - Pkt.ether_hdr_size p) →
  let ck := rte_ipv4_udptcp_cksum m ip l4 in
  let m1 := st16 m (l4 + 2 * j) ck in
  1 ≤ ck ≤ 65535 ∧ l4_pseudo m1 p ip ∧ l4_valid m1 ip l4.
Proof.
  intros Hp Hl Hj H0 Hlen ck m1.
  assert (ntohs (ld16 m (ip + 2)) = u16 (Pkt.pktSize p - Pkt.ether_hdr_size p)) as Et.
  { destruct Hp as [-> _ _ _]. rewrite bswap16_involutive. apply wrap_wrap. }
  pose proof (udptcp_store_valid m ip l4 j) as T. cbn zeta in T. rewrite Et in T.
  unfold sizeof_ipv4_hdr in T. fold ck m1 in T.
  destruct (Z.ltb_spec (u16 (Pkt.pktSize p - Pkt.ether_hdr_size p)) 20); [lia|].
  destruct T as [Hck HT]; [lia..|]. split; [done|].
  assert (l4_pseudo m1 p ip) as Hp1.
  { apply l4_pseudo_frame with m; [|done]. intros b Hb. apply ld8_store_ne. lia. }
  split; [done|]. unfold l4_valid, sizeof_ipv4_hdr.
  destruct Hp as [P2 _ _ _], Hp1 as [-> _ _ _]. by rewrite <-P2, Et.
Qed.

Definition l4_ports (m : mem) (p : pkt_seq_t) (l4 : Z) : Prop :=
  ntohs (ld16 m l4) = u16 (Pkt.sport p) ∧ ntohs (ld16 m (l4 + 2)) = u16 (Pkt.dport p).

(** A TCP header: twenty bytes, the ACK flag alone. *)
Definition tcp_layout (m : mem) (p : pkt_seq_t) (tcp : Z) : Prop :=
  l4_ports m p tcp ∧ ld8 m (tcp + 12) = 0x50 ∧ ld8 m (tcp + 13) = ACK_FLAG ∧
  ntohs (ld16 m (tcp + 14)) = DEFAULT_WND_SIZE.

Lemma tcp_ctor_valid p ip :
  40 ≤ u16 (Pkt.pktSize p - Pkt.ether_hdr_size p) →
  let m := Pkt.hdr (pktgen_tcp_hdr_ctor p ip PG_ETHER_TYPE_IPv4) in
  l4_pseudo m p ip ∧ l4_valid m ip (ip + 20) ∧ tcp_layout m p (ip + 20).
Proof.
  intros Hlen. unfold pktgen_tcp_hdr_ctor. rewrite Z.eqb_refl. cbn [Pkt.hdr upd].
  unfold sizeof_ipv4_hdr. set (m0 := tcp_fields _ _ _).
  assert (l4_pseudo m0 p ip) as Hp.
  { apply l4_pseudo_frame with (l4_ipv4_fields p ip (Pkt.hdr p)).
    - intros b Hb. unfold m0, tcp_fields. by mem_simpl.
    - apply l4_ipv4_fields_pseudo. }
  pose proof (l4_store_valid m0 p ip (ip + 20) 8 Hp) as T. change (2 * 8) with 16 in T.
  destruct T as (_ & H1 & H2); [lia|lia|unfold m0, tcp_fields; by mem_simpl|lia|].
  split_and!; [done..|]. unfold tcp_layout, l4_ports, m0, tcp_fields.
  rewrite Z.shiftl_mul_pow2 by lia. mem_simpl. rewrite !ld16_htons_val. done.
Qed.

Definition udp_layout (m : mem) (p : pkt_seq_t) (udp : Z) : Prop :=
  l4_ports m p udp ∧
  ntohs (ld16 m (udp + 4)) = u16 (Pkt.pktSize p - (Pkt.ether_hdr_size p + 20)) ∧
  1 ≤ ld16 m (udp + 6).

Lemma udp_ctor_valid p ip :
  28 ≤ u16 (Pkt.pktSize p - Pkt.ether_hdr_size p) →
  let m := Pkt.hdr (pktgen_udp_hdr_ctor p ip PG_ETHER_TYPE_IPv4) in
  l4_pseudo m p ip ∧ l4_valid m ip (ip + 20) ∧ udp_layout m p (ip + 20).
Proof.
  intros Hlen. unfold pktgen_udp_hdr_ctor. rewrite Z.eqb_refl. cbn [Pkt.hdr upd].
  unfold sizeof_ipv4_hdr, sizeof_udp_hdr. set (m0 := st16 _ (ip + 20 + 6) 0).
  assert (l4_pseudo m0 p ip ∧ l4_ports m0 p (ip + 20) ∧
          ntohs (ld16 m0 (ip + 20 + 4)) = u16 (Pkt.pktSize p - (Pkt.ether_hdr_size p + 20)))
    as (Hp & Hports & Ht).
  { unfold m0, vxlan_fields. split_and!.
    - apply l4_pseudo_frame with (l4_ipv4_fields p ip (Pkt.hdr p)).
      + intros b Hb. destruct (Pkt.dport p =? VXLAN_PORT_ID); unfold udp_ports; by mem_simpl.
      + apply l4_ipv4_fields_pseudo.
    - unfold l4_ports. destruct (Pkt.dport p =? VXLAN_PORT_ID); unfold udp_ports; mem_simpl;
        by rewrite !ld16_htons_val.
    - destruct (Pkt.dport p =? VXLAN_PORT_ID); unfold udp_ports; mem_simpl;
        by rewrite !ld16_htons_val, wrap_wrap. }
  pose proof (l4_store_valid m0 p ip (ip + 20) 3 Hp) as T. change (2 * 3) with 6 in T.
  destruct T as (Hck & H1 & H2); [lia|lia|unfold m0; by mem_simpl|lia|].
  set (ck := rte_ipv4_udptcp_cksum _ _ _) in *. unfold udp_store_cksum.
  rewrite ld16_st16_eq, wrap_small by word_lia. destruct (Z.eqb_spec ck 0); [lia|].
  split_and!; [done..|]. unfold udp_layout, l4_ports. mem_simpl.
  rewrite (wrap_small 16 ck) by word_lia. destruct Hports. split_and!; [done..|lia].
Qed.

(** ** The Ethernet header *)

Definition ether_len (flags : Z) : Z :=
  if tst_bits flags SEND_VLAN_ID then 18
  else if tst_bits flags SEND_MPLS_LABEL then 18
  else if tst_bits flags SEND_Q_IN_Q_IDS then 22 else 14.

Definition be16 (m : mem) (a : Z) : Z := ntohs (ld16 m a).

(** The header a frame starts with, per encapsulation mode. *)
Definition ether_layout (flags : Z) (p : pkt_seq_t) (m : mem) : Prop :=
  inet_mtoh64 m 0 = Pkt.eth_dst_addr p ∧ inet_mtoh64 m 6 = Pkt.eth_src_addr p ∧
  if tst_bits flags SEND_VLAN_ID then
    be16 m 12 = PG_ETHER_TYPE_VLAN ∧
    be16 m 14 = u16 (Z.lor (Pkt.vlanid p) (Z.shiftl (Pkt.cos p) 13)) ∧
    be16 m 16 = u16 (Pkt.ethType p)
  else if tst_bits flags SEND_MPLS_LABEL then
    be16 m 12 = ETHER_TYPE_MPLS_UNICAST ∧
    ntohl (ld32 m 14) = u32 (Z.lor (Pkt.mpls_entry p) 256)
  else if tst_bits flags SEND_Q_IN_Q_IDS then
    be16 m 12 = ETHER_TYPE_Q_IN_Q ∧ be16 m 14 = u16 (Pkt.qinq_outerid p) ∧
    be16 m 16 = PG_ETHER_TYPE_VLAN ∧ be16 m 18 = u16 (Pkt.qinq_innerid p) ∧
    be16 m 20 = u16 (Pkt.ethType p)
  else be16 m 12 = u16 (Pkt.ethType p).

Lemma ether_layout_frame flags p m m' :
  (∀ b, b < ether_len flags → ld8 m' b = ld8 m b) →
  ether_layout flags p m → ether_layout flags p m'.
Proof.
  unfold ether_layout, ether_len, be16. intros H (Hd & Hs & Ht).
  assert (∀ n a, a + Z.of_nat n ≤ ether_len flags → load n m' a = load n m a) as L.
  { intros n a Ha. apply load_ext. intros b Hb. apply H. unfold ether_len in Ha.
    repeat case_match; lia. }
  unfold ether_len in L. rewrite (mtoh64_ext m' m), (mtoh64_ext m' m 6), Hd, Hs.
  2,3: intros b Hb; apply H; repeat case_match; lia.
  split_and!; [done..|]. revert L Ht.
  destruct (tst_bits flags SEND_VLAN_ID), (tst_bits flags SEND_MPLS_LABEL),
    (tst_bits flags SEND_Q_IN_Q_IDS); intros L; by rewrite !L by lia.
Qed.

(** The MACs are written first, and the types and tags after them. *)
Lemma mac_pair_frame m m' src dst :
  0 ≤ src < 2 ^ 48 → 0 ≤ dst < 2 ^ 48 →
  (∀ b, b < 12 → ld8 m' b = ld8 (inet_h64tom (inet_h64tom m src 6) dst 0) b) →
  inet_mtoh64 m' 0 = dst ∧ inet_mtoh64 m' 6 = src.
Proof.
  intros Hs Hd H. split.
  - rewrite (mtoh64_ext _ (inet_h64tom (inet_h64tom m src 6) dst 0)) by (intros; apply H; lia).
    by apply mtoh64_h64tom.
  - rewrite (mtoh64_ext _ (inet_h64tom m src 6)); [by apply mtoh64_h64tom|].
    intros b Hb. rewrite H by lia. apply h64tom_frame. lia.
Qed.

Lemma ether_ctor_spec flags p :
  0 ≤ Pkt.eth_src_addr p < 2 ^ 48 → 0 ≤ Pkt.eth_dst_addr p < 2 ^ 48 →
  let '(p', l3) := pktgen_ether_hdr_ctor flags p 0 in
  l3 = ether_len flags ∧
  p' = p <| Pkt.hdr := Pkt.hdr p' |> <| Pkt.ether_hdr_size := ether_len flags |> ∧
  ether_layout flags p (Pkt.hdr p') ∧
  ∀ b, ether_len flags ≤ b → ld8 (Pkt.hdr p') b = ld8 (Pkt.hdr p) b.
Proof.
  intros Hs Hd. unfold pktgen_ether_hdr_ctor, ether_layout, ether_len, be16.
  unfold sizeof_ether_hdr, sizeof_vlan_hdr.
  destruct (tst_bits flags SEND_VLAN_ID); [|destruct (tst_bits flags SEND_MPLS_LABEL);
    [|destruct (tst_bits flags SEND_Q_IN_Q_IDS)]]; cbn [Pkt.hdr upd Pkt.eth_src_addr
    Pkt.eth_dst_addr Pkt.vlanid Pkt.cos Pkt.ethType Pkt.mpls_entry Pkt.qinq_outerid
    Pkt.qinq_innerid]; rewrite Z.add_0_l.
  all: split; [done|]; split; [done|]; split;
    [|intros b Hb; mem_simpl; rewrite !h64tom_frame by lia; done].
  all: match goal with |- ?A ∧ ?B ∧ ?C => cut ((A ∧ B) ∧ C); [tauto|] end.
  all: split; [apply mac_pair_frame with (Pkt.hdr p); try done;
               intros b Hb; mem_simpl; done|].
  all: change (0 + 12) with 12; change (14 + 2) with 16; change (14 + 4) with 18;
    change (14 + 6) with 20.
  all: mem_simpl; rewrite ?ld16_htons_val, ?ld32_htonl_val, ?wrap_wrap; done.
Qed.

(** ** The whole packet *)

Definition l4_frame_lo (f : pkt_seq_t → pkt_seq_t) (l3 : Z) : Prop :=
  ∀ p b, b < l3 → ld8 (Pkt.hdr (f p)) b = ld8 (Pkt.hdr p) b.

Lemma tcp_frame_lo l3 : l4_frame_lo (λ p, pktgen_tcp_hdr_ctor p l3 PG_ETHER_TYPE_IPv4) l3.
Proof.
  intros p b Hb. unfold pktgen_tcp_hdr_ctor. rewrite Z.eqb_refl. cbn [Pkt.hdr upd].
  unfold sizeof_ipv4_hdr, tcp_fields, l4_ipv4_fields. by mem_simpl.
Qed.

Lemma udp_frame_lo l3 : l4_frame_lo (λ p, pktgen_udp_hdr_ctor p l3 PG_ETHER_TYPE_IPv4) l3.
Proof.
  intros p b Hb. unfold pktgen_udp_hdr_ctor. rewrite Z.eqb_refl. cbn [Pkt.hdr upd].
  unfold udp_store_cksum, sizeof_ipv4_hdr, sizeof_udp_hdr, udp_ports, l4_ipv4_fields,
    vxlan_fields.
  cbn zeta. destruct (Pkt.dport p =? VXLAN_PORT_ID), (_ =? 0); by mem_simpl.
Qed.

Lemma on_hdr_keeps p f : on_hdr p f = p <| Pkt.hdr := Pkt.hdr (on_hdr p f) |>.
Proof. reflexivity. Qed.

Lemma tcp_ctor_keeps p l3 :
  pktgen_tcp_hdr_ctor p l3 PG_ETHER_TYPE_IPv4 =
  p <| Pkt.hdr := Pkt.hdr (pktgen_tcp_hdr_ctor p l3 PG_ETHER_TYPE_IPv4) |>.
Proof. unfold pktgen_tcp_hdr_ctor. rewrite Z.eqb_refl. apply on_hdr_keeps. Qed.

Lemma udp_ctor_keeps p l3 :
  pktgen_udp_hdr_ctor p l3 PG_ETHER_TYPE_IPv4 =
  p <| Pkt.hdr := Pkt.hdr (pktgen_udp_hdr_ctor p l3 PG_ETHER_TYPE_IPv4) |>.
Proof. unfold pktgen_udp_hdr_ctor. rewrite Z.eqb_refl. apply on_hdr_keeps. Qed.

(** What the receiver of a TCP or UDP packet finds in it. *)
Record valid_ipv4_packet (flags : Z) (p : pkt_seq_t) (ident : Z) : Prop := {
  vp_len : Pkt.ether_hdr_size p = ether_len flags;
  vp_ether : ether_layout flags p (Pkt.hdr p);
  vp_ip : ipv4_fields (Pkt.hdr p) p (ether_len flags) ident;
  vp_l4 : l4_valid (Pkt.hdr p) (ether_len flags) (ether_len flags + 20);
  vp_layout :
    if Pkt.ipProto p =? PG_IPPROTO_TCP then tcp_layout (Pkt.hdr p) p (ether_len flags + 20)
    else udp_layout (Pkt.hdr p) p (ether_len flags + 20) }.

Lemma tcp_layout_ext m m' p l4 :
  (∀ b, l4 ≤ b → ld8 m' b = ld8 m b) → tcp_layout m p l4 → tcp_layout m' p l4.
Proof.
  intros H. assert (∀ n a, l4 ≤ a → load n m' a = load n m a) as L.
  { intros n a Ha. apply load_ext. intros b Hb. apply H. lia. }
  unfold tcp_layout, l4_ports. by rewrite !L, !H by lia.
Qed.

Lemma udp_layout_ext m m' p l4 :
  (∀ b, l4 ≤ b → ld8 m' b = ld8 m b) → udp_layout m p l4 → udp_layout m' p l4.
Proof.
  intros H. assert (∀ n a, l4 ≤ a → load n m' a = load n m a) as L.
  { intros n a Ha. apply load_ext. intros b Hb. apply H. lia. }
  unfold udp_layout, l4_ports. by rewrite !L by lia.
Qed.

Lemma ipv4_fields_hdr m p h h' ip ident :
  ipv4_fields m (p <| Pkt.hdr := h |>) ip ident → ipv4_fields m (p <| Pkt.hdr := h' |>) ip ident.
Proof. intros []. by split. Qed.

Lemma l4_pseudo_hdr m p h ip :
  l4_pseudo m p ip → l4_pseudo m (p <| Pkt.hdr := h |>) ip.
Proof. intros []. by split. Qed.

(** The IPv4 constructor run after an L4 constructor [q] came from. *)
Lemma ipv4_after_l4 flags p q ident :
  q = p <| Pkt.hdr := Pkt.hdr q |> →
  Pkt.ether_hdr_size p = ether_len flags → ether_len flags + 40 ≤ Pkt.pktSize p < 65536 →
  ether_layout flags p (Pkt.hdr p) →
  (∀ b, b < ether_len flags → ld8 (Pkt.hdr q) b = ld8 (Pkt.hdr p) b) →
  l4_pseudo (Pkt.hdr q) p (ether_len flags) →
  l4_valid (Pkt.hdr q) (ether_len flags) (ether_len flags + 20) →
  (if Pkt.ipProto p =? PG_IPPROTO_TCP then tcp_layout (Pkt.hdr q) p (ether_len flags + 20)
   else udp_layout (Pkt.hdr q) p (ether_len flags + 20)) →
  let '(p', ident') := pktgen_ipv4_ctor q (ether_len flags) ident in
  ident' = u16 (ident + 27) ∧ p' = p <| Pkt.hdr := Pkt.hdr p' |> ∧
  valid_ipv4_packet flags p' ident'.
Proof.
  intros Eq Hlen Hsz Het Hlo Hps Hv Hlay. set (L := ether_len flags) in *.
  assert (14 ≤ L) by (unfold L, ether_len; repeat case_match; lia).
  assert (u16 (Pkt.pktSize p - Pkt.ether_hdr_size p) = Pkt.pktSize p - L) as Hw
    by (rewrite Hlen; apply wrap_small; word_lia).
  pose proof (ipv4_ctor_fields q L ident) as F.
  pose proof (ipv4_ctor_frame q L ident) as Fr.
  pose proof (l4_valid_ipv4_ctor q L ident (L + 20)) as V.
  assert (fst (pktgen_ipv4_ctor q L ident) =
          p <| Pkt.hdr := Pkt.hdr (fst (pktgen_ipv4_ctor q L ident)) |>) as Ep
    by (rewrite Eq; reflexivity).
  destruct (pktgen_ipv4_ctor q L ident) as [p' id']. cbn [fst] in *. destruct F as [Hid F].
  split; [done|]. split; [exact Ep|]. rewrite Eq in F, V.
  assert (ipv4_fields (Pkt.hdr p') p' L id') as F'.
  { remember (Pkt.hdr p') as m eqn:Em. rewrite Ep. eapply ipv4_fields_hdr. exact F. }
  split.
  - by rewrite Ep.
  - assert (ether_layout flags p (Pkt.hdr p')) as E by
      (apply ether_layout_frame with (Pkt.hdr p); [intros b Hb; rewrite Fr, Hlo by lia|]; done).
    rewrite Ep. exact E.
  - done.
  - apply V; [lia| |by apply l4_pseudo_hdr|exact Hv].
    change (20 ≤ u16 (Pkt.pktSize p - Pkt.ether_hdr_size p)). rewrite Hw. lia.
  - assert (if Pkt.ipProto p =? PG_IPPROTO_TCP then tcp_layout (Pkt.hdr p') p (L + 20)
            else udp_layout (Pkt.hdr p') p (L + 20)) as H'.
    { assert (∀ b, L + 20 ≤ b → ld8 (Pkt.hdr p') b = ld8 (Pkt.hdr q) b) as Fr'
        by (intros b Hb; apply Fr; lia).
      destruct (_ =? PG_IPPROTO_TCP);
        [by apply (tcp_layout_ext (Pkt.hdr q))|by apply (udp_layout_ext (Pkt.hdr q))]. }
    rewrite Ep. exact H'.
Qed.

Lemma ipv4_after_tcp flags p ident :
  Pkt.ether_hdr_size p = ether_len flags → ether_len flags + 40 ≤ Pkt.pktSize p < 65536 →
  ether_layout flags p (Pkt.hdr p) → Pkt.ipProto p = PG_IPPROTO_TCP →
  let '(p', ident') :=
    pktgen_ipv4_ctor (pktgen_tcp_hdr_ctor p (ether_len flags) PG_ETHER_TYPE_IPv4)
      (ether_len flags) ident in
  ident' = u16 (ident + 27) ∧ p' = p <| Pkt.hdr := Pkt.hdr p' |> ∧
  valid_ipv4_packet flags p' ident'.
Proof.
  intros Hlen Hsz Het Hp. assert (14 ≤ ether_len flags)
    by (unfold ether_len; repeat case_match; lia).
  destruct (tcp_ctor_valid p (ether_len flags)) as (H1 & H2 & H3);
    [rewrite Hlen, wrap_small by word_lia; lia|].
  apply ipv4_after_l4; [apply tcp_ctor_keeps|exact Hlen|exact Hsz|exact Het|apply tcp_frame_lo
    |exact H1|exact H2|rewrite Hp; exact H3].
Qed.

Lemma ipv4_after_udp flags p ident :
  Pkt.ether_hdr_size p = ether_len flags → ether_len flags + 40 ≤ Pkt.pktSize p < 65536 →
  ether_layout flags p (Pkt.hdr p) → Pkt.ipProto p = PG_IPPROTO_UDP →
  let '(p', ident') :=
    pktgen_ipv4_ctor (pktgen_udp_hdr_ctor p (ether_len flags) PG_ETHER_TYPE_IPv4)
      (ether_len flags) ident in
  ident' = u16 (ident + 27) ∧ p' = p <| Pkt.hdr := Pkt.hdr p' |> ∧
  valid_ipv4_packet flags p' ident'.
Proof.
  intros Hlen Hsz Het Hp. assert (14 ≤ ether_len flags)
    by (unfold ether_len; repeat case_match; lia).
  destruct (udp_ctor_valid p (ether_len flags)) as (H1 & H2 & H3);
    [rewrite Hlen, wrap_small by word_lia; lia|].
  apply ipv4_after_l4; [apply udp_ctor_keeps|exact Hlen|exact Hsz|exact Het|apply udp_frame_lo
    |exact H1|exact H2|rewrite Hp; exact H3].
Qed.

(** A UDP packet in VXLAN mode goes to the VXLAN port. *)
Definition vxlan_dport (flags : Z) (p : pkt_seq_t) : pkt_seq_t :=
  if tst_bits flags SEND_VXLAN_PACKETS && (Pkt.ipProto p =? PG_IPPROTO_UDP)
  then p <| Pkt.dport := VXLAN_PORT_ID |> else p.

Lemma ipv4_payload_valid flags p ident type :
  Pkt.ether_hdr_size p = ether_len flags → ether_len flags + 40 ≤ Pkt.pktSize p < 65536 →
  ether_layout flags p (Pkt.hdr p) →
  Pkt.ipProto p = PG_IPPROTO_TCP ∨ Pkt.ipProto p = PG_IPPROTO_UDP →
  Pkt.dport (vxlan_dport flags p) ≠ PG_IPPROTO_L4_GTPU_PORT →
  let '(p', ident') := ipv4_payload_ctor flags p (ether_len flags) ident type in
  ident' = u16 (ident + 27) ∧ p' = vxlan_dport flags p <| Pkt.hdr := Pkt.hdr p' |> ∧
  valid_ipv4_packet flags p' ident'.
Proof.
  intros Hlen Hsz Het Hpr Hdp. apply Z.eqb_neq in Hdp. revert Hdp.
  unfold ipv4_payload_ctor, vxlan_dport. cbn zeta.
  destruct Hpr as [Hpr|Hpr]; rewrite Hpr.
  - change (PG_IPPROTO_TCP =? PG_IPPROTO_UDP) with false.
    change (PG_IPPROTO_TCP =? PG_IPPROTO_TCP) with true. rewrite andb_false_r. intros ->.
    by apply ipv4_after_tcp.
  - change (PG_IPPROTO_UDP =? PG_IPPROTO_TCP) with false.
    change (PG_IPPROTO_UDP =? PG_IPPROTO_UDP) with true. rewrite andb_true_r.
    destruct (tst_bits flags SEND_VXLAN_PACKETS).
    + intros _. by apply ipv4_after_udp.
    + intros ->. by apply ipv4_after_udp.
Qed.

(** C6. [pktgen_packet_ctor] on an IPv4 packet with TCP or UDP, outside the GRE
    and GTP-U modes and with room for the headers: whichever of the plain,
    802.1q, MPLS and Q-in-Q encapsulations the port flags select, the packet
    starts with the Ethernet header of that mode, the IPv4 header behind it
    carries the configured fields, the next identification and a checksum that
    verifies, and the TCP or UDP segment carries the configured ports and a
    checksum that verifies with its pseudo header. *)
Theorem packet_ctor_ipv4 (i : port_info_t) (ident : Z) (p : pkt_seq_t) (type : Z) :
  let flags := Info.port_flags i in
  let p0 := vxlan_dport flags p in
  0 ≤ Pkt.eth_src_addr p < 2 ^ 48 → 0 ≤ Pkt.eth_dst_addr p < 2 ^ 48 →
  tst_bits flags SEND_GRE_IPv4_HEADER = false → tst_bits flags SEND_GRE_ETHER_HEADER = false →
  Pkt.ethType p = PG_ETHER_TYPE_IPv4 →
  Pkt.ipProto p = PG_IPPROTO_TCP ∨ Pkt.ipProto p = PG_IPPROTO_UDP →
  Pkt.dport p0 ≠ PG_IPPROTO_L4_GTPU_PORT →
  ether_len flags + 40 ≤ Pkt.pktSize p < 65536 →
  let '(p', ident') := ctor_pkt i ident p type in
  ident' = u16 (ident + 27) ∧
  p' = p0 <| Pkt.ether_hdr_size := ether_len flags |> <| Pkt.hdr := Pkt.hdr p' |> ∧
  valid_ipv4_packet flags p' ident'.
Proof.
  intros flags p0 Hs Hd Hg1 Hg2 Het Hpr Hdp Hsz. unfold ctor_pkt. fold flags.
  rewrite Hg1, Hg2. set (p1 := on_hdr p _).
  pose proof (ether_ctor_spec flags p1 Hs Hd) as E.
  destruct (pktgen_ether_hdr_ctor flags p1 0) as [p2 l3].
  destruct E as (-> & Ep2 & Hl2 & _). set (h := Pkt.hdr p2) in *.
  pose proof (ipv4_payload_valid flags p2 ident type) as V.
  assert (vxlan_dport flags p2 = p0 <| Pkt.ether_hdr_size := ether_len flags |> <| Pkt.hdr := h |>)
    as Ev by (rewrite Ep2; unfold p0, vxlan_dport; cbn [Pkt.ipProto upd];
              destruct (_ && _); reflexivity).
  rewrite Ev in V.
  assert (Pkt.ethType p2 = PG_ETHER_TYPE_IPv4) as -> by (rewrite Ep2; exact Het).
  rewrite Z.eqb_refl. apply V; clear V; rewrite ?Ep2; done.
Qed.

(** A VLAN-tagged UDP packet of port 2, 96 bytes without CRC. *)
Definition sample_pkt : pkt_seq_t :=
  Pkt.zero <| Pkt.eth_src_addr := 0x001122334455 |> <| Pkt.eth_dst_addr := 0x0a0b0c0d0e0f |>
    <| Pkt.ip_src_addr := 0xc0a80001 |> <| Pkt.ip_dst_addr := 0xc0a80101 |>
    <| Pkt.sport := 1234 |> <| Pkt.dport := 5678 |> <| Pkt.ethType := PG_ETHER_TYPE_IPv4 |>
    <| Pkt.ipProto := PG_IPPROTO_UDP |> <| Pkt.vlanid := 7 |> <| Pkt.cos := 3 |>
    <| Pkt.ttl := 4 |> <| Pkt.pktSize := 96 |>.

Lemma packet_ctor_ipv4_witness :
  let i := Info.zero <| Info.port_flags := SEND_VLAN_ID |> in
  valid_ipv4_packet SEND_VLAN_ID (fst (ctor_pkt i 5 sample_pkt (-1))) 32.
Proof.
  intros i. pose proof (packet_ctor_ipv4 i 5 sample_pkt (-1)) as T. cbn zeta in T.
  destruct (ctor_pkt i 5 sample_pkt (-1)) as [p' ident'].
  assert (ident' = u16 (5 + 27) ∧ valid_ipv4_packet SEND_VLAN_ID p' ident') as [-> H].
  { destruct T as (H1 & _ & H2); [vm_compute; split; congruence..|reflexivity|reflexivity
      |reflexivity|right; reflexivity|vm_compute; congruence|vm_compute; split; congruence|].
    split; [exact H1|exact H2]. }
  exact H.
Defined.

(** ** The overlays of the ICMP and ARP branches *)

(** The data an ICMP request carries and the source address of an ARP reply
    are written over other fields: [union icmp_data] overlays the ICMP header,
    so a timestamp or echo request goes out with type 0x34 and code 0x12, the
    identifier's bytes; and the ARP branch stores the sender's IP address over
    the sender's hardware address and leaves the sender IP field as it was. *)
Theorem icmp_arp_overlay (p : pkt_seq_t) (l3 type : Z) :
  type = -1 ∨ type = ICMP4_TIMESTAMP ∨ type = ICMP4_ECHO →
  let m := Pkt.hdr (icmp_ctor p l3 type) in
  let a := Pkt.hdr (arp_ctor p l3) in
  ld8 m (l3 + 28) = 0x34 ∧ ld8 m (l3 + 29) = 0x12 ∧
  ntohl (ld32 a (l3 + 8)) = u32 (Pkt.ip_src_addr p) ∧
  ld32 a (l3 + 14) = ld32 (Pkt.hdr p) (l3 + 14).
Proof.
  intros Ht m a.
  assert (ld8 m (l3 + 28 + 0) = 0x34 ∧ ld8 m (l3 + 28 + 1) = 0x12) as [H0 H1].
  { subst m. unfold icmp_ctor, sizeof_ipv4_hdr, sizeof_udp_hdr. cbn [Pkt.hdr upd]. cbn zeta.
    replace (l3 + 20 + 8) with (l3 + 28) by lia.
    assert (∀ m, ld8 (icmp_message type (l3 + 28) m) (l3 + 28 + 0) = 0x34 ∧
                 ld8 (icmp_message type (l3 + 28) m) (l3 + 28 + 1) = 0x12) as Hm.
    { intros m. unfold icmp_message.
      destruct Ht as [->|[->| ->]]; cbn -[Z.add]; mem_simpl;
        by rewrite !ld8_store_byte by lia. }
    destruct (_ =? 0); mem_simpl; apply Hm. }
  replace (l3 + 29) with (l3 + 28 + 1) by lia. rewrite Z.add_0_r in H0. split_and!; [done..| |].
  - subst a. unfold arp_ctor. cbn [Pkt.hdr upd]. mem_simpl.
    rewrite (load_ext 4 _ (st32 (inet_h64tom (Pkt.hdr p) (Pkt.eth_src_addr p) (l3 + 8))
                             (l3 + 8) (htonl (Pkt.ip_src_addr p)))).
    + by rewrite ld32_st32_eq, ld32_htonl_val.
    + intros b Hb. rewrite h64tom_frame by lia.
      replace b with (l3 + 8 + (b - (l3 + 8))) by lia. by rewrite !ld8_store_byte by lia.
  - apply load_ext. intros b Hb. subst a. unfold arp_ctor. cbn [Pkt.hdr upd]. mem_simpl.
    rewrite h64tom_frame by lia. mem_simpl. rewrite h64tom_frame by lia. by mem_simpl.
Qed.

Lemma icmp_arp_overlay_witness :
  ld8 (Pkt.hdr (icmp_ctor sample_pkt 18 ICMP4_ECHO)) 46 = 0x34 ∧
  ntohl (ld32 (Pkt.hdr (arp_ctor sample_pkt 14)) 22) = 0xc0a80001.
Proof.
  split.
  - apply (icmp_arp_overlay sample_pkt 18 ICMP4_ECHO). right. right. reflexivity.
  - apply (icmp_arp_overlay sample_pkt 14 (-1)). left. reflexivity.
Defined.

(** ** What the constructors keep

    Rebuilding a packet writes its memory, the length of its Ethernet header
    and, for VXLAN, its destination port. *)
Definition fixed (p : pkt_seq_t) : pkt_seq_t :=
  p <| Pkt.hdr := λ _, 0 |> <| Pkt.ether_hdr_size := 0 |> <| Pkt.dport := 0 |>.

Lemma fixed_on_hdr p f : fixed (on_hdr p f) = fixed p.
Proof. reflexivity. Qed.

Lemma ether_ctor_fixed f p e : fixed (fst (pktgen_ether_hdr_ctor f p e)) = fixed p.
Proof. unfold pktgen_ether_hdr_ctor. repeat case_match; reflexivity. Qed.

Lemma gre_ctor_fixed p a id : fixed (fst (fst (pktgen_gre_hdr_ctor p a id))) = fixed p.
Proof. unfold pktgen_gre_hdr_ctor. case_match. reflexivity. Qed.

Lemma gre_ether_ctor_fixed p a id :
  fixed (fst (fst (pktgen_gre_ether_hdr_ctor p a id))) = fixed p.
Proof. unfold pktgen_gre_ether_hdr_ctor. case_match. reflexivity. Qed.

Lemma tcp_ctor_fixed p h t : fixed (pktgen_tcp_hdr_ctor p h t) = fixed p.
Proof. unfold pktgen_tcp_hdr_ctor. case_match; apply fixed_on_hdr. Qed.

Lemma udp_ctor_fixed p h t : fixed (pktgen_udp_hdr_ctor p h t) = fixed p.
Proof. unfold pktgen_udp_hdr_ctor. case_match; apply fixed_on_hdr. Qed.

Lemma ipv4_ctor_fixed p h id : fixed (fst (pktgen_ipv4_ctor p h id)) = fixed p.
Proof. apply fixed_on_hdr. Qed.

Lemma ipv6_ctor_fixed p h : fixed (pktgen_ipv6_ctor p h) = fixed p.
Proof. apply fixed_on_hdr. Qed.

Lemma gtpu_ctor_fixed p h pr f s n x :
  fixed (pktgen_gtpu_hdr_ctor p h pr f s n x) = fixed p.
Proof. apply fixed_on_hdr. Qed.

Lemma icmp_ctor_fixed p h t : fixed (icmp_ctor p h t) = fixed p.
Proof. apply fixed_on_hdr. Qed.

Lemma arp_ctor_fixed p h : fixed (arp_ctor p h) = fixed p.
Proof. apply fixed_on_hdr. Qed.

Lemma payload_ctor_fixed f p h id t :
  fixed (fst (ipv4_payload_ctor f p h id t)) = fixed p.
Proof.
  unfold ipv4_payload_ctor. repeat case_match;
    rewrite ?ipv4_ctor_fixed, ?tcp_ctor_fixed, ?udp_ctor_fixed, ?gtpu_ctor_fixed, ?icmp_ctor_fixed;
    reflexivity.
Qed.

Lemma ctor_pkt_fixed i id p t : fixed (fst (ctor_pkt i id p t)) = fixed p.
Proof.
  unfold ctor_pkt. set (p1 := on_hdr p _).
  assert (fixed p1 = fixed p) as <- by apply fixed_on_hdr. generalize p1. clear p p1.
  intros p. set (st := if tst_bits _ SEND_GRE_IPv4_HEADER then _ else _).
  assert (fixed (fst (fst st)) = fixed p) as E.
  { unfold st. destruct (tst_bits _ SEND_GRE_IPv4_HEADER); [by rewrite gre_ctor_fixed|].
    destruct (tst_bits _ SEND_GRE_ETHER_HEADER); [by rewrite gre_ether_ctor_fixed|].
    cbn [fst]. by rewrite ether_ctor_fixed. }
  destruct st as [[p' l3] id']. cbn [fst] in E. rewrite <-E. clear E.
  destruct (Pkt.ethType p' =? _); [by rewrite payload_ctor_fixed|].
  repeat case_match; cbn [fst];
    rewrite ?ipv6_ctor_fixed, ?tcp_ctor_fixed, ?udp_ctor_fixed, ?arp_ctor_fixed; done.
Qed.

Lemma ctor_pkt_size i id p t : Pkt.pktSize (fst (ctor_pkt i id p t)) = Pkt.pktSize p.
Proof. exact (f_equal Pkt.pktSize (ctor_pkt_fixed i id p t)). Qed.

Lemma packet_ctor_slot w k t j :
  fixed (get_pkt (pktgen_packet_ctor w k t) j) = fixed (get_pkt w j).
Proof.
  unfold pktgen_packet_ctor. pose proof (ctor_pkt_fixed (info w) (Pg.ident (g w)) (get_pkt w k) t) as E.
  destruct (ctor_pkt _ _ _ _) as [p id]. cbn [fst] in E.
  change (fixed (set_at k p (Info.seq_pkt (info w)) j) = fixed (Info.seq_pkt (info w) j)).
  destruct (decide (j = k)) as [->|Hne]; [by rewrite set_at_eq|by rewrite set_at_ne].
Qed.
