(* ===== verification/Pacing.v ===== *)
(** * Pacing: how many cycles between bursts

    [pktgen_wire_size] and [pktgen_packet_rate] of [app/pktgen.c] and the video
    rate calculations of [app/pktgen-rate.c].  An operation the C code does not
    define (a division by zero, a null [pcap] pointer, signed overflow) has no
    result: these functions return [option], and the theorems say when they
    return one. *)
From Stdlib Require Import Floats.SpecFloat.
From S2P Require Import Prelude PortInfo.

(** ** [double] arithmetic: IEEE 754 binary64, round to nearest *)
Definition prec := 53.
Definition emax := 1024.
Definition sf_of_u64 (z : Z) : spec_float := binary_normalize prec emax z 0 false.
Definition sf_mul : spec_float → spec_float → spec_float := SFmul prec emax.
Definition sf_div : spec_float → spec_float → spec_float := SFdiv prec emax.

(** Truncation toward zero. *)
Definition sf_trunc (f : spec_float) : option Z :=
  match f with
  | S754_zero _ => Some 0
  | S754_finite s m e =>
      let a := if 0 <=? e then Z.pos m * 2 ^ e else Z.pos m / 2 ^ (- e) in
      Some (if s then - a else a)
  | _ => None
  end.

(** Conversion to [uint64_t] on x86_64: the C standard leaves values out of range
    undefined, the compiled code wraps small negative ones and gives
    0x8000000000000000 for the rest. *)
Definition sf_to_u64 (f : spec_float) : Z :=
  match sf_trunc f with
  | Some z => if (- 2 ^ 63 <=? z) && (z <? 2 ^ 64) then u64 z else 2 ^ 63
  | None => 2 ^ 63
  end.

(** ** app/pktgen.c *)

Definition Million := 1000000.

(** [for (i = 0; i < info->seqCnt; i++) size += ...] *)
Fixpoint seq_size (n : nat) (i : Z) (info : port_info_t) (size : Z) : Z :=
  match n with
  | O => size
  | S n => seq_size n (i + 1) info
             (u64 (size + (Pkt.pktSize (Info.seq_pkt info i) + PKT_OVERHEAD_SIZE)))
  end.

Definition pktgen_wire_size (info : port_info_t) : option Z :=
  if pktgen_tst_port_flags info SEND_PCAP_PKTS then
    p ← Info.pcap info; Some (u32 (Pcap.pkt_size p + PKT_OVERHEAD_SIZE))
  else if pktgen_tst_port_flags info SEND_RATE_PACKETS then
    Some (Pkt.pktSize (Info.seq_pkt info RATE_PKT) + PKT_OVERHEAD_SIZE)
  else if 0 <? Info.seqCnt info then
    let size := seq_size (Z.to_nat (Info.seqCnt info)) 0 info 0 in
    Some (size / Info.seqCnt info)
  else Some (Pkt.pktSize (Info.seq_pkt info SINGLE_PKT) + PKT_OVERHEAD_SIZE).

(** Integer division, which traps on zero. *)
Definition div_trap (a b : Z) : option Z := if b =? 0 then None else Some (a / b).

Definition pktgen_packet_rate (w : world) : option world :=
  let i := info w in
  wire ← pktgen_wire_size i;
  let wire_size := u64 (wire * 8) in
  let link := u64 (Info.link_speed i * Million) in
  lw ← div_trap link wire_size;
  let pps := sf_to_u64 (sf_div (sf_mul (sf_of_u64 lw) (Info.tx_rate i)) (sf_of_u64 100)) in
  let cpp := if 0 <? pps then Pg.hz (g w) / pps else Pg.hz (g w) in
  Some (upd_info (λ i, i <| Info.tx_pps := pps |>
    <| Info.tx_cycles :=
         u64 (u64 (cpp * Info.tx_burst i) * get_port_txcnt (g w) (Info.pid i)) |>) w).

(** ** app/pktgen-rate.c *)

Definition INT_MAX := 2 ^ 31 - 1.
Definition ETH_MAX_PKT := 1518.

(** An [int] product of two operands, undefined when it overflows. *)
Definition int_mul (a b : Z) : option Z := if a * b <=? INT_MAX then Some (a * b) else None.

Definition calculate_rate (w : world) : option world :=
  let rate := Info.rate (info w) in
  vp ← int_mul (Rate.vlines rate) (Rate.pixels rate);
  vpc ← int_mul vp (Rate.color_bits rate);
  let bytes_per_vframe := u32 (vpc / 8) in
  let bits_per_sec := u32 (bytes_per_vframe * Rate.fps rate * 8) in
  pkts_per_vframe ← div_trap bytes_per_vframe (Rate.payload rate);
  let total_pkts_per_sec := u32 (pkts_per_vframe * Rate.fps rate) in
  cycles_per_pkt ← div_trap (Pg.hz (g w)) total_pkts_per_sec;
  Some (upd_info (λ i, i <| Info.rate ::= λ r,
      r <| Rate.bytes_per_vframe := bytes_per_vframe |> <| Rate.bits_per_sec := bits_per_sec |>
        <| Rate.pkts_per_vframe := pkts_per_vframe |>
        <| Rate.total_pkts_per_sec := total_pkts_per_sec |>
        <| Rate.cycles_per_pkt := cycles_per_pkt |> |>
    <| Info.tx_cycles := cycles_per_pkt |>) w).

Definition pktgen_rate_init (w : world) : option world :=
  calculate_rate (upd_info (λ i, i <| Info.rate ::= λ r,
    r <| Rate.fps := 60 |> <| Rate.vlines := 720 |> <| Rate.pixels := 1280 |>
      <| Rate.color_bits := 20 |> <| Rate.payload := 800 |> <| Rate.overhead := 62 |> |>) w).

Definition update_rate_values (w : world) : option world :=
  let rate := Info.rate (info w) in
  let w := upd_pkt RATE_PKT (λ p, p <| Pkt.ipProto := PG_IPPROTO_UDP |>) w in
  let w := upd_pkt RATE_PKT (λ p, p <| Pkt.pktSize :=
    u16 (Rate.payload rate + Rate.overhead rate - PG_ETHER_CRC_LEN) |>) w in
  let w := upd_info (λ i, i <| Info.tx_burst := 1 |>) w in
  calculate_rate w.

Definition rate_set_value (info : port_info_t) (what : string) (value : Z) : port_info_t :=
  let rate := Info.rate info in
  if String.eqb what "fps" then
    let value := if value <? 1 then 1 else value in
    let value := if 120 <? value then 120 else value in
    info <| Info.rate ::= λ r, r <| Rate.fps := value |> |>
  else if String.eqb what "lines" then
    info <| Info.rate ::= λ r, r <| Rate.vlines := u16 value |> |>
  else if String.eqb what "pixels" then
    info <| Info.rate ::= λ r, r <| Rate.pixels := u16 value |> |>
  else if String.eqb what "color" then
    let value := if 32 <? value then 32 else value in
    let value := if value <? 1 then 1 else value in
    info <| Info.rate ::= λ r, r <| Rate.color_bits := value |> |>
  else if String.eqb what "payload" then
    if u32 (value + Rate.overhead rate) <=? ETH_MAX_PKT - PG_ETHER_CRC_LEN
    then info <| Info.rate ::= λ r, r <| Rate.payload := u16 value |> |> else info
  else if String.eqb what "overhead" then
    if u32 (Rate.payload rate + value) <=? ETH_MAX_PKT - PG_ETHER_CRC_LEN
    then info <| Info.rate ::= λ r, r <| Rate.overhead := u16 value |> |> else info
  else info.

Definition pktgen_rate_setup (w : world) : option world :=
  pktgen_rate_init (set_pkt RATE_PKT (get_pkt w SINGLE_PKT) w).
