(* ===== verification/Commands.v ===== *)
(** * Port and packet commands

    The operations of [app/pktgen-cmds.c] that the command line and the Lua
    bindings call: port flags and modes, the single, rate, range and sequence
    packet settings, statistics, defaults and reset.  Each is a function on the
    world of one port; those that compute a transmit rate return [option], as
    the functions of [Pacing] they call.  Drawing the screen and printing are
    left out. *)
From Stdlib Require Import Floats.SpecFloat Ascii String.
From S2P Require Import Prelude Mem Inet RandomBits PortInfo Headers Pacing.

(** ** Constants *)
Definition ENABLE_STATE := 1.
Definition DISABLE_STATE := 0.
Definition PRINT_LABELS_FLAG := Z.shiftl 1 0.
Definition MAC_FROM_ARP_FLAG := Z.shiftl 1 1.
Definition PROMISCUOUS_ON_FLAG := Z.shiftl 1 2.
Definition CONFIG_PAGE_FLAG := Z.shiftl 1 16.
Definition SEQUENCE_PAGE_FLAG := Z.shiftl 1 17.
Definition RANGE_PAGE_FLAG := Z.shiftl 1 18.
Definition PCAP_PAGE_FLAG := Z.shiftl 1 19.
Definition CPU_PAGE_FLAG := Z.shiftl 1 20.
Definition RND_BITFIELD_PAGE_FLAG := Z.shiftl 1 21.
Definition LOG_PAGE_FLAG := Z.shiftl 1 22.
Definition LATENCY_PAGE_FLAG := Z.shiftl 1 23.
Definition STATS_PAGE_FLAG := Z.shiftl 1 24.
Definition XSTATS_PAGE_FLAG := Z.shiftl 1 25.
Definition RATE_PAGE_FLAG := Z.shiftl 1 26.
Definition UPDATE_DISPLAY_FLAG := Z.shiftl 1 31.
Definition PAGE_MASK_BITS :=
  CONFIG_PAGE_FLAG ||| SEQUENCE_PAGE_FLAG ||| RANGE_PAGE_FLAG ||| PCAP_PAGE_FLAG |||
  CPU_PAGE_FLAG ||| RND_BITFIELD_PAGE_FLAG ||| LOG_PAGE_FLAG ||| LATENCY_PAGE_FLAG |||
  XSTATS_PAGE_FLAG ||| STATS_PAGE_FLAG ||| RATE_PAGE_FLAG.
Definition DEFAULT_NETMASK := 0xFFFFFF00.
Definition DEFAULT_IP_ADDR := Z.shiftl 192 24 ||| Z.shiftl 168 16.
Definition DEFAULT_TX_COUNT := 0.
Definition DEFAULT_TX_RATE := 100.
Definition DEFAULT_PRIME_COUNT := 1.
Definition MAX_PRIME_COUNT := 4.
Definition DEFAULT_SRC_PORT := 1234.
Definition DEFAULT_DST_PORT := 5678.
Definition DEFAULT_TTL := 4.
Definition MIN_VLAN_ID := 1.
Definition MAX_VLAN_ID := 4095.
Definition DEFAULT_VLAN_ID := MIN_VLAN_ID.
Definition DEFAULT_COS := 0.
Definition MAX_COS := 7.
Definition DEFAULT_TOS := 0.
Definition MAX_TOS := 255.
Definition MAX_DUMP_PACKETS := 32.
Definition PCAP_PAGE_SIZE := 25.
Definition GRATUITOUS_ARP := 5.
Definition sizeof_tstamp_t := 16.

(** ** Shorthands *)

Definition flags_of (w : world) : Z := Info.port_flags (info w).
Definition set_flags (f : Z) (w : world) : world := upd_info (λ i, pktgen_set_port_flags i f) w.
Definition clr_flags (f : Z) (w : world) : world := upd_info (λ i, pktgen_clr_port_flags i f) w.
Definition tst_flags (w : world) (f : Z) : bool := pktgen_tst_port_flags (info w) f.
Definition upd_g (f : pktgen_t → pktgen_t) (w : world) : world := w <| g ::= f |>.
Definition g_set_flags (f : Z) (w : world) : world :=
  upd_g (λ g, g <| Pg.flags ::= λ v, set_bits v f |>) w.
Definition g_clr_flags (f : Z) (w : world) : world :=
  upd_g (λ g, g <| Pg.flags ::= λ v, clr_bits v f |>) w.

(** [type[i]]; what follows the terminator is taken as NUL. *)
Definition chr (s : string) (i : nat) : ascii := default "000"%char (String.get i s).

(** [pktgen_packet_ctor(info, slot, -1); pktgen_set_tx_update(info);] *)
Definition rebuild (slot : Z) (w : world) : world :=
  pktgen_set_tx_update (pktgen_packet_ctor w slot (-1)).

(** A parsed address: [prefixlen], and the first word of the address union,
    [ipv4.s_addr] in network order. *)
Record pg_ipaddr := mk_ipaddr { s_addr : Z; prefixlen : Z }.

(** ** Flags of the port *)

Definition enable_icmp_echo (w : world) (onOff : Z) : world :=
  if onOff =? ENABLE_STATE then set_flags ICMP_ECHO_ENABLE_FLAG w
  else clr_flags ICMP_ECHO_ENABLE_FLAG w.

(** The results of the system calls a TAP command makes. *)
Record tap_env := mk_tap {
  open_net_tun : Z; open_tun : Z; ioctl_tunsetiff : Z; ioctl_siocsifflags : Z }.

Definition enable_rx_tap (env : tap_env) (w : world) (onOff : Z) : world :=
  let set_fd fd := upd_info (λ i, i <| Info.rx_tapfd := fd |>) in
  if onOff =? ENABLE_STATE then
    let w1 := set_fd (open_net_tun env) w in
    let '(w1, failed) :=
      if 0 <=? open_net_tun env then (w1, false)
      else (set_fd (open_tun env) w1, open_tun env <? 0) in
    if failed then w1
    else if ioctl_tunsetiff env <? 0 then set_fd 0 w1
    else if ioctl_siocsifflags env <? 0 then set_fd 0 w1
    else set_flags PROCESS_RX_TAP_PKTS w1
  else
    let w1 := if tst_flags w PROCESS_RX_TAP_PKTS then set_fd 0 w else w in
    clr_flags PROCESS_RX_TAP_PKTS w1.

Definition enable_tx_tap (env : tap_env) (w : world) (onOff : Z) : world :=
  let set_fd fd := upd_info (λ i, i <| Info.tx_tapfd := fd |>) in
  if onOff =? ENABLE_STATE then
    let w1 := set_fd (open_net_tun env) w in
    let '(w1, failed) :=
      if 0 <=? open_net_tun env then (w1, false)
      else (set_fd (open_tun env) w1, open_tun env <? 0) in
    if failed then w1
    else if ioctl_tunsetiff env <? 0 then set_fd 0 w1
    else if ioctl_siocsifflags env <? 0 then set_fd 0 w1
    else set_flags PROCESS_TX_TAP_PKTS w1
  else
    let w1 := if tst_flags w PROCESS_TX_TAP_PKTS then set_fd 0 w else w in
    clr_flags PROCESS_TX_TAP_PKTS w1.

Definition enable_mac_from_arp (w : world) (onOff : Z) : world :=
  if onOff =? ENABLE_STATE then g_set_flags MAC_FROM_ARP_FLAG w
  else g_clr_flags MAC_FROM_ARP_FLAG w.

(** The head of every command that turns an exclusive mode on. *)
Definition exclusive (flag : Z) (w : world) : world :=
  set_flags flag (clr_flags EXCLUSIVE_PKT_MODES (clr_flags EXCLUSIVE_MODES w)).

Definition enable_random (w : world) (onOff : Z) : world :=
  if onOff =? ENABLE_STATE then exclusive SEND_RANDOM_PKTS w
  else clr_flags SEND_RANDOM_PKTS w.

Definition pktgen_start_transmitting (w : world) : world :=
  if tst_flags w SENDING_PACKETS then w
  else
    let w := all_q_flags CLEAR_FAST_ALLOC_FLAG w in
    let w := upd_info (λ i, i <| Info.current_tx_count := Info.transmit_count i |>) w in
    let w := if Info.current_tx_count (info w) =? 0 then set_flags SEND_FOREVER w else w in
    set_flags SENDING_PACKETS w.

Definition pktgen_stop_transmitting (w : world) : world :=
  if tst_flags w SENDING_PACKETS then
    all_q_flags DO_TX_FLUSH (clr_flags (SENDING_PACKETS ||| SEND_FOREVER) w)
  else w.

Definition pktgen_prime_ports (w : world) : world :=
  let w := all_q_flags CLEAR_FAST_ALLOC_FLAG w in
  let w := upd_info (λ i, i <| Info.current_tx_count := Info.prime_cnt i |>) w in
  let w := set_flags SENDING_PACKETS w in
  all_q_flags DO_TX_FLUSH w.

(** ** Protocol and packet type *)

Definition proto_of (type : string) : Z :=
  let c := chr type 0 in
  if Ascii.eqb c "u" then PG_IPPROTO_UDP
  else if Ascii.eqb c "i" then PG_IPPROTO_ICMP
  else if Ascii.eqb c "t" then PG_IPPROTO_TCP
  else PG_IPPROTO_TCP.

(** The body [single_set_proto] and [rate_set_proto] share, for their slot. *)
Definition slot_set_proto (slot : Z) (w : world) (type : string) : world :=
  let w := upd_pkt slot (λ p, p <| Pkt.ipProto := proto_of type |>) w in
  let w := if Ascii.eqb (chr type 0) "i"
           then upd_pkt slot (λ p, p <| Pkt.ethType := PG_ETHER_TYPE_IPv4 |>) w else w in
  rebuild slot w.

Definition single_set_proto : world → string → world := slot_set_proto SINGLE_PKT.
Definition rate_set_proto : world → string → world := slot_set_proto RATE_PKT.

Definition range_set_proto (w : world) (type : string) : world :=
  let w := upd_pkt RANGE_PKT (λ p, p <| Pkt.ipProto := proto_of type |>) w in
  let w := upd_info (λ i, i <| Info.range ::= λ r,
             r <| Rng.ip_proto := Pkt.ipProto (get_pkt w RANGE_PKT) |> |>) w in
  if Ascii.eqb (chr type 0) "i"
  then upd_pkt RANGE_PKT (λ p, p <| Pkt.ethType := PG_ETHER_TYPE_IPv4 |>) w else w.

Definition enable_pcap (w : world) (state : Z) : world :=
  match Info.pcap (info w) with
  | Some pcap =>
      if Pcap.pkt_count pcap =? 0 then w
      else
        let w := if state =? ENABLE_STATE then exclusive SEND_PCAP_PKTS w
                 else clr_flags SEND_PCAP_PKTS w in
        upd_info (λ i, i <| Info.tx_cycles := 0 |>) w
  | None => w
  end.

Definition enable_rate (w : world) (state : Z) : option world :=
  if state =? ENABLE_STATE then
    update_rate_values (single_set_proto (exclusive SEND_RATE_PACKETS w) "udp")
  else
    let w := clr_flags SEND_RATE_PACKETS w in
    let w := upd_info (λ i, i <| Info.tx_burst := DEFAULT_PKT_BURST |>) w in
    let w := upd_pkt RATE_PKT (λ p, p <| Pkt.pktSize := PG_ETHER_MIN_LEN - PG_ETHER_CRC_LEN |>) w in
    pktgen_packet_rate w.

Definition debug_blink (w : world) (state : Z) : world :=
  let bit := u32 (Z.shiftl 1 (Info.pid (info w))) in
  if state =? ENABLE_STATE
  then upd_g (λ g, g <| Pg.blinklist ::= λ v, set_bits v bit |>) w
  else upd_g (λ g, g <| Pg.blinklist ::= λ v, clr_bits v bit |>) w.

Definition enable_process (w : world) (state : Z) : world :=
  if state =? ENABLE_STATE then set_flags PROCESS_INPUT_PKTS w
  else clr_flags PROCESS_INPUT_PKTS w.

(** What the bonding commands ask of the driver. *)
Inductive bond_call :=
  | Ext_distrib (slave enabled : Z)
  | Ext_collect (slave enabled : Z).

(** [conf_get], [slaves] and [active] are the driver's answers; a [None] list is
    a negative count. *)
Definition enable_bonding (conf_get : Z) (slaves active : option (list Z)) (w : world) (state : Z)
    : world * list bond_call :=
  if conf_get <? 0 then (w, [])
  else match slaves, active with
  | Some slaves, Some _ =>
      foldl (λ '(w, calls) s,
        if state =? ENABLE_STATE
        then (set_flags BONDING_TX_PACKETS w, calls ++ [Ext_distrib s 1; Ext_collect s 1])
        else (clr_flags BONDING_TX_PACKETS w, calls ++ [Ext_distrib s 0; Ext_collect s 1]))
        (w, []) slaves
  | _, _ => (w, [])
  end.

Definition enable_garp (w : world) (state : Z) : world :=
  if state =? ENABLE_STATE then set_flags (PROCESS_GARP_PKTS ||| PROCESS_INPUT_PKTS) w
  else clr_flags (PROCESS_GARP_PKTS ||| PROCESS_INPUT_PKTS) w.

Definition range_set_pkt_type (w : world) (type : string) : world :=
  upd_pkt RANGE_PKT (λ p, p <| Pkt.ethType :=
    if Ascii.eqb (chr type 0) "a" then PG_ETHER_TYPE_ARP
    else if Ascii.eqb (chr type 3) "4" then PG_ETHER_TYPE_IPv4
    else if Ascii.eqb (chr type 3) "6" then PG_ETHER_TYPE_IPv6
    else PG_ETHER_TYPE_IPv4 |>) w.

Definition ether_type_of (type : string) : Z :=
  if Ascii.eqb (chr type 0) "a" then PG_ETHER_TYPE_ARP
  else if Ascii.eqb (chr type 3) "4" then PG_ETHER_TYPE_IPv4
  else if Ascii.eqb (chr type 3) "6" then PG_ETHER_TYPE_IPv6
  else if Ascii.eqb (chr type 2) "4" then PG_ETHER_TYPE_IPv4
  else if Ascii.eqb (chr type 2) "6" then PG_ETHER_TYPE_IPv6
  else PG_ETHER_TYPE_IPv4.

(** The new type, and the size moved between the two minimum sizes. *)
Definition retype (type : string) (p : pkt_seq_t) : pkt_seq_t :=
  let ethtype := Pkt.ethType p in
  let p := p <| Pkt.ethType := ether_type_of type |> in
  let p :=
    if (ethtype =? PG_ETHER_TYPE_IPv6) && (Pkt.ethType p =? PG_ETHER_TYPE_IPv4) then
      if MIN_v6_PKT_SIZE <=? Pkt.pktSize p
      then p <| Pkt.pktSize ::= λ s, u16 (MIN_PKT_SIZE + (s - MIN_v6_PKT_SIZE)) |> else p
    else p in
  if (ethtype =? PG_ETHER_TYPE_IPv4) && (Pkt.ethType p =? PG_ETHER_TYPE_IPv6) then
    if Pkt.pktSize p <? MIN_v6_PKT_SIZE
    then p <| Pkt.pktSize ::= λ s, u16 (MIN_v6_PKT_SIZE + (s - MIN_PKT_SIZE)) |> else p
  else p.

Definition single_set_pkt_type (w : world) (type : string) : world :=
  rebuild SINGLE_PKT (upd_pkt SINGLE_PKT (retype type) w).
Definition rate_set_pkt_type (w : world) (type : string) : world :=
  rebuild RATE_PKT (upd_pkt RATE_PKT (retype type) w).

(** ** Encapsulation modes *)

(** The body of the six commands that follow. *)
Definition enable_encap (flag : Z) (w : world) (onOff : Z) : world :=
  rebuild SINGLE_PKT
    (if onOff =? ENABLE_STATE then exclusive flag w else clr_flags flag w).

Definition enable_vxlan : world → Z → world := enable_encap SEND_VXLAN_PACKETS.
Definition enable_vlan : world → Z → world := enable_encap SEND_VLAN_ID.
Definition enable_mpls : world → Z → world := enable_encap SEND_MPLS_LABEL.
Definition enable_qinq : world → Z → world := enable_encap SEND_Q_IN_Q_IDS.
Definition enable_gre : world → Z → world := enable_encap SEND_GRE_IPv4_HEADER.
Definition enable_gre_eth : world → Z → world := enable_encap SEND_GRE_ETHER_HEADER.

Definition single_set_vlan_id (w : world) (vlanid : Z) : world :=
  let w := upd_info (λ i, i <| Info.vlanid := vlanid |>) w in
  rebuild SINGLE_PKT (upd_pkt SINGLE_PKT (λ p, p <| Pkt.vlanid := vlanid |>) w).

Definition single_set_cos (w : world) (cos : Z) : world :=
  let w := upd_info (λ i, i <| Info.cos := cos |>) w in
  rebuild SINGLE_PKT (upd_pkt SINGLE_PKT (λ p, p <| Pkt.cos := cos |>) w).

Definition single_set_tos (w : world) (tos : Z) : world :=
  let w := upd_info (λ i, i <| Info.tos := tos |>) w in
  rebuild SINGLE_PKT (upd_pkt SINGLE_PKT (λ p, p <| Pkt.tos := tos |>) w).

Definition single_set_vxlan (w : world) (flags group_id vxlan_id : Z) : world :=
  let w := upd_info (λ i, i <| Info.vni_flags := flags |> <| Info.group_id := group_id |>
                            <| Info.vxlan_id := vxlan_id |>) w in
  rebuild SINGLE_PKT (upd_pkt SINGLE_PKT (λ p,
    p <| Pkt.vni_flags := flags |> <| Pkt.group_id := group_id |>
      <| Pkt.vxlan_id := vxlan_id |>) w).

Definition range_set_mpls_entry (w : world) (mpls_entry : Z) : world :=
  let w := upd_info (λ i, i <| Info.mpls_entry := mpls_entry |>) w in
  rebuild SINGLE_PKT (upd_pkt SINGLE_PKT (λ p, p <| Pkt.mpls_entry := mpls_entry |>) w).

Definition single_set_qinqids (w : world) (outerid innerid : Z) : world :=
  rebuild SINGLE_PKT (upd_pkt SINGLE_PKT (λ p,
    p <| Pkt.qinq_outerid := outerid |> <| Pkt.qinq_innerid := innerid |>) w).

Definition range_set_qinqids (w : world) (outerid innerid : Z) : world :=
  rebuild RANGE_PKT (upd_pkt RANGE_PKT (λ p,
    p <| Pkt.qinq_outerid := outerid |> <| Pkt.qinq_innerid := innerid |>) w).

Definition range_set_gre_key (w : world) (gre_key : Z) : world :=
  let w := upd_info (λ i, i <| Info.gre_key := gre_key |>) w in
  rebuild SINGLE_PKT (upd_pkt SINGLE_PKT (λ p, p <| Pkt.gre_key := gre_key |>) w).

(** ** Statistics, defaults, reset *)

(** [hw] is what [rte_eth_stats_get] writes. *)
Definition pktgen_clear_stats (hw : eth_stats_t) (w : world) : world :=
  let w := upd_info (λ i,
    i <| Info.sizes := Sizes.zero |> <| Info.rate_stats := Eth.zero |> <| Info.prev_stats := hw |>
      <| Info.max_ipackets := 0 |> <| Info.max_opackets := 0 |>
      <| Info.stats := Stats.zero |> <| Info.min_avg_latency := 0 |>
      <| Info.max_avg_latency := 0 |> <| Info.max_latency := 0 |> <| Info.avg_latency := 0 |>
      <| Info.jitter_count := 0 |> <| Info.max_missed := 0 |>) w in
  upd_g (λ g, g <| Pg.max_total_ipackets := 0 |> <| Pg.max_total_opackets := 0 |>
                <| Pg.cumm_rate_totals := Eth.zero |>) w.

(** The addresses of port [pid] and its peer, the other port of the pair. *)
Definition default_ips (pid : Z) (p : pkt_seq_t) : pkt_seq_t :=
  let ip n := DEFAULT_IP_ADDR ||| u32 (Z.shiftl n 8) ||| 1 in
  if Z.land pid 1 =? 0
  then p <| Pkt.ip_src_addr := ip pid |> <| Pkt.ip_dst_addr := ip (pid + 1) |>
  else p <| Pkt.ip_src_addr := ip pid |> <| Pkt.ip_dst_addr := ip (pid - 1) |>.

(** [peer] is [dst_info->seq_pkt], [None] when that port has no packets. *)
Definition pktgen_port_defaults (peer : option (Z → pkt_seq_t)) (w : world) (seq : Z) : world :=
  let pid := Info.pid (info w) in
  let w := upd_pkt seq (λ p,
    p <| Pkt.pktSize := MIN_PKT_SIZE |> <| Pkt.sport := DEFAULT_SRC_PORT |>
      <| Pkt.dport := DEFAULT_DST_PORT |> <| Pkt.ttl := DEFAULT_TTL |>
      <| Pkt.ipProto := PG_IPPROTO_TCP |> <| Pkt.ethType := PG_ETHER_TYPE_IPv4 |>
      <| Pkt.vlanid := DEFAULT_VLAN_ID |> <| Pkt.cos := DEFAULT_COS |>
      <| Pkt.tos := DEFAULT_TOS |>) w in
  let w := upd_info (λ i,
    i <| Info.transmit_count := DEFAULT_TX_COUNT |> <| Info.current_tx_count := 0 |>
      <| Info.tx_rate := sf_of_u64 DEFAULT_TX_RATE |> <| Info.tx_burst := DEFAULT_PKT_BURST |>
      <| Info.vlanid := DEFAULT_VLAN_ID |> <| Info.cos := DEFAULT_COS |>
      <| Info.tos := DEFAULT_TOS |> <| Info.seqCnt := 0 |> <| Info.seqIdx := 0 |>
      <| Info.prime_cnt := DEFAULT_PRIME_COUNT |> <| Info.delta := 0 |>) w in
  let w := upd_pkt seq (λ p, default_ips pid (p <| Pkt.ip_mask := DEFAULT_NETMASK |>)) w in
  let w := upd_pkt seq (λ p, p <| Pkt.eth_dst_addr :=
    match peer with
    | Some pkts => Pkt.eth_src_addr (pkts RATE_PKT)  (* copied after SINGLE_PKT's *)
    | None => 0
    end |>) w in
  g_set_flags PRINT_LABELS_FLAG (rebuild seq w).

Definition pktgen_ping4 (w : world) : world :=
  let w := set_pkt PING_PKT (get_pkt w SINGLE_PKT) w in
  let w := upd_pkt PING_PKT (λ p, p <| Pkt.ipProto := PG_IPPROTO_ICMP |>) w in
  let w := pktgen_packet_ctor w PING_PKT ICMP4_ECHO in
  pktgen_set_tx_update (set_flags SEND_PING4_REQUEST w).

(** [alloc] says whether the mempool had an mbuf; the mbuf's bytes are dumped and
    freed again. *)
Definition debug_pdump (alloc : bool) (w : world) : world :=
  if alloc
  then pktgen_packet_ctor (set_pkt DUMP_PKT (get_pkt w SINGLE_PKT) w) DUMP_PKT (-1)
  else w.

Definition pktgen_set_port_seqCnt (w : world) (cnt : Z) : world :=
  let cnt := if NUM_SEQ_PKTS <? cnt then NUM_SEQ_PKTS else cnt in
  let w := upd_info (λ i, i <| Info.seqCnt := cnt |>) w in
  if negb (cnt =? 0) then exclusive SEND_SEQ_PKTS w else clr_flags SEND_SEQ_PKTS w.

Definition enable_range (w : world) (state : Z) : option world :=
  if state =? ENABLE_STATE then
    if tst_flags w SENDING_PACKETS then Some w
    else pktgen_packet_rate (exclusive SEND_RANGE_PKTS w)
  else pktgen_packet_rate (clr_flags SEND_RANGE_PKTS w).

(** ** app/pktgen-range.c: the defaults of the range page *)

Definition IPv4 (a b c d : Z) : Z :=
  u32 (Z.shiftl (Z.land a 0xff) 24 ||| Z.shiftl (Z.land b 0xff) 16 |||
       Z.shiftl (Z.land c 0xff) 8 ||| Z.land d 0xff).

Definition pktgen_range_setup (w : world) : world :=
  let s := get_pkt w SINGLE_PKT in
  let pid := Info.pid (info w) in
  let w := upd_info (λ i, i <| Info.range ::= λ r,
    r <| Rng.ip_proto := Pkt.ipProto s |>
      <| Rng.dst_ip := IPv4 192 168 (pid + 1) 1 |> <| Rng.dst_ip_min := IPv4 192 168 (pid + 1) 1 |>
      <| Rng.dst_ip_max := IPv4 192 168 (pid + 1) 254 |> <| Rng.dst_ip_inc := 1 |>
      <| Rng.src_ip := IPv4 192 168 pid 1 |> <| Rng.src_ip_min := IPv4 192 168 pid 1 |>
      <| Rng.src_ip_max := IPv4 192 168 pid 254 |> <| Rng.src_ip_inc := 0 |>
      <| Rng.dst_port := Pkt.dport s |> <| Rng.dst_port_inc := 1 |>
      <| Rng.dst_port_min := 0 |> <| Rng.dst_port_max := 65535 |>
      <| Rng.src_port := Pkt.sport s |> <| Rng.src_port_inc := 1 |>
      <| Rng.src_port_min := 0 |> <| Rng.src_port_max := 65535 |>
      <| Rng.ttl := Pkt.ttl s |> <| Rng.ttl_inc := 0 |>
      <| Rng.ttl_min := 0 |> <| Rng.ttl_max := 255 |>
      <| Rng.vlan_id := Pkt.vlanid s |> <| Rng.vlan_id_inc := 0 |>
      <| Rng.vlan_id_min := MIN_VLAN_ID |> <| Rng.vlan_id_max := MAX_VLAN_ID |>
      <| Rng.cos := Pkt.cos s |> <| Rng.cos_inc := 0 |>
      <| Rng.cos_min := 0 |> <| Rng.cos_max := MAX_COS |>
      <| Rng.tos := Pkt.tos s |> <| Rng.tos_inc := 0 |>
      <| Rng.tos_min := 0 |> <| Rng.tos_max := MAX_TOS |>
      <| Rng.pkt_size := MIN_PKT_SIZE |> <| Rng.pkt_size_inc := 0 |>
      <| Rng.pkt_size_min := MIN_PKT_SIZE |> <| Rng.pkt_size_max := MAX_PKT_SIZE |>
      <| Rng.vxlan_gid := Pkt.group_id s |> <| Rng.vxlan_gid_inc := 0 |>
      <| Rng.vxlan_gid_min := 0 |> <| Rng.vxlan_gid_max := 65535 |>
      <| Rng.vxlan_vid := Pkt.vxlan_id s |> <| Rng.vxlan_vid_inc := 0 |>
      <| Rng.vxlan_vid_min := 0 |> <| Rng.vxlan_vid_max := 65535 |>
      <| Rng.vni_flags := Info.vni_flags i |>
      <| Rng.dst_mac := Pkt.eth_dst_addr s |> <| Rng.dst_mac_inc := 0 |>
      <| Rng.dst_mac_min := 0 |> <| Rng.dst_mac_max := 0 |>
      <| Rng.src_mac := Pkt.eth_src_addr s |> <| Rng.src_mac_inc := 0 |>
      <| Rng.src_mac_min := 0 |> <| Rng.src_mac_max := 0 |> |>) w in
  upd_pkt RANGE_PKT (λ p, p <| Pkt.pktSize := MIN_PKT_SIZE |>) w.

(** ** Reset and restart *)

Definition pktgen_update_display (w : world) : world :=
  g_set_flags UPDATE_DISPLAY_FLAG (g_set_flags PRINT_LABELS_FLAG w).

(** [for (s = 0; s < NUM_TOTAL_PKTS; s++) pktgen_port_defaults(info->pid, s)] *)
Fixpoint defaults_upto (n : nat) (s : Z) (peer : option (Z → pkt_seq_t)) (w : world) : world :=
  match n with
  | O => w
  | S n => defaults_upto n (s + 1) peer (pktgen_port_defaults peer w s)
  end.

(** A port that is set up ([info->seq_pkt] allocated); [hw] is what the driver
    counts by then, and the random bit fields start over. *)
Definition pktgen_reset (peer : option (Z → pkt_seq_t)) (hw : eth_stats_t)
    (dev_random : option (list Z)) (xor_state : Z) (w : world)
    : option (world * (rnd_bits_t * Z)) :=
  let w := pktgen_stop_transmitting w in
  let w := g_clr_flags MAC_FROM_ARP_FLAG w in
  let w := upd_pkt SINGLE_PKT (λ p, p <| Pkt.pktSize := MIN_PKT_SIZE |>) w in
  let w := upd_pkt RATE_PKT (λ p, p <| Pkt.pktSize := MIN_PKT_SIZE |>) w in
  let w := defaults_upto (Z.to_nat NUM_TOTAL_PKTS) 0 peer w in
  let w := pktgen_range_setup w in
  w ← pktgen_rate_setup w;
  let w := pktgen_clear_stats hw w in
  w ← enable_range w DISABLE_STATE;
  w ← enable_rate w DISABLE_STATE;
  let rnd := pktgen_rnd_bits_init dev_random xor_state in
  let w := pktgen_set_port_seqCnt w 0 in
  Some (pktgen_update_display w, rnd).

(** The device is stopped and started in between. *)
Definition pktgen_port_restart (w : world) : world :=
  pktgen_update_display (pktgen_stop_transmitting w).

(** ** Counts *)

Definition single_set_tx_count (w : world) (cnt : Z) : world :=
  upd_info (λ i, i <| Info.transmit_count := cnt |>) w.
Definition rate_set_tx_count (w : world) (cnt : Z) : world :=
  upd_info (λ i, i <| Info.transmit_count := cnt |>) w.

Definition pktgen_set_port_prime (w : world) (cnt : Z) : world :=
  let cnt := if MAX_PRIME_COUNT <? cnt then MAX_PRIME_COUNT
             else if cnt =? 0 then DEFAULT_PRIME_COUNT else cnt in
  upd_info (λ i, i <| Info.prime_cnt := cnt |>) w.

(** The loop runs [MAX_DUMP_PACKETS] times over the first element: it frees it at
    most once and never reaches the others. *)
Fixpoint free_dump_list (n : nat) (l : Z → Z) : Z → Z :=
  match n with
  | O => l
  | S n => free_dump_list n (if l 0 =? 0 then l else set_at 0 0 l)
  end.

Definition debug_set_port_dump (w : world) (cnt : Z) : world :=
  let cnt := if MAX_DUMP_PACKETS <? cnt then MAX_DUMP_PACKETS else cnt in
  upd_info (λ i, i <| Info.dump_count := 0 |> <| Info.dump_tail := 0 |> <| Info.dump_head := 0 |>
    <| Info.dump_list ::= free_dump_list (Z.to_nat MAX_DUMP_PACKETS) |>
    <| Info.dump_count := cnt |>) w.

(** ** Burst, size and rate *)

Definition set_tx_burst (w : world) (burst : Z) : option world :=
  let burst := if burst =? 0 then 1
               else if DEFAULT_PKT_BURST <? burst then DEFAULT_PKT_BURST else burst in
  pktgen_packet_rate
    (upd_info (λ i, i <| Info.tx_burst := burst |> <| Info.tx_cycles := 0 |>) w).

Definition single_set_tx_burst : world → Z → option world := set_tx_burst.
Definition rate_set_tx_burst : world → Z → option world := set_tx_burst.

Definition debug_set_tx_cycles (w : world) (cycles : Z) : world :=
  upd_info (λ i, i <| Info.tx_cycles := cycles |>) w.

(** The size with CRC after the four adjustments. *)
Definition clamp_size (ethType size : Z) : Z :=
  let size := if size <? PG_ETHER_CRC_LEN then PG_ETHER_CRC_LEN else size in
  let size := if size - PG_ETHER_CRC_LEN <? MIN_PKT_SIZE
              then MIN_PKT_SIZE + PG_ETHER_CRC_LEN else size in
  let size := if MAX_PKT_SIZE <? size - PG_ETHER_CRC_LEN
              then MAX_PKT_SIZE + PG_ETHER_CRC_LEN else size in
  if (ethType =? PG_ETHER_TYPE_IPv6) && (size <? MIN_v6_PKT_SIZE + PG_ETHER_CRC_LEN)
  then MIN_v6_PKT_SIZE + PG_ETHER_CRC_LEN else size.

Definition slot_set_pkt_size (slot : Z) (w : world) (size : Z) : option world :=
  let size := clamp_size (Pkt.ethType (get_pkt w slot)) size in
  let w := upd_pkt slot (λ p, p <| Pkt.pktSize := size - PG_ETHER_CRC_LEN |>) w in
  let w := pktgen_packet_ctor w slot (-1) in
  w ← pktgen_packet_rate w;
  Some (pktgen_set_tx_update w).

Definition single_set_pkt_size : world → Z → option world := slot_set_pkt_size SINGLE_PKT.
Definition rate_set_pkt_size : world → Z → option world := slot_set_pkt_size RATE_PKT.

Definition slot_set_port_value (slot : Z) (w : world) (type : ascii) (portValue : Z) : world :=
  rebuild slot (upd_pkt slot (λ p,
    if Ascii.eqb type "d" then p <| Pkt.dport := u16 portValue |>
    else p <| Pkt.sport := u16 portValue |>) w).

Definition single_set_port_value : world → ascii → Z → world := slot_set_port_value SINGLE_PKT.
Definition rate_set_port_value : world → ascii → Z → world := slot_set_port_value RATE_PKT.

(** The literal [0.01] as the nearest [double]. *)
Definition sf_0_01 : spec_float := S754_finite false 5764607523034235 (-59).

(** [rate] is the value [strtod] reads. *)
Definition single_set_tx_rate (w : world) (rate : spec_float) : option world :=
  let rate := if SFeqb rate (sf_of_u64 0) then sf_0_01
              else if SFltb (sf_of_u64 100) rate then sf_of_u64 100 else rate in
  pktgen_packet_rate
    (upd_info (λ i, i <| Info.tx_rate := rate |> <| Info.tx_cycles := 0 |>) w).

(** ** Addresses *)

Definition slot_set_ipaddr (slot : Z) (w : world) (type : ascii) (ip : pg_ipaddr) : world :=
  rebuild slot (upd_pkt slot (λ p,
    if Ascii.eqb type "s" then
      p <| Pkt.ip_mask := size_to_mask (prefixlen ip) |> <| Pkt.ip_src_addr := ntohl (s_addr ip) |>
    else p <| Pkt.ip_dst_addr := ntohl (s_addr ip) |>) w).

Definition single_set_ipaddr : world → ascii → pg_ipaddr → world := slot_set_ipaddr SINGLE_PKT.
Definition rate_set_ipaddr : world → ascii → pg_ipaddr → world := slot_set_ipaddr RATE_PKT.

Definition slot_set_dst_mac (slot : Z) (w : world) (mac : Z) : world :=
  rebuild slot (upd_pkt slot (λ p, p <| Pkt.eth_dst_addr := mac |>) w).
Definition slot_set_src_mac (slot : Z) (w : world) (mac : Z) : world :=
  rebuild slot (upd_pkt slot (λ p, p <| Pkt.eth_src_addr := mac |>) w).

Definition single_set_mac (w : world) (which : string) (mac : Z) : world :=
  pktgen_set_tx_update
    (if String.eqb which "dst" then
       pktgen_packet_ctor (upd_pkt SINGLE_PKT (λ p, p <| Pkt.eth_dst_addr := mac |>) w) SINGLE_PKT (-1)
     else if String.eqb which "src" then
       pktgen_packet_ctor (upd_pkt SINGLE_PKT (λ p, p <| Pkt.eth_src_addr := mac |>) w) SINGLE_PKT (-1)
     else w).

Definition single_set_dst_mac : world → Z → world := slot_set_dst_mac SINGLE_PKT.
Definition single_set_src_mac : world → Z → world := slot_set_src_mac SINGLE_PKT.
Definition rate_set_dst_mac : world → Z → world := slot_set_dst_mac RATE_PKT.
Definition rate_set_src_mac : world → Z → world := slot_set_src_mac RATE_PKT.

Definition slot_set_ttl (slot : Z) (w : world) (ttl : Z) : world :=
  rebuild slot (upd_pkt slot (λ p, p <| Pkt.ttl := ttl |>) w).
Definition single_set_ttl_value : world → Z → world := slot_set_ttl SINGLE_PKT.
Definition rate_set_ttl_value : world → Z → world := slot_set_ttl RATE_PKT.

(** ** Latency, jitter, fill pattern *)

Definition enable_latency (w : world) (state : Z) : world :=
  let min := PG_ETHER_MIN_LEN - PG_ETHER_CRC_LEN + sizeof_tstamp_t in
  let w :=
    if state =? ENABLE_STATE then
      upd_pkt SINGLE_PKT (λ p,
        if Pkt.pktSize p <? min then p <| Pkt.pktSize ::= λ s, u16 (s + sizeof_tstamp_t) |> else p)
        (exclusive SEND_LATENCY_PKTS w)
    else
      clr_flags SEND_LATENCY_PKTS (upd_pkt SINGLE_PKT (λ p,
        if min <=? Pkt.pktSize p then p <| Pkt.pktSize ::= λ s, u16 (s - sizeof_tstamp_t) |> else p) w) in
  rebuild SINGLE_PKT (upd_pkt SINGLE_PKT (λ p, p <| Pkt.ipProto := PG_IPPROTO_UDP |>) w).

(** [hz] is [rte_get_timer_hz()]. *)
Definition single_set_jitter (hz : Z) (w : world) (threshold : Z) : world :=
  let ticks := hz / 1000000 in
  upd_info (λ i, i <| Info.jitter_threshold := threshold |> <| Info.jitter_count := 0 |>
                   <| Info.jitter_threshold_clks := u64 (threshold * ticks) |>) w.

(** [strncmp(str, s, strlen(s)) == 0] *)
Definition has_prefix (s str : string) : bool := String.prefix s str.

Definition pattern_set_type (w : world) (str : string) : world :=
  let set t := upd_info (λ i, i <| Info.fill_pattern_type := t |>) w in
  if has_prefix "abc" str then set ABC_FILL_PATTERN
  else if has_prefix "none" str then set NO_FILL_PATTERN
  else if has_prefix "user" str then set USER_FILL_PATTERN
  else if has_prefix "zero" str then set ZERO_FILL_PATTERN
  else w.

Definition USER_PATTERN_SIZE := 16.
Definition is_quote (c : ascii) : bool := Ascii.eqb c "034" || Ascii.eqb c "039".

(** [strcpy] into a buffer of [USER_PATTERN_SIZE + 1] bytes: a longer string is
    outside the C semantics.  [snprintf] keeps one byte for the terminator. *)
Definition pattern_set_user_pattern (w : world) (str : string) : option world :=
  let cs := list_ascii_of_string str in
  if Z.of_nat (length cs) <=? USER_PATTERN_SIZE then
    let cp := match cs with
              | c :: _ => if is_quote c then tail (removelast cs) else cs
              | [] => []
              end in
    let pattern i := if (0 <=? i) && (i <? USER_PATTERN_SIZE - 1)
                     then Z.of_N (N_of_ascii (nth (Z.to_nat i) cp "000"%char)) else 0 in
    Some (upd_info (λ i, i <| Info.user_pattern := pattern |>
                           <| Info.fill_pattern_type := USER_FILL_PATTERN |>) w)
  else None.

(** ** Range settings *)

Inductive what_t := What_min | What_max | What_inc | What_start | What_none.

(** The comparisons of the range commands on their [what] argument. *)
Definition what_of (what : string) : what_t :=
  if String.eqb what "min" || String.eqb what "minimum" then What_min
  else if String.eqb what "max" || String.eqb what "maximum" then What_max
  else if String.eqb what "inc" || String.eqb what "increment" then What_inc
  else if String.eqb what "start" then What_start
  else What_none.

Definition upd_range (f : range_info_t → range_info_t) (w : world) : world :=
  upd_info (λ i, i <| Info.range ::= f |>) w.

Definition range_set_dest_mac (w : world) (what : string) (mac : Z) : world :=
  match what_of what with
  | What_min => upd_range (λ r, r <| Rng.dst_mac_min := mac |>) w
  | What_max => upd_range (λ r, r <| Rng.dst_mac_max := mac |>) w
  | What_inc => upd_range (λ r, r <| Rng.dst_mac_inc := mac |>) w
  | What_start => upd_pkt RANGE_PKT (λ p, p <| Pkt.eth_dst_addr := mac |>)
                    (upd_range (λ r, r <| Rng.dst_mac := mac |>) w)
  | What_none => w
  end.

Definition range_set_src_mac (w : world) (what : string) (mac : Z) : world :=
  match what_of what with
  | What_min => upd_range (λ r, r <| Rng.src_mac_min := mac |>) w
  | What_max => upd_range (λ r, r <| Rng.src_mac_max := mac |>) w
  | What_inc => upd_range (λ r, r <| Rng.src_mac_inc := mac |>) w
  | What_start => upd_pkt RANGE_PKT (λ p, p <| Pkt.eth_src_addr := mac |>)
                    (upd_range (λ r, r <| Rng.src_mac := mac |>) w)
  | What_none => w
  end.

Definition range_set_src_ip (w : world) (what : string) (ip : pg_ipaddr) : world :=
  let a := ntohl (s_addr ip) in
  match what_of what with
  | What_min => upd_range (λ r, r <| Rng.src_ip_min := a |>) w
  | What_max => upd_range (λ r, r <| Rng.src_ip_max := a |>) w
  | What_inc => upd_range (λ r, r <| Rng.src_ip_inc := a |>) w
  | What_start => upd_range (λ r, r <| Rng.src_ip := a |>) w
  | What_none => w
  end.

Definition range_set_dst_ip (w : world) (what : string) (ip : pg_ipaddr) : world :=
  let a := ntohl (s_addr ip) in
  match what_of what with
  | What_min => upd_range (λ r, r <| Rng.dst_ip_min := a |>) w
  | What_max => upd_range (λ r, r <| Rng.dst_ip_max := a |>) w
  | What_inc => upd_range (λ r, r <| Rng.dst_ip_inc := a |>) w
  | What_start => upd_range (λ r, r <| Rng.dst_ip := a |>) w
  | What_none => w
  end.

Definition at_most (v max : Z) : Z := if max <? v then max else v.

Definition range_set_src_port (w : world) (what : string) (port : Z) : world :=
  match what_of what with
  | What_inc => upd_range (λ r, r <| Rng.src_port_inc := at_most port 64 |>) w
  | What_min => upd_range (λ r, r <| Rng.src_port_min := port |>) w
  | What_max => upd_range (λ r, r <| Rng.src_port_max := port |>) w
  | What_start => upd_range (λ r, r <| Rng.src_port := port |>) w
  | What_none => w
  end.

Definition range_set_gtpu_teid (w : world) (what : string) (teid : Z) : world :=
  match what_of what with
  | What_inc => if teid =? 0 then w else upd_range (λ r, r <| Rng.gtpu_teid_inc := teid |>) w
  | What_min => upd_range (λ r, r <| Rng.gtpu_teid_min := teid |>) w
  | What_max => upd_range (λ r, r <| Rng.gtpu_teid_max := teid |>) w
  | What_start => upd_pkt RANGE_PKT (λ p, p <| Pkt.gtpu_teid := teid |>)
                    (upd_range (λ r, r <| Rng.gtpu_teid := teid |>) w)
  | What_none => w
  end.

Definition range_set_dst_port (w : world) (what : string) (port : Z) : world :=
  match what_of what with
  | What_inc => upd_range (λ r, r <| Rng.dst_port_inc := at_most port 64 |>) w
  | What_min => upd_range (λ r, r <| Rng.dst_port_min := port |>) w
  | What_max => upd_range (λ r, r <| Rng.dst_port_max := port |>) w
  | What_start => upd_range (λ r, r <| Rng.dst_port := port |>) w
  | What_none => w
  end.

Definition range_set_ttl (w : world) (what : string) (ttl : Z) : world :=
  match what_of what with
  | What_inc => upd_range (λ r, r <| Rng.ttl_inc := ttl |>) w
  | What_min => upd_range (λ r, r <| Rng.ttl_min := ttl |>) w
  | What_max => upd_range (λ r, r <| Rng.ttl_max := ttl |>) w
  | What_start => upd_range (λ r, r <| Rng.ttl := ttl |>) w
  | What_none => w
  end.

Definition range_set_vlan_id (w : world) (what : string) (id : Z) : world :=
  let vid := if (id <? MIN_VLAN_ID) || (MAX_VLAN_ID <? id) then MIN_VLAN_ID else id in
  match what_of what with
  | What_inc => upd_range (λ r, r <| Rng.vlan_id_inc := at_most id 64 |>) w
  | What_min => upd_range (λ r, r <| Rng.vlan_id_min := vid |>) w
  | What_max => upd_range (λ r, r <| Rng.vlan_id_max := vid |>) w
  | What_start => upd_range (λ r, r <| Rng.vlan_id := vid |>) w
  | What_none => w
  end.

Definition range_set_tos_id (w : world) (what : string) (id : Z) : world :=
  match what_of what with
  | What_inc => upd_range (λ r, r <| Rng.tos_inc := id |>) w
  | What_min => upd_range (λ r, r <| Rng.tos_min := id |>) w
  | What_max => upd_range (λ r, r <| Rng.tos_max := id |>) w
  | What_start => upd_range (λ r, r <| Rng.tos := id |>) w
  | What_none => w
  end.

Definition range_set_cos_id (w : world) (what : string) (id : Z) : world :=
  match what_of what with
  | What_inc => upd_range (λ r, r <| Rng.cos_inc := at_most id 7 |>) w
  | What_min => upd_range (λ r, r <| Rng.cos_min := id |>) w
  | What_max => upd_range (λ r, r <| Rng.cos_max := id |>) w
  | What_start => upd_range (λ r, r <| Rng.cos := id |>) w
  | What_none => w
  end.

Definition range_set_pkt_size (w : world) (what : string) (size : Z) : world :=
  let sz := if size <? PG_ETHER_MIN_LEN then MIN_PKT_SIZE
            else if PG_ETHER_MAX_LEN <? size then MAX_PKT_SIZE
            else size - PG_ETHER_CRC_LEN in
  match what_of what with
  | What_inc => upd_range (λ r, r <| Rng.pkt_size_inc := at_most size PG_ETHER_MAX_LEN |>) w
  | What_start => upd_range (λ r, r <| Rng.pkt_size := sz |>) w
  | What_min => upd_range (λ r, r <| Rng.pkt_size_min := sz |>) w
  | What_max => upd_range (λ r, r <| Rng.pkt_size_max := sz |>) w
  | What_none => w
  end.

(** ** ARP requests, pages, sequences *)

Definition pktgen_send_arp_requests (w : world) (type : Z) : world :=
  if type =? GRATUITOUS_ARP then set_flags SEND_GRATUITOUS_ARP w else set_flags SEND_ARP_REQUEST w.

(** Redrawing, of which only the flags are modelled; [paused] is [scrn_is_paused()]. *)
Definition pktgen_clear_display (paused : bool) (w : world) : world :=
  if paused then w else pktgen_update_display w.

Definition pktgen_set_page_size (paused : bool) (w : world) (page_size : Z) : world :=
  if (0 <? page_size) && (page_size <=? Pg.nb_ports (g w)) && (page_size <=? 6) then
    let w := upd_g (λ g, g <| Pg.nb_ports_per_page := page_size |>) w in
    let w := upd_g (λ g, g <| Pg.ending_port := u8 (Pg.starting_port g + page_size) |>) w in
    let w := upd_g (λ g, if Pg.starting_port g + Pg.nb_ports g <=? Pg.ending_port g
                         then g <| Pg.ending_port := u8 (Pg.starting_port g + Pg.nb_ports g) |>
                         else g) w in
    pktgen_clear_display paused w
  else w.

Definition pktgen_set_port_number (paused : bool) (w : world) (port_number : Z) : world :=
  if port_number <? Pg.nb_ports (g w)
  then pktgen_clear_display paused (upd_g (λ g, g <| Pg.portNum := port_number |>) w)
  else w.

Definition is_digit (c : ascii) : bool :=
  (Z.of_N (N_of_ascii c) >=? 48) && (Z.of_N (N_of_ascii c) <=? 57).

(** [atoi] of a string that starts with a digit. *)
Fixpoint atoi (s : string) (acc : Z) : Z :=
  match s with
  | String c s => if is_digit c then atoi s (10 * acc + (Z.of_N (N_of_ascii c) - 48)) else acc
  | EmptyString => acc
  end.

Definition page_flag_of (str : string) : option Z :=
  let _cp s := String.eqb str s in
  if _cp "cpu" then Some CPU_PAGE_FLAG
  else if _cp "pcap" then Some PCAP_PAGE_FLAG
  else if _cp "range" then Some RANGE_PAGE_FLAG
  else if _cp "config" || _cp "cfg" then Some CONFIG_PAGE_FLAG
  else if _cp "stats" then Some STATS_PAGE_FLAG
  else if _cp "xstats" then Some XSTATS_PAGE_FLAG
  else if _cp "sequence" || _cp "seq" then Some SEQUENCE_PAGE_FLAG
  else if _cp "random" || _cp "rnd" then Some RND_BITFIELD_PAGE_FLAG
  else if _cp "log" then Some LOG_PAGE_FLAG
  else if _cp "latency" || _cp "lat" then Some LATENCY_PAGE_FLAG
  else if _cp "rate-pacing" || _cp "rate" then Some RATE_PAGE_FLAG
  else None.

Definition upd_pcap (f : pcap_info_t → pcap_info_t) (w : world) : world :=
  upd_info (λ i, i <| Info.pcap ::= fmap f |>) w.

(** The last branch: a port page, by number. *)
Definition main_page (page : Z) (w : world) : world :=
  let start_port := u16 (page * Pg.nb_ports_per_page (g w)) in
  let w :=
    if negb (Pg.starting_port (g w) =? start_port) && (start_port <? Pg.nb_ports (g w)) then
      upd_g (λ g,
        let g := g <| Pg.starting_port := u8 start_port |>
                   <| Pg.ending_port := u8 (start_port + Pg.nb_ports_per_page g) |> in
        if Pg.starting_port g + Pg.nb_ports g <? Pg.ending_port g
        then g <| Pg.ending_port := u8 (Pg.starting_port g + Pg.nb_ports g) |> else g) w
    else w in
  if tst_bits (Pg.flags (g w)) PAGE_MASK_BITS
  then g_set_flags PRINT_LABELS_FLAG (g_clr_flags PAGE_MASK_BITS w) else w.

(** [info w] is the port [pktgen.portNum] is at. *)
Definition pktgen_set_page (paused : bool) (w : world) (str : string) : world :=
  let digit := is_digit (chr str 0) in
  let page := if digit then u16 (atoi str 0) else 0 in
  if digit && (Pg.nb_ports (g w) <? page) then w
  else pktgen_clear_display paused
    (if String.eqb str "next" then
       g_set_flags PRINT_LABELS_FLAG (upd_pcap (λ p,
         if u32 (Pcap.pkt_idx p + PCAP_PAGE_SIZE) <? Pcap.pkt_count p
         then p <| Pcap.pkt_idx ::= λ x, u32 (x + PCAP_PAGE_SIZE) |>
         else p <| Pcap.pkt_idx := 0 |>) w)
     else match page_flag_of str with
     | Some f =>
         let w := g_set_flags f (g_clr_flags PAGE_MASK_BITS w) in
         if f =? PCAP_PAGE_FLAG then upd_pcap (λ p, p <| Pcap.pkt_idx := 0 |>) w else w
     | None => main_page (if String.eqb str "main" then 0 else page) w
     end).

(** [&info->seq_pkt[seqnum]]: no check is made, and a slot past the end of the
    array is not defined. *)
Definition is_slot (seqnum : Z) : bool := (0 <=? seqnum) && (seqnum <? NUM_TOTAL_PKTS).

(** An IPv6 address is copied as it is, so its first word lands in the field. *)
Definition pktgen_set_seq (w : world) (seqnum daddr saddr : Z) (ip_daddr ip_saddr : pg_ipaddr)
    (sport dport : Z) (type proto : ascii) (vlanid pktsize gtpu_teid : Z) : option world :=
  let ip4 := Ascii.eqb type "4" in
  let icmp := Ascii.eqb proto "i" in
  let type := if icmp then "4"%char else type in
  if negb (is_slot seqnum) then None else
  Some (rebuild seqnum (upd_pkt seqnum (λ p,
    p <| Pkt.eth_dst_addr := daddr |> <| Pkt.eth_src_addr := saddr |>
      <| Pkt.ip_mask := size_to_mask (prefixlen ip_saddr) |>
      <| Pkt.ip_src_addr := if ip4 then htonl (s_addr ip_saddr) else s_addr ip_saddr |>
      <| Pkt.ip_dst_addr := if ip4 then htonl (s_addr ip_daddr) else s_addr ip_daddr |>
      <| Pkt.dport := u16 dport |> <| Pkt.sport := u16 sport |>
      <| Pkt.pktSize := u16 (pktsize - PG_ETHER_CRC_LEN) |>
      <| Pkt.ipProto := if Ascii.eqb proto "u" then PG_IPPROTO_UDP
                        else if icmp then PG_IPPROTO_ICMP else PG_IPPROTO_TCP |>
      <| Pkt.ethType := if Ascii.eqb type "6" then PG_ETHER_TYPE_IPv6 else PG_ETHER_TYPE_IPv4 |>
      <| Pkt.vlanid := vlanid |> <| Pkt.gtpu_teid := gtpu_teid |>) w)).

Definition pktgen_set_cos_tos_seq (w : world) (seqnum cos tos : Z) : option world :=
  if negb (is_slot seqnum) then None else
  Some (rebuild seqnum (upd_pkt seqnum (λ p, p <| Pkt.cos := u8 cos |> <| Pkt.tos := u8 tos |>) w)).

Definition pktgen_set_vxlan_seq (w : world) (seqnum flag gid vid : Z) : option world :=
  if negb (is_slot seqnum) then None else
  Some (rebuild seqnum (upd_pkt seqnum (λ p,
    p <| Pkt.vni_flags := u16 flag |> <| Pkt.group_id := u16 gid |> <| Pkt.vxlan_id := vid |>) w)).

(** ** What the commands report *)

Definition pktgen_port_transmitting (w : world) : bool := tst_flags w SENDING_PACKETS.
Definition pktgen_port_sizes (w : world) : port_sizes_t := Info.sizes (info w).
Definition pktgen_pkt_stats (w : world) : pkt_stats_t := Info.stats (info w).

(** [buf] is what [*pstats] held; other names leave it alone. *)
Definition pktgen_port_stats (w : world) (name : string) (buf : eth_stats_t) : eth_stats_t :=
  if String.eqb name "port" then Info.prev_stats (info w)
  else if String.eqb name "rate" then Info.rate_stats (info w)
  else buf.

(** ["%-6s"] and ["%6s"] of a string of at most six characters. *)
Definition spaces (n : nat) : string := string_of_list_ascii (replicate n " "%char).
Definition pad_right (s : string) : string := s +:+ spaces (6 - String.length s).
Definition pad_left (s : string) : string := spaces (6 - String.length s) +:+ s.

Definition mode_name (flags : Z) : string :=
  let f := tst_bits flags in
  if f SEND_PCAP_PKTS then "PCAP" else if f SEND_SEQ_PKTS then "Seq"
  else if f SEND_RANGE_PKTS then "Range" else if f SEND_LATENCY_PKTS then "Lat"
  else if f SEND_RANDOM_PKTS then "Rand" else if f SEND_RATE_PACKETS then "Rate" else "Single".

Definition encap_name (flags : Z) : string :=
  let f := tst_bits flags in
  if f SEND_VLAN_ID then "VLAN" else if f SEND_VXLAN_PACKETS then "VxLAN"
  else if f SEND_MPLS_LABEL then "MPLS" else if f SEND_Q_IN_Q_IDS then "QnQ"
  else if f SEND_GRE_IPv4_HEADER then "GREip" else if f SEND_GRE_ETHER_HEADER then "GREet"
  else EmptyString.

Definition tap_char (flags : Z) : ascii :=
  chr "-rt*" (Z.to_nat
    (Z.shiftr (Z.land flags (PROCESS_RX_TAP_PKTS ||| PROCESS_TX_TAP_PKTS)) 9)).

Definition pktgen_flags_string (w : world) : string :=
  let flags := Info.port_flags (info w) in
  let letter (on : bool) (c : ascii) := if on then c else "-"%char in
  string_of_list_ascii
    [letter (tst_bits (Pg.flags (g w)) PROMISCUOUS_ON_FLAG) "P"%char;
     letter (tst_bits flags ICMP_ECHO_ENABLE_FLAG) "E"%char;
     letter (tst_bits flags BONDING_TX_PACKETS) "B"%char;
     letter (tst_bits flags PROCESS_INPUT_PKTS) "I"%char;
     tap_char flags;
     letter (tst_bits flags PROCESS_GARP_PKTS) "g"%char;
     letter (tst_bits flags CAPTURE_PKTS) "c"%char]
  +:+ pad_right (mode_name flags) +:+ pad_left (encap_name flags).
