(* ===== verification/Session.v ===== *)
(** * Sessions: the commands of a port as a transition system

    The commands of [Commands] as one inductive type, sessions as sequences of
    them, and the invariant every session keeps: at most one exclusive mode, a
    capture file behind the PCAP mode, counts and sizes within their bounds. *)
From Stdlib Require Import Floats.SpecFloat Ascii String.
From S2P Require Import Prelude Mem PortInfo Headers Pacing Commands.

(** ** Commands *)
Inductive command :=
  | Enable_icmp_echo (s : Z) | Enable_rx_tap (env : tap_env) (s : Z)
  | Enable_tx_tap (env : tap_env) (s : Z) | Enable_random (s : Z)
  | Enable_pcap (s : Z) | Enable_rate (s : Z) | Enable_process (s : Z)
  | Enable_bonding (conf : Z) (slaves active : option (list Z)) (s : Z)
  | Enable_garp (s : Z) | Enable_vxlan (s : Z) | Enable_vlan (s : Z) | Enable_mpls (s : Z)
  | Enable_qinq (s : Z) | Enable_gre (s : Z) | Enable_gre_eth (s : Z) | Enable_range (s : Z)
  | Enable_latency (s : Z)
  | Start | Stop | Prime | Ping4 | Pdump (alloc : bool) | Send_arp (type : Z)
  | Port_restart | Defaults (peer : option (Z → pkt_seq_t)) (seq : Z)
  | Clear_stats (hw : eth_stats_t) | Range_setup | Rate_setup
  | Set_proto (type : string) | Rate_set_proto (type : string) | Range_set_proto (type : string)
  | Set_pkt_type (type : string) | Rate_set_pkt_type (type : string)
  | Range_set_pkt_type (type : string)
  | Set_vlan_id (v : Z) | Set_cos (v : Z) | Set_tos (v : Z) | Set_vxlan (f gid vid : Z)
  | Set_mpls (v : Z) | Set_qinq (o i : Z) | Range_set_qinq (o i : Z) | Set_gre_key (v : Z)
  | Set_tx_count (v : Z) | Set_seq_cnt (v : Z) | Set_prime (v : Z) | Set_dump (v : Z)
  | Set_tx_burst (v : Z) | Set_tx_cycles (v : Z) | Set_pkt_size (v : Z)
  | Rate_set_pkt_size (v : Z) | Set_port (type : ascii) (v : Z)
  | Rate_set_port (type : ascii) (v : Z) | Set_tx_rate (r : spec_float)
  | Set_ipaddr (type : ascii) (ip : pg_ipaddr) | Rate_set_ipaddr (type : ascii) (ip : pg_ipaddr)
  | Set_mac (which : string) (mac : Z) | Rate_set_dst_mac (mac : Z) | Rate_set_src_mac (mac : Z)
  | Set_ttl (v : Z) | Rate_set_ttl (v : Z) | Set_jitter (hz v : Z)
  | Set_pattern (s : string) | Set_user_pattern (s : string) | Rate_value (what : string) (v : Z)
  | Range_dst_mac (what : string) (v : Z) | Range_src_mac (what : string) (v : Z)
  | Range_src_ip (what : string) (ip : pg_ipaddr) | Range_dst_ip (what : string) (ip : pg_ipaddr)
  | Range_src_port (what : string) (v : Z) | Range_dst_port (what : string) (v : Z)
  | Range_teid (what : string) (v : Z) | Range_ttl (what : string) (v : Z)
  | Range_vlan (what : string) (v : Z) | Range_tos (what : string) (v : Z)
  | Range_cos (what : string) (v : Z) | Range_size (what : string) (v : Z)
  | Seq (n daddr saddr : Z) (dip sip : pg_ipaddr) (sp dp : Z) (type proto : ascii) (vid size teid : Z)
  | Seq_cos_tos (n c t : Z) | Seq_vxlan (n f gid vid : Z).

Definition run (c : command) (w : world) : option world :=
  match c with
  | Enable_icmp_echo s => Some (enable_icmp_echo w s)
  | Enable_rx_tap env s => Some (enable_rx_tap env w s)
  | Enable_tx_tap env s => Some (enable_tx_tap env w s)
  | Enable_random s => Some (enable_random w s)
  | Enable_pcap s => Some (enable_pcap w s)
  | Enable_rate s => enable_rate w s
  | Enable_process s => Some (enable_process w s)
  | Enable_bonding c sl ac s => Some (fst (enable_bonding c sl ac w s))
  | Enable_garp s => Some (enable_garp w s)
  | Enable_vxlan s => Some (enable_vxlan w s)
  | Enable_vlan s => Some (enable_vlan w s)
  | Enable_mpls s => Some (enable_mpls w s)
  | Enable_qinq s => Some (enable_qinq w s)
  | Enable_gre s => Some (enable_gre w s)
  | Enable_gre_eth s => Some (enable_gre_eth w s)
  | Enable_range s => enable_range w s
  | Enable_latency s => Some (enable_latency w s)
  | Start => Some (pktgen_start_transmitting w)
  | Stop => Some (pktgen_stop_transmitting w)
  | Prime => Some (pktgen_prime_ports w)
  | Ping4 => Some (pktgen_ping4 w)
  | Pdump a => Some (debug_pdump a w)
  | Send_arp t => Some (pktgen_send_arp_requests w t)
  | Port_restart => Some (pktgen_port_restart w)
  | Defaults peer s => if is_slot s then Some (pktgen_port_defaults peer w s) else None
  | Clear_stats hw => Some (pktgen_clear_stats hw w)
  | Range_setup => Some (pktgen_range_setup w)
  | Rate_setup => pktgen_rate_setup w
  | Set_proto t => Some (single_set_proto w t)
  | Rate_set_proto t => Some (rate_set_proto w t)
  | Range_set_proto t => Some (range_set_proto w t)
  | Set_pkt_type t => Some (single_set_pkt_type w t)
  | Rate_set_pkt_type t => Some (rate_set_pkt_type w t)
  | Range_set_pkt_type t => Some (range_set_pkt_type w t)
  | Set_vlan_id v => Some (single_set_vlan_id w v)
  | Set_cos v => Some (single_set_cos w v)
  | Set_tos v => Some (single_set_tos w v)
  | Set_vxlan f gid vid => Some (single_set_vxlan w f gid vid)
  | Set_mpls v => Some (range_set_mpls_entry w v)
  | Set_qinq o i => Some (single_set_qinqids w o i)
  | Range_set_qinq o i => Some (range_set_qinqids w o i)
  | Set_gre_key v => Some (range_set_gre_key w v)
  | Set_tx_count v => Some (single_set_tx_count w v)
  | Set_seq_cnt v => Some (pktgen_set_port_seqCnt w v)
  | Set_prime v => Some (pktgen_set_port_prime w v)
  | Set_dump v => Some (debug_set_port_dump w v)
  | Set_tx_burst v => single_set_tx_burst w v
  | Set_tx_cycles v => Some (debug_set_tx_cycles w v)
  | Set_pkt_size v => single_set_pkt_size w v
  | Rate_set_pkt_size v => rate_set_pkt_size w v
  | Set_port t v => Some (single_set_port_value w t v)
  | Rate_set_port t v => Some (rate_set_port_value w t v)
  | Set_tx_rate r => single_set_tx_rate w r
  | Set_ipaddr t ip => Some (single_set_ipaddr w t ip)
  | Rate_set_ipaddr t ip => Some (rate_set_ipaddr w t ip)
  | Set_mac wh m => Some (single_set_mac w wh m)
  | Rate_set_dst_mac m => Some (rate_set_dst_mac w m)
  | Rate_set_src_mac m => Some (rate_set_src_mac w m)
  | Set_ttl v => Some (single_set_ttl_value w v)
  | Rate_set_ttl v => Some (rate_set_ttl_value w v)
  | Set_jitter hz v => Some (single_set_jitter hz w v)
  | Set_pattern s => Some (pattern_set_type w s)
  | Set_user_pattern s => pattern_set_user_pattern w s
  | Rate_value what v => Some (upd_info (λ i, rate_set_value i what v) w)
  | Range_dst_mac wh v => Some (range_set_dest_mac w wh v)
  | Range_src_mac wh v => Some (range_set_src_mac w wh v)
  | Range_src_ip wh ip => Some (range_set_src_ip w wh ip)
  | Range_dst_ip wh ip => Some (range_set_dst_ip w wh ip)
  | Range_src_port wh v => Some (range_set_src_port w wh v)
  | Range_dst_port wh v => Some (range_set_dst_port w wh v)
  | Range_teid wh v => Some (range_set_gtpu_teid w wh v)
  | Range_ttl wh v => Some (range_set_ttl w wh v)
  | Range_vlan wh v => Some (range_set_vlan_id w wh v)
  | Range_tos wh v => Some (range_set_tos_id w wh v)
  | Range_cos wh v => Some (range_set_cos_id w wh v)
  | Range_size wh v => Some (range_set_pkt_size w wh v)
  | Seq n d s dip sip sp dp t pr vid size teid =>
      pktgen_set_seq w n d s dip sip sp dp t pr vid size teid
  | Seq_cos_tos n c t => pktgen_set_cos_tos_seq w n c t
  | Seq_vxlan n f gid vid => pktgen_set_vxlan_seq w n f gid vid
  end.

(** A session: commands one after the other, as long as each has a result. *)
Fixpoint session (cs : list command) (w : world) : option world :=
  match cs with
  | [] => Some w
  | c :: cs => w ← run c w; session cs w
  end.

(** ** The invariant *)

Definition MODE_BITS := EXCLUSIVE_MODES ||| EXCLUSIVE_PKT_MODES.

(** At most one of the exclusive bits is set. *)
Definition one_mode (v : Z) : Prop :=
  ∀ i j, 0 ≤ i → 0 ≤ j → Z.testbit MODE_BITS i = true → Z.testbit MODE_BITS j = true →
    Z.testbit v i = true → Z.testbit v j = true → i = j.

Definition pcap_ok (p : pcap_info_t) : Prop := 0 ≤ Pcap.pkt_size p < 65536.

Record flags_ok (v : Z) (pcap : option pcap_info_t) : Prop := {
  fo_word : in_word 32 v;
  fo_mode : one_mode v;
  fo_pcap : tst_bits v SEND_PCAP_PKTS = true → ∃ p, pcap = Some p ∧ Pcap.pkt_count p ≠ 0;
  fo_forever : tst_bits v SEND_FOREVER = true → tst_bits v SENDING_PACKETS = true }.

Definition sizes_ok (pkts : Z → pkt_seq_t) : Prop := ∀ k, in_word 16 (Pkt.pktSize (pkts k)).

Record port_ok (i : port_info_t) : Prop := {
  ok_flags : flags_ok (Info.port_flags i) (Info.pcap i);
  ok_pcap : ∀ p, Info.pcap i = Some p → pcap_ok p;
  ok_sizes : sizes_ok (Info.seq_pkt i);
  ok_burst : 1 ≤ Info.tx_burst i ≤ DEFAULT_PKT_BURST;
  ok_seqCnt : 0 ≤ Info.seqCnt i ≤ NUM_SEQ_PKTS;
  ok_prime : 1 ≤ Info.prime_cnt i ≤ MAX_PRIME_COUNT;
  ok_dump : 0 ≤ Info.dump_count i ≤ MAX_DUMP_PACKETS }.

(** What of a port the invariant looks at, besides the packet sizes. *)
Definition core (i : port_info_t) :=
  (Info.port_flags i, Info.pcap i, Info.tx_burst i, Info.seqCnt i, Info.prime_cnt i,
   Info.dump_count i).

Lemma port_ok_ext i i' :
  core i' = core i → sizes_ok (Info.seq_pkt i') → port_ok i → port_ok i'.
Proof.
  unfold core. intros E Hs [H1 H2 H3 H4 H5 H6 H7]. injection E as E1 E2 E3 E4 E5 E6.
  split; rewrite ?E1, ?E2, ?E3, ?E4, ?E5, ?E6; done.
Qed.

(** ** Preservation, piece by piece *)

Definition ok (w : world) : Prop := port_ok (info w).

Create HintDb port.

Lemma ok_upd_info f w :
  (∀ i, core (f i) = core i) → (∀ i, Info.seq_pkt (f i) = Info.seq_pkt i) →
  ok w → ok (upd_info f w).
Proof.
  intros Hc Hs H. apply (port_ok_ext (info w)); [apply Hc| |exact H].
  change (sizes_ok (Info.seq_pkt (f (info w)))). rewrite Hs. apply H.
Qed.

Lemma ok_upd_g f w : ok w → ok (upd_g f w).
Proof. exact id. Qed.

Lemma ok_set_pkt k p w : in_word 16 (Pkt.pktSize p) → ok w → ok (set_pkt k p w).
Proof.
  intros Hp H. apply (port_ok_ext (info w)); [done| |exact H].
  intros j. change (in_word 16 (Pkt.pktSize (set_at k p (Info.seq_pkt (info w)) j))).
  unfold set_at. destruct (j =? k); [done|apply H].
Qed.

Lemma ok_size k w : ok w → in_word 16 (Pkt.pktSize (get_pkt w k)).
Proof. intros H. apply H. Qed.

Lemma ok_upd_pkt k f w :
  in_word 16 (Pkt.pktSize (f (get_pkt w k))) → ok w → ok (upd_pkt k f w).
Proof. apply ok_set_pkt. Qed.

(** An update of other fields than the size. *)
Lemma ok_upd_pkt_keep k f w :
  Pkt.pktSize (f (get_pkt w k)) = Pkt.pktSize (get_pkt w k) → ok w → ok (upd_pkt k f w).
Proof. intros E H. apply ok_upd_pkt; [|done]. rewrite E. by apply ok_size. Qed.

Lemma ok_ctor w k t : ok w → ok (pktgen_packet_ctor w k t).
Proof.
  intros H. unfold pktgen_packet_ctor.
  pose proof (ctor_pkt_size (info w) (Pg.ident (g w)) (get_pkt w k) t) as E.
  destruct (ctor_pkt _ _ _ t) as [p id]. cbn [fst] in E.
  apply ok_set_pkt; [rewrite E; by apply ok_size|exact H].
Qed.

Lemma set_q_flags_upto_core n q f i :
  core (set_q_flags_upto n q f i) = core i ∧
  Info.seq_pkt (set_q_flags_upto n q f i) = Info.seq_pkt i.
Proof.
  revert q i. induction n as [|n IH]; intros q i; [done|]. cbn [set_q_flags_upto].
  destruct (IH (q + 1) (pktgen_set_q_flags i q f)) as [-> ->]. done.
Qed.

Lemma ok_q_flags f w : ok w → ok (all_q_flags f w).
Proof. intros H. by apply ok_upd_info; [intros i; apply set_q_flags_upto_core..|]. Qed.

Lemma ok_rebuild k w : ok w → ok (rebuild k w).
Proof. intros H. apply ok_q_flags, ok_ctor, H. Qed.

(** Flag words: changes a setter may make. *)
Definition harmless (f : Z) : bool :=
  (Z.land f (MODE_BITS ||| SEND_FOREVER) =? 0) && (0 <=? f) && (f <? 2 ^ 32).
Definition clear_safe (f : Z) : bool :=
  negb (tst_bits f SENDING_PACKETS) || tst_bits f SEND_FOREVER.

Lemma land_zero_bit a b i : Z.land a b = 0 → Z.testbit b i = true → Z.testbit a i = false.
Proof.
  intros H Hb. apply (f_equal (λ z, Z.testbit z i)) in H.
  by rewrite Z.land_spec, Hb, andb_true_r, Z.testbit_0_l in H.
Qed.

(** A flag is a power of two. *)
Lemma tst_flag v k : 0 ≤ k → tst_bits v (Z.shiftl 1 k) = Z.testbit v k.
Proof.
  intros Hk. unfold tst_bits. rewrite Z.shiftl_1_l. symmetry.
  destruct (Z.testbit v k) eqn:E.
  - destruct (Z.eqb_spec (Z.land v (2 ^ k)) 0) as [H|]; [|done].
    apply (f_equal (λ z, Z.testbit z k)) in H.
    by rewrite Z.land_spec, E, Z.pow2_bits_true, Z.testbit_0_l in H.
  - destruct (Z.eqb_spec (Z.land v (2 ^ k)) 0) as [|H]; [done|]. destruct H.
    apply Z.bits_inj'. intros i Hi. rewrite Z.land_spec, Z.pow2_bits_eqb, Z.testbit_0_l by done.
    destruct (Z.eqb_spec k i) as [->|]; [by rewrite E|apply andb_false_r].
Qed.

Lemma mode_bits_spec i :
  Z.testbit MODE_BITS i = Z.testbit EXCLUSIVE_MODES i || Z.testbit EXCLUSIVE_PKT_MODES i.
Proof. apply Z.lor_spec. Qed.

Lemma flags_set_ok v pc f : harmless f = true → flags_ok v pc → flags_ok (set_bits v f) pc.
Proof.
  unfold harmless. rewrite !andb_true_iff, Z.eqb_eq, Z.leb_le, Z.ltb_lt.
  intros [[Hf H0] H1] [Hw Hm Hp Hv].
  assert (∀ i, Z.testbit MODE_BITS i = true → Z.testbit f i = false) as Hfm.
  { intros i Hi. apply (land_zero_bit _ _ _ Hf). by rewrite Z.lor_spec, Hi. }
  assert (Z.testbit f 31 = false ∧ Z.testbit f 12 = false) as [F31 F12]
    by (split; apply (land_zero_bit _ _ _ Hf); reflexivity).
  split.
  - apply set_bits_word; [done|word_lia].
  - intros i j Hi Hj Mi Mj. rewrite !set_bits_spec, !Hfm, !orb_false_r by done. by apply Hm.
  - unfold SEND_PCAP_PKTS in *. rewrite !tst_flag in * by lia.
    rewrite set_bits_spec, F12, orb_false_r. exact Hp.
  - unfold SEND_FOREVER, SENDING_PACKETS in *. rewrite !tst_flag in * by lia.
    rewrite !set_bits_spec, F31, orb_false_r. intros H. by rewrite Hv.
Qed.

Lemma flags_clr_ok v pc f : clear_safe f = true → flags_ok v pc → flags_ok (clr_bits v f) pc.
Proof.
  intros Hf [Hw Hm Hp Hv]. unfold clear_safe in Hf.
  split; unfold SEND_PCAP_PKTS, SEND_FOREVER, SENDING_PACKETS in *; rewrite ?tst_flag in * by lia.
  - by apply clr_bits_word.
  - intros i j Hi Hj Mi Mj. rewrite !clr_bits_spec by done.
    intros [Vi _]%andb_prop [Vj _]%andb_prop. by apply Hm.
  - rewrite clr_bits_spec by (done || lia). intros [H _]%andb_prop. by apply Hp.
  - rewrite !clr_bits_spec by (done || lia). intros [H1 H2]%andb_prop.
    rewrite Hv by done. apply negb_true_iff in H2. rewrite H2, orb_false_r in Hf. exact Hf.
Qed.

Lemma flags_exclusive_ok v pc k :
  0 ≤ k < 30 → Z.testbit MODE_BITS k = true →
  (k = 12 → ∃ p, pc = Some p ∧ Pcap.pkt_count p ≠ 0) → flags_ok v pc →
  flags_ok (set_bits (clr_bits (clr_bits v EXCLUSIVE_MODES) EXCLUSIVE_PKT_MODES) (Z.shiftl 1 k)) pc.
Proof.
  intros Hk Mk Hpk [Hw Hm Hp Hv]. set (v1 := clr_bits v EXCLUSIVE_MODES).
  assert (in_word 32 v1) as Hw1 by by apply clr_bits_word.
  set (v2 := clr_bits v1 EXCLUSIVE_PKT_MODES).
  assert (in_word 32 v2) as Hw2 by by apply clr_bits_word.
  assert (∀ i, 0 ≤ i → Z.testbit v2 i = Z.testbit v i && negb (Z.testbit MODE_BITS i)) as Hb.
  { intros i Hi. unfold v2, v1. rewrite !clr_bits_spec, mode_bits_spec, negb_orb by done.
    apply andb_assoc_reverse || by rewrite andb_assoc. }
  rewrite Z.shiftl_1_l.
  assert (∀ i, 0 ≤ i → Z.testbit MODE_BITS i = true →
               Z.testbit (set_bits v2 (2 ^ k)) i = true → i = k) as Hone.
  { intros i Hi Mi. rewrite set_bits_spec, Hb, Mi, andb_false_r, Z.pow2_bits_eqb by lia.
    by intros ->%Z.eqb_eq. }
  split; unfold SEND_PCAP_PKTS, SEND_FOREVER, SENDING_PACKETS in *; rewrite ?tst_flag in * by lia.
  - apply set_bits_word; [done|]. split; [lia|]. apply Z.pow_lt_mono_r; lia.
  - intros i j Hi Hj Mi Mj Vi Vj. by rewrite (Hone i), (Hone j).
  - intros H. apply Hpk. symmetry. apply Hone; [lia|reflexivity|exact H].
  - rewrite !set_bits_spec, !Hb, !Z.pow2_bits_eqb by lia.
    destruct (Z.eqb_spec k 31); [lia|]. destruct (Z.eqb_spec k 30); [lia|].
    rewrite !orb_false_r. intros [H _]%andb_prop. by rewrite Hv.
Qed.

Lemma ok_upd_flags (f : Z → Z) w :
  flags_ok (f (flags_of w)) (Info.pcap (info w)) → ok w →
  ok (upd_info (λ i, i <| Info.port_flags ::= f |>) w).
Proof. intros Hf [H1 H2 H3 H4 H5 H6 H7]. split; done. Qed.

Lemma ok_set_flags f w : harmless f = true → ok w → ok (set_flags f w).
Proof.
  intros Hf H. apply (ok_upd_flags (λ v, set_bits v f)); [|done]. by apply flags_set_ok; [|apply H].
Qed.

Lemma ok_clr_flags f w : clear_safe f = true → ok w → ok (clr_flags f w).
Proof.
  intros Hf H. apply (ok_upd_flags (λ v, clr_bits v f)); [|done]. by apply flags_clr_ok; [|apply H].
Qed.

Lemma ok_exclusive k w :
  0 ≤ k < 30 → Z.testbit MODE_BITS k = true →
  (k = 12 → ∃ p, Info.pcap (info w) = Some p ∧ Pcap.pkt_count p ≠ 0) →
  ok w → ok (exclusive (Z.shiftl 1 k) w).
Proof.
  intros Hk Mk Hp H. unfold exclusive.
  apply (ok_upd_flags (λ v, set_bits v (Z.shiftl 1 k))); [|by repeat apply ok_clr_flags].
  change (flags_ok (set_bits (clr_bits (clr_bits (flags_of w) EXCLUSIVE_MODES) EXCLUSIVE_PKT_MODES)
                      (Z.shiftl 1 k)) (Info.pcap (info w))).
  by apply flags_exclusive_ok; [..|apply H].
Qed.

Lemma ok_packet_rate w w' : pktgen_packet_rate w = Some w' → ok w → ok w'.
Proof.
  unfold pktgen_packet_rate. destruct (pktgen_wire_size _) as [wire|]; [|done]. cbn [mbind option_bind].
  destruct (div_trap _ _); [|done]. cbn [mbind option_bind].
  intros [= <-] H. apply ok_upd_info; [reflexivity|reflexivity|exact H].
Qed.

Lemma ok_calculate_rate w w' : calculate_rate w = Some w' → ok w → ok w'.
Proof.
  unfold calculate_rate. cbn [mbind option_bind].
  repeat (match goal with |- context [mbind _ ?m] => destruct m; [cbn [mbind option_bind]|done] end).
  intros [= <-] H. apply ok_upd_info; [reflexivity|reflexivity|exact H].
Qed.

Lemma ok_upd_pkt_size k f w :
  (∀ p, in_word 16 (Pkt.pktSize p) → in_word 16 (Pkt.pktSize (f p))) → ok w → ok (upd_pkt k f w).
Proof. intros Hf H. apply ok_upd_pkt; [|done]. apply Hf. by apply ok_size. Qed.

Lemma retype_size type p : in_word 16 (Pkt.pktSize p) → in_word 16 (Pkt.pktSize (retype type p)).
Proof.
  intros H. unfold retype. repeat case_match; try (apply wrap_in_word; lia); exact H.
Qed.

(** A new size: truncated, constant, or the one of an untouched packet. *)
Ltac size_tac :=
  first [apply retype_size
        |intros p Hp; repeat case_match; cbn [Pkt.pktSize upd];
         first [exact Hp|apply wrap_in_word; lia|split; vm_compute; congruence]].

(** One step of a preservation proof, on the outermost operation. *)
Ltac port_step :=
  match goal with
  | H : ok ?w |- ok ?w => exact H
  | |- ok (if ?b then _ else _) => destruct b
  | |- ok (match ?x with Some _ => _ | None => _ end) => destruct x
  | |- ok (match ?x with What_min => _ | _ => _ end) => destruct x
  | |- ok (rebuild _ _) => apply ok_rebuild
  | |- ok (pktgen_set_tx_update _) => apply ok_q_flags
  | |- ok (all_q_flags _ _) => apply ok_q_flags
  | |- ok (pktgen_packet_ctor _ _ _) => apply ok_ctor
  | |- ok (upd_g _ _) => apply ok_upd_g
  | |- ok (g_set_flags _ _) => apply ok_upd_g
  | |- ok (g_clr_flags _ _) => apply ok_upd_g
  | |- ok (set_flags _ _) => apply ok_set_flags; [reflexivity|]
  | |- ok (clr_flags _ _) => apply ok_clr_flags; [reflexivity|]
  | |- ok (exclusive _ _) => apply ok_exclusive; [lia|reflexivity|lia|]
  | |- ok (upd_range _ _) => apply ok_upd_info; [reflexivity|reflexivity|]
  | |- ok (upd_info _ _) => apply ok_upd_info; [reflexivity|reflexivity|]
  | |- ok (upd_pkt _ _ _) =>
      apply ok_upd_pkt_size; [solve [size_tac]|]
  | |- ok (set_pkt _ (get_pkt _ _) _) => apply ok_set_pkt; [by apply ok_size|]
  end.
Ltac port_auto := cbn zeta; repeat port_step.

#[export] Hint Unfold enable_icmp_echo enable_rx_tap enable_tx_tap enable_random enable_process
  enable_garp enable_vxlan enable_vlan enable_mpls enable_qinq enable_gre enable_gre_eth
  enable_encap enable_latency pktgen_start_transmitting pktgen_stop_transmitting
  pktgen_prime_ports pktgen_ping4 debug_pdump pktgen_send_arp_requests pktgen_port_restart
  pktgen_update_display pktgen_clear_stats pktgen_range_setup single_set_proto rate_set_proto
  slot_set_proto range_set_proto single_set_pkt_type rate_set_pkt_type range_set_pkt_type
  single_set_vlan_id single_set_cos single_set_tos single_set_vxlan range_set_mpls_entry
  single_set_qinqids range_set_qinqids range_set_gre_key single_set_tx_count rate_set_tx_count
  debug_set_tx_cycles single_set_port_value rate_set_port_value slot_set_port_value
  single_set_ipaddr rate_set_ipaddr slot_set_ipaddr single_set_mac rate_set_dst_mac
  rate_set_src_mac slot_set_dst_mac slot_set_src_mac single_set_ttl_value rate_set_ttl_value
  slot_set_ttl single_set_jitter pattern_set_type range_set_dest_mac range_set_src_mac
  range_set_src_ip range_set_dst_ip range_set_src_port range_set_dst_port range_set_gtpu_teid
  range_set_ttl range_set_vlan_id range_set_tos_id range_set_cos_id range_set_pkt_size
  pktgen_set_seq pktgen_set_cos_tos_seq pktgen_set_vxlan_seq
  SEND_RANDOM_PKTS SEND_VXLAN_PACKETS SEND_VLAN_ID SEND_MPLS_LABEL SEND_Q_IN_Q_IDS
  SEND_GRE_IPv4_HEADER SEND_GRE_ETHER_HEADER SEND_LATENCY_PKTS SEND_SEQ_PKTS SEND_RANGE_PKTS
  SEND_RATE_PACKETS : port.

(** Updates of a counted field of the core. *)
Lemma ok_counts f w :
  (∀ i, Info.port_flags (f i) = Info.port_flags i) → (∀ i, Info.pcap (f i) = Info.pcap i) →
  (∀ i, Info.seq_pkt (f i) = Info.seq_pkt i) →
  (∀ i, port_ok i → 1 ≤ Info.tx_burst (f i) ≤ DEFAULT_PKT_BURST) →
  (∀ i, port_ok i → 0 ≤ Info.seqCnt (f i) ≤ NUM_SEQ_PKTS) →
  (∀ i, port_ok i → 1 ≤ Info.prime_cnt (f i) ≤ MAX_PRIME_COUNT) →
  (∀ i, port_ok i → 0 ≤ Info.dump_count (f i) ≤ MAX_DUMP_PACKETS) →
  ok w → ok (upd_info f w).
Proof.
  intros E1 E2 E3 H1 H2 H3 H4 H. split; change (info (upd_info f w)) with (f (info w));
    rewrite ?E1, ?E2, ?E3; try (by auto); by apply H.
Qed.

(** The counts an update leaves alone, and the ok-ness of the world before it. *)
Ltac keep_counts :=
  apply ok_counts; [reflexivity|reflexivity|reflexivity|intros ? ?..|];
  try match goal with
  | H : port_ok ?i |- _ =>
      first [exact (ok_burst _ H)|exact (ok_seqCnt _ H)|exact (ok_prime _ H)|exact (ok_dump _ H)]
  | H : ok ?w |- ok ?w => exact H
  end.

(** Arguments of an unsigned type are not negative. *)
Definition cmd_ok (c : command) : Prop :=
  match c with
  | Set_seq_cnt v | Set_prime v | Set_dump v | Set_tx_burst v => 0 ≤ v
  | _ => True
  end.

Lemma run_ok_plain c w w' :
  match c with
  | Enable_pcap _ | Enable_rate _ | Enable_bonding _ _ _ _ | Start | Rate_setup | Set_seq_cnt _
  | Set_prime _ | Set_dump _ | Set_tx_burst _ | Set_pkt_size _ | Rate_set_pkt_size _
  | Enable_range _ | Set_tx_rate _ | Set_user_pattern _ | Rate_value _ _ | Defaults _ _
  | Seq _ _ _ _ _ _ _ _ _ _ _ _ | Seq_cos_tos _ _ _ | Seq_vxlan _ _ _ _ => False
  | _ => True
  end → run c w = Some w' → ok w → ok w'.
Proof.
  intros Hc H Hw. destruct c; try contradiction; cbn [run] in H; injection H as <-.
  all: try (autounfold with port; port_auto; done).
  all: unfold enable_rx_tap, enable_tx_tap; repeat case_match; simplify_eq; port_auto.
Qed.

(** The other commands, one by one. *)

Lemma ok_enable_pcap w s : ok w → ok (enable_pcap w s).
Proof.
  intros H. unfold enable_pcap. destruct (Info.pcap (info w)) as [p|] eqn:E; [|done].
  destruct (Z.eqb_spec (Pcap.pkt_count p) 0); [done|]. apply ok_upd_info; [reflexivity|reflexivity|].
  unfold SEND_PCAP_PKTS. destruct (s =? ENABLE_STATE); [|by port_auto].
  apply ok_exclusive; [lia|reflexivity| |done]. intros _. exists p. done.
Qed.

Lemma ok_tx_burst_1 w b :
  1 ≤ b ≤ DEFAULT_PKT_BURST → ok w → ok (upd_info (λ i, i <| Info.tx_burst := b |>) w).
Proof. intros Hb H. keep_counts. exact Hb. Qed.

Lemma ok_update_rate_values w w' : update_rate_values w = Some w' → ok w → ok w'.
Proof.
  intros E H. unfold update_rate_values in E. apply ok_calculate_rate in E; [done|].
  apply ok_tx_burst_1; [done|]. port_auto.
Qed.

Lemma ok_slot_set_proto k w t : ok w → ok (slot_set_proto k w t).
Proof. intros H. unfold slot_set_proto. port_auto. Qed.

Lemma ok_enable_rate w s w' : enable_rate w s = Some w' → ok w → ok w'.
Proof.
  intros E H. unfold enable_rate in E. destruct (s =? ENABLE_STATE).
  - apply ok_update_rate_values in E; [done|].
    apply ok_slot_set_proto. unfold SEND_RATE_PACKETS. port_auto.
  - apply ok_packet_rate in E; [done|].
    apply ok_upd_pkt_size; [size_tac|]. apply ok_tx_burst_1; [done|]. port_auto.
Qed.

Lemma ok_enable_bonding c sl ac w s : ok w → ok (fst (enable_bonding c sl ac w s)).
Proof.
  intros H. unfold enable_bonding. destruct (c <? 0); [done|].
  destruct sl as [sl|], ac as [ac|]; try done.
  match goal with |- context [foldl ?F _ _] =>
    cut (∀ l w calls, ok w → ok (fst (foldl F (w, calls) l))); [by auto|clear] end.
  induction l as [|x l IH]; intros w calls H; [done|]. cbn [foldl].
  destruct (s =? ENABLE_STATE); apply IH; port_auto.
Qed.

Lemma ok_start w : ok w → ok (pktgen_start_transmitting w).
Proof.
  intros H. unfold pktgen_start_transmitting. destruct (tst_flags w SENDING_PACKETS); [done|].
  cbn zeta. set (w1 := upd_info _ _). assert (ok w1) as H1 by (unfold w1; port_auto).
  destruct (Info.current_tx_count (info w1) =? 0); [|by port_auto].
  generalize dependent w1. clear w H. intros w1 H1.
  apply (ok_upd_flags (λ v, set_bits (set_bits v SEND_FOREVER) SENDING_PACKETS) w1); [|exact H1].
  assert (set_bits (set_bits (flags_of w1) SEND_FOREVER) SENDING_PACKETS =
          set_bits (flags_of w1) (SEND_FOREVER ||| SENDING_PACKETS)) as ->
    by (unfold set_bits; by rewrite Z.lor_assoc).
  destruct H1 as [[Hw Hm Hp Hv] _ _ _ _ _ _]. unfold flags_of. set (v := Info.port_flags _) in *.
  remember (SEND_FOREVER ||| SENDING_PACKETS) as m eqn:Em.
  assert (∀ i, Z.testbit MODE_BITS i = true → Z.testbit m i = false) as Hmi
    by (intros i; apply land_zero_bit; by subst m).
  split.
  - apply set_bits_word; [done|by subst m].
  - intros i j Hi Hj Mi Mj. rewrite !set_bits_spec, !Hmi, !orb_false_r by done. by apply Hm.
  - unfold SEND_PCAP_PKTS in *. rewrite tst_flag, set_bits_spec, Hmi, orb_false_r by (done || lia).
    rewrite tst_flag in Hp by lia. exact Hp.
  - intros _. unfold SENDING_PACKETS. rewrite tst_flag, set_bits_spec by lia. subst m.
    apply orb_true_r.
Qed.

Lemma ok_set_seqCnt w v : 0 ≤ v → ok w → ok (pktgen_set_port_seqCnt w v).
Proof.
  intros Hv H. unfold pktgen_set_port_seqCnt. cbn zeta.
  set (c := if NUM_SEQ_PKTS <? v then NUM_SEQ_PKTS else v).
  assert (0 ≤ c ≤ NUM_SEQ_PKTS) as Hc
    by (unfold c; destruct (Z.ltb_spec NUM_SEQ_PKTS v); unfold NUM_SEQ_PKTS in *; lia).
  assert (ok (upd_info (λ i, i <| Info.seqCnt := c |>) w)) as H1
    by (keep_counts; exact Hc).
  unfold SEND_SEQ_PKTS. port_auto.
Qed.

Lemma ok_prime_cnt w v : 0 ≤ v → ok w → ok (pktgen_set_port_prime w v).
Proof.
  intros Hv H. unfold pktgen_set_port_prime. keep_counts. cbn [Info.prime_cnt upd].
  unfold MAX_PRIME_COUNT, DEFAULT_PRIME_COUNT.
  destruct (Z.ltb_spec 4 v), (Z.eqb_spec v 0); lia.
Qed.

Lemma ok_dump_cnt w v : 0 ≤ v → ok w → ok (debug_set_port_dump w v).
Proof.
  intros Hv H. unfold debug_set_port_dump. keep_counts. cbn [Info.dump_count upd].
  unfold MAX_DUMP_PACKETS. destruct (Z.ltb_spec 32 v); lia.
Qed.

Lemma ok_set_burst w v w' : 0 ≤ v → set_tx_burst w v = Some w' → ok w → ok w'.
Proof.
  intros Hv E H. apply ok_packet_rate in E; [done|].
  keep_counts. cbn [Info.tx_burst upd]. unfold DEFAULT_PKT_BURST.
  destruct (Z.eqb_spec v 0), (Z.ltb_spec 64 v); lia.
Qed.

Lemma clamp_size_range t size : 64 ≤ clamp_size t size ≤ 1518.
Proof.
  unfold clamp_size, MIN_PKT_SIZE, MAX_PKT_SIZE, MIN_v6_PKT_SIZE, PG_ETHER_MIN_LEN,
    PG_ETHER_MAX_LEN, PG_ETHER_CRC_LEN. cbn zeta.
  repeat match goal with
  | |- context [?a <? ?b] => destruct (Z.ltb_spec a b)
  | |- context [?b && _] => destruct b; cbn [andb]
  end; lia.
Qed.

Lemma ok_slot_size k w v w' : slot_set_pkt_size k w v = Some w' → ok w → ok w'.
Proof.
  unfold slot_set_pkt_size. intros E H. cbn zeta in E.
  destruct (pktgen_packet_rate _) as [w1|] eqn:E1; [|done]. cbn [mbind option_bind] in E.
  injection E as <-. apply ok_q_flags. apply ok_packet_rate in E1; [done|].
  apply ok_ctor, ok_upd_pkt; [|done]. cbn [Pkt.pktSize upd].
  pose proof (clamp_size_range (Pkt.ethType (get_pkt w k)) v). unfold PG_ETHER_CRC_LEN. word_lia.
Qed.

Lemma ok_enable_range w s w' : enable_range w s = Some w' → ok w → ok w'.
Proof.
  unfold enable_range, SEND_RANGE_PKTS. intros E H.
  destruct (s =? ENABLE_STATE); [destruct (tst_flags _ _); [by injection E as <-|]|];
    (apply ok_packet_rate in E; [done|]; port_auto).
Qed.

Lemma ok_defaults peer w s : ok w → ok (pktgen_port_defaults peer w s).
Proof.
  intros H. unfold pktgen_port_defaults. cbn zeta. apply ok_upd_g, ok_rebuild.
  apply ok_upd_pkt_keep; [done|]. apply ok_upd_pkt_keep.
  - unfold default_ips. case_match; done.
  - keep_counts; [done..|]. apply ok_upd_pkt_size; [size_tac|exact H].
Qed.

(** A session keeps [port_ok]; one command first. *)
Lemma run_ok c w w' : cmd_ok c → run c w = Some w' → ok w → ok w'.
Proof.
  intros Hc E H. destruct c; try (eapply run_ok_plain; [|exact E|exact H]; exact I).
  all: cbn [run cmd_ok] in *.
  all: try match type of E with Some _ = Some _ => injection E as <- end.
  - by apply ok_enable_pcap.
  - by eapply ok_enable_rate.
  - by apply ok_enable_bonding.
  - by eapply ok_enable_range.
  - by apply ok_start.
  - destruct (is_slot seq); [|done]. injection E as <-. by apply ok_defaults.
  - unfold pktgen_rate_setup, pktgen_rate_init in E. apply ok_calculate_rate in E; [done|].
    port_auto.
  - by apply ok_set_seqCnt.
  - by apply ok_prime_cnt.
  - by apply ok_dump_cnt.
  - by eapply ok_set_burst.
  - by eapply ok_slot_size.
  - by eapply ok_slot_size.
  - apply ok_packet_rate in E; [done|]. port_auto.
  - unfold pattern_set_user_pattern in E. cbn zeta in E. case_match; [|done]. injection E as <-.
    port_auto.
  - apply ok_upd_info; [intros i|intros i|exact H]; unfold rate_set_value;
      repeat case_match; reflexivity.
  - unfold pktgen_set_seq in E. cbn zeta in E. destruct (is_slot n); [|done]. injection E as <-. port_auto.
  - unfold pktgen_set_cos_tos_seq in E. destruct (is_slot n); [|done]. injection E as <-. port_auto.
  - unfold pktgen_set_vxlan_seq in E. destruct (is_slot n); [|done]. injection E as <-. port_auto.
Qed.

(** ** Sessions keep the invariant *)

(** C3. Whatever commands a user gives, in whatever order, a port keeps its
    invariant: the flags are a 32-bit word with at most one of the exclusive
    modes (capture file, range, sequence, random, latency, rate, VLAN, VxLAN,
    MPLS, Q-in-Q, the two GRE modes); the capture mode has a loaded file behind
    it; "forever" only while sending; every packet size fits its field; the
    burst is 1 to 64, the sequence count at most 16, the prime count 1 to 4 and
    the dump count at most 32. *)
Theorem session_keeps_port_ok (cs : list command) (w w' : world) :
  Forall cmd_ok cs → session cs w = Some w' → ok w → ok w'.
Proof.
  intros Hc. revert w. induction Hc as [|c cs Hok _ IH]; intros w E H; cbn [session] in E.
  - by injection E as <-.
  - destruct (run c w) as [w1|] eqn:E1; [|done]. cbn [mbind option_bind] in E.
    apply IH in E; [done|]. by apply run_ok in E1.
Qed.

(** ** When a command has a result *)

Definition wire_max := 65535 + PKT_OVERHEAD_SIZE.

Lemma seq_size_bounds n i info size :
  sizes_ok (Info.seq_pkt info) → 0 ≤ size ≤ 2 ^ 32 → Z.of_nat n ≤ 16 →
  size + PKT_OVERHEAD_SIZE * Z.of_nat n ≤ seq_size n i info size ≤ size + wire_max * Z.of_nat n.
Proof.
  intros Hs. revert i size. unfold wire_max, PKT_OVERHEAD_SIZE, PG_ETHER_CRC_LEN.
  assert (∀ m i size, 0 ≤ size ≤ 2 ^ 32 + 65559 * (16 - Z.of_nat m) → Z.of_nat m ≤ 16 →
    size + 24 * Z.of_nat m ≤ seq_size m i info size ≤ size + 65559 * Z.of_nat m) as G.
  { induction m as [|m IH]; intros i size Hz Hn; [cbn; lia|]. cbn [seq_size].
    pose proof (Hs i) as Hi. unfold in_word in Hi. set (s := Pkt.pktSize _) in *.
    unfold PKT_OVERHEAD_SIZE, PG_ETHER_CRC_LEN. rewrite wrap_small by word_lia.
    specialize (IH (i + 1) (size + (s + (12 + 1 + 7 + 4)))). simpl Z.pow in *. lia. }
  intros i size Hz Hn. apply G; lia.
Qed.

Lemma wire_size_bounds i :
  port_ok i → ∃ s, pktgen_wire_size i = Some s ∧ PKT_OVERHEAD_SIZE ≤ s ≤ wire_max.
Proof.
  intros H. unfold pktgen_wire_size, pktgen_tst_port_flags.
  assert (∀ k, PKT_OVERHEAD_SIZE ≤ Pkt.pktSize (Info.seq_pkt i k) + PKT_OVERHEAD_SIZE ≤ wire_max)
    as Hk by (intros k; pose proof (ok_sizes _ H k); unfold wire_max; word_lia).
  destruct (tst_bits _ SEND_PCAP_PKTS) eqn:Ep.
  - destruct (fo_pcap _ _ (ok_flags _ H) Ep) as (p & Hp & _). rewrite Hp. cbn [mbind option_bind].
    pose proof (ok_pcap _ H p Hp) as Hs. unfold pcap_ok in Hs.
    unfold wire_max, PKT_OVERHEAD_SIZE, PG_ETHER_CRC_LEN in *.
    eexists. split; [done|]. rewrite wrap_small by word_lia. lia.
  - destruct (tst_bits _ SEND_RATE_PACKETS); [by eexists; split; [|apply Hk]|].
    destruct (Z.ltb_spec 0 (Info.seqCnt i)); [|by eexists; split; [|apply Hk]].
    eexists. split; [done|]. pose proof (ok_seqCnt _ H) as Hc. unfold NUM_SEQ_PKTS in Hc.
    pose proof (seq_size_bounds (Z.to_nat (Info.seqCnt i)) 0 i 0 (ok_sizes _ H)) as B.
    rewrite Z2Nat.id in B by lia. split.
    + apply Z.div_le_lower_bound; lia.
    + apply Z.div_le_upper_bound; lia.
Qed.

Lemma packet_rate_defined w : ok w → is_Some (pktgen_packet_rate w).
Proof.
  intros H. unfold pktgen_packet_rate. destruct (wire_size_bounds _ H) as (s & -> & Hs).
  cbn [mbind option_bind]. unfold div_trap.
  unfold wire_max, PKT_OVERHEAD_SIZE, PG_ETHER_CRC_LEN in Hs.
  rewrite (wrap_small 64 (s * 8)) by word_lia.
  destruct (Z.eqb_spec (s * 8) 0); [lia|]. by eexists.
Qed.

Lemma slot_size_defined k w v : ok w → is_Some (slot_set_pkt_size k w v).
Proof.
  intros H. unfold slot_set_pkt_size. cbn zeta.
  set (w1 := pktgen_packet_ctor _ _ _). destruct (packet_rate_defined w1) as [w2 ->]; [|by eexists].
  apply ok_ctor, ok_upd_pkt; [|done]. cbn [Pkt.pktSize upd].
  pose proof (clamp_size_range (Pkt.ethType (get_pkt w k)) v). unfold PG_ETHER_CRC_LEN. word_lia.
Qed.

(** What the rate calculation needs of the video parameters. *)
Definition rate_defined (r : rate_info_t) : Prop :=
  Rate.vlines r * Rate.pixels r ≤ INT_MAX ∧
  Rate.vlines r * Rate.pixels r * Rate.color_bits r ≤ INT_MAX ∧
  Rate.payload r ≠ 0 ∧
  u32 (u32 (Rate.vlines r * Rate.pixels r * Rate.color_bits r / 8) / Rate.payload r * Rate.fps r) ≠ 0.

Lemma calculate_rate_defined w :
  is_Some (calculate_rate w) ↔ rate_defined (Info.rate (info w)).
Proof.
  unfold calculate_rate, rate_defined, int_mul, div_trap. set (r := Info.rate (info w)).
  cbn zeta. destruct (Z.leb_spec (Rate.vlines r * Rate.pixels r) INT_MAX); cbn [mbind option_bind];
    [|split; [by intros []|lia]].
  destruct (Z.leb_spec (Rate.vlines r * Rate.pixels r * Rate.color_bits r) INT_MAX);
    cbn [mbind option_bind]; [|split; [by intros []|lia]].
  destruct (Z.eqb_spec (Rate.payload r) 0); cbn [mbind option_bind]; [split; [by intros []|lia]|].
  destruct (Z.eqb_spec (u32 (u32 (Rate.vlines r * Rate.pixels r * Rate.color_bits r / 8) /
                              Rate.payload r * Rate.fps r)) 0); cbn [mbind option_bind].
  - split; [by intros []|lia].
  - split; [|by eexists]. intros _. done.
Qed.

Definition defined (c : command) (w : world) : Prop :=
  match c with
  | Enable_rate s => s = ENABLE_STATE → rate_defined (Info.rate (info w))
  | Set_user_pattern s => (String.length s ≤ 16)%nat
  | Defaults _ n | Seq n _ _ _ _ _ _ _ _ _ _ _ | Seq_cos_tos n _ _ | Seq_vxlan n _ _ _ => 0 ≤ n < NUM_TOTAL_PKTS
  | _ => True
  end.

Lemma rebuild_rate k w : Info.rate (info (rebuild k w)) = Info.rate (info w).
Proof.
  unfold rebuild, pktgen_set_tx_update, all_q_flags.
  assert (∀ n q f i, Info.rate (set_q_flags_upto n q f i) = Info.rate i) as Hq.
  { induction n as [|n IH]; intros q f i; [done|]. cbn [set_q_flags_upto]. by rewrite IH. }
  change (info (upd_info ?f ?x)) with (f (info x)). rewrite Hq.
  unfold pktgen_packet_ctor. by destruct (ctor_pkt _ _ _ _).
Qed.

Lemma rate_setup_defined w : is_Some (pktgen_rate_setup w).
Proof.
  unfold pktgen_rate_setup, pktgen_rate_init. apply calculate_rate_defined.
  repeat split; vm_compute; congruence.
Qed.

Lemma update_rate_values_defined w :
  is_Some (update_rate_values w) ↔ rate_defined (Info.rate (info w)).
Proof. unfold update_rate_values. rewrite calculate_rate_defined. reflexivity. Qed.

Lemma slot_set_proto_rate k w t : Info.rate (info (slot_set_proto k w t)) = Info.rate (info w).
Proof. unfold slot_set_proto. cbn zeta. rewrite rebuild_rate. by case_match. Qed.

Lemma enable_rate_defined w s :
  ok w → is_Some (enable_rate w s) ↔ (s = ENABLE_STATE → rate_defined (Info.rate (info w))).
Proof.
  intros H. unfold enable_rate. destruct (Z.eqb_spec s ENABLE_STATE) as [->|Hs].
  - rewrite update_rate_values_defined. unfold single_set_proto. rewrite slot_set_proto_rate.
    change (Info.rate (info (exclusive ?f w))) with (Info.rate (info w)). tauto.
  - split; [done|]. intros _. apply packet_rate_defined.
    apply ok_upd_pkt_size; [size_tac|]. apply ok_tx_burst_1; [done|]. port_auto.
Qed.

(** C32. No command of a valid port divides by zero, follows a null pointer,
    overflows an [int] or writes outside its arrays, with three exceptions, and
    with them it always does: switching the video rate on needs a payload, and
    parameters that give at least one packet per second without overflowing an
    [int]; a user pattern has at most sixteen characters; and the slot that the
    commands of a sequence and the defaults are given must be one of the 21 of
    the port, which the functions do not look at. *)
Theorem command_defined (c : command) (w : world) :
  cmd_ok c → ok w → is_Some (run c w) ↔ defined c w.
Proof.
  intros Hc H. assert (∀ A (x : A), is_Some (Some x) ↔ True) as S by (split; [done|by eexists]).
  assert (∀ n (x : world), is_Some (if is_slot n then Some x else None) ↔ 0 ≤ n < NUM_TOTAL_PKTS) as L.
  { intros n x. unfold is_slot. destruct (Z.leb_spec 0 n), (Z.ltb_spec n NUM_TOTAL_PKTS); cbn [andb];
      split; first [by intros []|by eexists|lia]. }
  assert (∀ n (x : world), is_Some (if negb (is_slot n) then None else Some x) ↔ 0 ≤ n < NUM_TOTAL_PKTS) as L'
    by (intros n x; rewrite <-(L n x); by destruct (is_slot n)).
  destruct c; cbn [run defined cmd_ok] in *; try apply S; try apply L; try apply L'.
  - by apply enable_rate_defined.
  - split; [done|]. intros _. unfold enable_range. destruct (s =? ENABLE_STATE);
      [destruct (tst_flags _ _); [by eexists|]|]; apply packet_rate_defined;
      unfold SEND_RANGE_PKTS; port_auto.
  - split; [done|]. intros _. apply packet_rate_defined. keep_counts.
    cbn [Info.tx_burst upd]. unfold DEFAULT_PKT_BURST.
    destruct (Z.eqb_spec v 0), (Z.ltb_spec 64 v); lia.
  - split; [done|]. intros _. by apply slot_size_defined.
  - split; [done|]. intros _. by apply slot_size_defined.
  - split; [done|]. intros _. apply packet_rate_defined. port_auto.
  - unfold pattern_set_user_pattern, USER_PATTERN_SIZE. cbn zeta.
    assert (length (list_ascii_of_string s) = String.length s) as ->
      by (induction s as [|a s IH]; cbn; auto).
    destruct (Z.leb_spec (Z.of_nat (String.length s)) 16); split;
      first [by eexists|by intros []|lia].
Qed.

(** The port as it is set up, and after the defaults of every slot. *)
Definition fresh_port : world :=
  mk_world (Pg.mk 0 0 0 2 0 2 2 0 2000000000 (λ _, 2) Eth.zero 0 0)
    (Info.zero <| Info.tx_burst := 64 |> <| Info.prime_cnt := 1 |> <| Info.link_speed := 10000 |>
               <| Info.tx_rate := sf_of_u64 100 |>).

Lemma fresh_port_ok : ok fresh_port.
Proof.
  split; cbn.
  - split; [done| |done|done]. intros i j _ _ _ _. by rewrite Z.testbit_0_l.
  - done.
  - intros k. done.
  - done.
  - done.
  - done.
  - done.
Qed.

Definition demo_session : list command :=
  [Set_pkt_size 128; Enable_vlan 1; Set_seq_cnt 4; Start; Enable_range 1; Stop; Enable_range 1].

Lemma session_keeps_port_ok_witness :
  ∃ w, session demo_session fresh_port = Some w ∧ ok w ∧ flags_of w = SEND_RANGE_PKTS.
Proof.
  assert (Forall cmd_ok demo_session) as Hc by (repeat constructor; discriminate).
  destruct (session demo_session fresh_port) as [w|] eqn:E; [|exfalso; revert E; vm_compute; discriminate].
  exists w. split; [reflexivity|]. split.
  - exact (session_keeps_port_ok _ _ _ Hc E fresh_port_ok).
  - assert (flags_of <$> session demo_session fresh_port = Some SEND_RANGE_PKTS) as F by (vm_compute; reflexivity).
    rewrite E in F. injection F. exact id.
Defined.

Lemma command_defined_witness :
  is_Some (run (Enable_rate 1)
    (upd_info (λ i, i <| Info.rate ::= λ r, r <| Rate.fps := 60 |> <| Rate.vlines := 720 |>
        <| Rate.pixels := 1280 |> <| Rate.color_bits := 20 |> <| Rate.payload := 800 |> |>)
      fresh_port)).
Proof.
  apply (command_defined (Enable_rate 1)); [exact I| |].
  - apply ok_upd_info; [reflexivity|reflexivity|apply fresh_port_ok].
  - intros _. repeat split; vm_compute; congruence.
Defined.

Lemma session_cons c cs w : session (c :: cs) w = w ← run c w; session cs w.
Proof. reflexivity. Qed.

Lemma run_enable_rate s w : run (Enable_rate s) w = enable_rate w s.
Proof. reflexivity. Qed.

Lemma enable_rate_none w : ¬ rate_defined (Info.rate (info w)) → enable_rate w ENABLE_STATE = None.
Proof.
  intros Hn. unfold enable_rate. rewrite Z.eqb_refl.
  destruct (update_rate_values _) as [w2|] eqn:E; [|done]. destruct Hn.
  apply mk_is_Some, update_rate_values_defined in E.
  unfold single_set_proto in E. rewrite slot_set_proto_rate in E. exact E.
Qed.

Lemma rate_value_zero what i :
  what = "payload"%string ∨ what = "lines"%string ∨ what = "pixels"%string →
  0 ≤ Rate.overhead (Info.rate i) ≤ 1514 →
  ¬ rate_defined (Info.rate (rate_set_value i what 0)).
Proof.
  intros Hw Ho (_ & _ & Hp & Ht).
  destruct Hw as [->|[->| ->]].
  - revert Hp. unfold rate_set_value.
    cbn -[wrap Z.add]. rewrite (wrap_small 32) by word_lia.
    change (ETH_MAX_PKT - PG_ETHER_CRC_LEN) with 1514.
    destruct (Z.leb_spec (0 + Rate.overhead (Info.rate i)) 1514); [|lia].
    intros Hp. by apply Hp.
  - apply Ht. change (Rate.vlines _) with 0. rewrite !Z.mul_0_l. reflexivity.
  - apply Ht. change (Rate.pixels _) with 0. rewrite Z.mul_0_r, Z.mul_0_l. reflexivity.
Qed.

(** Two ordinary commands stop the program: [rate_set_value] accepts a payload
    of zero bytes, and switching the video rate on afterwards divides by it.
    The same goes for zero lines or pixels, which leave no packet per second. *)
Theorem rate_zero_traps (what : string) (w : world) :
  what = "payload"%string ∨ what = "lines"%string ∨ what = "pixels"%string →
  0 ≤ Rate.overhead (Info.rate (info w)) ≤ 1514 →
  session [Rate_value what 0; Enable_rate 1] w = None.
Proof.
  intros Hw Ho. set (w1 := upd_info (λ i, rate_set_value i what 0) w).
  assert (run (Rate_value what 0) w = Some w1) as E1 by reflexivity.
  assert (run (Enable_rate 1) w1 = None) as E2.
  { rewrite run_enable_rate. apply enable_rate_none. by apply rate_value_zero. }
  by rewrite session_cons, E1; cbn [mbind option_bind]; rewrite session_cons, E2.
Qed.

Lemma rate_zero_traps_witness :
  session [Rate_value "payload" 0; Enable_rate 1] fresh_port = None.
Proof.
  apply rate_zero_traps; [left; reflexivity|]. split; vm_compute; congruence.
Defined.
