(* ===== verification/CommandFacts.v ===== *)
(** * What single commands do

    The functional behaviour of the commands of [Commands] that the invariant of
    [Session] does not pin down: starting and stopping, the size limits, the
    latency mode's size, the fill pattern, the flags string, the dump list. *)
From Stdlib Require Import Floats.SpecFloat Ascii String.
From S2P Require Import Prelude Mem PortInfo Headers Pacing Commands Session.

(** ** Start and stop *)

(** Every transmit queue gets the flag, the queues beyond keep theirs. *)
Lemma set_q_flags_upto_spec n q f i k :
  Q.flags (Info.q (set_q_flags_upto n q f i) k) =
  if (q <=? k) && (k <? q + Z.of_nat n) then set_bits (Q.flags (Info.q i k)) f
  else Q.flags (Info.q i k).
Proof.
  revert q i. induction n as [|n IH]; intros q i; cbn [set_q_flags_upto].
  - destruct (Z.leb_spec q k), (Z.ltb_spec k (q + Z.of_nat 0)); cbn [andb]; try done; lia.
  - rewrite IH. cbn [Info.q upd pktgen_set_q_flags upd_q]. unfold set_at.
    destruct (Z.eqb_spec k q) as [->|].
    + destruct (Z.leb_spec (q + 1) q); [lia|]. cbn [andb].
      destruct (Z.leb_spec q q), (Z.ltb_spec q (q + Z.of_nat (S n))); cbn [andb]; try lia. done.
    + destruct (Z.leb_spec (q + 1) k), (Z.leb_spec q k), (Z.ltb_spec k (q + 1 + Z.of_nat n)),
        (Z.ltb_spec k (q + Z.of_nat (S n))); cbn [andb]; try done; lia.
Qed.

Lemma set_q_flags_upto_info n q f i :
  set_q_flags_upto n q f i = i <| Info.q := Info.q (set_q_flags_upto n q f i) |>.
Proof.
  revert q i. induction n as [|n IH]; intros q i; [by destruct i|]. cbn [set_q_flags_upto].
  rewrite IH at 1. reflexivity.
Qed.

Definition q_flags (w : world) (k : Z) : Z := Q.flags (Info.q (info w) k).
Definition txcnt (w : world) : Z := get_port_txcnt (g w) (Info.pid (info w)).

Lemma all_q_flags_spec f w :
  all_q_flags f w = upd_info (λ i, i <| Info.q := Info.q (info (all_q_flags f w)) |>) w ∧
  ∀ k, q_flags (all_q_flags f w) k =
       if (0 <=? k) && (k <? Z.of_nat (Z.to_nat (txcnt w)))
       then set_bits (q_flags w k) f else q_flags w k.
Proof.
  split.
  - unfold all_q_flags. unfold upd_info at 1. destruct w as [gw i]. cbn [info g].
    change (mk_world gw (set_q_flags_upto (Z.to_nat (get_port_txcnt gw (Info.pid i))) 0 f i) =
            mk_world gw (i <| Info.q :=
              Info.q (set_q_flags_upto (Z.to_nat (get_port_txcnt gw (Info.pid i))) 0 f i) |>)).
    by rewrite <-set_q_flags_upto_info.
  - intros k. apply set_q_flags_upto_spec.
Qed.

Lemma all_q_flags_keeps f w :
  flags_of (all_q_flags f w) = flags_of w ∧
  Info.transmit_count (info (all_q_flags f w)) = Info.transmit_count (info w).
Proof. destruct (all_q_flags_spec f w) as [-> _]. done. Qed.

Lemma q_flags_in f w k : 0 ≤ k < txcnt w → q_flags (all_q_flags f w) k = set_bits (q_flags w k) f.
Proof.
  intros Hk. destruct (all_q_flags_spec f w) as [_ ->].
  destruct (Z.leb_spec 0 k), (Z.ltb_spec k (Z.of_nat (Z.to_nat (txcnt w)))); cbn [andb]; lia || done.
Qed.

Lemma tst_clr_flag v f k :
  in_word 32 v → 0 ≤ k → tst_bits (clr_bits v f) (Z.shiftl 1 k) = Z.testbit v k && negb (Z.testbit f k).
Proof. intros. by rewrite tst_flag, clr_bits_spec. Qed.

(** Starting an idle port loads the transmit count, makes it run forever exactly
    when that count is zero, and has every transmit queue rebuild its packets;
    starting a sending port changes nothing.  Stopping clears both flags and
    has every queue flush; stopping an idle port changes nothing. *)
Theorem start_stop (w : world) :
  ok w →
  let a := pktgen_start_transmitting w in
  let z := pktgen_stop_transmitting w in
  (if tst_flags w SENDING_PACKETS then a = w
   else tst_flags a SENDING_PACKETS = true ∧
        Info.current_tx_count (info a) = Info.transmit_count (info w) ∧
        tst_flags a SEND_FOREVER = (Info.transmit_count (info w) =? 0) ∧
        ∀ k, 0 ≤ k < txcnt w → q_flags a k = set_bits (q_flags w k) CLEAR_FAST_ALLOC_FLAG) ∧
  (if tst_flags w SENDING_PACKETS
   then tst_flags z SENDING_PACKETS = false ∧ tst_flags z SEND_FOREVER = false ∧
        ∀ k, 0 ≤ k < txcnt w → q_flags z k = set_bits (q_flags w k) DO_TX_FLUSH
   else z = w).
Proof.
  intros H a z. subst a z. unfold pktgen_start_transmitting, pktgen_stop_transmitting, tst_flags,
    pktgen_tst_port_flags.
  change (Info.port_flags (info w)) with (flags_of w).
  pose proof (ok_flags _ H) as [Hw _ _ Hf]. fold (flags_of w) in Hw, Hf.
  destruct (tst_bits (flags_of w) SENDING_PACKETS) eqn:E; (split; [try done|try done]).
  - set (w1 := clr_flags _ w).
    change (Info.port_flags (info (all_q_flags DO_TX_FLUSH w1)))
      with (flags_of (all_q_flags DO_TX_FLUSH w1)). destruct (all_q_flags_keeps DO_TX_FLUSH w1) as [-> _].
    change (flags_of w1) with (clr_bits (flags_of w) (SENDING_PACKETS ||| SEND_FOREVER)).
    unfold SENDING_PACKETS at 2, SEND_FOREVER at 3. rewrite !tst_clr_flag by (done || lia).
    split_and!; [apply andb_false_r..|]. intros k Hk.
    change (q_flags w k) with (q_flags w1 k). by apply q_flags_in.
  - cbn zeta. set (w1 := all_q_flags _ w).
    destruct (all_q_flags_keeps CLEAR_FAST_ALLOC_FLAG w) as [F1 F2]. fold w1 in F1, F2.
    set (w2 := upd_info _ w1). assert (flags_of w2 = flags_of w) as F3 by exact F1.
    change (Info.current_tx_count (info w2)) with (Info.transmit_count (info w1)). rewrite F2.
    assert (∀ k, 0 ≤ k < txcnt w → q_flags w2 k = set_bits (q_flags w k) CLEAR_FAST_ALLOC_FLAG) as Q
      by (intros k Hk; by apply (q_flags_in _ w)).
    assert (tst_bits (flags_of w) SEND_FOREVER = false) as Hn
      by (apply not_true_is_false; intros Ef; apply Hf in Ef; congruence).
    destruct (Z.eqb_spec (Info.transmit_count (info w)) 0); split_and!; try done.
    + change (Info.port_flags _) with
        (set_bits (set_bits (flags_of w2) SEND_FOREVER) SENDING_PACKETS).
      unfold SENDING_PACKETS. rewrite tst_flag, set_bits_spec by lia. apply orb_true_r.
    + change (Info.port_flags _) with
        (set_bits (set_bits (flags_of w2) SEND_FOREVER) SENDING_PACKETS).
      unfold SEND_FOREVER at 2. rewrite tst_flag, !set_bits_spec by lia.
      change (Z.testbit SEND_FOREVER 31) with true. by rewrite orb_true_r.
    + change (Info.port_flags _) with (set_bits (flags_of w2) SENDING_PACKETS).
      unfold SENDING_PACKETS. rewrite tst_flag, set_bits_spec by lia. apply orb_true_r.
    + change (Info.port_flags _) with (set_bits (flags_of w2) SENDING_PACKETS). rewrite F3.
      unfold SEND_FOREVER in *. rewrite tst_flag in * by lia. rewrite set_bits_spec, Hn. done.
Qed.

Lemma start_stop_witness :
  tst_flags (pktgen_start_transmitting fresh_port) SEND_FOREVER = true ∧
  q_flags (pktgen_start_transmitting fresh_port) 1 = 1.
Proof.
  destruct (start_stop fresh_port fresh_port_ok) as [T _].
  change (tst_flags fresh_port SENDING_PACKETS) with false in T. cbn match in T.
  destruct T as (_ & _ & T & Q). split; [exact T|]. apply Q. split; vm_compute; congruence.
Defined.

(** ** Packet sizes *)

Lemma get_pkt_q f w k : get_pkt (all_q_flags f w) k = get_pkt w k.
Proof. destruct (all_q_flags_spec f w) as [-> _]. done. Qed.

Lemma ctor_size w s t k :
  Pkt.pktSize (get_pkt (pktgen_packet_ctor w s t) k) = Pkt.pktSize (get_pkt w k).
Proof.
  unfold pktgen_packet_ctor.
  pose proof (ctor_pkt_size (info w) (Pg.ident (g w)) (get_pkt w s) t) as E.
  destruct (ctor_pkt _ _ _ t) as [p id]. cbn [fst] in E.
  change (Pkt.pktSize (set_at s p (Info.seq_pkt (info w)) k) = Pkt.pktSize (get_pkt w k)).
  unfold set_at. destruct (Z.eqb_spec k s) as [->|]; done.
Qed.

Lemma rebuild_size s w k : Pkt.pktSize (get_pkt (rebuild s w) k) = Pkt.pktSize (get_pkt w k).
Proof. unfold rebuild, pktgen_set_tx_update. rewrite get_pkt_q. apply ctor_size. Qed.

Lemma get_upd_pkt s f w : get_pkt (upd_pkt s f w) s = f (get_pkt w s).
Proof. apply set_at_eq. Qed.

Lemma packet_rate_pkt w w' k : pktgen_packet_rate w = Some w' → get_pkt w' k = get_pkt w k.
Proof.
  unfold pktgen_packet_rate. destruct (pktgen_wire_size _) as [wire|]; [|done].
  cbn [mbind option_bind]. destruct (div_trap _ _); [|done]. cbn [mbind option_bind].
  by intros [= <-].
Qed.

Lemma clamp_size_spec t size :
  clamp_size t size =
  Z.min 1518 (Z.max (if t =? PG_ETHER_TYPE_IPv6 then 78 else 64) size).
Proof.
  unfold clamp_size, MIN_PKT_SIZE, MAX_PKT_SIZE, MIN_v6_PKT_SIZE, PG_ETHER_MIN_LEN,
    PG_ETHER_MAX_LEN, PG_ETHER_CRC_LEN.
  set (s1 := if size <? 4 then 4 else size).
  assert (s1 = Z.max 4 size) as -> by (unfold s1; destruct (Z.ltb_spec size 4); lia).
  set (s2 := if Z.max 4 size - 4 <? 64 - 4 then _ else _).
  assert (s2 = Z.max 64 size) as ->
    by (unfold s2; destruct (Z.ltb_spec (Z.max 4 size - 4) (64 - 4)); lia).
  set (s3 := if 1518 - 4 <? Z.max 64 size - 4 then _ else _).
  assert (s3 = Z.min 1518 (Z.max 64 size)) as ->
    by (unfold s3; destruct (Z.ltb_spec (1518 - 4) (Z.max 64 size - 4)); lia).
  cbn zeta. destruct (t =? PG_ETHER_TYPE_IPv6); cbn [andb]; [|lia].
  destruct (Z.ltb_spec (Z.min 1518 (Z.max 64 size)) (78 - 4 + 4)); lia.
Qed.

(** Setting a packet size (given with its CRC, stored without) on the single or
    rate packet always succeeds on a valid port, keeps a size within the limits
    as it is, and replaces one outside by the nearest limit: 64 to 1518 bytes,
    at least 78 for IPv6. *)
Theorem set_pkt_size_clamps (slot : Z) (w : world) (size : Z) :
  ok w →
  let v6 := Pkt.ethType (get_pkt w slot) =? PG_ETHER_TYPE_IPv6 in
  let min := if v6 then 78 else 64 in
  ∃ w', slot_set_pkt_size slot w size = Some w' ∧
        Pkt.pktSize (get_pkt w' slot) = Z.min 1518 (Z.max min size) - 4.
Proof.
  intros H v6 min. destruct (slot_size_defined slot w size H) as [w' E]. exists w'. split; [done|].
  unfold slot_set_pkt_size in E. cbn zeta in E. set (sz := clamp_size _ size) in *.
  destruct (pktgen_packet_rate _) as [w1|] eqn:E1; [|done]. cbn [mbind option_bind] in E.
  injection E as <-. unfold pktgen_set_tx_update. rewrite get_pkt_q.
  rewrite (packet_rate_pkt _ _ _ E1), ctor_size, get_upd_pkt. cbn [Pkt.pktSize upd].
  unfold sz. rewrite clamp_size_spec. done.
Qed.

Lemma set_pkt_size_clamps_witness :
  ∃ w', slot_set_pkt_size SINGLE_PKT fresh_port 9000 = Some w' ∧
        Pkt.pktSize (get_pkt w' SINGLE_PKT) = 1514.
Proof. exact (set_pkt_size_clamps SINGLE_PKT fresh_port 9000 fresh_port_ok). Defined.

Lemma get_clr_flags f w k : get_pkt (clr_flags f w) k = get_pkt w k.
Proof. done. Qed.

Lemma get_exclusive f w k : get_pkt (exclusive f w) k = get_pkt w k.
Proof. done. Qed.

(** The latency mode makes room for its time stamp: switched on and off again it
    gives a packet below 76 bytes its size back, and takes the sixteen bytes it
    never added from every larger packet. *)
Theorem latency_on_off_size (w : world) :
  let size w := Pkt.pktSize (get_pkt w SINGLE_PKT) in
  60 ≤ size w < 65536 →
  size (enable_latency w ENABLE_STATE) = (if size w <? 76 then size w + 16 else size w) ∧
  size (enable_latency (enable_latency w ENABLE_STATE) DISABLE_STATE) =
    (if size w <? 76 then size w else size w - 16).
Proof.
  intros size Hs.
  assert (∀ w, size w < 65536 → 60 ≤ size w →
    size (enable_latency w ENABLE_STATE) = (if size w <? 76 then size w + 16 else size w) ∧
    size (enable_latency w DISABLE_STATE) = (if 76 <=? size w then size w - 16 else size w)) as G.
  { clear. intros w H1 H2. unfold size, enable_latency in *. cbn zeta.
    rewrite !rebuild_size, !get_upd_pkt. cbn [Pkt.pktSize upd].
    change (ENABLE_STATE =? ENABLE_STATE) with true.
    change (DISABLE_STATE =? ENABLE_STATE) with false. cbn match.
    rewrite get_clr_flags, !get_upd_pkt, get_exclusive.
    unfold PG_ETHER_MIN_LEN, PG_ETHER_CRC_LEN, sizeof_tstamp_t.
    change (64 - 4 + 16) with 76. split.
    - destruct (Z.ltb_spec (Pkt.pktSize (get_pkt w SINGLE_PKT)) 76); [|done].
      cbn [Pkt.pktSize upd]. apply wrap_small. word_lia.
    - destruct (Z.leb_spec 76 (Pkt.pktSize (get_pkt w SINGLE_PKT))); [|done].
      cbn [Pkt.pktSize upd]. apply wrap_small. word_lia. }
  destruct (G w) as [E1 _]; [lia..|]. split; [done|].
  destruct (G (enable_latency w ENABLE_STATE)) as [_ E2];
    [rewrite E1; destruct (Z.ltb_spec (size w) 76); lia..|].
  rewrite E2, E1. destruct (Z.ltb_spec (size w) 76), (Z.leb_spec 76 (size w)); try lia;
    destruct (Z.leb_spec 76 (size w + 16)); lia.
Qed.

Lemma latency_on_off_size_witness :
  let w := upd_pkt SINGLE_PKT (λ p, p <| Pkt.pktSize := 100 |>) fresh_port in
  Pkt.pktSize (get_pkt (enable_latency (enable_latency w ENABLE_STATE) DISABLE_STATE) SINGLE_PKT) = 84.
Proof. apply latency_on_off_size. split; vm_compute; congruence. Defined.

(** ** The flags string *)

Lemma tap_index flags :
  in_word 32 flags →
  Z.shiftr (Z.land flags (PROCESS_RX_TAP_PKTS ||| PROCESS_TX_TAP_PKTS)) 9 =
  Z.b2z (Z.testbit flags 9).
Proof.
  intros Hf. apply Z.bits_inj'. intros i Hi. rewrite Z.shiftr_spec, Z.land_spec by done.
  change (PROCESS_RX_TAP_PKTS ||| PROCESS_TX_TAP_PKTS) with (Z.shiftl 3 8).
  rewrite Z.shiftl_spec by lia.
  destruct (Z.eq_dec i 0) as [->|].
  - change (Z.testbit 3 (0 + 9 - 8)) with true. rewrite andb_true_r, Z.b2z_bit0. done.
  - rewrite (Z.bits_above_log2 3) by (change (Z.log2 3) with 1; lia). rewrite andb_false_r.
    symmetry. destruct (Z.testbit flags 9); [|apply Z.testbit_0_l].
    change (Z.b2z true) with 1. apply Z.bits_above_log2; [lia|]. change (Z.log2 1) with 0. lia.
Qed.

(** The fifth letter of the flags string, meant to read '-', 'r', 't' or '*' for
    no TAP, receive, transmit or both, is 'r' when the transmit TAP is on and
    '-' otherwise: the receive TAP never shows, the transmit TAP shows as the
    other one. *)
Theorem flags_string_tap (w : world) :
  ok w →
  String.get 4 (pktgen_flags_string w) =
    Some (if tst_flags w PROCESS_TX_TAP_PKTS then "r"%char else "-"%char).
Proof.
  intros H. unfold pktgen_flags_string. cbn zeta.
  change (String.get 4 _) with (Some (tap_char (Info.port_flags (info w)))). f_equal.
  unfold tap_char. rewrite tap_index by apply H.
  unfold tst_flags, pktgen_tst_port_flags, PROCESS_TX_TAP_PKTS. rewrite tst_flag by lia.
  by destruct (Z.testbit _ 9).
Qed.

Lemma flags_string_tap_witness :
  pktgen_flags_string (set_flags (PROCESS_RX_TAP_PKTS ||| SEND_VLAN_ID) fresh_port) =
    "-------Single  VLAN"%string ∧
  String.get 4 (pktgen_flags_string (set_flags PROCESS_RX_TAP_PKTS fresh_port)) = Some "-"%char.
Proof.
  split; [vm_compute; reflexivity|].
  exact (flags_string_tap (set_flags PROCESS_RX_TAP_PKTS fresh_port)
           (ok_set_flags PROCESS_RX_TAP_PKTS fresh_port eq_refl fresh_port_ok)).
Defined.

(** ** The user pattern *)

(** Byte [i] of a string, zero from its end on. *)
Definition byte_of (s : string) (i : Z) : Z :=
  Z.of_N (N_of_ascii (nth (Z.to_nat i) (list_ascii_of_string s) "000"%char)).

Definition starts_with_quote (s : string) : bool :=
  match list_ascii_of_string s with c :: _ => is_quote c | [] => false end.

Lemma byte_small c : u8 (Z.of_N (N_of_ascii c)) = Z.of_N (N_of_ascii c).
Proof.
  apply wrap_small. pose proof (N_ascii_bounded c). unfold in_word. change (2 ^ 8) with 256. lia.
Qed.

(** A user pattern without quotes fills the packet with its characters, repeated
    every sixteen bytes, with zeros from the pattern's end; the sixteenth
    character of a full-length pattern is dropped: that byte is zero too. *)
Theorem user_pattern_fills (w : world) (s : string) (m : mem) (p len b : Z) :
  (String.length s ≤ 16)%nat → starts_with_quote s = false → p ≤ b < p + len →
  ∃ w', pattern_set_user_pattern w s = Some w' ∧
    ld8 (pktgen_fill_pattern m p len (Info.fill_pattern_type (info w'))
           (Info.user_pattern (info w'))) b =
    let i := (b - p) `mod` 16 in if i =? 15 then 0 else byte_of s i.
Proof.
  intros Hl Hq Hb. unfold pattern_set_user_pattern. cbn zeta. unfold starts_with_quote in Hq.
  assert (length (list_ascii_of_string s) = String.length s) as El
    by (clear; induction s as [|a s IH]; cbn; auto).
  destruct (Z.leb_spec (Z.of_nat (length (list_ascii_of_string s))) USER_PATTERN_SIZE);
    [|unfold USER_PATTERN_SIZE in *; lia].
  eexists. split; [done|].
  match goal with |- context [pktgen_fill_pattern m p len ?t ?u] =>
    change t with USER_FILL_PATTERN; change u with (λ i, if (0 <=? i) && (i <? USER_PATTERN_SIZE - 1)
      then Z.of_N (N_of_ascii (nth (Z.to_nat i) (match list_ascii_of_string s with
        | [] => [] | c :: _ => if is_quote c then tail (removelast (list_ascii_of_string s))
                               else list_ascii_of_string s end) "000"%char)) else 0) end.
  cbn [pktgen_fill_pattern]. unfold fill_bytes, ld8.
  destruct (Z.leb_spec p b), (Z.ltb_spec b (p + len)); cbn [andb]; try lia.
  cbn beta. rewrite wrap_wrap, (land_ones_mod 4) by lia. change (2 ^ 4) with 16. set (i := (b - p) `mod` 16).
  assert (0 ≤ i < 16) as Hi by (apply Z.mod_pos_bound; lia).
  unfold byte_of, USER_PATTERN_SIZE.
  destruct (Z.leb_spec 0 i), (Z.ltb_spec i (16 - 1)), (Z.eqb_spec i 15); cbn [andb]; try lia; try done.
  destruct (list_ascii_of_string s) as [|c l]; [|rewrite Hq]; apply byte_small.
Qed.

Lemma user_pattern_fills_witness :
  ∃ w', pattern_set_user_pattern fresh_port "abcd" = Some w' ∧
    ld8 (pktgen_fill_pattern (λ _, 7) 100 40 (Info.fill_pattern_type (info w'))
           (Info.user_pattern (info w'))) 117 = 98.
Proof.
  apply (user_pattern_fills fresh_port "abcd"); [cbn; lia|reflexivity|lia].
Defined.

(** ** The dump list *)

Lemma free_dump_list_spec n l i :
  free_dump_list (S n) l i = if i =? 0 then 0 else l i.
Proof.
  revert l. induction n as [|n IH]; intros l; cbn [free_dump_list] in *.
  - destruct (Z.eqb_spec (l 0) 0); unfold set_at; destruct (Z.eqb_spec i 0) as [->|]; done.
  - rewrite IH. destruct (Z.eqb_spec (l 0) 0); unfold set_at; by destruct (Z.eqb_spec i 0).
Qed.

(** Asking for a new packet dump resets the indices and limits the count to the
    list's length, but of the packets dumped before it releases only the first:
    every other entry stays allocated, and the next dump overwrites it. *)
Theorem port_dump_frees_first (w : world) (cnt : Z) :
  let i := info (debug_set_port_dump w cnt) in
  Info.dump_count i = Z.min cnt MAX_DUMP_PACKETS ∧ Info.dump_head i = 0 ∧ Info.dump_tail i = 0 ∧
  ∀ k, Info.dump_list i k = if k =? 0 then 0 else Info.dump_list (info w) k.
Proof.
  intros i. split_and!; [|done|done|].
  - change (Info.dump_count i) with (if MAX_DUMP_PACKETS <? cnt then MAX_DUMP_PACKETS else cnt).
    unfold MAX_DUMP_PACKETS. destruct (Z.ltb_spec 32 cnt); lia.
  - intros k. apply (free_dump_list_spec 31).
Qed.
