(* ===== verification/Range.v ===== *)
(** * Range packets

    [pktgen_range_ctor] of [app/pktgen-range.c]: each packet of a range has its
    fields advanced by their increments within their bounds.  Each field is
    first stepped by its own expression; the three [static] variables of the
    function, which make the first VLAN, 802.1p and TOS step start from zero,
    are a state of their own. *)
From S2P Require Import Prelude Mem PortInfo.

(** ** One field *)

(** [v += inc; if (v < min) v = max; if (v > max) v = min;] in [w] bits *)
Definition step2 (w inc min max v : Z) : Z :=
  let v := wrap w (v + inc) in
  let v := if v <? min then max else v in
  if max <? v then min else v.

(** [v += inc; if (v < min) v = max; else if (v > max) v = min;] *)
Definition step1 (w inc min max v : Z) : Z :=
  let v := wrap w (v + inc) in
  if v <? min then max else if max <? v then min else v.

Record statics := mk_statics { min_vlan_set : bool; min_cos_set : bool; min_tos_set : bool }.
#[global] Instance eta_statics : Eta statics := λ s,
  mk_statics (min_vlan_set s) (min_cos_set s) (min_tos_set s).
Definition statics_init : statics := mk_statics false false false.

(** Where the VLAN, cos and tos steps start: at zero, once, for the least value. *)
Definition first_step (least v : Z) (set : bool) : Z * bool :=
  if (v =? least) && negb set then (0, true) else (v, set).

(** ** The constructor *)

(** The VLAN identifier, the 802.1p class and the type of service *)
Definition range_tags (r : range_info_t) (st : statics) (p : pkt_seq_t) : pkt_seq_t * statics :=
  let '(p, st) :=
    if negb (Rng.vlan_id_inc r =? 0) then
      let '(v, set) := first_step 1 (Pkt.vlanid p) (min_vlan_set st) in
      (p <| Pkt.vlanid :=
         u16 (step1 32 (Rng.vlan_id_inc r) (Rng.vlan_id_min r) (Rng.vlan_id_max r) v) |>,
       st <| min_vlan_set := set |>)
    else (p <| Pkt.vlanid := Rng.vlan_id r |>, st) in
  let '(p, st) :=
    if negb (Rng.cos_inc r =? 0) then
      let '(v, set) := first_step 0 (Pkt.cos p) (min_cos_set st) in
      (p <| Pkt.cos := u8 (step1 32 (Rng.cos_inc r) (Rng.cos_min r) (Rng.cos_max r) v) |>,
       st <| min_cos_set := set |>)
    else (p <| Pkt.cos := Rng.cos r |>, st) in
  let '(p, st) :=
    if negb (Rng.tos_inc r =? 0) then
      let '(v, set) := first_step 0 (Pkt.tos p) (min_tos_set st) in
      (p <| Pkt.tos := u8 (step1 32 (Rng.tos_inc r) (Rng.tos_min r) (Rng.tos_max r) v) |>,
       st <| min_tos_set := set |>)
    else (p <| Pkt.tos := Rng.tos r |>, st) in
  (p, st).

Definition range_tcp_udp (r : range_info_t) (st : statics) (p : pkt_seq_t) : pkt_seq_t * statics :=
  let p :=
    if Pkt.dport p =? PG_IPPROTO_L4_GTPU_PORT then
      p <| Pkt.gtpu_teid ::= λ v,
        if negb (Rng.gtpu_teid_inc r =? 0)
        then step2 32 (Rng.gtpu_teid_inc r) (Rng.gtpu_teid_min r) (Rng.gtpu_teid_max r) v
        else Rng.gtpu_teid r |>
    else p in
  let p := p <| Pkt.sport ::= λ v,
    if negb (Rng.src_port_inc r =? 0)
    then step2 16 (Rng.src_port_inc r) (Rng.src_port_min r) (Rng.src_port_max r) v
    else Rng.src_port r |> in
  let p := p <| Pkt.dport ::= λ v,
    if negb (Rng.dst_port_inc r =? 0)
    then step2 16 (Rng.dst_port_inc r) (Rng.dst_port_min r) (Rng.dst_port_max r) v
    else Rng.dst_port r |> in
  let p := p <| Pkt.ttl ::= λ v,
    if negb (Rng.ttl_inc r =? 0)
    then step2 8 (Rng.ttl_inc r) (Rng.ttl_min r) (Rng.ttl_max r) v
    else Rng.ttl r |> in
  let p := p <| Pkt.ip_src_addr ::= λ v,
    if negb (Rng.src_ip_inc r =? 0)
    then step1 32 (Rng.src_ip_inc r) (Rng.src_ip_min r) (Rng.src_ip_max r) v
    else Rng.src_ip r |> in
  let p := p <| Pkt.ip_dst_addr ::= λ v,
    if negb (Rng.dst_ip_inc r =? 0)
    then step1 32 (Rng.dst_ip_inc r) (Rng.dst_ip_min r) (Rng.dst_ip_max r) v
    else Rng.dst_ip r |> in
  let '(p, st) := range_tags r st p in
  let p := p <| Pkt.pktSize ::= λ v,
    if negb (Rng.pkt_size_inc r =? 0)
    then u16 (step1 32 (Rng.pkt_size_inc r) (Rng.pkt_size_min r) (Rng.pkt_size_max r) v)
    else Rng.pkt_size r |> in
  let p := p <| Pkt.eth_src_addr ::= λ v, wrap 48 (
    if negb (Rng.src_mac_inc r =? 0)
    then step1 64 (Rng.src_mac_inc r) (Rng.src_mac_min r) (Rng.src_mac_max r) v
    else Rng.src_mac r) |> in
  let p := p <| Pkt.eth_dst_addr ::= λ v, wrap 48 (
    if negb (Rng.dst_mac_inc r =? 0)
    then step1 64 (Rng.dst_mac_inc r) (Rng.dst_mac_min r) (Rng.dst_mac_max r) v
    else Rng.dst_mac r) |> in
  let p := p <| Pkt.group_id ::= λ v, u16 (
    if negb (Rng.vxlan_gid_inc r =? 0)
    then step1 32 (Rng.vxlan_gid_inc r) (Rng.vxlan_gid_min r) (Rng.vxlan_gid_max r) v
    else Rng.vxlan_gid r) |> in
  let p :=
    if negb (Rng.vxlan_vid_inc r =? 0)
    then p <| Pkt.group_id := u16 (step1 32 (Rng.vxlan_gid_inc r) (Rng.vxlan_vid_min r)
                                     (Rng.vxlan_vid_max r) (Pkt.vxlan_id p)) |>
    else p <| Pkt.vxlan_id := Rng.vxlan_vid r |> in
  (p, st).

(** Other packets are only reported. *)
Definition pktgen_range_ctor (r : range_info_t) (st : statics) (p : pkt_seq_t)
    : pkt_seq_t * statics :=
  if (Pkt.ethType p =? PG_ETHER_TYPE_IPv4) &&
     ((Pkt.ipProto p =? PG_IPPROTO_TCP) || (Pkt.ipProto p =? PG_IPPROTO_UDP))
  then range_tcp_udp r st p else (p, st).

(** The packets of a range: [n] constructions one after the other. *)
Fixpoint range_packets (n : nat) (r : range_info_t) (st : statics) (p : pkt_seq_t)
    : pkt_seq_t * statics :=
  match n with
  | O => (p, st)
  | S n => let '(p, st) := pktgen_range_ctor r st p in range_packets n r st p
  end.

(** ** Stepping through an interval *)

(** The field values of a range, in order: from [min] in steps of [inc] while they
    do not exceed [max], then again from [min]. *)
Definition range_len (inc min max : Z) : Z := (max - min) / inc + 1.
Definition range_value (inc min max k : Z) : Z := min + inc * (k `mod` range_len inc min max).

Lemma range_value_bounds inc min max k :
  0 < inc → min ≤ max → min ≤ range_value inc min max k ≤ max.
Proof.
  intros Hi Hm. unfold range_value, range_len.
  assert (0 ≤ (max - min) / inc) by (apply Z.div_pos; lia).
  assert (inc * ((max - min) / inc) ≤ max - min) by (apply Z.mul_div_le; lia).
  pose proof (Z.mod_pos_bound k ((max - min) / inc + 1)). nia.
Qed.

Lemma range_value_next inc min max k :
  0 < inc → min ≤ max →
  range_value inc min max (k + 1) =
  if range_value inc min max k + inc <=? max then range_value inc min max k + inc else min.
Proof.
  intros Hi Hm. unfold range_value, range_len. set (q := (max - min) / inc).
  assert (0 ≤ q) by (apply Z.div_pos; lia).
  assert (max - min = inc * q + (max - min) `mod` inc) as Hq by (apply Z.div_mod; lia).
  pose proof (Z.mod_pos_bound (max - min) inc Hi).
  pose proof (Z.mod_pos_bound k (q + 1)) as Hb. set (j := k `mod` (q + 1)) in *.
  rewrite <-Zplus_mod_idemp_l. fold j.
  destruct (Z.leb_spec (min + inc * j + inc) max).
  - rewrite Z.mod_small by nia. lia.
  - assert (j = q) as -> by nia. rewrite Z.mod_same by lia. lia.
Qed.

Lemma step1_next w inc min max v :
  0 < inc → 0 ≤ min ≤ v → v ≤ max → max + inc < 2 ^ w →
  step1 w inc min max v = if v + inc <=? max then v + inc else min.
Proof.
  intros Hi Hv Hm Hw. unfold step1. rewrite wrap_small by (unfold in_word; lia). cbn zeta.
  destruct (Z.ltb_spec (v + inc) min), (Z.ltb_spec max (v + inc)), (Z.leb_spec (v + inc) max); lia.
Qed.

Lemma step2_next w inc min max v :
  0 < inc → 0 ≤ min ≤ v → v ≤ max → max + inc < 2 ^ w →
  step2 w inc min max v = if v + inc <=? max then v + inc else min.
Proof.
  intros Hi Hv Hm Hw. unfold step2. rewrite wrap_small by (unfold in_word; lia). cbn zeta.
  destruct (Z.ltb_spec (v + inc) min); [lia|].
  destruct (Z.ltb_spec max (v + inc)), (Z.leb_spec (v + inc) max); lia.
Qed.

(** ** The fields of a packet advance together *)

(** [b] says whether the increment is in use, [s] the step, [d] the fixed value. *)
Definition field (b : bool) (s d : Z) : Z := if b then s else d.

Lemma tags_fields r st p :
  let vlan := first_step 1 (Pkt.vlanid p) (min_vlan_set st) in
  let cos := first_step 0 (Pkt.cos p) (min_cos_set st) in
  let tos := first_step 0 (Pkt.tos p) (min_tos_set st) in
  range_tags r st p =
    (p <| Pkt.vlanid := field (negb (Rng.vlan_id_inc r =? 0))
            (u16 (step1 32 (Rng.vlan_id_inc r) (Rng.vlan_id_min r) (Rng.vlan_id_max r) (fst vlan))) (Rng.vlan_id r) |>
       <| Pkt.cos := field (negb (Rng.cos_inc r =? 0))
            (u8 (step1 32 (Rng.cos_inc r) (Rng.cos_min r) (Rng.cos_max r) (fst cos))) (Rng.cos r) |>
       <| Pkt.tos := field (negb (Rng.tos_inc r =? 0))
            (u8 (step1 32 (Rng.tos_inc r) (Rng.tos_min r) (Rng.tos_max r) (fst tos))) (Rng.tos r) |>,
     mk_statics (if negb (Rng.vlan_id_inc r =? 0) then snd vlan else min_vlan_set st)
       (if negb (Rng.cos_inc r =? 0) then snd cos else min_cos_set st)
       (if negb (Rng.tos_inc r =? 0) then snd tos else min_tos_set st)).
Proof.
  unfold range_tags, field. destruct st as [sv sc so]. cbn [min_vlan_set min_cos_set min_tos_set].
  destruct (negb (Rng.vlan_id_inc r =? 0)), (negb (Rng.cos_inc r =? 0)), (negb (Rng.tos_inc r =? 0));
    repeat match goal with |- context [let '(_, _) := first_step ?a ?b ?c in _] =>
      rewrite (surjective_pairing (first_step a b c)); cbn [fst snd] end; reflexivity.
Qed.

Lemma range_fields r st p :
  let p' := fst (range_tcp_udp r st p) in
  let st' := snd (range_tcp_udp r st p) in
  Pkt.ethType p' = Pkt.ethType p ∧ Pkt.ipProto p' = Pkt.ipProto p ∧
  Pkt.sport p' = field (negb (Rng.src_port_inc r =? 0))
    (step2 16 (Rng.src_port_inc r) (Rng.src_port_min r) (Rng.src_port_max r) (Pkt.sport p))
    (Rng.src_port r) ∧
  Pkt.dport p' = field (negb (Rng.dst_port_inc r =? 0))
    (step2 16 (Rng.dst_port_inc r) (Rng.dst_port_min r) (Rng.dst_port_max r) (Pkt.dport p))
    (Rng.dst_port r) ∧
  Pkt.ttl p' = field (negb (Rng.ttl_inc r =? 0))
    (step2 8 (Rng.ttl_inc r) (Rng.ttl_min r) (Rng.ttl_max r) (Pkt.ttl p)) (Rng.ttl r) ∧
  Pkt.ip_src_addr p' = field (negb (Rng.src_ip_inc r =? 0))
    (step1 32 (Rng.src_ip_inc r) (Rng.src_ip_min r) (Rng.src_ip_max r) (Pkt.ip_src_addr p))
    (Rng.src_ip r) ∧
  Pkt.ip_dst_addr p' = field (negb (Rng.dst_ip_inc r =? 0))
    (step1 32 (Rng.dst_ip_inc r) (Rng.dst_ip_min r) (Rng.dst_ip_max r) (Pkt.ip_dst_addr p))
    (Rng.dst_ip r) ∧
  Pkt.pktSize p' = field (negb (Rng.pkt_size_inc r =? 0))
    (u16 (step1 32 (Rng.pkt_size_inc r) (Rng.pkt_size_min r) (Rng.pkt_size_max r) (Pkt.pktSize p)))
    (Rng.pkt_size r) ∧
  Pkt.eth_src_addr p' = wrap 48 (field (negb (Rng.src_mac_inc r =? 0))
    (step1 64 (Rng.src_mac_inc r) (Rng.src_mac_min r) (Rng.src_mac_max r) (Pkt.eth_src_addr p))
    (Rng.src_mac r)) ∧
  Pkt.eth_dst_addr p' = wrap 48 (field (negb (Rng.dst_mac_inc r =? 0))
    (step1 64 (Rng.dst_mac_inc r) (Rng.dst_mac_min r) (Rng.dst_mac_max r) (Pkt.eth_dst_addr p))
    (Rng.dst_mac r)) ∧
  Pkt.cos p' = field (negb (Rng.cos_inc r =? 0))
    (u8 (step1 32 (Rng.cos_inc r) (Rng.cos_min r) (Rng.cos_max r)
           (fst (first_step 0 (Pkt.cos p) (min_cos_set st))))) (Rng.cos r) ∧
  Pkt.tos p' = field (negb (Rng.tos_inc r =? 0))
    (u8 (step1 32 (Rng.tos_inc r) (Rng.tos_min r) (Rng.tos_max r)
           (fst (first_step 0 (Pkt.tos p) (min_tos_set st))))) (Rng.tos r) ∧
  Pkt.vlanid p' = field (negb (Rng.vlan_id_inc r =? 0))
    (u16 (step1 32 (Rng.vlan_id_inc r) (Rng.vlan_id_min r) (Rng.vlan_id_max r)
            (fst (first_step 1 (Pkt.vlanid p) (min_vlan_set st))))) (Rng.vlan_id r) ∧
  min_vlan_set st' = (if negb (Rng.vlan_id_inc r =? 0)
                      then snd (first_step 1 (Pkt.vlanid p) (min_vlan_set st)) else min_vlan_set st) ∧
  Pkt.gtpu_teid p' =
    (if Pkt.dport p =? PG_IPPROTO_L4_GTPU_PORT
     then field (negb (Rng.gtpu_teid_inc r =? 0))
            (step2 32 (Rng.gtpu_teid_inc r) (Rng.gtpu_teid_min r) (Rng.gtpu_teid_max r) (Pkt.gtpu_teid p))
            (Rng.gtpu_teid r)
     else Pkt.gtpu_teid p) ∧
  Pkt.vxlan_id p' = field (negb (Rng.vxlan_vid_inc r =? 0)) (Pkt.vxlan_id p) (Rng.vxlan_vid r) ∧
  Pkt.group_id p' = field (negb (Rng.vxlan_vid_inc r =? 0))
    (u16 (step1 32 (Rng.vxlan_gid_inc r) (Rng.vxlan_vid_min r) (Rng.vxlan_vid_max r) (Pkt.vxlan_id p)))
    (u16 (field (negb (Rng.vxlan_gid_inc r =? 0))
            (step1 32 (Rng.vxlan_gid_inc r) (Rng.vxlan_gid_min r) (Rng.vxlan_gid_max r) (Pkt.group_id p))
            (Rng.vxlan_gid r))).
Proof.
  unfold range_tcp_udp. cbv zeta. rewrite tags_fields.
  destruct (Pkt.dport p =? PG_IPPROTO_L4_GTPU_PORT), (negb (Rng.vxlan_vid_inc r =? 0)); repeat split.
Qed.

(** An interval whose bounds and steps stay within the field's width. *)
Definition interval (w inc min max : Z) : Prop := 0 < inc ∧ 0 ≤ min ≤ max ∧ max + inc < 2 ^ w.
(** A field without an increment has a fixed value. *)
Definition walkable (w inc min max fixed : Z) : Prop :=
  (inc = 0 ∧ in_word w fixed) ∨ interval w inc min max.
Definition value_at (inc min max fixed k : Z) : Z :=
  if inc =? 0 then fixed else range_value inc min max k.

Record range_ok (r : range_info_t) : Prop := {
  ro_sport : walkable 16 (Rng.src_port_inc r) (Rng.src_port_min r) (Rng.src_port_max r) (Rng.src_port r);
  ro_dport : walkable 16 (Rng.dst_port_inc r) (Rng.dst_port_min r) (Rng.dst_port_max r) (Rng.dst_port r);
  ro_ttl : walkable 8 (Rng.ttl_inc r) (Rng.ttl_min r) (Rng.ttl_max r) (Rng.ttl r);
  ro_src_ip : walkable 32 (Rng.src_ip_inc r) (Rng.src_ip_min r) (Rng.src_ip_max r) (Rng.src_ip r);
  ro_dst_ip : walkable 32 (Rng.dst_ip_inc r) (Rng.dst_ip_min r) (Rng.dst_ip_max r) (Rng.dst_ip r);
  ro_size : walkable 16 (Rng.pkt_size_inc r) (Rng.pkt_size_min r) (Rng.pkt_size_max r) (Rng.pkt_size r);
  ro_src_mac : walkable 48 (Rng.src_mac_inc r) (Rng.src_mac_min r) (Rng.src_mac_max r) (Rng.src_mac r);
  ro_dst_mac : walkable 48 (Rng.dst_mac_inc r) (Rng.dst_mac_min r) (Rng.dst_mac_max r) (Rng.dst_mac r);
  ro_cos : walkable 8 (Rng.cos_inc r) (Rng.cos_min r) (Rng.cos_max r) (Rng.cos r);
  ro_tos : walkable 8 (Rng.tos_inc r) (Rng.tos_min r) (Rng.tos_max r) (Rng.tos r);
  ro_vlan : walkable 16 (Rng.vlan_id_inc r) (Rng.vlan_id_min r) (Rng.vlan_id_max r) (Rng.vlan_id r);
  ro_teid : walkable 32 (Rng.gtpu_teid_inc r) (Rng.gtpu_teid_min r) (Rng.gtpu_teid_max r) (Rng.gtpu_teid r);
  ro_gid : walkable 16 (Rng.vxlan_gid_inc r) (Rng.vxlan_gid_min r) (Rng.vxlan_gid_max r) (Rng.vxlan_gid r) }.

(** The packet at position [k] of the range, [j] of the VLAN identifiers and [t]
    of the tunnel endpoints; a range that steps the VxLAN identifiers has no
    positions for them. *)
Record at_pos (r : range_info_t) (k j t : Z) (p : pkt_seq_t) : Prop := {
  ap_type : Pkt.ethType p = PG_ETHER_TYPE_IPv4;
  ap_proto : Pkt.ipProto p = PG_IPPROTO_TCP ∨ Pkt.ipProto p = PG_IPPROTO_UDP;
  ap_sport : Pkt.sport p = value_at (Rng.src_port_inc r) (Rng.src_port_min r) (Rng.src_port_max r) (Rng.src_port r) k;
  ap_dport : Pkt.dport p = value_at (Rng.dst_port_inc r) (Rng.dst_port_min r) (Rng.dst_port_max r) (Rng.dst_port r) k;
  ap_ttl : Pkt.ttl p = value_at (Rng.ttl_inc r) (Rng.ttl_min r) (Rng.ttl_max r) (Rng.ttl r) k;
  ap_src_ip : Pkt.ip_src_addr p = value_at (Rng.src_ip_inc r) (Rng.src_ip_min r) (Rng.src_ip_max r) (Rng.src_ip r) k;
  ap_dst_ip : Pkt.ip_dst_addr p = value_at (Rng.dst_ip_inc r) (Rng.dst_ip_min r) (Rng.dst_ip_max r) (Rng.dst_ip r) k;
  ap_size : Pkt.pktSize p = value_at (Rng.pkt_size_inc r) (Rng.pkt_size_min r) (Rng.pkt_size_max r) (Rng.pkt_size r) k;
  ap_src_mac : Pkt.eth_src_addr p = value_at (Rng.src_mac_inc r) (Rng.src_mac_min r) (Rng.src_mac_max r) (Rng.src_mac r) k;
  ap_dst_mac : Pkt.eth_dst_addr p = value_at (Rng.dst_mac_inc r) (Rng.dst_mac_min r) (Rng.dst_mac_max r) (Rng.dst_mac r) k;
  ap_cos : Pkt.cos p = value_at (Rng.cos_inc r) (Rng.cos_min r) (Rng.cos_max r) (Rng.cos r) k;
  ap_tos : Pkt.tos p = value_at (Rng.tos_inc r) (Rng.tos_min r) (Rng.tos_max r) (Rng.tos r) k;
  ap_vlan : Pkt.vlanid p = value_at (Rng.vlan_id_inc r) (Rng.vlan_id_min r) (Rng.vlan_id_max r) (Rng.vlan_id r) j;
  ap_teid : Pkt.gtpu_teid p = value_at (Rng.gtpu_teid_inc r) (Rng.gtpu_teid_min r) (Rng.gtpu_teid_max r) (Rng.gtpu_teid r) t;
  ap_vxlan : Rng.vxlan_vid_inc r = 0 → Pkt.vxlan_id p = Rng.vxlan_vid r ∧
    Pkt.group_id p = value_at (Rng.vxlan_gid_inc r) (Rng.vxlan_gid_min r) (Rng.vxlan_gid_max r) (Rng.vxlan_gid r) k }.

(** Either kind of step, in a field wide enough, is one position further. *)
Lemma walk_step w w' inc min max fixed k :
  w ≤ w' → walkable w inc min max fixed →
  let v := value_at inc min max fixed k in
  field (negb (inc =? 0)) (step1 w' inc min max v) fixed = value_at inc min max fixed (k + 1) ∧
  field (negb (inc =? 0)) (step2 w' inc min max v) fixed = value_at inc min max fixed (k + 1) ∧
  in_word w (value_at inc min max fixed (k + 1)).
Proof.
  intros Hw Hi. unfold value_at, field. destruct Hi as [[-> Hf]|(Hi & Hm & Hx)]; [done|].
  destruct (Z.eqb_spec inc 0); [lia|]. cbn [negb].
  assert (2 ^ w ≤ 2 ^ w') by (apply Z.pow_le_mono_r; lia).
  pose proof (range_value_bounds inc min max k Hi ltac:(lia)).
  pose proof (range_value_bounds inc min max (k + 1) Hi ltac:(lia)).
  rewrite range_value_next, step1_next, step2_next by lia. set (v := range_value inc min max k) in *.
  split_and!; [done..|]. unfold in_word. destruct (Z.leb_spec (v + inc) max); lia.
Qed.

(** The same for a field that is stored narrower than it is stepped. *)
Lemma walk_step_stored w w' inc min max fixed k :
  w ≤ w' → walkable w inc min max fixed →
  field (negb (inc =? 0)) (wrap w (step1 w' inc min max (value_at inc min max fixed k))) fixed =
    value_at inc min max fixed (k + 1) ∧
  wrap w (field (negb (inc =? 0)) (step1 w' inc min max (value_at inc min max fixed k)) fixed) =
    value_at inc min max fixed (k + 1).
Proof.
  intros Hw Hi. destruct (walk_step w w' inc min max fixed k Hw Hi) as (E & _ & Hin).
  split; [|by rewrite E, wrap_small]. revert E. unfold field. destruct (negb (inc =? 0)); [|done].
  intros ->. by apply wrap_small.
Qed.

(** *** The three first steps

    Those of cos and tos start from the zero they have.  The first VLAN
    identifier 1 is stepped as if it were 0: a range that starts there sends it
    once more. *)
Lemma first_step_zero v set : fst (first_step 0 v set) = v.
Proof. unfold first_step. by destruct (Z.eqb_spec v 0) as [->|], set. Qed.

Definition vlan_waits (r : range_info_t) (st : statics) : bool :=
  negb (Rng.vlan_id_inc r =? 0) && negb (min_vlan_set st) && (Rng.vlan_id_min r =? 1).
Definition vlan_ok (r : range_info_t) (st : statics) (p : pkt_seq_t) : Prop :=
  Rng.vlan_id_inc r ≠ 0 → min_vlan_set st = false →
  1 < Rng.vlan_id_min r ∨ Rng.vlan_id_min r = 1 ∧ Rng.vlan_id_inc r = 1 ∧ Pkt.vlanid p = 1.

Lemma vlan_step r st j p :
  walkable 16 (Rng.vlan_id_inc r) (Rng.vlan_id_min r) (Rng.vlan_id_max r) (Rng.vlan_id r) → vlan_ok r st p →
  Pkt.vlanid p = value_at (Rng.vlan_id_inc r) (Rng.vlan_id_min r) (Rng.vlan_id_max r) (Rng.vlan_id r) j →
  let p' := fst (range_tcp_udp r st p) in
  let st' := snd (range_tcp_udp r st p) in
  Pkt.vlanid p' = value_at (Rng.vlan_id_inc r) (Rng.vlan_id_min r) (Rng.vlan_id_max r) (Rng.vlan_id r)
                    (if vlan_waits r st then j else j + 1) ∧
  vlan_ok r st' p' ∧ vlan_waits r st' = false.
Proof.
  intros Hw Hok Hv. cbv zeta. unfold vlan_ok, vlan_waits.
  destruct (range_fields r st p) as (_ & _ & _ & _ & _ & _ & _ & _ & _ & _ & _ & _ & -> & -> & _).
  destruct (walk_step_stored 16 32 _ _ _ _ j ltac:(lia) Hw) as [Es _].
  destruct (Z.eqb_spec (Rng.vlan_id_inc r) 0) as [E0|Hne]; cbn [negb andb field] in *.
  { unfold value_at. rewrite E0. by split_and!. }
  unfold first_step. destruct (min_vlan_set st) eqn:Eset; cbn [negb andb].
  { rewrite !andb_false_r. cbn [fst snd]. rewrite Hv. by split_and!. }
  destruct (Hok Hne Eset) as [Hlt|(Em & Ei & E1)]; cbn [andb]; rewrite ?andb_true_r.
  - destruct Hw as [[??]|(Hi & Hm & Hx)]; [done|].
    pose proof (range_value_bounds (Rng.vlan_id_inc r) (Rng.vlan_id_min r) (Rng.vlan_id_max r) j Hi ltac:(lia)) as B.
    assert ((Pkt.vlanid p =? 1) = false) as ->.
    { apply Z.eqb_neq. rewrite Hv. unfold value_at. destruct (Z.eqb_spec (Rng.vlan_id_inc r) 0); [done|]. lia. }
    destruct (Z.eqb_spec (Rng.vlan_id_min r) 1); [lia|]. cbn [fst snd]. rewrite Hv, Es.
    split_and!; [done|by left|by rewrite andb_false_r].
  - rewrite E1. cbn [Z.eqb Pos.eqb fst snd]. rewrite Em, Z.eqb_refl. cbn [fst snd negb andb].
    rewrite <-Em, <-Hv, E1, Em, Ei. split_and!; [|done..].
    destruct Hw as [[? ?]|(Hi & Hm & Hx)]; [lia|]. rewrite Em in Hm.
    unfold step1. change (wrap 32 (0 + 1)) with 1. cbn zeta.
    destruct (Z.ltb_spec 1 1); [lia|]. destruct (Z.ltb_spec (Rng.vlan_id_max r) 1); [lia|done].
Qed.

(** How many of the next [n] packets, from position [k], go on to the next tunnel
    endpoint: those that follow one to the port of GTP-U. *)
Fixpoint teid_steps (r : range_info_t) (k : Z) (n : nat) : Z :=
  match n with
  | O => 0
  | S n => (if value_at (Rng.dst_port_inc r) (Rng.dst_port_min r) (Rng.dst_port_max r) (Rng.dst_port r) k
               =? PG_IPPROTO_L4_GTPU_PORT then 1 else 0) + teid_steps r (k + 1) n
  end.

Lemma range_ctor_tcp_udp r st p k j t :
  at_pos r k j t p → pktgen_range_ctor r st p = range_tcp_udp r st p.
Proof.
  intros Hp. unfold pktgen_range_ctor. rewrite (ap_type _ _ _ _ _ Hp), Z.eqb_refl.
  by destruct (ap_proto _ _ _ _ _ Hp) as [-> | ->].
Qed.

Lemma at_pos_step r st k j t p :
  range_ok r → vlan_ok r st p → at_pos r k j t p →
  at_pos r (k + 1) (if vlan_waits r st then j else j + 1) (t + if Pkt.dport p =? PG_IPPROTO_L4_GTPU_PORT then 1 else 0) (fst (range_tcp_udp r st p)).
Proof.
  intros [R1 R2 R3 R4 R5 R6 R7 R8 R9 R10 R11 R12 R13] Hv [A1 A2 A3 A4 A5 A6 A7 A8 A9 A10 A11 A12 A13 A14 A15].
  destruct (vlan_step r st j p R11 Hv A13) as (Ev & _ & _).
  destruct (range_fields r st p) as (F1 & F2 & F3 & F4 & F5 & F6 & F7 & F8 & F9 & F10 & F11 & F12 & _ & _ & F15 & F16 & F17).
  rewrite first_step_zero in F11, F12.
  split; [by rewrite ?F1, ?F2|by rewrite F2|rewrite ?F3, ?F4, ?F5, ?F6, ?F7, ?F8, ?F9, ?F10, ?F11, ?F12,
    ?A3, ?A4, ?A5, ?A6, ?A7, ?A8, ?A9, ?A10, ?A11, ?A12..].
  - by apply (walk_step 16 16).
  - by apply (walk_step 16 16).
  - by apply (walk_step 8 8).
  - by apply (walk_step 32 32).
  - by apply (walk_step 32 32).
  - by apply (walk_step_stored 16 32).
  - by apply (walk_step_stored 48 64).
  - by apply (walk_step_stored 48 64).
  - by apply (walk_step_stored 8 32).
  - by apply (walk_step_stored 8 32).
  - exact Ev.
  - rewrite F15, A14, <-A4. destruct (Pkt.dport p =? PG_IPPROTO_L4_GTPU_PORT); [|by rewrite Z.add_0_r].
    by apply (walk_step 32 32).
  - intros E. destruct (A15 E) as [_ Eg]. rewrite F16, F17, E, Eg. split; [done|].
    by apply (walk_step_stored 16 32).
Qed.


Definition demo_range : range_info_t :=
  Rng.zero <| Rng.src_port_inc := 10 |> <| Rng.src_port_min := 100 |> <| Rng.src_port_max := 125 |>
    <| Rng.dst_port_inc := 1 |> <| Rng.dst_port_min := 1 |> <| Rng.dst_port_max := 65534 |>
    <| Rng.ttl_inc := 1 |> <| Rng.ttl_min := 4 |> <| Rng.ttl_max := 64 |>
    <| Rng.src_ip_inc := 1 |> <| Rng.src_ip_min := 1 |> <| Rng.src_ip_max := 254 |>
    <| Rng.dst_ip_inc := 256 |> <| Rng.dst_ip_min := 1 |> <| Rng.dst_ip_max := 1000 |>
    <| Rng.pkt_size_inc := 64 |> <| Rng.pkt_size_min := 60 |> <| Rng.pkt_size_max := 1514 |>
    <| Rng.src_mac_inc := 1 |> <| Rng.src_mac_max := 1000 |>
    <| Rng.dst_mac_inc := 2 |> <| Rng.dst_mac_max := 1000 |>
    <| Rng.vlan_id_inc := 1 |> <| Rng.vlan_id_min := 1 |> <| Rng.vlan_id_max := 4095 |>
    <| Rng.cos_inc := 1 |> <| Rng.cos_max := 7 |> <| Rng.tos := 4 |>.

Definition demo_start : pkt_seq_t :=
  Pkt.zero <| Pkt.ethType := PG_ETHER_TYPE_IPv4 |> <| Pkt.ipProto := PG_IPPROTO_UDP |>
    <| Pkt.sport := 100 |> <| Pkt.dport := 1 |> <| Pkt.ttl := 4 |> <| Pkt.ip_src_addr := 1 |>
    <| Pkt.ip_dst_addr := 1 |> <| Pkt.pktSize := 60 |> <| Pkt.vlanid := 1 |> <| Pkt.tos := 4 |>.

