(* ===== verification/Mbuf.v ===== *)
(** * Packet buffers and the data plane's environment

    [struct rte_mbuf] as pktgen uses it, [rte_pktmbuf_reset] of DPDK and the
    allocation helpers of [lib/common/mbuf.h], which keep a packet's lengths in
    [udata64] across trips through a pool.  The drivers, the mempool library, the
    clock, the TAP devices and the other cores are not part of the sources: they
    are the class [Env], a script of their answers.  The state [dp] of the data
    plane threads the world of a port, the mbufs, the memory they point into, and
    what has been given to the driver. *)
From S2P Require Import Prelude Mem RandomBits PortInfo Range Commands.

(** ** struct rte_mbuf *)
Module Mb.
Record rte_mbuf := mk {
  buf_addr : Z; data_off : Z; pkt_len : Z; data_len : Z; buf_len : Z; ol_flags : Z;
  udata64 : Z }.
#[global] Instance eta_mbuf : Eta rte_mbuf := λ m,
  mk (buf_addr m) (data_off m) (pkt_len m) (data_len m) (buf_len m) (ol_flags m) (udata64 m).
End Mb.
Abbreviation rte_mbuf := Mb.rte_mbuf.

Definition RTE_PKTMBUF_HEADROOM := 128.

(** [rte_pktmbuf_mtod]: where the packet's data starts *)
Definition mtod (m : rte_mbuf) : Z := Mb.buf_addr m + Mb.data_off m.

Definition rte_pktmbuf_reset_headroom (m : rte_mbuf) : rte_mbuf :=
  m <| Mb.data_off := Z.min RTE_PKTMBUF_HEADROOM (Mb.buf_len m) |>.

(** Fields pktgen does not look at are left out. *)
Definition rte_pktmbuf_reset (m : rte_mbuf) : rte_mbuf :=
  let m := m <| Mb.pkt_len := 0 |> in
  let m := m <| Mb.ol_flags := 0 |> in
  let m := rte_pktmbuf_reset_headroom m in
  m <| Mb.data_len := 0 |>.

(** [union pktgen_data]: three fields over [udata64], least significant first. *)
Module Data.
Definition data_len (udata : Z) : Z := udata `mod` 2 ^ 16.
Definition buf_len (udata : Z) : Z := (udata / 2 ^ 16) `mod` 2 ^ 16.
Definition pkt_len (udata : Z) : Z := (udata / 2 ^ 32) `mod` 2 ^ 32.
Definition set_data_len (v udata : Z) : Z := u16 v + 2 ^ 16 * (udata / 2 ^ 16).
Definition set_buf_len (v udata : Z) : Z :=
  data_len udata + 2 ^ 16 * u16 v + 2 ^ 32 * (udata / 2 ^ 32).
Definition set_pkt_len (v udata : Z) : Z := udata `mod` 2 ^ 32 + 2 ^ 32 * u32 v.
End Data.

Definition pktmbuf_reset (m : rte_mbuf) : rte_mbuf :=
  let d := Mb.udata64 m in
  let m := rte_pktmbuf_reset m in
  let m := m <| Mb.data_len := Data.data_len d |> in
  let m := m <| Mb.pkt_len := Data.pkt_len d |> in
  m <| Mb.buf_len := Data.buf_len d |>.

(** ** The environment

    The answer to the [k]-th question the data plane asks; bursts offered to the
    driver are numbered apart. *)
Class Env := {
  (** the [k]-th [rte_eth_tx_burst], offered [n] packets, takes this many of them *)
  tx_accept : nat → nat → nat;
  tx_accept_le : ∀ k n, (tx_accept k n ≤ n)%nat;
  (** another core stops the port before this turn of the send loop *)
  stopped : nat → bool;
  (** [rte_rdtsc_precise] *)
  tsc : nat → Z;
  (** [rte_mempool_get_bulk]: [n] objects of a pool, or none *)
  mempool_get_bulk : nat → Z → nat → option (list Z);
  mempool_get_bulk_len : ∀ k mp n l, mempool_get_bulk k mp n = Some l → length l = n;
  (** [rte_mempool_get] *)
  mempool_get : nat → Z → option Z;
  (** the objects of a pool, in the order [rte_mempool_obj_iter] visits them *)
  mempool_objs : Z → list Z;
  (** [write] to a TAP device succeeds *)
  tap_write : nat → bool;
  (** [get_txque(pktgen.l2p, rte_lcore_id(), pid)] of the receiving core *)
  rx_txque : Z;
  (** [rte_zmalloc_socket]: the address of zeroed memory, 0 when there is none *)
  zmalloc : nat → Z }.

(** ** The state of the data plane *)

(** A packet the driver took: its mbuf and what it said at that moment. *)
Record frame := mk_frame { f_mbuf : Z; f_len : Z; f_ol_flags : Z; f_byte : Z → Z }.

Record dp := mk_dp {
  w : world; mbufs : Z → rte_mbuf; ram : mem; rnd_bitfields : rnd_bits_t; xor_state : Z;
  range_statics : statics; now : nat; bursts : nat; sent : list frame; tapped : list frame;
  freed : list Z; dump_lens : Z → Z }.
#[global] Instance eta_dp : Eta dp := λ s,
  mk_dp (w s) (mbufs s) (ram s) (rnd_bitfields s) (xor_state s) (range_statics s) (now s)
        (bursts s) (sent s) (tapped s) (freed s) (dump_lens s).

Definition tick (s : dp) : dp := s <| now ::= S |>.
Definition upd_w (f : world → world) (s : dp) : dp := s <| w ::= f |>.
Definition port (s : dp) : port_info_t := info (w s).
Definition upd_port (f : port_info_t → port_info_t) (s : dp) : dp := upd_w (upd_info f) s.
Definition upd_mbuf (a : Z) (f : rte_mbuf → rte_mbuf) (s : dp) : dp :=
  s <| mbufs ::= λ t, set_at a (f (t a)) t |>.
Definition tst (s : dp) (f : Z) : bool := tst_flags (w s) f.
Definition frame_of (s : dp) (a : Z) : frame :=
  let m := mbufs s a in
  mk_frame a (Mb.pkt_len m) (Mb.ol_flags m) (λ o, ld8 (ram s) (mtod m + o)).

Definition upd_stats (f : pkt_stats_t → pkt_stats_t) (s : dp) : dp :=
  upd_port (λ i, i <| Info.stats ::= f |>) s.
Definition set_q_flags (qid flags : Z) (s : dp) : dp :=
  upd_port (λ i, pktgen_set_q_flags i qid flags) s.
Definition upd_ram (f : mem → mem) (s : dp) : dp := s <| ram ::= f |>.
(** The packet slot [info->seq_pkt[idx]] *)
Definition slot (s : dp) (idx : Z) : pkt_seq_t := get_pkt (w s) idx.

(** The [m_table] of a queue and its [len] entries. *)
Definition queue (s : dp) (qid : Z) : list Z := Q.m_table (Info.q (port s) qid).
Definition set_queue (qid : Z) (l : list Z) (s : dp) : dp :=
  upd_port (λ i, upd_q i qid (λ q, q <| Q.m_table := l |>)) s.

(** ** Allocation *)
Section Alloc.
Context `{Env}.

(** The calls [pktmbuf_reset(mbufs[idx]); idx++;], [n] of them *)
Fixpoint reset_run (n : nat) (l : list Z) (idx : nat) (s : dp) : nat * dp :=
  match n with
  | O => (idx, s)
  | S n => reset_run n l (S idx) (upd_mbuf (default 0 (l !! idx)) pktmbuf_reset s)
  end.

(** The [while (idx != count)] around the four cases of the switch *)
Fixpoint duff_loop (fuel : nat) (count : nat) (l : list Z) (idx : nat) (s : dp) : nat * dp :=
  match fuel with
  | O => (idx, s)
  | S fuel =>
      if (idx =? count)%nat then (idx, s)
      else let '(idx, s) := reset_run 4 l idx s in duff_loop fuel count l idx s
  end.

(** The switch enters the loop at the case of the remainder. *)
Definition duff (count : nat) (l : list Z) (s : dp) : nat * dp :=
  let '(idx, s) := reset_run (count mod 4) l 0 s in duff_loop count count l idx s.

(** One object after the other until the pool is empty *)
Fixpoint alloc_singles (n : nat) (pool : Z) (s : dp) : list Z * dp :=
  match n with
  | O => ([], s)
  | S n =>
      match mempool_get (now s) pool with
      | None => ([], tick s)
      | Some m =>
          let '(l, s) := alloc_singles n pool (upd_mbuf m pktmbuf_reset (tick s)) in (m :: l, s)
      end
  end.

(** The mbufs stored in the array; its length is the function's result. *)
Definition pg_pktmbuf_alloc_bulk (pool : Z) (count : nat) (s : dp) : list Z * dp :=
  if (count =? 0)%nat then ([], s)
  else
    match mempool_get_bulk (now s) pool count with
    | None => alloc_singles count pool (tick s)
    | Some l => let '(idx, s) := duff count l (tick s) in (take idx l, s)
    end.

Definition rte_pktmbuf_alloc (pool : Z) (s : dp) : option Z * dp :=
  let r := mempool_get (now s) pool in
  let s := tick s in
  match r with
  | None => (None, s)
  | Some m => (Some m, upd_mbuf m rte_pktmbuf_reset s)
  end.

End Alloc.

(** ** Laws *)

Fixpoint reset_all (l : list Z) (s : dp) : dp :=
  match l with [] => s | a :: l => reset_all l (upd_mbuf a pktmbuf_reset s) end.

Lemma reset_run_spec n l idx s :
  (idx + n ≤ length l)%nat →
  reset_run n l idx s = ((idx + n)%nat, reset_all (take n (drop idx l)) s).
Proof.
  revert idx s. induction n as [|n IH]; intros idx s Hn; cbn [reset_run].
  - by rewrite Nat.add_0_r.
  - destruct (lookup_lt_is_Some_2 l idx) as [a Ha]; [lia|]. rewrite IH by lia.
    rewrite (drop_S l a idx) by done. rewrite Ha. cbn [default take reset_all].
    by rewrite Nat.add_succ_comm.
Qed.

Lemma reset_all_app l1 l2 s : reset_all (l1 ++ l2) s = reset_all l2 (reset_all l1 s).
Proof. revert s. induction l1 as [|a l1 IH]; intros s; [done|apply IH]. Qed.

Lemma duff_loop_spec k fuel count l idx s :
  count = (idx + 4 * k)%nat → (count ≤ length l)%nat → (k < fuel ∨ k = 0)%nat →
  duff_loop fuel count l idx s = (count, reset_all (take (4 * k) (drop idx l)) s).
Proof.
  revert fuel idx s. induction k as [|k IH]; intros fuel idx s Hc Hl Hf.
  - rewrite Nat.mul_0_r, Nat.add_0_r in Hc. subst. destruct fuel; [done|].
    cbn [duff_loop]. by rewrite Nat.eqb_refl.
  - destruct fuel as [|fuel]; [lia|]. cbn [duff_loop].
    destruct (Nat.eqb_spec idx count); [lia|]. rewrite reset_run_spec by lia.
    rewrite (IH fuel (idx + 4)%nat) by lia. f_equal. rewrite <-reset_all_app. f_equal.
    replace (4 * S k)%nat with (4 + 4 * k)%nat by lia.
    by rewrite <-(take_take_drop (drop idx l) 4 (4 * k)), drop_drop.
Qed.

(** Duff's device resets every mbuf exactly once. *)
Lemma duff_spec count l s : length l = count → duff count l s = (count, reset_all l s).
Proof.
  intros Hl. unfold duff.
  pose proof (Nat.div_mod_eq count 4) as Hd. pose proof (Nat.mod_upper_bound count 4 ltac:(lia)).
  rewrite reset_run_spec by lia. cbn [Nat.add].
  rewrite (duff_loop_spec (count / 4)) by lia. f_equal. rewrite drop_0, <-reset_all_app.
  rewrite take_take_drop. f_equal. apply take_ge. lia.
Qed.

(** Resetting touches the mbufs only; each one gets its saved lengths back and
    loses its offload flags. *)
Definition as_saved (old new : rte_mbuf) : Prop :=
  Mb.pkt_len new = Data.pkt_len (Mb.udata64 old) ∧
  Mb.data_len new = Data.data_len (Mb.udata64 old) ∧ Mb.ol_flags new = 0.

Record reset_rel (l : list Z) (s s' : dp) : Prop := {
  rr_w : w s' = w s; rr_ram : ram s' = ram s; rr_sent : sent s' = sent s;
  rr_rnd : rnd_bitfields s' = rnd_bitfields s; rr_freed : freed s' = freed s;
  rr_bursts : bursts s' = bursts s;
  rr_udata : ∀ a, Mb.udata64 (mbufs s' a) = Mb.udata64 (mbufs s a);
  rr_saved : ∀ a, a ∈ l → as_saved (mbufs s a) (mbufs s' a);
  rr_other : ∀ a, a ∉ l → mbufs s' a = mbufs s a }.

Lemma mbufs_upd a f s b : mbufs (upd_mbuf a f s) b = if decide (b = a) then f (mbufs s a) else mbufs s b.
Proof.
  change (set_at a (f (mbufs s a)) (mbufs s) b = if decide (b = a) then f (mbufs s a) else mbufs s b).
  case_decide as E; [by rewrite E, set_at_eq|by rewrite set_at_ne].
Qed.

Lemma pktmbuf_reset_saved m : as_saved m (pktmbuf_reset m) ∧ Mb.udata64 (pktmbuf_reset m) = Mb.udata64 m.
Proof. done. Qed.

Lemma reset_rel_nil s : reset_rel [] s s.
Proof. split; try done. by intros a ?%elem_of_nil. Qed.

Lemma reset_rel_tick l s s' : reset_rel l s s' → reset_rel l s (tick s').
Proof. intros []. by split. Qed.

Lemma reset_rel_tick_l l s s' : reset_rel l (tick s) s' → reset_rel l s s'.
Proof. intros []. by split. Qed.

Lemma reset_rel_cons a l s s' :
  reset_rel l (upd_mbuf a pktmbuf_reset s) s' → reset_rel (a :: l) s s'.
Proof.
  intros [R1 R2 R3 R4 R5 R6 R7 R8 R9].
  assert (∀ b, Mb.udata64 (mbufs (upd_mbuf a pktmbuf_reset s) b) = Mb.udata64 (mbufs s b)) as Hu.
  { intros b. rewrite mbufs_upd. case_decide as E; [by rewrite E|done]. }
  split; try done.
  - intros b. by rewrite R7.
  - intros b Hb. destruct (decide (b ∈ l)) as [Hl|Hl].
    + specialize (R8 b Hl). unfold as_saved in *. by rewrite Hu in R8.
    + rewrite R9 by done. apply elem_of_cons in Hb as [->|]; [|done].
      rewrite mbufs_upd, decide_True by done. apply pktmbuf_reset_saved.
  - intros b Hb. apply not_elem_of_cons in Hb as [Hne Hl]. rewrite R9, mbufs_upd by done.
    by rewrite decide_False.
Qed.

Lemma reset_all_rel l s : reset_rel l s (reset_all l s).
Proof.
  revert s. induction l as [|a l IH]; intros s; [apply reset_rel_nil|]. apply reset_rel_cons, IH.
Qed.

Section AllocLaws.
Context `{Env}.

Lemma alloc_singles_spec n pool s :
  let '(l, s') := alloc_singles n pool s in (length l ≤ n)%nat ∧ reset_rel l s s'.
Proof.
  revert s. induction n as [|n IH]; intros s; cbn [alloc_singles].
  { split; [done|apply reset_rel_nil]. }
  destruct (mempool_get (now s) pool) as [m|].
  2:{ split; [cbn; lia|]. apply reset_rel_tick, reset_rel_nil. }
  specialize (IH (upd_mbuf m pktmbuf_reset (tick s))).
  destruct (alloc_singles n pool _) as [l s']. destruct IH as [Hl Hr].
  split; [cbn; lia|]. by apply reset_rel_tick_l, reset_rel_cons.
Qed.

(** At most the requested number of mbufs, all of it when the pool has them. *)
Lemma alloc_bulk_spec pool n s :
  let '(l, s') := pg_pktmbuf_alloc_bulk pool n s in
  (length l ≤ n)%nat ∧ reset_rel l s s' ∧
  (is_Some (mempool_get_bulk (now s) pool n) → length l = n).
Proof.
  unfold pg_pktmbuf_alloc_bulk. destruct (Nat.eqb_spec n 0) as [->|Hn].
  { split_and!; [done|apply reset_rel_nil|done]. }
  destruct (mempool_get_bulk (now s) pool n) as [l|] eqn:E.
  - pose proof (mempool_get_bulk_len _ _ _ _ E) as Hl. rewrite duff_spec by done.
    rewrite take_ge by lia. split_and!; [lia| |done].
    apply reset_rel_tick_l, reset_all_rel.
  - pose proof (alloc_singles_spec n pool (tick s)) as S. destruct (alloc_singles _ _ _) as [l s'].
    destruct S as [Hl Hr]. split_and!; [done|by apply reset_rel_tick_l|by intros []].
Qed.

End AllocLaws.
