(* ===== verification/Capture.v ===== *)
(** * Capturing packets

    [app/pktgen-capture.c]: packets are stored one behind the other in a memory
    zone, each behind a header of its length, the space it takes and a time
    stamp; a header with length zero ends the data.  Switching the capture off
    walks the zone and writes the packets to a file.  The zone is memory of the
    data plane; the pcap file is the list of records written to it. *)
From S2P Require Import Prelude Mem RandomBits Inet PortInfo Headers Range Commands Mbuf.

(** [cap_hdr_t]: [tstamp] at 0, [pkt_len] at 8, [data_len] at 10, [pkt] at 12;
    the compiler pads the structure to 16 bytes. *)
Definition sizeof_cap_hdr := 16.
Module Hdr.
Definition tstamp := 0.
Definition pkt_len := 8.
Definition data_len := 10.
Definition pkt := 12.
End Hdr.

(** [capture_t]; [mz] is the zone's address and length, [None] for [NULL]. *)
Record capture_t := mk_capture {
  mz : option (Z * Z); tail : Z; end_ : Z; used : Z; lcore : Z; port : Z }.
#[global] Instance eta_capture : Eta capture_t := λ c,
  mk_capture (mz c) (tail c) (end_ c) (used c) (lcore c) (port c).

Definition RTE_MAX_LCORE := 128.
Definition RTE_MAX_ETHPORTS := 32.

(** [zone]: what [rte_memzone_reserve] returns *)
Definition pktgen_packet_capture_init (zone : option (Z * Z)) (cap : capture_t) : capture_t :=
  cap <| lcore := RTE_MAX_LCORE |> <| port := RTE_MAX_ETHPORTS |> <| used := 0 |> <| mz := zone |>.

(** ** Choosing the core that captures

    What [pktgen.l2p] says of a port: its receive queues, its lcores, and the
    ports of an lcore's receive queues. *)
Record l2p_view := mk_l2p { rxcnt : Z; lids : list Z; rx_pids : Z → list Z }.

Fixpoint find_rx_lid (v : l2p_view) (ls : list Z) (pid : Z) : Z :=
  match ls with
  | [] => RTE_MAX_LCORE
  | lid :: ls =>
      if existsb (λ p, p =? pid) (rx_pids v lid) then lid else find_rx_lid v ls pid
  end.

(** The state of a socket's capture: the structure and the memory of its zone *)
Definition cap_state : Type := capture_t * mem.

Definition cap_start (lid pid addr len : Z) (st : cap_state) : cap_state :=
  let '(cap, m) := st in
  let cap := cap <| used := 0 |> <| lcore := lid |> <| port := pid |> <| tail := addr |>
                 <| end_ := addr + (len - sizeof_cap_hdr) |> in
  let m := memset m (tail cap) 0 sizeof_cap_hdr in
  let m := memset m (end_ cap) 0 sizeof_cap_hdr in
  (cap, m).

(** [cap_of sid] is [pktgen.capture[sid]]; [socket] gives the socket of an lcore. *)
Definition capture_on (v : l2p_view) (socket : Z → Z) (caps : Z → capture_t) (m : mem)
    (i : port_info_t) : (Z → capture_t) * mem * port_info_t :=
  if pktgen_tst_port_flags i CAPTURE_PKTS then (caps, m, i)
  else if rxcnt v =? 0 then (caps, m, i)
  else
    let lid := find_rx_lid v (lids v) (Info.pid i) in
    if lid =? RTE_MAX_LCORE then (caps, m, i)
    else
      let sid := socket lid in
      let cap := caps sid in
      match mz cap with
      | None => (caps, m, i)
      | Some (addr, len) =>
          if negb (lcore cap =? RTE_MAX_LCORE) then (caps, m, i)
          else
            let '(cap, m) := cap_start lid (Info.pid i) addr len (cap, m) in
            (set_at sid cap caps, m, pktgen_set_port_flags i CAPTURE_PKTS)
      end.

(** ** Storing packets *)

Definition store_packet (p : rte_mbuf) (now : Z) (plen : Z) (st : cap_state) : cap_state :=
  let '(cap, m) := st in
  let t := tail cap in
  let m := st16 m (t + Hdr.pkt_len) (Mb.pkt_len p) in
  let m := st16 m (t + Hdr.data_len) plen in
  let m := st64 m (t + Hdr.tstamp) now in
  let m := memcpy m (t + Hdr.pkt) (mtod p) (Mb.pkt_len p) in
  (cap <| tail := t + Hdr.pkt + plen |>, m).

(** The packets come with the value of the clock when they are stored. *)
Fixpoint capture_loop (pkts : list (rte_mbuf * Z)) (st : cap_state) : cap_state :=
  match pkts with
  | [] => st
  | (p, now) :: pkts =>
      let plen := Z.land (Mb.data_len p + 1) (Z.lnot 1) in
      if end_ (fst st) <? tail (fst st) + Hdr.pkt + plen then st
      else capture_loop pkts (store_packet p now plen st)
  end.

Definition pktgen_packet_capture_bulk (pkts : list (rte_mbuf * Z)) (st : cap_state) : cap_state :=
  if tail (fst st) =? end_ (fst st) then st
  else
    let '(cap, m) := capture_loop pkts st in
    let m := st16 m (tail cap + Hdr.pkt_len) 0 in
    let addr := match mz cap with Some (a, _) => a | None => 0 end in
    (cap <| used := tail cap - addr |>, m).

(** ** Writing the file *)

(** A record of the file: [len], [caplen] and the captured bytes *)
Record pcap_rec := mk_rec { len : Z; caplen : Z; pkt : list Z }.

(** [while (hdr->pkt_len)]; a zone of [n] bytes holds fewer than [n] records. *)
Fixpoint dump_loop (fuel : nat) (m : mem) (hdr : Z) : list pcap_rec :=
  match fuel with
  | O => []
  | S fuel =>
      let l := ld16 m (hdr + Hdr.pkt_len) in
      let d := ld16 m (hdr + Hdr.data_len) in
      if l =? 0 then []
      else mk_rec l d (read_bytes m (hdr + Hdr.pkt) (Z.to_nat d))
             :: dump_loop fuel m (hdr + Hdr.pkt + d)
  end.

(** The capture's zone is searched by port over the [RTE_MAX_NUMA_NODES] sockets. *)
Fixpoint find_socket (n : nat) (sid : Z) (caps : Z → capture_t) (pid : Z) : option Z :=
  match n with
  | O => None
  | S n =>
      if match mz (caps sid) with Some _ => port (caps sid) =? pid | None => false end
      then Some sid else find_socket n (sid + 1) caps pid
  end.
Definition RTE_MAX_NUMA_NODES := 8%nat.

(** The records are those of the file written, [None] when none is opened. *)
Definition capture_off (v : l2p_view) (caps : Z → capture_t) (m : mem) (i : port_info_t)
    : (Z → capture_t) * port_info_t * option (list pcap_rec) :=
  if negb (pktgen_tst_port_flags i CAPTURE_PKTS) then (caps, i, None)
  else if rxcnt v =? 0 then (caps, i, None)
  else
    match find_socket RTE_MAX_NUMA_NODES 0 caps (Info.pid i) with
    | None => (caps, i, None)
    | Some sid =>
        let cap := caps sid in
        let addr := match mz cap with Some (a, _) => a | None => 0 end in
        let len := match mz cap with Some (_, l) => l | None => 0 end in
        let file := if 0 <? used cap then Some (dump_loop (Z.to_nat len) m addr) else None in
        let cap := cap <| used := 0 |> <| tail := addr |> <| lcore := RTE_MAX_LCORE |>
                       <| port := RTE_MAX_ETHPORTS |> in
        (set_at sid cap caps, pktgen_clr_port_flags i CAPTURE_PKTS, file)
    end.

Definition pktgen_set_capture (v : l2p_view) (socket : Z → Z) (caps : Z → capture_t) (m : mem)
    (i : port_info_t) (onOff : Z) : (Z → capture_t) * mem * port_info_t * option (list pcap_rec) :=
  if onOff =? ENABLE_STATE then (capture_on v socket caps m i, None)
  else
    let '(caps, i, file) := capture_off v caps m i in (caps, m, i, file).

(** ** The records of a zone *)

(** The zone holds the records [rs] between [a] and [t]. *)
Fixpoint chain (m : mem) (a : Z) (rs : list pcap_rec) (t : Z) : Prop :=
  match rs with
  | [] => a = t
  | r :: rs =>
      len r = ld16 m (a + Hdr.pkt_len) ∧ len r ≠ 0 ∧ caplen r = ld16 m (a + Hdr.data_len) ∧
      pkt r = read_bytes m (a + Hdr.pkt) (Z.to_nat (caplen r)) ∧
      chain m (a + Hdr.pkt + caplen r) rs t
  end.

Lemma chain_length m a rs t : chain m a rs t → a + 12 * Z.of_nat (length rs) ≤ t.
Proof.
  revert a. induction rs as [|r rs IH]; intros a Hc; cbn in *; [lia|].
  destruct Hc as (_ & _ & E & _ & Hc). apply IH in Hc. unfold Hdr.pkt in Hc.
  pose proof (load_range 2 m (a + Hdr.data_len)). lia.
Qed.

Lemma chain_ext m m' a rs t :
  (∀ b, a ≤ b < t → ld8 m' b = ld8 m b) → chain m a rs t → chain m' a rs t.
Proof.
  revert a. induction rs as [|r rs IH]; intros a Hb Hc; [done|]. cbn [chain] in *.
  destruct Hc as (E1 & E2 & E3 & E4 & Hc). pose proof (chain_length _ _ _ _ Hc) as Hl.
  pose proof (load_range 2 m (a + Hdr.data_len)). unfold Hdr.pkt, Hdr.pkt_len, Hdr.data_len in *.
  split_and!.
  - rewrite E1. apply load_shift. intros o Ho. symmetry. apply Hb. lia.
  - done.
  - rewrite E3. apply load_shift. intros o Ho. symmetry. apply Hb. lia.
  - rewrite E4. symmetry. apply read_bytes_ext. intros b Hb'. apply Hb. lia.
  - apply IH; [|done]. intros b Hb'. apply Hb. lia.
Qed.

Lemma chain_snoc m a rs t r :
  chain m a rs t → chain m t [r] (t + Hdr.pkt + caplen r) → chain m a (rs ++ [r]) (t + Hdr.pkt + caplen r).
Proof.
  revert a. induction rs as [|r' rs IH]; intros a Hc Hr; [cbn in Hc; by subst|].
  cbn [app chain] in *. destruct Hc as (E1 & E2 & E3 & E4 & Hc). split_and!; [done..|by apply IH].
Qed.

Lemma dump_chain fuel m a rs t :
  chain m a rs t → ld16 m (t + Hdr.pkt_len) = 0 → (length rs < fuel)%nat → dump_loop fuel m a = rs.
Proof.
  revert fuel a. induction rs as [|r rs IH]; intros [|fuel] a Hc Ht Hf; cbn in Hf; [lia| |lia|].
  - cbn in Hc. subst. cbn [dump_loop]. by rewrite Ht.
  - destruct Hc as (E1 & E2 & E3 & E4 & Hc). cbn [dump_loop]. rewrite <-E1, <-E3, <-E4.
    destruct (Z.eqb_spec (len r) 0); [done|]. rewrite (IH fuel) by (done || lia). by destruct r.
Qed.

(** ** Storing packets appends records *)

(** A packet in one segment that lies outside the zone *)
Definition capturable (addr zlen : Z) (p : rte_mbuf) : Prop :=
  0 < Mb.pkt_len p < 65535 ∧ Mb.data_len p = Mb.pkt_len p ∧
  (mtod p + Mb.pkt_len p ≤ addr ∨ addr + zlen ≤ mtod p).

Definition room (p : rte_mbuf) : Z := Z.land (Mb.data_len p + 1) (Z.lnot 1).

Lemma room_even p : 0 ≤ Mb.data_len p →
  room p = 2 * ((Mb.data_len p + 1) / 2) ∧ Mb.data_len p ≤ room p ≤ Mb.data_len p + 1.
Proof.
  intros Hd. assert (room p = 2 * ((Mb.data_len p + 1) / 2)) as E.
  { unfold room. rewrite <-Z.ldiff_land. change 1 with (Z.ones 1) at 2.
    rewrite Z.ldiff_ones_r, Z.shiftl_mul_pow2, Z.shiftr_div_pow2 by lia. change (2 ^ 1) with 2. lia. }
  split; [done|]. rewrite E. pose proof (Z.div_mod (Mb.data_len p + 1) 2).
  pose proof (Z.mod_pos_bound (Mb.data_len p + 1) 2). lia.
Qed.

(** What the file says of a packet: its length, the even room it takes, and its bytes *)
Definition record_of (m : mem) (p : rte_mbuf) (r : pcap_rec) : Prop :=
  len r = Mb.pkt_len p ∧ caplen r = room p ∧
  take (Z.to_nat (Mb.pkt_len p)) (pkt r) = read_bytes m (mtod p) (Z.to_nat (Mb.pkt_len p)).

Record cap_ok (addr zlen : Z) (rs : list pcap_rec) (st : cap_state) : Prop := {
  co_mz : mz (fst st) = Some (addr, zlen);
  co_end : end_ (fst st) = addr + (zlen - sizeof_cap_hdr);
  co_tail : addr ≤ tail (fst st) ≤ end_ (fst st);
  co_chain : chain (snd st) addr rs (tail (fst st)) }.

(** The packets a batch stores: those up to the first one that does not fit *)
Fixpoint stored (t e : Z) (pkts : list (rte_mbuf * Z)) : list rte_mbuf :=
  match pkts with
  | [] => []
  | (p, _) :: pkts =>
      if e <? t + Hdr.pkt + room p then [] else p :: stored (t + Hdr.pkt + room p) e pkts
  end.

Lemma memcpy_in m d s n b : d ≤ b < d + n → ld8 (memcpy m d s n) b = ld8 m (s + (b - d)).
Proof. intros Hb. rewrite ld8_memcpy. range_cases. done. Qed.
Lemma memcpy_out m d s n b : b < d ∨ d + n ≤ b → ld8 (memcpy m d s n) b = ld8 m b.
Proof. intros Hb. rewrite ld8_memcpy. by range_cases. Qed.

Lemma store_packet_spec addr zlen rs p now st :
  cap_ok addr zlen rs st → capturable addr zlen p →
  tail (fst st) + Hdr.pkt + room p ≤ end_ (fst st) →
  let st' := store_packet p now (room p) st in
  ∃ r, record_of (snd st) p r ∧ cap_ok addr zlen (rs ++ [r]) st' ∧
    end_ (fst st') = end_ (fst st) ∧ tail (fst st') = tail (fst st) + Hdr.pkt + room p ∧
    ∀ b, b < tail (fst st) ∨ tail (fst st') ≤ b → ld8 (snd st') b = ld8 (snd st) b.
Proof.
  destruct st as [cap m]. intros [C1 C2 C3 C4] (P1 & P2 & P3) Hfit st'.
  cbn [fst snd] in *. destruct (room_even p ltac:(lia)) as [_ Hroom]. rewrite P2 in Hroom.
  unfold Hdr.pkt, sizeof_cap_hdr in *. set (t := tail cap) in *.
  set (m1 := st64 (st16 (st16 m (t + 8) (Mb.pkt_len p)) (t + 10) (room p)) (t + 0) now).
  assert (∀ b, b < t ∨ t + 12 ≤ b → ld8 m1 b = ld8 m b) as F1.
  { intros b Hb. unfold m1. rewrite !ld8_store_ne by lia. done. }
  assert (snd st' = memcpy m1 (t + 12) (mtod p) (Mb.pkt_len p)) as E by done.
  set (m2 := memcpy m1 (t + 12) (mtod p) (Mb.pkt_len p)) in *.
  assert (∀ b, b < t + 12 ∨ t + 12 + Mb.pkt_len p ≤ b → ld8 m2 b = ld8 m1 b) as F2
    by (intros b Hb; by apply memcpy_out).
  set (r := mk_rec (Mb.pkt_len p) (room p) (read_bytes m2 (t + 12) (Z.to_nat (room p)))).
  assert (chain m2 t [r] (t + 12 + room p)) as Hr.
  { cbn [chain r len caplen pkt]. unfold Hdr.pkt_len, Hdr.data_len, Hdr.pkt. split_and!; try done; [|lia|].
    - rewrite (load_shift 2 m2 m1 _ (t + 8)) by (intros; apply F2; lia). unfold m1. mem_simpl.
      by rewrite wrap_small by (unfold in_word; lia).
    - rewrite (load_shift 2 m2 m1 _ (t + 10)) by (intros; apply F2; lia). unfold m1. mem_simpl.
      by rewrite wrap_small by (unfold in_word; lia). }
  exists r. split_and!.
  - split_and!; try done. cbn [pkt r]. rewrite take_read_bytes by lia. unfold read_bytes.
    apply list_fmap_ext. intros i o Ho. apply lookup_seqZ in Ho. unfold m2.
    rewrite memcpy_in by lia. replace (mtod p + (t + 12 + o - (t + 12))) with (mtod p + o) by lia.
    apply F1. lia.
  - split; cbn [fst snd]; try done.
    + change (tail (fst st')) with (t + 12 + room p). change (end_ (fst st')) with (end_ cap). lia.
    + change (tail (fst st')) with (t + 12 + room p). rewrite E.
      apply (chain_snoc m2 addr rs t r); [|exact Hr]. eapply chain_ext; [|exact C4].
      intros b Hb. rewrite F2, F1 by lia. done.
  - done.
  - done.
  - intros b Hb. change (tail (fst st')) with (t + 12 + room p) in Hb. rewrite E, F2, F1 by lia. done.
Qed.

Definition recorded (addr zlen : Z) (m : mem) (p : rte_mbuf) (r : pcap_rec) : Prop :=
  capturable addr zlen p ∧ record_of m p r.

(** Captured packets stay what they are while only the zone is written. *)
Lemma recorded_ext addr zlen m m' ps rs :
  (∀ b, b < addr ∨ addr + zlen ≤ b → ld8 m' b = ld8 m b) →
  Forall2 (recorded addr zlen m') ps rs → Forall2 (recorded addr zlen m) ps rs.
Proof.
  intros Hb HF. eapply Forall2_impl; [exact HF|]. intros p r [Hp (R1 & R2 & R3)].
  split; [exact Hp|]. destruct Hp as (P1 & P2 & P3). split; [done|]. split; [done|]. rewrite R3.
  apply read_bytes_ext. intros b Hb'. apply Hb. lia.
Qed.

Fixpoint rooms (ps : list rte_mbuf) : Z :=
  match ps with [] => 0 | p :: ps => Hdr.pkt + room p + rooms ps end.

Lemma capture_loop_spec addr zlen rs pkts st :
  cap_ok addr zlen rs st → Forall (λ p, capturable addr zlen (fst p)) pkts →
  let st' := capture_loop pkts st in
  let ps := stored (tail (fst st)) (end_ (fst st)) pkts in
  ∃ new, Forall2 (recorded addr zlen (snd st)) ps new ∧ cap_ok addr zlen (rs ++ new) st' ∧
    end_ (fst st') = end_ (fst st) ∧ tail (fst st') = tail (fst st) + rooms ps ∧
    ∀ b, b < addr ∨ addr + zlen ≤ b → ld8 (snd st') b = ld8 (snd st) b.
Proof.
  revert rs st. induction pkts as [|[p now] pkts IH]; intros rs st Hc HF; cbn [capture_loop stored].
  { exists []. rewrite app_nil_r. cbn. split_and!; (done || lia || constructor). }
  inversion_clear HF as [|?? Hp HF']. cbn [fst] in Hp. fold (room p).
  destruct (Z.ltb_spec (end_ (fst st)) (tail (fst st) + Hdr.pkt + room p)).
  { exists []. rewrite app_nil_r. cbn. split_and!; (done || lia || constructor). }
  destruct (store_packet_spec addr zlen rs p now st Hc Hp ltac:(lia)) as (r & R1 & R2 & R3 & R4 & R5).
  set (st1 := store_packet p now (room p) st) in *.
  destruct (IH _ _ R2 HF') as (new & N1 & N2 & N3 & N4 & N5). rewrite R3, R4 in *.
  assert (∀ b, b < addr ∨ addr + zlen ≤ b → ld8 (snd st1) b = ld8 (snd st) b) as F.
  { intros b Hb. apply R5. destruct Hc as [_ C2 C3 _]. destruct R2 as [_ C2' C3' _].
    rewrite R3, R4 in *. unfold sizeof_cap_hdr in *. lia. }
  exists (r :: new). split_and!.
  - constructor; [by split|]. by eapply recorded_ext.
  - by rewrite <-(app_assoc rs [r]) in N2.
  - done.
  - cbn [rooms]. lia.
  - intros b Hb. rewrite N5, F by done. done.
Qed.

(** A zone between two batches: its data is ended, and counted by [used] *)
Definition cap_done (addr zlen : Z) (rs : list pcap_rec) (st : cap_state) : Prop :=
  cap_ok addr zlen rs st ∧ ld16 (snd st) (tail (fst st) + Hdr.pkt_len) = 0 ∧
  used (fst st) = tail (fst st) - addr.

Lemma capture_bulk_spec addr zlen rs pkts st :
  cap_done addr zlen rs st → Forall (λ p, capturable addr zlen (fst p)) pkts →
  let st' := pktgen_packet_capture_bulk pkts st in
  let ps := stored (tail (fst st)) (end_ (fst st)) pkts in
  ∃ new, Forall2 (recorded addr zlen (snd st)) ps new ∧ cap_done addr zlen (rs ++ new) st' ∧
    end_ (fst st') = end_ (fst st) ∧ tail (fst st') = tail (fst st) + rooms ps ∧
    ∀ b, b < addr ∨ addr + zlen ≤ b → ld8 (snd st') b = ld8 (snd st) b.
Proof.
  intros [Hc [Hs Hu]] HF. unfold pktgen_packet_capture_bulk.
  destruct (capture_loop_spec addr zlen rs pkts st Hc HF) as (new & N1 & N2 & N3 & N4 & N5).
  destruct (Z.eqb_spec (tail (fst st)) (end_ (fst st))) as [E|E].
  - assert (stored (tail (fst st)) (end_ (fst st)) pkts = []) as E0.
    { destruct pkts as [|[p now] pkts]; [done|]. cbn [stored].
      inversion_clear HF as [|?? Hp _]. destruct Hp as (P1 & P2 & _). cbn [fst] in *.
      destruct (room_even p ltac:(lia)) as [_ ?]. unfold Hdr.pkt.
      destruct (Z.ltb_spec (end_ (fst st)) (tail (fst st) + 12 + room p)); [done|lia]. }
    cbn zeta. rewrite E0. exists []. rewrite app_nil_r. cbn [rooms].
    split_and!; (done || lia || constructor).
  - destruct (capture_loop pkts st) as [cap m] eqn:El. cbn [fst snd] in *.
    exists new. destruct N2 as [C1 C2 C3 C4]. cbn [fst snd] in *.
    split_and!; try done.
    + split; [|split]; cbn [fst snd].
      * split; try done. cbn [fst snd]. eapply chain_ext; [|exact C4].
        intros b Hb. rewrite ld8_store_ne; [done|]. unfold Hdr.pkt_len.
        change (tail (cap <| used := _ |>)) with (tail cap) in Hb. lia.
      * change (tail (cap <| used := _ |>)) with (tail cap). by rewrite ld16_st16_eq.
      * rewrite C1. done.
    + intros b Hb. rewrite ld8_store_ne, N5 by (unfold Hdr.pkt_len, sizeof_cap_hdr in *; lia). done.
Qed.

(** ** A whole capture *)

(** The packets of a series of batches that are stored, from the tail [t] on *)
Fixpoint stored_all (t e : Z) (batches : list (list (rte_mbuf * Z))) : list rte_mbuf :=
  match batches with
  | [] => []
  | b :: batches => let ps := stored t e b in ps ++ stored_all (t + rooms ps) e batches
  end.

Definition capture_batches (batches : list (list (rte_mbuf * Z))) (st : cap_state) : cap_state :=
  fold_left (λ st b, pktgen_packet_capture_bulk b st) batches st.

Lemma capture_batches_spec addr zlen rs batches st :
  cap_done addr zlen rs st →
  Forall (Forall (λ p, capturable addr zlen (fst p))) batches →
  let st' := capture_batches batches st in
  ∃ new, Forall2 (recorded addr zlen (snd st)) (stored_all (tail (fst st)) (end_ (fst st)) batches) new ∧
    cap_done addr zlen (rs ++ new) st' ∧
    ∀ b, b < addr ∨ addr + zlen ≤ b → ld8 (snd st') b = ld8 (snd st) b.
Proof.
  revert rs st. induction batches as [|b batches IH]; intros rs st Hc HF; cbn [stored_all].
  { exists []. rewrite app_nil_r. split_and!; (done || constructor). }
  inversion_clear HF as [|?? Hb HF'].
  destruct (capture_bulk_spec addr zlen rs b st Hc Hb) as (n1 & A1 & A2 & A3 & A4 & A5).
  destruct (IH _ _ A2 HF') as (n2 & B1 & B2 & B3). rewrite A3, A4 in B1.
  exists (n1 ++ n2). split_and!.
  - apply Forall2_app; [done|]. by eapply recorded_ext.
  - by rewrite app_assoc.
  - intros x Hx. cbn [capture_batches fold_left]. unfold capture_batches in B3. by rewrite B3, A5.
Qed.

Lemma cap_start_done lid pid addr zlen cap m :
  mz cap = Some (addr, zlen) → sizeof_cap_hdr ≤ zlen →
  cap_done addr zlen [] (cap_start lid pid addr zlen (cap, m)) ∧
  ∀ b, b < addr ∨ addr + zlen ≤ b → ld8 (snd (cap_start lid pid addr zlen (cap, m))) b = ld8 m b.
Proof.
  intros Hz Hl. unfold sizeof_cap_hdr in *. cbn [cap_start]. split.
  - split; [|split].
    + split; unfold sizeof_cap_hdr; cbn; try done; lia.
    + cbn [fst snd]. set (m1 := memset m _ 0 _). set (a := tail _). set (e := end_ _).
      assert (∀ o, 0 ≤ o < 2 → ld8 (memset m1 e 0 16) (a + 8 + o) = 0) as E.
      { intros o Ho. rewrite ld8_memset.
        destruct ((e <=? a + 8 + o) && (a + 8 + o <? e + 16)); [done|].
        unfold m1. rewrite ld8_memset. change (tail _) with a. unfold sizeof_cap_hdr.
        by range_cases. }
      unfold Hdr.pkt_len. rewrite ld16_bytes. pose proof (E 0 ltac:(lia)) as E0.
      pose proof (E 1 ltac:(lia)) as E1. rewrite Z.add_0_r in E0. unfold sizeof_cap_hdr. lia.
    + cbn. lia.
  - intros b Hb. cbn [snd]. unfold sizeof_cap_hdr. rewrite !ld8_memset_ne; [done|..]; cbn; lia.
Qed.

(** The file of a capture, with the chain of its records in the zone *)
Lemma capture_written lid pid addr zlen cap m batches :
  mz cap = Some (addr, zlen) → sizeof_cap_hdr ≤ zlen →
  Forall (Forall (λ p, capturable addr zlen (fst p))) batches →
  let st' := capture_batches batches (cap_start lid pid addr zlen (cap, m)) in
  let file := dump_loop (Z.to_nat zlen) (snd st') addr in
  Forall2 (recorded addr zlen m) (stored_all addr (addr + (zlen - sizeof_cap_hdr)) batches) file ∧
  chain (snd st') addr file (tail (fst st')) ∧ 12 * Z.of_nat (length file) ≤ zlen ∧
  (used (fst st') = 0 ↔ file = []) ∧
  ∀ b, b < addr ∨ addr + zlen ≤ b → ld8 (snd st') b = ld8 m b.
Proof.
  intros Hz Hl HF. cbv zeta. set (st := cap_start lid pid addr zlen (cap, m)).
  destruct (cap_start_done lid pid addr zlen cap m Hz Hl) as [Hd Hm].
  fold st in Hd, Hm. destruct (capture_batches_spec addr zlen [] batches st Hd HF) as (new & N1 & N2 & N3).
  set (st' := capture_batches batches st) in *. cbn [app] in N2. destruct N2 as ([C1 C2 C3 C4] & Hs & Hu).
  pose proof (chain_length _ _ _ _ C4) as Hlen. unfold sizeof_cap_hdr in *.
  assert (dump_loop (Z.to_nat zlen) (snd st') addr = new) as -> by (eapply dump_chain; [exact C4|exact Hs|lia]).
  split_and!.
  - by apply (recorded_ext addr zlen m) in N1.
  - exact C4.
  - lia.
  - rewrite Hu. split.
    + intros E. destruct new; [done|]. cbn [length] in Hlen. lia.
    + intros ->. cbn [chain] in C4. lia.
  - intros b Hb. by rewrite N3, Hm.
Qed.

(** C28. What a capture writes to its file is what it captured: after a capture is
    switched on over a zone and fed with batches of packets in one segment, the
    walk over the zone gives one record per stored packet, in order, with the
    packet's length and its bytes; each batch is stored up to the first packet
    that does not fit; and no byte outside the zone is written, however many
    packets arrive.  The captured length of a packet with an odd length is one
    more than its length. *)
Theorem capture_roundtrip (lid pid addr zlen : Z) (cap : capture_t) (m : mem)
    (batches : list (list (rte_mbuf * Z))) :
  mz cap = Some (addr, zlen) → sizeof_cap_hdr ≤ zlen →
  Forall (Forall (λ p, capturable addr zlen (fst p))) batches →
  let st := cap_start lid pid addr zlen (cap, m) in
  let st' := capture_batches batches st in
  let file := dump_loop (Z.to_nat zlen) (snd st') addr in
  Forall2 (record_of m) (stored_all addr (addr + (zlen - sizeof_cap_hdr)) batches) file ∧
  (used (fst st') = 0 ↔ file = []) ∧
  ∀ b, b < addr ∨ addr + zlen ≤ b → ld8 (snd st') b = ld8 m b.
Proof.
  intros Hz Hl HF st st' file.
  destruct (capture_written lid pid addr zlen cap m batches Hz Hl HF) as (H1 & _ & _ & H2 & H3).
  split_and!; [|exact H2|exact H3]. eapply Forall2_impl; [exact H1|]. by intros p r [].
Qed.

(** Two packets in a zone of 100 bytes; a third one does not fit. *)
Definition demo_zone : capture_t := mk_capture (Some (1000, 100)) 0 0 0 RTE_MAX_LCORE RTE_MAX_ETHPORTS.
Definition demo_pkts : list (list (rte_mbuf * Z)) :=
  [[(Mb.mk 2000 0 20 20 2176 0 0, 7)]; [(Mb.mk 4000 0 25 25 2176 0 0, 8); (Mb.mk 2000 0 20 20 2176 0 0, 9)]].

Lemma capture_roundtrip_witness :
  let st := capture_batches demo_pkts (cap_start 1 0 1000 100 (demo_zone, λ a, a `mod` 256)) in
  (λ r, (len r, caplen r)) <$> dump_loop 100 (snd st) 1000 = [(20, 20); (25, 26)].
Proof.
  intros st.
  assert (Forall (Forall (λ p, capturable 1000 100 (fst p))) demo_pkts) as HF.
  { repeat constructor; vm_compute; congruence. }
  destruct (capture_roundtrip 1 0 1000 100 demo_zone (λ a, a `mod` 256) demo_pkts eq_refl
              ltac:(unfold sizeof_cap_hdr; lia) HF) as (R & _).
  set (file := dump_loop (Z.to_nat 100) _ 1000) in R. change (dump_loop 100 (snd st) 1000) with file.
  clearbody file. change (stored_all 1000 (1000 + (100 - sizeof_cap_hdr)) demo_pkts)
    with [Mb.mk 2000 0 20 20 2176 0 0; Mb.mk 4000 0 25 25 2176 0 0] in R.
  inversion_clear R as [|? r1 ? rs (L1 & K1 & _) R1]. inversion_clear R1 as [|? r2 ? rs' (L2 & K2 & _) R2].
  inversion_clear R2. cbn [fmap list_fmap]. rewrite L1, K1, L2, K2. reflexivity.
Defined.
