(* ===== verification/Burst.v ===== *)
(** * Sending bursts

    The time stamps of the latency and rate modes, [pktgen_send_burst] with its
    loop around the driver, [pktgen_send_mbuf] and [pktgen_tx_flush] of
    [app/pktgen.c].  The loop runs while the driver is slow and the port is
    sending; it is given fuel, and [send_loop_total] says how much is enough. *)
From S2P Require Import Prelude Mem Cksum RandomBits PortInfo Headers Range Commands Mbuf.

(** ** Time stamps *)

(** [tstamp_t]: an 8-byte [timestamp] and the 2-byte [magic] after it *)
Definition TSTAMP_MAGIC := Z.shiftl 84 8 + 115.

Definition RTE_PTR_ALIGN_CEIL (ptr align : Z) : Z :=
  Z.land (u64 (ptr + (align - 1))) (u64 (Z.lnot (align - 1))).

Definition pktgen_tstamp_pointer (i : port_info_t) (m : rte_mbuf) (seq_idx : Z) : Z :=
  let p := mtod m in
  let p := p + sizeof_ether_hdr in
  let p := p + if Pkt.ethType (Info.seq_pkt i seq_idx) =? PG_ETHER_TYPE_IPv4
               then sizeof_ipv4_hdr else sizeof_ipv6_hdr in
  let p := p + if Pkt.ipProto (Info.seq_pkt i seq_idx) =? PG_IPPROTO_UDP
               then sizeof_udp_hdr else sizeof_tcp_hdr in
  RTE_PTR_ALIGN_CEIL p 8.

Section Burst.
Context `{Env}.

(** One packet's stamp; the headers rebuilt are those of the template in [pkt->hdr]. *)
Definition tstamp_one (seq_idx a : Z) (s : dp) : dp :=
  let l3_hdr := sizeof_ether_hdr in
  let tstamp := pktgen_tstamp_pointer (port s) (mbufs s a) seq_idx in
  let s := tick (s <| ram ::= λ m, st64 m tstamp (tsc (now s)) |>) in
  let s := s <| ram ::= λ m, st16 m (tstamp + 8) TSTAMP_MAGIC |> in
  let s := upd_w (upd_pkt seq_idx (λ p, pktgen_udp_hdr_ctor p l3_hdr PG_ETHER_TYPE_IPv4)) s in
  upd_w (λ w,
    let '(p, ident) := pktgen_ipv4_ctor (get_pkt w seq_idx) l3_hdr (Pg.ident (g w)) in
    set_pkt seq_idx p (upd_g (λ x, x <| Pg.ident := ident |>) w)) s.

Fixpoint pktgen_tstamp_apply (pkts : list Z) (seq_idx : Z) (s : dp) : dp :=
  match pkts with
  | [] => s
  | a :: pkts => pktgen_tstamp_apply pkts seq_idx (tstamp_one seq_idx a s)
  end.

(** ** The TAP copy: stops at the first failed [write] *)
Fixpoint pktgen_do_tx_tap (pkts : list Z) (s : dp) : dp :=
  match pkts with
  | [] => s
  | a :: pkts =>
      if tap_write (now s)
      then pktgen_do_tx_tap pkts (tick (s <| tapped ::= λ l, l ++ [frame_of s a] |>))
      else tick s
  end.

(** ** The loop of [pktgen_send_burst] *)

(** What another core may do meanwhile *)
Definition other_cores (s : dp) : dp :=
  let s' := tick s in
  if stopped (now s) then upd_w pktgen_stop_transmitting s' else s'.

Definition rnd_apply (pkts : list Z) (s : dp) : dp :=
  let '(m, x) := pktgen_rnd_bits_apply (rnd_bitfields s) ((λ a, mtod (mbufs s a)) <$> pkts) None
                   (ram s) (xor_state s) in
  s <| ram := m |> <| xor_state := x |>.

(** The driver takes the first packets of the array. *)
Definition rte_eth_tx_burst (pkts : list Z) (s : dp) : nat * dp :=
  let ret := tx_accept (bursts s) (length pkts) in
  (ret, s <| bursts ::= S |> <| sent ::= λ l, l ++ (frame_of s <$> take ret pkts) |>).

Definition send_turn (tap rnd tstamp : bool) (seq_idx : Z) (pkts : list Z) (s : dp)
    : list Z * dp :=
  let s := if rnd then rnd_apply pkts s else s in
  let s := if tstamp then pktgen_tstamp_apply pkts seq_idx s else s in
  let '(ret, s) := rte_eth_tx_burst pkts s in
  let s := if tap then pktgen_do_tx_tap (take ret pkts) s else s in
  (drop ret pkts, s).

Fixpoint send_loop (fuel : nat) (tap rnd tstamp : bool) (seq_idx : Z) (pkts : list Z) (s : dp)
    : option dp :=
  match fuel with
  | O => None
  | S fuel =>
      let s := other_cores s in
      if negb (length pkts =? 0)%nat && tst s SENDING_PACKETS then
        let '(pkts, s) := send_turn tap rnd tstamp seq_idx pkts s in
        send_loop fuel tap rnd tstamp seq_idx pkts s
      else Some s
  end.

(** The packet slot whose headers say where a time stamp goes *)
Definition stamp_idx (flags : Z) : Z :=
  if tst_bits flags SEND_RANGE_PKTS then RANGE_PKT
  else if tst_bits flags SEND_RATE_PACKETS then RATE_PKT
  else SINGLE_PKT.

Definition pktgen_send_burst (fuel : nat) (qid : Z) (s : dp) : option dp :=
  let pkts := queue s qid in
  if (length pkts =? 0)%nat then Some s
  else
    let s := set_queue qid [] s in
    let seq_idx := stamp_idx (Info.port_flags (port s)) in
    let tap := tst s PROCESS_TX_TAP_PKTS in
    let rnd := tst s SEND_RANDOM_PKTS in
    let tstamp := tst s (SEND_LATENCY_PKTS ||| SEND_RATE_PACKETS) in
    send_loop fuel tap rnd tstamp seq_idx pkts s.

(** The driver's own clean-up of sent buffers is its business. *)
Definition pktgen_tx_flush (fuel : nat) (qid : Z) (s : dp) : option dp :=
  s ← pktgen_send_burst fuel qid s;
  Some (upd_port (λ i, pktgen_clr_q_flags i qid DO_TX_FLUSH) s).

(** [m_table] has [DEFAULT_PKT_BURST] entries: storing past them is not defined. *)
Definition pktgen_send_mbuf (fuel : nat) (m qid : Z) (s : dp) : option dp :=
  let l := queue s qid in
  if Z.of_nat (length l) <? DEFAULT_PKT_BURST then
    let s := set_queue qid (l ++ [m]) s in
    if Info.tx_burst (port s) <=? Z.of_nat (length (queue s qid))
    then pktgen_send_burst fuel qid s else Some s
  else None.

(** ** What a burst leaves alone

    The flag words, the header templates, the ident and the random state may
    change, and nothing else of the port and the mbufs. *)

Definition frozen (i : port_info_t) : port_info_t :=
  i <| Info.port_flags := 0 |> <| Info.q := λ _, Q.zero |> <| Info.seq_pkt := λ _, Pkt.zero |>.
Definition q_frozen (q : q_info) : q_info := q <| Q.flags := 0 |>.
Definition pkt_frozen (p : pkt_seq_t) : pkt_seq_t := p <| Pkt.hdr := λ _, 0 |>.

Record port_rel (i i' : port_info_t) : Prop := {
  pr_port : frozen i' = frozen i;
  pr_q : ∀ k, q_frozen (Info.q i' k) = q_frozen (Info.q i k);
  pr_pkt : ∀ k, pkt_frozen (Info.seq_pkt i' k) = pkt_frozen (Info.seq_pkt i k) }.

Record burst_rel (s s' : dp) : Prop := {
  br_mbufs : mbufs s' = mbufs s;
  br_rnd : rnd_bitfields s' = rnd_bitfields s;
  br_freed : freed s' = freed s;
  br_statics : range_statics s' = range_statics s;
  br_port : port_rel (port s) (port s') }.

#[global] Instance port_rel_refl : Reflexive port_rel.
Proof. intros i. by split. Qed.
#[global] Instance port_rel_trans : Transitive port_rel.
Proof. intros i1 i2 i3 [A1 A2 A3] [B1 B2 B3]. split; [|intros k..]; etrans; eauto. Qed.
#[global] Instance burst_rel_refl : Reflexive burst_rel.
Proof. intros s. by split. Qed.
#[global] Instance burst_rel_trans : Transitive burst_rel.
Proof. intros s1 s2 s3 [A1 A2 A3 A4 A5] [B1 B2 B3 B4 B5]. split; etrans; eauto. Qed.

Lemma br_queue s s' qid : burst_rel s s' → queue s' qid = queue s qid.
Proof. intros [_ _ _ _ [_ Hq _]]. exact (f_equal Q.m_table (Hq qid)). Qed.

Lemma set_q_flags_upto_rel n k f i :
  port_rel i (set_q_flags_upto n k f i) ∧
  Info.port_flags (set_q_flags_upto n k f i) = Info.port_flags i.
Proof.
  revert k i. induction n as [|n IH]; intros k i; [by split|]. cbn [set_q_flags_upto].
  destruct (IH (k + 1) (pktgen_set_q_flags i k f)) as [H1 H2].
  split; [|by rewrite H2]. etrans; [|exact H1]. split; [done| |done].
  intros j. unfold pktgen_set_q_flags, upd_q.
  change (q_frozen (set_at k (Info.q i k <| Q.flags ::= λ v, set_bits v f |>) (Info.q i) j) =
          q_frozen (Info.q i j)).
  destruct (decide (j = k)) as [->|Hne]; [by rewrite set_at_eq|by rewrite set_at_ne].
Qed.

Lemma stop_rel w : port_rel (info w) (info (pktgen_stop_transmitting w)).
Proof.
  unfold pktgen_stop_transmitting. destruct (tst_flags w SENDING_PACKETS); [|done].
  unfold all_q_flags. set (w1 := clr_flags _ w). set (n := Z.to_nat _).
  etrans; [|exact (proj1 (set_q_flags_upto_rel n 0 DO_TX_FLUSH (info w1)))]. by split.
Qed.

Lemma tick_rel s : burst_rel s (tick s).
Proof. by split. Qed.

Lemma other_cores_rel s : burst_rel s (other_cores s).
Proof.
  unfold other_cores. destruct (stopped (now s)); [|apply tick_rel].
  split; try reflexivity. apply stop_rel.
Qed.

Lemma other_cores_sent s : sent (other_cores s) = sent s ∧ bursts (other_cores s) = bursts s ∧
  ram (other_cores s) = ram s.
Proof. unfold other_cores. by destruct (stopped (now s)). Qed.

Lemma upd_pkt_rel idx f w :
  (∀ p, pkt_frozen (f p) = pkt_frozen p) → port_rel (info w) (info (upd_pkt idx f w)).
Proof.
  intros Hf. split; [done|done|]. intros k.
  change (pkt_frozen (set_at idx (f (get_pkt w idx)) (Info.seq_pkt (info w)) k) =
          pkt_frozen (Info.seq_pkt (info w) k)).
  destruct (decide (k = idx)) as [->|Hne]; [by rewrite set_at_eq, Hf|by rewrite set_at_ne].
Qed.

Lemma tstamp_one_rel idx a s :
  burst_rel s (tstamp_one idx a s) ∧ Info.port_flags (port (tstamp_one idx a s)) = Info.port_flags (port s) ∧
  sent (tstamp_one idx a s) = sent s ∧ bursts (tstamp_one idx a s) = bursts s ∧
  ram (tstamp_one idx a s) =
    let p := pktgen_tstamp_pointer (port s) (mbufs s a) idx in
    st16 (st64 (ram s) p (tsc (now s))) (p + 8) TSTAMP_MAGIC.
Proof.
  split_and!; [|reflexivity..]. split; try reflexivity.
  set (w1 := upd_pkt idx (λ p, pktgen_udp_hdr_ctor p sizeof_ether_hdr PG_ETHER_TYPE_IPv4) (w s)).
  transitivity (info w1).
  - apply upd_pkt_rel. intros p. unfold pktgen_udp_hdr_ctor. by case_match.
  - exact (upd_pkt_rel idx (λ p, fst (pktgen_ipv4_ctor p sizeof_ether_hdr (Pg.ident (g w1)))) w1
             (λ p, eq_refl)).
Qed.

Lemma tstamp_apply_rel idx l s :
  burst_rel s (pktgen_tstamp_apply l idx s) ∧
  Info.port_flags (port (pktgen_tstamp_apply l idx s)) = Info.port_flags (port s) ∧
  sent (pktgen_tstamp_apply l idx s) = sent s ∧ bursts (pktgen_tstamp_apply l idx s) = bursts s.
Proof.
  revert s. induction l as [|a l IH]; intros s; [done|]. cbn [pktgen_tstamp_apply].
  destruct (tstamp_one_rel idx a s) as (H1 & H2 & H3 & H4 & _).
  destruct (IH (tstamp_one idx a s)) as (I1 & I2 & I3 & I4).
  split_and!; [by etrans|congruence..].
Qed.

Lemma do_tx_tap_rel l s :
  burst_rel s (pktgen_do_tx_tap l s) ∧
  Info.port_flags (port (pktgen_do_tx_tap l s)) = Info.port_flags (port s) ∧
  sent (pktgen_do_tx_tap l s) = sent s ∧ bursts (pktgen_do_tx_tap l s) = bursts s ∧
  ram (pktgen_do_tx_tap l s) = ram s.
Proof.
  revert s. induction l as [|a l IH]; intros s; [done|]. cbn [pktgen_do_tx_tap].
  destruct (tap_write (now s)); [|done].
  destruct (IH (tick (s <| tapped ::= λ l, l ++ [frame_of s a] |>))) as ([H1 H2 H3 H4 H5] & I2 & I3 & I4 & I5).
  by split.
Qed.

Lemma rnd_apply_rel l s :
  burst_rel s (rnd_apply l s) ∧ Info.port_flags (port (rnd_apply l s)) = Info.port_flags (port s) ∧
  sent (rnd_apply l s) = sent s ∧ bursts (rnd_apply l s) = bursts s.
Proof. unfold rnd_apply. case_match. done. Qed.

(** One turn: [before] is the state when the packets are offered. *)
Lemma send_turn_rel tap rnd ts idx l s l' s' :
  send_turn tap rnd ts idx l s = (l', s') →
  ∃ before,
    before = (let s := if rnd then rnd_apply l s else s in
              if ts then pktgen_tstamp_apply l idx s else s) ∧
    burst_rel s before ∧ burst_rel s s' ∧
    Info.port_flags (port s') = Info.port_flags (port s) ∧
    l' = drop (tx_accept (bursts s) (length l)) l ∧ bursts s' = S (bursts s) ∧
    sent s' = sent s ++ (frame_of before <$> take (tx_accept (bursts s) (length l)) l) ∧
    ram s' = ram before.
Proof.
  unfold send_turn. intros E. eexists. split; [reflexivity|].
  set (s1 := if rnd then rnd_apply l s else s) in *.
  assert (burst_rel s s1 ∧ Info.port_flags (port s1) = Info.port_flags (port s) ∧
          sent s1 = sent s ∧ bursts s1 = bursts s) as (A1 & A2 & A3 & A4).
  { unfold s1. destruct rnd; [apply rnd_apply_rel|done]. }
  cbn zeta in *. set (s2 := if ts then pktgen_tstamp_apply l idx s1 else s1) in *.
  assert (burst_rel s1 s2 ∧ Info.port_flags (port s2) = Info.port_flags (port s1) ∧
          sent s2 = sent s1 ∧ bursts s2 = bursts s1) as (B1 & B2 & B3 & B4).
  { unfold s2. destruct ts; [apply tstamp_apply_rel|done]. }
  unfold rte_eth_tx_burst in E. set (k := tx_accept (bursts s2) (length l)) in *.
  assert (tx_accept (bursts s) (length l) = k) as -> by (unfold k; congruence).
  set (s3 := s2 <| bursts ::= S |> <| sent ::= λ l0, l0 ++ (frame_of s2 <$> take k l) |>) in *.
  assert (burst_rel s2 s3) as C1 by by split.
  set (s4 := if tap then pktgen_do_tx_tap (take k l) s3 else s3) in *.
  assert (burst_rel s3 s4 ∧ Info.port_flags (port s4) = Info.port_flags (port s3) ∧
          sent s4 = sent s3 ∧ bursts s4 = bursts s3 ∧ ram s4 = ram s3) as (D1 & D2 & D3 & D4 & D5).
  { unfold s4. destruct tap; [apply do_tx_tap_rel|done]. }
  injection E as <- <-. split_and!; [by etrans|by do 3 (etrans; [eassumption|])| |done| | |exact D5].
  - rewrite D2. change (Info.port_flags (port s3)) with (Info.port_flags (port s2)). congruence.
  - rewrite D4. change (bursts s3) with (S (bursts s2)). congruence.
  - rewrite D3. change (sent s3) with (sent s2 ++ (frame_of s2 <$> take k l)). congruence.
Qed.

(** ** The loop *)

Lemma sending_other_cores s :
  tst s SENDING_PACKETS = false → tst (other_cores s) SENDING_PACKETS = false.
Proof.
  intros E. unfold other_cores. destruct (stopped (now s)); [|exact E].
  change (tst_flags (pktgen_stop_transmitting (w s)) SENDING_PACKETS = false).
  unfold pktgen_stop_transmitting. change (tst_flags (w s) SENDING_PACKETS = false) in E.
  by rewrite E.
Qed.

Lemma unstopped_flags s :
  stopped (now s) = false → Info.port_flags (port (other_cores s)) = Info.port_flags (port s).
Proof. unfold other_cores. by intros ->. Qed.

Lemma tst_flags_eq s s' f :
  Info.port_flags (port s') = Info.port_flags (port s) → tst s' f = tst s f.
Proof. intros E. unfold tst, tst_flags, pktgen_tst_port_flags. unfold port in E. by rewrite E. Qed.

(** The packets go out in the order of the array, each once, with the lengths and
    offload flags of their mbufs; what is left over was left by a stop. *)
Lemma send_loop_sent fuel tap rnd ts idx l s s' :
  send_loop fuel tap rnd ts idx l s = Some s' →
  burst_rel s s' ∧
  (∃ k fs, sent s' = sent s ++ fs ∧ f_mbuf <$> fs = take k l ∧ (k ≤ length l)%nat ∧
     Forall (λ f, f_len f = Mb.pkt_len (mbufs s (f_mbuf f)) ∧
                  f_ol_flags f = Mb.ol_flags (mbufs s (f_mbuf f))) fs ∧
     ((k < length l)%nat → tst s' SENDING_PACKETS = false) ∧
     (tst s SENDING_PACKETS = false → k = 0%nat)) ∧
  ((∀ n, stopped n = false) → Info.port_flags (port s') = Info.port_flags (port s)).
Proof.
  revert l s. induction fuel as [|fuel IH]; intros l s E; [done|]. cbn [send_loop] in E.
  pose proof (other_cores_rel s) as Ho. pose proof (other_cores_sent s) as (Hos & Hob & _).
  pose proof (sending_other_cores s) as Hstop. pose proof (unstopped_flags s) as Hun.
  set (s1 := other_cores s) in *.
  destruct (negb (length l =? 0)%nat && tst s1 SENDING_PACKETS) eqn:Ec.
  - apply andb_prop in Ec as [Hl Ht]. destruct (Nat.eqb_spec (length l) 0) as [|Hl0]; [done|].
    destruct (send_turn tap rnd ts idx l s1) as [l' s2] eqn:Et.
    apply send_turn_rel in Et as (b & _ & Hb & Hr & Hf & -> & Hbu & Hsent & _).
    set (ret := tx_accept (bursts s1) (length l)) in *.
    assert (ret ≤ length l)%nat as Hret by apply tx_accept_le.
    destruct (IH _ _ E) as (Hr' & (k & fs & E1 & E2 & E3 & E4 & E5 & E6) & E7).
    assert (burst_rel s s2) as Hs2 by by etrans. split; [by etrans|]. split.
    + exists (ret + k)%nat, ((frame_of b <$> take ret l) ++ fs). split_and!.
      * rewrite E1, Hsent, Hos. by rewrite app_assoc.
      * rewrite fmap_app, E2, <-list_fmap_compose.
        rewrite (list_fmap_ext (f_mbuf ∘ frame_of b) id) by done.
        by rewrite list_fmap_id, take_take_drop.
      * rewrite length_drop in E3. lia.
      * apply Forall_app. split.
        -- apply Forall_fmap, Forall_forall. intros a _. cbn.
           rewrite (br_mbufs _ _ Hb), (br_mbufs _ _ Ho). done.
        -- eapply Forall_impl; [exact E4|]. cbn. by rewrite (br_mbufs _ _ Hs2).
      * intros Hk. apply E5. rewrite length_drop. lia.
      * intros Hs. by rewrite (Hstop Hs) in Ht.
    + intros Hn. rewrite E7, Hf by done. by apply Hun.
  - injection E as <-. split; [done|]. split; [|by intros Hn; apply Hun].
    exists 0%nat, []. rewrite app_nil_r. split_and!; [done|done|lia|by constructor| |done].
    intros Hk. apply andb_false_iff in Ec as [Ec|Ec]; [|done].
    destruct (Nat.eqb_spec (length l) 0); [lia|done].
Qed.

(** A driver that takes something at least every [D] offers *)
Definition serves (D : nat) : Prop :=
  ∀ k, ∃ j, (k ≤ j < k + D)%nat ∧ ∀ n, (0 < n)%nat → (0 < tx_accept j n)%nat.

Lemma send_loop_fuel D fuel d tap rnd ts idx l s :
  serves D →
  (∃ j, (bursts s ≤ j < bursts s + d)%nat ∧ ∀ n, (0 < n)%nat → (0 < tx_accept j n)%nat) →
  (length l * D + d < fuel + D)%nat → (d ≤ D)%nat → (0 < fuel)%nat →
  ∃ s', send_loop fuel tap rnd ts idx l s = Some s'.
Proof.
  intros HD. revert d l s. induction fuel as [|fuel IH]; intros d l s (j & Hj & Hacc) Hf Hd H0; [lia|].
  cbn [send_loop]. pose proof (other_cores_sent s) as (_ & Hob & _). set (s1 := other_cores s) in *.
  destruct (Nat.eqb_spec (length l) 0) as [|Hl0]; [by eexists|].
  destruct (tst s1 SENDING_PACKETS); [|by eexists]. cbn [negb andb].
  destruct (send_turn tap rnd ts idx l s1) as [l' s2] eqn:Et.
  apply send_turn_rel in Et as (b & _ & _ & _ & _ & -> & Hbu & _).
  rewrite Hob in Hbu. rewrite Hob. set (ret := tx_accept (bursts s) (length l)) in *.
  assert (0 < fuel)%nat as Hf0 by (destruct (length l); lia).
  destruct (decide (ret = 0)%nat) as [E0|Hne].
  - apply (IH (d - 1)%nat); [|rewrite length_drop, E0; lia|lia|done].
    exists j. split; [|done]. rewrite Hbu.
    assert (j ≠ bursts s) by (intros ->; specialize (Hacc (length l)); lia). lia.
  - destruct (HD (bursts s2)) as (j' & Hj' & Hacc').
    apply (IH D); [by exists j'| |done..]. rewrite length_drop.
    assert ((length l - ret) * D + D ≤ length l * D)%nat; [|lia].
    destruct (length l) as [|n]; [lia|]. destruct ret as [|r]; [lia|]. nia.
Qed.

(** [send_loop] ends: [D] turns for each packet and one more are enough. *)
Lemma send_loop_total D fuel tap rnd ts idx l s :
  serves D → (length l * D < fuel)%nat → ∃ s', send_loop fuel tap rnd ts idx l s = Some s'.
Proof. intros HD Hf. apply (send_loop_fuel D fuel D); [done|apply HD|lia|done|lia]. Qed.

(** ** What the stamps do to the memory *)

Definition stamp_at (s : dp) (idx a : Z) : Z := pktgen_tstamp_pointer (port s) (mbufs s a) idx.

(** Buffers of [2048] bytes, apart from each other and within the address space *)
Definition buffers_ok (s : dp) (l : list Z) : Prop :=
  ∀ a, a ∈ l → 0 ≤ mtod (mbufs s a) ∧ mtod (mbufs s a) + 2048 < 2 ^ 64 ∧
  ∀ b, b ∈ l → a ≠ b → mtod (mbufs s a) + 2048 ≤ mtod (mbufs s b) ∨
                       mtod (mbufs s b) + 2048 ≤ mtod (mbufs s a).

Lemma align8 p : 0 ≤ p → p + 7 < 2 ^ 64 → RTE_PTR_ALIGN_CEIL p 8 = 8 * ((p + 7) / 8).
Proof.
  intros Hv Hb. unfold RTE_PTR_ALIGN_CEIL. change (8 - 1) with 7.
  rewrite (wrap_small 64 (p + 7)) by (unfold in_word; lia).
  unfold wrap. rewrite <-(Z.land_ones (Z.lnot 7)) by lia.
  rewrite (Z.land_comm (Z.lnot 7)), Z.land_assoc, Z.land_ones by lia.
  rewrite Z.mod_small by lia. change 7 with (Z.ones 3) at 2.
  rewrite <-Z.ldiff_land, Z.ldiff_ones_r, Z.shiftl_mul_pow2, Z.shiftr_div_pow2 by lia.
  change (2 ^ 3) with 8. lia.
Qed.

(** Where the stamp goes, from the start of the packet: past the headers, rounded up. *)
Definition hdrs_len (i : port_info_t) (idx : Z) : Z :=
  sizeof_ether_hdr +
  (if Pkt.ethType (Info.seq_pkt i idx) =? PG_ETHER_TYPE_IPv4 then sizeof_ipv4_hdr
   else sizeof_ipv6_hdr) +
  (if Pkt.ipProto (Info.seq_pkt i idx) =? PG_IPPROTO_UDP then sizeof_udp_hdr else sizeof_tcp_hdr).

Lemma hdrs_len_range i idx : 42 ≤ hdrs_len i idx ≤ 74.
Proof. unfold hdrs_len. by repeat case_match. Qed.

Lemma tstamp_pointer_eq i m idx :
  0 ≤ mtod m → mtod m + 2048 < 2 ^ 64 →
  pktgen_tstamp_pointer i m idx = 8 * ((mtod m + hdrs_len i idx + 7) / 8).
Proof.
  intros H0 H1. pose proof (hdrs_len_range i idx).
  rewrite <-align8 by lia. unfold hdrs_len, pktgen_tstamp_pointer. f_equal. lia.
Qed.

Lemma tstamp_pointer_range i m idx :
  0 ≤ mtod m → mtod m + 2048 < 2 ^ 64 →
  mtod m + hdrs_len i idx ≤ pktgen_tstamp_pointer i m idx ≤ mtod m + hdrs_len i idx + 7.
Proof.
  intros H0 H1. rewrite tstamp_pointer_eq by done.
  pose proof (Z.div_mod (mtod m + hdrs_len i idx + 7) 8).
  pose proof (Z.mod_pos_bound (mtod m + hdrs_len i idx + 7) 8). lia.
Qed.

Lemma stamp_at_rel s s' idx a : burst_rel s s' → stamp_at s' idx a = stamp_at s idx a.
Proof.
  intros [Hm _ _ _ [_ _ Hp]]. unfold stamp_at, pktgen_tstamp_pointer. rewrite Hm.
  specialize (Hp idx). apply (f_equal (λ p, (Pkt.ethType p, Pkt.ipProto p))) in Hp.
  injection Hp as -> ->. done.
Qed.

Lemma buffers_ok_rel s s' l : burst_rel s s' → buffers_ok s l → buffers_ok s' l.
Proof. intros Hr Hb a Ha. rewrite (br_mbufs _ _ Hr). by apply Hb. Qed.

Lemma buffers_ok_sub s l l' : (∀ a, a ∈ l' → a ∈ l) → buffers_ok s l → buffers_ok s l'.
Proof.
  intros Hl Hb a Ha. destruct (Hb a (Hl a Ha)) as (H0 & H1 & H2). split_and!; [done..|].
  intros b Hb'. by apply H2, Hl.
Qed.

(** Byte [x] belongs to the stamp of some packet of [l]. *)
Definition in_stamps (s : dp) (idx : Z) (l : list Z) (x : Z) : Prop :=
  ∃ a, a ∈ l ∧ stamp_at s idx a ≤ x < stamp_at s idx a + 10.

(** The stamp at [p] holds the clock's reading number [k]. *)
Definition stamped (k : nat) (m : mem) (p : Z) : Prop :=
  ld64 m p = u64 (tsc k) ∧ ld16 m (p + 8) = TSTAMP_MAGIC.

Lemma stamped_ext k m m' p p' :
  (∀ o, 0 ≤ o < 10 → ld8 m' (p' + o) = ld8 m (p + o)) → stamped k m p → stamped k m' p'.
Proof.
  intros He [Hk Hm]. split; [rewrite <-Hk|rewrite <-Hm]; apply load_shift;
    intros o Ho; [|rewrite <-!Z.add_assoc]; apply He; lia.
Qed.

Lemma tstamp_one_ram idx a s x :
  (x < stamp_at s idx a ∨ stamp_at s idx a + 10 ≤ x) →
  ld8 (ram (tstamp_one idx a s)) x = ld8 (ram s) x.
Proof.
  intros Hx. destruct (tstamp_one_rel idx a s) as (_ & _ & _ & _ & ->). cbn zeta.
  fold (stamp_at s idx a). rewrite !ld8_store_ne by lia. done.
Qed.

Lemma tstamp_one_stamped idx a s : stamped (now s) (ram (tstamp_one idx a s)) (stamp_at s idx a).
Proof.
  destruct (tstamp_one_rel idx a s) as (_ & _ & _ & _ & ->). cbn zeta.
  fold (stamp_at s idx a). set (p := stamp_at s idx a). split.
  - rewrite load_store_ne by lia. by rewrite ld64_st64_eq.
  - by rewrite ld16_st16_eq.
Qed.

Lemma stamps_apart s idx l a b :
  buffers_ok s l → a ∈ l → b ∈ l → a ≠ b →
  stamp_at s idx a + 10 ≤ stamp_at s idx b ∨ stamp_at s idx b + 10 ≤ stamp_at s idx a.
Proof.
  intros Hb Ha Hbl Hne. destruct (Hb a Ha) as (A0 & A1 & A2). destruct (Hb b Hbl) as (B0 & B1 & _).
  pose proof (tstamp_pointer_range (port s) _ idx A0 A1) as R1.
  pose proof (tstamp_pointer_range (port s) _ idx B0 B1) as R2.
  fold (stamp_at s idx a) in R1. fold (stamp_at s idx b) in R2.
  pose proof (hdrs_len_range (port s) idx). destruct (A2 b Hbl Hne); lia.
Qed.

(** All packets of the burst are stamped, each with the clock at its turn, and
    nothing else is written. *)
Lemma tstamp_apply_ram idx l s :
  buffers_ok s l →
  (∀ x, ¬ in_stamps s idx l x → ld8 (ram (pktgen_tstamp_apply l idx s)) x = ld8 (ram s) x) ∧
  (NoDup l → ∀ i a, l !! i = Some a →
     stamped (now s + i) (ram (pktgen_tstamp_apply l idx s)) (stamp_at s idx a)).
Proof.
  revert s. induction l as [|a l IH]; intros s Hb; [done|].
  cbn [pktgen_tstamp_apply]. destruct (tstamp_one_rel idx a s) as (Hr & _).
  pose proof (tstamp_one_ram idx a s) as Hram. pose proof (tstamp_one_stamped idx a s) as Hst.
  assert (now (tstamp_one idx a s) = S (now s)) as Hnow by done.
  set (s1 := tstamp_one idx a s) in *.
  assert (buffers_ok s1 l) as Hb1.
  { eapply buffers_ok_rel; [done|]. eapply buffers_ok_sub; [|done]. intros; by right. }
  destruct (IH s1 Hb1) as [I1 I2].
  assert (∀ x, in_stamps s1 idx l x → in_stamps s idx l x) as Hin.
  { intros x (b & Hbl & Hx). exists b. by rewrite (stamp_at_rel s s1) in Hx by done. }
  assert (∀ x, ¬ in_stamps s idx l x → ld8 (ram (pktgen_tstamp_apply l idx s1)) x = ld8 (ram s1) x) as I1'.
  { intros x Hx. apply I1. by intros ?%Hin. }
  split.
  - intros x Hx. rewrite I1', Hram; [done| |].
    + destruct (decide (stamp_at s idx a ≤ x < stamp_at s idx a + 10)); [|lia].
      destruct Hx. exists a. split; [by left|done].
    + intros (b & Hbl & Hx'). destruct Hx. exists b. split; [by right|done].
  - intros [Ha Hnd]%NoDup_cons [|i] b Hi; cbn in Hi.
    + injection Hi as <-. rewrite Nat.add_0_r. eapply stamped_ext; [|exact Hst]. intros o Ho. apply I1'.
      intros (c & Hc & Hx). assert (a ≠ c) by congruence.
      destruct (stamps_apart s idx (a :: l) a c Hb); [by left|by right|done|lia..].
    + rewrite <-(stamp_at_rel s s1) by done.
      replace (now s + S i)%nat with (now s1 + i)%nat by lia. by apply I2.
Qed.

(** ** The clock at the last offer

    The writes to the TAP device of [n] packets, the clock at [t] *)
Fixpoint tap_writes (n t : nat) : nat :=
  match n with
  | O => 0
  | S n => if tap_write t then S (tap_writes n (S t)) else 1
  end.

(** Which of the clock's readings each packet that goes out is stamped with: of
    [n] packets left at time [t], with [b] offers made before, those the driver
    takes are stamped in this turn, one after the other, after the look at the
    flags; all that it leaves are stamped anew in the next turn. *)
Fixpoint offer_clocks (fuel : nat) (tap : bool) (n t b : nat) : list nat :=
  match fuel with
  | O => []
  | S fuel =>
      if (n =? 0)%nat then []
      else
        let ret := tx_accept b n in
        let t' := (S t + n)%nat in
        seq (S t) ret ++
        offer_clocks fuel tap (n - ret) (t' + if tap then tap_writes ret t' else 0) (S b)
  end.

Lemma tstamp_apply_now idx l s : now (pktgen_tstamp_apply l idx s) = (now s + length l)%nat.
Proof.
  revert s. induction l as [|a l IH]; intros s; cbn; [lia|]. rewrite IH.
  change (now (tstamp_one idx a s)) with (S (now s)). lia.
Qed.

Lemma do_tx_tap_now l s : now (pktgen_do_tx_tap l s) = (now s + tap_writes (length l) (now s))%nat.
Proof.
  revert s. induction l as [|a l IH]; intros s; cbn; [lia|].
  destruct (tap_write (now s)); [|cbn; lia]. rewrite IH. cbn. lia.
Qed.

Lemma send_turn_now tap idx l s :
  let ret := tx_accept (bursts s) (length l) in let t' := (now s + length l)%nat in
  now (snd (send_turn tap false true idx l s)) = (t' + if tap then tap_writes ret t' else 0)%nat.
Proof.
  unfold send_turn, rte_eth_tx_burst. cbn zeta.
  destruct (tstamp_apply_rel idx l s) as (_ & _ & _ & ->).
  pose proof (tx_accept_le (bursts s) (length l)) as Hle.
  pose proof (tstamp_apply_now idx l s) as Hn. revert Hn.
  generalize (pktgen_tstamp_apply l idx s) as s1. intros s1 Hn. cbn [snd].
  destruct tap; [|cbn; lia]. rewrite do_tx_tap_now, length_take, Nat.min_l by done. cbn. by rewrite Hn.
Qed.

(** What a frame of the loop holds, without random bits, if it was stamped with
    the clock's reading number [k] *)
Definition frame_ok (s : dp) (idx : Z) (l : list Z) (f : frame) (k : nat) : Prop :=
  f_mbuf f ∈ l ∧
  (∀ o, ¬ in_stamps s idx l (mtod (mbufs s (f_mbuf f)) + o) →
        f_byte f o = ld8 (ram s) (mtod (mbufs s (f_mbuf f)) + o)) ∧
  stamped k (f_byte f) (stamp_at s idx (f_mbuf f) - mtod (mbufs s (f_mbuf f))).

Lemma take_offer_clocks {ret : nat} {A} (fs fs' : list A) (t : nat) rest :
  length fs = ret →
  take (length (fs ++ fs')) (seq t ret ++ rest) = seq t ret ++ take (length fs') rest.
Proof.
  intros <-. rewrite length_app, take_app, length_seq, take_ge by (rewrite length_seq; lia).
  by replace (length fs + length fs' - length fs)%nat with (length fs') by lia.
Qed.

Lemma send_loop_frames fuel tap idx L l s0 s s' :
  buffers_ok s0 L → (∀ a, a ∈ l → a ∈ L) → NoDup l → burst_rel s0 s →
  (∀ x, ¬ in_stamps s0 idx L x → ld8 (ram s) x = ld8 (ram s0) x) →
  send_loop fuel tap false true idx l s = Some s' →
  ∃ fs, sent s' = sent s ++ fs ∧
    Forall2 (frame_ok s0 idx L) fs
      (take (length fs) (offer_clocks fuel tap (length l) (now s) (bursts s))).
Proof.
  intros Hbuf. revert l s. induction fuel as [|fuel IH]; intros l s Hl Hnd Hr Hram E; [done|].
  cbn [send_loop] in E. pose proof (other_cores_rel s) as Ho.
  pose proof (other_cores_sent s) as (Hos & Hob & Hor).
  assert (now (other_cores s) = S (now s)) as Hon by (unfold other_cores; by destruct (stopped (now s))).
  set (s1 := other_cores s) in *. assert (burst_rel s0 s1) as Hr1 by by etrans.
  destruct (Nat.eqb_spec (length l) 0) as [Hl0|Hl0]; cbn [negb andb] in E;
    [|destruct (tst s1 SENDING_PACKETS)];
    [injection E as <-; exists []; rewrite app_nil_r; split; [done|constructor]|
    |injection E as <-; exists []; rewrite app_nil_r; split; [done|constructor]].
  pose proof (send_turn_now tap idx l s1) as Hnow. cbn zeta in Hnow.
  destruct (send_turn tap false true idx l s1) as [l' s2] eqn:Et. cbn [snd] in Hnow.
  apply send_turn_rel in Et as (b & Eb & Hrb & Hr2 & _ & -> & Hbu & Hsent & Hram2).
  cbn zeta in Eb. set (ret := tx_accept (bursts s1) (length l)) in *.
  assert (ret ≤ length l)%nat as Hret by apply tx_accept_le.
  assert (buffers_ok s1 l) as Hb1
    by (eapply buffers_ok_rel; [done|]; eapply buffers_ok_sub; [exact Hl|done]).
  destruct (tstamp_apply_ram idx l s1 Hb1) as [T1 T2]. specialize (T2 Hnd). rewrite <-Eb in T1, T2.
  assert (∀ a, a ∈ drop ret l → a ∈ L) as Hdrop.
  { intros a Ha. apply Hl. rewrite <-(take_drop ret l). apply elem_of_app. by right. }
  assert (NoDup (drop ret l)) as Hndd
    by (rewrite <-(take_drop ret l) in Hnd; by apply NoDup_app in Hnd as (_ & _ & ?)).
  assert (∀ x, ¬ in_stamps s0 idx L x → ld8 (ram b) x = ld8 (ram s0) x) as Hramb.
  { intros x Hx. rewrite <-Hram, <-Hor by done. apply T1. intros (a & Ha & Hx'). apply Hx.
    exists a. split; [by apply Hl|]. by rewrite (stamp_at_rel s0 s1) in Hx'. }
  destruct (IH _ _ Hdrop Hndd (transitivity Hr1 Hr2)
              (λ x Hx, eq_trans (f_equal (λ m, ld8 m x) Hram2) (Hramb x Hx)) E)
    as (fs & E1 & E2).
  exists ((frame_of b <$> take ret l) ++ fs). split; [by rewrite E1, Hsent, Hos, app_assoc|].
  cbn [offer_clocks]. destruct (Nat.eqb_spec (length l) 0) as [|_]; [done|]. cbn zeta.
  rewrite <-Hob, <-Hon. fold ret. rewrite <-Hnow, <-length_drop.
  replace (S (bursts s1)) with (bursts s2) by done.
  rewrite (take_offer_clocks (ret := ret)) by (rewrite length_fmap, length_take; lia).
  apply Forall2_app; [|exact E2]. apply Forall2_fmap_l, Forall2_same_length_lookup_2.
  { rewrite length_take, length_seq. lia. }
  intros i a k Ha%lookup_take_Some Hk%lookup_seq. destruct Ha as [Ha _], Hk as [-> _].
  change (frame_ok s0 idx L (frame_of b a) (now s1 + i)). unfold frame_ok, frame_of. cbn zeta.
  cbn [f_mbuf f_byte]. rewrite (br_mbufs _ _ Hrb), (br_mbufs _ _ Hr1). split_and!.
  - apply Hl. by eapply list_elem_of_lookup_2.
  - intros o Hx. by apply Hramb.
  - specialize (T2 i a Ha). rewrite (stamp_at_rel s0 s1) in T2 by done.
    eapply stamped_ext; [|exact T2]. intros o _. cbn. unfold ld8 at 1.
    rewrite wrap_small by apply ld8_range. f_equal. lia.
Qed.

(** ** The burst as a whole *)

Lemma queue_set_eq qid l s : queue (set_queue qid l s) qid = l.
Proof.
  unfold queue, set_queue, upd_port, upd_q, port.
  change (Q.m_table (set_at qid (Info.q (info (w s)) qid <| Q.m_table := l |>)
                       (Info.q (info (w s))) qid) = l). by rewrite set_at_eq.
Qed.

Lemma queue_set_ne qid qid' l s : qid' ≠ qid → queue (set_queue qid l s) qid' = queue s qid'.
Proof.
  intros Hne. unfold queue, set_queue, upd_port, upd_q, port.
  change (Q.m_table (set_at qid (Info.q (info (w s)) qid <| Q.m_table := l |>)
                       (Info.q (info (w s))) qid') = Q.m_table (Info.q (info (w s)) qid')).
  by rewrite set_at_ne.
Qed.

Lemma tst_set_queue qid l s f : tst (set_queue qid l s) f = tst s f.
Proof. done. Qed.

(** Empty queues need no turn of the loop. *)
Lemma send_burst_unfold fuel qid s :
  (0 < fuel)%nat →
  ∃ idx tap rnd ts,
    idx = stamp_idx (Info.port_flags (port s)) ∧ tap = tst s PROCESS_TX_TAP_PKTS ∧
    rnd = tst s SEND_RANDOM_PKTS ∧ ts = tst s (SEND_LATENCY_PKTS ||| SEND_RATE_PACKETS) ∧
    (queue s qid = [] → pktgen_send_burst fuel qid s = Some s) ∧
    (queue s qid ≠ [] → pktgen_send_burst fuel qid s =
       send_loop fuel tap rnd ts idx (queue s qid) (set_queue qid [] s)).
Proof.
  intros Hf. eexists _, _, _, _. do 4 (split; [reflexivity|]). unfold pktgen_send_burst.
  split; [by intros ->|]. intros Hq. destruct (Nat.eqb_spec (length (queue s qid)) 0) as [E|]; [|done].
  by destruct (queue s qid).
Qed.

Lemma set_queue_nil_rel qid s : queue s qid = [] → burst_rel (set_queue qid [] s) s.
Proof.
  intros E. split; try reflexivity. split; [done| |done]. intros k.
  change (q_frozen (Info.q (port s) k) =
          q_frozen (set_at qid (Info.q (port s) qid <| Q.m_table := [] |>) (Info.q (port s)) k)).
  destruct (decide (k = qid)) as [->|Hne]; [|by rewrite set_at_ne]. rewrite set_at_eq.
  unfold queue in E. revert E. generalize (Info.q (port s) qid). intros [] E.
  cbn in E. by rewrite E.
Qed.

Lemma send_burst_spec D fuel qid s :
  serves D → (length (queue s qid) * D < fuel)%nat →
  ∃ s' k fs, pktgen_send_burst fuel qid s = Some s' ∧
    burst_rel (set_queue qid [] s) s' ∧ queue s' qid = [] ∧
    sent s' = sent s ++ fs ∧ f_mbuf <$> fs = take k (queue s qid) ∧ (k ≤ length (queue s qid))%nat ∧
    Forall (λ f, f_len f = Mb.pkt_len (mbufs s (f_mbuf f)) ∧
                 f_ol_flags f = Mb.ol_flags (mbufs s (f_mbuf f))) fs ∧
    ((k < length (queue s qid))%nat → tst s' SENDING_PACKETS = false) ∧
    (tst s SENDING_PACKETS = false → k = 0%nat) ∧
    ((∀ n, stopped n = false) → Info.port_flags (port s') = Info.port_flags (port s)).
Proof.
  intros HD Hf. destruct (send_burst_unfold fuel qid s ltac:(lia)) as
    (idx & tap & rnd & ts & _ & _ & _ & _ & Hnil & Hcons).
  destruct (decide (queue s qid = [])) as [E|E].
  - exists s, 0%nat, []. rewrite app_nil_r, E.
    split_and!; [by apply Hnil| |done|done|done|done|by constructor|cbn; lia|done|done].
    by apply set_queue_nil_rel.
  - rewrite Hcons by done. destruct (send_loop_total D fuel tap rnd ts idx (queue s qid)
      (set_queue qid [] s) HD Hf) as [s' Es].
    destruct (send_loop_sent _ _ _ _ _ _ _ _ Es) as (Hr & (k & fs & E1 & E2 & E3 & E4 & E5 & E6) & E7).
    exists s', k, fs. split_and!; try done. rewrite (br_queue _ _ qid Hr). apply queue_set_eq.
Qed.

(** C7. With a driver that takes something at least every [D] offers, sending a
    burst ends and empties the queue: the packets go out in queue order, each
    once and with its mbuf's length and offload flags.  Packets are left out
    only when the port is stopped meanwhile, and then they are neither sent
    nor kept; on a port that is not sending none goes out at all. *)
Theorem send_burst_delivers (D fuel : nat) (qid : Z) (s : dp) :
  serves D → (length (queue s qid) * D < fuel)%nat →
  ∃ s' k fs, pktgen_send_burst fuel qid s = Some s' ∧ queue s' qid = [] ∧
    sent s' = sent s ++ fs ∧ f_mbuf <$> fs = take k (queue s qid) ∧
    Forall (λ f, f_len f = Mb.pkt_len (mbufs s (f_mbuf f)) ∧
                 f_ol_flags f = Mb.ol_flags (mbufs s (f_mbuf f))) fs ∧
    freed s' = freed s ∧
    ((k < length (queue s qid))%nat → tst s' SENDING_PACKETS = false) ∧
    (tst s SENDING_PACKETS = false → fs = []).
Proof.
  intros HD Hf. destruct (send_burst_spec D fuel qid s HD Hf)
    as (s' & k & fs & E1 & Hr & E2 & E3 & E4 & _ & E5 & E6 & E7 & _).
  exists s', k, fs. split_and!; try done; [exact (br_freed _ _ Hr)|].
  intros Hs. rewrite (E7 Hs) in E4. by destruct fs.
Qed.

End Burst.

(** ** A concrete environment: a driver that takes at most two packets at a time *)
#[global] Program Instance demo_env : Env := {|
  tx_accept := λ k n, Nat.min n (if Nat.even k then 1 else 2);
  stopped := λ _, false;
  tsc := λ k, 1000 + 10 * Z.of_nat k;
  mempool_get_bulk := λ _ mp n, if (n <=? 64)%nat then Some (seqZ (100 * mp) (Z.of_nat n)) else None;
  mempool_get := λ k mp, Some (100 * mp + 50 + Z.of_nat k);
  mempool_objs := λ mp, seqZ (100 * mp) 8;
  tap_write := λ _, true;
  rx_txque := 0;
  zmalloc := λ k, 65536 * (1 + Z.of_nat k) |}.
Next Obligation. cbn. intros k n. lia. Qed.
Next Obligation.
  cbn. intros k mp n l E. destruct (n <=? 64)%nat; [|done]. injection E as <-.
  rewrite length_seqZ. lia.
Qed.

Lemma demo_env_serves : serves 1.
Proof. intros k. exists k. split; [lia|]. intros n Hn. cbn. destruct (Nat.even k); lia. Defined.

(** A port that is sending single packets, mbuf [a] at address [4096 * a] *)
Definition demo_port : port_info_t :=
  Info.zero <| Info.tx_burst := 4 |> <| Info.seq_pkt := λ _, sample_pkt |>
    <| Info.port_flags := SENDING_PACKETS |>
    <| Info.q := λ _, Q.zero <| Q.tx_mp := 1 |> <| Q.rate_mp := 2 |> <| Q.range_mp := 3 |>
                       <| Q.seq_mp := 4 |> <| Q.special_mp := 5 |> <| Q.pcap_mp := 6 |> |>.
Definition demo_pktgen : pktgen_t :=
  Pg.mk 0 0 0 1 0 1 1 0 1000 (λ _, 1) Eth.zero 0 0.
Definition demo_dp : dp :=
  mk_dp (mk_world demo_pktgen demo_port) (λ a, Mb.mk (4096 * a) 128 60 60 2176 0 0)
        (λ _, 0) rnd_bits_zero 1 statics_init 0 0 [] [] [] (λ _, 0).

(** Three packets queued *)
Definition demo_queued : dp := set_queue 0 [7; 8; 9] demo_dp.

Lemma send_burst_delivers_witness :
  ∃ s' fs, pktgen_send_burst 4 0 demo_queued = Some s' ∧ queue s' 0 = [] ∧
    sent s' = sent demo_queued ++ fs ∧ ∃ k, f_mbuf <$> fs = take k [7; 8; 9].
Proof.
  assert (length (queue demo_queued 0) * 1 < 4)%nat as Hf
    by (unfold demo_queued; rewrite queue_set_eq; cbn; lia).
  destruct (send_burst_delivers 1 4 0 demo_queued demo_env_serves Hf)
    as (s' & k & fs & H1 & H2 & H3 & H4 & _).
  exists s', fs. split; [exact H1|]. split; [exact H2|]. split; [exact H3|]. exists k. exact H4.
Defined.

(** All of them go out, in two offers. *)
Example demo_burst :
  (λ s, (f_mbuf <$> sent s, bursts s)) <$> pktgen_send_burst 4 0 demo_queued = Some ([7; 8; 9], 2%nat).
Proof. vm_compute. reflexivity. Qed.
