(* ===== verification/Special.v ===== *)
(** * ARP and ping packets

    [pktgen_send_arp] and [pktgen_process_arp] of [app/pktgen-arp.c],
    [pktgen_send_ping4] and [pktgen_process_ping4] of [app/pktgen-ipv4.c],
    [pktgen_process_vlan] of [app/pktgen-vlan.c], the searches for a packet slot
    by its address and [pktgen_send_special] of [app/pktgen.c].  Log messages
    and the clearing of the display are left out; [pktgen_process_ping6] has an
    empty body. *)
From S2P Require Import Prelude Mem Cksum RandomBits Inet PortInfo Headers Range Commands Mbuf Burst.

(** ** Slots by address *)

Fixpoint first_slot (n : nat) (k : Z) (p : pkt_seq_t → bool) (i : port_info_t) : option Z :=
  match n with
  | O => None
  | S n => if p (Info.seq_pkt i k) then Some k else first_slot n (k + 1) p i
  end.

Definition pktgen_find_matching_ipsrc (i : port_info_t) (addr : Z) : option Z :=
  let addr := ntohl addr in
  let hit p := addr =? Pkt.ip_src_addr p in
  match first_slot (Z.to_nat (Info.seqCnt i)) 0 hit i with
  | Some k => Some k
  | None => if hit (Info.seq_pkt i SINGLE_PKT) then Some SINGLE_PKT else None
  end.

Definition pktgen_find_matching_ipdst (i : port_info_t) (addr : Z) : option Z :=
  let addr := ntohl addr in
  let hit p := addr =? Pkt.ip_dst_addr p in
  match first_slot (Z.to_nat (Info.seqCnt i)) 0 hit i with
  | Some k => Some k
  | None =>
      if hit (Info.seq_pkt i SINGLE_PKT) then Some SINGLE_PKT
      else if hit (Info.seq_pkt i RANGE_PKT) then Some RANGE_PKT else None
  end.

(** ** ARP *)

Definition ETH_HW_TYPE := 1.
Definition ARP_REQUEST := 1.
Definition ARP_REPLY := 2.
Definition sizeof_arp_hdr := 28.

(** Offsets in [struct pg_arp_hdr] *)
Module Arp.
Definition hrd := 0.
Definition pro := 2.
Definition hln := 4.
Definition pln := 5.
Definition op := 6.
Definition sha := 8.
Definition sip := 14.
Definition tha := 18.
Definition tip := 24.
End Arp.

Section Special.
Context `{Env}.

(** The packet [pktgen_send_arp] writes at [eth]. *)
Definition arp_request (p : pkt_seq_t) (type eth : Z) (m : mem) : mem :=
  let arp := eth + sizeof_ether_hdr in
  let m := memset m eth 0xFF 6 in
  let m := inet_h64tom m (Pkt.eth_src_addr p) (eth + 6) in
  let m := st16 m (eth + 12) (htons PG_ETHER_TYPE_ARP) in
  let m := memset m arp 0 sizeof_arp_hdr in
  let m := inet_h64tom m (Pkt.eth_src_addr p) (arp + Arp.sha) in
  let m := st32 m (arp + Arp.sip) (htonl (Pkt.ip_src_addr p)) in
  let m :=
    if type =? GRATUITOUS_ARP then
      let m := inet_h64tom m (Pkt.eth_src_addr p) (arp + Arp.tha) in
      st32 m (arp + Arp.tip) (htonl (Pkt.ip_src_addr p))
    else
      let m := memset m (arp + Arp.tha) 0 6 in
      st32 m (arp + Arp.tip) (htonl (Pkt.ip_dst_addr p)) in
  let m := st16 m (arp + Arp.hrd) (htons ETH_HW_TYPE) in
  let m := st16 m (arp + Arp.pro) (htons PG_ETHER_TYPE_IPv4) in
  let m := store 1 m (arp + Arp.hln) 6 in
  let m := store 1 m (arp + Arp.pln) 4 in
  st16 m (arp + Arp.op) (htons ARP_REQUEST).

Definition set_lens (m len : Z) (s : dp) : dp :=
  upd_mbuf m (λ x, x <| Mb.pkt_len := len |> <| Mb.data_len := len |>) s.

Definition pktgen_send_arp (fuel : nat) (type seq_idx : Z) (s : dp) : option dp :=
  let qid := 0 in
  match rte_pktmbuf_alloc (Q.special_mp (Info.q (port s) qid)) s with
  | (None, s) => Some s
  | (Some m, s) =>
      let s := upd_ram (arp_request (slot s seq_idx) type (mtod (mbufs s m))) s in
      let s := set_lens m 60 s in
      s ← pktgen_send_mbuf fuel m qid s;
      Some (set_q_flags qid DO_TX_FLUSH s)
  end.

(** Turning a request into the reply, in place *)
Definition arp_to_reply (p : pkt_seq_t) (eth arp : Z) (m : mem) : mem :=
  let m := ethAddrSwap m (arp + Arp.sha) (arp + Arp.tha) in
  let m := inetAddrSwap m (arp + Arp.tip) (arp + Arp.sip) in
  let m := st16 m (arp + Arp.op) (htons ARP_REPLY) in
  let m := ethAddrSwap m eth (eth + 6) in
  let m := inet_h64tom m (Pkt.eth_src_addr p) (arp + Arp.sha) in
  inet_h64tom m (Pkt.eth_src_addr p) (eth + 6).

(** [rte_memcpy(&pkt->eth_dst_addr, &arp->arp_data.arp_sha, 6)] *)
Definition learn_mac (k arp : Z) (s : dp) : dp :=
  let mac := inet_mtoh64 (ram s) (arp + Arp.sha) in
  upd_w (upd_pkt k (λ p, p <| Pkt.eth_dst_addr := mac |>)) s.

Fixpoint ctor_slots (n : nat) (i : Z) (w : world) : world :=
  match n with
  | O => w
  | S n => ctor_slots n (i + 1) (pktgen_packet_ctor w i (-1))
  end.

Definition arp_of (eth vlan : Z) : Z :=
  eth + sizeof_ether_hdr + (if vlan =? 0 then 0 else sizeof_vlan_hdr).

Definition pktgen_process_arp (fuel : nat) (m vlan : Z) (s : dp) : option dp :=
  let eth := mtod (mbufs s m) in
  let arp := arp_of eth vlan in
  let arp_op := ld16 (ram s) (arp + Arp.op) in
  let arp_tip := ld32 (ram s) (arp + Arp.tip) in
  let arp_sip := ld32 (ram s) (arp + Arp.sip) in
  if arp_op =? htons ARP_REQUEST then
    if tst s PROCESS_GARP_PKTS && (arp_tip =? arp_sip) then
      match pktgen_find_matching_ipdst (port s) arp_sip with
      | Some k => Some (set_q_flags rx_txque DO_TX_FLUSH (learn_mac k arp s))
      | None => Some s
      end
    else
      match pktgen_find_matching_ipsrc (port s) arp_tip with
      | Some k =>
          let s :=
            if tst_bits (Pg.flags (g (w s))) MAC_FROM_ARP_FLAG then
              let s := learn_mac k arp s in
              upd_w (ctor_slots (Z.to_nat (Info.seqCnt (port s))) 0) s
            else s in
          let s := upd_ram (arp_to_reply (slot s k) eth arp) s in
          s ← pktgen_send_mbuf fuel m 0 s;
          Some (set_q_flags 0 DO_TX_FLUSH s)
      | None => Some s
      end
  else if arp_op =? htons ARP_REPLY then
    match pktgen_find_matching_ipsrc (port s) arp_tip with
    | Some k =>
        let s := if Pkt.ip_dst_addr (slot s k) =? ntohl arp_sip then learn_mac k arp s else s in
        Some (upd_w (g_set_flags PRINT_LABELS_FLAG) s)
    | None => Some s
    end
  else Some s.

(** ** Ping *)

(** [rte_memcpy] of [n] bytes of a packet template to [dst] *)
Definition copy_hdr (hdr : mem) (dst n : Z) (m : mem) : mem :=
  λ b, if (dst <=? b) && (b <? dst + n) then ld8 hdr (b - dst) else m b.

Definition pktgen_send_ping4 (fuel : nat) (seq_idx : Z) (s : dp) : option dp :=
  let qid := 0 in
  match rte_pktmbuf_alloc (Q.special_mp (Info.q (port s) qid)) s with
  | (None, s) => Some s
  | (Some m, s) =>
      let s := upd_w (set_pkt PING_PKT (slot s seq_idx)) s in
      let s := upd_w (λ w, pktgen_packet_ctor w PING_PKT ICMP4_ECHO) s in
      let ppkt := slot s PING_PKT in
      let s := upd_ram (copy_hdr (Pkt.hdr ppkt) (mtod (mbufs s m)) (Pkt.pktSize ppkt)) s in
      let s := set_lens m (Pkt.pktSize ppkt) s in
      s ← pktgen_send_mbuf fuel m qid s;
      Some (set_q_flags qid DO_TX_FLUSH s)
  end.

Definition INADDR_BROADCAST := 0xffffffff.

Definition bump_echo (s : dp) : dp :=
  upd_stats (λ x, x <| Stats.echo_pkts ::= λ n, u64 (n + 1) |>) s.

(** Turning the request at [ip] into the reply, in place *)
Definition ping_to_reply (eth ip data_len : Z) (m : mem) : mem :=
  let icmp := ip + sizeof_ipv4_hdr in
  let len := data_len - sizeof_ether_hdr - sizeof_ipv4_hdr in
  let m := store 1 m icmp ICMP4_ECHO_REPLY in
  let m := st16 m (icmp + 2) 0 in
  let m := st16 m (icmp + 2) (rte_raw_cksum m icmp len) in
  let m := inetAddrSwap m (ip + 12) (ip + 16) in
  let m := st16 m (ip + 4) (htons (u16 (ntohs (ld16 m (ip + 4)) + data_len))) in
  let m := st16 m (ip + 10) 0 in
  let m := st16 m (ip + 10) (rte_raw_cksum m ip sizeof_ipv4_hdr) in
  ethAddrSwap m eth (eth + 6).

(** A packet shorter than the headers makes the checksum length wrap around and
    the sum run out of the buffer: not defined. *)
Definition pktgen_process_ping4 (fuel : nat) (m vlan : Z) (s : dp) : option dp :=
  let eth := mtod (mbufs s m) in
  let ip := arp_of eth vlan in
  let icmp := ip + sizeof_ipv4_hdr in
  let data_len := Mb.data_len (mbufs s m) in
  if tst s ICMP_ECHO_ENABLE_FLAG && (ld8 (ram s) (ip + 9) =? PG_IPPROTO_ICMP) then
    if data_len <? sizeof_ether_hdr + sizeof_ipv4_hdr then None
    else if negb (rte_raw_cksum (ram s) icmp (data_len - sizeof_ether_hdr - sizeof_ipv4_hdr) =? 0)
    then Some s
    else if ld8 (ram s) icmp =? ICMP4_ECHO then
      if ntohl (ld32 (ram s) (ip + 16)) =? INADDR_BROADCAST then Some s
      else
        match pktgen_find_matching_ipsrc (port s) (ld32 (ram s) (ip + 16)) with
        | None => Some s
        | Some _ =>
            let s := bump_echo s in
            let s := upd_ram (ping_to_reply eth ip data_len) s in
            s ← pktgen_send_mbuf fuel m 0 s;
            Some (set_q_flags 0 DO_TX_FLUSH s)
        end
    else if ld8 (ram s) icmp =? ICMP4_ECHO_REPLY then Some (bump_echo s)
    else Some s
  else Some s.

Definition pktgen_process_ping6 (m vlan : Z) (s : dp) : dp := s.

(** ** VLAN *)

Definition pktgen_process_vlan (fuel : nat) (m : Z) (s : dp) : option dp :=
  let eth := mtod (mbufs s m) in
  let pType := ntohs (ld16 (ram s) (eth + sizeof_ether_hdr + 2)) in
  if pType =? PG_ETHER_TYPE_ARP then
    pktgen_process_arp fuel m 1 (upd_stats (λ x, x <| Stats.arp_pkts ::= λ n, u64 (n + 1) |>) s)
  else if pType =? PG_ETHER_TYPE_IPv4 then
    pktgen_process_ping4 fuel m 1 (upd_stats (λ x, x <| Stats.ip_pkts ::= λ n, u64 (n + 1) |>) s)
  else if pType =? PG_ETHER_TYPE_IPv6 then
    Some (pktgen_process_ping6 m 1 (upd_stats (λ x, x <| Stats.ipv6_pkts ::= λ n, u64 (n + 1) |>) s))
  else Some s.

(** ** Requests *)

(** The three requests of one slot, as [flags] asks *)
Definition special_slot (fuel : nat) (flags seq_idx : Z) (s : dp) : option dp :=
  s ← (if tst_bits flags SEND_GRATUITOUS_ARP then pktgen_send_arp fuel GRATUITOUS_ARP seq_idx s else Some s);
  s ← (if tst_bits flags SEND_ARP_REQUEST then pktgen_send_arp fuel 0 seq_idx s else Some s);
  if tst_bits flags SEND_PING4_REQUEST then pktgen_send_ping4 fuel seq_idx s else Some s.

Fixpoint special_slots (fuel n : nat) (k flags : Z) (s : dp) : option dp :=
  match n with
  | O => Some s
  | S n => s ← special_slot fuel flags k s; special_slots fuel n (k + 1) flags s
  end.

Definition pktgen_send_special (fuel : nat) (flags : Z) (s : dp) : option dp :=
  s ← special_slots fuel (Z.to_nat (Info.seqCnt (port s))) 0 flags s;
  s ← special_slot fuel flags SINGLE_PKT s;
  Some (upd_w (clr_flags SEND_ARP_PING_REQUESTS) s).

End Special.

(** ** ARP messages as values *)

(** What a frame at [eth] with its ARP header at [arp] says: the Ethernet
    addresses, the operation, and the two pairs of addresses. *)
Record arp_msg := mk_msg {
  a_dst : Z; a_src : Z; a_op : Z; a_sha : Z; a_sip : Z; a_tha : Z; a_tip : Z }.
Definition arp_view (m : mem) (eth arp : Z) : arp_msg :=
  mk_msg (inet_mtoh64 m eth) (inet_mtoh64 m (eth + 6)) (ntohs (ld16 m (arp + Arp.op)))
    (inet_mtoh64 m (arp + Arp.sha)) (ntohl (ld32 m (arp + Arp.sip)))
    (inet_mtoh64 m (arp + Arp.tha)) (ntohl (ld32 m (arp + Arp.tip))).

Lemma mtoh64_store_ne n m a v b :
  b + 6 ≤ a ∨ a + Z.of_nat n ≤ b → inet_mtoh64 (store n m a v) b = inet_mtoh64 m b.
Proof. intros Hd. apply mtoh64_ext. intros c Hc. apply ld8_store_ne. lia. Qed.

Lemma mtoh64_h64tom_ne m v a b :
  b + 6 ≤ a ∨ a + 6 ≤ b → inet_mtoh64 (inet_h64tom m v a) b = inet_mtoh64 m b.
Proof. intros Hd. apply mtoh64_ext. intros c Hc. apply h64tom_frame. lia. Qed.

Lemma mtoh64_memset_ne m a v n b :
  b + 6 ≤ a ∨ a + n ≤ b → inet_mtoh64 (memset m a v n) b = inet_mtoh64 m b.
Proof. intros Hd. apply mtoh64_ext. intros c Hc. apply ld8_memset_ne. lia. Qed.

Lemma mtoh64_memset m a v : inet_mtoh64 (memset m a v 6) a = u8 v * 0x010101010101.
Proof.
  rewrite mtoh64_value. unfold mac_value. rewrite !ld8_memset. range_cases. lia.
Qed.

Lemma load_h64tom_ne k m v a b :
  b + Z.of_nat k ≤ a ∨ a + 6 ≤ b → load k (inet_h64tom m v a) b = load k m b.
Proof. intros Hd. apply load_shift. intros o Ho. apply h64tom_frame. lia. Qed.

(** One field of a message read after one write, decided by arithmetic. *)
Ltac msg_step :=
  first
  [ rewrite mtoh64_h64tom by (assumption || lia)
  | rewrite mtoh64_store_ne by lia
  | rewrite mtoh64_h64tom_ne by lia
  | rewrite mtoh64_memset_ne by lia
  | rewrite mtoh64_memset
  | rewrite load_h64tom_ne by lia
  | rewrite load_memset_ne by lia
  | mem_step ].
Ltac msg_simpl := repeat msg_step.

Lemma arp_request_view p type eth m :
  in_word 48 (Pkt.eth_src_addr p) → in_word 32 (Pkt.ip_src_addr p) →
  in_word 32 (Pkt.ip_dst_addr p) →
  arp_view (arp_request p type eth m) eth (eth + sizeof_ether_hdr) =
  let garp := type =? GRATUITOUS_ARP in
  mk_msg 0xffffffffffff (Pkt.eth_src_addr p) ARP_REQUEST (Pkt.eth_src_addr p) (Pkt.ip_src_addr p)
    (if garp then Pkt.eth_src_addr p else 0)
    (if garp then Pkt.ip_src_addr p else Pkt.ip_dst_addr p).
Proof.
  intros Hs Hi Hd. unfold in_word in Hs. unfold arp_view, arp_request. cbn zeta.
  unfold sizeof_ether_hdr, sizeof_arp_hdr, Arp.op, Arp.sha, Arp.sip, Arp.tha, Arp.tip,
    Arp.hrd, Arp.pro, Arp.hln, Arp.pln.
  destruct (type =? GRATUITOUS_ARP); f_equal; msg_simpl;
    rewrite ?ld16_htons_val, ?ld32_htonl_val, ?(wrap_small 32) by done; reflexivity.
Qed.

Lemma mtoh64_ethswap m t f b :
  t + 6 ≤ f ∨ f + 6 ≤ t →
  inet_mtoh64 (ethAddrSwap m t f) b =
  if decide (b = t) then inet_mtoh64 m f else if decide (b = f) then inet_mtoh64 m t
  else inet_mtoh64 (ethAddrSwap m t f) b.
Proof.
  intros Hd. destruct (decide (b = t)) as [->|]; [|destruct (decide (b = f)) as [->|]; [|done]];
    rewrite !mtoh64_value; unfold mac_value; rewrite !ethAddrSwap_spec by lia; range_cases;
    repeat (f_equal; try lia).
Qed.

Lemma ethswap_frame m t f b :
  t + 6 ≤ f ∨ f + 6 ≤ t → (b < t ∨ t + 6 ≤ b) → (b < f ∨ f + 6 ≤ b) →
  ld8 (ethAddrSwap m t f) b = ld8 m b.
Proof. intros. rewrite ethAddrSwap_spec by lia. by range_cases. Qed.

Lemma arp_to_reply_view p eth arp m :
  eth + 14 ≤ arp → in_word 48 (Pkt.eth_src_addr p) →
  arp_view (arp_to_reply p eth arp m) eth arp =
  let v := arp_view m eth arp in
  mk_msg (a_src v) (Pkt.eth_src_addr p) ARP_REPLY (Pkt.eth_src_addr p) (a_tip v) (a_sha v) (a_sip v).
Proof.
  intros Ha Hs. unfold in_word in Hs. unfold arp_view, arp_to_reply. cbn zeta.
  unfold Arp.op, Arp.sha, Arp.sip, Arp.tha, Arp.tip.
  set (m1 := ethAddrSwap m (arp + 8) (arp + 18)).
  set (m2 := inetAddrSwap m1 (arp + 24) (arp + 14)).
  assert (∀ b, b + 1 ≤ arp + 14 ∨ arp + 18 ≤ b < arp + 24 ∨ arp + 28 ≤ b → ld8 m2 b = ld8 m1 b) as F2.
  { intros b Hb. unfold m2. rewrite inetAddrSwap_spec by lia. by range_cases. }
  assert (∀ b, b + 1 ≤ arp + 8 ∨ arp + 14 ≤ b < arp + 18 ∨ arp + 24 ≤ b → ld8 m1 b = ld8 m b) as F1.
  { intros b Hb. apply ethswap_frame; lia. }
  set (m3 := st16 m2 (arp + 6) (htons ARP_REPLY)).
  assert (∀ b, b + 1 ≤ arp + 6 ∨ arp + 8 ≤ b → ld8 m3 b = ld8 m2 b) as F3.
  { intros b Hb. apply ld8_store_ne. lia. }
  set (m4 := ethAddrSwap m3 eth (eth + 6)).
  assert (∀ b, eth + 12 ≤ b → ld8 m4 b = ld8 m3 b) as F4.
  { intros b Hb. apply ethswap_frame; lia. }
  cbn [a_src a_tip a_sha a_sip]. f_equal.
  - rewrite !mtoh64_h64tom_ne by lia. unfold m4. rewrite mtoh64_ethswap, decide_True by lia.
    apply mtoh64_ext. intros b Hb. rewrite F3, F2, F1 by lia. done.
  - by rewrite mtoh64_h64tom by lia.
  - rewrite !load_h64tom_ne by lia. rewrite (load_shift 2 m4 m3 _ (arp + 6)) by (intros; apply F4; lia).
    unfold m3. rewrite ld16_st16_eq. reflexivity.
  - rewrite mtoh64_h64tom_ne, mtoh64_h64tom by lia. done.
  - f_equal. rewrite !load_h64tom_ne by lia. apply load_shift. intros o Ho. rewrite F4, F3 by lia.
    unfold m2. rewrite inetAddrSwap_spec by lia. range_cases. rewrite F1 by lia. f_equal; lia.
  - rewrite !mtoh64_h64tom_ne by lia. transitivity (inet_mtoh64 m1 (arp + 18)).
    + apply mtoh64_ext. intros b Hb. by rewrite F4, F3, F2 by lia.
    + unfold m1. rewrite mtoh64_ethswap by lia. rewrite decide_False by lia. by rewrite decide_True.
  - f_equal. rewrite !load_h64tom_ne by lia. apply load_shift. intros o Ho. rewrite F4, F3 by lia.
    unfold m2. rewrite inetAddrSwap_spec by lia. range_cases. rewrite F1 by lia. f_equal; lia.
Qed.

Lemma op_raw m eth arp : ld16 m (arp + Arp.op) = htons (a_op (arp_view m eth arp)).
Proof.
  cbn [a_op arp_view]. rewrite bswap16_involutive, wrap_small; [done|]. apply (load_range 2).
Qed.

Lemma ip_raw m eth arp :
  ld32 m (arp + Arp.sip) = htonl (a_sip (arp_view m eth arp)) ∧
  ld32 m (arp + Arp.tip) = htonl (a_tip (arp_view m eth arp)).
Proof.
  cbn [a_sip a_tip arp_view]. rewrite !bswap32_involutive, !wrap_small; [done|..];
    apply (load_range 4).
Qed.

Section Exchange.
Context `{Env}.

Lemma slot_learn k arp s j :
  slot (learn_mac k arp s) j =
  if decide (j = k) then slot s k <| Pkt.eth_dst_addr := inet_mtoh64 (ram s) (arp + Arp.sha) |>
  else slot s j.
Proof.
  unfold learn_mac. set (v := inet_mtoh64 _ _).
  change (slot (upd_w (upd_pkt k (λ p, p <| Pkt.eth_dst_addr := v |>)) s) j) with
    (set_at k (slot s k <| Pkt.eth_dst_addr := v |>) (Info.seq_pkt (port s)) j).
  case_decide as E; [by rewrite E, set_at_eq|by rewrite set_at_ne].
Qed.

Lemma ctor_slots_fixed n i w j : fixed (get_pkt (ctor_slots n i w) j) = fixed (get_pkt w j).
Proof.
  revert i w. induction n as [|n IH]; intros i w; [done|]. cbn [ctor_slots].
  rewrite IH. apply packet_ctor_slot.
Qed.

(** The request branch: the reply is made in the request's own buffer and queued. *)
Lemma process_arp_request fuel m vlan s k :
  let eth := mtod (mbufs s m) in
  let v := arp_view (ram s) eth (arp_of eth vlan) in
  a_op v = ARP_REQUEST → tst s PROCESS_GARP_PKTS = false ∨ a_tip v ≠ a_sip v →
  pktgen_find_matching_ipsrc (port s) (htonl (a_tip v)) = Some k →
  in_word 48 (Pkt.eth_src_addr (slot s k)) →
  ∃ s1, pktgen_process_arp fuel m vlan s =
          (s2 ← pktgen_send_mbuf fuel m 0 s1; Some (set_q_flags 0 DO_TX_FLUSH s2)) ∧
    mbufs s1 = mbufs s ∧ sent s1 = sent s ∧
    arp_view (ram s1) eth (arp_of eth vlan) =
      mk_msg (a_src v) (Pkt.eth_src_addr (slot s k)) ARP_REPLY (Pkt.eth_src_addr (slot s k))
             (a_tip v) (a_sha v) (a_sip v).
Proof.
  intros eth v Hop Hg Hk Hw. set (arp := arp_of eth vlan) in *.
  assert (eth + 14 ≤ arp) as Hle.
  { unfold arp, arp_of, sizeof_ether_hdr, sizeof_vlan_hdr. case_match; lia. }
  destruct (ip_raw (ram s) eth arp) as [Es Et]. fold v in Es, Et.
  pose proof (op_raw (ram s) eth arp) as Eo. fold v in Eo. rewrite Hop in Eo.
  unfold pktgen_process_arp. fold eth. fold arp. cbn zeta. rewrite Eo, Et, Es, Z.eqb_refl, Hk.
  assert (tst s PROCESS_GARP_PKTS && (htonl (a_tip v) =? htonl (a_sip v)) = false) as ->.
  { apply andb_false_iff. destruct Hg as [->|Hne]; [by left|right]. apply Z.eqb_neq.
    intros E. apply Hne. unfold v, arp_view. cbn [a_tip a_sip]. by rewrite Et, E, <-Es. }
  set (s0 := if tst_bits _ MAC_FROM_ARP_FLAG then _ else s).
  assert (mbufs s0 = mbufs s ∧ sent s0 = sent s ∧ ram s0 = ram s) as (E1 & E2 & E3)
    by (unfold s0; destruct (tst_bits _ _); done).
  assert (Pkt.eth_src_addr (slot s0 k) = Pkt.eth_src_addr (slot s k)) as E4.
  { unfold s0. destruct (tst_bits _ _); [|done]. set (s' := learn_mac k arp s).
    pose proof (ctor_slots_fixed (Z.to_nat (Info.seqCnt (port s'))) 0 (w s') k) as Ef.
    apply (f_equal Pkt.eth_src_addr) in Ef. etrans; [exact Ef|].
    change (Pkt.eth_src_addr (slot s' k) = Pkt.eth_src_addr (slot s k)).
    unfold s'. rewrite slot_learn. by rewrite decide_True. }
  eexists. split; [reflexivity|]. split; [exact E1|]. split; [exact E2|].
  cbn [ram upd_ram upd]. rewrite E3. etrans; [apply (arp_to_reply_view (slot s0 k)); [done|by rewrite E4]|].
  cbn zeta. by rewrite E4.
Qed.

(** The reply branch: the slot that asked takes the sender's address. *)
Lemma process_arp_reply fuel m vlan s j :
  let eth := mtod (mbufs s m) in
  let v := arp_view (ram s) eth (arp_of eth vlan) in
  a_op v = ARP_REPLY →
  pktgen_find_matching_ipsrc (port s) (htonl (a_tip v)) = Some j →
  Pkt.ip_dst_addr (slot s j) = a_sip v →
  ∃ s', pktgen_process_arp fuel m vlan s = Some s' ∧ sent s' = sent s ∧ ram s' = ram s ∧
    slot s' j = slot s j <| Pkt.eth_dst_addr := a_sha v |> ∧
    ∀ i, i ≠ j → slot s' i = slot s i.
Proof.
  intros eth v Hop Hj Hd. set (arp := arp_of eth vlan) in *.
  destruct (ip_raw (ram s) eth arp) as [Es Et]. fold v in Es, Et.
  pose proof (op_raw (ram s) eth arp) as Eo. fold v in Eo. rewrite Hop in Eo.
  unfold pktgen_process_arp. fold eth. fold arp. cbn zeta. rewrite Eo, Et, Hj.
  change (htons ARP_REPLY =? htons ARP_REQUEST) with false. rewrite Z.eqb_refl.
  assert ((Pkt.ip_dst_addr (slot s j) =? ntohl (ld32 (ram s) (arp + Arp.sip))) = true) as ->
    by (apply Z.eqb_eq; exact Hd).
  eexists. split; [reflexivity|]. split; [reflexivity|]. split; [reflexivity|]. split.
  - etrans; [apply slot_learn|]. by rewrite decide_True.
  - intros i Hi. etrans; [apply slot_learn|]. by rewrite decide_False.
Qed.

(** C18. An ARP exchange between two ports: the request [pktgen_send_arp] writes for
    slot [p], taken in by a port that has the requested address in slot [k],
    is answered in place and queued for transmission; and when the requesting
    port takes that answer in, the slot that asked learns the peer's MAC
    address as its destination. *)
Theorem arp_exchange (fuel : nat) (p : pkt_seq_t) (eth0 : Z) (m0 : mem)
    (sB : dp) (mB k : Z) (sA : dp) (mA j : Z) :
  in_word 48 (Pkt.eth_src_addr p) → in_word 32 (Pkt.ip_src_addr p) →
  in_word 32 (Pkt.ip_dst_addr p) → Pkt.ip_src_addr p ≠ Pkt.ip_dst_addr p →
  in_word 48 (Pkt.eth_src_addr (slot sB k)) →
  let atB := mtod (mbufs sB mB) in
  let atA := mtod (mbufs sA mA) in
  arp_view (ram sB) atB (arp_of atB 0) =
    arp_view (arp_request p 0 eth0 m0) eth0 (eth0 + sizeof_ether_hdr) →
  pktgen_find_matching_ipsrc (port sB) (htonl (Pkt.ip_dst_addr p)) = Some k →
  ∃ s1, pktgen_process_arp fuel mB 0 sB =
          (s2 ← pktgen_send_mbuf fuel mB 0 s1; Some (set_q_flags 0 DO_TX_FLUSH s2)) ∧
    mbufs s1 = mbufs sB ∧
    arp_view (ram s1) atB (arp_of atB 0) =
      mk_msg (Pkt.eth_src_addr p) (Pkt.eth_src_addr (slot sB k)) ARP_REPLY
             (Pkt.eth_src_addr (slot sB k)) (Pkt.ip_dst_addr p) (Pkt.eth_src_addr p)
             (Pkt.ip_src_addr p) ∧
    (arp_view (ram sA) atA (arp_of atA 0) = arp_view (ram s1) atB (arp_of atB 0) →
     pktgen_find_matching_ipsrc (port sA) (htonl (Pkt.ip_src_addr p)) = Some j →
     Pkt.ip_dst_addr (slot sA j) = Pkt.ip_dst_addr p →
     ∃ s', pktgen_process_arp fuel mA 0 sA = Some s' ∧
       Pkt.eth_dst_addr (slot s' j) = Pkt.eth_src_addr (slot sB k)).
Proof.
  intros H1 H2 H3 Hne H4 atB atA Hv Hk. rewrite arp_request_view in Hv by done. cbn zeta in Hv.
  change (0 =? GRATUITOUS_ARP) with false in Hv. cbn iota in Hv.
  destruct (process_arp_request fuel mB 0 sB k) as (s1 & E1 & E2 & _ & E3); fold atB.
  - by rewrite Hv.
  - right. rewrite Hv. cbn [a_tip a_sip]. congruence.
  - rewrite Hv. exact Hk.
  - done.
  - fold atB in E3. rewrite Hv in E3. cbn [a_src a_tip a_sha a_sip] in E3.
    exists s1. split_and!; [exact E1|exact E2|exact E3|]. intros HvA Hj Hd. rewrite E3 in HvA.
    destruct (process_arp_reply fuel mA 0 sA j) as (s' & F1 & _ & _ & F2 & _); fold atA;
      rewrite ?HvA; [done|exact Hj|exact Hd|].
    exists s'. split; [exact F1|]. fold atA in F2. rewrite F2, HvA. done.
Qed.

(** A gratuitous ARP announces its sender: a port that processes such packets
    and has the announced address as the destination of a slot takes the MAC
    address over, sends nothing, and asks for the packets to be rebuilt. *)
Theorem garp_teaches (fuel : nat) (p : pkt_seq_t) (eth0 : Z) (m0 : mem) (s : dp) (m k : Z) :
  in_word 48 (Pkt.eth_src_addr p) → in_word 32 (Pkt.ip_src_addr p) →
  in_word 32 (Pkt.ip_dst_addr p) → tst s PROCESS_GARP_PKTS = true →
  let at_ := mtod (mbufs s m) in
  arp_view (ram s) at_ (arp_of at_ 0) =
    arp_view (arp_request p GRATUITOUS_ARP eth0 m0) eth0 (eth0 + sizeof_ether_hdr) →
  pktgen_find_matching_ipdst (port s) (htonl (Pkt.ip_src_addr p)) = Some k →
  ∃ s', pktgen_process_arp fuel m 0 s = Some s' ∧ sent s' = sent s ∧ ram s' = ram s ∧
    slot s' k = slot s k <| Pkt.eth_dst_addr := Pkt.eth_src_addr p |> ∧
    Q.flags (Info.q (port s') rx_txque) = set_bits (Q.flags (Info.q (port s) rx_txque)) DO_TX_FLUSH.
Proof.
  intros H1 H2 H3 Hg at_ Hv Hk. rewrite arp_request_view in Hv by done. cbn zeta in Hv.
  rewrite Z.eqb_refl in Hv. set (arp := arp_of at_ 0) in *.
  destruct (ip_raw (ram s) at_ arp) as [Es Et]. pose proof (op_raw (ram s) at_ arp) as Eo.
  rewrite Hv in Es, Et, Eo. cbn [a_sip a_tip a_op] in Es, Et, Eo.
  unfold pktgen_process_arp. fold at_. fold arp. cbn zeta.
  rewrite Eo, Et, Es, !Z.eqb_refl, Hg, Hk. cbn [andb].
  eexists. split; [reflexivity|]. split; [reflexivity|]. split; [reflexivity|]. split.
  - etrans; [apply slot_learn|]. rewrite decide_True by done.
    change (inet_mtoh64 (ram s) (arp + Arp.sha)) with (a_sha (arp_view (ram s) at_ arp)).
    by rewrite Hv.
  - set (s1 := learn_mac k arp s).
    change (Q.flags (set_at rx_txque (Info.q (port s1) rx_txque <| Q.flags ::= λ v, set_bits v DO_TX_FLUSH |>)
                       (Info.q (port s1)) rx_txque) = set_bits (Q.flags (Info.q (port s) rx_txque)) DO_TX_FLUSH).
    by rewrite set_at_eq.
Qed.

(** ** The checksum test in front of the echo requests *)

Lemma sum16_zero_first m p n : 1 ≤ n → sum16 m p n = 0 → ld8 m p = 0.
Proof.
  intros Hn. unfold sum16. pose proof (sumw_bounds (Z.to_nat (n / 2)) m p) as B.
  destruct (decide (n = 1)) as [->|Hne].
  - change (Z.to_nat (1 / 2)) with 0%nat. cbn [sumw Z.odd]. replace (p + 1 - 1) with p by lia. lia.
  - assert (1 ≤ n / 2) by (apply Z.div_le_lower_bound; lia).
    destruct (Z.to_nat (n / 2)) as [|k] eqn:E; [lia|]. cbn [sumw] in *.
    pose proof (sumw_bounds k m (p + 2)). rewrite ld16_bytes in *.
    pose proof (ld8_range m p). pose proof (ld8_range m (p + 1)).
    pose proof (ld8_range m (p + n - 1)). destruct (Z.odd n); lia.
Qed.

(** No echo request is answered.  [pktgen_process_ping4] takes the folded sum
    over the ICMP message for an error unless it is zero, but the sum of a
    message with a correct checksum is 0xffff, and a zero sum means that every
    byte is zero, the type included: all that can happen to a packet that has
    an ICMP message is that a message of zeros counts as an echo. *)
Theorem ping_never_answered (fuel : nat) (m vlan : Z) (s : dp) :
  let icmp := arp_of (mtod (mbufs s m)) vlan + sizeof_ipv4_hdr in
  let len := Mb.data_len (mbufs s m) - sizeof_ether_hdr - sizeof_ipv4_hdr in
  1 ≤ len ≤ 65535 →
  pktgen_process_ping4 fuel m vlan s = Some s ∨
  (pktgen_process_ping4 fuel m vlan s = Some (bump_echo s) ∧ sum16 (ram s) icmp len = 0).
Proof.
  intros icmp len Hlen. unfold pktgen_process_ping4. cbn zeta. fold icmp. fold len.
  destruct (tst s ICMP_ECHO_ENABLE_FLAG && _); [|by left].
  destruct (Z.ltb_spec (Mb.data_len (mbufs s m)) (sizeof_ether_hdr + sizeof_ipv4_hdr)); [lia|].
  destruct (raw_cksum_folded (ram s) icmp len ltac:(lia)) as (_ & Hz & _).
  destruct (Z.eqb_spec (rte_raw_cksum (ram s) icmp len) 0) as [E|]; [|by left].
  specialize (Hz E). pose proof (sum16_zero_first (ram s) icmp len (proj1 Hlen) Hz) as ->.
  right. by split.
Qed.

End Exchange.

(** ** Witnesses *)

(** A port whose single packet has the address that [sample_pkt] asks for *)
Definition demo_peer : dp :=
  upd_w (upd_pkt SINGLE_PKT (λ p, p <| Pkt.ip_src_addr := 0xc0a80101 |> <| Pkt.eth_src_addr := 0x66 |>))
    (upd_ram (arp_request sample_pkt 0 (4096 * 5 + 128)) demo_dp).
Definition demo_asker : dp :=
  upd_ram (λ m, arp_to_reply (slot demo_peer SINGLE_PKT) (4096 * 5 + 128) (4096 * 5 + 142)
                  (arp_request sample_pkt 0 (4096 * 5 + 128) m)) demo_dp.

Lemma arp_exchange_witness :
  ∃ s', pktgen_process_arp 9 5 0 demo_asker = Some s' ∧
        Pkt.eth_dst_addr (slot s' SINGLE_PKT) = 0x66.
Proof.
  destruct (arp_exchange 9 sample_pkt (4096 * 5 + 128) (λ _, 0) demo_peer 5 SINGLE_PKT
              demo_asker 5 SINGLE_PKT) as (s1 & _ & _ & E & T).
  1-3: vm_compute; split; congruence.
  - vm_compute. congruence.
  - vm_compute. split; congruence.
  - vm_compute. reflexivity.
  - vm_compute. reflexivity.
  - destruct T as (s' & T1 & T2).
    + rewrite E. vm_compute. reflexivity.
    + vm_compute. reflexivity.
    + vm_compute. reflexivity.
    + exists s'. split; [exact T1|exact T2].
Defined.

Definition demo_garp : dp :=
  upd_w (λ w, set_flags PROCESS_GARP_PKTS
                (upd_pkt RANGE_PKT (λ p, p <| Pkt.ip_dst_addr := 0xc0a80001 |>) w))
    (upd_ram (arp_request sample_pkt GRATUITOUS_ARP (4096 * 5 + 128)) demo_dp).

Lemma garp_teaches_witness :
  ∃ s', pktgen_process_arp 9 5 0 demo_garp = Some s' ∧
        Pkt.eth_dst_addr (slot s' RANGE_PKT) = 0x001122334455.
Proof.
  destruct (garp_teaches 9 sample_pkt (4096 * 5 + 128) (λ _, 0) demo_garp 5 RANGE_PKT)
    as (s' & E1 & _ & _ & E2 & _).
  1-3: vm_compute; split; congruence.
  1-3: vm_compute; reflexivity.
  exists s'. split; [exact E1|]. rewrite E2. reflexivity.
Defined.

(** An echo request with a correct checksum *)
Definition demo_echo : dp :=
  upd_w (set_flags ICMP_ECHO_ENABLE_FLAG)
    (upd_ram (λ m, st16 (store 1 (store 1 m (4096 * 5 + 151) 1) (4096 * 5 + 162) 8) (4096 * 5 + 164) 0xfff7)
       demo_dp).

Lemma ping_never_answered_witness :
  rte_raw_cksum (ram demo_echo) (4096 * 5 + 162) 26 = 0xffff ∧
  pktgen_process_ping4 9 5 0 demo_echo = Some demo_echo.
Proof.
  split; [vm_compute; reflexivity|].
  destruct (ping_never_answered 9 5 0 demo_echo) as [E|[_ E]].
  - vm_compute. split; congruence.
  - exact E.
  - exfalso. vm_compute in E. discriminate E.
Defined.
