(* ===== verification/Transmit.v ===== *)
(** * Transmitting

    Setting up the packets of a pool ([pktgen_setup_cb], [pktgen_setup_packets]),
    filling and sending a queue ([pktgen_send_pkts]) and one turn of a
    transmit core on a port ([pktgen_main_transmit]) of [app/pktgen.c]. *)
From S2P Require Import Prelude Mem RandomBits Inet PortInfo Atomics Headers Range Commands Mbuf Burst Special.

(** ** Offload flags of DPDK *)
Definition DEV_TX_OFFLOAD_IPV4_CKSUM := 2.
Definition DEV_TX_OFFLOAD_UDP_CKSUM := 4.
Definition DEV_TX_OFFLOAD_TCP_CKSUM := 8.
Definition PKT_TX_TCP_CKSUM := Z.shiftl 1 52.
Definition PKT_TX_UDP_CKSUM := Z.shiftl 3 52.
Definition PKT_TX_IP_CKSUM := Z.shiftl 1 54.
Definition PKT_TX_IPV4 := Z.shiftl 1 55.
Definition PKT_TX_IPV6 := Z.shiftl 1 56.

Section Transmit.
Context `{Env}.

(** ** Setting up the packets of a pool *)

(** The slot a pool's packets are built from; a sequence pool moves on to the next. *)
Definition setup_idx (mp qid : Z) (s : dp) : option (Z * dp) :=
  let q := Info.q (port s) qid in
  if mp =? Q.tx_mp q then Some (SINGLE_PKT, s)
  else if mp =? Q.rate_mp q then Some (RATE_PKT, s)
  else if mp =? Q.range_mp q then Some (RANGE_PKT, s)
  else if mp =? Q.seq_mp q then
    let idx := Info.seqIdx (port s) in
    let s := upd_port (λ i, i <| Info.seqIdx ::= λ v, u16 (v + 1) |>) s in
    let s := if Info.seqCnt (port s) <=? Info.seqIdx (port s)
             then upd_port (λ i, i <| Info.seqIdx := 0 |>) s else s in
    Some (idx, s)
  else None.

(** [pkt->ol_flags] as the capabilities of the device allow *)
Definition offload_flags (capa : Z) (p : pkt_seq_t) : Z :=
  let f :=
    if Pkt.ethType p =? PG_ETHER_TYPE_IPv4 then
      if tst_bits capa DEV_TX_OFFLOAD_IPV4_CKSUM then PKT_TX_IP_CKSUM ||| PKT_TX_IPV4
      else Pkt.ol_flags p
    else if Pkt.ethType p =? PG_ETHER_TYPE_IPv6 then PKT_TX_IP_CKSUM ||| PKT_TX_IPV6
    else Pkt.ol_flags p in
  if Pkt.ipProto p =? PG_IPPROTO_UDP then
    if tst_bits capa DEV_TX_OFFLOAD_UDP_CKSUM then f ||| PKT_TX_UDP_CKSUM else f
  else if Pkt.ipProto p =? PG_IPPROTO_TCP then
    if tst_bits capa DEV_TX_OFFLOAD_TCP_CKSUM then f ||| PKT_TX_TCP_CKSUM else f
  else f.

(** The mbuf takes the packet's length and saves it in [udata64]. *)
Definition setup_mbuf (p : pkt_seq_t) (m : rte_mbuf) : rte_mbuf :=
  let m := m <| Mb.pkt_len := Pkt.pktSize p |> in
  let m := m <| Mb.data_len := Pkt.pktSize p |> in
  let m := m <| Mb.udata64 ::= Data.set_pkt_len (Mb.pkt_len m) |> in
  let m := m <| Mb.udata64 ::= Data.set_buf_len (Mb.buf_len m) |> in
  m <| Mb.udata64 ::= Data.set_data_len (Mb.data_len m) |>.

Definition range_slot (s : dp) : dp :=
  let '(p, st) := pktgen_range_ctor (Info.range (port s)) (range_statics s) (slot s RANGE_PKT) in
  upd_w (set_pkt RANGE_PKT p) (s <| range_statics := st |>).

Definition pktgen_setup_cb (mp qid obj : Z) (s : dp) : dp :=
  let s := upd_mbuf obj rte_pktmbuf_reset s in
  match setup_idx mp qid s with
  | None => s
  | Some (idx, s) =>
      let s := if idx =? RANGE_PKT then range_slot s else s in
      let s := upd_w (λ w, pktgen_packet_ctor w idx (-1)) s in
      let s := upd_ram (copy_hdr (Pkt.hdr (slot s idx)) (mtod (mbufs s obj)) MAX_PKT_SIZE) s in
      let s := upd_mbuf obj (setup_mbuf (slot s idx)) s in
      let fl := offload_flags (Info.tx_offload_capa (port s)) (slot s idx) in
      let s := upd_w (upd_pkt idx (λ p, p <| Pkt.ol_flags := fl |>)) s in
      upd_mbuf obj (λ m, m <| Mb.ol_flags := fl |>) s
  end.

Fixpoint obj_iter (mp qid : Z) (objs : list Z) (s : dp) : dp :=
  match objs with
  | [] => s
  | obj :: objs => obj_iter mp qid objs (pktgen_setup_cb mp qid obj s)
  end.

Definition pktgen_setup_packets (mp qid : Z) (s : dp) : dp :=
  let s := upd_port (λ i, pktgen_clr_q_flags i qid CLEAR_FAST_ALLOC_FLAG) s in
  if mp =? Q.pcap_mp (Info.q (port s) qid) then s
  else obj_iter mp qid (mempool_objs mp) s.

(** ** Filling and sending a queue *)

(** The packets of this turn: up to a burst of those still to send, or a burst
    for ever; [None] when the count is used up. *)
Definition take_count (s : dp) : option Z * dp :=
  if negb (tst s SEND_FOREVER) then
    let '(txCnt, left_) := pkt_atomic64_tx_count (Info.current_tx_count (port s))
                             (Info.tx_burst (port s)) in
    let s := upd_port (λ i, i <| Info.current_tx_count := left_ |>) s in
    if txCnt =? 0 then (None, s) else (Some txCnt, s)
  else (Some (Info.tx_burst (port s)), s).

(** Storing mbufs past the end of [m_table] is not defined. *)
Definition pktgen_send_pkts (fuel : nat) (qid mp : Z) (s : dp) : option dp :=
  match take_count s with
  | (None, s) =>
      pktgen_send_burst fuel qid (upd_w (clr_flags (SENDING_PACKETS ||| SEND_FOREVER)) s)
  | (Some txCnt, s) =>
      let txLen := Z.of_nat (length (queue s qid)) in
      let cnt := u16 (txCnt - txLen) in
      let cnt := if Info.tx_burst (port s) <? cnt then Info.tx_burst (port s) else cnt in
      let '(pkts, s) := pg_pktmbuf_alloc_bulk mp (Z.to_nat cnt) s in
      if DEFAULT_PKT_BURST <? txLen + Z.of_nat (length pkts) then None
      else pktgen_send_burst fuel qid (set_queue qid (queue s qid ++ pkts) s)
  end.

(** ** A turn of a transmit core *)

(** The pool of the port's mode *)
Definition transmit_pool (flags : Z) (q : q_info) : Z :=
  if tst_bits flags (SEND_RANGE_PKTS ||| SEND_PCAP_PKTS ||| SEND_SEQ_PKTS ||| SEND_RATE_PACKETS) then
    if tst_bits flags SEND_RANGE_PKTS then Q.range_mp q
    else if tst_bits flags SEND_SEQ_PKTS then Q.seq_mp q
    else if tst_bits flags SEND_RATE_PACKETS then Q.rate_mp q
    else if tst_bits flags SEND_PCAP_PKTS then Q.pcap_mp q
    else Q.tx_mp q
  else Q.tx_mp q.

Definition pktgen_main_transmit (fuel : nat) (qid : Z) (s : dp) : option dp :=
  let flags := Info.port_flags (port s) in
  s ← (if tst_bits flags SEND_ARP_PING_REQUESTS then pktgen_send_special fuel flags s else Some s);
  s ← (if tst_bits flags SENDING_PACKETS then
         let mp := transmit_pool flags (Info.q (port s) qid) in
         let s := if pktgen_tst_q_flags (port s) qid CLEAR_FAST_ALLOC_FLAG
                  then pktgen_setup_packets mp qid s else s in
         pktgen_send_pkts fuel qid mp s
       else Some s);
  if pktgen_tst_q_flags (port s) qid DO_TX_FLUSH then pktgen_tx_flush fuel qid s else Some s.

(** [n] turns of a transmit core on its queue *)
Fixpoint transmit_turns (fuel n : nat) (qid : Z) (s : dp) : option dp :=
  match n with
  | O => Some s
  | S n => s ← pktgen_main_transmit fuel qid s; transmit_turns fuel n qid s
  end.

(** ** What setting up packets leaves alone *)

Definition settled (i : port_info_t) : port_info_t :=
  i <| Info.seqIdx := 0 |> <| Info.seq_pkt := λ _, Pkt.zero |> <| Info.q := λ _, Q.zero |>.

Record setup_rel (s s' : dp) : Prop := {
  sr_port : settled (port s') = settled (port s);
  sr_q : ∀ k, q_frozen (Info.q (port s') k) = q_frozen (Info.q (port s) k);
  sr_sent : sent s' = sent s;
  sr_freed : freed s' = freed s;
  sr_rnd : rnd_bitfields s' = rnd_bitfields s }.

#[global] Instance setup_rel_refl : Reflexive setup_rel.
Proof. intros s. by split. Qed.
#[global] Instance setup_rel_trans : Transitive setup_rel.
Proof. intros s1 s2 s3 [A1 A2 A3 A4 A5] [B1 B2 B3 B4 B5]. split; [| |etrans; eauto..]; [|intros k]; etrans; eauto. Qed.

Lemma sr_queue s s' qid : setup_rel s s' → queue s' qid = queue s qid.
Proof. intros Hr. exact (f_equal Q.m_table (sr_q _ _ Hr qid)). Qed.

Lemma sr_flags s s' : setup_rel s s' → Info.port_flags (port s') = Info.port_flags (port s).
Proof. intros Hr. exact (f_equal Info.port_flags (sr_port _ _ Hr)). Qed.

Lemma upd_mbuf_setup a f s : setup_rel s (upd_mbuf a f s).
Proof. by split. Qed.
Lemma upd_ram_setup f s : setup_rel s (upd_ram f s).
Proof. by split. Qed.
Lemma set_pkt_setup k p s : setup_rel s (upd_w (set_pkt k p) s).
Proof. by split. Qed.
Lemma upd_pkt_setup k f s : setup_rel s (upd_w (upd_pkt k f) s).
Proof. by split. Qed.
Lemma seqIdx_setup f s : setup_rel s (upd_port (λ i, i <| Info.seqIdx ::= f |>) s).
Proof. by split. Qed.

Lemma packet_ctor_eq w k t :
  ∃ p id, pktgen_packet_ctor w k t = set_pkt k p (w <| g ::= λ x, x <| Pg.ident := id |> |>).
Proof. unfold pktgen_packet_ctor. destruct (ctor_pkt _ _ _ _) as [p id]. by exists p, id. Qed.

Lemma packet_ctor_setup k t s : setup_rel s (upd_w (λ w, pktgen_packet_ctor w k t) s).
Proof.
  destruct (packet_ctor_eq (w s) k t) as (p & id & E).
  split; try reflexivity.
  - change (settled (info (pktgen_packet_ctor (w s) k t)) = settled (port s)). by rewrite E.
  - intros j. change (q_frozen (Info.q (info (pktgen_packet_ctor (w s) k t)) j) = q_frozen (Info.q (port s) j)).
    by rewrite E.
Qed.

Lemma range_slot_setup s : setup_rel s (range_slot s).
Proof. unfold range_slot. destruct (pktgen_range_ctor _ _ _). by split. Qed.

Lemma setup_idx_setup mp qid s idx s' : setup_idx mp qid s = Some (idx, s') → setup_rel s s'.
Proof.
  unfold setup_idx. repeat (case_match; [by intros [= <- <-]|]). intros E.
  destruct (mp =? Q.seq_mp _); [|done]. injection E as <- <-.
  case_match; [etrans; [apply seqIdx_setup|apply seqIdx_setup]|apply seqIdx_setup].
Qed.

Lemma setup_cb_setup mp qid obj s : setup_rel s (pktgen_setup_cb mp qid obj s).
Proof.
  unfold pktgen_setup_cb. cbn zeta. etrans; [apply (upd_mbuf_setup obj rte_pktmbuf_reset)|].
  destruct (setup_idx _ _ _) as [[idx s1]|] eqn:E; [|reflexivity].
  etrans; [by eapply setup_idx_setup|].
  transitivity (if idx =? RANGE_PKT then range_slot s1 else s1).
  { destruct (idx =? RANGE_PKT); [apply range_slot_setup|reflexivity]. }
  etrans; [apply packet_ctor_setup|]. etrans; [apply upd_ram_setup|].
  etrans; [apply upd_mbuf_setup|]. etrans; [apply upd_pkt_setup|]. apply upd_mbuf_setup.
Qed.

Lemma obj_iter_setup mp qid l s : setup_rel s (obj_iter mp qid l s).
Proof.
  revert s. induction l as [|a l IH]; intros s; [reflexivity|]. cbn [obj_iter].
  etrans; [apply setup_cb_setup|apply IH].
Qed.

Lemma q_flags_setup f k s :
  (∀ q, q_frozen (f q) = q_frozen q) → setup_rel s (upd_port (λ i, upd_q i k f) s).
Proof.
  intros Hf. split; try reflexivity. intros j.
  change (q_frozen (set_at k (f (Info.q (port s) k)) (Info.q (port s)) j) = q_frozen (Info.q (port s) j)).
  destruct (decide (j = k)) as [->|Hne]; [by rewrite set_at_eq, Hf|by rewrite set_at_ne].
Qed.

Lemma setup_packets_setup mp qid s : setup_rel s (pktgen_setup_packets mp qid s).
Proof.
  unfold pktgen_setup_packets. cbn zeta.
  etrans; [apply (q_flags_setup (λ x, x <| Q.flags ::= λ v, clr_bits v CLEAR_FAST_ALLOC_FLAG |>) qid); done|].
  case_match; [reflexivity|apply obj_iter_setup].
Qed.

(** ** Counting what is sent *)

(** Pools that do not run dry, and nobody who stops the port *)
Definition plentiful : Prop :=
  ∀ k mp n, (n ≤ 64)%nat → is_Some (mempool_get_bulk k mp n).
Definition undisturbed : Prop := ∀ k, stopped k = false.

(** A port between two turns: sending a count of which [c] packets are left *)
Record ready (qid c : Z) (s : dp) : Prop := {
  re_queue : queue s qid = [];
  re_burst : 1 ≤ Info.tx_burst (port s) ≤ DEFAULT_PKT_BURST;
  re_count : Info.current_tx_count (port s) = c;
  re_flags : in_word 32 (Info.port_flags (port s));
  re_sending : tst s SENDING_PACKETS = true;
  re_forever : tst s SEND_FOREVER = false;
  re_special : tst s SEND_ARP_PING_REQUESTS = false }.

(** A port whose transmission is over *)
Record idle (qid : Z) (s : dp) : Prop := {
  id_queue : queue s qid = [];
  id_sending : tst s SENDING_PACKETS = false;
  id_special : tst s SEND_ARP_PING_REQUESTS = false }.

Lemma take_count_spec qid c s :
  ready qid c s → 0 ≤ c →
  let n := Z.min c (Info.tx_burst (port s)) in
  take_count s =
    (if c =? 0 then None else Some n,
     upd_port (λ i, i <| Info.current_tx_count := c - n |>) s).
Proof.
  intros [] Hc n. unfold take_count. rewrite re_forever0, re_count0. cbn [negb].
  unfold pkt_atomic64_tx_count, run_alone, tx_count_body. subst n.
  destruct (Z.eqb_spec c 0) as [->|Hne].
  - rewrite Z.min_l by lia. done.
  - destruct (Z.ltb_spec (Info.tx_burst (port s)) c).
    + rewrite Z.min_r by lia. destruct (Z.eqb_spec (Info.tx_burst (port s)) 0); [lia|done].
    + rewrite Z.min_l by lia. destruct (Z.eqb_spec c 0); [done|done].
Qed.

Lemma tst_clr s f f' :
  in_word 32 (Info.port_flags (port s)) →
  (∀ i, 0 ≤ i → Z.testbit f' i = true → Z.testbit f i = true) →
  tst (upd_w (clr_flags f) s) f' = false.
Proof.
  intros Hw Hf. change (tst_bits (clr_bits (Info.port_flags (port s)) f) f' = false).
  apply not_true_is_false. intros E. apply tst_bits_spec in E as (i & Hi & H1 & H2).
  - rewrite clr_bits_spec, (Hf i) in H1 by done. by rewrite andb_false_r in H1.
  - by destruct (clr_bits_word (Info.port_flags (port s)) f Hw).
Qed.

Lemma tst_clr_false s f f' : tst s f' = false → tst (upd_w (clr_flags f) s) f' = false.
Proof.
  change (tst_bits (Info.port_flags (port s)) f' = false →
          tst_bits (clr_bits (Info.port_flags (port s)) f) f' = false).
  unfold tst_bits, clr_bits. intros E. apply negb_false_iff, Z.eqb_eq in E.
  rewrite <-Z.land_assoc, (Z.land_comm (u32 _)), Z.land_assoc, E. by rewrite Z.land_0_l.
Qed.

(** Filling the queue and sending it, in the middle of a count *)
Lemma send_pkts_ready D fuel qid mp c s :
  plentiful → undisturbed → serves D → (64 * D < fuel)%nat → 0 < c → ready qid c s →
  let n := Z.min c (Info.tx_burst (port s)) in
  ∃ s' fs, pktgen_send_pkts fuel qid mp s = Some s' ∧ ready qid (c - n) s' ∧
    Info.tx_burst (port s') = Info.tx_burst (port s) ∧
    sent s' = sent s ++ fs ∧ Z.of_nat (length fs) = n.
Proof.
  intros Hp Hu HD Hf Hc Hr n. assert (Hr' := Hr). destruct Hr'.
  unfold pktgen_send_pkts. rewrite (take_count_spec qid c) by (done || lia). fold n.
  destruct (Z.eqb_spec c 0); [lia|]. set (s1 := upd_port _ s).
  change (queue s1 qid) with (queue s qid). rewrite re_queue0. cbn [length]. rewrite Z.sub_0_r.
  change (Info.tx_burst (port s1)) with (Info.tx_burst (port s)).
  unfold DEFAULT_PKT_BURST in *. assert (0 < n ≤ 64) by lia.
  rewrite (wrap_small 16) by (unfold in_word; lia).
  destruct (Z.ltb_spec (Info.tx_burst (port s)) n); [lia|].
  pose proof (alloc_bulk_spec mp (Z.to_nat n) s1) as A.
  destruct (pg_pktmbuf_alloc_bulk mp (Z.to_nat n) s1) as [l s2]. destruct A as (_ & Ha & Hl).
  specialize (Hl (Hp _ _ (Z.to_nat n) ltac:(lia))).
  destruct (Z.ltb_spec 64 (Z.of_nat 0 + Z.of_nat (length l))); [lia|].
  assert (queue s2 qid = []) as -> by (unfold queue, port; rewrite (rr_w _ _ _ Ha); exact re_queue0).
  cbn [app]. set (s3 := set_queue qid l s2).
  assert (queue s3 qid = l) as Eq by apply queue_set_eq.
  destruct (send_burst_spec D fuel qid s3 HD) as (s' & k & fs & E1 & Hbr & E2 & E3 & E4 & E5 & _ & E6 & _ & E7).
  { rewrite Eq, Hl. assert (Z.to_nat n * D ≤ 64 * D)%nat by (apply Nat.mul_le_mono_r; lia). lia. }
  exists s', fs. specialize (E7 Hu). rewrite Eq, Hl in *.
  assert (Info.port_flags (port s') = Info.port_flags (port s)) as Hfl.
  { rewrite E7. unfold port. change (w s3) with (upd_info (λ i, upd_q i qid (λ q, q <| Q.m_table := l |>)) (w s2)).
    by rewrite (rr_w _ _ _ Ha). }
  pose proof (pr_port _ _ (br_port _ _ Hbr)) as Hfr.
  assert (frozen (port (set_queue qid [] s3)) = frozen (port s1)) as Hs3.
  { unfold s3, port. change (frozen (info (w s2)) = frozen (info (w s1))). by rewrite (rr_w _ _ _ Ha). }
  rewrite Hs3 in Hfr.
  assert (Info.tx_burst (port s') = Info.tx_burst (port s)) as Hb by exact (f_equal Info.tx_burst Hfr).
  assert (tst s' SENDING_PACKETS = true) as Hsend by (rewrite (tst_flags_eq s s'); done).
  assert (k = Z.to_nat n) as ->.
  { destruct (decide (k < Z.to_nat n)%nat) as [Hk|]; [|lia]. specialize (E6 Hk). congruence. }
  assert (sent s3 = sent s) as Es by exact (rr_sent _ _ _ Ha).
  split; [done|]. split; [split|split_and!]; rewrite ?Hfl, ?(tst_flags_eq s s') by done; try done.
  - by rewrite Hb.
  - exact (f_equal Info.current_tx_count Hfr).
  - by rewrite E3, Es.
  - rewrite take_ge in E4 by lia. apply (f_equal length) in E4. rewrite length_fmap in E4. lia.
Qed.

(** The count used up: the port stops. *)
Lemma send_pkts_done fuel qid mp s :
  (0 < fuel)%nat → ready qid 0 s →
  ∃ s', pktgen_send_pkts fuel qid mp s = Some s' ∧ idle qid s' ∧ sent s' = sent s.
Proof.
  intros Hf Hr. assert (Hr' := Hr). destruct Hr'. unfold pktgen_send_pkts.
  rewrite (take_count_spec qid 0) by (done || lia). rewrite Z.eqb_refl.
  set (s1 := upd_port _ s). set (s2 := upd_w _ s1).
  destruct (send_burst_unfold fuel qid s2 Hf) as (? & ? & ? & ? & _ & _ & _ & _ & Hn & _).
  exists s2. split; [apply Hn; exact re_queue0|]. split; [|done]. split; [exact re_queue0| |].
  - apply tst_clr; [exact re_flags0|]. intros i _. rewrite Z.lor_spec. by intros ->.
  - apply tst_clr_false. exact re_special0.
Qed.

(** ** Turns *)

Lemma ready_setup qid c s s' :
  setup_rel s s' → ready qid c s →
  ready qid c s' ∧ Info.tx_burst (port s') = Info.tx_burst (port s).
Proof.
  intros Hr []. pose proof (sr_port _ _ Hr) as Hp. pose proof (sr_flags _ _ Hr) as Hf.
  assert (Info.tx_burst (port s') = Info.tx_burst (port s)) as Hb by exact (f_equal Info.tx_burst Hp).
  split; [|done]. split; rewrite ?Hf, ?(tst_flags_eq s s') by done; try done.
  - by rewrite (sr_queue _ _ qid Hr).
  - by rewrite Hb.
  - rewrite <-re_count0. exact (f_equal Info.current_tx_count Hp).
Qed.

Lemma idle_setup qid s s' : setup_rel s s' → idle qid s → idle qid s'.
Proof.
  intros Hr []. pose proof (sr_flags _ _ Hr).
  split; rewrite ?(tst_flags_eq s s') by done; try done. by rewrite (sr_queue _ _ qid Hr).
Qed.

(** Flushing an empty queue only clears the request. *)
Lemma flush_empty fuel qid s :
  (0 < fuel)%nat → queue s qid = [] →
  ∃ s', (if pktgen_tst_q_flags (port s) qid DO_TX_FLUSH then pktgen_tx_flush fuel qid s else Some s)
        = Some s' ∧ setup_rel s s'.
Proof.
  intros Hf Hq. destruct (pktgen_tst_q_flags _ _ _); [|by eexists].
  destruct (send_burst_unfold fuel qid s Hf) as (? & ? & ? & ? & _ & _ & _ & _ & Hn & _).
  unfold pktgen_tx_flush. rewrite (Hn Hq). eexists. split; [reflexivity|].
  apply (q_flags_setup (λ x, x <| Q.flags ::= λ v, clr_bits v DO_TX_FLUSH |>)). done.
Qed.

Lemma main_transmit_eq fuel qid s :
  tst s SEND_ARP_PING_REQUESTS = false →
  pktgen_main_transmit fuel qid s =
  (s ← (if tst s SENDING_PACKETS then
          let mp := transmit_pool (Info.port_flags (port s)) (Info.q (port s) qid) in
          pktgen_send_pkts fuel qid mp
            (if pktgen_tst_q_flags (port s) qid CLEAR_FAST_ALLOC_FLAG
             then pktgen_setup_packets mp qid s else s)
        else Some s);
   if pktgen_tst_q_flags (port s) qid DO_TX_FLUSH then pktgen_tx_flush fuel qid s else Some s).
Proof.
  intros E. unfold pktgen_main_transmit.
  change (tst_bits (Info.port_flags (port s)) SEND_ARP_PING_REQUESTS) with (tst s SEND_ARP_PING_REQUESTS).
  by rewrite E.
Qed.

(** Building the packets first does not change what a turn is about. *)
Lemma setup_if_ready (b : bool) mp qid c s :
  ready qid c s →
  let s1 := if b then pktgen_setup_packets mp qid s else s in
  ready qid c s1 ∧ Info.tx_burst (port s1) = Info.tx_burst (port s) ∧ sent s1 = sent s.
Proof.
  intros Hr. destruct b; [|done]. pose proof (setup_packets_setup mp qid s) as Hs.
  destruct (ready_setup _ _ _ _ Hs Hr). split_and!; [done..|exact (sr_sent _ _ Hs)].
Qed.

Lemma turn_ready D fuel qid c s :
  plentiful → undisturbed → serves D → (64 * D < fuel)%nat → 0 < c → ready qid c s →
  let n := Z.min c (Info.tx_burst (port s)) in
  ∃ s' fs, pktgen_main_transmit fuel qid s = Some s' ∧ ready qid (c - n) s' ∧
    Info.tx_burst (port s') = Info.tx_burst (port s) ∧
    sent s' = sent s ++ fs ∧ Z.of_nat (length fs) = n.
Proof.
  intros Hp Hu HD Hf Hc Hr n. rewrite main_transmit_eq, (re_sending _ _ _ Hr) by apply Hr. cbn zeta.
  set (mp := transmit_pool _ _). set (s1 := if pktgen_tst_q_flags _ _ _ then _ else s).
  destruct (setup_if_ready (pktgen_tst_q_flags (port s) qid CLEAR_FAST_ALLOC_FLAG) mp qid c s Hr)
    as (Hr1 & Hb1 & Hs1). fold s1 in Hr1, Hb1, Hs1.
  destruct (send_pkts_ready D fuel qid mp c s1 Hp Hu HD Hf Hc Hr1) as (s2 & fs & -> & Hr2 & Hb2 & Hs2 & Hl).
  rewrite Hb1 in *. fold n in Hr2, Hl. cbn [mbind option_bind].
  destruct (flush_empty fuel qid s2 ltac:(lia) (re_queue _ _ _ Hr2)) as (s3 & -> & H3).
  destruct (ready_setup _ _ _ _ H3 Hr2) as [Hr3 Hb3].
  exists s3, fs. split_and!; try done; [congruence|]. rewrite (sr_sent _ _ H3). congruence.
Qed.

Lemma turn_done fuel qid s :
  (0 < fuel)%nat → ready qid 0 s →
  ∃ s', pktgen_main_transmit fuel qid s = Some s' ∧ idle qid s' ∧ sent s' = sent s.
Proof.
  intros Hf Hr. rewrite main_transmit_eq, (re_sending _ _ _ Hr) by apply Hr. cbn zeta.
  set (mp := transmit_pool _ _). set (s1 := if pktgen_tst_q_flags _ _ _ then _ else s).
  destruct (setup_if_ready (pktgen_tst_q_flags (port s) qid CLEAR_FAST_ALLOC_FLAG) mp qid 0 s Hr)
    as (Hr1 & _ & Hs1). fold s1 in Hr1, Hs1.
  destruct (send_pkts_done fuel qid mp s1 Hf Hr1) as (s2 & -> & Hi & Hs2). cbn [mbind option_bind].
  destruct (flush_empty fuel qid s2 Hf (id_queue _ _ Hi)) as (s3 & -> & H3).
  exists s3. split_and!; [done|by eapply idle_setup|]. rewrite (sr_sent _ _ H3). congruence.
Qed.

Lemma turn_idle fuel qid s :
  (0 < fuel)%nat → idle qid s →
  ∃ s', pktgen_main_transmit fuel qid s = Some s' ∧ idle qid s' ∧ sent s' = sent s.
Proof.
  intros Hf Hi. rewrite main_transmit_eq, (id_sending _ _ Hi) by apply Hi. cbn [mbind option_bind].
  destruct (flush_empty fuel qid s Hf (id_queue _ _ Hi)) as (s3 & -> & H3).
  exists s3. split_and!; [done|by eapply idle_setup|exact (sr_sent _ _ H3)].
Qed.

Lemma turns_idle fuel n qid s :
  (0 < fuel)%nat → idle qid s →
  ∃ s', transmit_turns fuel n qid s = Some s' ∧ idle qid s' ∧ sent s' = sent s.
Proof.
  intros Hf. revert s. induction n as [|n IH]; intros s Hi; [by exists s|]. cbn [transmit_turns].
  destruct (turn_idle fuel qid s Hf Hi) as (s1 & -> & Hi1 & Hs1). cbn [mbind option_bind].
  destruct (IH s1 Hi1) as (s2 & E & Hi2 & Hs2). exists s2. split_and!; [done..|congruence].
Qed.

Lemma turns_ready D fuel n qid c s :
  plentiful → undisturbed → serves D → (64 * D < fuel)%nat →
  0 ≤ c ≤ Z.of_nat n * Info.tx_burst (port s) → ready qid c s →
  ∃ s' fs, transmit_turns fuel (S n) qid s = Some s' ∧ idle qid s' ∧
    sent s' = sent s ++ fs ∧ Z.of_nat (length fs) = c.
Proof.
  intros Hp Hu HD Hf. revert c s. induction n as [|n IH]; intros c s Hc Hr.
  - assert (c = 0) as -> by lia. destruct (turn_done fuel qid s ltac:(lia) Hr) as (s1 & E & Hi & Hs).
    exists s1, []. cbn [transmit_turns]. rewrite E, app_nil_r. split_and!; done.
  - destruct (decide (c = 0)) as [->|Hne].
    + destruct (turn_done fuel qid s ltac:(lia) Hr) as (s1 & E & Hi & Hs).
      destruct (turns_idle fuel (S n) qid s1 ltac:(lia) Hi) as (s2 & E2 & Hi2 & Hs2).
      exists s2, []. change (transmit_turns fuel (S (S n)) qid s) with
        (s ← pktgen_main_transmit fuel qid s; transmit_turns fuel (S n) qid s).
      rewrite E, app_nil_r. cbn [mbind option_bind]. split_and!; [done..|congruence|done].
    + destruct (turn_ready D fuel qid c s Hp Hu HD Hf ltac:(lia) Hr) as (s1 & fs & E & Hr1 & Hb & Hs & Hl).
      destruct (IH (c - Z.min c (Info.tx_burst (port s))) s1) as (s2 & fs2 & E2 & Hi & Hs2 & Hl2);
        [rewrite Hb; pose proof (re_burst _ _ _ Hr); lia|done|].
      exists s2, (fs ++ fs2). change (transmit_turns fuel (S (S n)) qid s) with
        (s ← pktgen_main_transmit fuel qid s; transmit_turns fuel (S n) qid s).
      rewrite E. cbn [mbind option_bind]. split_and!; [done..| |rewrite length_app; lia].
      by rewrite Hs2, Hs, app_assoc.
Qed.

(** Starting a port whose count is set makes it ready. *)
Lemma start_ready qid s :
  idle qid s → in_word 32 (Info.port_flags (port s)) → tst s SEND_FOREVER = false →
  1 ≤ Info.tx_burst (port s) ≤ DEFAULT_PKT_BURST → 0 < Info.transmit_count (port s) →
  ready qid (Info.transmit_count (port s)) (upd_w pktgen_start_transmitting s) ∧
  Info.tx_burst (port (upd_w pktgen_start_transmitting s)) = Info.tx_burst (port s).
Proof.
  intros [] Hw Hf Hb Hc. set (s1 := upd_w pktgen_start_transmitting s).
  set (i0 := set_q_flags_upto (Z.to_nat (get_port_txcnt (g (w s)) (Info.pid (port s)))) 0
               CLEAR_FAST_ALLOC_FLAG (port s)).
  destruct (set_q_flags_upto_rel (Z.to_nat (get_port_txcnt (g (w s)) (Info.pid (port s)))) 0
              CLEAR_FAST_ALLOC_FLAG (port s)) as [Hrel Hfl]. fold i0 in Hrel, Hfl.
  assert (Info.transmit_count i0 = Info.transmit_count (port s)) as Ht
    by exact (f_equal Info.transmit_count (pr_port _ _ Hrel)).
  assert (port s1 = pktgen_set_port_flags (i0 <| Info.current_tx_count := Info.transmit_count i0 |>)
                      SENDING_PACKETS) as E1.
  { unfold s1, port. change (w (upd_w pktgen_start_transmitting s)) with (pktgen_start_transmitting (w s)).
    unfold pktgen_start_transmitting. change (tst_flags (w s) SENDING_PACKETS) with (tst s SENDING_PACKETS).
    rewrite id_sending0. cbn zeta. set (w1 := all_q_flags CLEAR_FAST_ALLOC_FLAG (w s)).
    change (info w1) with i0. set (w2 := upd_info _ w1).
    change (Info.current_tx_count (info w2)) with (Info.transmit_count i0). rewrite Ht.
    destruct (Z.eqb_spec (Info.transmit_count (port s)) 0); [lia|]. rewrite <-Ht. reflexivity. }
  assert (Info.port_flags (port s1) = set_bits (Info.port_flags (port s)) SENDING_PACKETS) as Ef.
  { rewrite E1. change (set_bits (Info.port_flags i0) SENDING_PACKETS = set_bits (Info.port_flags (port s)) SENDING_PACKETS).
    by rewrite Hfl. }
  assert (∀ f, Z.land SENDING_PACKETS f = 0 → tst s f = false → tst s1 f = false) as Hother.
  { intros f Hz. change (tst_bits (Info.port_flags (port s)) f = false →
                         tst_bits (Info.port_flags (port s1)) f = false).
    rewrite Ef. unfold tst_bits, set_bits. intros E. apply negb_false_iff, Z.eqb_eq in E.
    by rewrite Z.land_lor_distr_l, E, Hz. }
  assert (Info.tx_burst (port s1) = Info.tx_burst (port s)) as Eb.
  { rewrite E1. exact (f_equal Info.tx_burst (pr_port _ _ Hrel)). }
  split; [|done]. split.
  - unfold queue. rewrite E1. etrans; [|exact id_queue0]. exact (f_equal Q.m_table (pr_q _ _ Hrel qid)).
  - by rewrite Eb.
  - rewrite E1. exact Ht.
  - rewrite Ef. apply set_bits_word; [done|]. split; [discriminate|reflexivity].
  - change (tst_bits (Info.port_flags (port s1)) SENDING_PACKETS = true). rewrite Ef.
    apply tst_set_bits; [|reflexivity]. by destruct Hw.
  - by apply Hother.
  - by apply Hother.
Qed.

(** C1. A started port sends exactly its transmit count.  From an idle port with the
    count [c > 0] and bursts of [b], a transmit core that takes [n + 1] turns
    with [c <= n * b] sends [c] packets, neither more nor fewer however the
    driver slices the bursts, and then clears the sending flag by itself;
    further turns send nothing.  The pools are assumed not to run dry: a turn
    is charged for its burst even when fewer mbufs could be allocated. *)
Theorem transmit_exact_count (D fuel n : nat) (qid : Z) (s : dp) :
  plentiful → undisturbed → serves D → (64 * D < fuel)%nat →
  idle qid s → in_word 32 (Info.port_flags (port s)) → tst s SEND_FOREVER = false →
  1 ≤ Info.tx_burst (port s) ≤ DEFAULT_PKT_BURST →
  0 < Info.transmit_count (port s) ≤ Z.of_nat n * Info.tx_burst (port s) →
  ∃ s' fs, transmit_turns fuel (S n) qid (upd_w pktgen_start_transmitting s) = Some s' ∧
    idle qid s' ∧ sent s' = sent s ++ fs ∧ Z.of_nat (length fs) = Info.transmit_count (port s).
Proof.
  intros Hp Hu HD Hf Hi Hw Hfo Hb Hc.
  destruct (start_ready qid s Hi Hw Hfo Hb ltac:(lia)) as [Hr Hb1].
  apply (turns_ready D fuel n qid _ (upd_w pktgen_start_transmitting s) Hp Hu HD Hf); [|done].
  rewrite Hb1. lia.
Qed.

(** ** What is built into a pool's packets *)

(** The configuration of a slot, without what building it writes *)
Definition cfg (p : pkt_seq_t) : pkt_seq_t := fixed p <| Pkt.ol_flags := 0 |>.

Lemma udata_fields l b v u :
  let d := Data.set_data_len v (Data.set_buf_len b (Data.set_pkt_len l u)) in
  Data.pkt_len d = u32 l ∧ Data.buf_len d = u16 b ∧ Data.data_len d = u16 v.
Proof.
  cbn zeta. unfold Data.set_data_len, Data.set_buf_len, Data.set_pkt_len, Data.pkt_len, Data.buf_len,
    Data.data_len. pose proof (wrap_in_word 32 l ltac:(lia)) as Hl.
  pose proof (wrap_in_word 16 b ltac:(lia)) as Hb. pose proof (wrap_in_word 16 v ltac:(lia)) as Hv.
  pose proof (Z.mod_pos_bound u (2 ^ 32) ltac:(lia)) as Hu. unfold in_word in *.
  set (x := u `mod` 2 ^ 32) in *. set (L := u32 l) in *. set (B := u16 b) in *. set (V := u16 v) in *.
  assert ((x + 2 ^ 32 * L) / 2 ^ 32 = L) as -> by (symmetry; apply (Z.div_unique _ _ _ x); lia).
  set (y := (x + 2 ^ 32 * L) `mod` 2 ^ 16).
  pose proof (Z.mod_pos_bound (x + 2 ^ 32 * L) (2 ^ 16) ltac:(lia)) as Hy. fold y in Hy.
  assert ((y + 2 ^ 16 * B + 2 ^ 32 * L) / 2 ^ 16 = B + 2 ^ 16 * L) as ->
    by (symmetry; apply (Z.div_unique _ _ _ y); lia).
  split_and!.
  - assert ((V + 2 ^ 16 * (B + 2 ^ 16 * L)) / 2 ^ 32 = L) as ->
      by (symmetry; apply (Z.div_unique _ _ _ (V + 2 ^ 16 * B)); lia). apply Z.mod_small. lia.
  - assert ((V + 2 ^ 16 * (B + 2 ^ 16 * L)) / 2 ^ 16 = B + 2 ^ 16 * L) as ->
      by (symmetry; apply (Z.div_unique _ _ _ V); lia).
    symmetry. apply (Z.mod_unique _ _ L); lia.
  - symmetry. apply (Z.mod_unique _ _ (B + 2 ^ 16 * L)); lia.
Qed.

Lemma ctor_pkt_settled i i' id p t :
  settled i' = settled i → ctor_pkt i' id p t = ctor_pkt i id p t.
Proof.
  intros E. change (ctor_pkt i' id p t) with (ctor_pkt (settled i') id p t). by rewrite E.
Qed.

Lemma set_slot_eq k p w : get_pkt (set_pkt k p w) k = p.
Proof. exact (set_at_eq k p (Info.seq_pkt (info w))). Qed.
Lemma set_slot_ne k p w j : j ≠ k → get_pkt (set_pkt k p w) j = get_pkt w j.
Proof. exact (set_at_ne k j p (Info.seq_pkt (info w))). Qed.

(** What one mbuf holds after the callback: the length saved, the offload flags
    set, and the bytes of the slot [idx] rebuilt. *)
Record built (s s' : dp) (idx obj : Z) : Prop := {
  bu_len : Mb.pkt_len (mbufs s' obj) = Pkt.pktSize (slot s idx);
  bu_saved : Data.pkt_len (Mb.udata64 (mbufs s' obj)) = u32 (Pkt.pktSize (slot s idx));
  bu_dsaved : Data.data_len (Mb.udata64 (mbufs s' obj)) = u16 (Pkt.pktSize (slot s idx));
  bu_flags : ∃ p0, cfg p0 = cfg (slot s idx) ∧
    Mb.ol_flags (mbufs s' obj) = offload_flags (Info.tx_offload_capa (port s)) p0;
  bu_bytes : ∃ p0 id, cfg p0 = cfg (slot s idx) ∧
    ∀ o, 0 ≤ o < MAX_PKT_SIZE →
      ld8 (ram s') (mtod (rte_pktmbuf_reset (mbufs s obj)) + o) =
      ld8 (Pkt.hdr (fst (ctor_pkt (port s) id p0 (-1)))) o }.

(** The callback on a pool whose slot is not the range one *)
Lemma setup_cb_spec mp qid obj s idx s0 :
  setup_idx mp qid (upd_mbuf obj rte_pktmbuf_reset s) = Some (idx, s0) → idx ≠ RANGE_PKT →
  let s' := pktgen_setup_cb mp qid obj s in
  built s s' idx obj ∧
  (∀ b, b ≠ obj → mbufs s' b = mbufs s b) ∧
  (∀ x, x < mtod (rte_pktmbuf_reset (mbufs s obj)) ∨
        mtod (rte_pktmbuf_reset (mbufs s obj)) + MAX_PKT_SIZE ≤ x → ld8 (ram s') x = ld8 (ram s) x) ∧
  (∀ j, cfg (slot s' j) = cfg (slot s j)) ∧
  Info.seqIdx (port s') = Info.seqIdx (port s0).
Proof.
  intros E Hr s'. unfold s', pktgen_setup_cb. cbn zeta. rewrite E. clear s'.
  apply Z.eqb_neq in Hr. rewrite Hr.
  assert (setup_rel s s0) as Hs0 by (etrans; [apply (upd_mbuf_setup obj rte_pktmbuf_reset)|by eapply setup_idx_setup]).
  assert (mbufs s0 = mbufs (upd_mbuf obj rte_pktmbuf_reset s) ∧ ram s0 = ram s ∧
          ∀ j, slot s0 j = slot s j) as (Em & Er & Es).
  { revert E. unfold setup_idx. repeat (case_match; [by intros [= _ <-]|]). intros E.
    destruct (mp =? Q.seq_mp _); [|done]. injection E as _ <-. by case_match. }
  set (s1 := upd_w (λ w, pktgen_packet_ctor w idx (-1)) s0).
  assert (slot s1 idx = fst (ctor_pkt (port s0) (Pg.ident (g (w s0))) (slot s0 idx) (-1))) as E1.
  { change (slot s1 idx) with (get_pkt (pktgen_packet_ctor (w s0) idx (-1)) idx).
    unfold pktgen_packet_ctor. change (get_pkt (w s0) idx) with (slot s0 idx).
    destruct (ctor_pkt _ _ _ _) as [p id]. cbn [fst]. apply set_slot_eq. }
  rewrite Es, (ctor_pkt_settled (port s)) in E1 by exact (sr_port _ _ Hs0).
  set (id := Pg.ident (g (w s0))) in *. set (p := slot s1 idx) in *.
  pose proof (ctor_pkt_fixed (port s) id (slot s idx) (-1)) as Ef. rewrite <-E1 in Ef.
  assert (Pkt.pktSize p = Pkt.pktSize (slot s idx)) as Esz by exact (f_equal Pkt.pktSize Ef).
  assert (cfg p = cfg (slot s idx)) as Ec by (unfold cfg; by rewrite Ef).
  change (mbufs s1) with (mbufs s0). rewrite Em.
  set (s2 := upd_ram _ s1).
  change (slot s2 idx) with p. set (s3 := upd_mbuf obj (setup_mbuf p) s2).
  change (slot s3 idx) with p. change (Info.tx_offload_capa (port s3)) with (Info.tx_offload_capa (port s1)).
  assert (Info.tx_offload_capa (port s1) = Info.tx_offload_capa (port s)) as ->.
  { assert (setup_rel s s1) as Hs1 by (etrans; [exact Hs0|apply packet_ctor_setup]).
    exact (f_equal Info.tx_offload_capa (sr_port _ _ Hs1)). }
  set (fl := offload_flags _ p). set (s4 := upd_w _ s3). set (s5 := upd_mbuf obj _ s4).
  assert (∀ b, mbufs s5 b = if decide (b = obj)
            then setup_mbuf p (rte_pktmbuf_reset (mbufs s obj)) <| Mb.ol_flags := fl |> else mbufs s b) as Em5.
  { intros b. unfold s5. rewrite mbufs_upd. change (mbufs s4) with (mbufs s3). unfold s3. rewrite !mbufs_upd.
    change (mbufs s2) with (mbufs s0). rewrite Em, !mbufs_upd. by repeat case_decide. }
  assert (mtod (mbufs (upd_mbuf obj rte_pktmbuf_reset s) obj) = mtod (rte_pktmbuf_reset (mbufs s obj))) as Emt
    by (by rewrite mbufs_upd, decide_True).
  assert (ram s5 = copy_hdr (Pkt.hdr p) (mtod (rte_pktmbuf_reset (mbufs s obj))) MAX_PKT_SIZE (ram s)) as Er5.
  { change (ram s5) with (ram s2). unfold s2. rewrite Emt. cbn [ram upd_ram upd]. by rewrite <-Er. }
  split_and!.
  - split.
    + rewrite Em5, decide_True by done. exact Esz.
    + rewrite Em5, decide_True by done. rewrite <-Esz. apply udata_fields.
    + rewrite Em5, decide_True by done. rewrite <-Esz. apply udata_fields.
    + exists p. split; [exact Ec|]. by rewrite Em5, decide_True by done.
    + exists (slot s idx), id. split; [done|]. intros o Ho. rewrite Er5, <-E1.
      unfold copy_hdr, ld8 at 1. range_cases. rewrite Z.add_simpl_l. unfold ld8 at 1. by rewrite wrap_wrap.
  - intros b Hb. by rewrite Em5, decide_False.
  - intros x Hx. rewrite Er5. unfold copy_hdr, ld8. by range_cases.
  - intros j. change (slot s5 j) with (slot s4 j). destruct (decide (j = idx)) as [->|Hne].
    + transitivity (cfg (slot s3 idx)); [|exact Ec].
      change (slot s4 idx) with (get_pkt (set_pkt idx (slot s3 idx <| Pkt.ol_flags := fl |>) (w s3)) idx).
      by rewrite set_slot_eq.
    + change (slot s4 j) with (get_pkt (set_pkt idx (slot s3 idx <| Pkt.ol_flags := fl |>) (w s3)) j).
      rewrite set_slot_ne by done. change (get_pkt (w s3) j) with (slot s1 j).
      pose proof (packet_ctor_slot (w s0) idx (-1) j) as Ej. unfold cfg.
      change (fixed (slot s1 j) = fixed (slot s0 j)) in Ej. by rewrite Ej, Es.
  - change (Info.seqIdx (port s5)) with (Info.seqIdx (port s1)).
    change (Info.seqIdx (info (pktgen_packet_ctor (w s0) idx (-1))) = Info.seqIdx (port s0)).
    by destruct (packet_ctor_eq (w s0) idx (-1)) as (? & ? & ->).
Qed.

(** ** Iterating over a pool *)

(** Where the data of an mbuf starts once it is reset *)
Definition home (s : dp) (a : Z) : Z := mtod (rte_pktmbuf_reset (mbufs s a)).

(** Buffers that a packet of [MAX_PKT_SIZE] bytes fits in *)
Definition homes_apart (s : dp) (l : list Z) : Prop :=
  NoDup l ∧ ∀ a b, a ∈ l → b ∈ l → a ≠ b →
    home s a + MAX_PKT_SIZE ≤ home s b ∨ home s b + MAX_PKT_SIZE ≤ home s a.

(** [built] looks at a slot's configuration and the settled port only. *)
Lemma built_mono s1 s2 s3 s4 idx obj :
  setup_rel s1 s2 → (∀ j, cfg (slot s2 j) = cfg (slot s1 j)) → home s2 obj = home s1 obj →
  mbufs s4 obj = mbufs s3 obj →
  (∀ o, 0 ≤ o < MAX_PKT_SIZE → ld8 (ram s4) (home s2 obj + o) = ld8 (ram s3) (home s2 obj + o)) →
  built s2 s3 idx obj → built s1 s4 idx obj.
Proof.
  intros Hs Hc Hh Hm Hb [B1 B2 B3 (p & B4 & B4') (p0 & id & B5 & B6)].
  assert (Pkt.pktSize (slot s2 idx) = Pkt.pktSize (slot s1 idx)) as Esz by exact (f_equal Pkt.pktSize (Hc idx)).
  rewrite Esz in *. split; rewrite ?Hm; try done.
  - exists p. rewrite <-(Hc idx). split; [done|]. rewrite B4'. f_equal.
    exact (f_equal Info.tx_offload_capa (sr_port _ _ Hs)).
  - exists p0, id. rewrite <-(Hc idx). split; [done|]. intros o Ho. fold (home s1 obj). rewrite <-Hh, Hb by done.
    unfold home. rewrite B6 by done. by rewrite (ctor_pkt_settled (port s1)) by apply (sr_port _ _ Hs).
Qed.

(** The slots a pool's objects are built from, in order, and where [seqIdx] ends up *)
Fixpoint idx_run (next : Z → Z * Z) (n : nat) (c : Z) : list Z * Z :=
  match n with
  | O => ([], c)
  | S n => let '(k, c) := next c in let '(l, c) := idx_run next n c in (k :: l, c)
  end.

(** A pool whose choice of slot depends on [seqIdx] only, by [next], as long as
    [seqIdx] is below [n] *)
Definition chooses (mp qid : Z) (s : dp) (n : Z) (next : Z → Z * Z) : Prop :=
  ∀ s', setup_rel s s' → 0 ≤ Info.seqIdx (port s') < n →
  ∃ s0, setup_idx mp qid s' = Some (fst (next (Info.seqIdx (port s'))), s0) ∧
    Info.seqIdx (port s0) = snd (next (Info.seqIdx (port s'))) ∧
    0 ≤ snd (next (Info.seqIdx (port s'))) < n ∧
    fst (next (Info.seqIdx (port s'))) ≠ RANGE_PKT.

Lemma chooses_rel mp qid s s' n next :
  setup_rel s s' → chooses mp qid s n next → chooses mp qid s' n next.
Proof. intros Hs Hc s'' Hs''. apply Hc. by etrans. Qed.

Lemma obj_iter_spec mp qid n next l s :
  chooses mp qid s n next → homes_apart s l → 0 ≤ Info.seqIdx (port s) < n →
  let s' := obj_iter mp qid l s in
  let '(ks, c) := idx_run next (length l) (Info.seqIdx (port s)) in
  Info.seqIdx (port s') = c ∧
  (∀ b, b ∉ l → mbufs s' b = mbufs s b) ∧
  (∀ x, (∀ a, a ∈ l → x < home s a ∨ home s a + MAX_PKT_SIZE ≤ x) → ld8 (ram s') x = ld8 (ram s) x) ∧
  ∀ i a k, l !! i = Some a → ks !! i = Some k → built s s' k a.
Proof.
  revert s. induction l as [|a l IH]; intros s Hc [Hnd Hap] Hi; cbn [length idx_run obj_iter]; [done|].
  apply NoDup_cons in Hnd as [Hal Hnd].
  destruct (Hc (upd_mbuf a rte_pktmbuf_reset s)) as (s0 & E0 & E1 & E3 & E2);
    [apply upd_mbuf_setup|done|].
  change (Info.seqIdx (port (upd_mbuf a rte_pktmbuf_reset s))) with (Info.seqIdx (port s)) in *.
  destruct (next (Info.seqIdx (port s))) as [k c1]. cbn [fst snd] in *.
  destruct (setup_cb_spec mp qid a s k s0 E0 E2) as (Hbu & Hm & Hx & Hcfg & Hq).
  set (s1 := pktgen_setup_cb mp qid a s) in *. fold (home s a) in Hx.
  pose proof (setup_cb_setup mp qid a s) as Hs1. fold s1 in Hs1.
  assert (∀ b, b ∈ l → b ≠ a) as Hne by (intros b Hb ->; done).
  assert (∀ b, b ∈ l → home s1 b = home s b) as Hhome
    by (intros b Hb; unfold home; by rewrite Hm by by apply Hne).
  assert (homes_apart s1 l) as Hap1.
  { split; [done|]. intros b b' Hb Hb' Hn. rewrite !Hhome by done. apply Hap; [by right..|done]. }
  specialize (IH s1 (chooses_rel _ _ _ _ _ _ Hs1 Hc) Hap1). rewrite Hq, E1 in IH. specialize (IH E3).
  destruct (idx_run next (length l) c1) as [ks c]. cbn zeta in IH.
  destruct IH as (I1 & I2 & I3 & I4). split_and!.
  - done.
  - intros b Hb. apply not_elem_of_cons in Hb as [Hb1 Hb2]. by rewrite I2, Hm.
  - intros x Hx'. rewrite I3, Hx; [done|apply Hx'; by left|].
    intros b Hb. rewrite Hhome by done. apply Hx'. by right.
  - intros [|i] b j Hb Hj.
    + injection Hb as <-. injection Hj as <-.
      eapply (built_mono s s s1); [reflexivity|done|done|by apply I2| |done].
      intros o Ho. apply I3. intros b Hb. rewrite Hhome by done.
      destruct (Hap a b) as [?|?]; [by left|by right|by apply not_eq_sym, Hne|lia..].
    + cbn in Hb, Hj. assert (b ∈ l) as Hbl by by eapply list_elem_of_lookup_2.
      eapply (built_mono s s1 (obj_iter mp qid l s1)); [done|done|by apply Hhome|done|done|by eapply I4].
Qed.

Definition seq_next (n c : Z) : Z * Z := (c, (c + 1) `mod` n).

Lemma idx_run_seq n m c :
  1 ≤ n → 0 ≤ c < n →
  let '(ks, c') := idx_run (seq_next n) m c in
  c' = (c + Z.of_nat m) `mod` n ∧ ∀ i, (i < m)%nat → ks !! i = Some ((c + Z.of_nat i) `mod` n).
Proof.
  intros Hn. revert c. induction m as [|m IH]; intros c Hc; cbn [idx_run seq_next].
  { rewrite Z.add_0_r, Z.mod_small by done. split; [done|lia]. }
  specialize (IH ((c + 1) `mod` n) (Z.mod_pos_bound (c + 1) n ltac:(lia))).
  destruct (idx_run (seq_next n) m ((c + 1) `mod` n)) as [ks c']. destruct IH as [-> IH].
  assert (∀ x, ((c + 1) `mod` n + x) `mod` n = (c + (x + 1)) `mod` n) as Ha.
  { intros x. rewrite Zplus_mod_idemp_l. f_equal. lia. }
  split; [rewrite Ha; f_equal; lia|]. intros [|i] Hi; cbn [lookup list_lookup].
  - rewrite Z.add_0_r, Z.mod_small by done. done.
  - change ((c :: ks) !! S i) with (ks !! i). rewrite IH, Ha by lia. do 2 f_equal. lia.
Qed.

(** [mp] is the sequence pool of the queue and no other. *)
Definition is_seq_pool (mp : Z) (q : q_info) : Prop :=
  mp = Q.seq_mp q ∧ mp ≠ Q.tx_mp q ∧ mp ≠ Q.rate_mp q ∧ mp ≠ Q.range_mp q ∧ mp ≠ Q.pcap_mp q.

Lemma seq_pool_chooses mp qid s n :
  is_seq_pool mp (Info.q (port s) qid) → Info.seqCnt (port s) = n → 1 ≤ n ≤ NUM_SEQ_PKTS →
  chooses mp qid s n (seq_next n).
Proof.
  intros (P1 & P2 & P3 & P4 & _) Hn Hb s' Hs Hi. cbn [seq_next fst snd]. unfold NUM_SEQ_PKTS in Hb.
  pose proof (sr_q _ _ Hs qid) as Hq. apply (f_equal (λ q, (Q.seq_mp q, Q.tx_mp q, Q.rate_mp q, Q.range_mp q))) in Hq.
  injection Hq as Q1 Q2 Q3 Q4. unfold setup_idx.
  change (Q.tx_mp (Info.q (port s') qid)) with (Q.tx_mp (Info.q (port s') qid)).
  rewrite Q1, Q2, Q3, Q4, <-P1, Z.eqb_refl.
  apply Z.eqb_neq in P2, P3, P4. rewrite P2, P3, P4. eexists. split; [reflexivity|].
  set (c := Info.seqIdx (port s')) in *. set (s1 := upd_port _ s').
  assert (Info.seqCnt (port s1) = n) as -> by (rewrite <-Hn; exact (f_equal Info.seqCnt (sr_port _ _ Hs))).
  assert (Info.seqIdx (port s1) = c + 1) as E.
  { change (Info.seqIdx (port s1)) with (u16 (c + 1)). apply wrap_small. unfold in_word. lia. }
  rewrite E. split; [|split; [apply Z.mod_pos_bound; lia|unfold RANGE_PKT; lia]].
  destruct (Z.leb_spec n (c + 1)).
  - assert (c + 1 = n) as -> by lia. by rewrite Z.mod_same by lia.
  - rewrite E, Z.mod_small by lia. done.
Qed.

(** The single packet's pool *)
Lemma tx_pool_chooses qid s :
  chooses (Q.tx_mp (Info.q (port s) qid)) qid s (2 ^ 16) (λ c, (SINGLE_PKT, c)).
Proof.
  intros s' Hs Hi. pose proof (f_equal Q.tx_mp (sr_q _ _ Hs qid)) as Hq.
  change (Q.tx_mp (Info.q (port s') qid) = Q.tx_mp (Info.q (port s) qid)) in Hq.
  unfold setup_idx. rewrite Hq, Z.eqb_refl. by eexists.
Qed.

Lemma idx_run_const k m c :
  idx_run (λ c, (k, c)) m c = (replicate m k, c).
Proof. induction m as [|m IH]; [done|]. cbn [idx_run replicate]. by rewrite IH. Qed.

Lemma setup_packets_iter mp qid s :
  mp ≠ Q.pcap_mp (Info.q (port s) qid) →
  ∃ s1, setup_rel s s1 ∧ mbufs s1 = mbufs s ∧ ram s1 = ram s ∧ (∀ j, slot s1 j = slot s j) ∧
    Info.seqIdx (port s1) = Info.seqIdx (port s) ∧
    pktgen_setup_packets mp qid s = obj_iter mp qid (mempool_objs mp) s1.
Proof.
  intros Hne. unfold pktgen_setup_packets. cbn zeta. set (s1 := upd_port _ s).
  assert (setup_rel s s1) as Hs1
    by (apply (q_flags_setup (λ x, x <| Q.flags ::= λ v, clr_bits v CLEAR_FAST_ALLOC_FLAG |>)); done).
  exists s1. split_and!; [done..|].
  assert (Q.pcap_mp (Info.q (port s1) qid) = Q.pcap_mp (Info.q (port s) qid)) as ->
    by exact (f_equal Q.pcap_mp (sr_q _ _ Hs1 qid)).
  by destruct (Z.eqb_spec mp (Q.pcap_mp (Info.q (port s) qid))).
Qed.

(** C16. Sequence mode deals the sequence's slots out in turn: setting up the
    sequence pool of a queue builds its objects, in the order of the pool,
    from slots [c], [c + 1], ... modulo the sequence count, starting at the
    port's [seqIdx] and leaving it at the next slot.  Each object gets the
    length of its slot, also where allocation will look for it later, and the
    bytes of that slot's packet as the header constructors make it. *)
Theorem sequence_round_robin (mp qid n : Z) (s : dp) :
  is_seq_pool mp (Info.q (port s) qid) → Info.seqCnt (port s) = n → 1 ≤ n ≤ NUM_SEQ_PKTS →
  homes_apart s (mempool_objs mp) → 0 ≤ Info.seqIdx (port s) < n →
  let s' := pktgen_setup_packets mp qid s in
  Info.seqIdx (port s') = (Info.seqIdx (port s) + Z.of_nat (length (mempool_objs mp))) `mod` n ∧
  ∀ i a, mempool_objs mp !! i = Some a →
    built s s' ((Info.seqIdx (port s) + Z.of_nat i) `mod` n) a.
Proof.
  intros Hp Hn Hb Hap Hi. destruct (setup_packets_iter mp qid s) as (s1 & Hs1 & Em & Er & Es & Eq & ->);
    [apply Hp|]. rewrite <-Eq in Hi.
  assert (homes_apart s1 (mempool_objs mp)) as Hap1 by (unfold homes_apart, home in *; by rewrite Em).
  pose proof (obj_iter_spec mp qid n (seq_next n) (mempool_objs mp) s1
    (chooses_rel _ _ _ _ _ _ Hs1 (seq_pool_chooses mp qid s n Hp Hn Hb)) Hap1 Hi) as O.
  pose proof (idx_run_seq n (length (mempool_objs mp)) (Info.seqIdx (port s1)) ltac:(lia) Hi) as R.
  destruct (idx_run _ _ _) as [ks c]. destruct R as [-> R]. destruct O as (O1 & _ & _ & O4).
  rewrite Eq in *. split; [done|]. intros i a Ha.
  eapply (built_mono s s1); [done| | |done|done|].
  - intros j. by rewrite Es.
  - unfold home. by rewrite Em.
  - eapply O4; [done|]. apply R. by eapply lookup_lt_Some.
Qed.

(** ** What reaches the driver *)

Lemma send_burst_some fuel qid s s' :
  pktgen_send_burst fuel qid s = Some s' →
  burst_rel (set_queue qid [] s) s' ∧ ∃ k fs, sent s' = sent s ++ fs ∧
    f_mbuf <$> fs = take k (queue s qid) ∧
    Forall (λ f, f_len f = Mb.pkt_len (mbufs s (f_mbuf f)) ∧
                 f_ol_flags f = Mb.ol_flags (mbufs s (f_mbuf f))) fs.
Proof.
  unfold pktgen_send_burst. destruct (Nat.eqb_spec (length (queue s qid)) 0) as [E|E].
  - intros [= <-]. apply nil_length_inv in E. split; [by apply set_queue_nil_rel|].
    exists 0%nat, []. rewrite app_nil_r. by split_and!.
  - intros Es. destruct (send_loop_sent _ _ _ _ _ _ _ _ Es) as (Hr & (k & fs & E1 & E2 & _ & E4 & _) & _).
    split; [done|]. by exists k, fs.
Qed.

(** With nothing queued, all that goes out comes fresh from the pool. *)
Lemma send_pkts_frames fuel qid mp s s' :
  queue s qid = [] → pktgen_send_pkts fuel qid mp s = Some s' →
  ∃ fs, sent s' = sent s ++ fs ∧
    Forall (λ f, f_len f = Data.pkt_len (Mb.udata64 (mbufs s (f_mbuf f))) ∧ f_ol_flags f = 0) fs.
Proof.
  intros Hq. unfold pktgen_send_pkts.
  assert (∃ r s1, take_count s = (r, s1) ∧ queue s1 qid = [] ∧ sent s1 = sent s ∧ mbufs s1 = mbufs s)
    as (r & s1 & -> & Hq1 & Hs1 & Hm1).
  { unfold take_count. destruct (negb _); [|by eexists _, _].
    destruct (pkt_atomic64_tx_count _ _). case_match; by eexists _, _. }
  destruct r as [txCnt|].
  2:{ intros E. destruct (send_burst_some _ _ _ _ E) as (_ & k & fs & E1 & E2 & _).
      exists fs. rewrite E1. split; [by rewrite <-Hs1|].
      change (queue (upd_w _ s1) qid) with (queue s1 qid) in E2. rewrite Hq1, take_nil in E2.
      by destruct fs. }
  cbn zeta. set (n := if _ <? _ then _ else _).
  pose proof (alloc_bulk_spec mp (Z.to_nat n) s1) as A.
  destruct (pg_pktmbuf_alloc_bulk mp (Z.to_nat n) s1) as [l s2]. destruct A as (_ & Ha & _).
  case_match; [done|]. intros E. destruct (send_burst_some _ _ _ _ E) as (_ & k & fs & E1 & E2 & E3).
  assert (queue s2 qid = []) as Hq2 by (unfold queue, port; rewrite (rr_w _ _ _ Ha); exact Hq1).
  rewrite queue_set_eq, Hq2 in E2. cbn [app] in E2. exists fs.
  split; [rewrite E1; change (sent (set_queue qid _ s2)) with (sent s2); by rewrite (rr_sent _ _ _ Ha), Hs1|].
  rewrite Forall_forall in *. intros f Hf. destruct (E3 f Hf) as [-> ->].
  change (mbufs (set_queue qid _ s2)) with (mbufs s2).
  assert (f_mbuf f ∈ l) as Hl.
  { apply (list_elem_of_fmap_2 f_mbuf) in Hf. rewrite E2 in Hf.
    by apply elem_of_take in Hf as (i & Hf%list_elem_of_lookup_2 & _). }
  destruct (rr_saved _ _ _ Ha _ Hl) as (-> & _ & ->). by rewrite Hm1.
Qed.

Lemma offload_flags_ipv4 capa p :
  Pkt.ethType p = PG_ETHER_TYPE_IPv4 → tst_bits capa DEV_TX_OFFLOAD_IPV4_CKSUM = true →
  Z.testbit (offload_flags capa p) 54 = true.
Proof.
  intros E1 E2. unfold offload_flags. rewrite E1, E2, Z.eqb_refl. repeat case_match;
    rewrite ?Z.lor_spec; reflexivity.
Qed.

(** The life of a single-mode packet from its pool to the driver.  Setting the
    pool up stores the packet's length and the offload requests the device is
    capable of in every object; a packet sent from that pool has the length it
    was built with, but no offload request is left, since the reset on
    allocation clears [ol_flags] and restores the lengths only. *)
Theorem offload_flags_lost (fuel : nat) (qid : Z) (s s2 : dp) :
  let mp := Q.tx_mp (Info.q (port s) qid) in
  let s1 := pktgen_setup_packets mp qid s in
  let p := slot s SINGLE_PKT in
  mp ≠ Q.pcap_mp (Info.q (port s) qid) → homes_apart s (mempool_objs mp) →
  in_word 16 (Info.seqIdx (port s)) → in_word 16 (Pkt.pktSize p) → queue s qid = [] →
  pktgen_send_pkts fuel qid mp s1 = Some s2 →
  (∀ a, a ∈ mempool_objs mp →
     Mb.pkt_len (mbufs s1 a) = Pkt.pktSize p ∧
     (Pkt.ethType p = PG_ETHER_TYPE_IPv4 →
      tst_bits (Info.tx_offload_capa (port s)) DEV_TX_OFFLOAD_IPV4_CKSUM = true →
      Z.testbit (Mb.ol_flags (mbufs s1 a)) 54 = true)) ∧
  ∃ fs, sent s2 = sent s ++ fs ∧
    Forall (λ f, f_ol_flags f = 0 ∧ (f_mbuf f ∈ mempool_objs mp → f_len f = Pkt.pktSize p)) fs.
Proof.
  intros mp s1 p Hne Hap Hi Hsz Hq Hsend.
  pose proof (setup_packets_setup mp qid s) as Hs. fold s1 in Hs.
  assert (∀ a, a ∈ mempool_objs mp → built s s1 SINGLE_PKT a) as Hb.
  { destruct (setup_packets_iter mp qid s Hne) as (s0 & Hs0 & Em & Er & Es & Eq & E).
    assert (homes_apart s0 (mempool_objs mp)) as Hap0 by (unfold homes_apart, home in *; by rewrite Em).
    pose proof (obj_iter_spec mp qid (2 ^ 16) (λ c, (SINGLE_PKT, c)) (mempool_objs mp) s0
      (chooses_rel _ _ _ _ _ _ Hs0 (tx_pool_chooses qid s)) Hap0 ltac:(by rewrite Eq)) as O.
    rewrite idx_run_const in O. destruct O as (_ & _ & _ & O4). rewrite <-E in O4.
    intros a Ha. apply list_elem_of_lookup in Ha as [i Ha].
    eapply (built_mono s s0); [done|intros j; by rewrite Es|unfold home; by rewrite Em|done|done|].
    eapply O4; [done|]. apply lookup_replicate. split; [done|]. by eapply lookup_lt_Some. }
  split.
  - intros a Ha. destruct (Hb a Ha) as [B1 _ _ (p0 & B4 & ->) _]. split; [exact B1|]. intros He Hc.
    apply offload_flags_ipv4; [|done]. rewrite <-He. exact (f_equal Pkt.ethType B4).
  - destruct (send_pkts_frames fuel qid mp s1 s2) as (fs & E & F); [by rewrite (sr_queue _ _ qid Hs)|done|].
    exists fs. split; [by rewrite E, (sr_sent _ _ Hs)|]. eapply Forall_impl; [exact F|].
    cbn. intros f [Hl ->]. split; [done|]. intros Hf. rewrite Hl, (bu_saved _ _ _ _ (Hb _ Hf)).
    apply wrap_small. unfold in_word in *. fold p. lia.
Qed.

(** A turn that finds packets queued, as ARP and ping requests are, and a count
    smaller than their number sends a whole burst more than it should: the
    16-bit difference wraps around and is cut down to the burst.  When the
    queue and the burst exceed the 64 entries of [m_table], the mbufs are
    stored past its end. *)
Theorem short_count_overruns (fuel : nat) (qid mp c : Z) (s : dp) :
  plentiful → tst s SEND_FOREVER = false → Info.current_tx_count (port s) = c →
  1 ≤ Info.tx_burst (port s) ≤ DEFAULT_PKT_BURST →
  let L := Z.of_nat (length (queue s qid)) in
  0 < c < L → L ≤ Info.tx_burst (port s) →
  ∃ pkts s1, Z.of_nat (length pkts) = Info.tx_burst (port s) ∧
    pktgen_send_pkts fuel qid mp s =
    if DEFAULT_PKT_BURST <? L + Info.tx_burst (port s) then None
    else pktgen_send_burst fuel qid (set_queue qid (queue s qid ++ pkts) s1).
Proof.
  intros Hp Hf Hc Hb L HL HL2. unfold pktgen_send_pkts, take_count. rewrite Hf, Hc. cbn [negb].
  unfold pkt_atomic64_tx_count, run_alone, tx_count_body.
  destruct (Z.eqb_spec c 0); [lia|]. destruct (Z.ltb_spec (Info.tx_burst (port s)) c); [lia|].
  destruct (Z.eqb_spec c 0); [lia|]. set (s0 := upd_port _ s).
  change (queue s0 qid) with (queue s qid). fold L.
  change (Info.tx_burst (port s0)) with (Info.tx_burst (port s)). unfold DEFAULT_PKT_BURST in *.
  assert (u16 (c - L) = 65536 + (c - L)) as ->.
  { symmetry. apply (Z.mod_unique _ _ (-1)); lia. }
  destruct (Z.ltb_spec (Info.tx_burst (port s)) (65536 + (c - L))); [|lia].
  pose proof (alloc_bulk_spec mp (Z.to_nat (Info.tx_burst (port s))) s0) as A.
  destruct (pg_pktmbuf_alloc_bulk _ _ s0) as [l s2]. destruct A as (_ & Ha & Hl).
  specialize (Hl (Hp _ _ (Z.to_nat (Info.tx_burst (port s))) ltac:(lia))).
  exists l, s2. split; [lia|].
  assert (queue s2 qid = queue s qid) as -> by (unfold queue, port; by rewrite (rr_w _ _ _ Ha)).
  replace (Z.of_nat (length l)) with (Info.tx_burst (port s)) by lia. reflexivity.
Qed.

End Transmit.

(** ** Witnesses *)

Lemma demo_plentiful : plentiful.
Proof.
  intros k mp n Hn. cbn. destruct (Nat.leb_spec n 64); [by eexists|lia].
Defined.
Lemma demo_undisturbed : undisturbed.
Proof. intros k. reflexivity. Defined.

(** An idle port with ten packets to send *)
Definition demo_idle : dp :=
  upd_port (λ i, i <| Info.port_flags := 0 |> <| Info.transmit_count := 10 |>) demo_dp.

Lemma transmit_exact_count_witness :
  ∃ s' fs, transmit_turns 65 4 0 (upd_w pktgen_start_transmitting demo_idle) = Some s' ∧
    idle 0 s' ∧ sent s' = sent demo_idle ++ fs ∧ Z.of_nat (length fs) = 10.
Proof.
  apply (transmit_exact_count 1 65 3 0 demo_idle demo_plentiful demo_undisturbed demo_env_serves).
  - lia.
  - split; vm_compute; reflexivity.
  - vm_compute. split; congruence.
  - vm_compute. reflexivity.
  - vm_compute. split; congruence.
  - vm_compute. split; congruence.
Defined.

(** A sequence of three packets, the second next *)
Definition demo_seq : dp :=
  upd_port (λ i, i <| Info.seqCnt := 3 |> <| Info.seqIdx := 1 |>) demo_dp.

Lemma demo_homes mp s :
  (∀ a, mbufs s a = Mb.mk (4096 * a) 128 60 60 2176 0 0) → homes_apart s (seqZ (100 * mp) 8).
Proof.
  intros Hm. split; [apply NoDup_seqZ|]. intros a b _ _ Hne. unfold home. rewrite !Hm.
  unfold mtod. cbn. unfold MAX_PKT_SIZE, PG_ETHER_MAX_LEN, PG_ETHER_CRC_LEN. lia.
Defined.

Lemma sequence_round_robin_witness :
  let s' := pktgen_setup_packets 4 0 demo_seq in
  Info.seqIdx (port s') = 0 ∧ built demo_seq s' 2 401.
Proof.
  destruct (sequence_round_robin 4 0 3 demo_seq) as [E B].
  - vm_compute. repeat split; congruence.
  - reflexivity.
  - unfold NUM_SEQ_PKTS. lia.
  - exact (demo_homes 4 demo_seq (λ a, eq_refl)).
  - vm_compute. split; congruence.
  - split; [exact E|]. exact (B 1%nat 401 eq_refl).
Defined.

(** A device that computes IPv4 checksums *)
Definition demo_offload : dp :=
  upd_port (λ i, i <| Info.tx_offload_capa := DEV_TX_OFFLOAD_IPV4_CKSUM |>
                   <| Info.current_tx_count := 2 |>) demo_dp.

Lemma offload_flags_lost_witness :
  ∃ s2 fs, pktgen_send_pkts 65 0 1 (pktgen_setup_packets 1 0 demo_offload) = Some s2 ∧
    sent s2 = sent demo_offload ++ fs ∧
    Forall (λ f, f_ol_flags f = 0 ∧ (f_mbuf f ∈ seqZ 100 8 → f_len f = 96)) fs.
Proof.
  pose proof (offload_flags_lost 65 0 demo_offload) as T. cbn zeta in T.
  destruct (pktgen_send_pkts 65 0 1 (pktgen_setup_packets 1 0 demo_offload)) as [s2|] eqn:E.
  - destruct (T s2) as (_ & fs & F1 & F2).
    + vm_compute. congruence.
    + exact (demo_homes 1 demo_offload (λ a, eq_refl)).
    + vm_compute. split; congruence.
    + vm_compute. split; congruence.
    + reflexivity.
    + exact E.
    + exists s2, fs. split; [reflexivity|]. split; [exact F1|exact F2].
  - exfalso. apply (f_equal (λ o, match o with Some _ => true | None => false end)) in E.
    vm_compute in E. discriminate E.
Defined.

(** Seventeen requests queued, bursts of 64 and five packets left *)
Definition demo_requests : dp :=
  set_queue 0 (seqZ 500 17)
    (upd_port (λ i, i <| Info.tx_burst := 64 |> <| Info.current_tx_count := 5 |>) demo_dp).

Lemma short_count_overruns_witness : pktgen_send_pkts 99 0 1 demo_requests = None.
Proof.
  destruct (short_count_overruns 99 0 1 5 demo_requests demo_plentiful) as (pkts & s1 & _ & E).
  - vm_compute. reflexivity.
  - vm_compute. reflexivity.
  - vm_compute. split; congruence.
  - vm_compute. split; congruence.
  - vm_compute. congruence.
  - exact E.
Defined.
