(* ===== verification/Receive.v ===== *)
(** * Receiving

    [pktgen_main_receive] of [app/pktgen.c] and what it calls: the latency and
    jitter accounting of [pktgen_recv_tstamp], the classification of packets
    with its handlers, the dump of [app/pktgen-dump.c] and the capture.  The
    packets are those [rte_eth_rx_burst] delivers; prefetching them is left out. *)
From S2P Require Import Prelude Mem Cksum RandomBits Inet PortInfo Headers Range Commands Mbuf Capture Burst Special.

Abbreviation port := Mbuf.port.

(** Comparisons that the context decides *)
Ltac decide_bools :=
  repeat match goal with
  | |- context [?a =? ?c] =>
      first [replace (a =? c) with true by (symmetry; apply Z.eqb_eq; lia)
            |replace (a =? c) with false by (symmetry; apply Z.eqb_neq; lia)]
  | |- context [?a <=? ?c] =>
      first [replace (a <=? c) with true by (symmetry; apply Z.leb_le; lia)
            |replace (a <=? c) with false by (symmetry; apply Z.leb_gt; lia)]
  | |- context [?a <? ?c] =>
      first [replace (a <? c) with true by (symmetry; apply Z.ltb_lt; lia)
            |replace (a <? c) with false by (symmetry; apply Z.ltb_ge; lia)]
  end; cbn [andb].

Section Receive.
Context `{Env}.

(** ** Time stamps *)

Definition tstamp_account (lat : Z) (i : port_info_t) : port_info_t :=
  let i := i <| Info.avg_latency ::= λ v, u64 (v + lat) |> in
  let jitter := if Info.prev_latency i <? lat then u64 (lat - Info.prev_latency i)
                else u64 (Info.prev_latency i - lat) in
  let i := if Info.max_latency i <? lat then i <| Info.max_latency := lat |> else i in
  let i := if Info.jitter_threshold_clks i <? jitter
           then i <| Info.jitter_count ::= λ v, u64 (v + 1) |> else i in
  i <| Info.prev_latency := lat |>.

Definition recv_one (seq_idx a : Z) (s : dp) : dp :=
  let p := pktgen_tstamp_pointer (port s) (mbufs s a) seq_idx in
  if ld16 (ram s) (p + 8) =? TSTAMP_MAGIC then
    let lat := u64 (tsc (now s) - ld64 (ram s) p) in
    upd_port (tstamp_account lat) (tick s)
  else upd_port (λ i, i <| Info.magic_errors ::= λ v, u32 (v + 1) |>) s.

Fixpoint recv_all (seq_idx : Z) (pkts : list Z) (s : dp) : dp :=
  match pkts with
  | [] => s
  | a :: pkts => recv_all seq_idx pkts (recv_one seq_idx a s)
  end.

Definition pktgen_recv_tstamp (pkts : list Z) (s : dp) : dp :=
  let flags := Info.port_flags (port s) in
  let seq_idx := stamp_idx flags in
  if tst_bits flags (SEND_LATENCY_PKTS ||| SEND_RATE_PACKETS) then
    let s := recv_all seq_idx pkts s in
    upd_port (λ i, i <| Info.latency_nb_pkts ::= λ v, u32 (v + Z.of_nat (length pkts)) |>) s
  else s.

(** ** Classification *)

(** [ntohs(eth->ether_type)] *)
Definition pktgen_packet_type (a : Z) (s : dp) : Z :=
  ntohs (ld16 (ram s) (mtod (mbufs s a) + 12)).

Definition inc (n : Z) : Z := u64 (n + 1).

(** The counter of a packet type *)
Definition count_type (pType : Z) (x : pkt_stats_t) : pkt_stats_t :=
  if pType =? PG_ETHER_TYPE_ARP then x <| Stats.arp_pkts ::= inc |>
  else if pType =? PG_ETHER_TYPE_IPv4 then x <| Stats.ip_pkts ::= inc |>
  else if pType =? PG_ETHER_TYPE_IPv6 then x <| Stats.ipv6_pkts ::= inc |>
  else if pType =? PG_ETHER_TYPE_VLAN then x <| Stats.vlan_pkts ::= inc |>
  else x.

(** The handler of a packet type, for input processing *)
Definition process_type (fuel : nat) (pType a : Z) (s : dp) : option dp :=
  if pType =? PG_ETHER_TYPE_ARP then pktgen_process_arp fuel a 0 s
  else if pType =? PG_ETHER_TYPE_IPv4 then pktgen_process_ping4 fuel a 0 s
  else if pType =? PG_ETHER_TYPE_IPv6 then Some (pktgen_process_ping6 a 0 s)
  else if pType =? PG_ETHER_TYPE_VLAN then pktgen_process_vlan fuel a s
  else Some s.

(** The counter of a packet length, the CRC included *)
Definition count_size (plen : Z) (z : port_sizes_t) : port_sizes_t :=
  if plen =? PG_ETHER_MIN_LEN then z <| Sizes._64 ::= inc |>
  else if (PG_ETHER_MIN_LEN + 1 <=? plen) && (plen <=? 127) then z <| Sizes._65_127 ::= inc |>
  else if (128 <=? plen) && (plen <=? 255) then z <| Sizes._128_255 ::= inc |>
  else if (256 <=? plen) && (plen <=? 511) then z <| Sizes._256_511 ::= inc |>
  else if (512 <=? plen) && (plen <=? 1023) then z <| Sizes._512_1023 ::= inc |>
  else if (1024 <=? plen) && (plen <=? PG_ETHER_MAX_LEN) then z <| Sizes._1024_1518 ::= inc |>
  else if plen <? PG_ETHER_MIN_LEN then z <| Sizes.runt ::= inc |>
  else if PG_ETHER_MAX_LEN <? plen then z <| Sizes.jumbo ::= inc |>
  else z <| Sizes.unknown ::= inc |>.

(** [(uint64_t * )buf_addr + data_off] counts in units of eight bytes. *)
Definition count_cast (m : mem) (b : rte_mbuf) (z : port_sizes_t) : port_sizes_t :=
  let first := ld8 m (Mb.buf_addr b + Mb.data_off b) in
  if first =? 0xFF then
    if Z.land (ld64 m (Mb.buf_addr b + 8 * Mb.data_off b)) 0xFFFFFFFFFFFF0000 =? 0xFFFFFFFFFFFF0000
    then z <| Sizes.broadcast ::= inc |>
    else if negb (Z.land first 1 =? 0) then z <| Sizes.multicast ::= inc |> else z
  else z.

Definition upd_sizes (f : port_sizes_t → port_sizes_t) (s : dp) : dp :=
  upd_port (λ i, i <| Info.sizes ::= f |>) s.

(** [strip] is [pktgen_get_hw_strip_crc()]. *)
Definition pktgen_packet_classify (fuel : nat) (strip a : Z) (s : dp) : option dp :=
  let pType := pktgen_packet_type a s in
  let plen := Mb.pkt_len (mbufs s a) in
  let flags := Info.port_flags (port s) in
  s ← (if tst_bits flags (PROCESS_INPUT_PKTS ||| PROCESS_RX_TAP_PKTS) then
         let s := if tst_bits flags PROCESS_RX_TAP_PKTS
                  then tick (if tap_write (now s) then s <| tapped ::= λ l, l ++ [frame_of s a] |> else s)
                  else s in
         process_type fuel pType a (upd_stats (count_type pType) s)
       else Some (upd_stats (count_type pType) s));
  let plen := u32 (plen + strip) in
  let s := upd_sizes (count_size plen) s in
  Some (upd_sizes (count_cast (ram s) (mbufs s a)) s).

Fixpoint pktgen_packet_classify_bulk (fuel : nat) (strip : Z) (pkts : list Z) (s : dp) : option dp :=
  match pkts with
  | [] => Some s
  | a :: pkts =>
      s ← pktgen_packet_classify fuel strip a s; pktgen_packet_classify_bulk fuel strip pkts s
  end.

(** ** Dump: one copy per packet, of its only segment *)

Definition pktgen_packet_dump (a : Z) (s : dp) : option dp :=
  let m := mbufs s a in
  let plen := Mb.pkt_len m + PG_ETHER_CRC_LEN in
  let t := Info.dump_tail (port s) in
  let data := zmalloc (now s) in
  let s := tick s in
  if data =? 0 then None
  else
    let s := upd_ram (λ r, memset r data 0 plen) s in
    let s := upd_port (λ i, i <| Info.dump_list ::= set_at t data |>) s in
    let s := s <| dump_lens ::= set_at t plen |> in
    let s := upd_ram (λ r, memcpy r data (mtod m) (Mb.data_len m)) s in
    Some (upd_port (λ i, i <| Info.dump_tail := t + 1 |>) s).

Fixpoint dump_pkts (pkts : list Z) (s : dp) : option dp :=
  match pkts with
  | [] => Some s
  | a :: pkts => s ← pktgen_packet_dump a s; dump_pkts pkts s
  end.

Definition pktgen_packet_dump_bulk (pkts : list Z) (s : dp) : option dp :=
  let nb := Z.of_nat (length pkts) in
  let nb := if Info.dump_count (port s) <? nb then Info.dump_count (port s) else nb in
  let nb := if MAX_DUMP_PACKETS - Info.dump_tail (port s) <? nb
            then MAX_DUMP_PACKETS - Info.dump_tail (port s) else nb in
  if nb =? 0 then Some s
  else
    s ← dump_pkts (take (Z.to_nat nb) pkts) s;
    Some (upd_port (λ i, i <| Info.dump_count ::= λ v, v - nb |>) s).

(** ** A turn of a receive core *)

(** The packets come with the clock's value when the capture looks at them. *)
Definition with_clock (s : dp) (pkts : list Z) : list (rte_mbuf * Z) :=
  imap (λ k a, (mbufs s a, tsc (now s + k))) pkts.

Definition capture_step (lid : Z) (pkts : list Z) (cap : capture_t) (s : dp) : capture_t * dp :=
  if tst s CAPTURE_PKTS && (Capture.port cap =? Info.pid (port s)) && (lcore cap =? lid) then
    let '(cap, m) := pktgen_packet_capture_bulk (with_clock s pkts) (cap, ram s) in
    (cap, s <| ram := m |>)
  else (cap, s).

(** [pkts] is what [rte_eth_rx_burst] delivered; [cap] is the capture of the
    receiving lcore's socket. *)
Definition pktgen_main_receive (fuel : nat) (strip lid : Z) (pkts : list Z) (cap : capture_t) (s : dp)
    : option (capture_t * dp) :=
  if (length pkts =? 0)%nat then Some (cap, s)
  else
    let s := pktgen_recv_tstamp pkts s in
    s ← pktgen_packet_classify_bulk fuel strip pkts s;
    s ← (if 0 <? Info.dump_count (port s) then pktgen_packet_dump_bulk pkts s else Some s);
    let '(cap, s) := capture_step lid pkts cap s in
    Some (cap, s <| freed ::= λ l, l ++ pkts |>).

(** ** The latency of a stamped packet *)

Lemma stamp_offset i i' m m' idx :
  0 ≤ mtod m → mtod m + 2048 < 2 ^ 64 → 0 ≤ mtod m' → mtod m' + 2048 < 2 ^ 64 →
  hdrs_len i' idx = hdrs_len i idx → mtod m' `mod` 8 = mtod m `mod` 8 →
  pktgen_tstamp_pointer i' m' idx - mtod m' = pktgen_tstamp_pointer i m idx - mtod m.
Proof.
  intros A0 A1 B0 B1 Hh Hm. rewrite !tstamp_pointer_eq, Hh by done. set (h := hdrs_len i idx).
  assert (∀ x, 8 * ((x + h + 7) / 8) - x = 8 * ((x `mod` 8 + h + 7) / 8) - x `mod` 8) as E.
  { intros x. pose proof (Z.div_mod x 8 ltac:(lia)).
    replace (x + h + 7) with (x `mod` 8 + h + 7 + x / 8 * 8) at 1 by lia.
    rewrite Z.div_add by lia. lia. }
  by rewrite (E (mtod m')), (E (mtod m)), Hm.
Qed.

Lemma recv_one_stamped idx a s k :
  stamped k (ram s) (pktgen_tstamp_pointer (port s) (mbufs s a) idx) →
  recv_one idx a s = upd_port (tstamp_account (u64 (tsc (now s) - tsc k))) (tick s).
Proof.
  intros [Hk Hm]. unfold recv_one. cbn zeta. rewrite Hm, Z.eqb_refl, Hk. cbn zeta.
  unfold wrap. by rewrite Zminus_mod_idemp_r.
Qed.

(** C8. The latency measured for a packet is the time from its last offer to the
    driver to its reception.  In the latency and rate modes, without random
    bits, the i-th frame that goes out is the i-th packet of the queue and
    carries the magic and the clock's reading at the moment of that packet's
    turn in the offer at which the driver took it: [offer_clocks] says which
    reading this is, from what the driver took at each offer and how many
    packets were stamped before; a packet left over is stamped anew at each
    offer.  A receiver whose buffer has the same alignment finds the stamp
    behind the headers, and what it adds to the averages is its own clock's
    reading less that one, modulo 2^64.  All other bytes of the frame, its UDP
    checksum included, are those it had before the stamp was written over its
    payload. *)
Theorem latency_roundtrip (fuel : nat) (qid : Z) (s s' : dp) :
  tst s (SEND_LATENCY_PKTS ||| SEND_RATE_PACKETS) = true → tst s SEND_RANDOM_PKTS = false →
  buffers_ok s (queue s qid) → NoDup (queue s qid) →
  (0 < fuel)%nat → pktgen_send_burst fuel qid s = Some s' →
  let idx := stamp_idx (Info.port_flags (port s)) in
  let clocks := offer_clocks fuel (tst s PROCESS_TX_TAP_PKTS) (length (queue s qid)) (now s) (bursts s) in
  ∃ fs, sent s' = sent s ++ fs ∧ f_mbuf <$> fs = take (length fs) (queue s qid) ∧
  Forall2 (λ f k,
    let off := stamp_at s idx (f_mbuf f) - mtod (mbufs s (f_mbuf f)) in
    (∀ o, 0 ≤ o < 2048 → o < off ∨ off + 10 ≤ o →
       f_byte f o = ld8 (ram s) (mtod (mbufs s (f_mbuf f)) + o)) ∧
    ∀ (r : dp) (a : Z),
      tst r (SEND_LATENCY_PKTS ||| SEND_RATE_PACKETS) = true →
      stamp_idx (Info.port_flags (port r)) = idx → hdrs_len (port r) idx = hdrs_len (port s) idx →
      0 ≤ mtod (mbufs r a) → mtod (mbufs r a) + 2048 < 2 ^ 64 →
      mtod (mbufs r a) `mod` 8 = mtod (mbufs s (f_mbuf f)) `mod` 8 →
      (∀ o, 0 ≤ o < 128 → ld8 (ram r) (mtod (mbufs r a) + o) = ld8 (f_byte f) o) →
      pktgen_recv_tstamp [a] r =
        upd_port (λ i, i <| Info.latency_nb_pkts ::= λ v, u32 (v + 1) |>)
          (upd_port (tstamp_account (u64 (tsc (now r) - tsc k))) (tick r))) fs (take (length fs) clocks).
Proof.
  intros Hts Hrnd Hbuf Hnd Hf E idx clocks. destruct (send_burst_unfold fuel qid s Hf) as
    (idx' & tap & rnd & ts & -> & Etap & -> & -> & Hnil & Hcons). fold idx in Hcons.
  unfold clocks. rewrite <-Etap.
  destruct (decide (queue s qid = [])) as [Eq|Eq].
  { exists []. rewrite (Hnil Eq) in E. injection E as <-. rewrite app_nil_r. by split_and!; [..|constructor]. }
  rewrite (Hcons Eq), Hts, Hrnd in E. clear Hnil Hcons.
  destruct (send_loop_frames fuel tap idx (queue s qid) (queue s qid) (set_queue qid [] s)
    (set_queue qid [] s) s' Hbuf (λ _ Ha, Ha) Hnd ltac:(reflexivity) (λ _ _, eq_refl) E)
    as (fs & Efs & HF).
  destruct (send_loop_sent _ _ _ _ _ _ _ _ E) as (_ & (n & fs' & Efs' & Em & Hn & _) & _).
  assert (fs' = fs) as -> by (rewrite Efs in Efs'; by apply app_inv_head in Efs').
  assert (length fs = n) as En by (rewrite <-(length_fmap f_mbuf), Em, length_take; lia).
  exists fs. split; [exact Efs|]. split; [by rewrite En|].
  eapply Forall2_impl; [exact HF|]. clear HF. intros f k (Hin & Hout & Hst).
  change (stamp_at (set_queue qid [] s) idx (f_mbuf f)) with (stamp_at s idx (f_mbuf f)) in *.
  change (mbufs (set_queue qid [] s)) with (mbufs s) in *.
  change (ram (set_queue qid [] s)) with (ram s) in *.
  set (off := stamp_at s idx (f_mbuf f) - mtod (mbufs s (f_mbuf f))) in *.
  destruct (Hbuf _ Hin) as (A0 & A1 & A2).
  pose proof (tstamp_pointer_range (port s) _ idx A0 A1) as Hrange. fold (stamp_at s idx (f_mbuf f)) in Hrange.
  pose proof (hdrs_len_range (port s) idx) as Hh. cbn zeta. split.
  - intros o Ho Hoff. apply Hout. intros (b & Hb & Hx).
    change (stamp_at (set_queue qid [] s) idx b) with (stamp_at s idx b) in Hx.
    destruct (decide (b = f_mbuf f)) as [->|Hne]; [unfold off in Hoff; lia|].
    destruct (Hbuf _ Hb) as (B0 & B1 & _). pose proof (tstamp_pointer_range (port s) _ idx B0 B1) as Hr2.
    fold (stamp_at s idx b) in Hr2. destruct (A2 b Hb ltac:(congruence)); lia.
  - intros r a Hr1 Hr2 Hr3 Hr4 Hr5 Hr6 Hdel.
    set (p := pktgen_tstamp_pointer (port r) (mbufs r a) idx).
    assert (p - mtod (mbufs r a) = off) as Ep by (apply stamp_offset; done).
    assert (stamped k (ram r) p) as Hs.
    { eapply stamped_ext; [|exact Hst]. intros o Ho.
      replace (p + o) with (mtod (mbufs r a) + (off + o)) by lia. apply Hdel. unfold off. lia. }
    unfold pktgen_recv_tstamp. rewrite Hr2. change (tst_bits _ _) with
      (tst r (SEND_LATENCY_PKTS ||| SEND_RATE_PACKETS)). rewrite Hr1. cbn zeta.
    cbn [recv_all length]. by rewrite (recv_one_stamped idx a r k Hs).
Qed.

(** ** What the counters count *)

Fixpoint count_if {A} (p : A → bool) (l : list A) : Z :=
  match l with [] => 0 | x :: l => (if p x then 1 else 0) + count_if p l end.

(** The counters of lengths, with the first and the last length of each *)
Definition size_buckets : list ((port_sizes_t → Z) * (Z * Z)) :=
  [(Sizes.runt, (0, 63)); (Sizes._64, (64, 64)); (Sizes._65_127, (65, 127));
   (Sizes._128_255, (128, 255)); (Sizes._256_511, (256, 511)); (Sizes._512_1023, (512, 1023));
   (Sizes._1024_1518, (1024, 1518)); (Sizes.jumbo, (1519, 2 ^ 32 - 1)); (Sizes.unknown, (2 ^ 32, 2 ^ 32 - 1))].

Definition type_counters : list ((pkt_stats_t → Z) * Z) :=
  [(Stats.arp_pkts, PG_ETHER_TYPE_ARP); (Stats.ip_pkts, PG_ETHER_TYPE_IPv4);
   (Stats.ipv6_pkts, PG_ETHER_TYPE_IPv6); (Stats.vlan_pkts, PG_ETHER_TYPE_VLAN)].

Definition in_bucket (b : Z * Z) (plen : Z) : bool := (fst b <=? plen) && (plen <=? snd b).

(** The first range that ends at or after the length *)
Lemma count_size_cases plen z :
  0 ≤ plen < 2 ^ 32 →
  (plen ≤ 63 ∧ count_size plen z = z <| Sizes.runt ::= inc |>) ∨
  (plen = 64 ∧ count_size plen z = z <| Sizes._64 ::= inc |>) ∨
  (65 ≤ plen ≤ 127 ∧ count_size plen z = z <| Sizes._65_127 ::= inc |>) ∨
  (128 ≤ plen ≤ 255 ∧ count_size plen z = z <| Sizes._128_255 ::= inc |>) ∨
  (256 ≤ plen ≤ 511 ∧ count_size plen z = z <| Sizes._256_511 ::= inc |>) ∨
  (512 ≤ plen ≤ 1023 ∧ count_size plen z = z <| Sizes._512_1023 ::= inc |>) ∨
  (1024 ≤ plen ≤ 1518 ∧ count_size plen z = z <| Sizes._1024_1518 ::= inc |>) ∨
  (1519 ≤ plen ∧ count_size plen z = z <| Sizes.jumbo ::= inc |>).
Proof.
  intros Hp. unfold count_size, PG_ETHER_MIN_LEN, PG_ETHER_MAX_LEN.
  assert (plen ≤ 63 ∨ plen = 64 ∨ 65 ≤ plen ≤ 127 ∨ 128 ≤ plen ≤ 255 ∨ 256 ≤ plen ≤ 511 ∨
          512 ≤ plen ≤ 1023 ∨ 1024 ≤ plen ≤ 1518 ∨ 1519 ≤ plen) as C by lia.
  destruct C as [C|[C|[C|[C|[C|[C|[C|C]]]]]]];
    [left|right; left|do 2 right; left|do 3 right; left|do 4 right; left|do 5 right; left
    |do 6 right; left|do 7 right]; (split; [lia|]); decide_bools; reflexivity.
Qed.

Lemma count_size_bucket X b plen z :
  (X, b) ∈ size_buckets → 0 ≤ plen < 2 ^ 32 →
  u64 (X (count_size plen z)) = u64 (X z + if in_bucket b plen then 1 else 0).
Proof.
  intros Hin Hp. unfold size_buckets in Hin. unfold in_bucket.
  assert (∀ x, u64 (inc x) = u64 (x + 1)) as Hi by (intros x; apply wrap_wrap).
  repeat (apply elem_of_cons in Hin as [[= -> ->]|Hin]); [..|by apply elem_of_nil in Hin]; cbn [fst snd];
    destruct (count_size_cases plen z Hp) as [[C ->]|[[C ->]|[[C ->]|[[C ->]|[[C ->]|[[C ->]|[[C ->]|[C ->]]]]]]]];
    decide_bools; rewrite ?andb_false_r, ?Z.add_0_r; first [exact (Hi _)|reflexivity].
Qed.

Lemma count_type_counter X t pType x :
  (X, t) ∈ type_counters → u64 (X (count_type pType x)) = u64 (X x + if pType =? t then 1 else 0).
Proof.
  intros Hin. unfold type_counters in Hin. unfold count_type.
  assert (∀ x, u64 (inc x) = u64 (x + 1)) as Hi by (intros y; apply wrap_wrap).
  destruct (Z.eqb_spec pType PG_ETHER_TYPE_ARP) as [->|];
    [|destruct (Z.eqb_spec pType PG_ETHER_TYPE_IPv4) as [->|];
      [|destruct (Z.eqb_spec pType PG_ETHER_TYPE_IPv6) as [->|];
        [|destruct (Z.eqb_spec pType PG_ETHER_TYPE_VLAN) as [->|]]]];
    repeat (apply elem_of_cons in Hin as [[= -> ->]|Hin]); try (by apply elem_of_nil in Hin);
    first [exact (Hi _)|decide_bools; rewrite Z.add_0_r; reflexivity|
           cbn; rewrite Z.add_0_r; reflexivity].
Qed.

Lemma count_cast_keeps m b z X r :
  (X, r) ∈ size_buckets → X (count_cast m b z) = X z.
Proof.
  intros Hin. unfold size_buckets in Hin. unfold count_cast. cbn zeta.
  repeat (apply elem_of_cons in Hin as [[= -> ->]|Hin]); [..|by apply elem_of_nil in Hin];
    by repeat case_match.
Qed.

(** Broadcast and multicast together count the packets whose first byte is 0xff. *)
Definition first_ff (m : mem) (b : rte_mbuf) : bool := ld8 m (mtod b) =? 0xFF.

Lemma count_cast_sum m b z :
  u64 (Sizes.broadcast (count_cast m b z) + Sizes.multicast (count_cast m b z)) =
  u64 (Sizes.broadcast z + Sizes.multicast z + if first_ff m b then 1 else 0).
Proof.
  unfold count_cast, first_ff, mtod. cbn zeta.
  destruct (Z.eqb_spec (ld8 m (Mb.buf_addr b + Mb.data_off b)) 0xFF) as [->|].
  - change (negb (Z.land 0xFF 1 =? 0)) with true.
    assert (∀ x y, u64 (inc x + y) = u64 (x + y + 1) ∧ u64 (x + inc y) = u64 (x + y + 1)) as E.
    { intros x y. unfold inc. rewrite wrap_add_l, wrap_add_r. split; f_equal; lia. }
    case_match; [exact (proj1 (E _ _))|exact (proj2 (E _ _))].
  - by rewrite Z.add_0_r.
Qed.

(** Without input processing a packet is only counted. *)
Definition classified (strip a : Z) (s : dp) : dp :=
  upd_sizes (λ z, count_cast (ram s) (mbufs s a) (count_size (u32 (Mb.pkt_len (mbufs s a) + strip)) z))
    (upd_stats (count_type (pktgen_packet_type a s)) s).

Lemma classify_plain fuel strip a s :
  tst s (PROCESS_INPUT_PKTS ||| PROCESS_RX_TAP_PKTS) = false →
  pktgen_packet_classify fuel strip a s = Some (classified strip a s).
Proof.
  intros Hf. unfold pktgen_packet_classify. cbn zeta.
  change (tst_bits (Info.port_flags (port s)) (PROCESS_INPUT_PKTS ||| PROCESS_RX_TAP_PKTS))
    with (tst s (PROCESS_INPUT_PKTS ||| PROCESS_RX_TAP_PKTS)). by rewrite Hf.
Qed.

(** What classification looks at, and what it leaves alone *)
Definition plen_of (s : dp) (strip a : Z) : Z := u32 (Mb.pkt_len (mbufs s a) + strip).

Lemma count_if_ext {A} (p q : A → bool) l : (∀ x, p x = q x) → count_if p l = count_if q l.
Proof. intros E. induction l as [|x l IH]; [done|]. cbn [count_if]. by rewrite E, IH. Qed.

(** C36. With input processing off every received packet is counted once by its
    length: each length counter grows by the number of packets of the batch
    whose length, the CRC added where the device strips it, lies in its range,
    so that no packet is unknown; each type counter grows by the number of
    packets of its Ethernet type.  Broadcast and multicast grow together by the
    number of packets whose first byte is 0xff: group addresses that start
    with another byte are never counted. *)
Theorem classify_counts (fuel : nat) (strip : Z) (pkts : list Z) (s : dp) :
  tst s (PROCESS_INPUT_PKTS ||| PROCESS_RX_TAP_PKTS) = false →
  ∃ s', pktgen_packet_classify_bulk fuel strip pkts s = Some s' ∧
    (∀ X b, (X, b) ∈ size_buckets →
       u64 (X (Info.sizes (port s'))) =
       u64 (X (Info.sizes (port s)) + count_if (λ a, in_bucket b (plen_of s strip a)) pkts)) ∧
    (∀ X t, (X, t) ∈ type_counters →
       u64 (X (Info.stats (port s'))) =
       u64 (X (Info.stats (port s)) + count_if (λ a, pktgen_packet_type a s =? t) pkts)) ∧
    u64 (Sizes.broadcast (Info.sizes (port s')) + Sizes.multicast (Info.sizes (port s'))) =
    u64 (Sizes.broadcast (Info.sizes (port s)) + Sizes.multicast (Info.sizes (port s)) +
         count_if (λ a, first_ff (ram s) (mbufs s a)) pkts) ∧
    sent s' = sent s ∧ ram s' = ram s ∧ mbufs s' = mbufs s.
Proof.
  revert s. induction pkts as [|a pkts IH]; intros s Hf; cbn [pktgen_packet_classify_bulk].
  { exists s. cbn [count_if]. split_and!; try done; intros; by rewrite Z.add_0_r. }
  rewrite (classify_plain _ _ _ _ Hf). cbn [mbind option_bind]. set (s1 := classified strip a s).
  destruct (IH s1 Hf) as (s' & E & I1 & I2 & I3 & I4). exists s'. split; [done|].
  assert (∀ x, plen_of s1 strip x = plen_of s strip x) as Ep by done.
  split_and!; [| | |apply I4..].
  - intros X b Hin. rewrite (I1 _ _ Hin). cbn [count_if].
    change (Info.sizes (port s1)) with (count_cast (ram s) (mbufs s a)
      (count_size (plen_of s strip a) (Info.sizes (port s)))).
    rewrite (count_cast_keeps _ _ _ _ _ Hin), <-wrap_add_l, (count_size_bucket _ _ _ _ Hin).
    + rewrite wrap_add_l, <-Z.add_assoc. done.
    + apply (wrap_in_word 32). lia.
  - intros X t Hin. rewrite (I2 _ _ Hin). cbn [count_if].
    change (Info.stats (port s1)) with (count_type (pktgen_packet_type a s) (Info.stats (port s))).
    rewrite <-wrap_add_l, (count_type_counter _ _ _ _ Hin), wrap_add_l, <-Z.add_assoc. done.
  - rewrite I3. cbn [count_if].
    change (Info.sizes (port s1)) with (count_cast (ram s) (mbufs s a)
      (count_size (plen_of s strip a) (Info.sizes (port s)))).
    rewrite <-wrap_add_l, count_cast_sum, wrap_add_l.
    assert (∀ z, Sizes.broadcast (count_size (plen_of s strip a) z) = Sizes.broadcast z ∧
                 Sizes.multicast (count_size (plen_of s strip a) z) = Sizes.multicast z) as Hk.
    { intros z. unfold count_size. by repeat case_match. }
    destruct (Hk (Info.sizes (port s))) as [-> ->]. by rewrite <-Z.add_assoc.
Qed.

(** Queueing below the burst only appends. *)
Lemma send_mbuf_queues fuel m qid s :
  Z.of_nat (length (queue s qid)) + 1 < Info.tx_burst (port s) ≤ DEFAULT_PKT_BURST →
  pktgen_send_mbuf fuel m qid s = Some (set_queue qid (queue s qid ++ [m]) s).
Proof.
  intros Hb. unfold pktgen_send_mbuf, DEFAULT_PKT_BURST in *. rewrite queue_set_eq.
  change (Info.tx_burst (port (set_queue qid (queue s qid ++ [m]) s))) with (Info.tx_burst (port s)).
  rewrite length_app. cbn [length].
  destruct (Z.ltb_spec (Z.of_nat (length (queue s qid))) 64); [|lia].
  destruct (Z.leb_spec (Info.tx_burst (port s)) (Z.of_nat (length (queue s qid) + 1))); [lia|done].
Qed.

(** The lookup only reads the packet slots. *)
Lemma first_slot_ext n k p i i' :
  Info.seq_pkt i' = Info.seq_pkt i → first_slot n k p i' = first_slot n k p i.
Proof. intros E. revert k. induction n as [|n IH]; intros k; [done|]. cbn. by rewrite E, IH. Qed.

Lemma find_matching_ipsrc_ext i i' addr :
  Info.seq_pkt i' = Info.seq_pkt i → Info.seqCnt i' = Info.seqCnt i →
  pktgen_find_matching_ipsrc i' addr = pktgen_find_matching_ipsrc i addr.
Proof.
  intros E1 E2. unfold pktgen_find_matching_ipsrc. by rewrite (first_slot_ext _ _ _ _ _ E1), E1, E2.
Qed.

(** What stays of the state when a request is answered into the transmit queue *)
Lemma queue_set_q_flags qid f s : queue (set_q_flags qid f s) qid = queue s qid.
Proof.
  unfold queue, set_q_flags, upd_port, upd_w, pktgen_set_q_flags, upd_q, port.
  change (Q.m_table (set_at qid (Info.q (info (w s)) qid <| Q.flags ::= λ v, set_bits v f |>)
    (Info.q (info (w s))) qid) = Q.m_table (Info.q (info (w s)) qid)).
  by rewrite set_at_eq.
Qed.

Lemma arp_request_queued fuel a k s :
  let eth := mtod (mbufs s a) in
  let v := arp_view (ram s) eth (arp_of eth 0) in
  tst s PROCESS_GARP_PKTS = false → tst_bits (Pg.flags (g (w s))) MAC_FROM_ARP_FLAG = false →
  a_op v = ARP_REQUEST → pktgen_find_matching_ipsrc (port s) (htonl (a_tip v)) = Some k →
  Z.of_nat (length (queue s 0)) + 1 < Info.tx_burst (port s) ≤ DEFAULT_PKT_BURST →
  ∃ s', pktgen_process_arp fuel a 0 s = Some s' ∧
    queue s' 0 = queue s 0 ++ [a] ∧ freed s' = freed s ∧ sent s' = sent s ∧
    Info.dump_count (port s') = Info.dump_count (port s) ∧
    Info.port_flags (port s') = Info.port_flags (port s).
Proof.
  intros eth v Hgarp Hmac Hop Hk Hq. unfold pktgen_process_arp. cbn zeta. fold eth.
  destruct (ip_raw (ram s) eth (arp_of eth 0)) as [_ Et]. fold v in Et.
  pose proof (op_raw (ram s) eth (arp_of eth 0)) as Eo. fold v in Eo. rewrite Hop in Eo.
  rewrite Eo, Et, Z.eqb_refl, Hgarp, Hk, Hmac. cbn [andb].
  rewrite send_mbuf_queues by exact Hq. cbn [mbind option_bind]. eexists. split; [reflexivity|].
  split; [|done]. rewrite queue_set_q_flags. apply queue_set_eq.
Qed.

(** An ARP request that is answered is freed while it is still queued.  The
    handler turns the received mbuf into the reply and queues it, so that no
    free is needed, but the receive loop frees all mbufs of the batch: the
    buffer goes back to its pool with the transmit queue still pointing to it. *)
Theorem answered_request_freed (fuel : nat) (strip lid a k : Z) (cap : capture_t) (s : dp) :
  let eth := mtod (mbufs s a) in
  let v := arp_view (ram s) eth (arp_of eth 0) in
  tst s (SEND_LATENCY_PKTS ||| SEND_RATE_PACKETS) = false →
  tst s PROCESS_INPUT_PKTS = true → tst s PROCESS_RX_TAP_PKTS = false →
  tst s CAPTURE_PKTS = false → Info.dump_count (port s) = 0 →
  pktgen_packet_type a s = PG_ETHER_TYPE_ARP →
  tst s PROCESS_GARP_PKTS = false → tst_bits (Pg.flags (g (w s))) MAC_FROM_ARP_FLAG = false →
  a_op v = ARP_REQUEST → pktgen_find_matching_ipsrc (port s) (htonl (a_tip v)) = Some k →
  Z.of_nat (length (queue s 0)) + 1 < Info.tx_burst (port s) ≤ DEFAULT_PKT_BURST →
  ∃ s', pktgen_main_receive fuel strip lid [a] cap s = Some (cap, s') ∧
    queue s' 0 = queue s 0 ++ [a] ∧ freed s' = freed s ++ [a] ∧ sent s' = sent s.
Proof.
  intros eth v Hlat Hin Htap Hcap Hdump Htype Hgarp Hmac Hop Hk Hq.
  unfold pktgen_main_receive. cbn [length Nat.eqb]. unfold pktgen_recv_tstamp.
  change (tst_bits (Info.port_flags (port s)) (SEND_LATENCY_PKTS ||| SEND_RATE_PACKETS))
    with (tst s (SEND_LATENCY_PKTS ||| SEND_RATE_PACKETS)). rewrite Hlat. cbn zeta.
  cbn [pktgen_packet_classify_bulk]. unfold pktgen_packet_classify. cbn zeta.
  change (tst_bits (Info.port_flags (port s)) PROCESS_RX_TAP_PKTS) with (tst s PROCESS_RX_TAP_PKTS).
  change (tst_bits (Info.port_flags (port s)) (PROCESS_INPUT_PKTS ||| PROCESS_RX_TAP_PKTS))
    with (tst s (PROCESS_INPUT_PKTS ||| PROCESS_RX_TAP_PKTS)).
  assert (tst s (PROCESS_INPUT_PKTS ||| PROCESS_RX_TAP_PKTS) = true) as ->.
  { revert Hin. unfold tst, tst_flags, pktgen_tst_port_flags, tst_bits. rewrite Z.land_lor_distr_r.
    rewrite !negb_true_iff, !Z.eqb_neq. intros Hne [E _]%Z.lor_eq_0_iff. done. }
  rewrite Htap, Htype. cbn zeta.
  set (s1 := upd_stats (count_type PG_ETHER_TYPE_ARP) s).
  change (process_type fuel PG_ETHER_TYPE_ARP a s1) with (pktgen_process_arp fuel a 0 s1).
  rewrite <-(find_matching_ipsrc_ext (port s) (port s1) _ eq_refl eq_refl) in Hk.
  destruct (arp_request_queued fuel a k s1 Hgarp Hmac Hop Hk Hq) as (s2 & -> & Eq & Ef & Es & Ed & Ep).
  change (queue s1 0) with (queue s 0) in Eq. change (Info.dump_count (port s1)) with (Info.dump_count (port s)) in Ed.
  change (Info.port_flags (port s1)) with (Info.port_flags (port s)) in Ep.
  change (freed s1) with (freed s) in Ef. change (sent s1) with (sent s) in Es.
  clearbody s1. cbn [mbind option_bind].
  set (s3 := upd_sizes _ (upd_sizes _ s2)).
  change (Info.dump_count (port s3)) with (Info.dump_count (port s2)). rewrite Ed, Hdump.
  change (0 <? 0) with false. cbn [mbind option_bind]. unfold capture_step.
  assert (tst s3 CAPTURE_PKTS = tst s CAPTURE_PKTS) as ->.
  { unfold tst, tst_flags, pktgen_tst_port_flags. exact (f_equal (λ f, tst_bits f CAPTURE_PKTS) Ep). }
  rewrite Hcap. cbn [andb].
  eexists. split; [reflexivity|]. split; [exact Eq|]. split; [|exact Es].
  exact (f_equal (λ l, l ++ [a]) Ef).
Qed.

End Receive.

(** ** Witnesses *)

Lemma classify_counts_witness :
  ∃ s', pktgen_packet_classify_bulk 9 0 [7; 8] demo_dp = Some s' ∧
    u64 (Sizes.runt (Info.sizes (port s'))) = 2.
Proof.
  destruct (classify_counts 9 0 [7; 8] demo_dp) as (s' & E & B & _); [vm_compute; reflexivity|].
  exists s'. split; [exact E|]. rewrite (B Sizes.runt (0, 63)); [vm_compute; reflexivity|].
  unfold size_buckets. apply list_elem_of_here.
Defined.

(** A port in latency mode with three packets queued *)
Definition demo_latency : dp :=
  set_queue 0 [7; 8; 9] (upd_w (set_flags SEND_LATENCY_PKTS) demo_dp).

Lemma demo_latency_queue : queue demo_latency 0 = [7; 8; 9].
Proof. unfold demo_latency. apply queue_set_eq. Qed.

Lemma demo_latency_mtod a : mtod (mbufs demo_latency a) = 4096 * a + 128.
Proof. reflexivity. Qed.

Lemma demo_latency_aligned a : mtod (mbufs demo_latency a) `mod` 8 = 0.
Proof.
  rewrite demo_latency_mtod. replace (4096 * a + 128) with ((512 * a + 16) * 8) by lia.
  by apply Z.mod_mul.
Qed.

Lemma demo_latency_buffers : buffers_ok demo_latency (queue demo_latency 0).
Proof.
  rewrite demo_latency_queue.
  intros a Ha. rewrite demo_latency_mtod.
  assert (7 ≤ a ≤ 9) by (rewrite !elem_of_cons, elem_of_nil in Ha; lia).
  split; [lia|]. split; [lia|]. intros b _ Hne. rewrite demo_latency_mtod. lia.
Qed.

(** The frame is received in the buffer of mbuf 7. *)
Definition demo_received (f : frame) : dp := demo_latency <| ram := λ b, f_byte f (b - 28800) |>.

Lemma demo_received_bytes f o :
  ld8 (ram (demo_received f)) (mtod (mbufs (demo_received f) 7) + o) = ld8 (f_byte f) o.
Proof.
  assert (mtod (mbufs (demo_received f) 7) = 28800) as -> by (vm_compute; reflexivity).
  change (ld8 (λ b, f_byte f (b - 28800)) (28800 + o) = ld8 (f_byte f) o).
  unfold ld8. by replace (28800 + o - 28800) with o by lia.
Qed.

Lemma demo_received_aligned f a :
  mtod (mbufs (demo_received f) 7) `mod` 8 = mtod (mbufs demo_latency a) `mod` 8.
Proof. etrans; [|symmetry; exact (demo_latency_aligned a)]. vm_compute. reflexivity. Qed.

(** The driver takes the first packet at its first offer and the others, stamped
    anew, at its second. *)
Lemma latency_roundtrip_witness :
  ∃ s' fs, pktgen_send_burst 9 0 demo_latency = Some s' ∧ sent s' = sent demo_latency ++ fs ∧
    f_mbuf <$> fs = [7; 8; 9] ∧
    Forall2 (λ f k, pktgen_recv_tstamp [7] (demo_received f) =
      upd_port (λ i, i <| Info.latency_nb_pkts ::= λ v, u32 (v + 1) |>)
        (upd_port (tstamp_account (u64 (tsc (now (demo_received f)) - tsc k)))
           (tick (demo_received f)))) fs [1; 5; 6]%nat.
Proof.
  destruct (pktgen_send_burst 9 0 demo_latency) as [s'|] eqn:E.
  - destruct (latency_roundtrip 9 0 demo_latency s') as (fs & E1 & E2 & F).
    + vm_compute. reflexivity.
    + vm_compute. reflexivity.
    + exact demo_latency_buffers.
    + rewrite demo_latency_queue. by apply (bool_decide_unpack _).
    + lia.
    + exact E.
    + rewrite demo_latency_queue in E2, F.
      assert (length fs = 3%nat) as En.
      { apply (f_equal (option_map (λ s, length (sent s)))) in E.
        change (option_map (λ s, length (sent s)) (Some s')) with (Some (length (sent s'))) in E.
        rewrite E1, length_app in E. vm_compute in E. by injection E. }
      rewrite En in E2, F. exists s', fs. split; [reflexivity|]. split; [exact E1|]. split; [exact E2|].
      eapply Forall2_impl; [exact F|]. clear F. intros f k [_ T].
      refine (T (demo_received f) 7 _ _ _ _ _ _ (λ o _, demo_received_bytes f o));
        [vm_compute; reflexivity..| | |].
      * vm_compute. congruence.
      * vm_compute. reflexivity.
      * exact (demo_received_aligned f (f_mbuf f)).
  - exfalso. apply (f_equal (λ o, match o with Some _ => true | None => false end)) in E.
    vm_compute in E. discriminate E.
Defined.

(** The peer of [Special] with input processing on *)
Definition demo_input : dp :=
  upd_port (λ i, i <| Info.port_flags := PROCESS_INPUT_PKTS |>) demo_peer.
Definition no_capture : capture_t := mk_capture None 0 0 0 RTE_MAX_LCORE RTE_MAX_ETHPORTS.

Lemma answered_request_freed_witness :
  ∃ s', pktgen_main_receive 9 0 1 [5] no_capture demo_input = Some (no_capture, s') ∧
    queue s' 0 = [5] ∧ freed s' = [5].
Proof.
  destruct (answered_request_freed 9 0 1 5 SINGLE_PKT no_capture demo_input)
    as (s' & E1 & E2 & E3 & _); try (vm_compute; reflexivity).
  - vm_compute. split; [reflexivity|congruence].
  - exists s'. split; [exact E1|]. split; [exact E2|exact E3].
Defined.
