(* ===== verification/PcapFile.v ===== *)
(** * PCAP files

    [lib/common/pg_pcap.c] and the playback of [app/pktgen-pcap.c]: a file is
    opened, its packets are counted, and a pool is created whose objects are
    filled from the file again, from its start whenever it ends.  A stream of
    the C library is the file's bytes and a position; the page that shows the
    packets is not modelled. *)
From S2P Require Import Prelude Mem RandomBits Inet PortInfo Headers Range Commands Pacing Mbuf Burst Capture.

(** ** Streams *)

Record stream := mk_stream { bytes : list Z; pos : nat }.
#[global] Instance eta_stream : Eta stream := λ f, mk_stream (bytes f) (pos f).

(** [fread(buf, 1, n, fd)]: what was read, and the stream behind it *)
Definition fread (n : nat) (f : stream) : list Z * stream :=
  let l := take n (drop (pos f) (bytes f)) in
  (l, f <| pos := (pos f + length l)%nat |>).
(** [fseek(fd, n, SEEK_CUR)], [fseek(fd, n, SEEK_SET)]; a stream may be set behind
    its end. *)
Definition fseek_cur (n : nat) (f : stream) : stream := f <| pos ::= Nat.add n |>.
Definition fseek_set (n : nat) (f : stream) : stream := f <| pos := n |>.
Definition rewind (f : stream) : stream := f <| pos := 0%nat |>.

(** Little-endian objects of a list of bytes *)
Fixpoint le_word (n : nat) (l : list Z) : Z :=
  match n, l with
  | S n, b :: l => u8 b + 256 * le_word n l
  | _, _ => 0
  end.
Definition le_at (i n : nat) (l : list Z) : Z := le_word n (drop i l).

(** Memory that is not initialised, [l] read into its start *)
Definition read_into (l : list Z) (m : Z → Z) : Z → Z :=
  λ o, if (0 <=? o) && (o <? Z.of_nat (length l)) then default 0 (l !! Z.to_nat o) else m o.

(** ** Headers *)

Definition PCAP_MAGIC_NUMBER := 0xa1b2c3d4.
Definition BIG_ENDIAN := 4321.
Definition LITTLE_ENDIAN := 1234.
Definition sizeof_pcap_hdr := 24%nat.
Definition sizeof_pcaprec_hdr := 16%nat.

Record pcap_hdr_t := mk_hdr {
  magic_number : Z; version_major : Z; version_minor : Z; thiszone : Z; sigfigs : Z; snaplen : Z;
  network : Z }.
Definition hdr_of (l : list Z) : pcap_hdr_t :=
  mk_hdr (le_at 0 4 l) (le_at 4 2 l) (le_at 6 2 l) (s32 (le_at 8 4 l)) (le_at 12 4 l) (le_at 16 4 l) (le_at 20 4 l).

Record pcaprec_hdr_t := mk_rec_hdr { ts_sec : Z; ts_usec : Z; incl_len : Z; orig_len : Z }.
#[global] Instance eta_rec_hdr : Eta pcaprec_hdr_t := λ h,
  mk_rec_hdr (ts_sec h) (ts_usec h) (incl_len h) (orig_len h).
Definition rec_hdr_of (l : list Z) : pcaprec_hdr_t :=
  mk_rec_hdr (le_at 0 4 l) (le_at 4 4 l) (le_at 8 4 l) (le_at 12 4 l).

(** The open file: stream, byte order and file header.  The counts of
    [pcap_info_t] are those of [PortInfo]. *)
Record pcap_t := mk_pcap { fd : stream; endian : Z; hdr : pcap_hdr_t }.
#[global] Instance eta_pcap_file : Eta pcap_t := λ p, mk_pcap (fd p) (endian p) (hdr p).

(** ** pg_pcap.c *)

Definition big_endian_hdr (h : pcap_hdr_t) : pcap_hdr_t :=
  mk_hdr (ntohl (magic_number h)) (ntohs (version_major h)) (ntohs (version_minor h)) (s32 (ntohl (u32 (thiszone h))))
         (ntohl (sigfigs h)) (ntohl (snaplen h)) (ntohl (network h)).

(** [file] is what [fopen] finds, [None] for [NULL]; [malloc] is whether there is
    memory. *)
Definition _pcap_open (malloc : bool) (file : option (list Z)) : option pcap_t :=
  if negb malloc then None
  else
    content ← file;
    let '(l, fd) := fread sizeof_pcap_hdr (mk_stream content 0) in
    if negb (length l =? sizeof_pcap_hdr)%nat then None
    else
      let h := hdr_of l in
      if negb (magic_number h =? PCAP_MAGIC_NUMBER) && negb (magic_number h =? ntohl PCAP_MAGIC_NUMBER)
      then None
      else if magic_number h =? ntohl PCAP_MAGIC_NUMBER
      then Some (mk_pcap fd BIG_ENDIAN (big_endian_hdr h))
      else Some (mk_pcap fd LITTLE_ENDIAN h).

Definition _pcap_convert (p : pcap_t) (h : pcaprec_hdr_t) : pcaprec_hdr_t :=
  if endian p =? BIG_ENDIAN
  then mk_rec_hdr (ntohl (ts_sec h)) (ntohl (ts_usec h)) (ntohl (incl_len h)) (ntohl (orig_len h))
  else h.

Definition _pcap_rewind (p : pcap_t) : pcap_t :=
  p <| fd := fseek_set sizeof_pcap_hdr (rewind (fd p)) |>.

(** [while (skip--)] *)
Fixpoint skip_loop (skip : nat) (p : pcap_t) : pcap_t :=
  match skip with
  | O => p
  | S skip =>
      let '(l, f) := fread sizeof_pcaprec_hdr (fd p) in
      let p := p <| fd := f |> in
      if negb (length l =? sizeof_pcaprec_hdr)%nat then p
      else
        let h := _pcap_convert p (rec_hdr_of l) in
        skip_loop skip (p <| fd ::= fseek_cur (Z.to_nat (incl_len h)) |>)
  end.
Definition _pcap_skip (p : pcap_t) (skip : Z) : pcap_t := skip_loop (Z.to_nat (u32 skip)) (_pcap_rewind p).

(** The size returned, the record header if one was read, the buffer and the file *)
Definition _pcap_read (p : pcap_t) (h : pcaprec_hdr_t) (buff : Z → Z) (bufLen : Z)
    : Z * pcaprec_hdr_t * (Z → Z) * pcap_t :=
  let '(l, f) := fread sizeof_pcaprec_hdr (fd p) in
  let p := p <| fd := f |> in
  if negb (length l =? sizeof_pcaprec_hdr)%nat then (0, h, buff, p)
  else
    let h := _pcap_convert p (rec_hdr_of l) in
    if bufLen <? incl_len h
    then (incl_len h, h, buff, p <| fd ::= fseek_cur (Z.to_nat (incl_len h)) |>)
    else
      let '(l, f) := fread (Z.to_nat (incl_len h)) (fd p) in
      (Z.of_nat (length l), h, read_into l buff, p <| fd := f |>).

(** The offset and length of the payload, [None] for -1, and whether it is not empty *)
Definition _pcap_payloadOffset (m : mem) (pkt_data : Z) : option (Z * Z * bool) :=
  let iph := pkt_data + 14 in
  if negb (Z.land (ld8 m iph) 0xF0 =? 0x40) then None
  else if negb (Z.land (ld16 m (iph + 6)) (htons (Z.lor 0x2000 0x1fff)) =? 0) then None
  else
    let ihlen := Z.land (ld8 m iph) 0x0F * 4 in
    let proto := ld8 m (iph + 9) in
    thlen ← (if proto =? PG_IPPROTO_TCP then Some (Z.shiftr (ld8 m (iph + ihlen + 12)) 4 * 4)
             else if proto =? PG_IPPROTO_UDP then Some 8 else None);
    let offset := 14 + ihlen + thlen in
    let length := u32 (14 + ntohs (ld16 m (iph + 2)) - offset) in
    Some (offset, length, negb (length =? 0)).

(** ** pktgen-pcap.c *)

Definition RTE_MBUF_DEFAULT_BUF_SIZE := 2048 + RTE_PKTMBUF_HEADROOM.
Definition DEFAULT_MBUF_SIZE := RTE_MBUF_DEFAULT_BUF_SIZE + 0.
Definition MAX_MBUFS_PER_PORT := 64 * 8 * 2 * 8.
Definition sizeof_rte_mbuf := 128.

(** Packets shorter or longer than what is sent are given another length. *)
Definition adjust_len (len : Z) : Z :=
  if len <? MIN_PKT_SIZE then MIN_PKT_SIZE else if MAX_PKT_SIZE <? len then MAX_PKT_SIZE else len.

Section Playback.
(** What the buffer on the stack contains when the object at an address is
    constructed, and, for the address 0, in the parser; the sizes of a pool's
    objects *)
Context (junk : Z → Z → Z) (priv_size data_room : Z).

(** The [for (;;)] of the constructor: [None] when it is still turning.  [buffer]
    is not initialised, and is not cleared between two packets. *)
Fixpoint next_packet (fuel : nat) (p : pcap_t) (h : pcaprec_hdr_t) (buffer : Z → Z)
    : option (pcaprec_hdr_t * (Z → Z) * pcap_t) :=
  match fuel with
  | O => None
  | S fuel =>
      let '(n, h, buffer, p) := _pcap_read p h buffer DEFAULT_MBUF_SIZE in
      if n <=? 0 then next_packet fuel (_pcap_rewind p) h buffer
      else Some (h, buffer, p)
  end.

Definition init_mbuf (m : Z) : rte_mbuf :=
  let mbuf_size := sizeof_rte_mbuf + priv_size in
  let buf_len := u16 data_room in
  Mb.mk (m + mbuf_size) (Z.min RTE_PKTMBUF_HEADROOM buf_len) 0 0 buf_len 0 0.

Definition fill_mbuf (len : Z) (m : rte_mbuf) : rte_mbuf :=
  let m := m <| Mb.data_len := u16 len |> in
  let m := m <| Mb.pkt_len := len |> in
  let m := m <| Mb.udata64 ::= Data.set_pkt_len len |> in
  let m := m <| Mb.udata64 ::= Data.set_data_len len |> in
  m <| Mb.udata64 ::= Data.set_buf_len (Mb.buf_len m) |>.

(** [pktgen_pcap_mbuf_ctor] on the object at [m] *)
Definition pktgen_pcap_mbuf_ctor (fuel : nat) (m : Z) (st : pcap_t * dp) : option (pcap_t * dp) :=
  let '(p, s) := st in
  '(h, buffer, p) ← next_packet fuel p (mk_rec_hdr 0 0 0 0) (junk m);
  let len := adjust_len (incl_len h) in
  let mb := fill_mbuf len (init_mbuf m) in
  let s := upd_mbuf m (λ _, mb) s in
  let s := upd_ram (λ r b, if (mtod mb <=? b) && (b <? mtod mb + len) then u8 (buffer (b - mtod mb)) else r b) s in
  Some (p, s).

Fixpoint ctor_objs (fuel : nat) (objs : list Z) (st : pcap_t * dp) : option (pcap_t * dp) :=
  match objs with
  | [] => Some st
  | m :: objs => st ← pktgen_pcap_mbuf_ctor fuel m st; ctor_objs fuel objs st
  end.

(** The packets of the file up to the first that is empty or cut off: their number
    and the sum of their lengths *)
Fixpoint count_loop (fuel : nat) (p : pcap_t) (h : pcaprec_hdr_t) (buffer : Z → Z) (n sizes : Z)
    : option (Z * Z * pcap_t) :=
  match fuel with
  | O => None
  | S fuel =>
      let '(r, h, buffer, p) := _pcap_read p h buffer DEFAULT_MBUF_SIZE in
      if r <=? 0 then Some (n, sizes, p)
      else count_loop fuel p h buffer (u32 (n + 1)) (u64 (sizes + adjust_len (incl_len h)))
  end.

(** [rte_align32pow2] *)
Definition rte_align32pow2 (x : Z) : Z :=
  let x := u32 (x - 1) in
  let x := Z.lor x (Z.shiftr x 1) in
  let x := Z.lor x (Z.shiftr x 2) in
  let x := Z.lor x (Z.shiftr x 4) in
  let x := Z.lor x (Z.shiftr x 8) in
  let x := Z.lor x (Z.shiftr x 16) in
  u32 (x + 1).

(** [pktgen_pcap_parse]; the counts it sets are the port's when the file is [mine], the
    port's own, and else those of a file that is not looked at again.
    [mempool_create n] is a pool of [n] objects, and [None] when it cannot be made,
    which ends the program. *)
Definition pktgen_pcap_parse (fuel : nat) (mempool_create : Z → option (Z * list Z)) (mine : bool) (qid : Z)
    (st : pcap_t * dp) : option (pcap_t * dp) :=
  let '(p, s) := st in
  let p := _pcap_rewind p in
  '(elt_count, pkt_sizes, p) ← count_loop fuel p (mk_rec_hdr 0 0 0 0) (junk 0) 0 0;
  '(p, s) ← (if 0 <? elt_count then
      let s := upd_port (λ i, if mine then i <| Info.pcap := Some (Pcap.mk (u32 (pkt_sizes / elt_count)) elt_count 0) |> else i) s in
      let p := _pcap_rewind p in
      let n := rte_align32pow2 (if elt_count <? MAX_MBUFS_PER_PORT then MAX_MBUFS_PER_PORT else elt_count) in
      '(mp, objs) ← mempool_create n;
      '(p, s) ← ctor_objs fuel objs (p, s);
      let s := upd_port (λ i, upd_q i qid (λ q, q <| Q.pcap_mp := mp |>)) s in
      Some (p, upd_port (λ i, pktgen_set_port_flags i SEND_PCAP_PKTS) s)
    else Some (p, s));
  w' ← pktgen_packet_rate (w s);
  Some (p, upd_w (λ _, w') s).
End Playback.

(** ** The format

    A number of [n] bytes in either byte order; a record of a file, and a file:
    what libpcap writes for the packets of a capture, on a machine of either
    kind. *)

Fixpoint le_bytes (n : nat) (v : Z) : list Z :=
  match n with O => [] | S n => v `mod` 256 :: le_bytes n (v / 256) end.
Definition file_word (big : bool) (n : nat) (v : Z) : list Z :=
  if big then reverse (le_bytes n v) else le_bytes n v.

Definition file_header (big : bool) (h : pcap_hdr_t) : list Z :=
  file_word big 4 PCAP_MAGIC_NUMBER ++ file_word big 2 (version_major h) ++ file_word big 2 (version_minor h) ++
  file_word big 4 (thiszone h) ++ file_word big 4 (sigfigs h) ++ file_word big 4 (snaplen h) ++
  file_word big 4 (network h).
(** A captured packet and when it was captured *)
Record stamped := mk_stamped { sec : Z; usec : Z; of_rec :> pcap_rec }.
Definition file_record (big : bool) (r : stamped) : list Z :=
  (file_word big 4 (sec r) ++ file_word big 4 (usec r) ++ file_word big 4 (caplen r) ++ file_word big 4 (len r)) ++ pkt r.
Definition pcap_file (big : bool) (h : pcap_hdr_t) (recs : list stamped) : list Z :=
  file_header big h ++ mjoin (file_record big <$> recs).

(** Records as a capture makes them, none of them empty *)
Record rec_ok (r : stamped) : Prop := {
  ro_sec : in_word 32 (sec r);
  ro_usec : in_word 32 (usec r);
  ro_cap : caplen r = Z.of_nat (length (pkt r));
  ro_pos : 0 < caplen r < 2 ^ 32;
  ro_len : in_word 32 (len r);
  ro_bytes : Forall (in_word 8) (pkt r) }.

Lemma length_le_bytes n v : length (le_bytes n v) = n.
Proof. revert v. induction n as [|n IH]; intros v; [done|]. cbn. by rewrite IH. Qed.
Lemma length_file_word big n v : length (file_word big n v) = n.
Proof. unfold file_word. destruct big; rewrite ?length_reverse; apply length_le_bytes. Qed.

Lemma le_word_bytes n v rest : le_word n (le_bytes n v ++ rest) = v `mod` 256 ^ Z.of_nat n.
Proof.
  revert v. induction n as [|n IH]; intros v; [by rewrite Z.mod_1_r|].
  cbn [le_bytes app le_word]. rewrite IH, Nat2Z.inj_succ, Z.pow_succ_r by lia.
  rewrite (mod_step v) by (apply Z.pow_pos_nonneg; lia).
  f_equal. unfold u8, wrap. by rewrite Z.mod_mod.
Qed.

(** Reading a word of the other byte order swaps its bytes. *)
Lemma mod_byte x : u8 (x `mod` 256) = x `mod` 256.
Proof. unfold u8, wrap. by rewrite Z.mod_mod. Qed.
Lemma le_word4 a b c d rest :
  le_word 4 (a :: b :: c :: d :: rest) = u8 a + 256 * (u8 b + 256 * (u8 c + 256 * u8 d)).
Proof. cbn [le_word]. lia. Qed.

Lemma bswap32_bytes a b c d : in_word 8 a → in_word 8 b → in_word 8 c → in_word 8 d →
  bswap32 (a + 256 * (b + 256 * (c + 256 * d))) = d + 256 * (c + 256 * (b + 256 * a)).
Proof.
  unfold in_word. intros Ha Hb Hc Hd. rewrite bswap32_arith.
  assert (∀ x y, 0 ≤ x < 256 → (x + 256 * y) `mod` 256 = x ∧ (x + 256 * y) / 256 = y) as H.
  { intros x y Hx. split.
    - symmetry. apply (Z.mod_unique _ _ y); lia.
    - symmetry. apply (Z.div_unique _ _ _ x); lia. }
  change 65536 with (256 * 256). change 16777216 with (256 * 256 * 256).
  rewrite <-!Z.div_div by lia.
  destruct (H a (b + 256 * (c + 256 * d)) Ha) as [-> ->]. destruct (H b (c + 256 * d) Hb) as [-> ->].
  destruct (H c d Hc) as [-> ->]. rewrite Z.mod_small by lia. lia.
Qed.

Lemma word4_swap v rest : in_word 32 v → ntohl (le_word 4 (reverse (le_bytes 4 v) ++ rest)) = v.
Proof.
  intros Hv. pose proof (le_word_bytes 4 v []) as E. rewrite app_nil_r in E. cbn [le_bytes] in *.
  rewrite le_word4 in E. cbn [app reverse rev_append]. change (reverse ?l) with (rev_append l []).
  cbn [rev_append app]. rewrite le_word4, bswap32_bytes by apply (wrap_in_word 8 _ ltac:(lia)).
  rewrite E. apply Z.mod_small. exact Hv.
Qed.

Lemma file_word_value (big : bool) (v : Z) (rest : list Z) : in_word 32 v →
  (if big then ntohl (le_word 4 (file_word big 4 v ++ rest)) else le_word 4 (file_word big 4 v ++ rest)) = v.
Proof.
  intros Hv. destruct big; cbn [file_word]; [by apply word4_swap|].
  unfold file_word. rewrite le_word_bytes. apply Z.mod_small. exact Hv.
Qed.

Lemma le_at_app i n (a b : list Z) : length a = i → le_at i n (a ++ b) = le_word n b.
Proof. intros <-. unfold le_at. by rewrite drop_app_length. Qed.

Definition order_of (big : bool) : Z := if big then BIG_ENDIAN else LITTLE_ENDIAN.
Definition rec_header (big : bool) (r : stamped) : list Z :=
  file_word big 4 (sec r) ++ file_word big 4 (usec r) ++ file_word big 4 (caplen r) ++ file_word big 4 (len r).

Lemma length_rec_header big r : length (rec_header big r) = sizeof_pcaprec_hdr.
Proof. unfold rec_header. by rewrite !length_app, !length_file_word. Qed.

(** The header of a record is read in the byte order of its file. *)
Lemma convert_header big p r : endian p = order_of big → rec_ok r →
  _pcap_convert p (rec_hdr_of (rec_header big r)) = mk_rec_hdr (sec r) (usec r) (caplen r) (len r).
Proof.
  intros He [Hs Hu Hc [Hp Hp'] Hl _]. assert (in_word 32 (caplen r)) as Hcw by (unfold in_word; lia).
  unfold _pcap_convert, rec_hdr_of. rewrite He. unfold rec_header.
  assert (∀ i n a b c, length a = i → le_at i n (a ++ b ++ c) = le_word n (b ++ c)) as Hat
    by (intros; by apply le_at_app).
  set (w0 := file_word big 4 (sec r)). set (w1 := file_word big 4 (usec r)). set (wc := file_word big 4 (caplen r)). set (wl := file_word big 4 (len r)).
  assert (length w0 = 4%nat ∧ length w1 = 4%nat ∧ length wc = 4%nat) as (L0 & L1 & Lc)
    by (split_and!; apply length_file_word).
  rewrite (Hat 4%nat 4%nat w0 w1 (wc ++ wl)) by exact L0.
  replace (le_at 8 4 (w0 ++ w1 ++ wc ++ wl)) with (le_word 4 (wc ++ wl)).
  2: { rewrite (app_assoc w0 w1). symmetry. apply le_at_app. by rewrite length_app, L0, L1. }
  replace (le_at 12 4 (w0 ++ w1 ++ wc ++ wl)) with (le_word 4 (wl ++ [])).
  2: { rewrite app_nil_r, (app_assoc w0 w1), (app_assoc _ wc). symmetry. apply le_at_app.
       by rewrite !length_app, L0, L1, Lc. }
  unfold le_at. rewrite drop_0.
  pose proof (file_word_value big _ (w1 ++ wc ++ wl) Hs) as E0. pose proof (file_word_value big _ (wc ++ wl) Hu) as E1.
  pose proof (file_word_value big _ wl Hcw) as E2. pose proof (file_word_value big _ [] Hl) as E3.
  fold w0 in E0. fold w1 in E1. fold wc in E2. fold wl in E3.
  destruct big; cbn [order_of Z.eqb Pos.eqb BIG_ENDIAN LITTLE_ENDIAN ts_sec ts_usec incl_len orig_len];
    by rewrite E0, E1, E2, E3.
Qed.

(** ** Reading record by record *)

Section File.
Context (big : bool) (h : pcap_hdr_t) (recs : list stamped).

Definition offset (i : nat) : nat := (sizeof_pcap_hdr + length (mjoin (file_record big <$> take i recs)))%nat.

(** The file is open and stands before record [i]. *)
Record at_record (i : nat) (p : pcap_t) : Prop := {
  at_bytes : bytes (fd p) = pcap_file big h recs;
  at_pos : pos (fd p) = offset i;
  at_order : endian p = order_of big }.

Lemma length_header : length (file_header big h) = sizeof_pcap_hdr.
Proof. unfold file_header. by rewrite !length_app, !length_file_word. Qed.

Lemma at_rest i p : at_record i p →
  drop (pos (fd p)) (bytes (fd p)) = mjoin (file_record big <$> drop i recs).
Proof.
  intros [-> -> _]. unfold pcap_file, offset. rewrite <-length_header, <-drop_drop, drop_app_length.
  rewrite <-(take_drop i recs) at 2. rewrite fmap_app, join_app. by rewrite drop_app_length.
Qed.

Lemma offset_S i r : recs !! i = Some r → offset (S i) = (offset i + length (file_record big r))%nat.
Proof.
  intros Hr. unfold offset. rewrite (take_S_r _ _ _ Hr), fmap_app, join_app, length_app. cbn.
  rewrite app_nil_r. lia.
Qed.

Lemma file_record_eq r : file_record big r = rec_header big r ++ pkt r.
Proof. done. Qed.

Lemma read_here p i r buff hd (Hrec : rec_ok r) : recs !! i = Some r → at_record i p →
  ∃ p', at_record (S i) p' ∧
    _pcap_read p hd buff DEFAULT_MBUF_SIZE =
      (caplen r, mk_rec_hdr (sec r) (usec r) (caplen r) (len r),
       (if caplen r <=? DEFAULT_MBUF_SIZE then read_into (pkt r) buff else buff), p').
Proof.
  intros Hr Hp. pose proof (at_rest i p Hp) as Hd. rewrite (drop_S _ _ _ Hr) in Hd. cbn [fmap list_fmap mjoin list_join] in Hd.
  rewrite file_record_eq, <-!app_assoc in Hd. set (rest := mjoin _) in Hd.
  unfold _pcap_read, fread. rewrite Hd, take_app_length' by (symmetry; apply length_rec_header).
  rewrite length_rec_header, Nat.eqb_refl. cbn [negb].
  rewrite convert_header by (done || apply Hp). cbn [incl_len].
  pose proof (offset_S i r Hr) as Ho. rewrite file_record_eq, length_app, length_rec_header in Ho.
  pose proof (ro_cap r Hrec) as Hcap. assert (Z.to_nat (caplen r) = length (pkt r)) as Hn by lia.
  destruct Hp as [B P O].
  destruct (Z.ltb_spec DEFAULT_MBUF_SIZE (caplen r)) as [Hj|Hj];
    destruct (Z.leb_spec (caplen r) DEFAULT_MBUF_SIZE); try lia.
  - eexists. split; [|reflexivity]. split; [exact B| |exact O].
    cbn [fd pos fseek_cur upd]. rewrite Ho, Hn, <-P. unfold sizeof_pcaprec_hdr. cbn. lia.
  - cbn [fd pos bytes upd]. rewrite <-drop_drop, Hd, drop_app_length', Hn, take_app_length
      by (symmetry; apply length_rec_header).
    rewrite <-Hcap. eexists. split; [|reflexivity]. split; [exact B| |exact O].
    change (pos (fd p) + sizeof_pcaprec_hdr + length (pkt r) = offset (S i))%nat. lia.
Qed.

(** Behind the last record there is no more to read. *)
Lemma read_end p buff hd : at_record (length recs) p →
  ∃ p', _pcap_read p hd buff DEFAULT_MBUF_SIZE = (0, hd, buff, p') ∧ at_record (length recs) p'.
Proof.
  intros Hp. pose proof (at_rest _ p Hp) as Hd. rewrite (drop_ge recs) in Hd by lia. cbn in Hd.
  unfold _pcap_read, fread. rewrite Hd. cbn. eexists. split; [reflexivity|].
  destruct Hp as [B P O]. split; [exact B| |exact O]. cbn. by rewrite Nat.add_0_r.
Qed.

Lemma at_rewind i p : at_record i p → at_record 0 (_pcap_rewind p).
Proof. intros [B P O]. by split. Qed.

(** ** Counting *)

Definition sizes_of (l : list stamped) : Z := foldr (λ (r : stamped) s, adjust_len (caplen r) + s) 0 l.

Lemma adjust_len_range x : MIN_PKT_SIZE ≤ adjust_len x ≤ MAX_PKT_SIZE.
Proof.
  unfold adjust_len, MIN_PKT_SIZE, MAX_PKT_SIZE, PG_ETHER_MIN_LEN, PG_ETHER_MAX_LEN, PG_ETHER_CRC_LEN.
  destruct (Z.ltb_spec x (64 - 4)); [lia|]. destruct (Z.ltb_spec (1518 - 4) x); lia.
Qed.

Lemma adjust_len_ge x : Z.min x MAX_PKT_SIZE ≤ adjust_len x.
Proof.
  unfold adjust_len. destruct (Z.ltb_spec x MIN_PKT_SIZE); [lia|]. destruct (Z.ltb_spec MAX_PKT_SIZE x); lia.
Qed.

Lemma sizes_range l : Z.of_nat (length l) * 60 ≤ sizes_of l ≤ Z.of_nat (length l) * 1514.
Proof.
  induction l as [|r l IH]; [cbn; lia|]. pose proof (adjust_len_range (caplen r)) as Hr.
  unfold MIN_PKT_SIZE, MAX_PKT_SIZE, PG_ETHER_MIN_LEN, PG_ETHER_MAX_LEN, PG_ETHER_CRC_LEN in Hr.
  cbn [length sizes_of foldr]. fold (sizes_of l). lia.
Qed.

Context (Hrecs : Forall rec_ok recs).

Lemma rec_at i r : recs !! i = Some r → rec_ok r.
Proof using Hrecs. intros Hr. by eapply Forall_lookup_1. Qed.

Lemma count_loop_spec fuel : ∀ i p hd buff n sz,
  at_record i p → (i ≤ length recs)%nat → (length recs < fuel + i)%nat →
  0 ≤ n → n + Z.of_nat (length recs - i) < 2 ^ 32 → 0 ≤ sz →
  sz + 1514 * Z.of_nat (length recs - i) < 2 ^ 64 →
  ∃ p', count_loop fuel p hd buff n sz =
          Some (n + Z.of_nat (length recs - i), sz + sizes_of (drop i recs), p') ∧
        at_record (length recs) p'.
Proof using Hrecs.
  induction fuel as [|fuel IH]; intros i p hd buff n sz Hp Hi Hf Hn Hn' Hs Hs'; [lia|]. cbn [count_loop].
  destruct (decide (i = length recs)) as [->|Hne].
  - destruct (read_end p buff hd Hp) as (p' & -> & Hp'). exists p'. split; [|done].
    rewrite (drop_ge recs) by lia. rewrite Nat.sub_diag. cbn. do 3 f_equal; lia.
  - destruct (lookup_lt_is_Some_2 recs i) as [r Hr]; [lia|]. pose proof (rec_at i r Hr) as Hrec.
    destruct (read_here p i r buff hd Hrec Hr Hp) as (p1 & Hp1 & ->).
    pose proof (ro_pos r Hrec) as Hc. destruct (Z.leb_spec (caplen r) 0); [lia|]. cbn [incl_len].
    pose proof (adjust_len_range (caplen r)) as Ha.
    unfold MIN_PKT_SIZE, MAX_PKT_SIZE, PG_ETHER_MIN_LEN, PG_ETHER_MAX_LEN, PG_ETHER_CRC_LEN in Ha.
    rewrite !wrap_small by (unfold in_word; lia).
    destruct (IH (S i) p1 (mk_rec_hdr (sec r) (usec r) (caplen r) (len r))
      (if caplen r <=? DEFAULT_MBUF_SIZE then read_into (pkt r) buff else buff) (n + 1) (sz + adjust_len (caplen r)))
      as (p' & E & Hp'); [done|lia..|]. exists p'. split; [|done]. rewrite E, (drop_S _ _ _ Hr).
    cbn [sizes_of foldr]. fold (sizes_of (drop (S i) recs)). do 3 f_equal; lia.
Qed.

(** ** Playing *)

Context (junk : Z → Z → Z) (priv_size data_room : Z) (Hne : recs ≠ []).

(** What the buffer holds of a packet: behind a short one, and for one that is too
    large for it, what was on the stack. *)
Definition content (buff : Z → Z) (r : stamped) : Z → Z :=
  if caplen r <=? DEFAULT_MBUF_SIZE then read_into (pkt r) buff else buff.

Lemma next_packet_spec f i p hd buff : at_record i p → (i ≤ length recs)%nat →
  ∃ r p', recs !! (i mod length recs)%nat = Some r ∧ at_record (S (i mod length recs)) p' ∧
    next_packet (S (S f)) p hd buff = Some (mk_rec_hdr (sec r) (usec r) (caplen r) (len r), content buff r, p').
Proof using Hrecs Hne.
  intros Hp Hi. assert (length recs ≠ 0%nat) as Hl by (by destruct recs).
  assert (∀ g j q hd', at_record j q → (j < length recs)%nat →
    ∃ r p', recs !! j = Some r ∧ at_record (S j) p' ∧
      next_packet (S g) q hd' buff = Some (mk_rec_hdr (sec r) (usec r) (caplen r) (len r), content buff r, p')) as Hone.
  { intros g j q hd' Hq Hj. destruct (lookup_lt_is_Some_2 recs j) as [r Hr]; [lia|].
    pose proof (rec_at j r Hr) as Hrec. destruct (read_here q j r buff hd' Hrec Hr Hq) as (p1 & Hp1 & E).
    exists r, p1. split_and!; [done..|]. cbn [next_packet]. rewrite E.
    pose proof (ro_pos r Hrec). by destruct (Z.leb_spec (caplen r) 0); [lia|]. }
  destruct (decide (i = length recs)) as [->|Hlt].
  - rewrite Nat.Div0.mod_same. destruct (read_end p buff hd Hp) as (p1 & E & Hp1).
    destruct (Hone f 0%nat (_pcap_rewind p1) hd (at_rewind _ _ Hp1)) as (r & p' & H1 & H2 & H3); [lia|].
    exists r, p'. split_and!; [done..|]. rewrite <-H3. cbn [next_packet]. by rewrite E.
  - rewrite Nat.mod_small by lia. apply Hone; [done|lia].
Qed.

(** The object at [m] of a pool carries the packet [r]. *)
Definition data_at (m : Z) : Z := mtod (init_mbuf priv_size data_room m).
Record plays (s : dp) (m : Z) (r : stamped) : Prop := {
  pl_start : mtod (mbufs s m) = data_at m;
  pl_len : Mb.pkt_len (mbufs s m) = adjust_len (caplen r);
  pl_dlen : Mb.data_len (mbufs s m) = adjust_len (caplen r);
  pl_saved : Data.pkt_len (Mb.udata64 (mbufs s m)) = adjust_len (caplen r);
  pl_bytes : ∀ o, 0 ≤ o < adjust_len (caplen r) → ld8 (ram s) (data_at m + o) = u8 (content (junk m) r o) }.

(** Objects that do not share room for a packet *)
Definition apart (objs : list Z) : Prop :=
  ∀ i j a b, objs !! i = Some a → objs !! j = Some b → i ≠ j → MAX_PKT_SIZE ≤ Z.abs (a - b).

Lemma saved_len l v b :
  Data.pkt_len (Data.set_buf_len b (Data.set_data_len v (Data.set_pkt_len l 0))) = u32 l.
Proof.
  unfold Data.set_buf_len, Data.set_data_len, Data.set_pkt_len, Data.pkt_len, Data.data_len.
  pose proof (wrap_in_word 32 l ltac:(lia)) as Hl. pose proof (wrap_in_word 16 v ltac:(lia)) as Hv.
  pose proof (wrap_in_word 16 b ltac:(lia)) as Hb. unfold in_word in *.
  generalize dependent (u32 l). generalize dependent (u16 v). generalize dependent (u16 b).
  intros B HB V HV L HL. change (0 `mod` 2 ^ 32) with 0.
  assert ((0 + 2 ^ 32 * L) / 2 ^ 16 = 2 ^ 16 * L) as -> by (symmetry; apply (Z.div_unique _ _ _ 0); lia).
  assert ((V + 2 ^ 16 * (2 ^ 16 * L)) `mod` 2 ^ 16 = V) as ->
    by (symmetry; apply (Z.mod_unique _ _ (2 ^ 16 * L)); lia).
  assert ((V + 2 ^ 16 * (2 ^ 16 * L)) / 2 ^ 32 = L) as -> by (symmetry; apply (Z.div_unique _ _ _ V); lia).
  assert ((V + 2 ^ 16 * B + 2 ^ 32 * L) / 2 ^ 32 = L) as ->
    by (symmetry; apply (Z.div_unique _ _ _ (V + 2 ^ 16 * B)); lia).
  rewrite Z.mod_small; lia.
Qed.

Lemma ctor_spec f m i p s : at_record i p → (i ≤ length recs)%nat →
  ∃ r p' s', recs !! (i mod length recs)%nat = Some r ∧ at_record (S (i mod length recs)) p' ∧
    pktgen_pcap_mbuf_ctor junk priv_size data_room (S (S f)) m (p, s) = Some (p', s') ∧
    w s' = w s ∧ plays s' m r ∧ (∀ b, b ≠ m → mbufs s' b = mbufs s b) ∧
    (∀ x, x < data_at m ∨ data_at m + MAX_PKT_SIZE ≤ x → ld8 (ram s') x = ld8 (ram s) x).
Proof using Hrecs Hne.
  intros Hp Hi. destruct (next_packet_spec f i p (mk_rec_hdr 0 0 0 0) (junk m) Hp Hi) as (r & p' & Hr & Hp' & E).
  pose proof (adjust_len_range (caplen r)) as Ha.
  assert (0 ≤ adjust_len (caplen r) < 2 ^ 16) as Hw.
  { unfold MIN_PKT_SIZE, MAX_PKT_SIZE, PG_ETHER_MIN_LEN, PG_ETHER_MAX_LEN, PG_ETHER_CRC_LEN in Ha. lia. }
  exists r, p'. unfold pktgen_pcap_mbuf_ctor. rewrite E. cbn [mbind option_bind incl_len]. cbn zeta.
  set (mb := fill_mbuf _ _). set (s1 := upd_mbuf m _ s). eexists. split_and!; [done|done|reflexivity|done| | |].
  - assert (∀ s2, mbufs (upd_ram s2 s1) m = mb) as Em.
    { intros s2. change (mbufs (upd_mbuf m (λ _, mb) s) m = mb). by rewrite mbufs_upd, decide_True. }
    split; rewrite ?Em.
    + done.
    + done.
    + cbn. apply wrap_small. exact Hw.
    + transitivity (u32 (adjust_len (caplen r))); [apply saved_len|]. apply wrap_small. unfold in_word. lia.
    + intros o Ho. change (mtod mb) with (data_at m). unfold ld8 at 1. cbn [ram upd_ram upd].
      destruct (Z.leb_spec (data_at m) (data_at m + o)); [|lia].
      destruct (Z.ltb_spec (data_at m + o) (data_at m + adjust_len (caplen r))); [|lia]. cbn [andb].
      rewrite wrap_wrap. by rewrite Z.add_simpl_l.
  - intros b Hb. change (mbufs s1 b = mbufs s b). unfold s1. by rewrite mbufs_upd, decide_False.
  - intros x Hx. change (mtod mb) with (data_at m). unfold ld8. cbn [ram upd_ram upd].
    destruct (Z.leb_spec (data_at m) x); [|done].
    destruct (Z.ltb_spec x (data_at m + adjust_len (caplen r))); [lia|done].
Qed.

Lemma data_at_apart a b : data_at a - data_at b = a - b.
Proof. unfold data_at, init_mbuf, mtod. cbn. lia. Qed.

Lemma plays_keep s s' m b r :
  plays s m r → b ≠ m → MAX_PKT_SIZE ≤ Z.abs (m - b) → (∀ c, c ≠ b → mbufs s' c = mbufs s c) →
  (∀ x, x < data_at b ∨ data_at b + MAX_PKT_SIZE ≤ x → ld8 (ram s') x = ld8 (ram s) x) → plays s' m r.
Proof.
  intros [H1 H2 H3 H4 H5] Hb Ha Hm Hr. specialize (Hm m ltac:(congruence)). split; rewrite ?Hm; [done..|].
  intros o Ho. pose proof (data_at_apart m b). pose proof (adjust_len_range (caplen r)).
  rewrite Hr by lia. by apply H5.
Qed.

Lemma plays_ext s s' m r : mbufs s' = mbufs s → ram s' = ram s → plays s m r → plays s' m r.
Proof. intros Em Er [H1 H2 H3 H4 H5]. by split; rewrite ?Em, ?Er. Qed.

Lemma apart_cons a objs : apart (a :: objs) →
  apart objs ∧ Forall (λ b, MAX_PKT_SIZE ≤ Z.abs (a - b)) objs.
Proof.
  intros H. split.
  - intros i j x y Hx Hy Hij. apply (H (S i) (S j) x y); [done|done|lia].
  - apply Forall_lookup. intros j b Hb. by apply (H 0%nat (S j) a b).
Qed.

Lemma ctor_objs_spec f objs : ∀ i p s, at_record i p → (i ≤ length recs)%nat → apart objs →
  ∃ p' s', ctor_objs junk priv_size data_room (S (S f)) objs (p, s) = Some (p', s') ∧ w s' = w s ∧
    (∀ k m, objs !! k = Some m → ∃ r, recs !! ((i + k) mod length recs)%nat = Some r ∧ plays s' m r) ∧
    (∀ m r, Forall (λ b, MAX_PKT_SIZE ≤ Z.abs (m - b)) objs → plays s m r → plays s' m r).
Proof using Hrecs Hne.
  induction objs as [|a objs IH]; intros i p s Hp Hi Hd; cbn [ctor_objs].
  { exists p, s. split_and!; done. }
  assert (length recs ≠ 0%nat) as Hl by (by destruct recs).
  destruct (ctor_spec f a i p s Hp Hi) as (r & p1 & s1 & Hr & Hp1 & -> & Ew & Hpl & Hm & Hx).
  cbn [mbind option_bind]. apply apart_cons in Hd as [Hd Hfar].
  assert (i mod length recs < length recs)%nat as Hmod by (by apply Nat.mod_upper_bound).
  destruct (IH (S (i mod length recs)) p1 s1 Hp1 ltac:(lia) Hd) as (p2 & s2 & -> & Ew2 & Hobjs & Hkeep).
  exists p2, s2. split_and!; [done|congruence| |].
  - intros [|k] m Hk.
    + injection Hk as <-. exists r. rewrite Nat.add_0_r. split; [done|]. by apply Hkeep.
    + destruct (Hobjs k m Hk) as (r' & Hr' & Hpl'). exists r'. split; [|done]. rewrite <-Hr'. f_equal.
      replace (S (i mod length recs) + k)%nat with (i mod length recs + S k)%nat by lia.
      by rewrite Nat.Div0.add_mod_idemp_l.
  - intros m r' Hf Hpl'. inversion Hf as [|? ? Ha Hf']; subst. apply Hkeep; [done|].
    apply (plays_keep s s1 m a r'); [done| |done|done|done].
    intros ->. rewrite Z.sub_diag in Ha. done.
Qed.

(** ** Opening and parsing *)

Lemma open_file : ∃ p, _pcap_open true (Some (pcap_file big h recs)) = Some p ∧ at_record 0 p.
Proof.
  unfold _pcap_open, fread. cbn [negb mbind option_bind]. cbv zeta.
  cbn [pos bytes]. rewrite drop_0.
  assert (take sizeof_pcap_hdr (pcap_file big h recs) = file_header big h) as ->
    by (unfold pcap_file; apply take_app_length'; symmetry; apply length_header).
  rewrite length_header, Nat.eqb_refl. cbn [negb].
  assert (magic_number (hdr_of (file_header big h)) = if big then ntohl PCAP_MAGIC_NUMBER else PCAP_MAGIC_NUMBER) as E
    by (by destruct big).
  rewrite E. destruct big eqn:Eb; cbn -[pcap_file file_header]; eexists; (split; [reflexivity|]);
    (split; [by rewrite ?Eb|by unfold offset|by rewrite ?Eb]).
Qed.

Lemma packet_rate_pcap w0 pc : tst_flags w0 SEND_PCAP_PKTS = true → Info.pcap (info w0) = Some pc →
  0 ≤ Pcap.pkt_size pc < 65536 →
  ∃ w1, pktgen_packet_rate w0 = Some w1 ∧ Info.port_flags (info w1) = Info.port_flags (info w0) ∧
    Info.pcap (info w1) = Info.pcap (info w0) ∧ Info.q (info w1) = Info.q (info w0).
Proof.
  intros Ht Hp Hs. unfold pktgen_packet_rate, pktgen_wire_size.
  change (pktgen_tst_port_flags (info w0) SEND_PCAP_PKTS) with (tst_flags w0 SEND_PCAP_PKTS). rewrite Ht, Hp.
  cbn [mbind option_bind]. change PKT_OVERHEAD_SIZE with 24.
  rewrite (wrap_small 32 (Pcap.pkt_size pc + 24)), (wrap_small 64 ((Pcap.pkt_size pc + 24) * 8))
    by (unfold in_word; lia).
  unfold div_trap. destruct (Z.eqb_spec ((Pcap.pkt_size pc + 24) * 8) 0) as [E|_]; [lia|].
  cbn [mbind option_bind]. cbv zeta. eexists. split; [reflexivity|]. done.
Qed.
Definition pool_size : Z :=
  let n := Z.of_nat (length recs) in
  rte_align32pow2 (if n <? MAX_MBUFS_PER_PORT then MAX_MBUFS_PER_PORT else n).

Lemma parse_spec fuel create qid mp objs p s :
  at_record 0 p → Z.of_nat (length recs) < 2 ^ 32 → (length recs < fuel)%nat →
  create pool_size = Some (mp, objs) → apart objs → 0 ≤ Info.port_flags (Mbuf.port s) →
  ∃ p' s', pktgen_pcap_parse junk priv_size data_room fuel create true qid (p, s) = Some (p', s') ∧
    tst s' SEND_PCAP_PKTS = true ∧ Q.pcap_mp (Info.q (Mbuf.port s') qid) = mp ∧
    Info.pcap (Mbuf.port s') =
      Some (Pcap.mk (sizes_of recs / Z.of_nat (length recs)) (Z.of_nat (length recs)) 0) ∧
    ∀ k m, objs !! k = Some m → ∃ r, recs !! (k mod length recs)%nat = Some r ∧ plays s' m r.
Proof using Hrecs Hne.
  intros Hp Hn Hf Hc Hd Hfl. set (n := Z.of_nat (length recs)) in *.
  assert (0 < n) as Hn0 by (unfold n; destruct recs; [done|cbn; lia]).
  pose proof (sizes_range recs) as Hs. fold n in Hs.
  assert (60 ≤ sizes_of recs / n ≤ 1514) as Havg.
  { split; [apply Z.div_le_lower_bound; lia|]. apply Z.lt_succ_r, Z.div_lt_upper_bound; lia. }
  assert (∃ f, fuel = S (S f)) as [f ->] by (exists (fuel - 2)%nat; unfold n in Hn0; lia).
  unfold pktgen_pcap_parse.
  destruct (count_loop_spec (S (S f)) 0 (_pcap_rewind p) (mk_rec_hdr 0 0 0 0) (junk 0) 0 0 (at_rewind _ _ Hp))
    as (p1 & -> & Hp1); [lia|lia|lia|lia|lia|lia|].
  rewrite Nat.sub_0_r, drop_0, !Z.add_0_l. fold n. cbn [mbind option_bind].
  destruct (Z.ltb_spec 0 n); [|lia]. cbv zeta. fold pool_size. change (rte_align32pow2 _) with pool_size.
  rewrite Hc. cbn [mbind option_bind].
  set (s1 := upd_port _ s).
  destruct (ctor_objs_spec f objs 0 (_pcap_rewind p1) s1 (at_rewind _ _ Hp1) ltac:(lia) Hd)
    as (p2 & s2 & -> & Ew & Hobjs & _). cbn [mbind option_bind].
  set (s3 := upd_port _ (upd_port _ s2)).
  assert (Info.pcap (Mbuf.port s3) = Some (Pcap.mk (u32 (sizes_of recs / n)) n 0)) as Epc.
  { change (Info.pcap (info (w s2)) = Some (Pcap.mk (u32 (sizes_of recs / n)) n 0)). by rewrite Ew. }
  rewrite wrap_small in Epc by (unfold in_word; lia).
  assert (tst s3 SEND_PCAP_PKTS = true) as Ht.
  { unfold tst, tst_flags, pktgen_tst_port_flags.
    change (tst_bits (set_bits (Info.port_flags (info (w s2))) SEND_PCAP_PKTS) SEND_PCAP_PKTS = true).
    rewrite Ew. by apply tst_set_bits. }
  destruct (packet_rate_pcap (w s3) _ Ht Epc ltac:(cbn; lia)) as (w1 & -> & Ef & Ep & Eq).
  cbn [mbind option_bind]. eexists _, _. split; [reflexivity|]. split_and!.
  - unfold tst, tst_flags, pktgen_tst_port_flags in *. cbn. by rewrite Ef.
  - change (Q.pcap_mp (Info.q (info w1) qid) = mp). rewrite Eq. unfold s3. cbn. unfold set_at. by rewrite Z.eqb_refl.
  - change (Info.pcap (info w1) = Some (Pcap.mk (sizes_of recs / n) n 0)). by rewrite Ep.
  - intros k m Hk. destruct (Hobjs k m Hk) as (r & Hr & Hpl). exists r. split; [exact Hr|].
    by apply (plays_ext s2).
Qed.
End File.

(** C14. Any packets come back from a pcap file: a file in either byte order with
    the packets of a capture, however long or short but none of them empty, is
    opened, and parsing it counts the packets, averages their lengths, makes a pool
    and fills it so that object [k] carries packet [k mod n] with its length
    brought between the smallest and the largest that is sent.  What follows the
    bytes of a short packet, and the whole of a packet that is larger than the
    buffer, is what was on the stack. *)
Theorem pcap_playback (big : bool) (h : pcap_hdr_t) (recs : list stamped) (junk : Z → Z → Z) (priv_size data_room : Z)
    (fuel : nat) (create : Z → option (Z * list Z)) (qid mp : Z) (objs : list Z) (s : dp) :
  recs ≠ [] → Forall rec_ok recs → Z.of_nat (length recs) < 2 ^ 32 → (length recs < fuel)%nat →
  create (pool_size recs) = Some (mp, objs) → apart objs → 0 ≤ Info.port_flags (Mbuf.port s) →
  ∃ p p' s', _pcap_open true (Some (pcap_file big h recs)) = Some p ∧
    pktgen_pcap_parse junk priv_size data_room fuel create true qid (p, s) = Some (p', s') ∧
    tst s' SEND_PCAP_PKTS = true ∧ Q.pcap_mp (Info.q (Mbuf.port s') qid) = mp ∧
    Info.pcap (Mbuf.port s') =
      Some (Pcap.mk (sizes_of recs / Z.of_nat (length recs)) (Z.of_nat (length recs)) 0) ∧
    ∀ k m, objs !! k = Some m →
      ∃ r, recs !! (k mod length recs)%nat = Some r ∧ plays junk priv_size data_room s' m r.
Proof.
  intros Hne Hrecs Hn Hf Hc Hd Hfl. destruct (open_file big h recs) as (p & Ho & Hp).
  destruct (parse_spec big h recs Hrecs junk priv_size data_room Hne fuel create qid mp objs p s Hp Hn Hf Hc Hd Hfl)
    as (p' & s' & H). by exists p, p', s'.
Qed.

(** The records of a zone are records of a file. *)
Lemma chain_records m a rs t : chain m a rs t →
  Forall (λ r, caplen r = Z.of_nat (length (pkt r)) ∧ 0 ≤ caplen r < 65536 ∧ 0 ≤ len r < 65536 ∧
               Forall (in_word 8) (pkt r)) rs.
Proof.
  revert a. induction rs as [|r rs IH]; intros a Hc; [constructor|]. cbn [chain] in Hc.
  destruct Hc as (El & _ & Ec & Ep & Hc). constructor; [|by eapply IH].
  pose proof (load_range 2 m (a + Hdr.pkt_len)). pose proof (load_range 2 m (a + Hdr.data_len)).
  split_and!; [|lia..|].
  - rewrite Ep. unfold read_bytes. rewrite length_fmap, length_seqZ. lia.
  - rewrite Ep. unfold read_bytes. apply Forall_fmap, Forall_forall. intros o _. apply wrap_in_word. lia.
Qed.

Definition stamp0 (r : pcap_rec) : stamped := mk_stamped 0 0 r.

Lemma captured_ok addr zlen m0 ps m a rs t :
  Forall2 (recorded addr zlen m0) ps rs → chain m a rs t → Forall rec_ok (stamp0 <$> rs).
Proof.
  intros HF Hc. apply chain_records in Hc. apply Forall_fmap. revert Hc.
  induction HF as [|p r ps rs [(P1 & P2 & _) (_ & Er & _)] HF IH]; intros Hc; inversion_clear Hc as [|?? Hr Hrs];
    constructor; [|by apply IH]. destruct Hr as (E1 & E2 & E3 & E4).
  destruct (room_even p ltac:(lia)) as [_ Hroom].
  split; cbn [stamp0 sec usec of_rec]; unfold in_word; (done || lia).
Qed.

(** What is played of a packet that was captured *)
Lemma played_bytes addr zlen m0 p r junk o :
  recorded addr zlen m0 p r → caplen r = Z.of_nat (length (pkt r)) → room p ≤ DEFAULT_MBUF_SIZE →
  0 ≤ o < Mb.pkt_len p → content junk (stamp0 r) o = ld8 m0 (mtod p + o).
Proof.
  intros [(P1 & P2 & _) (_ & Er & Et)] Hl Hr Ho. destruct (room_even p ltac:(lia)) as [_ Hroom].
  unfold content. cbn [stamp0 of_rec]. destruct (Z.leb_spec (caplen r) DEFAULT_MBUF_SIZE); [|lia].
  unfold read_into. destruct (Z.leb_spec 0 o); [|lia].
  destruct (Z.ltb_spec o (Z.of_nat (length (pkt r)))); [|lia]. cbn [andb].
  rewrite <-(lookup_take_lt _ (Z.to_nat (Mb.pkt_len p))) by lia. rewrite Et. unfold read_bytes.
  rewrite list_lookup_fmap, lookup_seqZ_lt by lia. cbn. f_equal. lia.
Qed.

(** C30. Packets that are captured can be sent again: the file that a capture writes
    is opened and parsed, and the objects of the pool carry, in turn, the packets
    that were stored, with two reservations.  The length of each is [adjust_len]
    of its room in the zone: that of the captured packet rounded up to an even
    number, and brought between the 60 and the 1514 bytes that are sent.  And its
    bytes, up to the length of the captured packet or 1514, are those captured
    if its room is not larger than the buffer it is read into; a larger packet is
    sent as what was on the stack, and so is what lies behind the captured bytes. *)
Theorem capture_replayed (h : pcap_hdr_t) (junk : Z → Z → Z) (priv_size data_room : Z) (fuel : nat)
    (create : Z → option (Z * list Z)) (qid mp : Z) (objs : list Z) (s : dp) (lid pid addr zlen : Z)
    (cap : capture_t) (m : mem) (batches : list (list (rte_mbuf * Z))) :
  mz cap = Some (addr, zlen) → sizeof_cap_hdr ≤ zlen < 2 ^ 32 →
  Forall (Forall (λ p, capturable addr zlen (fst p))) batches →
  let st := capture_batches batches (cap_start lid pid addr zlen (cap, m)) in
  let ps := stored_all addr (addr + (zlen - sizeof_cap_hdr)) batches in
  let recs := stamp0 <$> dump_loop (Z.to_nat zlen) (snd st) addr in
  ps ≠ [] → (length recs < fuel)%nat → create (pool_size recs) = Some (mp, objs) → apart objs →
  0 ≤ Info.port_flags (Mbuf.port s) →
  ∃ p p' s', _pcap_open true (Some (pcap_file false h recs)) = Some p ∧
    pktgen_pcap_parse junk priv_size data_room fuel create true qid (p, s) = Some (p', s') ∧
    ∀ k o, objs !! k = Some o →
      ∃ pk, ps !! (k mod length ps)%nat = Some pk ∧
        Mb.pkt_len (mbufs s' o) = adjust_len (room pk) ∧
        (room pk ≤ DEFAULT_MBUF_SIZE → ∀ b, 0 ≤ b < Z.min (Mb.pkt_len pk) MAX_PKT_SIZE →
          ld8 (ram s') (data_at priv_size data_room o + b) = ld8 m (mtod pk + b)).
Proof.
  intros Hz Hl HF st ps recs Hps Hfuel Hc Hd Hfl.
  destruct (capture_written lid pid addr zlen cap m batches Hz ltac:(lia) HF) as (H1 & H2 & H3 & _).
  fold st ps in H1, H2, H3. set (file := dump_loop _ _ _) in *.
  pose proof (captured_ok _ _ _ _ _ _ _ _ H1 H2) as Hok. fold recs in Hok.
  pose proof (Forall2_length _ _ _ H1) as Elen.
  assert (length recs = length ps) as Erecs by (unfold recs; by rewrite length_fmap, Elen).
  assert (recs ≠ []) as Hne by (intros E; rewrite E in Erecs; by destruct ps).
  assert (Z.of_nat (length recs) < 2 ^ 32) as Hn by lia.
  destruct (open_file false h recs) as (p & Ho & Hp).
  destruct (parse_spec false h recs Hok junk priv_size data_room Hne fuel create qid mp objs p s Hp Hn Hfuel Hc Hd Hfl)
    as (p' & s' & E & _ & _ & _ & Hobjs).
  exists p, p', s'. split_and!; [exact Ho|exact E|]. intros k o Hk.
  destruct (Hobjs k o Hk) as (r & Hr & Hpl). rewrite Erecs in Hr.
  unfold recs in Hr. rewrite list_lookup_fmap_Some in Hr. destruct Hr as (r0 & -> & Hr).
  destruct (Forall2_lookup_r _ _ _ _ _ H1 Hr) as (pk & Hpk & Hrec). exists pk. split; [exact Hpk|].
  assert (Hrec' := Hrec). destruct Hrec' as [(P1 & P2 & _) (_ & Ecap & _)].
  split; [rewrite (pl_len _ _ _ _ _ _ Hpl); by rewrite <-Ecap|].
  intros Hroom b Hb. apply chain_records in H2. rewrite Forall_lookup in H2. specialize (H2 _ _ Hr) as (Hlen & _).
  destruct (room_even pk ltac:(lia)) as [_ Hrange].
  rewrite (pl_bytes _ _ _ _ _ _ Hpl), (played_bytes addr zlen m pk r0); [|done|done|done|lia|].
  - apply wrap_small, ld8_range.
  - change (caplen (stamp0 r0)) with (caplen r0). pose proof (adjust_len_ge (caplen r0)). lia.
Qed.

(** A file of three packets, one of them short, in either byte order: the pool has
    room for four. *)
Definition demo_recs : list stamped :=
  [mk_stamped 5 6 (mk_rec 64 64 (replicate 64 1)); mk_stamped 5 7 (mk_rec 3 3 [1; 2; 3]);
   mk_stamped 5 8 (mk_rec 2000 100 (replicate 100 7))].
Definition demo_objs : list Z := [10000; 20000; 30000; 40000].
Definition demo_create (n : Z) : option (Z * list Z) := if n =? 8192 then Some (6, demo_objs) else None.
Definition demo_hdr : pcap_hdr_t := mk_hdr PCAP_MAGIC_NUMBER 2 4 0 0 65535 1.

Lemma demo_apart : apart demo_objs.
Proof.
  intros i j a b Ha Hb Hij. unfold demo_objs in *.
  do 4 (destruct i as [|i]; [do 4 (destruct j as [|j]; [simplify_eq/=; vm_compute; congruence|]); done|]). done.
Defined.

Lemma pcap_playback_witness :
  ∃ p p' s', _pcap_open true (Some (pcap_file true demo_hdr demo_recs)) = Some p ∧
    pktgen_pcap_parse (λ _ _, 0) 0 2048 4 demo_create true 0 (p, demo_dp) = Some (p', s') ∧
    Mb.pkt_len (mbufs s' 20000) = 60 ∧ Mb.pkt_len (mbufs s' 40000) = 64.
Proof.
  destruct (pcap_playback true demo_hdr demo_recs (λ _ _, 0) 0 2048 4 demo_create 0 6 demo_objs demo_dp)
    as (p & p' & s' & H1 & H2 & _ & _ & _ & H).
  - done.
  - repeat constructor; vm_compute; congruence.
  - done.
  - cbn. lia.
  - reflexivity.
  - apply demo_apart.
  - done.
  - exists p, p', s'. split; [exact H1|]. split; [exact H2|].
    destruct (H 1%nat 20000 eq_refl) as (r1 & E1 & L1). destruct (H 3%nat 40000 eq_refl) as (r3 & E3 & L3).
    apply pl_len in L1, L3. rewrite L1, L3. cbn in E1, E3. injection E1 as <-. injection E3 as <-. split; reflexivity.
Defined.

Lemma capture_replayed_witness :
  let st := capture_batches demo_pkts (cap_start 1 0 1000 100 (demo_zone, λ a, a `mod` 256)) in
  ∃ p p' s', _pcap_open true (Some (pcap_file false demo_hdr (stamp0 <$> dump_loop 100 (snd st) 1000))) = Some p ∧
    pktgen_pcap_parse (λ _ _, 0) 0 2048 4 demo_create true 0 (p, demo_dp) = Some (p', s') ∧
    ∀ b, 0 ≤ b < 25 → ld8 (ram s') (data_at 0 2048 20000 + b) = ld8 (λ a, a `mod` 256) (4000 + b).
Proof.
  intros st.
  assert (Forall (Forall (λ p, capturable 1000 100 (fst p))) demo_pkts) as HF.
  { repeat constructor; vm_compute; congruence. }
  destruct (capture_replayed demo_hdr (λ _ _, 0) 0 2048 4 demo_create 0 6 demo_objs demo_dp 1 0 1000 100 demo_zone
              (λ a, a `mod` 256) demo_pkts eq_refl ltac:(unfold sizeof_cap_hdr; lia) HF)
    as (p & p' & s' & H1 & H2 & H); [done|vm_compute; lia|vm_compute; reflexivity|apply demo_apart|done|].
  exists p, p', s'. split; [exact H1|]. split; [exact H2|].
  destruct (H 1%nat 20000 eq_refl) as (pk & Hpk & _ & Hb). intros b Hb'.
  injection Hpk as <-. apply Hb; [vm_compute; congruence|]. cbn. unfold MAX_PKT_SIZE, PG_ETHER_MAX_LEN, PG_ETHER_CRC_LEN. lia.
Defined.
