(* ===== verification/GapBuf.v ===== *)
(** * The line editor's gap buffer

    [lib/cli/cli_gapbuf.h] and [lib/cli/cli_gapbuf.c]: the command line's text
    is kept in one block with a hole in it, so that typing at a place does not
    move the rest; and the keys of [lib/cli/cli_vt100.c] that edit it.  The
    pointers of [struct gapbuf] are offsets from [buf], so that [realloc] moves
    none of them; [size] is what the block was allocated with.  An allocation
    that fails ends the program and is not modelled.  The specification is a
    text with a cursor in it, as the two lists before and after the cursor. *)
From S2P Require Import Prelude Mem.

Definition GB_DEFAULT_GAP_SIZE := 8.

Record gapbuf := mk_gapbuf {
  size : Z; ebuf : Z; point : Z; gap : Z; egap : Z; data : mem }.
#[global] Instance eta_gapbuf : Eta gapbuf := λ gb,
  mk_gapbuf (size gb) (ebuf gb) (point gb) (gap gb) (egap gb) (data gb).

(** ** Sizes *)
Definition gb_buf_size (gb : gapbuf) : Z := u32 (ebuf gb).
Definition gb_gap_size (gb : gapbuf) : Z := u32 (egap gb - gap gb).
Definition gb_data_size (gb : gapbuf) : Z := u32 (ebuf gb - (egap gb - gap gb)).

(** ** Creating and resetting *)
Definition gb_reset_buf (gb : gapbuf) : gapbuf :=
  let n := swrap 32 (gb_buf_size gb) in
  gb <| data ::= λ m, memset m 0 32 n |> <| point := 0 |> <| gap := 0 |> <| egap := n |> <| ebuf := n |>.

Definition gb_init_buf (n : Z) (gb : gapbuf) : gapbuf :=
  gb_reset_buf (gb <| size := n |> <| ebuf := n |>).

(** [m] is what the new block contains. *)
Definition gb_create (m : mem) : gapbuf :=
  gb_init_buf GB_DEFAULT_GAP_SIZE (mk_gapbuf 0 0 0 0 0 m).

(** The bytes written to [dst] *)
Definition gb_copy_to_buf (gb : gapbuf) (n : Z) : list Z :=
  let n := Z.min n (gb_data_size gb) in
  (if n =? 0 then []
   else read_bytes (data gb) 0 (Z.to_nat (gap gb)) ++
        read_bytes (data gb) (egap gb) (Z.to_nat (ebuf gb - egap gb))) ++ [0].

(** ** The point *)
Definition gb_point_at_start (gb : gapbuf) : bool := point gb =? 0.
Definition gb_point_at_end (gb : gapbuf) : bool := ebuf gb =? point gb.

Definition gb_set_point (idx : Z) (gb : gapbuf) : gapbuf :=
  if idx =? -1 then gb <| point := ebuf gb |>
  else
    let gb := gb <| point := idx |> in
    if gap gb <? point gb then gb <| point ::= λ p, p + (egap gb - gap gb) |> else gb.

Definition gb_point_offset (gb : gapbuf) : Z :=
  if egap gb <? point gb then point gb - (egap gb - gap gb) else point gb.

Definition gb_eof (gb : gapbuf) : bool :=
  if point gb =? gap gb then egap gb =? ebuf gb else point gb =? ebuf gb.

Definition gb_move_right (gb : gapbuf) : gapbuf :=
  let gb := if point gb =? gap gb then gb <| point := egap gb |> else gb in
  gb <| point ::= λ p, if ebuf gb <? p + 1 then ebuf gb else p + 1 |>.

Definition gb_move_left (gb : gapbuf) : gapbuf :=
  let gb := if point gb =? egap gb then gb <| point := gap gb |> else gb in
  gb <| point ::= λ p, if p - 1 <? 0 then 0 else p - 1 |>.

(** ** The gap *)
Definition gb_move_gap_to_point (gb : gapbuf) : gapbuf :=
  if point gb =? gap gb then gb
  else if point gb =? egap gb then gb <| point := gap gb |>
  else if point gb <? gap gb then
    let cnt := gap gb - point gb in
    let gb := gb <| data ::= λ m, memcpy m (egap gb - cnt) (point gb) cnt |> in
    let gb := gb <| egap ::= λ e, e - cnt |> in
    gb <| gap := point gb |>
  else if egap gb <? point gb then
    let cnt := point gb - egap gb in
    let gb := gb <| data ::= λ m, memcpy m (gap gb) (egap gb) cnt |> in
    let gb := gb <| gap ::= λ g, g + cnt |> in
    let gb := gb <| egap := point gb |> in
    gb <| point := gap gb |>
  else
    let cnt := point gb - gap gb in
    let gb := gb <| data ::= λ m, memcpy m (gap gb) (egap gb) cnt |> in
    let gb := gb <| egap ::= λ e, e + cnt |> in
    let gb := gb <| gap ::= λ g, g + cnt |> in
    gb <| point := gap gb |>.

Definition gb_expand_buf (more : Z) (gb : gapbuf) : gapbuf :=
  if gb_buf_size gb <? ebuf gb + more
  then gb <| size := u32 (ebuf gb + more + GB_DEFAULT_GAP_SIZE) |> else gb.

Definition gb_expand_gap (n : Z) (gb : gapbuf) : gapbuf :=
  if gb_gap_size gb <? n then
    let n := u32 (n + GB_DEFAULT_GAP_SIZE) in
    let gb := gb_expand_buf n gb in
    let gb := gb <| data ::= λ m, memcpy m (egap gb + n) (egap gb) (ebuf gb - egap gb) |> in
    gb <| egap ::= λ e, e + n |> <| ebuf ::= λ e, e + n |>
  else gb.

(** ** Reading and writing at the point *)
Definition gb_get (gb : gapbuf) : Z * gapbuf :=
  let gb := if point gb =? gap gb then gb <| point := egap gb |> else gb in
  (ld8 (data gb) (point gb), gb).

Definition gb_get_prev (gb : gapbuf) : Z * gapbuf :=
  let gb := if point gb =? egap gb then gb <| point := gap gb |> else gb in
  (if point gb =? 0 then (if point gb =? gap gb then 0 else ld8 (data gb) (point gb))
   else ld8 (data gb) (point gb - 1), gb).

Definition gb_get_next (gb : gapbuf) : Z * gapbuf :=
  let gb := if point gb =? gap gb then gb <| point := egap gb |> else gb in
  (if point gb =? ebuf gb then ld8 (data gb) (point gb) else ld8 (data gb) (point gb + 1), gb).

Definition gb_put (c : Z) (gb : gapbuf) : gapbuf :=
  let gb := if point gb =? gap gb then gb <| point := egap gb |> else gb in
  let gb := if point gb =? ebuf gb
            then let gb := gb_expand_buf 1 gb in gb <| ebuf ::= λ e, e + 1 |> else gb in
  gb <| data ::= λ m, st8 m (point gb) c |>.

Definition gb_getc_prev (gb : gapbuf) : Z * gapbuf :=
  let gb := if point gb =? egap gb then gb <| point := gap gb |> else gb in
  let gb := gb <| point ::= λ p, p - 1 |> in
  (ld8 (data gb) (point gb), gb).

Definition gb_getc (gb : gapbuf) : Z * gapbuf :=
  if point gb =? gap gb then (ld8 (data gb) (egap gb), gb <| point := egap gb + 1 |>)
  else (ld8 (data gb) (point gb), gb <| point ::= λ p, p + 1 |>).

Definition gb_putc (c : Z) (gb : gapbuf) : gapbuf :=
  let gb := gb_move_gap_to_point gb in
  let gb := if point gb =? ebuf gb
            then let gb := gb_expand_buf 1 gb in gb <| ebuf ::= λ e, e + 1 |> else gb in
  let gb := gb <| data ::= λ m, st8 m (gap gb) c |> <| gap ::= λ g, g + 1 |> in
  gb <| point ::= λ p, p + 1 |>.

Definition gb_insert (c : Z) (gb : gapbuf) : gapbuf :=
  let gb := if negb (point gb =? gap gb) then gb_move_gap_to_point gb else gb in
  let gb := if gap gb =? egap gb then gb_expand_gap 1 gb else gb in
  gb_putc c gb.

Definition gb_del (cnt : Z) (gb : gapbuf) : gapbuf :=
  let gb := if negb (point gb =? gap gb) then gb_move_gap_to_point gb else gb in
  gb <| egap ::= λ e, e + cnt |>.

(** [str] is the string to insert, the length given or found by [strlen]. *)
Definition gb_str_insert (str : list Z) (gb : gapbuf) : Z * gapbuf :=
  let n := Z.of_nat (length str) in
  if n =? 0 then (0, gb)
  else
    let gb := gb_move_gap_to_point gb in
    let gb := if gb_gap_size gb <? n then gb_expand_gap n gb else gb in
    (n, fold_left (λ gb c, gb_putc c gb) str gb).

Definition gb_right_data_size (gb : gapbuf) : Z :=
  if gb_eof gb then 0 else u32 (ebuf gb - egap gb).

(** ** Keys *)
Definition handle_input_display (c : Z) (gb : gapbuf) : gapbuf :=
  if (32 <=? c) && (c <=? 126) then gb_insert c gb else gb.

Definition key_right_arr (gb : gapbuf) : gapbuf :=
  if negb (gb_eof gb) then gb_move_right gb else gb.
Definition key_left_arr (gb : gapbuf) : gapbuf :=
  if negb (gb_point_at_start gb) then gb_move_left gb else gb.
Definition key_backspace (gb : gapbuf) : gapbuf :=
  if negb (gb_point_at_start gb) then gb_del 1 (gb_move_left gb) else gb.
Definition key_ctrl_a (gb : gapbuf) : gapbuf := gb_set_point 0 gb.
Definition key_ctrl_e (gb : gapbuf) : gapbuf := gb_set_point (-1) gb.
(** The text is deleted to its end; the copy kept for [key_ctrl_y] is a
    [strndup] that may take one byte more. *)
Definition key_ctrl_k (gb : gapbuf) : gapbuf :=
  let gb := gb_move_gap_to_point gb in gb_del (gb_right_data_size gb) gb.
Definition key_ctrl_c (gb : gapbuf) : gapbuf := gb_reset_buf gb.
(** A line of the history *)
Definition key_up_arr (line : list Z) (gb : gapbuf) : gapbuf :=
  let '(n, gb) := gb_str_insert line (gb_reset_buf gb) in gb_set_point n gb.

(** [do { ... } while] and [while] *)
Fixpoint key_word_left (fuel : nat) (gb : gapbuf) : option gapbuf :=
  match fuel with
  | O => None
  | S fuel =>
      let gb := key_left_arr gb in
      let '(c, gb) := gb_get_prev gb in
      if c =? 32 then Some gb
      else if negb (gb_point_at_start gb) then key_word_left fuel gb else Some gb
  end.

Fixpoint key_word_right (fuel : nat) (gb : gapbuf) : option gapbuf :=
  match fuel with
  | O => None
  | S fuel =>
      if gb_point_at_end gb then Some gb
      else
        let gb := key_right_arr gb in
        let '(c, gb) := gb_get gb in
        if c =? 32 then Some gb else key_word_right fuel gb
  end.

(** [kill] is what [key_ctrl_k] has kept. *)
Definition key_ctrl_y (kill : list Z) (gb : gapbuf) : gapbuf := snd (gb_str_insert kill gb).

(** ** The specification: a text with a cursor *)

Definition zipper : Type := list Z * list Z.
Definition split_at (t : list Z) (k : nat) : zipper := (take k t, drop k t).

(** Texts longer than this are outside the specification: the sizes are
    32-bit and the buffer may be twice as long as its text. *)
Definition LIMIT := 2 ^ 28.

Inductive op :=
| OInsert (c : Z) | OStr (s : list Z) | ODel (n : Z) | OKill
| OLeft | ORight | OSet (i : Z) | OEnd | OReset
| OGet | OGetc | OPrev | OCopy | OSize | OEof.

(** What an operation returns and the text after it; [None] where the
    operation may not be used: deleting more than there is, reading the
    character behind the last or before the first. *)
Definition spec_step (o : op) (z : zipper) : option (list Z * zipper) :=
  let '(l, r) := z in
  let t := l ++ r in
  match o with
  | OInsert c => if Z.of_nat (length t) + 1 <=? LIMIT then Some ([], (l ++ [u8 c], r)) else None
  | OStr s => if Z.of_nat (length t) + Z.of_nat (length s) <=? LIMIT
              then Some ([Z.of_nat (length s)], (l ++ (wrap 8 <$> s), r)) else None
  | ODel n => if (0 <=? n) && (n <=? Z.of_nat (length r))
              then Some ([], (l, drop (Z.to_nat n) r)) else None
  | OKill => Some ([], (l, []))
  | OLeft => Some ([], split_at t (pred (length l)))
  | ORight => Some ([], split_at t (S (length l)))
  | OSet i => if (0 <=? i) && (i <=? Z.of_nat (length t))
              then Some ([], split_at t (Z.to_nat i)) else None
  | OEnd => Some ([], (t, []))
  | OReset => Some ([], ([], []))
  | OGet => match r with c :: _ => Some ([c], z) | [] => None end
  | OGetc => match r with c :: r => Some ([c], (l ++ [c], r)) | [] => None end
  | OPrev => match last l with Some c => Some ([c], z) | None => None end
  | OCopy => Some (t ++ [0], z)
  | OSize => Some ([Z.of_nat (length t)], z)
  | OEof => Some ([match r with [] => 1 | _ => 0 end], z)
  end.

(** The operations of the gap buffer *)
Definition gb_step (o : op) (gb : gapbuf) : list Z * gapbuf :=
  match o with
  | OInsert c => ([], gb_insert c gb)
  | OStr s => let '(n, gb) := gb_str_insert s gb in ([n], gb)
  | ODel n => ([], gb_del n gb)
  | OKill => ([], key_ctrl_k gb)
  | OLeft => ([], gb_move_left gb)
  | ORight => ([], gb_move_right gb)
  | OSet i => ([], gb_set_point i gb)
  | OEnd => ([], gb_set_point (-1) gb)
  | OReset => ([], gb_reset_buf gb)
  | OGet => let '(c, gb) := gb_get gb in ([c], gb)
  | OGetc => let '(c, gb) := gb_getc gb in ([c], gb)
  | OPrev => let '(c, gb) := gb_get_prev gb in ([c], gb)
  | OCopy => (gb_copy_to_buf gb (gb_data_size gb), gb)
  | OSize => ([gb_data_size gb], gb)
  | OEof => ([if gb_eof gb then 1 else 0], gb)
  end.

Fixpoint spec_run (os : list op) (z : zipper) : option (list (list Z) * zipper) :=
  match os with
  | [] => Some ([], z)
  | o :: os =>
      '(x, z) ← spec_step o z; '(xs, z) ← spec_run os z; Some (x :: xs, z)
  end.

Fixpoint gb_run (os : list op) (gb : gapbuf) : list (list Z) * gapbuf :=
  match os with
  | [] => ([], gb)
  | o :: os =>
      let '(x, gb) := gb_step o gb in
      let '(xs, gb) := gb_run os gb in (x :: xs, gb)
  end.

(** ** Representation *)

Record wf (gb : gapbuf) : Prop := mk_wf {
  wf_gap : 0 ≤ gap gb ≤ egap gb; wf_egap : egap gb ≤ ebuf gb; wf_ebuf : ebuf gb ≤ size gb;
  wf_point : 0 ≤ point gb ≤ gap gb ∨ egap gb ≤ point gb ≤ ebuf gb; wf_bound : ebuf gb ≤ 2 ^ 30 }.

Definition seg (m : mem) (a b : Z) : list Z := read_bytes m a (Z.to_nat (b - a)).
Definition text (gb : gapbuf) : list Z :=
  seg (data gb) 0 (gap gb) ++ seg (data gb) (egap gb) (ebuf gb).
(** The place of the point in the text *)
Definition cursor (gb : gapbuf) : Z :=
  if point gb <=? gap gb then point gb else point gb - (egap gb - gap gb).

Record rep (gb : gapbuf) (z : zipper) : Prop := mk_rep {
  rep_wf : wf gb; rep_text : text gb = fst z ++ snd z;
  rep_cursor : cursor gb = Z.of_nat (length (fst z)) }.

(** ** Segments of memory *)

Lemma length_seg m a b : a ≤ b → Z.of_nat (length (seg m a b)) = b - a.
Proof. intros H. unfold seg. rewrite length_read_bytes. lia. Qed.

Lemma seg_split m a c b : a ≤ c ≤ b → seg m a b = seg m a c ++ seg m c b.
Proof.
  intros H. unfold seg. replace (Z.to_nat (b - a)) with (Z.to_nat (c - a) + Z.to_nat (b - c))%nat by lia.
  rewrite read_bytes_app. by replace (a + Z.of_nat (Z.to_nat (c - a))) with c by lia.
Qed.

Lemma seg_nil m a b : b ≤ a → seg m a b = [].
Proof. intros H. unfold seg. by replace (Z.to_nat (b - a)) with O by lia. Qed.

Lemma seg_memcpy m d s n a b : a = d → b = d + n → 0 ≤ n → seg (memcpy m d s n) a b = seg m s (s + n).
Proof.
  intros -> -> Hn. unfold seg. replace (d + n - d) with n by lia. replace (s + n - s) with n by lia.
  rewrite <-(read_bytes_memcpy m d s (Z.to_nat n)). by rewrite Z2Nat.id.
Qed.

Lemma seg_memcpy_out m d s n a b : b ≤ d ∨ d + n ≤ a → seg (memcpy m d s n) a b = seg m a b.
Proof.
  intros H. unfold seg. apply read_bytes_ext. intros x Hx. rewrite ld8_memcpy.
  destruct (Z.leb_spec d x); destruct (Z.ltb_spec x (d + n)); try done. lia.
Qed.

Lemma seg_st8_out m p c a b : p < a ∨ b ≤ p → seg (st8 m p c) a b = seg m a b.
Proof. intros H. unfold seg. apply read_bytes_ext. intros x Hx. apply ld8_st8_ne. lia. Qed.

Lemma seg_one m a : seg m a (a + 1) = [ld8 m a].
Proof.
  unfold seg. replace (Z.to_nat (a + 1 - a)) with 1%nat by lia. unfold read_bytes.
  change (seqZ 0 (Z.of_nat 1)) with [0]. cbn. by rewrite Z.add_0_r.
Qed.

Lemma seg_cons m a b : a < b → seg m a b = ld8 m a :: seg m (a + 1) b.
Proof. intros H. rewrite (seg_split m a (a + 1) b), seg_one by lia. done. Qed.

(** ** The gap moved to the point *)

Lemma wf_sizes gb : wf gb →
  gb_buf_size gb = ebuf gb ∧ gb_gap_size gb = egap gb - gap gb ∧
  gb_data_size gb = ebuf gb - (egap gb - gap gb).
Proof.
  intros [Hg He Hs Hp Hb]. unfold gb_buf_size, gb_gap_size, gb_data_size.
  repeat split; apply wrap_small; unfold in_word; lia.
Qed.

Lemma length_text gb : wf gb → Z.of_nat (length (text gb)) = ebuf gb - (egap gb - gap gb).
Proof. intros [Hg He Hs Hp Hb]. unfold text. rewrite length_app, Nat2Z.inj_add, !length_seg; lia. Qed.

Lemma rep_length gb l r : rep gb (l, r) →
  Z.of_nat (length l) + Z.of_nat (length r) = ebuf gb - (egap gb - gap gb).
Proof.
  intros [Hw Ht _]. rewrite <-(length_text gb Hw), Ht, length_app. cbn. lia.
Qed.

(** When the point is at the gap, the two sides are the two parts of the block. *)
Record at_gap (gb : gapbuf) (l r : list Z) : Prop := mk_at_gap {
  ag_wf : wf gb; ag_point : point gb = gap gb;
  ag_left : l = seg (data gb) 0 (gap gb); ag_right : r = seg (data gb) (egap gb) (ebuf gb) }.

Lemma at_gap_rep gb l r : at_gap gb l r → rep gb (l, r).
Proof.
  intros [Hw Hp -> ->]. pose proof Hw as [Hg He Hs Hp' Hb]. split; [done|done|].
  cbn [fst]. rewrite length_seg by lia. unfold cursor. rewrite Hp, Z.leb_refl. lia.
Qed.

Lemma split_here {A} (l r l' r' : list A) :
  l ++ r = l' ++ r' → length l = length l' → l = l' ∧ r = r'.
Proof. intros E Hl. by apply app_inj_1. Qed.

(** Where the two sides of the text are in the block *)
Lemma sides gb l r : rep gb (l, r) →
  (point gb ≤ gap gb → l = seg (data gb) 0 (point gb) ∧
     r = seg (data gb) (point gb) (gap gb) ++ seg (data gb) (egap gb) (ebuf gb)) ∧
  (egap gb ≤ point gb → l = seg (data gb) 0 (gap gb) ++ seg (data gb) (egap gb) (point gb) ∧
     r = seg (data gb) (point gb) (ebuf gb)).
Proof.
  intros [Hw Ht Hc]. pose proof Hw as [Hg He Hs Hp Hb]. unfold cursor in Hc. unfold text in Ht.
  cbn [fst snd] in *. split; intros Hpt.
  - destruct (Z.leb_spec (point gb) (gap gb)); [|lia].
    apply (split_here l r); [|apply Nat2Z.inj; rewrite length_seg; lia].
    rewrite app_assoc, <-seg_split by lia. done.
  - apply (split_here l r); [by rewrite <-app_assoc, <-seg_split by lia|].
    apply Nat2Z.inj. rewrite length_app, Nat2Z.inj_add, !length_seg by lia.
    destruct (Z.leb_spec (point gb) (gap gb)); lia.
Qed.

Lemma rep_at_gap gb l r : rep gb (l, r) → point gb = gap gb → at_gap gb l r.
Proof.
  intros Hr Hp. pose proof Hr as [Hw _ _]. destruct (sides gb l r Hr) as [S _].
  destruct S as [-> ->]; [lia|]. split; [done|done|by rewrite Hp|]. by rewrite Hp, (seg_nil _ (gap gb)).
Qed.

Lemma move_gap_spec gb l r : rep gb (l, r) →
  let gb' := gb_move_gap_to_point gb in
  at_gap gb' l r ∧ ebuf gb' = ebuf gb ∧ size gb' = size gb ∧ egap gb' - gap gb' = egap gb - gap gb.
Proof.
  intros Hr. cbn zeta. unfold gb_move_gap_to_point. destruct (sides gb l r Hr) as [S1 S2].
  pose proof Hr as [Hw Ht Hc]. pose proof Hw as [Hg He Hs Hp Hb]. cbn [fst snd] in *.
  destruct (Z.eqb_spec (point gb) (gap gb)) as [Epg|Npg].
  { split; [by apply rep_at_gap|done]. }
  destruct (Z.eqb_spec (point gb) (egap gb)) as [Epe|Npe].
  { destruct S2 as [-> ->]; [lia|]. split; [|done]. split; [split; cbn; lia|done| |by rewrite Epe].
    by rewrite Epe, (seg_nil _ (egap gb)), app_nil_r. }
  destruct (Z.ltb_spec (point gb) (gap gb)) as [Hlt|Hge].
  - destruct S1 as [-> ->]; [lia|]. split; [|split_and!; cbn; lia]. split; cbn.
    + split; cbn; lia.
    + done.
    + by rewrite seg_memcpy_out by lia.
    + rewrite (seg_split (memcpy _ _ _ _) _ (egap gb)), seg_memcpy, seg_memcpy_out by lia.
      do 2 f_equal; lia.
  - destruct S2 as [-> ->]; [lia|]. destruct (Z.ltb_spec (egap gb) (point gb)); [|lia].
    split; [|split_and!; cbn; lia]. split; cbn.
    + split; cbn; lia.
    + done.
    + rewrite (seg_split (memcpy _ _ _ _) 0 (gap gb)), seg_memcpy_out, seg_memcpy by lia.
      do 2 f_equal; lia.
    + by rewrite seg_memcpy_out by lia.
Qed.

(** ** Insertion and deletion *)

Lemma putc_spec gb l r c :
  at_gap gb l r → gap gb < egap gb →
  let gb' := gb_putc c gb in
  at_gap gb' (l ++ [u8 c]) r ∧ ebuf gb' = ebuf gb ∧ egap gb' = egap gb ∧ gap gb' = gap gb + 1.
Proof.
  intros [Hw Hp -> ->] Hlt. pose proof Hw as [Hg He Hs Hp' Hb]. cbn zeta.
  unfold gb_putc, gb_move_gap_to_point. rewrite Hp, Z.eqb_refl.
  destruct (Z.eqb_spec (point gb) (ebuf gb)); [lia|].
  destruct (Z.eqb_spec (gap gb) (ebuf gb)); [lia|].
  split; [|done]. split; cbn.
  - split; cbn; lia.
  - lia.
  - rewrite (seg_split (st8 _ _ _) 0 (gap gb)), seg_st8_out, seg_one, ld8_st8_eq by lia. done.
  - by rewrite seg_st8_out by lia.
Qed.

Lemma expand_gap_spec gb l r n :
  at_gap gb l r → 0 < n → Z.of_nat (length (l ++ r)) + n ≤ LIMIT →
  let gb' := gb_expand_gap n gb in
  at_gap gb' l r ∧ n ≤ egap gb' - gap gb'.
Proof.
  intros [Hw Hp El Er] Hn Hl. pose proof Hw as [Hg He Hs Hp' Hb]. cbn zeta.
  assert (Z.of_nat (length (l ++ r)) = ebuf gb - (egap gb - gap gb)) as E.
  { rewrite El, Er. fold (text gb). by apply length_text. }
  rewrite E in Hl. unfold LIMIT in Hl. destruct (wf_sizes gb Hw) as (E1 & E2 & E3).
  unfold gb_expand_gap. rewrite E2.
  destruct (Z.ltb_spec (egap gb - gap gb) n) as [Hlt|]; [|split; [by split|lia]].
  unfold GB_DEFAULT_GAP_SIZE. rewrite (wrap_small 32 (n + 8)) by (unfold in_word; lia).
  unfold gb_expand_buf, GB_DEFAULT_GAP_SIZE. rewrite E1.
  destruct (Z.ltb_spec (ebuf gb) (ebuf gb + (n + 8))); [|lia].
  rewrite (wrap_small 32) by (unfold in_word; lia).
  split; [|cbn; lia]. split; cbn.
  - split; cbn; lia.
  - lia.
  - by rewrite seg_memcpy_out by lia.
  - rewrite seg_memcpy by lia. rewrite Er. f_equal; lia.
Qed.

Lemma insert_spec gb l r c :
  rep gb (l, r) → Z.of_nat (length (l ++ r)) + 1 ≤ LIMIT → rep (gb_insert c gb) (l ++ [u8 c], r).
Proof.
  intros Hr Hl. destruct (move_gap_spec gb l r Hr) as [Ha _]. unfold gb_insert.
  assert ((if negb (point gb =? gap gb) then gb_move_gap_to_point gb else gb) =
          gb_move_gap_to_point gb) as ->.
  { unfold gb_move_gap_to_point. by destruct (point gb =? gap gb). }
  set (g1 := gb_move_gap_to_point gb) in *. clearbody g1.
  apply at_gap_rep. destruct (Z.eqb_spec (gap g1) (egap g1)) as [E|N].
  - destruct (expand_gap_spec g1 l r 1 Ha) as [Ha' Hsz]; [lia|lia|].
    apply putc_spec; [done|]. lia.
  - apply putc_spec; [done|]. pose proof (wf_gap _ (ag_wf _ _ _ Ha)). lia.
Qed.

Lemma putc_all s : ∀ gb l r,
  at_gap gb l r → Z.of_nat (length s) ≤ egap gb - gap gb →
  at_gap (fold_left (λ gb c, gb_putc c gb) s gb) (l ++ (wrap 8 <$> s)) r.
Proof.
  induction s as [|c s IH]; intros gb l r Ha Hn; cbn [fold_left fmap list_fmap].
  { by rewrite app_nil_r. }
  cbn [length] in Hn. destruct (putc_spec gb l r c Ha) as (Ha' & E1 & E2 & E3); [lia|].
  rewrite cons_middle, app_assoc. apply IH; [done|]. lia.
Qed.

Lemma str_insert_spec gb l r s :
  rep gb (l, r) → Z.of_nat (length (l ++ r)) + Z.of_nat (length s) ≤ LIMIT →
  let '(n, gb') := gb_str_insert s gb in
  n = Z.of_nat (length s) ∧ rep gb' (l ++ (wrap 8 <$> s), r).
Proof.
  intros Hr Hl. unfold gb_str_insert. destruct (Z.eqb_spec (Z.of_nat (length s)) 0) as [E|N].
  { destruct s; [|cbn in E; lia]. cbn. by rewrite app_nil_r. }
  split; [done|]. destruct (move_gap_spec gb l r Hr) as [Ha _].
  set (g1 := gb_move_gap_to_point gb) in *. clearbody g1. apply at_gap_rep.
  destruct (wf_sizes g1 (ag_wf _ _ _ Ha)) as (_ & E2 & _). rewrite E2.
  destruct (Z.ltb_spec (egap g1 - gap g1) (Z.of_nat (length s))) as [Hlt|Hge].
  - destruct (expand_gap_spec g1 l r (Z.of_nat (length s)) Ha) as [Ha' Hsz]; [lia|done|].
    by apply putc_all.
  - apply putc_all; [done|lia].
Qed.

Lemma del_at gb l r n :
  at_gap gb l r → 0 ≤ n ≤ Z.of_nat (length r) →
  at_gap (gb <| egap ::= λ e, e + n |>) l (drop (Z.to_nat n) r).
Proof.
  intros [Hw Hp -> ->] Hn. pose proof Hw as [Hg He Hs Hp' Hb].
  rewrite length_seg in Hn by lia. split; cbn; [split; cbn; lia|done|done|].
  rewrite (seg_split _ (egap gb) (egap gb + n) (ebuf gb)) by lia. apply drop_app_length'.
  apply Nat2Z.inj. rewrite length_seg; lia.
Qed.

Lemma del_spec gb l r n :
  rep gb (l, r) → 0 ≤ n ≤ Z.of_nat (length r) → rep (gb_del n gb) (l, drop (Z.to_nat n) r).
Proof.
  intros Hr Hn. destruct (move_gap_spec gb l r Hr) as [Ha _]. unfold gb_del.
  assert ((if negb (point gb =? gap gb) then gb_move_gap_to_point gb else gb) =
          gb_move_gap_to_point gb) as ->.
  { unfold gb_move_gap_to_point. by destruct (point gb =? gap gb). }
  by apply at_gap_rep, del_at.
Qed.

Lemma right_size gb l r : at_gap gb l r → gb_right_data_size gb = Z.of_nat (length r).
Proof.
  intros [Hw Hp El Er]. pose proof Hw as [Hg He Hs Hp' Hb]. unfold gb_right_data_size, gb_eof.
  rewrite Hp, Z.eqb_refl, Er, length_seg by lia.
  destruct (Z.eqb_spec (egap gb) (ebuf gb)); [lia|]. apply wrap_small. unfold in_word. lia.
Qed.

Lemma kill_spec gb l r : rep gb (l, r) → rep (key_ctrl_k gb) (l, []).
Proof.
  intros Hr. destruct (move_gap_spec gb l r Hr) as [Ha _]. unfold key_ctrl_k.
  set (g1 := gb_move_gap_to_point gb) in *. clearbody g1.
  rewrite (right_size g1 l r Ha). unfold gb_del. rewrite (ag_point _ _ _ Ha), Z.eqb_refl. cbn [negb]. apply at_gap_rep.
  assert ([] = drop (Z.to_nat (Z.of_nat (length r))) r) as ->.
  { symmetry. apply drop_ge. lia. }
  apply del_at; [done|lia].
Qed.

(** ** Moving the point *)

Lemma rep_point gb l r p k :
  rep gb (l, r) → 0 ≤ p ≤ gap gb ∨ egap gb ≤ p ≤ ebuf gb →
  cursor (gb <| point := p |>) = Z.of_nat k → (k ≤ length (l ++ r))%nat →
  rep (gb <| point := p |>) (split_at (l ++ r) k).
Proof.
  intros [Hw Ht Hc] Hp Hk Hle. pose proof Hw as [Hg He Hs Hp' Hb]. split.
  - split; cbn; lia.
  - change (text gb = take k (l ++ r) ++ drop k (l ++ r)). by rewrite take_drop.
  - rewrite Hk. cbn [fst split_at]. rewrite length_take. lia.
Qed.

Lemma split_at_length {A} (l r : list A) : (take (length l) (l ++ r), drop (length l) (l ++ r)) = (l, r).
Proof. by rewrite take_app_length, drop_app_length. Qed.

(** Moving the point to another address of the same place changes nothing. *)
Lemma rep_repoint gb l r p :
  rep gb (l, r) → 0 ≤ p ≤ gap gb ∨ egap gb ≤ p ≤ ebuf gb →
  cursor (gb <| point := p |>) = cursor gb → rep (gb <| point := p |>) (l, r).
Proof.
  intros Hr Hp Hc. rewrite <-(split_at_length l r).
  apply rep_point; [done|done|by rewrite Hc, (rep_cursor _ _ Hr)|]. rewrite length_app. lia.
Qed.

Ltac decide_points :=
  unfold cursor in *; cbn [point gap egap ebuf size data] in *;
  repeat match goal with
  | H : context [?a <=? ?b] |- _ => destruct (Z.leb_spec a b)
  | |- context [?a <=? ?b] => destruct (Z.leb_spec a b)
  | |- context [?a <? ?b] => destruct (Z.ltb_spec a b)
  | |- context [?a =? ?b] => destruct (Z.eqb_spec a b)
  end; cbn [point gap egap ebuf size data]; try lia.

Lemma move_left_spec gb l r :
  rep gb (l, r) → rep (gb_move_left gb) (split_at (l ++ r) (pred (length l))).
Proof.
  intros Hr. pose proof Hr as [Hw Ht Hc]. pose proof Hw as [Hg He Hs Hp Hb]. cbn [fst snd] in Hc.
  pose proof (rep_length _ _ _ Hr) as Hl. unfold gb_move_left.
  destruct (Z.eqb_spec (point gb) (egap gb)) as [E|N].
  - assert (rep (gb <| point := gap gb |>) (l, r)) as Hr'.
    { apply rep_repoint; [done|lia|]. unfold cursor. cbn. decide_points. }
    apply (rep_point (gb <| point := gap gb |>)); [done| | |rewrite length_app; lia].
    + cbn. decide_points.
    + unfold cursor. cbn. decide_points.
  - apply (rep_point gb); [done| | |rewrite length_app; lia].
    + decide_points.
    + unfold cursor. cbn. decide_points.
Qed.

Lemma move_right_spec gb l r :
  rep gb (l, r) → rep (gb_move_right gb) (split_at (l ++ r) (S (length l))).
Proof.
  intros Hr. pose proof Hr as [Hw Ht Hc]. pose proof Hw as [Hg He Hs Hp Hb]. cbn [fst snd] in Hc.
  pose proof (rep_length _ _ _ Hr) as Hl. unfold gb_move_right.
  assert (split_at (l ++ r) (S (length l)) =
          split_at (l ++ r) (Nat.min (length (l ++ r)) (S (length l)))) as ->.
  { unfold split_at. rewrite length_app. destruct (Nat.le_gt_cases (S (length l)) (length l + length r)) as [H|H].
    - by rewrite Nat.min_r.
    - rewrite Nat.min_l by lia. rewrite !take_ge, !drop_ge; rewrite ?length_app; try lia. done. }
  destruct (Z.eqb_spec (point gb) (gap gb)) as [E|N].
  - assert (rep (gb <| point := egap gb |>) (l, r)) as Hr'.
    { apply rep_repoint; [done|lia|]. unfold cursor. cbn. decide_points. }
    apply (rep_point (gb <| point := egap gb |>)); [done| | |rewrite length_app; lia].
    + cbn. decide_points.
    + unfold cursor. cbn. rewrite length_app. decide_points.
  - apply (rep_point gb); [done| | |rewrite length_app; lia].
    + decide_points.
    + unfold cursor. cbn. rewrite length_app. decide_points.
Qed.

Lemma set_point_spec gb l r i :
  rep gb (l, r) → 0 ≤ i ≤ Z.of_nat (length (l ++ r)) →
  rep (gb_set_point i gb) (split_at (l ++ r) (Z.to_nat i)).
Proof.
  intros Hr Hi. pose proof Hr as [Hw Ht Hc]. pose proof Hw as [Hg He Hs Hp Hb].
  pose proof (rep_length _ _ _ Hr) as Hl. rewrite length_app in Hi. unfold gb_set_point.
  destruct (Z.eqb_spec i (-1)); [lia|]. cbn [gap point egap].
  change (gap (gb <| point := i |>)) with (gap gb). change (point (gb <| point := i |>)) with i.
  destruct (Z.ltb_spec (gap gb) i).
  - apply (rep_point gb l r (i + (egap gb - gap gb))); [done|lia| |rewrite length_app; lia].
    unfold cursor. cbn. decide_points.
  - apply (rep_point gb l r i); [done|lia| |rewrite length_app; lia]. unfold cursor. cbn. decide_points.
Qed.

Lemma set_end_spec gb l r : rep gb (l, r) → rep (gb_set_point (-1) gb) (l ++ r, []).
Proof.
  intros Hr. pose proof Hr as [Hw Ht Hc]. pose proof Hw as [Hg He Hs Hp Hb].
  pose proof (rep_length _ _ _ Hr) as Hl. unfold gb_set_point. cbn [Z.eqb].
  assert ((l ++ r, []) = split_at (l ++ r) (length (l ++ r))) as ->.
  { unfold split_at. by rewrite take_ge, drop_ge. }
  apply rep_point; [done|lia| |done]. rewrite length_app. unfold cursor. cbn. decide_points.
Qed.

(** ** Reading *)

Lemma get_spec gb l c r :
  rep gb (l, c :: r) → let '(x, gb') := gb_get gb in x = c ∧ rep gb' (l, c :: r).
Proof.
  intros Hr. destruct (sides gb _ _ Hr) as [S1 S2]. pose proof Hr as [Hw Ht Hc].
  pose proof Hw as [Hg He Hs Hp Hb]. unfold gb_get.
  destruct (Z.eqb_spec (point gb) (gap gb)) as [E|N].
  - split.
    + destruct S1 as [_ S1]; [lia|]. rewrite E, (seg_nil _ (gap gb)) in S1 by lia.
      assert (egap gb < ebuf gb) as Hlt.
      { apply (f_equal length) in S1. cbn in S1.
        pose proof (length_seg (data gb) (egap gb) (ebuf gb) He). lia. }
      cbn in S1. rewrite seg_cons in S1 by lia. by injection S1.
    + apply rep_repoint; [done|lia|]. unfold cursor. cbn. decide_points.
  - split; [|done]. destruct (Z.leb_spec (point gb) (gap gb)).
    + destruct S1 as [_ S1]; [lia|]. rewrite (seg_cons _ (point gb)) in S1 by lia. by injection S1.
    + destruct S2 as [_ S2]; [lia|].
      assert (point gb < ebuf gb) as Hlt.
      { apply (f_equal length) in S2. cbn in S2.
        pose proof (length_seg (data gb) (point gb) (ebuf gb)). lia. }
      rewrite seg_cons in S2 by lia. by injection S2.
Qed.

Lemma getc_get gb :
  gb_getc gb = let '(c, gb) := gb_get gb in (c, gb <| point ::= λ p, p + 1 |>).
Proof. unfold gb_getc, gb_get. by destruct (point gb =? gap gb). Qed.

Lemma getc_spec gb l c r :
  rep gb (l, c :: r) → let '(x, gb') := gb_getc gb in x = c ∧ rep gb' (l ++ [c], r).
Proof.
  intros Hr. rewrite getc_get. pose proof (get_spec gb l c r Hr) as Hg.
  assert (point (snd (gb_get gb)) ≠ gap gb ∨ gap gb = egap gb) as Hn.
  { unfold gb_get. destruct (Z.eqb_spec (point gb) (gap gb)) as [E|N]; cbn; [lia|by left]. }
  assert (gap (snd (gb_get gb)) = gap gb ∧ egap (snd (gb_get gb)) = egap gb) as [Eg Ee].
  { unfold gb_get. by destruct (point gb =? gap gb). }
  destruct (gb_get gb) as [x g1]. destruct Hg as [-> Hr1]. split; [done|]. cbn [snd] in *.
  pose proof (rep_length _ _ _ Hr1) as Hl. cbn [length] in Hl.
  pose proof Hr1 as [Hw Ht Hc]. pose proof Hw as [Hg He Hs Hp Hb]. cbn [fst] in Hc.
  assert ((l ++ [c], r) = split_at (l ++ c :: r) (S (length l))) as ->.
  { unfold split_at. change (c :: r) with ([c] ++ r). rewrite app_assoc.
    assert (S (length l) = length (l ++ [c])) as -> by (rewrite length_app; cbn; lia).
    by rewrite take_app_length, drop_app_length. }
  apply (rep_point g1 l (c :: r) (point g1 + 1)); [done| | |rewrite length_app; cbn; lia].
  - decide_points.
  - unfold cursor. cbn. decide_points.
Qed.

Lemma get_prev_spec gb l c r :
  rep gb (l ++ [c], r) → let '(x, gb') := gb_get_prev gb in x = c ∧ rep gb' (l ++ [c], r).
Proof.
  intros Hr. unfold gb_get_prev.
  assert (∃ g1, (if point gb =? egap gb then gb <| point := gap gb |> else gb) = g1 ∧
    rep g1 (l ++ [c], r) ∧ (point g1 ≤ gap g1 ∨ egap g1 < point g1)) as (g1 & -> & Hr1 & Hpt).
  { pose proof Hr as [Hw _ _]. pose proof Hw as [Hg He Hs Hp Hb]. eexists. split; [done|].
    destruct (Z.eqb_spec (point gb) (egap gb)) as [E|N]; [|split; [done|lia]].
    split; [|cbn; lia]. apply rep_repoint; [done|lia|]. unfold cursor. cbn. decide_points. }
  split; [|done]. clear Hr gb. destruct (sides g1 _ _ Hr1) as [S1 S2].
  pose proof Hr1 as [Hw _ Hc]. pose proof Hw as [Hg He Hs Hp Hb]. cbn [fst] in Hc.
  rewrite length_app in Hc. cbn [length] in Hc. unfold cursor in Hc.
  destruct (Z.eqb_spec (point g1) 0) as [E|N].
  { rewrite E in Hc. destruct (Z.leb_spec 0 (gap g1)); lia. }
  destruct Hpt as [Hpt|Hpt].
  - destruct S1 as [S1 _]; [done|]. rewrite (seg_split _ 0 (point g1 - 1)) in S1 by lia.
    replace (point g1) with (point g1 - 1 + 1) in S1 at 3 by lia.
    rewrite seg_one in S1. apply app_inj_2 in S1 as [_ S1]; [by injection S1|done].
  - destruct S2 as [S2 _]; [lia|]. rewrite (seg_split _ (egap g1) (point g1 - 1)) in S2 by lia.
    replace (point g1) with (point g1 - 1 + 1) in S2 at 3 by lia.
    rewrite seg_one, app_assoc in S2. apply app_inj_2 in S2 as [_ S2]; [by injection S2|done].
Qed.

Lemma copy_spec gb l r : rep gb (l, r) → gb_copy_to_buf gb (gb_data_size gb) = (l ++ r) ++ [0].
Proof.
  intros [Hw Ht _]. destruct (wf_sizes gb Hw) as (_ & _ & E). unfold gb_copy_to_buf.
  rewrite Z.min_id, E. f_equal. cbn [fst snd] in Ht. rewrite <-Ht. pose proof Hw as [Hg He _ _ _].
  destruct (Z.eqb_spec (ebuf gb - (egap gb - gap gb)) 0) as [H|H].
  - unfold text. by rewrite !seg_nil by lia.
  - unfold text, seg. by rewrite Z.sub_0_r.
Qed.

Lemma eof_spec gb l r : rep gb (l, r) → gb_eof gb = match r with [] => true | _ => false end.
Proof.
  intros Hr. pose proof (rep_length _ _ _ Hr) as Hl. pose proof Hr as [Hw Ht Hc].
  pose proof Hw as [Hg He Hs Hp Hb]. cbn [fst] in Hc. unfold gb_eof, cursor in *.
  assert (match r with [] => true | _ => false end = (Z.of_nat (length r) =? 0)) as -> by by destruct r.
  destruct (Z.eqb_spec (point gb) (gap gb)); destruct (Z.leb_spec (point gb) (gap gb));
    match goal with |- (?a =? ?b) = (?c =? ?d) =>
      destruct (Z.eqb_spec a b); destruct (Z.eqb_spec c d) end; lia || done.
Qed.

Lemma reset_spec gb : 0 ≤ ebuf gb ≤ size gb → ebuf gb ≤ 2 ^ 30 → rep (gb_reset_buf gb) ([], []).
Proof.
  intros H Hb. unfold gb_reset_buf, gb_buf_size. rewrite wrap_small by (unfold in_word; lia).
  rewrite swrap_small by lia. split; [|cbn|done].
  - split; cbn; lia.
  - unfold text. cbn. by rewrite !seg_nil by lia.
Qed.

(** ** Refinement *)

Lemma gb_step_refines gb z o x z' :
  rep gb z → spec_step o z = Some (x, z') →
  fst (gb_step o gb) = x ∧ rep (snd (gb_step o gb)) z'.
Proof.
  destruct z as [l r]. intros Hr. pose proof Hr as [Hw Ht _].
  destruct o; cbn [spec_step gb_step]; intros E.
  - destruct (Z.leb_spec (Z.of_nat (length (l ++ r)) + 1) LIMIT); [|done]. injection E as <- <-.
    split; [done|by apply insert_spec].
  - destruct (Z.leb_spec (Z.of_nat (length (l ++ r)) + Z.of_nat (length s)) LIMIT); [|done].
    injection E as <- <-. pose proof (str_insert_spec gb l r s Hr ltac:(done)) as Hs.
    destruct (gb_str_insert s gb) as [n g1]. destruct Hs as [-> Hs]. by split.
  - destruct (Z.leb_spec 0 n); [|done]. destruct (Z.leb_spec n (Z.of_nat (length r))); [|done].
    injection E as <- <-. split; [done|by apply del_spec].
  - injection E as <- <-. split; [done|by apply (kill_spec _ l r)].
  - injection E as <- <-. split; [done|by apply move_left_spec].
  - injection E as <- <-. split; [done|by apply move_right_spec].
  - destruct (Z.leb_spec 0 i); [|done]. destruct (Z.leb_spec i (Z.of_nat (length (l ++ r)))); [|done].
    injection E as <- <-. split; [done|by apply set_point_spec].
  - injection E as <- <-. split; [done|by apply set_end_spec].
  - injection E as <- <-. split; [done|]. destruct Hw. apply reset_spec; lia.
  - destruct r as [|c r]; [done|]. injection E as <- <-. pose proof (get_spec gb l c r Hr) as Hs.
    destruct (gb_get gb). destruct Hs as [-> Hs]. by split.
  - destruct r as [|c r]; [done|]. injection E as <- <-. pose proof (getc_spec gb l c r Hr) as Hs.
    destruct (gb_getc gb). destruct Hs as [-> Hs]. by split.
  - destruct (last l) as [c|] eqn:El; [|done]. injection E as <- <-.
    apply last_Some in El as [l0 ->]. pose proof (get_prev_spec gb l0 c r Hr) as Hs.
    destruct (gb_get_prev gb). destruct Hs as [-> Hs]. by split.
  - injection E as <- <-. split; [by apply copy_spec|done].
  - injection E as <- <-. split; [|done]. destruct (wf_sizes gb Hw) as (_ & _ & ->). cbn.
    rewrite <-(length_text gb Hw), Ht. done.
  - injection E as <- <-. split; [|done]. cbn. rewrite (eof_spec gb l r Hr). by destruct r.
Qed.

(** C21. The gap buffer is a text with a cursor: every sequence of its operations
    that the specification allows gives the same answers (characters read,
    lengths, the end test, the text copied out) as the two lists of
    characters before and after the cursor, and leaves the buffer representing
    them, wherever the gap lies and whichever of its two addresses the point
    has; no step leaves the block. *)
Theorem gapbuf_refines (os : list op) (gb : gapbuf) (z z' : zipper) (xs : list (list Z)) :
  rep gb z → spec_run os z = Some (xs, z') →
  ∃ gb', gb_run os gb = (xs, gb') ∧ rep gb' z' ∧ ebuf gb' ≤ size gb'.
Proof.
  revert gb z xs. induction os as [|o os IH]; intros gb z xs Hr E; cbn [spec_run gb_run] in *.
  { injection E as <- <-. exists gb. split; [done|]. split; [done|]. apply Hr. }
  destruct (spec_step o z) as [[x z1]|] eqn:Es; cbn in E; [|done].
  destruct (gb_step_refines gb z o x z1 Hr Es) as [Ex Hr1].
  destruct (gb_step o gb) as [y g1]. cbn [fst snd] in *. subst y.
  destruct (spec_run os z1) as [[ys z2]|] eqn:E2; cbn in E; [|done]. injection E as <- <-.
  destruct (IH g1 z1 ys Hr1 E2) as (gb' & -> & Hr' & Hsz). by exists gb'.
Qed.

Lemma create_rep m : rep (gb_create m) ([], []).
Proof. apply reset_spec; vm_compute; intuition congruence. Qed.

(** ** The backspace key *)

Lemma move_left_point gb l r c :
  rep gb (l ++ [c], r) → rep (gb_move_left gb) (l, c :: r).
Proof.
  intros Hr. pose proof (move_left_spec gb _ _ Hr) as H.
  assert (split_at ((l ++ [c]) ++ r) (pred (length (l ++ [c]))) = (l, c :: r)) as E.
  { unfold split_at. rewrite length_app, <-app_assoc. cbn [length]. replace (pred (length l + 1)) with (length l) by lia.
    by rewrite take_app_length, drop_app_length. }
  by rewrite E in H.
Qed.

(** The backspace key deletes the character before the cursor.  At the start
    of the line it does nothing if the point is the start of the block; but if
    the gap is there too and the point is behind it, which is how moving back
    over the first character leaves it, the key deletes the character after
    the cursor. *)
Theorem backspace_deletes (gb : gapbuf) (l r : list Z) (c : Z) :
  (rep gb (l ++ [c], r) → rep (key_backspace gb) (l, r)) ∧
  (rep gb ([], r) → point gb = 0 → key_backspace gb = gb) ∧
  (rep gb ([], c :: r) → point gb ≠ 0 → rep (key_backspace gb) ([], r)).
Proof.
  unfold key_backspace, gb_point_at_start. split_and!.
  - intros Hr. destruct (Z.eqb_spec (point gb) 0) as [E|N]; cbn [negb].
    + exfalso. pose proof Hr as [Hw _ Hc]. pose proof Hw as [Hg He Hs Hp Hb]. cbn [fst] in Hc.
      rewrite length_app in Hc. cbn [length] in Hc. unfold cursor in Hc. rewrite E in Hc.
      destruct (Z.leb_spec 0 (gap gb)); lia.
    + apply (del_spec _ l (c :: r) 1); [by apply move_left_point|cbn; lia].
  - intros _ ->. done.
  - intros Hr Hp. destruct (Z.eqb_spec (point gb) 0) as [E|N]; [done|]. cbn [negb].
    apply (del_spec _ [] (c :: r) 1); [by apply (move_left_spec gb [] (c :: r))|cbn; lia].
Qed.

(** ** Moving by words *)

Lemma at_start_cursor gb l c r : rep gb (l ++ [c], r) → gb_point_at_start gb = false.
Proof.
  intros [Hw _ Hc]. pose proof Hw as [Hg He Hs Hp Hb]. cbn [fst] in Hc.
  rewrite length_app in Hc. cbn [length] in Hc. unfold gb_point_at_start, cursor in *.
  destruct (Z.eqb_spec (point gb) 0) as [E|N]; [|done]. rewrite E in Hc. destruct (Z.leb_spec 0 (gap gb)); lia.
Qed.

(** At the start of the text a look back leaves the point at the start of the block. *)
Lemma get_prev_start gb r :
  rep gb ([], r) → rep (snd (gb_get_prev gb)) ([], r) ∧ gb_point_at_start (snd (gb_get_prev gb)) = true.
Proof.
  intros Hr. pose proof Hr as [Hw _ Hc]. pose proof Hw as [Hg He Hs Hp Hb]. cbn [fst length] in Hc.
  unfold gb_get_prev, gb_point_at_start. cbn [snd]. unfold cursor in Hc.
  destruct (Z.eqb_spec (point gb) (egap gb)) as [E|N].
  - split; [|cbn; apply Z.eqb_eq; destruct (Z.leb_spec (point gb) (gap gb)); lia].
    apply rep_repoint; [done|lia|]. unfold cursor. cbn. decide_points.
  - split; [done|]. apply Z.eqb_eq. destruct (Z.leb_spec (point gb) (gap gb)); lia.
Qed.

(** At its end a look ahead leaves the point at the end of the block. *)
Lemma get_end gb l :
  rep gb (l, []) → rep (snd (gb_get gb)) (l, []) ∧ gb_point_at_end (snd (gb_get gb)) = true.
Proof.
  intros Hr. pose proof Hr as [Hw _ Hc]. pose proof Hw as [Hg He Hs Hp Hb]. cbn [fst] in Hc.
  pose proof (rep_length _ _ _ Hr) as Hl. cbn [length] in Hl.
  unfold gb_get, gb_point_at_end. cbn [snd]. unfold cursor in Hc.
  destruct (Z.eqb_spec (point gb) (gap gb)) as [E|N].
  - split; [|cbn; apply Z.eqb_eq; destruct (Z.leb_spec (point gb) (gap gb)); lia].
    apply rep_repoint; [done|lia|]. unfold cursor. cbn. decide_points.
  - split; [done|]. apply Z.eqb_eq. destruct (Z.leb_spec (point gb) (gap gb)); lia.
Qed.

Lemma left_arr_rep gb l c r : rep gb (l ++ [c], r) → rep (key_left_arr gb) (l, c :: r).
Proof.
  intros Hr. unfold key_left_arr. rewrite (at_start_cursor _ _ _ _ Hr). by apply move_left_point.
Qed.

Lemma left_arr_start gb r : rep gb ([], r) → rep (key_left_arr gb) ([], r).
Proof. intros Hr. unfold key_left_arr. destruct (gb_point_at_start gb); [done|]. by apply (move_left_spec gb [] r). Qed.

Lemma right_arr_rep gb l c r : rep gb (l, c :: r) → rep (key_right_arr gb) (l ++ [c], r).
Proof.
  intros Hr. unfold key_right_arr. rewrite (eof_spec _ _ _ Hr). cbn [negb].
  pose proof (move_right_spec gb _ _ Hr) as H. unfold split_at in H.
  assert (S (length l) = length (l ++ [c])) as E by (rewrite length_app; cbn; lia).
  change (l ++ c :: r) with (l ++ [c] ++ r) in H. rewrite app_assoc, E, take_app_length, drop_app_length in H. done.
Qed.

Lemma right_arr_end gb l : rep gb (l, []) → key_right_arr gb = gb.
Proof. intros Hr. unfold key_right_arr. by rewrite (eof_spec _ _ _ Hr). Qed.

(** [m] lies between the cursor and the place after the next space to the left,
    or the start. *)
Definition word_before (l l' m : list Z) : Prop :=
  l = l' ++ m ∧ (l' = [] ∨ last l' = Some 32) ∧ Forall (λ x, x ≠ 32) (removelast m) ∧ (l ≠ [] → m ≠ []).
(** [m] lies between the cursor and the next space but the one under it, or the end. *)
Definition word_after (r m r' : list Z) : Prop :=
  r = m ++ r' ∧ (r' = [] ∨ head r' = Some 32) ∧ Forall (λ x, x ≠ 32) (tail m) ∧ (r ≠ [] → m ≠ []).

Lemma word_before_one l c : l = [] ∨ last l = Some 32 → word_before (l ++ [c]) l [c].
Proof. intros H. split_and!; [done|done|by constructor|done]. Qed.

Lemma word_before_step l d c l' m :
  d ≠ 32 → word_before (l ++ [d]) l' m → word_before ((l ++ [d]) ++ [c]) l' (m ++ [c]).
Proof.
  intros Hd (E & Hl & Hm & Hne). split_and!; [by rewrite E, app_assoc|done| |by intros _ [_ ?]%app_nil].
  rewrite removelast_last. assert (m ≠ []) as Hm0 by (apply Hne; by intros [_ ?]%app_nil).
  destruct m as [|x m _] using rev_ind; [done|]. rewrite removelast_last in Hm.
  rewrite app_assoc in E. apply app_inj_tail in E as [_ <-]. apply Forall_app. by repeat constructor.
Qed.

Lemma word_left_rep n : ∀ gb l r, rep gb (l, r) → (length l < n)%nat →
  ∃ l' m gb', key_word_left n gb = Some gb' ∧ word_before l l' m ∧ rep gb' (l', m ++ r).
Proof.
  induction n as [|n IH]; intros gb l r Hr Hn; [lia|]. cbn [key_word_left].
  destruct l as [|c l _] using rev_ind.
  - destruct (get_prev_start _ r (left_arr_start _ _ Hr)) as [Hr1 Hs1].
    destruct (gb_get_prev (key_left_arr gb)) as [x g1]. cbn [snd] in *. rewrite Hs1.
    exists [], [], g1. split; [by destruct (x =? 32)|]. split; [|done]. by split_and!; [|left|constructor|].
  - apply left_arr_rep in Hr. destruct l as [|d l _] using rev_ind.
    + destruct (get_prev_start _ _ Hr) as [Hr1 Hs1].
      destruct (gb_get_prev (key_left_arr gb)) as [x g1]. cbn [snd] in *. rewrite Hs1.
      exists [], [c], g1. split; [by destruct (x =? 32)|]. split; [|done]. by apply word_before_one; left.
    + pose proof (get_prev_spec _ _ _ _ Hr) as H1. destruct (gb_get_prev (key_left_arr gb)) as [x g1].
      destruct H1 as [-> Hr1]. destruct (Z.eqb_spec d 32) as [->|N].
      * exists (l ++ [32]), [c], g1. split; [done|]. split; [|done]. apply word_before_one. right. by rewrite last_snoc.
      * rewrite (at_start_cursor _ _ _ _ Hr1). cbn [negb].
        destruct (IH g1 (l ++ [d]) (c :: r) Hr1) as (l' & m & g2 & E & Hw & Hr2).
        { rewrite !length_app in *. cbn in *. lia. }
        exists l', (m ++ [c]), g2. split; [done|]. split; [by apply word_before_step|]. by rewrite <-app_assoc.
Qed.

Lemma word_right_rep n : ∀ gb l r, rep gb (l, r) → (length r + 1 < n)%nat →
  ∃ m r' gb', key_word_right n gb = Some gb' ∧ word_after r m r' ∧ rep gb' (l ++ m, r').
Proof.
  assert (∀ l gb, rep gb (l, []) → ∃ m r' gb', Some gb = Some gb' ∧ word_after [] m r' ∧ rep gb' (l ++ m, r')) as H0.
  { intros l gb Hr. exists [], [], gb. split; [done|]. rewrite app_nil_r. split; [|done]. by split_and!; [|left|constructor|]. }
  assert (∀ n l gb, rep gb (l, []) → gb_point_at_end gb = true →
    key_word_right (S n) gb = Some gb) as Hend by (intros * Hr E; cbn [key_word_right]; by rewrite E).
  induction n as [|n IH]; intros gb l r Hr Hn; [lia|]. cbn [key_word_right].
  destruct (gb_point_at_end gb) eqn:Ee.
  { assert (r = []) as ->; [|by apply H0].
    pose proof (rep_length _ _ _ Hr) as Hl. destruct Hr as [Hw _ Hc]. pose proof Hw as [Hg He Hs Hp Hb].
    unfold gb_point_at_end, cursor in *. apply Z.eqb_eq in Ee. cbn [fst] in Hc. destruct r; [done|]. cbn in Hl.
    destruct (Z.leb_spec (point gb) (gap gb)); lia. }
  destruct r as [|c r].
  - rewrite (right_arr_end _ _ Hr). destruct (get_end _ _ Hr) as [Hr1 He1].
    destruct (gb_get gb) as [x g1]. cbn [snd] in *. destruct n as [|n]; [cbn in Hn; lia|].
    rewrite (Hend n l g1 Hr1 He1). destruct (x =? 32); by apply H0.
  - apply right_arr_rep in Hr. destruct r as [|d r].
    + destruct (get_end _ _ Hr) as [Hr1 He1]. destruct (gb_get (key_right_arr gb)) as [x g1]. cbn [snd] in *.
      destruct n as [|n]; [cbn in Hn; lia|]. rewrite (Hend n _ g1 Hr1 He1).
      exists [c], [], g1. split; [by destruct (x =? 32)|]. split; [|done]. by split_and!; [|left|constructor|].
    + pose proof (get_spec _ _ _ _ Hr) as H1. destruct (gb_get (key_right_arr gb)) as [x g1].
      destruct H1 as [-> Hr1]. destruct (Z.eqb_spec d 32) as [->|N].
      * exists [c], (32 :: r), g1. split; [done|]. split; [|done]. by split_and!; [|right|constructor|].
      * destruct (IH g1 _ (d :: r) Hr1) as (m & r' & g2 & E & (Er & Hr' & Hm & Hne) & Hr2); [cbn in *; lia|].
        exists (c :: m), r', g2. split; [done|]. rewrite <-app_assoc in Hr2. split; [|done].
        split_and!; [by rewrite Er|done| |done]. cbn [tail].
        destruct m as [|y m]; [by destruct Hne|]. injection Er as -> _. by constructor.
Qed.

(** The keys that move by words come to a stop, after at most one turn of
    their loops for each character and one or two more: to the left they go
    to the place after the next space, or to the start of the line, to the
    right to the next space, or to the end, at least one character unless
    there is none; and they change nothing but the cursor. *)
Theorem word_keys_stop (gb : gapbuf) (l r : list Z) (n : nat) :
  rep gb (l, r) → (length l + length r + 2 ≤ n)%nat →
  (∃ l' m gb', key_word_left n gb = Some gb' ∧ word_before l l' m ∧ rep gb' (l', m ++ r)) ∧
  (∃ m r' gb', key_word_right n gb = Some gb' ∧ word_after r m r' ∧ rep gb' (l ++ m, r')).
Proof. intros Hr Hn. split; [apply word_left_rep|apply word_right_rep]; done || lia. Qed.

(** ** Witnesses *)

Definition demo_mem : mem := λ _, 0.
(** "ab", the cursor in front, "x" and the copy *)
Definition demo_ops : list op :=
  [OStr [97; 98]; OSet 0; OInsert 120; OGet; OEnd; OLeft; OGetc; OEof; OPrev; OSet 1; ODel 1; OCopy].

Lemma gapbuf_refines_witness :
  ∃ gb, gb_run demo_ops (gb_create demo_mem) =
    ([[2]; []; []; [97]; []; []; [98]; [1]; [98]; []; []; [120; 98; 0]], gb) ∧
    rep gb ([120], [98]) ∧ ebuf gb ≤ size gb.
Proof.
  apply (gapbuf_refines demo_ops (gb_create demo_mem) ([], []) ([120], [98])); [apply create_rep|].
  vm_compute. reflexivity.
Defined.

(** "ab", to the front, "x", backspace, right, left: the cursor is in front
    again, but the point is behind the gap. *)
Definition demo_line : gapbuf :=
  key_left_arr (key_right_arr (key_backspace (handle_input_display 120
    (key_ctrl_a (snd (gb_str_insert [97; 98] (gb_create demo_mem))))))).

Lemma demo_line_rep : rep demo_line ([], [97; 98]).
Proof. split; [split; vm_compute; intuition congruence|vm_compute; reflexivity|vm_compute; reflexivity]. Qed.

Lemma backspace_deletes_witness :
  rep demo_line ([], [97; 98]) ∧ rep (key_backspace demo_line) ([], [98]).
Proof.
  split; [exact demo_line_rep|].
  destruct (backspace_deletes demo_line [] [98] 97) as (_ & _ & H).
  apply H; [exact demo_line_rep|vm_compute; discriminate].
Defined.

(** "ls -l", the cursor at the end *)
Definition word_line : gapbuf := snd (gb_str_insert [108; 115; 32; 45; 108] (gb_create demo_mem)).

Lemma word_keys_stop_witness :
  rep word_line ([108; 115; 32; 45; 108], []) ∧
  cursor <$> key_word_left 7 word_line = Some 3 ∧
  (∃ l' m gb', key_word_left 7 word_line = Some gb' ∧ word_before [108; 115; 32; 45; 108] l' m ∧ rep gb' (l', m ++ [])).
Proof.
  assert (rep word_line ([108; 115; 32; 45; 108], [])) as H
    by (split; [split; vm_compute; intuition congruence|vm_compute; reflexivity|vm_compute; reflexivity]).
  split; [exact H|]. split; [vm_compute; reflexivity|].
  exact (proj1 (word_keys_stop word_line [108; 115; 32; 45; 108] [] 7 H (le_n 7))).
Defined.
