(* ===== verification/History.v ===== *)
(** * The history of the console

    [lib/cli/cli_history.c]: a fixed number of entries, of which some are in the
    history, in the order they were added, and the others on a free list; and the
    entry that the arrow keys have reached.  Entries are known by their address,
    which [curr_hist] keeps and the code compares.  The lists are the circular
    ones of [<sys/queue.h>]: the first entry of an empty list is the list's head,
    and stepping on from either end leads around to the other.  [None] is the use
    of a list's head, or of an entry that is in no list, as an entry. *)
From S2P Require Import Prelude.

(** The address of [hd_hist] itself; 0 is [NULL]. *)
Definition HEAD := 1.

(** [line] is [NULL] in an entry that has not been used, or was freed. *)
Record history := mk_history {
  hd_hist : list Z; free_hist : list Z; line : Z → option (list Z);
  curr_hist : Z; hist_mem : bool; nb_hist : Z }.
#[global] Instance eta_history : Eta history := λ h,
  mk_history (hd_hist h) (free_hist h) (line h) (curr_hist h) (hist_mem h) (nb_hist h).

Definition set_line (e : Z) (l : option (list Z)) (h : history) : history :=
  h <| line ::= λ f x, if x =? e then l else f x |>.

(** ** The lists *)
Definition first_hist (h : history) : Z := default HEAD (head (hd_hist h)).
Definition last_hist (h : history) : Z := default HEAD (last (hd_hist h)).
Definition empty_hist (h : history) : bool := match hd_hist h with [] => true | _ => false end.

(** What follows an entry in a list of entries that ends in the head *)
Fixpoint after (e : Z) (l : list Z) : option (option Z) :=
  match l with
  | [] => None
  | x :: l => if x =? e then Some (head l) else after e l
  end.
Definition loop_next (h : history) (e : Z) : option Z :=
  if e =? HEAD then Some (first_hist h) else default (first_hist h) <$> after e (hd_hist h).
Definition loop_prev (h : history) (e : Z) : option Z :=
  if e =? HEAD then Some (last_hist h) else default (last_hist h) <$> after e (reverse (hd_hist h)).

(** ** Entries *)
Definition cli_hist_alloc (h : history) : option Z * history :=
  match free_hist h with
  | [] => (None, h)
  | e :: l => (Some e, h <| free_hist := l |>)
  end.
Definition cli_hist_free (e : Z) (h : history) : history :=
  set_line e None h <| free_hist ::= λ l, l ++ [e] |>.

(** ** Lines *)

(** The last entry's line is compared with the new one. *)
Definition cli_history_add (l : list Z) (h : history) : option history :=
  if negb (hist_mem h) then Some h
  else
    same ← (match last (hd_hist h) with
            | Some e => k ← line h e; Some (bool_decide (k = l))
            | None => Some false
            end);
    if (same : bool) then Some h
    else
      let '(e, h) := cli_hist_alloc h in
      '(e, h) ← (match e with
                 | Some e => Some (e, h)
                 | None => match hd_hist h with
                           | e :: es => Some (e, h <| hd_hist := es |>)
                           | [] => None
                           end
                 end);
      Some (set_line e (Some l) h <| hd_hist ::= λ es, es ++ [e] |>).

(** The entry is in neither list afterwards. *)
Definition cli_history_del (h : history) : history :=
  if negb (hist_mem h) then h else h <| hd_hist ::= λ es, take (pred (length es)) es |>.

Definition cli_history_line (lineno : Z) (h : history) : option (list Z) :=
  if negb (hist_mem h) || (lineno <? 0) then None
  else e ← hd_hist h !! Z.to_nat lineno; line h e.

(** A pointer to a line, or [NULL], and the entry reached *)
Definition cli_history_prev (h : history) : option (option (list Z) * history) :=
  if negb (hist_mem h) || empty_hist h then Some (None, h)
  else if curr_hist h =? 0 then
    let e := last_hist h in Some (line h e, h <| curr_hist := e |>)
  else if curr_hist h =? first_hist h then Some (line h (curr_hist h), h)
  else e ← loop_prev h (curr_hist h); Some (line h e, h <| curr_hist := e |>).

Definition cli_history_next (h : history) : option (option (list Z) * history) :=
  if negb (hist_mem h) || empty_hist h then Some (None, h)
  else if curr_hist h =? 0 then Some (None, h)
  else if curr_hist h =? last_hist h then Some (Some [], h)
  else e ← loop_next h (curr_hist h); Some (line h e, h <| curr_hist := e |>).

(** ** The history as a whole *)
Definition cli_history_clear (h : history) : history :=
  if negb (hist_mem h) then h
  else fold_left (λ h e, cli_hist_free e h) (hd_hist h) (h <| hd_hist := [] |>).

(** The memory is given up, but the free list still leads into it. *)
Definition cli_history_delete (h : history) : history :=
  cli_history_clear h <| hd_hist := [] |> <| hist_mem := false |> <| nb_hist := 0 |>.

(** [mem] is the address [malloc] returns for the entries, each of which takes 24
    bytes; the result is the status. *)
Definition cli_set_history (mem : option Z) (n : Z) (h : history) : Z * history :=
  if n =? 0 then (0, cli_history_delete h)
  else if hist_mem h && (n =? nb_hist h) then (0, h)
  else
    let h := if hist_mem h then cli_history_delete h else h in
    let h := h <| nb_hist := n |> in
    match mem with
    | None => (-1, h)
    | Some m =>
        let es := (λ k, m + 24 * k) <$> seqZ 0 n in
        (0, h <| hist_mem := true |> <| free_hist ::= λ l, l ++ es |>
              <| line ::= λ f e, if bool_decide (e ∈ es) then None else f e |>)
    end.

Definition cli_history_reset (h : history) : history := h <| curr_hist := first_hist h |>.

(** Before the first lines *)
Definition no_history : history := mk_history [] [] (λ _, None) 0 false 0.

(** ** The specification: the last lines, and how far back one has gone *)

Definition push (n : nat) (ls : list (list Z)) (l : list Z) : list (list Z) :=
  if decide (last ls = Some l) then ls
  else if decide (length ls < n)%nat then ls ++ [l] else tail ls ++ [l].

Inductive op := Enter (l : list Z) | Prev | Next | Line (k : Z).

(** Answers: nothing, or a line *)
Definition spec_step (n : nat) (o : op) (z : list (list Z) * option nat)
    : option (list Z) * (list (list Z) * option nat) :=
  let '(ls, cur) := z in
  match o with
  | Enter l => (None, (push n ls l, None))
  | Prev =>
      match ls with
      | [] => (None, z)
      | _ => let k := match cur with None => pred (length ls) | Some k => pred k end in (ls !! k, (ls, Some k))
      end
  | Next =>
      match ls, cur with
      | _ :: _, Some k => if decide (S k = length ls) then (Some [], z) else (ls !! S k, (ls, Some (S k)))
      | _, _ => (None, z)
      end
  | Line k => (if k <? 0 then None else ls !! Z.to_nat k, z)
  end.

(** [key_return] adds a line when it is executed, and forgets the entry reached. *)
Definition hist_step (o : op) (h : history) : option (option (list Z) * history) :=
  match o with
  | Enter l => h ← cli_history_add l h; Some (None, cli_history_reset h <| curr_hist := 0 |>)
  | Prev => cli_history_prev h
  | Next => cli_history_next h
  | Line k => Some (cli_history_line k h, h)
  end.

Fixpoint spec_run (n : nat) (os : list op) (z : list (list Z) * option nat)
    : list (option (list Z)) * (list (list Z) * option nat) :=
  match os with
  | [] => ([], z)
  | o :: os => let '(x, z) := spec_step n o z in let '(xs, z) := spec_run n os z in (x :: xs, z)
  end.
Fixpoint hist_run (os : list op) (h : history) : option (list (option (list Z)) * history) :=
  match os with
  | [] => Some ([], h)
  | o :: os => '(x, h) ← hist_step o h; '(xs, h) ← hist_run os h; Some (x :: xs, h)
  end.

(** The history [h] of [n] entries holds the lines [ls] and has reached [cur]. *)
Record holds (n : nat) (h : history) (z : list (list Z) * option nat) : Prop := mk_holds {
  ho_mem : hist_mem h = true;
  ho_apart : NoDup (0 :: HEAD :: hd_hist h ++ free_hist h);
  ho_count : (length (hd_hist h) + length (free_hist h))%nat = n;
  ho_lines : Forall2 (λ e l, line h e = Some l) (hd_hist h) (fst z);
  ho_curr : match snd z with None => curr_hist h = 0 | Some k => hd_hist h !! k = Some (curr_hist h) end }.

Lemma holds_length n h z : holds n h z → length (hd_hist h) = length (fst z).
Proof. intros H. by eapply Forall2_length, ho_lines. Qed.

Lemma holds_line n h z k e : holds n h z → hd_hist h !! k = Some e → line h e = fst z !! k.
Proof. intros H E. destruct (Forall2_lookup_l _ _ _ _ _ (ho_lines _ _ _ H) E) as (l & -> & Hl). done. Qed.

Lemma holds_last n h z : holds n h z →
  match last (hd_hist h) with Some e => line h e = last (fst z) | None => fst z = [] end.
Proof.
  intros H. pose proof (holds_length _ _ _ H) as Hl. rewrite !last_lookup, Hl.
  destruct (hd_hist h !! pred (length (fst z))) as [e|] eqn:E; [by eapply holds_line|].
  apply lookup_ge_None in E. destruct (fst z); [done|]. cbn in *. lia.
Qed.

Lemma after_lookup e l k : NoDup l → l !! k = Some e → after e l = Some (l !! S k).
Proof.
  intros Hd. revert k. induction Hd as [|x l Hx Hd IH]; intros k E; [done|]. cbn [after].
  destruct k as [|k]; cbn in E.
  - injection E as ->. rewrite Z.eqb_refl. by destruct l.
  - destruct (Z.eqb_spec x e) as [->|]; [|by rewrite (IH k)]. destruct Hx. by eapply list_elem_of_lookup_2.
Qed.

(** *** Adding a line *)
Lemma set_line_others e l h es ls : e ∉ es →
  Forall2 (λ e l, line h e = Some l) es ls → Forall2 (λ x y, line (set_line e (Some l) h) x = Some y) es ls.
Proof.
  intros He HF. induction HF as [|x y es ls Hx HF IH]; [constructor|]. apply not_elem_of_cons in He as [Hne He].
  constructor; [|by apply IH]. cbn. by destruct (Z.eqb_spec x e); [subst|].
Qed.

Lemma push_same n ls l : last ls = Some l → push n ls l = ls.
Proof. intros E. unfold push. by rewrite decide_True. Qed.

(** An entry from the free list or the front goes to the end. *)
Lemma stored_at_end n h e ls l :
  hist_mem h = true → NoDup (0 :: HEAD :: (hd_hist h ++ [e]) ++ free_hist h) →
  (length (hd_hist h) + 1 + length (free_hist h))%nat = n →
  Forall2 (λ e l, line h e = Some l) (hd_hist h) ls →
  holds n (cli_history_reset (set_line e (Some l) h <| hd_hist ::= λ es, es ++ [e] |>) <| curr_hist := 0 |>) (ls ++ [l], None).
Proof.
  intros Hm Hd Hn HF. split; [done|done| | |done]; cbn [hd_hist free_hist fst].
  - cbn. rewrite length_app. cbn. lia.
  - apply Forall2_app.
    + apply set_line_others; [|done]. rewrite <-app_assoc in Hd. cbn in Hd.
      apply NoDup_cons in Hd as [_ Hd]. apply NoDup_cons in Hd as [_ Hd].
      apply NoDup_app in Hd as (_ & Hd & _). intros He. apply (Hd e He). by left.
    + constructor; [|constructor]. cbn. by rewrite Z.eqb_refl.
Qed.

Lemma add_spec n h ls cur l : holds n h (ls, cur) → (0 < n)%nat →
  ∃ h', cli_history_add l h = Some h' ∧ holds n (cli_history_reset h' <| curr_hist := 0 |>) (push n ls l, None).
Proof.
  intros H Hn. pose proof (holds_last _ _ _ H) as Hlast. pose proof (holds_length _ _ _ H) as Hlen.
  destruct H as [Hm Hd Hc HF _]. cbn [fst] in *. unfold cli_history_add. rewrite Hm. cbn [negb].
  assert (∃ b : bool, match last (hd_hist h) with Some e => k ← line h e; Some (bool_decide (k = l)) | None => Some false end
            = Some b ∧ if b then last ls = Some l else last ls ≠ Some l) as (b & -> & Hb).
  { destruct (last (hd_hist h)) as [e|] eqn:Ee; [|exists false; split; [done|by rewrite Hlast]].
    rewrite Hlast. destruct (last ls) as [k|] eqn:Ek.
    - exists (bool_decide (k = l)). split; [done|]. destruct (bool_decide_reflect (k = l)); congruence.
    - apply last_None in Ek as ->. destruct (hd_hist h); [done|cbn in Hlen; lia]. }
  cbn [mbind option_bind]. destruct b.
  - exists h. split; [done|]. rewrite push_same by done. by split.
  - unfold cli_hist_alloc. destruct (free_hist h) as [|e fs] eqn:Ef; cbn [mbind option_bind].
    + destruct (hd_hist h) as [|e es] eqn:Eh; [cbn in Hc; lia|]. cbn [mbind option_bind]. eexists. split; [reflexivity|].
      unfold push. rewrite decide_False by done. cbn [length] in *. rewrite decide_False by lia.
      destruct ls as [|l0 ls]; [done|]. inversion HF; subst. cbn [tail].
      apply (stored_at_end _ (h <| hd_hist := es |>) e); cbn [hd_hist free_hist hist_mem line]; [done| |cbn; rewrite Ef; cbn; lia|done].
      cbn. rewrite Ef, !app_nil_r in *. eapply NoDup_Permutation_proper; [|exact Hd]. by rewrite (Permutation_cons_append es e).
    + eexists. split; [reflexivity|]. unfold push. rewrite decide_False by done. cbn [length] in Hc.
      rewrite decide_True by lia. apply (stored_at_end _ (h <| free_hist := fs |>) e); [done| |cbn; lia|done].
      cbn. rewrite <-app_assoc. exact Hd.
Qed.

(** *** Going back and forth *)

(** The entries are distinct, and neither [NULL] nor the head. *)
Lemma entry_proper n h z k e : holds n h z → hd_hist h !! k = Some e → e ≠ 0 ∧ e ≠ HEAD ∧
  (∀ j, hd_hist h !! j = Some e → j = k).
Proof.
  intros H E. destruct H as [_ Hd _ _ _].
  apply NoDup_cons in Hd as [H0 Hd]. apply NoDup_cons in Hd as [H1 Hd]. apply NoDup_app in Hd as (Hd & _ & _).
  assert (e ∈ hd_hist h) as Hin by by eapply list_elem_of_lookup_2.
  split_and!.
  - intros ->. apply H0. right. apply elem_of_app. by left.
  - intros ->. apply H1. apply elem_of_app. by left.
  - intros j Ej. by eapply NoDup_lookup.
Qed.

Lemma nodup_entries n h z : holds n h z → NoDup (hd_hist h).
Proof.
  intros [_ Hd _ _ _]. apply NoDup_cons in Hd as [_ Hd]. apply NoDup_cons in Hd as [_ Hd]. by apply NoDup_app in Hd as (? & _).
Qed.

(** Reaching another entry *)
Lemma holds_reach n h ls cur k e : holds n h (ls, cur) → hd_hist h !! k = Some e →
  holds n (h <| curr_hist := e |>) (ls, Some k).
Proof. intros [H1 H2 H3 H4 _] E. by split. Qed.

Lemma prev_spec n h ls cur :
  holds n h (ls, cur) →
  ∃ h', cli_history_prev h = Some (fst (spec_step n Prev (ls, cur)), h') ∧ holds n h' (snd (spec_step n Prev (ls, cur))).
Proof.
  intros H. pose proof (holds_length _ _ _ H) as Hlen. cbn [fst] in Hlen. pose proof H as [Hm _ _ _ Hcur]. cbn [snd] in Hcur.
  unfold cli_history_prev, empty_hist. rewrite Hm. cbn [negb orb spec_step].
  destruct ls as [|l0 ls0]; [destruct (hd_hist h); [by exists h|done]|].
  destruct (hd_hist h) as [|e0 es] eqn:Eh; [done|]. rewrite <-Eh in *. set (ls := l0 :: ls0) in *.
  assert (∀ k, hd_hist h !! k = Some (default HEAD (hd_hist h !! k)) → line h (default HEAD (hd_hist h !! k)) = ls !! k) as Hl
    by (intros k Ek; exact (holds_line _ _ _ _ _ H Ek)).
  assert (first_hist h = default HEAD (hd_hist h !! 0%nat)) as Ef by (unfold first_hist; by rewrite head_lookup).
  assert (last_hist h = default HEAD (hd_hist h !! pred (length ls))) as El
    by (unfold last_hist; rewrite last_lookup, Hlen; done).
  assert (∀ k, (k < length ls)%nat → hd_hist h !! k = Some (default HEAD (hd_hist h !! k))) as Hk.
  { intros k Hk. rewrite <-Hlen in Hk. apply lookup_lt_is_Some in Hk as [e He]. by rewrite He. }
  assert (0 < length ls)%nat as Hpos by (subst ls; cbn; lia).
  destruct cur as [k|].
  - destruct (entry_proper _ _ _ _ _ H Hcur) as (N0 & NH & Nj). destruct (Z.eqb_spec (curr_hist h) 0); [done|].
    assert (k < length ls)%nat as Hkl by (rewrite <-Hlen; by eapply lookup_lt_Some).
    destruct (Z.eqb_spec (curr_hist h) (first_hist h)) as [E|N].
    + rewrite Ef in E. assert (hd_hist h !! 0%nat = Some (curr_hist h)) as E0 by (rewrite E; by apply Hk).
      apply Nj in E0 as <-. exists h. cbn [fst snd pred]. split; [|done]. by rewrite (holds_line _ _ _ _ _ H Hcur).
    + destruct k as [|k]; [destruct N; rewrite Ef, Hcur; done|]. cbn [fst snd pred].
      unfold loop_prev. destruct (Z.eqb_spec (curr_hist h) HEAD); [done|].
      assert (reverse (hd_hist h) !! (length ls - S (S k))%nat = Some (curr_hist h)) as Er.
      { rewrite reverse_lookup by lia. rewrite <-Hcur. f_equal. lia. }
      assert (NoDup (reverse (hd_hist h))) as Hd by (rewrite reverse_Permutation; exact (nodup_entries _ _ _ H)).
      rewrite (after_lookup _ _ _ Hd Er). cbn [fmap option_fmap option_map mbind option_bind].
      assert (reverse (hd_hist h) !! S (length ls - S (S k)) = hd_hist h !! k) as -> by (rewrite reverse_lookup by lia; f_equal; lia).
      rewrite (Hk k) by lia. cbn [default id]. eexists. split; [by rewrite Hl by (apply Hk; lia)|].
      eapply holds_reach; [exact H|apply Hk; lia].
  - rewrite Hcur, Z.eqb_refl, El. cbn [fst snd]. eexists. split; [by rewrite Hl by (apply Hk; lia)|].
    eapply holds_reach; [exact H|apply Hk; lia].
Qed.

Lemma next_spec n h ls cur :
  holds n h (ls, cur) →
  ∃ h', cli_history_next h = Some (fst (spec_step n Next (ls, cur)), h') ∧ holds n h' (snd (spec_step n Next (ls, cur))).
Proof.
  intros H. pose proof (holds_length _ _ _ H) as Hlen. cbn [fst] in Hlen. pose proof H as [Hm _ _ _ Hcur]. cbn [snd] in Hcur.
  unfold cli_history_next, empty_hist. rewrite Hm. cbn [negb orb spec_step].
  destruct ls as [|l0 ls0]; [destruct (hd_hist h); [by exists h|done]|].
  destruct (hd_hist h) as [|e0 es] eqn:Eh; [done|]. rewrite <-Eh in *. set (ls := l0 :: ls0) in *.
  destruct cur as [k|]; [|rewrite Hcur, Z.eqb_refl; by exists h].
  destruct (entry_proper _ _ _ _ _ H Hcur) as (N0 & NH & Nj). destruct (Z.eqb_spec (curr_hist h) 0); [done|].
  assert (k < length ls)%nat as Hkl by (rewrite <-Hlen; by eapply lookup_lt_Some).
  destruct (lookup_lt_is_Some_2 (hd_hist h) (pred (length ls)) ltac:(lia)) as [el El].
  assert (last_hist h = el) as -> by (unfold last_hist; rewrite last_lookup, Hlen, El; done).
  destruct (Z.eqb_spec (curr_hist h) el) as [<-|N].
  - apply Nj in El. rewrite decide_True by lia. by exists h.
  - rewrite decide_False by (intros E; destruct N; replace (pred (length ls)) with k in El by lia; congruence).
    assert (S k < length ls)%nat as HSk.
    { destruct (decide (S k = length ls)) as [E|]; [|lia]. destruct N. replace (pred (length ls)) with k in El by lia. congruence. }
    destruct (lookup_lt_is_Some_2 (hd_hist h) (S k) ltac:(lia)) as [e E].
    unfold loop_next. destruct (Z.eqb_spec (curr_hist h) HEAD); [done|].
    rewrite (after_lookup _ _ _ (nodup_entries _ _ _ H) Hcur), E. cbn [fmap option_fmap option_map mbind option_bind default id fst snd].
    eexists. split; [by rewrite (holds_line _ _ _ _ _ H E)|]. by eapply holds_reach.
Qed.

(** ** What the history shows *)

Lemma hist_step_refines n o h z : (0 < n)%nat → holds n h z →
  ∃ h', hist_step o h = Some (fst (spec_step n o z), h') ∧ holds n h' (snd (spec_step n o z)).
Proof.
  intros Hn H. destruct z as [ls cur]. destruct o as [l| | |k].
  - destruct (add_spec n h ls cur l H Hn) as (h' & E & H'). cbn [hist_step]. rewrite E. by eexists.
  - by apply prev_spec.
  - by apply next_spec.
  - exists h. split; [|done]. cbn [hist_step]. do 2 f_equal. unfold cli_history_line.
    rewrite (ho_mem _ _ _ H). cbn [negb orb spec_step fst]. destruct (k <? 0); [done|].
    destruct (hd_hist h !! Z.to_nat k) as [e|] eqn:E; cbn [mbind option_bind].
    + by rewrite (holds_line _ _ _ _ _ H E).
    + symmetry. apply lookup_ge_None. apply lookup_ge_None in E. rewrite (holds_length _ _ _ H) in E. done.
Qed.

(** C24. The history is a list of lines with a place in it: any sequence of lines
    entered and of arrow keys runs without touching a list's head, and shows what
    the list does: a line equal to the last one is not added, a full history loses
    its oldest line, going back stops at the oldest line and going on at an empty
    one, and entering a line forgets the place. *)
Theorem history_refines (n : nat) (os : list op) (h : history) (z : list (list Z) * option nat) :
  (0 < n)%nat → holds n h z →
  ∃ h', hist_run os h = Some (fst (spec_run n os z), h') ∧ holds n h' (snd (spec_run n os z)).
Proof.
  intros Hn. revert h z. induction os as [|o os IH]; intros h z H; cbn [hist_run spec_run]; [by exists h|].
  destruct (hist_step_refines n o h z Hn H) as (h1 & -> & H1). cbn [mbind option_bind].
  destruct (spec_step n o z) as [x z1]. cbn [fst snd] in H1 |- *. destruct (IH h1 z1 H1) as (h2 & -> & H2).
  cbn [mbind option_bind]. destruct (spec_run n os z1) as [xs z2]. by exists h2.
Qed.

(** The lines of a history are the last [n] lines, a repeated line counted once. *)
Definition once (acc : list (list Z)) (l : list Z) : list (list Z) := if decide (last acc = Some l) then acc else acc ++ [l].

Lemma last_drop {A} (l : list A) k : (k < length l)%nat → last (drop k l) = last l.
Proof.
  intros Hk. rewrite !last_lookup, lookup_drop, length_drop. f_equal. lia.
Qed.

Lemma push_once n acc l : (0 < n)%nat →
  push n (drop (length acc - n) acc) l = drop (length (once acc l) - n) (once acc l).
Proof.
  intros Hn. unfold push, once.
  assert (last (drop (length acc - n) acc) = last acc) as ->.
  { destruct acc as [|a acc]; [done|]. apply last_drop. cbn [length]. lia. }
  destruct (decide (last acc = Some l)); [done|]. rewrite length_drop, length_app. cbn [length].
  destruct (decide (length acc - (length acc - n) < n)%nat).
  - by replace (length acc - n)%nat with 0%nat by lia; replace (length acc + 1 - n)%nat with 0%nat by lia.
  - replace (length acc + 1 - n)%nat with (S (length acc - n)) by lia.
    rewrite (drop_app_le acc [l]) by lia. f_equal.
    assert (∀ (l : list (list Z)) k, tail (drop k l) = drop (S k) l) as ->; [|done].
    clear. intros l. induction l as [|x l IH]; intros [|k]; cbn; try done; apply IH.
Qed.

Lemma pushes_last n ls acc : (0 < n)%nat →
  foldl (push n) (drop (length acc - n) acc) ls = drop (length (foldl once acc ls) - n) (foldl once acc ls).
Proof.
  intros Hn. revert acc. induction ls as [|l ls IH]; intros acc; [done|]. cbn [foldl]. by rewrite push_once, IH.
Qed.

(** ** Entries that are lost *)

(** [cli_history_del] gives its entry to no list. *)
Lemma hist_del_spec n h ls cur : holds n h (ls, cur) → ls ≠ [] →
  holds (pred n) (cli_history_del h <| curr_hist := 0 |>) (take (pred (length ls)) ls, None).
Proof.
  intros H Hne. pose proof (holds_length _ _ _ H) as Hlen. destruct H as [Hm Hd Hc HF _]. cbn [fst] in *.
  unfold cli_history_del. rewrite Hm. cbn [negb]. split; cbn [fst snd hd_hist free_hist hist_mem curr_hist]; [done| | | |done].
  - cbn. eapply sublist_NoDup; [exact Hd|]. do 2 apply sublist_skip. apply sublist_app; [apply sublist_take|done].
  - cbn. rewrite length_take, Hlen. destruct ls; [done|]. cbn [length] in *. lia.
  - cbn. rewrite Hlen. by apply Forall2_take.
Qed.

(** What [cli_execute] does to the history for a line that is an alias *)
Definition alias_use (name expansion : list Z) (h : history) : option history :=
  h ← cli_history_add name h; cli_history_add expansion (cli_history_del h).

Lemma curr_irrelevant l h c : cli_history_add l (h <| curr_hist := c |>) = (λ h, h <| curr_hist := c |>) <$> cli_history_add l h.
Proof.
  unfold cli_history_add. cbn. destruct (hist_mem h); [|done]. cbn.
  destruct (last (hd_hist h)) as [e|]; cbn; [destruct (line h e) as [k|]; cbn; [|done]|].
  1: destruct (bool_decide (k = l)); [done|].
  all: unfold cli_hist_alloc; cbn; destruct (free_hist h); cbn; [destruct (hd_hist h)|]; done.
Qed.

Lemma push_last n ls l : (0 < n)%nat → last (push n ls l) = Some l.
Proof. intros Hn. unfold push. repeat case_decide; [done|apply last_snoc..]. Qed.

Lemma add_nothing h z l : holds 0 h z → cli_history_add l h = None.
Proof.
  intros [Hm _ Hc _ _]. unfold cli_history_add, cli_hist_alloc. rewrite Hm.
  destruct (hd_hist h) as [|? ?] eqn:E1; [|cbn in Hc; lia]. destruct (free_hist h) as [|? ?] eqn:E2; [|cbn in Hc; lia].
  cbn. by rewrite E1.
Qed.

(** A line with an alias takes an entry away: with one left, it is the head of the
    empty list that is taken for an entry. *)
Lemma alias_use_spec n h ls cur name expansion : (0 < n)%nat → holds n h (ls, cur) →
  if decide (n = 1%nat) then alias_use name expansion h = None
  else ∃ h' ls', alias_use name expansion h = Some h' ∧ holds (pred n) (cli_history_reset h' <| curr_hist := 0 |>) (ls', None) ∧ ls' ≠ [].
Proof.
  intros Hn H. unfold alias_use. destruct (add_spec n h ls cur name H Hn) as (h1 & -> & H1). cbn [mbind option_bind].
  pose proof (push_last n ls name Hn) as Hl.
  assert (push n ls name ≠ []) as Hne by (intros E; by rewrite E in Hl).
  apply hist_del_spec in H1; [|done]. set (h2 := cli_history_del h1).
  assert (cli_history_del (cli_history_reset h1 <| curr_hist := 0 |>) <| curr_hist := 0 |> = h2 <| curr_hist := 0 |>) as E2.
  { subst h2. unfold cli_history_del. cbn. by destruct (hist_mem h1). }
  rewrite E2 in H1. pose proof (curr_irrelevant expansion h2 0) as Ec.
  case_decide as En.
  - subst n. cbn [pred] in H1. rewrite (add_nothing _ _ expansion H1) in Ec. by destruct (cli_history_add expansion h2).
  - destruct (add_spec (pred n) _ _ _ expansion H1 ltac:(lia)) as (h3 & E3 & H3). rewrite E3 in Ec.
    destruct (cli_history_add expansion h2) as [h4|]; [|done]. injection Ec as ->. eexists h4, _. split; [done|]. split; [exact H3|].
    intros E. pose proof (push_last (pred n) (take (pred (length (push n ls name))) (push n ls name)) expansion ltac:(lia)) as Hl'.
    by rewrite E in Hl'.
Qed.

(** ** A new history *)
Lemma set_history_holds m n : 1 < m → 0 < n →
  holds (Z.to_nat n) (snd (cli_set_history (Some m) n no_history)) ([], None).
Proof.
  intros Hm Hn. unfold cli_set_history. destruct (Z.eqb_spec n 0); [lia|]. cbn [hist_mem no_history andb].
  split; cbn [snd fst hd_hist free_hist hist_mem curr_hist]; [done| | |constructor|done].
  - cbn. apply NoDup_cons. split; [|apply NoDup_cons; split].
    + rewrite elem_of_cons, list_elem_of_fmap. intros [?|(k & ? & Hk%elem_of_seqZ)]; [done|lia].
    + rewrite list_elem_of_fmap. unfold HEAD. intros (k & ? & Hk%elem_of_seqZ). lia.
    + apply NoDup_fmap_2; [intros a b; lia|apply NoDup_seqZ].
  - cbn. by rewrite length_fmap, length_seqZ.
Qed.

(** Two entries: the third line takes the place of the first, a repeated line is
    not added; then back twice, once more, and on. *)
Definition demo_entries : history := snd (cli_set_history (Some 4096) 2 no_history).
Definition demo_keys : list op :=
  [Enter [97]; Enter [98]; Enter [98]; Enter [99]; Prev; Prev; Prev; Next; Next; Line 0].

Lemma history_refines_witness :
  ∃ h', hist_run demo_keys demo_entries =
    Some ([None; None; None; None; Some [99]; Some [98]; Some [98]; Some [99]; Some []; Some [98]], h').
Proof.
  destruct (history_refines 2 demo_keys demo_entries ([], None)) as (h' & E & _);
    [lia|exact (set_history_holds 4096 2 ltac:(lia) ltac:(lia))|].
  exists h'. rewrite E. reflexivity.
Defined.
