(* ===== verification/Keys.v ===== *)
(** * Keys

    The part of [lib/cli/cli_vt100.c] that makes keys of bytes: single bytes, and
    the sequences a terminal sends for its other keys, collected in a buffer of
    eight bytes. *)
From S2P Require Import Prelude.

Definition VT100_BUF_SIZE := 8%nat.
Definition vt100_escape := 27.
Definition vt100_open_square := 91.
Definition vt100_del := 127.

(** [VT100_INVALID_KEY] and the keys, as in [cli_scrn.h] *)
Inductive key :=
  | Invalid_key | Up_arr | Down_arr | Right_arr | Left_arr | Bkspace | Return | Ctrl_a | Ctrl_e | Ctrl_k | Ctrl_y
  | Ctrl_c | Ctrl_f | Ctrl_b | Suppr | Tab | Ctrl_d | Ctrl_l | Return2 | Meta_bkspace | Wleft | Wright
  | Ctrl_w | Ctrl_p | Ctrl_n | Meta_d | Ctrl_x.
#[global] Instance key_eq : EqDecision key.
Proof. solve_decision. Defined.

Definition esc (s : list Z) : list Z := vt100_escape :: s.
Definition vt100_cmd_list : list (list Z * key) :=
  [([73; 110; 118; 97; 108; 105; 100], Invalid_key);
   (esc [91; 65], Up_arr); (esc [91; 66], Down_arr); (esc [91; 67], Right_arr); (esc [91; 68], Left_arr);
   ([127], Bkspace); ([10], Return); ([1], Ctrl_a); ([5], Ctrl_e); ([11], Ctrl_k); ([25], Ctrl_y); ([3], Ctrl_c);
   ([6], Ctrl_f); ([2], Ctrl_b); (esc [91; 51; 126], Suppr); ([9], Tab); ([4], Ctrl_d); ([12], Ctrl_l); ([13], Return2);
   (esc [127], Meta_bkspace); (esc [98], Wleft); (esc [102], Wright); ([23], Ctrl_w); ([16], Ctrl_p); ([14], Ctrl_n);
   (esc [100], Meta_d); ([24], Ctrl_x)].

Inductive vt100_state := VT100_INIT | VT100_ESCAPE | VT100_ESCAPE_CSI.
(** A key, a byte that belongs to none, or the middle of a sequence *)
Inductive parsed := Found (k : key) | VT100_DONE | VT100_CONTINUE.

(** The bytes collected, [None] for a [bufpos] of [VT100_INITIALIZE] *)
Record cli_vt100 := mk_vt { buf : option (list Z); state : vt100_state }.
Definition vt100_setup : cli_vt100 := mk_vt None VT100_INIT.

Definition vt100_find_cmd (b : list Z) : parsed :=
  match list_find (λ x, fst x = b) vt100_cmd_list with
  | Some (_, (_, k)) => Found k
  | None => VT100_DONE
  end.

Definition vt100_parse_input (vt : cli_vt100) (c : Z) : parsed * cli_vt100 :=
  let '(b, st) :=
    match buf vt with
    | None => ([], VT100_INIT)
    | Some b => if decide (VT100_BUF_SIZE ≤ length b)%nat then ([], VT100_INIT) else (b, state vt)
    end in
  let b := b ++ [c] in
  let more st := (VT100_CONTINUE, mk_vt (Some b) st) in
  let find := (vt100_find_cmd b, mk_vt None st) in
  match st with
  | VT100_INIT => if c =? vt100_escape then more VT100_ESCAPE else find
  | VT100_ESCAPE =>
      if c =? vt100_open_square then more VT100_ESCAPE_CSI
      else if (48 <=? c) && (c <=? vt100_del) then find else more VT100_ESCAPE
  | VT100_ESCAPE_CSI => if (64 <=? c) && (c <=? 126) then find else more VT100_ESCAPE_CSI
  end.

(** The answers to a sequence of bytes *)
Fixpoint vt100_feed (vt : cli_vt100) (cs : list Z) : list parsed * cli_vt100 :=
  match cs with
  | [] => ([], vt)
  | c :: cs => let '(r, vt) := vt100_parse_input vt c in let '(rs, vt) := vt100_feed vt cs in (r :: rs, vt)
  end.

(** ** What is found *)

(** The next byte starts anew. *)
Definition idle (vt : cli_vt100) : Prop :=
  match buf vt with None => True | Some b => (VT100_BUF_SIZE ≤ length b)%nat end.

Lemma vt_idle_setup : idle vt100_setup.
Proof. exact I. Qed.

Lemma parse_idle vt c : idle vt → vt100_parse_input vt c = vt100_parse_input vt100_setup c.
Proof. unfold idle, vt100_parse_input. destruct (buf vt) as [b|]; [|done]. intros Hb. by rewrite decide_True. Qed.

Lemma feed_idle vt cs : idle vt → cs ≠ [] → vt100_feed vt cs = vt100_feed vt100_setup cs.
Proof. intros Hi Hne. destruct cs as [|c cs]; [done|]. cbn [vt100_feed]. by rewrite parse_idle. Qed.

Lemma parse_init c : c ≠ vt100_escape → vt100_parse_input vt100_setup c = (vt100_find_cmd [c], mk_vt None VT100_INIT).
Proof. intros Hc. unfold vt100_parse_input. cbn. by destruct (Z.eqb_spec c vt100_escape). Qed.

Lemma find_no_key c : Forall (λ x, fst x ≠ [c]) vt100_cmd_list → vt100_find_cmd [c] = VT100_DONE.
Proof. intros HF. unfold vt100_find_cmd. by rewrite (proj2 (list_find_None _ _) HF). Qed.

(** A character that can be printed is no key. *)
Lemma parse_printable vt c : idle vt → 32 ≤ c ≤ 126 →
  ∃ vt', vt100_parse_input vt c = (VT100_DONE, vt') ∧ idle vt'.
Proof.
  intros Hi Hc. rewrite parse_idle by done. rewrite parse_init by (unfold vt100_escape; lia).
  rewrite find_no_key; [by eexists|]. repeat (apply Forall_cons; split; [cbn; intros [=]; lia|]). constructor.
Qed.

Lemma parse_return vt : idle vt → ∃ vt', vt100_parse_input vt 10 = (Found Return, vt') ∧ idle vt'.
Proof. intros Hi. rewrite parse_idle by done. by eexists. Qed.

(** A sequence is given up after eight bytes: whatever is received, one of the
    next eight bytes leaves the parser where it started. *)
Fixpoint goes_idle (vt : cli_vt100) (cs : list Z) : Prop :=
  idle vt ∨ match cs with [] => False | c :: cs => goes_idle (snd (vt100_parse_input vt c)) cs end.

Lemma parse_collects vt c b : buf vt = Some b → (length b < VT100_BUF_SIZE)%nat →
  idle (snd (vt100_parse_input vt c)) ∨ ∃ b', buf (snd (vt100_parse_input vt c)) = Some b' ∧ length b' = S (length b).
Proof.
  intros E Hl. unfold vt100_parse_input. rewrite E, decide_False by lia.
  assert (length (b ++ [c]) = S (length b)) as Hb by (rewrite length_app; cbn; lia).
  destruct (state vt); repeat case_match; cbn [snd buf]; first [by left|right; by eexists].
Qed.

Lemma goes_idle_bytes n : ∀ vt cs b, buf vt = Some b → (VT100_BUF_SIZE ≤ length b + n)%nat → (n ≤ length cs)%nat → goes_idle vt cs.
Proof.
  induction n as [|n IH]; intros vt cs b E Hb Hc.
  - destruct cs; left; unfold idle; rewrite E; lia.
  - destruct cs as [|c cs]; cbn [length] in Hc; [lia|]. cbn [goes_idle].
    destruct (decide (VT100_BUF_SIZE ≤ length b)%nat); [left; unfold idle; by rewrite E|]. right.
    destruct (parse_collects vt c b E ltac:(lia)) as [Hi|(b' & E' & Hb')]; [destruct cs; by left|].
    eapply IH; [exact E'|lia|lia].
Qed.

(** Keys are recognised: the bytes of every key of the table, received when no
    other sequence is under way, give this key with their last byte and nothing
    before; a character that can be printed is passed on as it is; and whatever
    is received, one of the next eight bytes ends the sequence. *)
Theorem keys_recognised (vt : cli_vt100) (cs : list Z) (s : list Z) (k : key) (c : Z) :
  (idle vt → (s, k) ∈ vt100_cmd_list → k ≠ Invalid_key →
   ∃ vt', vt100_feed vt s = (replicate (pred (length s)) VT100_CONTINUE ++ [Found k], vt') ∧ idle vt') ∧
  (idle vt → 32 ≤ c ≤ 126 → ∃ vt', vt100_parse_input vt c = (VT100_DONE, vt') ∧ idle vt') ∧
  ((VT100_BUF_SIZE ≤ length cs)%nat → goes_idle vt cs).
Proof.
  split_and!.
  - intros Hi Hin Hk. apply elem_of_cons in Hin as [[= -> ->]|Hin]; [done|].
    rewrite feed_idle; [|done|by rewrite !elem_of_cons in Hin; intros ->; repeat destruct Hin as [[=]|Hin]; apply not_elem_of_nil in Hin].
    rewrite !elem_of_cons in Hin.
    repeat destruct Hin as [[= -> ->]|Hin]; [eexists; split; [reflexivity|exact I]..|by apply not_elem_of_nil in Hin].
  - by apply parse_printable.
  - intros Hl. destruct (buf vt) as [b|] eqn:E; [by eapply (goes_idle_bytes VT100_BUF_SIZE _ _ b); [done|lia|]|].
    destruct cs; left; unfold idle; by rewrite E.
Qed.

Lemma keys_recognised_witness :
  (∃ vt, vt100_feed vt100_setup (esc [91; 51; 126]) = ([VT100_CONTINUE; VT100_CONTINUE; VT100_CONTINUE; Found Suppr], vt)) ∧
  goes_idle (mk_vt (Some (esc [])) VT100_ESCAPE) [33; 33; 33; 33; 33; 33; 33; 33].
Proof.
  destruct (keys_recognised vt100_setup [] (esc [91; 51; 126]) Suppr 65) as (H1 & _ & _).
  destruct (keys_recognised (mk_vt (Some (esc [])) VT100_ESCAPE) [33; 33; 33; 33; 33; 33; 33; 33] [] Invalid_key 65) as (_ & _ & H2).
  split; [|apply H2; cbn; unfold VT100_BUF_SIZE; lia].
  destruct H1 as (vt & E & _); [exact I|by apply (bool_decide_unpack _); vm_compute|discriminate|]. by exists vt.
Defined.
