(* ===== verification/Strings.v ===== *)
(** * Strings

    The parts of the C library's string functions that pktgen's parsers use
    ([strtok_r], [strtol], [strtoul], [strchr], [isspace], [%d], [%x]) and the
    helpers of [lib/common/pg_strings.c], [lib/common/pg_strings.h] and
    [lib/common/utils.c].  A string is the list of its bytes without the
    terminating zero; the helpers cut strings up in place, and the pieces are
    values here. *)
From Stdlib Require Import Ascii String.
From S2P Require Import Prelude Mem Inet.

(** A string literal *)
Definition str (s : string) : list Z := code <$> list_ascii_of_string s.

(** ** The C library *)

Definition isspace (c : Z) : bool := (c =? 32) || ((9 <=? c) && (c <=? 13)).
Definition isdigit (c : Z) : bool := (48 <=? c) && (c <=? 57).
Definition mem_chr (c : Z) (l : list Z) : bool := existsb (λ d, d =? c) l.

Fixpoint skip_while (p : Z → bool) (s : list Z) : list Z :=
  match s with
  | [] => []
  | c :: s' => if p c then skip_while p s' else s
  end.

(** The longest prefix without a character of the set, and what follows *)
Fixpoint span (p : Z → bool) (s : list Z) : list Z * list Z :=
  match s with
  | [] => ([], [])
  | c :: s' => if p c then ([], s) else let '(a, b) := span p s' in (c :: a, b)
  end.

(** [strtok_r]: the token, and what a call with [NULL] goes on with *)
Definition strtok (delim s : list Z) : option (list Z * list Z) :=
  let s := skip_while (λ c, mem_chr c delim) s in
  match s with
  | [] => None
  | _ => let '(tok, rest) := span (λ c, mem_chr c delim) s in Some (tok, drop 1 rest)
  end.

(** The value of a digit in a base up to 16 *)
Definition digit_val (base c : Z) : option Z :=
  let d := if isdigit c then c - 48
           else if (97 <=? c) && (c <=? 102) then c - 87
           else if (65 <=? c) && (c <=? 70) then c - 55 else 16 in
  if d <? base then Some d else None.

Fixpoint digits (base v : Z) (s : list Z) : Z * list Z :=
  match s with
  | c :: s' => match digit_val base c with Some d => digits base (v * base + d) s' | None => (v, s) end
  | [] => (v, [])
  end.

(** A number after blanks and a sign: its sign, value and what follows it;
    [None] when there is no digit. *)
Definition number (base : Z) (s : list Z) : option (bool * Z * list Z) :=
  let s := skip_while isspace s in
  let '(neg, s) :=
    match s with
    | c :: s' => if c =? 45 then (true, s') else if c =? 43 then (false, s') else (false, s)
    | [] => (false, [])
    end in
  let s :=
    match s with
    | z :: x :: d :: s' =>
        if (base =? 16) && (z =? 48) && ((x =? 120) || (x =? 88)) &&
           match digit_val 16 d with Some _ => true | None => false end
        then d :: s' else s
    | _ => s
    end in
  match s with
  | c :: _ =>
      match digit_val base c with
      | Some _ => let '(v, rest) := digits base 0 s in Some (neg, v, rest)
      | None => None
      end
  | [] => None
  end.

(** The value, what [*end] is set to, and whether the value is out of range *)
Definition strtoul (base : Z) (s : list Z) : Z * list Z * bool :=
  match number base s with
  | None => (0, s, false)
  | Some (neg, v, rest) =>
      if 2 ^ 64 <=? v then (2 ^ 64 - 1, rest, true)
      else (if neg then u64 (- v) else v, rest, false)
  end.

Definition strtol (base : Z) (s : list Z) : Z :=
  match number base s with
  | None => 0
  | Some (neg, v, _) =>
      let v := if neg then - v else v in Z.max (- 2 ^ 63) (Z.min (2 ^ 63 - 1) v)
  end.

(** [%d] of a number that is not negative, [%02x] of a byte *)
Fixpoint dec_digits (fuel : nat) (n : Z) : list Z :=
  match fuel with
  | O => []
  | S fuel => (if n <? 10 then [] else dec_digits fuel (n / 10)) ++ [48 + n `mod` 10]
  end.
Definition show (n : Z) : list Z := dec_digits 20 n.

Definition hex_char (d : Z) : Z := if d <? 10 then 48 + d else 87 + d.
Definition hex2 (b : Z) : list Z := [hex_char (b / 16); hex_char (b `mod` 16)].

(** Up to the first zero byte *)
Definition cstr (s : list Z) : list Z := fst (span (λ c, c =? 0) s).

(** ** pg_strings.c *)

Definition pg_strtrim (s : list Z) : list Z :=
  reverse (skip_while isspace (reverse (skip_while isspace s))).

(** The tokens, at most [n] of them: [entries] up to the value returned *)
Fixpoint pg_strtok (n : nat) (s delim : list Z) : list (list Z) :=
  match n with
  | O => []
  | S n =>
      match strtok delim s with
      | None => []
      | Some (tok, rest) => pg_strtrim tok :: pg_strtok n rest delim
      end
  end.

Fixpoint pg_strmatch (s1 s2 : list Z) : bool :=
  match s1, s2 with
  | [], [] => true
  | c1 :: s1, c2 :: s2 => if c1 =? c2 then pg_strmatch s1 s2 else false
  | _, _ => false
  end.

Fixpoint pg_strcnt (s : list Z) (c : Z) : Z :=
  match s with
  | [] => 0
  | d :: s => pg_strcnt s c + (if d =? c then 1 else 0)
  end.

Definition STR_MAX_ARGVS := 64%nat.

Fixpoint find_match (l : list (list Z)) (s : list Z) (i : Z) : Z :=
  match l with
  | [] => -1
  | a :: l => if pg_strmatch a s then i else find_match l s (i + 1)
  end.

Definition pg_stropt (lst s delim : list Z) : Z :=
  let lst := match lst with 37 :: 124 :: l => l | _ => lst end in
  match lst with
  | [] => -1
  | _ => find_match (pg_strtok STR_MAX_ARGVS lst delim) s 0
  end.

(** [pg_ether_aton]: the loop collects up to six numbers ([o]), and [i] of them
    make six bytes or three pairs. *)
Fixpoint aton_loop (n : nat) (a : list Z) (o : list Z) : option (list Z * list Z) :=
  match n with
  | O => None
  | S n =>
      let '(v, rest, err) := strtoul 16 a in
      if err || (length rest =? length a)%nat ||
         negb match rest with [] => true | c :: _ => c =? 58 end
      then None
      else
        let o := o ++ [v] in
        if (n =? 0)%nat || match rest with [] => true | _ => false end then Some (o, rest)
        else aton_loop n (drop 1 rest) o
  end.

Definition pg_ether_aton (a : list Z) : option (list Z) :=
  match aton_loop 6 a [] with
  | None => None
  | Some (o, rest) =>
      match rest with
      | _ :: _ => None
      | [] =>
          if (length o =? 6)%nat then
            if forallb (λ v, v <=? 255) o then Some o else None
          else if (length o =? 3)%nat then
            if forallb (λ v, v <=? 65535) o
            then Some (flat_map (λ v, [Z.shiftr v 8; Z.land v 0xff]) o) else None
          else None
      end
  end.

(** [inet_mtoa] into a buffer that is long enough *)
Definition inet_mtoa (bytes : list Z) : list Z :=
  match bytes with
  | [] => []
  | b :: bs => hex2 b ++ flat_map (λ b, 58 :: hex2 b) bs
  end.

Fixpoint mask_bits (n : nat) (i mask : Z) : Z :=
  match n with
  | O => i
  | S n => if Z.testbit mask (31 - i) then mask_bits n (i + 1) mask else i
  end.
Definition mask_size (mask : Z) : Z :=
  if mask =? 0 then 0 else if mask =? 0xFF000000 then 8 else if mask =? 0xFFFF0000 then 16
  else if mask =? 0xFFFFFF00 then 24 else if mask =? 0xFFFFFFFF then 32
  else mask_bits 32 0 mask.

(** ** utils.c *)

Definition isblank4 (c : Z) : bool := (c =? 32) || (c =? 9) || (c =? 13) || (c =? 10).

(** [_strtrim]: the loop from the end stops before the first character. *)
Definition _strtrim (s : list Z) : list Z :=
  match skip_while isblank4 s with
  | [] => []
  | c :: s => c :: reverse (skip_while isblank4 (reverse s))
  end.

Fixpoint pg_strparse (n : nat) (s delim : list Z) : list (list Z) :=
  match n with
  | O => []
  | S n =>
      match strtok delim s with
      | None => []
      | Some (tok, rest) => _strtrim tok :: pg_strparse n rest delim
      end
  end.

(** [skip_lst] runs to a newline, not to the end of the list. *)
Fixpoint skip_lst (f : Z) (lst : list Z) : bool :=
  match lst with
  | [] => false
  | c :: lst => if c =? 10 then false else if f =? c then true else skip_lst f lst
  end.

Definition pg_strccpy (f lst : list Z) : list Z := List.filter (λ c, negb (skip_lst c lst)) f.

(** ** Numbers *)

Definition digit_char (c : Z) : Prop := 48 ≤ c ≤ 57.

Lemma digit_val_10 d : 0 ≤ d < 10 → digit_val 10 (48 + d) = Some d.
Proof.
  intros Hd. unfold digit_val, isdigit.
  destruct (Z.leb_spec 48 (48 + d)); [|lia]. destruct (Z.leb_spec (48 + d) 57); [|lia]. cbn [andb].
  replace (48 + d - 48) with d by lia. destruct (Z.ltb_spec d 10); [done|lia].
Qed.

Lemma dec_digits_chars f n : 0 ≤ n → Forall digit_char (dec_digits f n).
Proof.
  revert n. induction f as [|f IH]; intros n Hn; cbn [dec_digits]; [done|].
  pose proof (Z.mod_pos_bound n 10). apply Forall_app. split.
  - destruct (n <? 10); [done|]. apply IH. apply Z.div_pos; lia.
  - apply Forall_singleton. unfold digit_char. lia.
Qed.

Lemma digits_dec f n v rest :
  0 ≤ n < 10 ^ Z.of_nat f →
  digits 10 v (dec_digits f n ++ rest) =
  digits 10 (v * 10 ^ Z.of_nat (length (dec_digits f n)) + n) rest.
Proof.
  revert n v rest. induction f as [|f IH]; intros n v rest Hn; cbn [dec_digits].
  { cbn [length app]. change (10 ^ Z.of_nat 0) with 1 in *. f_equal. lia. }
  rewrite Nat2Z.inj_succ, Z.pow_succ_r in Hn by lia.
  assert (∀ v', digits 10 v' ((48 + n `mod` 10) :: rest) = digits 10 (v' * 10 + n `mod` 10) rest) as Hd.
  { intros v'. cbn [digits]. by rewrite digit_val_10 by (apply Z.mod_pos_bound; lia). }
  rewrite <-app_assoc, length_app, Nat2Z.inj_add. cbn [app length]. rewrite Z.pow_add_r by lia.
  change (10 ^ Z.of_nat 1) with 10. pose proof (Z.div_mod n 10).
  destruct (Z.ltb_spec n 10) as [Hl|Hl].
  - cbn [app length]. rewrite Hd, Z.mod_small by lia.
    change (10 ^ Z.of_nat 0) with 1. f_equal; lia.
  - rewrite IH; [|split; [apply Z.div_pos; lia|apply Z.div_lt_upper_bound; lia]]. rewrite Hd. f_equal; lia.
Qed.

Lemma show_chars n : 0 ≤ n → Forall digit_char (show n).
Proof. apply dec_digits_chars. Qed.

Lemma show_cons n : 0 ≤ n → ∃ c l, show n = c :: l ∧ digit_char c.
Proof.
  intros Hn. pose proof (show_chars n Hn) as Hf. destruct (show n) as [|c l] eqn:E.
  - apply (f_equal length) in E. unfold show in E. cbn [dec_digits] in E. rewrite length_app in E. cbn in E. lia.
  - exists c, l. split; [done|]. by inversion Hf.
Qed.

Lemma digit_not_space c : digit_char c → isspace c = false.
Proof. unfold digit_char, isspace. intros H. destruct (Z.eqb_spec c 32); [lia|].
  destruct (Z.leb_spec c 13); [lia|]. apply andb_false_r. Qed.

Definition no_digit_first (rest : list Z) : Prop :=
  match rest with [] => True | c :: _ => digit_val 10 c = None end.

Lemma digits_stop v rest : no_digit_first rest → digits 10 v rest = (v, rest).
Proof. destruct rest as [|c rest]; [done|]. cbn. by intros ->. Qed.

Lemma number_show n rest :
  0 ≤ n < 2 ^ 64 → no_digit_first rest → number 10 (show n ++ rest) = Some (false, n, rest).
Proof.
  intros Hn Hr. destruct (show_cons n) as (c & l & E & Hc); [lia|]. unfold number. rewrite E.
  cbn [app skip_while]. rewrite (digit_not_space c Hc). unfold digit_char in Hc.
  destruct (Z.eqb_spec c 45); [lia|]. destruct (Z.eqb_spec c 43); [lia|].
  assert (digits 10 0 (c :: l ++ rest) = (n, rest)) as Ed.
  { rewrite app_comm_cons, <-E. unfold show. rewrite digits_dec.
    - rewrite digits_stop by done. f_equal; lia.
    - change (10 ^ Z.of_nat 20) with 100000000000000000000. lia. }
  assert (digit_val 10 c = Some (c - 48)) as Ev.
  { replace c with (48 + (c - 48)) at 1 by lia. apply digit_val_10. lia. }
  destruct (l ++ rest) as [|x [|d s']]; cbn [Z.eqb Pos.eqb andb]; by rewrite Ev, Ed.
Qed.

Lemma strtoul_show n rest :
  0 ≤ n < 2 ^ 64 → no_digit_first rest → strtoul 10 (show n ++ rest) = (n, rest, false).
Proof.
  intros Hn Hr. unfold strtoul. rewrite number_show by done.
  destruct (Z.leb_spec (2 ^ 64) n); [lia|done].
Qed.

Lemma show_no c n : 0 ≤ n → ¬ digit_char c → Forall (λ d, d ≠ c) (show n).
Proof. intros Hn Hc. eapply Forall_impl; [by apply show_chars|]. by intros d Hd ->. Qed.

Lemma show_last n : last (show n) = Some (48 + n `mod` 10).
Proof. unfold show. cbn [dec_digits]. by rewrite last_snoc. Qed.

Lemma digit_mod n : digit_char (48 + n `mod` 10).
Proof. pose proof (Z.mod_pos_bound n 10). unfold digit_char. lia. Qed.

(** ** Tokens *)

Lemma span_out p s : Forall (λ c, p c = false) s → span p s = (s, []).
Proof. induction 1 as [|c s Hc _ IH]; [done|]. cbn. by rewrite Hc, IH. Qed.

Lemma span_at p s c rest : Forall (λ c, p c = false) s → p c = true → span p (s ++ c :: rest) = (s, c :: rest).
Proof. intros Hs Hc. induction Hs as [|d s Hd _ IH]; cbn; [by rewrite Hc|]. by rewrite Hd, IH. Qed.

Lemma skip_while_out p s : match s with [] => True | c :: _ => p c = false end → skip_while p s = s.
Proof. destruct s as [|c s]; [done|]. cbn. by intros ->. Qed.

Lemma skip_while_app p a s : Forall (λ c, p c = true) a → skip_while p (a ++ s) = skip_while p s.
Proof. induction 1 as [|c a Hc _ IH]; [done|]. cbn. by rewrite Hc. Qed.

(** A word keeps its characters when blanks around it are trimmed. *)
Definition solid (p : Z → bool) (e : list Z) : Prop :=
  ∃ c l d, e = c :: l ∧ last e = Some d ∧ p c = false ∧ p d = false.

(** A first character that is no blank stays. *)
Lemma strtrim_first c l : isspace c = false → ∃ l', pg_strtrim (c :: l) = c :: l'.
Proof.
  intros Hc. unfold pg_strtrim. cbn [skip_while]. rewrite Hc, reverse_cons.
  assert (∀ a, ∃ a', skip_while isspace (a ++ [c]) = a' ++ [c]) as Hs.
  { induction a as [|x a [a' IH]]; [exists []; cbn; by rewrite Hc|]. cbn. destruct (isspace x); [by exists a'|by exists (x :: a)]. }
  destruct (Hs (reverse l)) as [a' ->]. rewrite reverse_snoc. by eexists.
Qed.

Lemma strtrim_solid a e b :
  Forall (λ c, isspace c = true) a → Forall (λ c, isspace c = true) b → solid isspace e →
  pg_strtrim (a ++ e ++ b) = e.
Proof.
  intros Ha Hb (c & l & d & -> & Hl & Hc & Hd). unfold pg_strtrim.
  rewrite (skip_while_app _ a), (skip_while_out _ ((c :: l) ++ b)) by done. rewrite reverse_app.
  rewrite skip_while_app by by apply Forall_reverse.
  apply last_Some in Hl as [l' El]. rewrite El, reverse_snoc, skip_while_out by done.
  by rewrite reverse_cons, reverse_involutive.
Qed.

Lemma _strtrim_solid e : solid isblank4 e → _strtrim e = e.
Proof.
  intros (c & l & d & -> & Hl & Hc & Hd). unfold _strtrim. rewrite skip_while_out by done.
  destruct (last l) as [x|] eqn:El.
  - destruct l as [|y l]; [done|]. cbn [last] in Hl. change (last (y :: l) = Some d) in Hl.
    apply last_Some in Hl as [l' El']. rewrite El', reverse_snoc, skip_while_out by done.
    by rewrite reverse_cons, reverse_involutive.
  - destruct l; [done|]. by apply last_None in El.
Qed.

(** The pieces of a list written with a separator, and spaces behind it *)
Fixpoint join (sep : Z) (sp : list Z) (es : list (list Z)) : list Z :=
  match es with
  | [] => []
  | [e] => e
  | e :: es => e ++ sep :: sp ++ join sep sp es
  end.

Lemma strtok_last sep e :
  Forall (λ c, c ≠ sep) e → e ≠ [] → strtok [sep] e = Some (e, []).
Proof.
  intros He Hn. assert (Forall (λ c, mem_chr c [sep] = false) e) as Hf.
  { eapply Forall_impl; [exact He|]. intros c Hc. cbn. destruct (Z.eqb_spec sep c); [congruence|done]. }
  unfold strtok. rewrite skip_while_out; [|destruct Hf; done].
  destruct e as [|c e]; [done|]. by rewrite (span_out _ _ Hf).
Qed.

Lemma strtok_cons sep e rest :
  Forall (λ c, c ≠ sep) e → e ≠ [] → strtok [sep] (e ++ sep :: rest) = Some (e, rest).
Proof.
  intros He Hn. assert (Forall (λ c, mem_chr c [sep] = false) e) as Hf.
  { eapply Forall_impl; [exact He|]. intros c Hc. cbn. destruct (Z.eqb_spec sep c); [congruence|done]. }
  unfold strtok. rewrite skip_while_out; [|destruct Hf; done].
  destruct e as [|c e]; [done|]. cbn [app]. rewrite app_comm_cons, (span_at _ _ _ _ Hf); [done|].
  cbn. by rewrite Z.eqb_refl.
Qed.

Lemma strparse_last sep n e :
  (0 < n)%nat → Forall (λ c, c ≠ sep) e → solid isblank4 e → pg_strparse n e [sep] = [e].
Proof.
  intros Hn Hs He. destruct n as [|n]; [lia|]. cbn [pg_strparse].
  rewrite strtok_last; [|done|by destruct He as (c & l & d & -> & _)].
  rewrite _strtrim_solid by done. by destruct n.
Qed.

Lemma strtok_join sep sp n : ∀ es a,
  isspace sep = false → Forall (λ c, isspace c = true) sp → Forall (λ c, isspace c = true) a →
  Forall (λ e, solid isspace e ∧ Forall (λ c, c ≠ sep) e) es → es ≠ [] → (length es ≤ n)%nat →
  pg_strtok n (a ++ join sep sp es) [sep] = es.
Proof.
  induction n as [|n IH]; intros es a Hsep Hsp Ha Hes Hne Hn; destruct es as [|e es]; try done.
  { cbn in Hn. lia. }
  inversion Hes as [|? ? [He Hc] Hes']; subst. cbn [pg_strtok].
  assert (∀ l, Forall (λ c, isspace c = true) l → Forall (λ c, c ≠ sep) l) as Hblank.
  { intros l Hl. eapply Forall_impl; [exact Hl|]. intros c Hb ->. congruence. }
  assert (Forall (λ c, c ≠ sep) (a ++ e)) as Hae by (apply Forall_app; auto).
  assert (a ++ e ≠ []) as Hnn by (destruct He as (c & l & d & -> & _); by destruct a).
  assert (pg_strtrim (a ++ e) = e) as Et.
  { rewrite <-(app_nil_r e) at 1. by apply strtrim_solid. }
  destruct es as [|e' es].
  - cbn [join]. rewrite strtok_last, Et by done. by destruct n.
  - change (join sep sp (e :: e' :: es)) with (e ++ sep :: sp ++ join sep sp (e' :: es)).
    rewrite app_assoc, strtok_cons, Et by done. f_equal. apply IH; try done. cbn [length] in *. lia.
Qed.

(** ** MAC addresses as text *)

Lemma digit_val_hex d : 0 ≤ d < 16 → digit_val 16 (hex_char d) = Some d.
Proof.
  intros Hd. unfold digit_val, hex_char, isdigit. destruct (Z.ltb_spec d 10).
  - destruct (Z.leb_spec 48 (48 + d)); [|lia]. destruct (Z.leb_spec (48 + d) 57); [|lia]. cbn [andb].
    replace (48 + d - 48) with d by lia. destruct (Z.ltb_spec d 16); [done|lia].
  - destruct (Z.leb_spec (87 + d) 57); [lia|]. rewrite andb_false_r.
    destruct (Z.leb_spec 97 (87 + d)); [|lia]. destruct (Z.leb_spec (87 + d) 102); [|lia]. cbn [andb].
    replace (87 + d - 87) with d by lia. destruct (Z.ltb_spec d 16); [done|lia].
Qed.

Lemma hex_char_range d : 0 ≤ d < 16 → 48 ≤ hex_char d ≤ 57 ∨ 97 ≤ hex_char d ≤ 102.
Proof. intros Hd. unfold hex_char. destruct (Z.ltb_spec d 10); lia. Qed.

Lemma strtoul_hex2 b rest :
  0 ≤ b < 256 → match rest with [] => True | c :: _ => c = 58 end →
  strtoul 16 (hex2 b ++ rest) = (b, rest, false).
Proof.
  intros Hb Hr. assert (0 ≤ b / 16 < 16) as Hq by (split; [apply Z.div_pos|apply Z.div_lt_upper_bound]; lia).
  pose proof (Z.mod_pos_bound b 16 ltac:(lia)) as Hm. pose proof (Z.div_mod b 16).
  pose proof (hex_char_range _ Hq) as Rq. pose proof (hex_char_range _ Hm) as Rm.
  assert (digits 16 0 (hex2 b ++ rest) = (b, rest)) as Ed.
  { unfold hex2. cbn [app digits]. rewrite !digit_val_hex by done. cbn [digits].
    replace ((0 * 16 + b / 16) * 16 + b `mod` 16) with b by lia.
    destruct rest as [|c rest]; [done|]. by subst c. }
  assert (number 16 (hex2 b ++ rest) = Some (false, b, rest)) as En.
  { unfold number, hex2. cbn [app skip_while].
    assert (isspace (hex_char (b / 16)) = false) as ->.
    { unfold isspace. destruct (Z.eqb_spec (hex_char (b / 16)) 32); [lia|].
      destruct (Z.leb_spec (hex_char (b / 16)) 13); [lia|apply andb_false_r]. }
    destruct (Z.eqb_spec (hex_char (b / 16)) 45); [lia|]. destruct (Z.eqb_spec (hex_char (b / 16)) 43); [lia|].
    unfold hex2 in Ed. cbn [app] in Ed.
    destruct (Z.eqb_spec (hex_char (b `mod` 16)) 120); [lia|].
    destruct (Z.eqb_spec (hex_char (b `mod` 16)) 88); [lia|].
    destruct rest as [|d s']; cbn [orb andb Z.eqb Pos.eqb]; rewrite ?andb_false_r; cbn [andb];
      by rewrite digit_val_hex, Ed by done. }
  unfold strtoul. rewrite En. destruct (Z.leb_spec (2 ^ 64) b); [lia|done].
Qed.

Lemma aton_step n a o :
  aton_loop (S n) a o =
  let '(v, rest, err) := strtoul 16 a in
  if err || (length rest =? length a)%nat ||
     negb match rest with [] => true | c :: _ => c =? 58 end
  then None
  else
    let o := o ++ [v] in
    if (n =? 0)%nat || match rest with [] => true | _ => false end then Some (o, rest)
    else aton_loop n (drop 1 rest) o.
Proof. done. Qed.

(** The rest of a MAC address behind the bytes read already *)
Lemma aton_bytes bs : ∀ n b o, (length bs = n)%nat →
  Forall (λ b, 0 ≤ b < 256) (b :: bs) →
  aton_loop (S n) (hex2 b ++ flat_map (λ b, 58 :: hex2 b) bs) o = Some (o ++ b :: bs, []).
Proof.
  induction bs as [|b' bs IH]; intros n b o Hl Hf; inversion Hf as [|? ? Hb Hf']; subst;
    rewrite aton_step; cbn [flat_map length].
  - rewrite strtoul_hex2 by done. cbn [length app Nat.eqb orb negb]. done.
  - rewrite strtoul_hex2 by done. set (rest := flat_map _ bs) in *. cbn [app orb].
    assert (Nat.eqb (length (58 :: hex2 b' ++ rest)) (length (hex2 b ++ 58 :: hex2 b' ++ rest)) = false) as ->.
    { apply Nat.eqb_neq. rewrite length_app. cbn [length hex2]. lia. }
    cbn [Z.eqb Pos.eqb negb orb Nat.eqb]. rewrite skipn_cons, drop_0. unfold rest.
    rewrite IH by done. by rewrite <-app_assoc.
Qed.

(** A MAC address that was printed is parsed back, byte for byte. *)
Theorem mac_text_roundtrip (bs : list Z) :
  length bs = 6%nat → Forall (λ b, 0 ≤ b < 256) bs → pg_ether_aton (inet_mtoa bs) = Some bs.
Proof.
  intros Hl Hf. destruct bs as [|b bs]; [done|]. unfold pg_ether_aton, inet_mtoa.
  injection Hl as Hl. rewrite (aton_bytes bs 5 b [] Hl Hf). cbn [app]. cbn [length]. rewrite Hl.
  cbn [Nat.eqb]. assert (forallb (λ v, v <=? 255) (b :: bs) = true) as ->; [|done].
  apply forallb_forall. intros x Hx. rewrite Forall_forall in Hf.
  apply Z.leb_le. assert (0 ≤ x < 256); [|lia]. apply Hf, list_elem_of_In, Hx.
Qed.

Lemma mac_text_roundtrip_witness :
  pg_ether_aton (inet_mtoa [0; 27; 44; 61; 78; 255]) = Some [0; 27; 44; 61; 78; 255].
Proof. apply (mac_text_roundtrip [0; 27; 44; 61; 78; 255]); [reflexivity|repeat constructor; vm_compute; congruence]. Defined.
