(* ===== verification/PortList.v ===== *)
(** * Port lists

    [lib/utils/portlist.c]: the lists of ports ("0,2-5,all") with which every
    command says which ports it is for.  A list is a 64-bit map; the parsers
    change it only when they succeed. *)
From Stdlib Require Import Ascii String.
From S2P Require Import Prelude Mem RandomBits Inet Strings.

(** The parsers return the status and the value of the caller's variable. *)
Definition portmask_parse (s : list Z) (portmask : Z) : Z * Z :=
  let '(pm, rest, _) := strtoul 16 s in
  match s, rest with
  | _ :: _, [] => if pm =? 0 then (-1, portmask) else (0, pm)
  | _, _ => (-1, portmask)
  end.

(** The body runs before the test; [fuel] is the number of bits left. *)
Fixpoint set_portlist_bits (fuel : nat) (low high map : Z) : Z :=
  match fuel with
  | O => map
  | S fuel =>
      let map := Z.lor map (Z.shiftl 1 low) in
      let low := low + 1 in
      if low <=? high then set_portlist_bits fuel low high map else map
  end.

Definition MAX_SPLIT := 64%nat.

(** The bounds of an entry, [N] or [N-M] *)
Definition entry_bounds (e : list Z) : Z * Z :=
  let '(a, b) := span (λ c, c =? 45) e in
  match b with
  | [] => let ps := fst (fst (strtoul 10 e)) in (ps, ps)
  | _ :: p => (fst (fst (strtoul 10 a)), fst (fst (strtoul 10 p)))
  end.

Fixpoint portlist_entries (es : list (list Z)) (map : Z) : option Z :=
  match es with
  | [] => Some map
  | e :: es =>
      let '(ps, pe) := entry_bounds e in
      if (pe <? ps) || (64 <=? pe) then None
      else portlist_entries es (set_portlist_bits 64 ps pe map)
  end.

Fixpoint all_bits (n : nat) (i m : Z) : Z :=
  match n with O => m | S n => all_bits n (i + 1) (Z.lor m (Z.shiftl 1 i)) end.

Definition portlist_parse (s : list Z) (portlist : Z) : Z * Z :=
  match s with
  | [] => (-1, portlist)
  | _ =>
      if pg_strmatch s (str "all") then (0, all_bits 64 0 portlist)
      else
        match pg_strtok MAX_SPLIT s (str ",") with
        | [] => (0, portlist)
        | es => match portlist_entries es 0 with
                | None => (-1, portlist)
                | Some map => (0, map)
                end
        end
  end.

(** ** Printing

    [buf] is what the buffer of [len] bytes holds up to its zero byte; [k] is
    where the next piece goes, the length [snprintf] would have needed. *)
Definition RTE_MAX_ETHPORTS := 32.

Fixpoint print_ports (n : nat) (i portlist len k : Z) (buf : list Z) : Z * list Z :=
  match n with
  | O => (k, buf)
  | S n =>
      if k <? len then
        if Z.testbit portlist i then
          let piece := show i ++ str ", " in
          print_ports n (i + 1) portlist len (k + Z.of_nat (length piece))
            (buf ++ take (Z.to_nat (len - k - 1)) piece)
        else print_ports n (i + 1) portlist len k buf
      else (k, buf)
  end.

(** [buf[k - 2] = 0] outside the buffer is not defined. *)
Definition portlist_string (portlist len : Z) : option (list Z) :=
  let '(k, buf) := print_ports (Z.to_nat RTE_MAX_ETHPORTS) 0 portlist len 0 [] in
  if 2 <=? k then
    if k - 2 <? len then Some (take (Z.to_nat (k - 2)) buf) else None
  else Some buf.

Definition portlist_print (portlist len : Z) : option (list Z) := portlist_string portlist len.

(** ** Parsing *)

Definition show_entry (r : Z * Z) : list Z :=
  let '(lo, hi) := r in if lo =? hi then show lo else show lo ++ 45 :: show hi.
Definition valid (r : Z * Z) : bool := let '(lo, hi) := r in (lo <=? hi) && (hi <? 64).
Definition covers (i : Z) (r : Z * Z) : bool := let '(lo, hi) := r in (lo <=? i) && (i <=? hi).
Definition word_bounds (r : Z * Z) : Prop := 0 ≤ fst r < 2 ^ 64 ∧ 0 ≤ snd r < 2 ^ 64.

Lemma entry_solid r : word_bounds r → solid isspace (show_entry r) ∧ Forall (λ c, c ≠ 44) (show_entry r).
Proof.
  destruct r as [lo hi]. intros [Hl Hh]. cbn [fst snd] in *.
  destruct (show_cons lo) as (c & l & E & Hc); [lia|]. unfold show_entry.
  assert (¬ digit_char 44 ∧ ¬ digit_char 45) as [H44 H45] by (unfold digit_char; lia).
  destruct (lo =? hi); (split; [exists c|]).
  - exists l, (48 + lo `mod` 10). rewrite show_last. split_and!; [done|done|by apply digit_not_space|].
    apply digit_not_space, digit_mod.
  - apply show_no; [lia|done].
  - exists (l ++ 45 :: show hi), (48 + hi `mod` 10). rewrite E. split_and!; [done| |by apply digit_not_space|].
    + rewrite last_app. cbn [last]. pose proof (show_last hi) as Hs.
      destruct (show hi) as [|x y]; [done|]. cbn [last] in *. by rewrite Hs.
    + apply digit_not_space, digit_mod.
  - apply Forall_app. split; [apply show_no; [lia|done]|]. constructor; [lia|]. apply show_no; [lia|done].
Qed.

Lemma entry_bounds_show r : word_bounds r → entry_bounds (show_entry r) = r.
Proof.
  destruct r as [lo hi]. intros [Hl Hh]. cbn [fst snd] in *. unfold entry_bounds, show_entry.
  assert (∀ n, 0 ≤ n → Forall (λ c, (c =? 45) = false) (show n)) as Hs.
  { intros n Hn. eapply Forall_impl; [by apply (show_no 45); [|unfold digit_char; lia]|].
    intros c Hc. by apply Z.eqb_neq. }
  assert (∀ n, 0 ≤ n < 2 ^ 64 → fst (fst (strtoul 10 (show n))) = n) as Hv.
  { intros n Hn. rewrite <-(app_nil_r (show n)), strtoul_show; done. }
  destruct (Z.eqb_spec lo hi) as [->|N].
  - rewrite (span_out _ _ (Hs hi ltac:(lia))). by rewrite Hv.
  - rewrite (span_at _ _ _ _ (Hs lo ltac:(lia))) by done. by rewrite !Hv.
Qed.

Lemma set_bits_testbit fuel : ∀ low high map i,
  0 ≤ low ≤ high → high - low < Z.of_nat fuel → 0 ≤ i →
  Z.testbit (set_portlist_bits fuel low high map) i = Z.testbit map i || ((low <=? i) && (i <=? high)).
Proof.
  induction fuel as [|fuel IH]; intros low high map i Hl Hf Hi; [lia|]. cbn [set_portlist_bits].
  assert (Z.testbit (Z.lor map (Z.shiftl 1 low)) i = Z.testbit map i || (i =? low)) as Hb.
  { rewrite Z.lor_spec, Z.shiftl_spec by done. f_equal.
    destruct (Z.eqb_spec i low) as [->|N]; [by rewrite Z.sub_diag|].
    destruct (Z.lt_ge_cases i low); [apply Z.testbit_neg_r; lia|].
    change 1 with (2 ^ 0). apply Z.pow2_bits_false. lia. }
  destruct (Z.leb_spec (low + 1) high).
  - rewrite IH, Hb by lia. rewrite <-orb_assoc. f_equal.
    destruct (Z.eqb_spec i low); destruct (Z.leb_spec (low + 1) i); destruct (Z.leb_spec low i);
      destruct (Z.leb_spec i high); done || lia.
  - rewrite Hb. f_equal. destruct (Z.eqb_spec i low); destruct (Z.leb_spec low i);
      destruct (Z.leb_spec i high); done || lia.
Qed.

Lemma entries_spec rs : ∀ map, Forall word_bounds rs →
  if forallb valid rs
  then ∃ m, portlist_entries (show_entry <$> rs) map = Some m ∧
    ∀ i, 0 ≤ i → Z.testbit m i = Z.testbit map i || existsb (covers i) rs
  else portlist_entries (show_entry <$> rs) map = None.
Proof.
  induction rs as [|[lo hi] rs IH]; intros map Hr; cbn [forallb fmap list_fmap portlist_entries existsb].
  { exists map. split; [done|]. intros i _. by rewrite orb_false_r. }
  inversion Hr as [|? ? H0 Hr']; subst. rewrite entry_bounds_show by done.
  unfold valid at 1. destruct H0 as [Hl Hh]. cbn [fst snd] in *.
  destruct (Z.leb_spec lo hi) as [Hle|Hgt]; destruct (Z.ltb_spec hi 64) as [Hlt|Hge]; cbn [andb];
    destruct (Z.ltb_spec hi lo); try lia; destruct (Z.leb_spec 64 hi); try lia; cbn [orb]; try done.
  specialize (IH (set_portlist_bits 64 lo hi map) Hr'). destruct (forallb valid rs); [|done].
  destruct IH as (m & -> & Hm). exists m. split; [done|]. intros i Hi.
  rewrite (Hm i Hi), set_bits_testbit by lia. by rewrite orb_assoc.
Qed.

Lemma join_first sep sp es e : ∃ t, join sep sp (e :: es) = e ++ t.
Proof. destruct es as [|e' es]; [exists []; by rewrite app_nil_r|by eexists]. Qed.

Lemma parse_join sp rs old :
  Forall word_bounds rs → rs ≠ [] → (length rs ≤ MAX_SPLIT)%nat → Forall (λ c, isspace c = true) sp →
  portlist_parse (join 44 sp (show_entry <$> rs)) old =
  match portlist_entries (show_entry <$> rs) 0 with None => (-1, old) | Some map => (0, map) end.
Proof.
  intros Hr Hne Hlen Hsp. unfold portlist_parse.
  pose proof (strtok_join 44 sp MAX_SPLIT (show_entry <$> rs) [] eq_refl Hsp ltac:(constructor)) as Ht.
  cbn [app] in Ht. change [44] with (str ",") in Ht.
  assert (∃ c t, join 44 sp (show_entry <$> rs) = c :: t ∧ digit_char c) as (c & t & E & Hc).
  { destruct rs as [|[lo hi] rs]; [done|]. inversion Hr as [|? ? [Hl _] _]; subst. cbn [fst] in Hl.
    cbn [fmap list_fmap]. destruct (join_first 44 sp (show_entry <$> rs) (show_entry (lo, hi))) as [t ->].
    destruct (show_cons lo) as (c & l & El & Hc); [lia|]. unfold show_entry. rewrite El.
    destruct (lo =? hi); cbn [app]; by eexists c, _. }
  rewrite Ht; [| |by destruct rs|by rewrite length_fmap].
  - rewrite E. assert (pg_strmatch (c :: t) (str "all") = false) as ->.
    { change (str "all") with [97; 108; 108]. cbn [pg_strmatch]. unfold digit_char in Hc.
      destruct (Z.eqb_spec c 97); [lia|done]. }
    by destruct rs as [|r rs].
  - apply Forall_fmap. eapply Forall_impl; [exact Hr|]. intros r Hw. apply (entry_solid r Hw).
Qed.

(** A port list selects the union of its entries.  A list of up to 64 numbers
    and ranges, with or without blanks behind the commas, is accepted exactly
    when every range is in order and within the 64 ports, and then bit [i] of
    the map is set exactly if some entry covers [i]; otherwise the caller's
    variable keeps its value. *)
Theorem portlist_parse_union (sp : list Z) (rs : list (Z * Z)) (old : Z) :
  Forall word_bounds rs → rs ≠ [] → (length rs ≤ MAX_SPLIT)%nat → Forall (λ c, isspace c = true) sp →
  ∃ m, portlist_parse (join 44 sp (show_entry <$> rs)) old =
         (if forallb valid rs then (0, m) else (-1, old)) ∧
    (forallb valid rs = true → ∀ i, 0 ≤ i → Z.testbit m i = existsb (covers i) rs).
Proof.
  intros Hr Hne Hlen Hsp. rewrite parse_join by done. pose proof (entries_spec rs 0 Hr) as He.
  destruct (forallb valid rs).
  - destruct He as (m & -> & Hm). exists m. split; [done|]. intros _ i Hi. rewrite (Hm i Hi).
    by rewrite Z.bits_0.
  - rewrite He. by exists 0.
Qed.

(** ** Printing and parsing back *)

Fixpoint set_ports (n : nat) (i m : Z) : list Z :=
  match n with
  | O => []
  | S n => (if Z.testbit m i then [i] else []) ++ set_ports n (i + 1) m
  end.

Definition piece (i : Z) : list Z := show i ++ str ", ".

Lemma piece_short i : 0 ≤ i < 32 → (length (piece i) ≤ 4)%nat.
Proof.
  intros Hi. assert (forallb (λ j, (length (piece j) <=? 4)%nat) (seqZ 0 32) = true) as Hf.
  { vm_compute. reflexivity. }
  rewrite forallb_forall in Hf. apply Nat.leb_le, Hf, list_elem_of_In, elem_of_seqZ. lia.
Qed.

Lemma print_ports_spec m len n : ∀ i k buf,
  0 ≤ i → i + Z.of_nat n ≤ 32 → k = Z.of_nat (length buf) → k + 4 * Z.of_nat n < len →
  let buf' := buf ++ flat_map piece (set_ports n i m) in
  print_ports n i m len k buf = (Z.of_nat (length buf'), buf').
Proof.
  induction n as [|n IH]; intros i k buf Hi Hn Hk Hlen; cbn [print_ports set_ports flat_map].
  { cbn zeta. by rewrite app_nil_r, <-Hk. }
  destruct (Z.ltb_spec k len); [|lia]. destruct (Z.testbit m i).
  - pose proof (piece_short i ltac:(lia)) as Hp. fold (piece i). rewrite (take_ge (piece i)) by lia.
    rewrite IH by (rewrite ?length_app; lia). cbn [app flat_map]. by rewrite <-!app_assoc.
  - rewrite IH by lia. done.
Qed.

Lemma flat_pieces_join p ps :
  flat_map piece (p :: ps) = join 44 [32] (show_entry <$> ((λ j, (j, j)) <$> (p :: ps))) ++ str ", ".
Proof.
  revert p. induction ps as [|q ps IH]; intros p.
  - cbn. rewrite Z.eqb_refl. unfold piece. by rewrite app_nil_r.
  - change (flat_map piece (p :: q :: ps)) with (piece p ++ flat_map piece (q :: ps)). rewrite IH.
    cbn [fmap list_fmap join show_entry]. rewrite !Z.eqb_refl. unfold piece at 1. rewrite <-!app_assoc. done.
Qed.

Lemma set_ports_elem n m : ∀ i j,
  j ∈ set_ports n i m ↔ i ≤ j < i + Z.of_nat n ∧ Z.testbit m j = true.
Proof.
  induction n as [|n IH]; intros i j; cbn [set_ports].
  { split; [intros H; by apply not_elem_of_nil in H|lia]. }
  rewrite elem_of_app, IH. destruct (Z.testbit m i) eqn:E.
  - rewrite list_elem_of_singleton. split; [intros [->|[? ?]]; split; try done; lia|].
    intros [H1 H2]. destruct (decide (j = i)) as [->|]; [by left|right; split; [lia|done]].
  - split; [intros [H|[? ?]]; [by apply not_elem_of_nil in H|split; [lia|done]]|].
    intros [H1 H2]. right. split; [|done]. destruct (decide (j = i)) as [->|]; [congruence|lia].
Qed.

Lemma length_set_ports n m i : (length (set_ports n i m) ≤ n)%nat.
Proof.
  revert i. induction n as [|n IH]; intros i; cbn [set_ports]; [done|]. rewrite length_app.
  specialize (IH (i + 1)). destruct (Z.testbit m i); cbn [length]; lia.
Qed.

Lemma covers_self i ps : existsb (covers i) ((λ j, (j, j)) <$> ps) = bool_decide (i ∈ ps).
Proof.
  apply eq_true_iff_eq. rewrite bool_decide_eq_true, existsb_exists. split.
  - intros ([lo hi] & Hin & Hc). apply list_elem_of_In, list_elem_of_fmap in Hin as (j & E & Hj).
    injection E as -> ->. unfold covers in Hc. apply andb_true_iff in Hc as [H1 H2].
    apply Z.leb_le in H1, H2. by replace i with j by lia.
  - intros Hi. exists (i, i). split.
    + apply list_elem_of_In, list_elem_of_fmap. by exists i.
    + unfold covers. by rewrite Z.leb_refl.
Qed.

Lemma ports_of_word m j : in_word 32 m → 0 ≤ j → Z.testbit m j = true → j < 32.
Proof.
  intros Hm Hj E. destruct (Z.lt_ge_cases j 32) as [|H]; [done|].
  by rewrite (word_bit_high 32) in E.
Qed.

Lemma flat_pieces_short l : (∀ x, x ∈ l → 0 ≤ x < 32) → (length (flat_map piece l) ≤ 4 * length l)%nat.
Proof.
  induction l as [|x l IH]; intros Hx; [done|]. cbn [flat_map length]. rewrite length_app.
  pose proof (piece_short x (Hx x (list_elem_of_here _ _))).
  assert (length (flat_map piece l) ≤ 4 * length l)%nat; [|lia].
  apply IH. intros y Hy. apply Hx. by apply list_elem_of_further.
Qed.

Definition ranges_of (ps : list Z) : list (Z * Z) := (λ j, (j, j)) <$> ps.

Lemma portlist_string_join m len p ps :
  set_ports 32 0 m = p :: ps → 128 < len →
  portlist_string m len = Some (join 44 [32] (show_entry <$> ranges_of (p :: ps))).
Proof.
  intros E Hlen. unfold portlist_string. change (Z.to_nat RTE_MAX_ETHPORTS) with 32%nat.
  rewrite print_ports_spec by (cbn; lia). cbn zeta. rewrite E. cbn [app].
  assert (length (flat_map piece (p :: ps)) ≤ 128)%nat as Hs.
  { pose proof (length_set_ports 32 m 0) as Hn. rewrite E in Hn.
    assert (length (flat_map piece (p :: ps)) ≤ 4 * length (p :: ps))%nat; [|lia].
    apply flat_pieces_short. intros x Hx. rewrite <-E in Hx. by apply set_ports_elem in Hx as [? _]. }
  rewrite flat_pieces_join, length_app in *. change (length (str ", ")) with 2%nat in *.
  fold (ranges_of (p :: ps)) in *. set (t := join 44 [32] (show_entry <$> ranges_of (p :: ps))) in *.
  destruct (Z.leb_spec 2 (Z.of_nat (length t + 2))); [|lia].
  destruct (Z.ltb_spec (Z.of_nat (length t + 2) - 2) len); [|lia].
  f_equal. replace (Z.to_nat (Z.of_nat (length t + 2) - 2)) with (length t) by lia.
  apply take_app_length.
Qed.

(** The map of a list of single ports *)
Lemma entries_ports m ps :
  in_word 32 m → (∀ j, j ∈ ps ↔ 0 ≤ j < 32 ∧ Z.testbit m j = true) →
  Forall word_bounds (ranges_of ps) ∧ portlist_entries (show_entry <$> ranges_of ps) 0 = Some m.
Proof.
  intros Hm Hps. assert (Forall word_bounds (ranges_of ps)) as Hw.
  { apply Forall_fmap, Forall_forall. intros j Hin. apply Hps in Hin as [Hj _]. split; cbn; lia. }
  split; [done|]. pose proof (entries_spec (ranges_of ps) 0 Hw) as He.
  assert (forallb valid (ranges_of ps) = true) as Hv.
  { apply forallb_forall. intros r Hr. apply list_elem_of_In, list_elem_of_fmap in Hr as (j & -> & Hin).
    apply Hps in Hin as [Hj _]. cbn. destruct (Z.leb_spec j j); [|lia].
    by destruct (Z.ltb_spec j 64); [|lia]. }
  rewrite Hv in He. destruct He as (m' & -> & Hm'). f_equal. apply Z.bits_inj'. intros i Hi.
  rewrite (Hm' i Hi), Z.bits_0. cbn [orb]. unfold ranges_of. rewrite covers_self.
  destruct (Z.testbit m i) eqn:E.
  - apply bool_decide_eq_true, Hps. split; [|done]. split; [done|]. by apply (ports_of_word m).
  - apply bool_decide_eq_false. intros Hin. apply Hps in Hin as [_ E']. congruence.
Qed.

(** C27. A port list that was printed is parsed back: for a non-empty map of the 32
    ports and a buffer that is long enough, [portlist_parse] gives the map that
    [portlist_string] was given. *)
Theorem portlist_roundtrip (m len old : Z) :
  0 < m < 2 ^ RTE_MAX_ETHPORTS → 128 < len →
  ∃ s, portlist_string m len = Some s ∧ portlist_parse s old = (0, m).
Proof.
  intros Hm Hlen. assert (in_word 32 m) as Hw by (unfold in_word, RTE_MAX_ETHPORTS in *; lia).
  destruct (entries_ports m (set_ports 32 0 m) Hw (set_ports_elem 32 m 0)) as [Hb He].
  pose proof (length_set_ports 32 m 0) as Hn. destruct (set_ports 32 0 m) as [|p ps] eqn:E.
  { cbn in He. injection He as <-. lia. }
  exists (join 44 [32] (show_entry <$> ranges_of (p :: ps))).
  split; [by apply portlist_string_join|]. rewrite parse_join, He; [done|done|done| |by repeat constructor].
  unfold ranges_of, MAX_SPLIT. rewrite length_fmap. lia.
Qed.

(** ** Witnesses *)

Lemma portlist_parse_union_witness :
  ∃ m, portlist_parse (str "0,2-5,7") 9 = (0, m) ∧ Z.testbit m 3 = true ∧ Z.testbit m 6 = false.
Proof.
  destruct (portlist_parse_union [] [(0, 0); (2, 5); (7, 7)] 9) as (m & E & Hb).
  - repeat constructor; vm_compute; congruence.
  - discriminate.
  - vm_compute. repeat constructor.
  - constructor.
  - exists m. split; [exact E|]. split; [exact (Hb eq_refl 3 ltac:(lia))|exact (Hb eq_refl 6 ltac:(lia))].
Defined.

Lemma portlist_roundtrip_witness :
  ∃ s, portlist_string 0x80000025 200 = Some s ∧ portlist_parse s 0 = (0, 0x80000025).
Proof. apply (portlist_roundtrip 0x80000025 200 0); [split; reflexivity|reflexivity]. Defined.
