(* ===== verification/L2p.v ===== *)
(** * Mapping cores to ports

    [lib/common/l2p.c] and [lib/common/l2p.h]: the matrix string of the command
    line ("[1:2].0, [3-4].1") says which cores receive and send on which ports;
    every core gets a queue of its own on each of its ports.  The parser cuts
    the string up in place and looks at some of it twice, so the functions
    below also give what is left of it. *)
From Stdlib Require Import Ascii String.
From S2P Require Import Prelude Mem Inet PortInfo Strings.

Definition RTE_MAX_LCORE := 128.
Definition RTE_MAX_ETHPORTS := 32.
Definition RX_TYPE := 1.
Definition TX_TYPE := 2.

(** ** The tables

    [rx_pids] are the first [pids.rx_cnt] entries of [pids.rx], [rx_qids] is
    [qids.rx], indexed by port; [lids] are the first [nb_lids] entries. *)
Record lobj_t := mk_lobj {
  type : Z; rx_pids : list Z; tx_pids : list Z; rx_qids : Z → Z; tx_qids : Z → Z;
  qrx_cnt : Z; qtx_cnt : Z }.
#[global] Instance eta_lobj : Eta lobj_t := λ o,
  mk_lobj (type o) (rx_pids o) (tx_pids o) (rx_qids o) (tx_qids o) (qrx_cnt o) (qtx_cnt o).

Record pobj_t := mk_pobj { rx_qid : Z; tx_qid : Z; lids : list Z }.
#[global] Instance eta_pobj : Eta pobj_t := λ o, mk_pobj (rx_qid o) (tx_qid o) (lids o).

Record l2p_t := mk_l2p {
  stop : Z → bool; lcores : Z → lobj_t; ports : Z → pobj_t; map : Z → Z → Z * Z }.
#[global] Instance eta_l2p : Eta l2p_t := λ l, mk_l2p (stop l) (lcores l) (ports l) (map l).

Definition l2p_create : l2p_t :=
  mk_l2p (λ _, true) (λ _, mk_lobj 0 [] [] (λ _, 0) (λ _, 0) 0 0) (λ _, mk_pobj 0 0 []) (λ _ _, (0, 0)).

Definition upd_lobj (lid : Z) (f : lobj_t → lobj_t) (l : l2p_t) : l2p_t :=
  l <| lcores ::= λ t, set_at lid (f (t lid)) t |>.
Definition upd_pobj (pid : Z) (f : pobj_t → pobj_t) (l : l2p_t) : l2p_t :=
  l <| ports ::= λ t, set_at pid (f (t pid)) t |>.
Definition get_map (l : l2p_t) (pid lid : Z) : Z * Z := map l pid lid.
Definition put_map (pid lid : Z) (rxtx : Z * Z) (l : l2p_t) : l2p_t :=
  l <| map ::= λ t, set_at pid (set_at lid rxtx (t pid)) t |>.

Definition pg_new_rxque (pid : Z) (l : l2p_t) : Z * l2p_t :=
  (rx_qid (ports l pid), upd_pobj pid (λ o, o <| rx_qid ::= λ q, u16 (q + 1) |>) l).
Definition pg_new_txque (pid : Z) (l : l2p_t) : Z * l2p_t :=
  (tx_qid (ports l pid), upd_pobj pid (λ o, o <| tx_qid ::= λ q, u16 (q + 1) |>) l).
Definition pg_inc_rx (pid lid : Z) (l : l2p_t) : l2p_t :=
  let '(rx, tx) := map l pid lid in put_map pid lid (u16 (rx + 1), tx) l.
Definition pg_inc_tx (pid lid : Z) (l : l2p_t) : l2p_t :=
  let '(rx, tx) := map l pid lid in put_map pid lid (rx, u16 (tx + 1)) l.

Definition get_type (l : l2p_t) (lid : Z) : Z := type (lcores l lid).
Definition get_lcore_rxcnt (l : l2p_t) (lid : Z) : Z := Z.of_nat (length (rx_pids (lcores l lid))).
Definition get_lcore_txcnt (l : l2p_t) (lid : Z) : Z := Z.of_nat (length (tx_pids (lcores l lid))).
Definition get_port_rxcnt (l : l2p_t) (pid : Z) : Z := rx_qid (ports l pid).
Definition get_port_txcnt (l : l2p_t) (pid : Z) : Z := tx_qid (ports l pid).
Definition get_port_nb_lids (l : l2p_t) (pid : Z) : Z := Z.of_nat (length (lids (ports l pid))).
(** What is behind the last entry of an array was never written. *)
Definition get_rx_pid (l : l2p_t) (lid idx : Z) : Z := nth (Z.to_nat idx) (rx_pids (lcores l lid)) 0.
Definition get_tx_pid (l : l2p_t) (lid idx : Z) : Z := nth (Z.to_nat idx) (tx_pids (lcores l lid)) 0.
Definition get_port_lid (l : l2p_t) (pid qid : Z) : Z := nth (Z.to_nat qid) (lids (ports l pid)) 0.
Definition get_rxque (l : l2p_t) (lid pid : Z) : Z := rx_qids (lcores l lid) pid.
Definition get_txque (l : l2p_t) (lid pid : Z) : Z := tx_qids (lcores l lid) pid.
Definition pg_stop_lcore (lid : Z) (l : l2p_t) : l2p_t := l <| stop ::= set_at lid true |>.
Definition pg_start_lcore (lid : Z) (l : l2p_t) : l2p_t := l <| stop ::= set_at lid false |>.
Definition pg_lcore_is_running (l : l2p_t) (lid : Z) : bool := negb (stop l lid).

(** ** Connecting

    Storing past the end of an array is not defined. *)
Definition connect_rx (pid lid : Z) (l : l2p_t) : option l2p_t :=
  if RTE_MAX_ETHPORTS <=? get_lcore_rxcnt l lid then None
  else
    let l := upd_lobj lid (λ o, o <| rx_pids ::= λ ps, ps ++ [pid] |>) l in
    let '(q, l) := pg_new_rxque pid l in
    let l := upd_lobj lid (λ o, o <| rx_qids ::= set_at pid q |>) l in
    let l := upd_lobj lid (λ o, o <| qrx_cnt ::= λ n, u16 (n + 1) |>) l in
    Some (pg_inc_rx pid lid l).

Definition connect_tx (pid lid : Z) (l : l2p_t) : option l2p_t :=
  if RTE_MAX_ETHPORTS <=? get_lcore_txcnt l lid then None
  else
    let l := upd_lobj lid (λ o, o <| tx_pids ::= λ ps, ps ++ [pid] |>) l in
    let '(q, l) := pg_new_txque pid l in
    let l := upd_lobj lid (λ o, o <| tx_qids ::= set_at pid q |>) l in
    let l := upd_lobj lid (λ o, o <| qtx_cnt ::= λ n, u16 (n + 1) |>) l in
    Some (pg_inc_tx pid lid l).

Definition l2p_connect (pid lid typ : Z) (l : l2p_t) : option l2p_t :=
  let l := upd_lobj lid (λ o, o <| type := typ |>) l in
  l ← (if tst_bits typ RX_TYPE then connect_rx pid lid l else Some l);
  l ← (if tst_bits typ TX_TYPE then connect_tx pid lid l else Some l);
  if RTE_MAX_LCORE <=? Z.of_nat (length (lids (ports l pid))) then None
  else Some (upd_pobj pid (λ o, o <| lids ::= λ ls, ls ++ [lid] |>) l).

(** ** Parsing *)

(** The bits of an array of [n] bits; setting a bit outside is not defined. *)
Definition bits : Type := Z → bool.
Definition _bset (n idx : Z) (b : bits) : option bits :=
  let idx := u16 idx in if idx <? n then Some (set_at idx true b) else None.

(** [do _bset(map, l); while (++l <= h);] *)
Fixpoint bset_range (fuel : nat) (n l h : Z) (b : bits) : option bits :=
  match fuel with
  | O => None
  | S fuel =>
      b ← _bset n l b;
      let l := u32 (l + 1) in
      if l <=? h then bset_range fuel n l h b else Some b
  end.

Fixpoint rt_entries (n : Z) (es : list (list Z)) (b : bits) : option bits :=
  match es with
  | [] => Some b
  | e :: es =>
      let '(lo, p) := span (λ c, c =? 45) e in
      b ← match p with
          | _ :: p => bset_range (Z.to_nat n + 1) n (u32 (strtol 10 lo)) (u32 (strtol 10 p)) b
          | [] => _bset n (strtol 10 e) b
          end;
      rt_entries n es b
  end.

(** The status, and the array *)
Definition pg_parse_rt_list (n : Z) (lst : list Z) (b : bits) : option (Z * bits) :=
  match pg_strparse 33 lst (str "/") with
  | [] => Some (1, b)
  | es => b ← rt_entries n es b; Some (0, b)
  end.

(** What is left of a list after [pg_parse_rt_list] has put zero bytes behind its
    first entry and in the place of that entry's dash *)
Definition rt_list_left (lst : list Z) : list Z :=
  match strtok (str "/") lst with
  | None => lst
  | Some (tok, _) => fst (span (λ c, c =? 45) (_strtrim tok))
  end.

(** [pg_strtrimset]: after a match the pointer into [set] has moved by three, past
    the end of a string of four characters; [set] is the memory there. *)
Fixpoint trimset (fuel : nat) (set s : list Z) : option (list Z) :=
  match fuel, set with
  | S fuel, c :: set1 =>
      if c =? 0 then Some s
      else if match s with x :: _ => x =? c | [] => false end then
        match set1 with
        | [] => None
        | d :: _ =>
            let s := drop 1 s in
            let s := match last s with
                     | Some x => if x =? d then removelast s else s
                     | None => s
                     end in
            trimset fuel (drop 2 set1) s
        end
      else trimset fuel (drop 2 set) s
  | _, _ => None
  end.

(** [past] is what lies behind the literal. *)
Definition pg_strtrimset (past s : list Z) : option (list Z) :=
  let set := str "[]{}" ++ [0] ++ past in trimset (length set) set s.

(** [pg_parse_lcore_list] and [pg_parse_port_list] are the same but for the size of
    the arrays: [n]. *)
Definition pg_parse_list (past : list Z) (n : Z) (lst : list Z) (rb tb : bits)
    : option (Z * bits * bits) :=
  p ← pg_strtrimset past lst;
  match p with
  | [] => Some (1, rb, tb)
  | _ =>
      match pg_strparse 3 p (str ":") with
      | [a] =>
          '(_, rb) ← pg_parse_rt_list n a rb;
          '(_, tb) ← pg_parse_rt_list n (rt_list_left a) tb;
          Some (0, rb, tb)
      | [a; b] =>
          '(e, rb) ← pg_parse_rt_list n a rb;
          if negb (e =? 0) then Some (1, rb, tb)
          else
            '(e, tb) ← pg_parse_rt_list n b tb;
            Some (if negb (e =? 0) then (1, rb, tb) else (0, rb, tb))
      | _ => Some (1, rb, tb)
      end
  end.

Definition no_bits : bits := λ _, false.

(** ** The matrix *)

(** Which cores and ports an entry of the matrix names *)
Record lp_t := mk_lp { l_rbits : bits; l_tbits : bits; p_rbits : bits; p_tbits : bits }.

Definition lid_type (e : lp_t) (lid : Z) : Z :=
  let t := if l_rbits e lid then RX_TYPE else 0 in
  if l_tbits e lid then t ||| TX_TYPE else t.

Fixpoint connect_pids (n : nat) (pid lid : Z) (e : lp_t) (l : l2p_t) : option l2p_t :=
  match n with
  | O => Some l
  | S n =>
      l ← (if p_rbits e pid || p_tbits e pid then l2p_connect pid lid (lid_type e lid) l else Some l);
      connect_pids n (pid + 1) lid e l
  end.

Fixpoint connect_lids (n : nat) (lid : Z) (e : lp_t) (l : l2p_t) : option l2p_t :=
  match n with
  | O => Some l
  | S n =>
      l ← (if lid_type e lid =? 0 then Some l
           else connect_pids (Z.to_nat RTE_MAX_ETHPORTS) 0 lid e l);
      connect_lids n (lid + 1) e l
  end.

Definition connect_entry (e : lp_t) (l : l2p_t) : option l2p_t :=
  connect_lids (Z.to_nat RTE_MAX_LCORE) 0 e l.

(** One [<lcore-port>]; [Some None] where the parser gives up *)
Definition parse_entry (past s : list Z) : option (option lp_t) :=
  match pg_strparse 3 (take 127 s) (str ".") with
  | [a; b] =>
      '(e, lr, lt) ← pg_parse_list past RTE_MAX_LCORE a no_bits no_bits;
      if negb (e =? 0) then Some None
      else
        '(e, pr, pt) ← pg_parse_list past RTE_MAX_ETHPORTS b no_bits no_bits;
        Some (if negb (e =? 0) then None else Some (mk_lp lr lt pr pt))
  | _ => Some None
  end.

Fixpoint matrix_entries (past : list Z) (es : list (list Z)) (l : l2p_t) : option (bool * l2p_t) :=
  match es with
  | [] => Some (true, l)
  | s :: es =>
      r ← parse_entry past s;
      match r with
      | None => Some (false, l)
      | Some e => l ← connect_entry e l; matrix_entries past es l
      end
  end.

(** The counts in the last slots: of the [n] pairs from [f 0] on, how many receive
    and how many send *)
Fixpoint count_rxtx (n : nat) (i : Z) (f : Z → Z * Z) (acc : Z * Z) : Z * Z :=
  match n with
  | O => acc
  | S n =>
      let '(rx, tx) := f i in
      let acc := (if rx =? 0 then fst acc else u16 (fst acc + 1),
                  if tx =? 0 then snd acc else u16 (snd acc + 1)) in
      count_rxtx n (i + 1) f acc
  end.

Fixpoint count_ports (n : nat) (pid : Z) (l : l2p_t) : l2p_t :=
  match n with
  | O => l
  | S n =>
      let cnt := count_rxtx (Z.to_nat RTE_MAX_LCORE) 0 (get_map l pid) (0, 0) in
      count_ports n (pid + 1) (put_map pid RTE_MAX_LCORE cnt l)
  end.

Fixpoint count_lcores (n : nat) (lid : Z) (l : l2p_t) : l2p_t :=
  match n with
  | O => l
  | S n =>
      let cnt := count_rxtx (Z.to_nat RTE_MAX_ETHPORTS) 0 (λ pid, get_map l pid lid) (0, 0) in
      count_lcores n (lid + 1) (put_map RTE_MAX_ETHPORTS lid cnt l)
  end.

(** [buff] has 512 bytes. *)
Definition pg_parse_matrix (past s : list Z) (l : l2p_t) : option (Z * l2p_t) :=
  let buff := pg_strccpy s [32; 13; 10; 9; 34] in
  if 512 <=? Z.of_nat (length buff) then None
  else
    match pg_strparse 129 buff (str ",") with
    | [] => Some (-1, l)
    | es =>
        '(ok, l) ← matrix_entries past es l;
        if negb ok then Some (-1, l)
        else
          let l := count_ports (Z.to_nat RTE_MAX_ETHPORTS) 0 l in
          Some (0, count_lcores (Z.to_nat RTE_MAX_LCORE) 0 l)
    end.

(** ** What a connection assigns

    One direction of the tables: the ports of a core, the queue of a core on a
    port, the number of queues of a port *)
Record qview := mk_view { v_pids : Z → list Z; v_qid : Z → Z → Z; v_cnt : Z → Z }.
Definition rx_view (l : l2p_t) : qview :=
  mk_view (λ lid, rx_pids (lcores l lid)) (get_rxque l) (get_port_rxcnt l).
Definition tx_view (l : l2p_t) : qview :=
  mk_view (λ lid, tx_pids (lcores l lid)) (get_txque l) (get_port_txcnt l).

(** The port's next queue is given to the core, if the direction is asked for. *)
Record assigned (b : bool) (pid lid : Z) (v v' : qview) : Prop := mk_assigned {
  as_pids x : v_pids v' x = if b && (x =? lid) then v_pids v x ++ [pid] else v_pids v x;
  as_qid x p : v_qid v' x p = if b && (x =? lid) && (p =? pid) then v_cnt v pid else v_qid v x p;
  as_cnt p : v_cnt v' p = if b && (p =? pid) then u16 (v_cnt v p + 1) else v_cnt v p }.

Definition same_view (v v' : qview) : Prop :=
  (∀ x, v_pids v' x = v_pids v x) ∧ (∀ x p, v_qid v' x p = v_qid v x p) ∧ (∀ p, v_cnt v' p = v_cnt v p).

(** Reading tables that were updated at one index *)
Ltac case_at :=
  cbn; intros; unfold get_rxque, get_txque, get_port_rxcnt, get_port_txcnt, get_type; cbn;
  rewrite ?set_at_eq; unfold set_at;
  repeat match goal with
  | |- context [?a =? ?b] => destruct (Z.eqb_spec a b); subst; cbn
  end; congruence || done.

Lemma connect_rx_spec pid lid l l' :
  connect_rx pid lid l = Some l' →
  assigned true pid lid (rx_view l) (rx_view l') ∧ same_view (tx_view l) (tx_view l') ∧
  (∀ x, get_type l' x = get_type l x) ∧ (∀ p, lids (ports l' p) = lids (ports l p)).
Proof.
  unfold connect_rx. intros E. destruct (RTE_MAX_ETHPORTS <=? get_lcore_rxcnt l lid); [done|].
  cbn in E. unfold pg_inc_rx in E. destruct (map _ _ _) in E. injection E as <-.
  split_and!; try split; try split; case_at.
Qed.

Lemma connect_tx_spec pid lid l l' :
  connect_tx pid lid l = Some l' →
  assigned true pid lid (tx_view l) (tx_view l') ∧ same_view (rx_view l) (rx_view l') ∧
  (∀ x, get_type l' x = get_type l x) ∧ (∀ p, lids (ports l' p) = lids (ports l p)).
Proof.
  unfold connect_tx. intros E. destruct (RTE_MAX_ETHPORTS <=? get_lcore_txcnt l lid); [done|].
  cbn in E. unfold pg_inc_tx in E. destruct (map _ _ _) in E. injection E as <-.
  split_and!; try split; try split; case_at.
Qed.

Lemma same_view_refl v : same_view v v.
Proof. done. Qed.

Lemma assigned_false pid lid v v' : same_view v v' → assigned false pid lid v v'.
Proof. intros (H1 & H2 & H3). split; intros; cbn [andb]; auto. Qed.

Lemma assigned_same b pid lid v v1 v2 v' :
  same_view v v1 → assigned b pid lid v1 v2 → same_view v2 v' → assigned b pid lid v v'.
Proof.
  intros (A1 & A2 & A3) [B1 B2 B3] (C1 & C2 & C3).
  split; intros; rewrite ?C1, ?C2, ?C3, ?B1, ?B2, ?B3, ?A1, ?A2, ?A3; done.
Qed.

Lemma connect_spec pid lid typ l l' :
  l2p_connect pid lid typ l = Some l' →
  assigned (tst_bits typ RX_TYPE) pid lid (rx_view l) (rx_view l') ∧
  assigned (tst_bits typ TX_TYPE) pid lid (tx_view l) (tx_view l') ∧
  (∀ x, get_type l' x = if x =? lid then typ else get_type l x) ∧
  (∀ p, lids (ports l' p) = if p =? pid then lids (ports l p) ++ [lid] else lids (ports l p)) ∧
  Z.of_nat (length (lids (ports l pid))) < RTE_MAX_LCORE.
Proof.
  unfold l2p_connect. set (l0 := upd_lobj lid _ l). intros E.
  assert (same_view (rx_view l) (rx_view l0) ∧ same_view (tx_view l) (tx_view l0) ∧
          (∀ x, get_type l0 x = if x =? lid then typ else get_type l x) ∧
          (∀ p, lids (ports l0 p) = lids (ports l p))) as (R0 & T0 & Y0 & L0).
  { subst l0. split_and!; try split; try split; case_at. }
  clearbody l0.
  assert (∃ l1, (if tst_bits typ RX_TYPE then connect_rx pid lid l0 else Some l0) = Some l1 ∧
    assigned (tst_bits typ RX_TYPE) pid lid (rx_view l0) (rx_view l1) ∧ same_view (tx_view l0) (tx_view l1) ∧
    (∀ x, get_type l1 x = get_type l0 x) ∧ (∀ p, lids (ports l1 p) = lids (ports l0 p)))
    as (l1 & E1 & R1 & T1 & Y1 & L1).
  { destruct (tst_bits typ RX_TYPE); [|exists l0; split_and!; try done; by apply assigned_false].
    destruct (connect_rx pid lid l0) as [l1|] eqn:E1; [|done]. exists l1. split; [done|]. by apply connect_rx_spec. }
  rewrite E1 in E. cbn [mbind option_bind] in E.
  assert (∃ l2, (if tst_bits typ TX_TYPE then connect_tx pid lid l1 else Some l1) = Some l2 ∧
    assigned (tst_bits typ TX_TYPE) pid lid (tx_view l1) (tx_view l2) ∧ same_view (rx_view l1) (rx_view l2) ∧
    (∀ x, get_type l2 x = get_type l1 x) ∧ (∀ p, lids (ports l2 p) = lids (ports l1 p)))
    as (l2 & E2 & T2 & R2 & Y2 & L2).
  { destruct (tst_bits typ TX_TYPE); [|exists l1; split_and!; try done; by apply assigned_false].
    destruct (connect_tx pid lid l1) as [l2|] eqn:E2; [|done]. exists l2. split; [done|]. by apply connect_tx_spec. }
  rewrite E2 in E. cbn [mbind option_bind] in E.
  destruct (Z.leb_spec RTE_MAX_LCORE (Z.of_nat (length (lids (ports l2 pid))))) as [|Hl]; [done|].
  injection E as <-.
  assert (∀ p, lids (ports l2 p) = lids (ports l p)) as Ll by (intros p; by rewrite L2, L1, L0).
  split_and!.
  - apply (assigned_same _ _ _ _ (rx_view l0) (rx_view l2)); [done| |split_and!; case_at].
    destruct R2 as (A & B & C). destruct R1 as [A1 B1 C1].
    split; intros; rewrite ?A, ?B, ?C; auto.
  - apply (assigned_same _ _ _ _ (tx_view l1) (tx_view l2)); [|done|split_and!; case_at].
    destruct T0 as (A & B & C). destruct T1 as (A1 & B1 & C1).
    split_and!; intros; rewrite ?A1, ?B1, ?C1; auto.
  - intros x. change (get_type l2 x = if x =? lid then typ else get_type l x). by rewrite Y2, Y1, Y0.
  - intros p. cbn. unfold set_at. destruct (Z.eqb_spec p pid) as [->|]; cbn; by rewrite Ll.
  - by rewrite <-Ll.
Qed.

(** ** Queues are not shared *)

(** [nl] bounds the number of queues of a port. *)
Record exclusive (v : qview) (nl : Z → Z) : Prop := mk_exclusive {
  ex_bound lid pid : pid ∈ v_pids v lid → 0 ≤ v_qid v lid pid < v_cnt v pid;
  ex_distinct lid lid' pid :
    pid ∈ v_pids v lid → pid ∈ v_pids v lid' → v_qid v lid pid = v_qid v lid' pid → lid = lid';
  ex_cnt pid : 0 ≤ v_cnt v pid ≤ nl pid }.

Definition queues_ok (l : l2p_t) : Prop :=
  exclusive (rx_view l) (get_port_nb_lids l) ∧ exclusive (tx_view l) (get_port_nb_lids l).

Lemma exclusive_assigned b pid lid v v' nl nl' :
  exclusive v nl → assigned b pid lid v v' → nl pid < RTE_MAX_LCORE → (∀ p, nl p ≤ nl' p) →
  nl pid + 1 ≤ nl' pid → exclusive v' nl'.
Proof.
  intros [Hb Hd Hc] [A1 A2 A3] Hn Hle Hpid. unfold RTE_MAX_LCORE in Hn. destruct b; cbn [andb] in *.
  - assert (v_cnt v' pid = v_cnt v pid + 1) as Ecnt.
    { rewrite A3, Z.eqb_refl. apply wrap_small. pose proof (Hc pid). unfold in_word. lia. }
    assert (∀ x p, p ∈ v_pids v' x → (x = lid ∧ p = pid ∧ v_qid v' x p = v_cnt v pid) ∨
                   (p ∈ v_pids v x ∧ ¬ (x = lid ∧ p = pid) ∧ v_qid v' x p = v_qid v x p)) as Hin.
    { intros x p. rewrite A1, A2. destruct (Z.eqb_spec x lid) as [->|N]; cbn [andb].
      - rewrite elem_of_app, list_elem_of_singleton. destruct (Z.eqb_spec p pid) as [->|N].
        + intros _. by left.
        + intros [H|H]; [right; split_and!; tauto|done].
      - intros H. right. split_and!; tauto. }
    assert (∀ p, v_cnt v p ≤ v_cnt v' p) as Hmono.
    { intros p. destruct (decide (p = pid)) as [->|N]; [lia|]. rewrite A3. by destruct (Z.eqb_spec p pid). }
    split.
    + intros x p H. apply Hin in H as [(-> & -> & ->)|(H & _ & ->)]; [specialize (Hc pid); lia|].
      pose proof (Hb x p H). specialize (Hmono p). lia.
    + intros x y p Hx Hy. apply Hin in Hx as [(-> & -> & ->)|(Hx & Nx & ->)];
        apply Hin in Hy as [(-> & E & ->)|(Hy & Ny & ->)]; intros Eq; try done.
      * specialize (Hb y pid Hy). lia.
      * subst p. specialize (Hb x pid Hx). lia.
      * by eapply Hd.
    + intros p. rewrite A3. destruct (Z.eqb_spec p pid) as [->|N].
      * rewrite A3, Z.eqb_refl in Ecnt. specialize (Hc pid). lia.
      * specialize (Hc p). specialize (Hle p). lia.
  - split; intros *; rewrite ?A1, ?A2, ?A3; eauto. specialize (Hc pid0). specialize (Hle pid0). lia.
Qed.

Lemma connect_queues_ok pid lid typ l l' :
  queues_ok l → l2p_connect pid lid typ l = Some l' → queues_ok l'.
Proof.
  intros [Hr Ht] E. destruct (connect_spec _ _ _ _ _ E) as (Ar & At & _ & Hl & Hn).
  assert (∀ p, get_port_nb_lids l p ≤ get_port_nb_lids l' p) as Hle.
  { intros p. unfold get_port_nb_lids. rewrite Hl. destruct (p =? pid); [rewrite length_app|]; lia. }
  assert (get_port_nb_lids l pid + 1 ≤ get_port_nb_lids l' pid) as Hp.
  { unfold get_port_nb_lids. rewrite Hl, Z.eqb_refl, length_app. cbn. lia. }
  split.
  - by apply (exclusive_assigned _ pid lid _ _ _ _ Hr Ar).
  - by apply (exclusive_assigned _ pid lid _ _ _ _ Ht At).
Qed.

(** What every connection preserves holds of the tables of a matrix. *)
Section Preserved.
Context (P : l2p_t → Prop)
  (HP : ∀ pid lid typ l l', P l → l2p_connect pid lid typ l = Some l' → P l').

Lemma pids_preserve n : ∀ pid lid e l l', P l → connect_pids n pid lid e l = Some l' → P l'.
Proof.
  induction n as [|n IH]; intros pid lid e l l' Hl E; cbn [connect_pids] in E; [by injection E as <-|].
  destruct (p_rbits e pid || p_tbits e pid); [|by eapply IH].
  destruct (l2p_connect _ _ _ l) eqn:E1; [|done]. cbn in E. eapply IH; [|exact E]. by eapply HP.
Qed.

Lemma lids_preserve n : ∀ lid e l l', P l → connect_lids n lid e l = Some l' → P l'.
Proof.
  induction n as [|n IH]; intros lid e l l' Hl E; cbn [connect_lids] in E; [by injection E as <-|].
  destruct (lid_type e lid =? 0); [by eapply IH|].
  destruct (connect_pids _ _ _ _ l) eqn:E1; [|done]. cbn in E. eapply IH; [|exact E]. by eapply pids_preserve.
Qed.

Lemma entries_preserve past es : ∀ l ok l', P l → matrix_entries past es l = Some (ok, l') → P l'.
Proof.
  induction es as [|s es IH]; intros l ok l' Hl E; cbn [matrix_entries] in E; [by injection E as _ <-|].
  destruct (parse_entry past s) as [[e|]|]; cbn in E; [|by injection E as _ <-|done].
  destruct (connect_entry e l) eqn:E1; [|done]. cbn in E. eapply IH; [|exact E]. by eapply lids_preserve.
Qed.
End Preserved.

(** The counts leave cores and ports alone. *)
Lemma count_ports_keeps n : ∀ pid l,
  lcores (count_ports n pid l) = lcores l ∧ ports (count_ports n pid l) = ports l.
Proof. induction n as [|n IH]; intros pid l; cbn [count_ports]; [done|].
  split; (etrans; [apply IH|done]). Qed.

Lemma count_lcores_keeps n : ∀ lid l,
  lcores (count_lcores n lid l) = lcores l ∧ ports (count_lcores n lid l) = ports l.
Proof. induction n as [|n IH]; intros lid l; cbn [count_lcores]; [done|].
  split; (etrans; [apply IH|done]). Qed.

Lemma parse_matrix_entries past s l r l' :
  pg_parse_matrix past s l = Some (r, l') →
  (r = -1 ∧ l' = l) ∨
  ∃ ss ok l1, matrix_entries past ss l = Some (ok, l1) ∧ (r = if ok : bool then 0 else -1) ∧
    ss = pg_strparse 129 (pg_strccpy s [32; 13; 10; 9; 34]) (str ",") ∧
    lcores l' = lcores l1 ∧ ports l' = ports l1.
Proof.
  unfold pg_parse_matrix. set (ss := pg_strparse 129 _ _). destruct (_ <=? _); [done|].
  destruct ss as [|s0 ss']; [intros [= <- <-]; by left|]. intros E. right.
  destruct (matrix_entries past (s0 :: ss') l) as [[ok l1]|] eqn:Em; [|discriminate E]. cbn [mbind option_bind] in E.
  exists (s0 :: ss'), ok, l1. split; [exact Em|]. destruct ok; cbn [negb] in E.
  - remember (count_lcores _ _ _) as lc eqn:Elc in E. injection E as <- <-.
    split; [reflexivity|]. split; [reflexivity|]. rewrite Elc.
    destruct (count_lcores_keeps (Z.to_nat RTE_MAX_LCORE) 0 (count_ports (Z.to_nat RTE_MAX_ETHPORTS) 0 l1))
      as [E1 E2].
    destruct (count_ports_keeps (Z.to_nat RTE_MAX_ETHPORTS) 0 l1) as [E3 E4].
    split; [exact (eq_trans E1 E3)|exact (eq_trans E2 E4)].
  - injection E as <- <-. split; [reflexivity|]. split; [reflexivity|]. split; reflexivity.
Qed.

Lemma queues_ok_ext l l' : lcores l' = lcores l → ports l' = ports l → queues_ok l → queues_ok l'.
Proof.
  intros E1 E2. unfold queues_ok, rx_view, tx_view, get_port_nb_lids, get_rxque, get_txque, get_port_rxcnt, get_port_txcnt.
  by rewrite E1, E2.
Qed.

(** *** What the entries assign *)

(** The ports of an entry, in order *)
Definition entry_ports (e : lp_t) : list Z :=
  filter (λ p, p_rbits e p || p_tbits e p) (seqZ 0 RTE_MAX_ETHPORTS).

Lemma lid_type_rx e lid : tst_bits (lid_type e lid) RX_TYPE = l_rbits e lid.
Proof. unfold lid_type. by destruct (l_rbits e lid), (l_tbits e lid). Qed.
Lemma lid_type_tx e lid : tst_bits (lid_type e lid) TX_TYPE = l_tbits e lid.
Proof. unfold lid_type. by destruct (l_rbits e lid), (l_tbits e lid). Qed.
Lemma lid_type_0 e lid : lid_type e lid = 0 → l_rbits e lid = false ∧ l_tbits e lid = false.
Proof. unfold lid_type. by destruct (l_rbits e lid), (l_tbits e lid). Qed.

(** [v'] has the ports [ps] more for core [lid], if [b]. *)
Definition pids_grow (b : bool) (lid : Z) (ps : list Z) (v v' : qview) : Prop :=
  ∀ x, v_pids v' x = v_pids v x ++ (if b && (x =? lid) then ps else []).

Lemma pids_spec lid e n : ∀ pid l l', 0 ≤ pid →
  connect_pids n pid lid e l = Some l' →
  let ps := filter (λ p, p_rbits e p || p_tbits e p) (seqZ pid (Z.of_nat n)) in
  pids_grow (l_rbits e lid) lid ps (rx_view l) (rx_view l') ∧
  pids_grow (l_tbits e lid) lid ps (tx_view l) (tx_view l') ∧
  (∀ x, get_type l' x = if (x =? lid) && negb (Nat.eqb (length ps) 0) then lid_type e lid else get_type l x).
Proof.
  induction n as [|n IH]; intros pid l l' Hpid E; cbn [connect_pids] in E.
  { injection E as <-. split_and!; intros x; [| |by rewrite andb_false_r];
      destruct (_ && _); by rewrite ?app_nil_r. }
  rewrite seqZ_cons by lia. replace (Z.succ pid) with (pid + 1) by lia.
  replace (Z.pred (Z.of_nat (S n))) with (Z.of_nat n) by lia.
  cbn [filter list_filter]. unfold filter. cbn [list_filter].
  destruct (p_rbits e pid || p_tbits e pid) eqn:Ep.
  - destruct (l2p_connect pid lid (lid_type e lid) l) as [l1|] eqn:E1; [|done]. cbn in E.
    apply connect_spec in E1 as (R & T & Y & _). rewrite lid_type_rx in R. rewrite lid_type_tx in T.
    apply IH in E as (R' & T' & Y'); [|lia].
    split_and!.
    + intros x. rewrite R'. destruct R as [R _ _]. rewrite R.
      destruct (l_rbits e lid), (x =? lid); cbn [andb]; by rewrite <-?app_assoc.
    + intros x. rewrite T'. destruct T as [T _ _]. rewrite T.
      destruct (l_tbits e lid), (x =? lid); cbn [andb]; by rewrite <-?app_assoc.
    + intros x. rewrite Y', Y. destruct (x =? lid); cbn [andb]; [|done]. by destruct (negb _).
  - cbn in E. apply IH in E; [|lia]. exact E.
Qed.

(** Core [x] is one of the [n] from [lid] on. *)
Definition from_to (lid : Z) (n : nat) (x : Z) : bool := (lid <=? x) && (x <? lid + Z.of_nat n).

Lemma from_to_S lid n x : from_to lid (S n) x = (x =? lid) || from_to (lid + 1) n x.
Proof.
  unfold from_to. apply eq_bool_prop_intro. rewrite orb_True, !andb_True, !Is_true_true, !Z.leb_le, !Z.ltb_lt, Z.eqb_eq. lia.
Qed.
Lemma from_to_first lid n : from_to (lid + 1) n lid = false.
Proof. unfold from_to. destruct (Z.leb_spec (lid + 1) lid); [lia|done]. Qed.

(** The type an entry leaves a core with, which had [t] before *)
Definition entry_type (e : lp_t) (lid t : Z) : Z :=
  if (lid_type e lid =? 0) || Nat.eqb (length (entry_ports e)) 0 then t else lid_type e lid.

Lemma lids_spec e n : ∀ lid l l', connect_lids n lid e l = Some l' →
  (∀ x, v_pids (rx_view l') x =
        v_pids (rx_view l) x ++ (if from_to lid n x && l_rbits e x then entry_ports e else [])) ∧
  (∀ x, v_pids (tx_view l') x =
        v_pids (tx_view l) x ++ (if from_to lid n x && l_tbits e x then entry_ports e else [])) ∧
  (∀ x, get_type l' x = if from_to lid n x then entry_type e x (get_type l x) else get_type l x).
Proof.
  induction n as [|n IH]; intros lid l l' E; cbn [connect_lids] in E.
  { injection E as <-. assert (∀ x, from_to lid 0 x = false) as H0
      by (intros x; unfold from_to; destruct (Z.leb_spec lid x), (Z.ltb_spec x (lid + Z.of_nat 0)); lia || done).
    split_and!; intros x; rewrite H0; cbn [andb]; by rewrite ?app_nil_r. }
  destruct (Z.eqb_spec (lid_type e lid) 0) as [E0|N0].
  - cbn in E. apply IH in E as (R & T & Y). destruct (lid_type_0 _ _ E0) as [F1 F2].
    split_and!; intros x; rewrite ?R, ?T, ?Y, from_to_S; destruct (Z.eqb_spec x lid) as [->|]; cbn [orb];
      rewrite ?from_to_first, ?F1, ?F2; cbn [andb]; try done.
    unfold entry_type. by rewrite E0.
  - destruct (connect_pids _ _ _ _ l) as [l1|] eqn:E1; [|done]. cbn in E.
    apply IH in E as (R & T & Y). apply pids_spec in E1 as (R1 & T1 & Y1); [|lia].
    change (Z.of_nat (Z.to_nat RTE_MAX_ETHPORTS)) with RTE_MAX_ETHPORTS in *. fold (entry_ports e) in *.
    split_and!; intros x; rewrite ?R, ?T, ?Y, ?R1, ?T1, ?Y1, from_to_S;
      destruct (Z.eqb_spec x lid) as [->|]; cbn [orb andb]; rewrite ?from_to_first, ?andb_false_r; cbn [andb];
      rewrite ?app_nil_r, ?andb_true_r; try done.
    unfold entry_type. apply Z.eqb_neq in N0. rewrite N0. by destruct (Nat.eqb _ 0).
Qed.

(** C20. No two cores share a queue.  Whatever matrix is parsed, also one that is
    rejected half-way: a core that receives (or sends) on a port has a queue
    among those counted for the port, and cores other than that one have
    other queues; so the driver's queues, which are not safe to share, are
    not shared. *)
Theorem queues_not_shared (past s : list Z) (r : Z) (l : l2p_t) :
  pg_parse_matrix past s l2p_create = Some (r, l) →
  (∀ lid pid, pid ∈ rx_pids (lcores l lid) → 0 ≤ get_rxque l lid pid < get_port_rxcnt l pid) ∧
  (∀ lid lid' pid, pid ∈ rx_pids (lcores l lid) → pid ∈ rx_pids (lcores l lid') →
     get_rxque l lid pid = get_rxque l lid' pid → lid = lid') ∧
  (∀ lid pid, pid ∈ tx_pids (lcores l lid) → 0 ≤ get_txque l lid pid < get_port_txcnt l pid) ∧
  (∀ lid lid' pid, pid ∈ tx_pids (lcores l lid) → pid ∈ tx_pids (lcores l lid') →
     get_txque l lid pid = get_txque l lid' pid → lid = lid').
Proof.
  intros E. assert (queues_ok l2p_create) as H0.
  { split; split; intros *; try (intros H; by apply not_elem_of_nil in H); by split. }
  assert (queues_ok l) as [[R1 R2 _] [T1 T2 _]].
  { apply parse_matrix_entries in E as [[_ ->]|(ss & ok & l1 & E & _ & _ & E1 & E2)]; [done|].
    apply (queues_ok_ext l1 l E1 E2). eapply (entries_preserve queues_ok); [|exact H0|exact E].
    intros *. apply connect_queues_ok. }
  split_and!; auto.
Qed.

Definition matrix_example : list Z := str "[1:2].0, [3-4].1".
Definition seen (o : option (Z * l2p_t)) : option (Z * list Z * list Z * list Z * Z * Z) :=
  match o with
  | Some (r, l) => Some (r, rx_pids (lcores l 1), tx_pids (lcores l 2), rx_pids (lcores l 4),
                         get_rxque l 3 1, get_rxque l 4 1)
  | None => None
  end.
Lemma queues_not_shared_witness :
  ∃ r l, pg_parse_matrix [0] matrix_example l2p_create = Some (r, l) ∧ r = 0 ∧
    rx_pids (lcores l 1) = [0] ∧ tx_pids (lcores l 2) = [0] ∧ rx_pids (lcores l 4) = [1] ∧
    get_rxque l 3 1 = 0 ∧ get_rxque l 4 1 = 1 ∧
    (∀ lid lid' pid, pid ∈ rx_pids (lcores l lid) → pid ∈ rx_pids (lcores l lid') →
       get_rxque l lid pid = get_rxque l lid' pid → lid = lid').
Proof.
  destruct (pg_parse_matrix [0] matrix_example l2p_create) as [[r l]|] eqn:E.
  - exists r, l. split; [reflexivity|].
    assert (∀ o, pg_parse_matrix [0] matrix_example l2p_create = o → seen o = Some (0, [0], [0], [1], 0, 1)) as H
      by (intros o <-; vm_compute; reflexivity).
    specialize (H _ E). injection H as H1 H2 H3 H4 H5 H6.
    split; [exact H1|]. split; [exact H2|]. split; [exact H3|]. split; [exact H4|].
    split; [exact H5|]. split; [exact H6|].
    exact (proj1 (proj2 (queues_not_shared [0] matrix_example r l E))).
  - exfalso. assert (is_Some (pg_parse_matrix [0] matrix_example l2p_create)) as H by (vm_compute; eauto).
    rewrite E in H. by destruct H.
Defined.

(** What all the entries of a matrix do, in order *)
Lemma matrix_entries_spec past ss : ∀ l l', matrix_entries past ss l = Some (true, l') →
  ∃ es, Forall2 (λ s e, parse_entry past s = Some (Some e)) ss es ∧
  ∀ lid, from_to 0 (Z.to_nat RTE_MAX_LCORE) lid = true →
    v_pids (rx_view l') lid =
      v_pids (rx_view l) lid ++ concat ((λ e, if l_rbits e lid then entry_ports e else []) <$> es) ∧
    v_pids (tx_view l') lid =
      v_pids (tx_view l) lid ++ concat ((λ e, if l_tbits e lid then entry_ports e else []) <$> es) ∧
    get_type l' lid = fold_left (λ t e, entry_type e lid t) es (get_type l lid).
Proof.
  induction ss as [|s ss IH]; intros l l' E; cbn [matrix_entries] in E.
  { injection E as <-. exists []. split; [done|]. intros lid _. cbn. by rewrite !app_nil_r. }
  destruct (parse_entry past s) as [[e|]|] eqn:Ep; cbn [mbind option_bind] in E; [|discriminate E..].
  destruct (connect_entry e l) as [l1|] eqn:E1; [|discriminate E]. cbn [mbind option_bind] in E.
  apply IH in E as (es & Hes & H). apply lids_spec in E1 as (R & T & Y).
  exists (e :: es). split; [by constructor|]. intros lid Hlid.
  destruct (H lid Hlid) as (R' & T' & Y'). rewrite R', T', Y', R, T, Y, Hlid.
  cbn [andb fmap list_fmap concat fold_left]. by rewrite <-!app_assoc.
Qed.

(** C38. What a matrix means.  When a matrix is accepted, each of its entries was
    understood, and a core receives (sends) on the ports of the entries that
    name it as a receiver (sender), entry by entry and each entry's ports in
    ascending order, a port's direction in the entry making no difference; the
    core's type is that of the last entry that names it, not the union. *)
Theorem matrix_assigns (past s : list Z) (l' : l2p_t) :
  pg_parse_matrix past s l2p_create = Some (0, l') →
  ∃ es, Forall2 (λ s e, parse_entry past s = Some (Some e))
          (pg_strparse 129 (pg_strccpy s [32; 13; 10; 9; 34]) (str ",")) es ∧
  ∀ lid, 0 ≤ lid < RTE_MAX_LCORE →
    rx_pids (lcores l' lid) = concat ((λ e, if l_rbits e lid then entry_ports e else []) <$> es) ∧
    tx_pids (lcores l' lid) = concat ((λ e, if l_tbits e lid then entry_ports e else []) <$> es) ∧
    get_type l' lid = fold_left (λ t e, entry_type e lid t) es 0.
Proof.
  intros E. apply parse_matrix_entries in E as [[E _]|(ss & ok & l1 & E & Hok & Hss & E1 & _)]; [discriminate E|].
  destruct ok; [|discriminate Hok]. apply matrix_entries_spec in E as (es & Hes & H).
  exists es. split; [rewrite <-Hss; exact Hes|]. intros lid Hlid.
  assert (from_to 0 (Z.to_nat RTE_MAX_LCORE) lid = true) as Hin.
  { unfold from_to. rewrite Z2Nat.id by done. by apply andb_true_intro; rewrite Z.leb_le, Z.ltb_lt. }
  destruct (H lid Hin) as (R & T & Y). unfold get_type in *. rewrite E1. exact (conj R (conj T Y)).
Qed.

Lemma matrix_assigns_witness :
  ∃ l', pg_parse_matrix [0] (str "[1:2].0, [2:1].1") l2p_create = Some (0, l') ∧
    get_type l' 1 = TX_TYPE ∧ rx_pids (lcores l' 1) = [0] ∧
    ∃ es : list lp_t, rx_pids (lcores l' 1) = concat ((λ e, if l_rbits e 1 then entry_ports e else []) <$> es).
Proof.
  destruct (pg_parse_matrix [0] (str "[1:2].0, [2:1].1") l2p_create) as [[r l]|] eqn:E.
  - assert (∀ o, pg_parse_matrix [0] (str "[1:2].0, [2:1].1") l2p_create = o →
      match o with
      | Some (r, l) => Some (r, get_type l 1, rx_pids (lcores l 1))
      | None => None
      end = Some (0, TX_TYPE, [0])) as H by (intros o <-; vm_compute; reflexivity).
    specialize (H _ E). injection H as -> H2 H3. exists l.
    split; [reflexivity|]. split; [exact H2|]. split; [exact H3|].
    destruct (matrix_assigns [0] (str "[1:2].0, [2:1].1") l E) as (es & _ & Hes).
    exists es. exact (proj1 (Hes 1 (conj (Z.le_0_1) (eq_refl (1 ?= RTE_MAX_LCORE))))).
  - exfalso. assert (is_Some (pg_parse_matrix [0] (str "[1:2].0, [2:1].1") l2p_create)) as H by (vm_compute; eauto).
    rewrite E in H. by destruct H.
Defined.

(** ** Lists without a colon *)

Lemma bset_range_spec n fuel : ∀ l h b, 0 ≤ l ≤ h → h < n ≤ 2 ^ 16 → h - l < Z.of_nat fuel →
  ∃ b', bset_range fuel n l h b = Some b' ∧ ∀ x, b' x = (l <=? x) && (x <=? h) || b x.
Proof.
  induction fuel as [|fuel IH]; intros l h b Hl Hh Hf; [lia|]. cbn [bset_range].
  assert (_bset n l b = Some (set_at l true b)) as ->.
  { unfold _bset. rewrite (wrap_small 16 l) by (unfold in_word; lia). destruct (Z.ltb_spec l n); [done|lia]. }
  cbn [mbind option_bind]. rewrite (wrap_small 32 (l + 1)) by (unfold in_word; lia).
  destruct (Z.leb_spec (l + 1) h) as [Hle|Hgt].
  - destruct (IH (l + 1) h (set_at l true b)) as (b' & E & Hb'); [lia..|]. exists b'. split; [exact E|].
    intros x. rewrite Hb'. unfold set_at.
    destruct (Z.eqb_spec x l), (Z.leb_spec (l + 1) x), (Z.leb_spec l x), (Z.leb_spec x h); cbn; lia || done.
  - exists (set_at l true b). split; [done|]. intros x. unfold set_at.
    destruct (Z.eqb_spec x l), (Z.leb_spec l x), (Z.leb_spec x h); cbn; lia || done.
Qed.

(** "lo-hi" *)
Definition show_range (lo hi : Z) : list Z := show lo ++ 45 :: show hi.

Lemma strtol_show n rest : 0 ≤ n < 2 ^ 63 → no_digit_first rest → strtol 10 (show n ++ rest) = n.
Proof. intros Hn Hr. unfold strtol. rewrite number_show by (done || lia). lia. Qed.

Lemma digit_not_blank d : digit_char d → isblank4 d = false.
Proof.
  intros Hd. unfold digit_char in Hd. unfold isblank4.
  by destruct (Z.eqb_spec d 32), (Z.eqb_spec d 9), (Z.eqb_spec d 13), (Z.eqb_spec d 10); try lia.
Qed.

Lemma show_solid n : 0 ≤ n → solid isblank4 (show n).
Proof.
  intros Hn. destruct (show_cons n Hn) as (c & l & E & Hc). exists c, l, (48 + n `mod` 10).
  split_and!; [done|apply show_last|by apply digit_not_blank|apply digit_not_blank, digit_mod].
Qed.

Lemma show_range_solid lo hi : 0 ≤ lo → 0 ≤ hi → solid isblank4 (show_range lo hi).
Proof.
  intros Hl Hh. unfold show_range. destruct (show_cons lo Hl) as (c & l & -> & Hc).
  exists c, (l ++ 45 :: show hi), (48 + hi `mod` 10).
  split_and!; [done| |by apply digit_not_blank|apply digit_not_blank, digit_mod].
  rewrite last_app. cbn [last]. pose proof (show_last hi) as Hs.
  destruct (show hi) as [|x y]; [done|]. cbn [last] in *. by rewrite Hs.
Qed.

Lemma show_range_no sep lo hi : 0 ≤ lo → 0 ≤ hi → ¬ digit_char sep → sep ≠ 45 →
  Forall (λ c, c ≠ sep) (show_range lo hi).
Proof.
  intros. apply Forall_app. split; [by apply show_no|]. constructor; [done|]. by apply show_no.
Qed.

(** The dash is at the end of the first number. *)
Lemma show_range_span lo hi :
  0 ≤ lo → span (λ c, c =? 45) (show_range lo hi) = (show lo, 45 :: show hi).
Proof.
  intros Hl. apply span_at; [|done].
  eapply Forall_impl; [by apply (show_no 45); [|unfold digit_char; lia]|]. intros c Hc. by apply Z.eqb_neq.
Qed.

(** Taking off the brackets *)
Lemma trimset_match fuel c d set e :
  c ≠ 0 → trimset (S fuel) (c :: d :: set) (c :: e ++ [d]) = trimset fuel (drop 1 set) e.
Proof.
  intros Hc. cbn [trimset]. apply Z.eqb_neq in Hc. rewrite Hc, Z.eqb_refl.
  change (drop 1 (c :: e ++ [d])) with (drop 0 (e ++ [d])). rewrite drop_0, last_snoc, Z.eqb_refl, removelast_last.
  done.
Qed.

Lemma trimset_skip fuel c set x e :
  c ≠ 0 → x ≠ c → trimset (S fuel) (c :: set) (x :: e) = trimset fuel (drop 1 set) (x :: e).
Proof. intros Hc Hx. cbn [trimset]. apply Z.eqb_neq in Hc, Hx. by rewrite Hc, Hx. Qed.

Lemma trimset_end fuel set e : trimset (S fuel) (0 :: set) e = Some e.
Proof. done. Qed.

Lemma trimset_brackets past lo hi : 0 ≤ lo → 0 ≤ hi →
  pg_strtrimset (0 :: past) (91 :: show_range lo hi ++ [93]) = Some (show_range lo hi).
Proof.
  intros Hl Hh. unfold pg_strtrimset. change (str "[]{}") with [91; 93; 123; 125].
  cbn [app length]. rewrite trimset_match by done. destruct (show_cons lo Hl) as (c & l & E & Hc).
  unfold show_range. rewrite E. cbn [app drop]. unfold digit_char in Hc.
  rewrite trimset_skip by lia. apply trimset_end.
Qed.

Lemma strtol_show' k : 0 ≤ k < 2 ^ 63 → strtol 10 (show k) = k.
Proof. intros Hk. rewrite <-(app_nil_r (show k)). by apply strtol_show. Qed.

(** The first pass *)
Lemma rt_list_range n lo hi : 0 ≤ lo ≤ hi → hi < n ≤ 2 ^ 16 →
  ∃ b, pg_parse_rt_list n (show_range lo hi) no_bits = Some (0, b) ∧ ∀ x, b x = true ↔ lo ≤ x ≤ hi.
Proof.
  intros Hl Hh. unfold pg_parse_rt_list. change (str "/") with [47].
  rewrite (strparse_last 47); [|lia|apply show_range_no; unfold digit_char; lia|apply show_range_solid; lia].
  cbn [rt_entries]. rewrite show_range_span, !strtol_show', !(wrap_small 32) by (unfold in_word; lia).
  destruct (bset_range_spec n (Z.to_nat n + 1) lo hi no_bits) as (b & -> & Hb); [lia..|].
  exists b. split; [done|]. intros x. rewrite Hb. unfold no_bits.
  rewrite orb_false_r, andb_true_iff, !Z.leb_le. done.
Qed.

(** What it leaves, and the second pass *)
Lemma rt_list_left_range lo hi : 0 ≤ lo → 0 ≤ hi → rt_list_left (show_range lo hi) = show lo.
Proof.
  intros Hl Hh. unfold rt_list_left. change (str "/") with [47].
  rewrite strtok_last; [|apply show_range_no; unfold digit_char; lia|unfold show_range; by destruct (show lo)].
  rewrite _strtrim_solid, show_range_span by (by apply show_range_solid || done). done.
Qed.

Lemma rt_list_single n lo : 0 ≤ lo < n → n ≤ 2 ^ 16 →
  pg_parse_rt_list n (show lo) no_bits = Some (0, set_at lo true no_bits).
Proof.
  intros Hl Hn. unfold pg_parse_rt_list. change (str "/") with [47].
  rewrite (strparse_last 47); [|lia|apply show_no; unfold digit_char; lia|apply show_solid; lia].
  cbn [rt_entries]. rewrite span_out.
  - unfold _bset. rewrite strtol_show', (wrap_small 16) by (unfold in_word; lia).
    destruct (Z.ltb_spec lo n); [done|lia].
  - eapply Forall_impl; [apply (show_no 45); unfold digit_char; lia|]. intros c Hc. by apply Z.eqb_neq.
Qed.

(** A range of cores (or ports) written without a colon, as in "[0-1].0", means
    both directions by the comment above the parser; but the first of the two
    passes over it has cut it up behind its first number, so only that number
    gets the sending direction. *)
Theorem range_sends_on_first (past : list Z) (n lo hi : Z) :
  0 ≤ lo < hi → hi < n ≤ 2 ^ 16 →
  ∃ rb tb, pg_parse_list (0 :: past) n (str "[" ++ show_range lo hi ++ str "]") no_bits no_bits
             = Some (0, rb, tb) ∧
    (∀ x, rb x = true ↔ lo ≤ x ≤ hi) ∧ (∀ x, tb x = true ↔ x = lo).
Proof.
  intros Hl Hh. unfold pg_parse_list. change (str "[" ++ ?s ++ str "]") with (91 :: s ++ [93]).
  rewrite trimset_brackets by lia. cbn [mbind option_bind].
  destruct (show_cons lo) as (c & l & E & _); [lia|].
  assert (∃ p, show_range lo hi = c :: p) as [p Ep] by (unfold show_range; rewrite E; by eexists).
  rewrite Ep, <-Ep. change (str ":") with [58].
  assert (solid isblank4 (show_range lo hi)) as Hs by (apply show_range_solid; lia).
  assert (∀ sep, sep = 58 ∨ sep = 47 → Forall (λ c, c ≠ sep) (show_range lo hi)) as Hno.
  { intros sep Hsep. apply show_range_no; [lia|lia|unfold digit_char; lia|lia]. }
  rewrite (strparse_last 58) by (lia || auto).
  destruct (rt_list_range n lo hi) as (rb & -> & Hrb); [lia..|]. cbn [mbind option_bind].
  rewrite rt_list_left_range, rt_list_single by lia. cbn [mbind option_bind].
  exists rb, (set_at lo true no_bits). split; [done|]. split; [done|].
  intros x. unfold set_at. destruct (Z.eqb_spec x lo); by split.
Qed.

Lemma range_sends_on_first_witness :
  0 ≤ 0 < 1 ∧ ∃ rb tb, pg_parse_list [0] RTE_MAX_LCORE (str "[" ++ show_range 0 1 ++ str "]") no_bits no_bits
    = Some (0, rb, tb) ∧ (∀ x, rb x = true ↔ 0 ≤ x ≤ 1) ∧ (∀ x, tb x = true ↔ x = 0).
Proof.
  split; [lia|]. apply (range_sends_on_first [] RTE_MAX_LCORE 0 1); [lia|unfold RTE_MAX_LCORE; lia].
Defined.
