(* ===== verification/Loops.v ===== *)
(** * Main loops

    The loops of [app/pktgen.c] that a core runs from its launch until it is
    stopped: [port_map_info], [pktgen_main_rxtx_loop], [pktgen_main_tx_loop],
    [pktgen_main_rx_loop], [pktgen_exit_cleanup] and [pktgen_launch_one_lcore], with
    [pktgen_get_link_status] of [app/pktgen-stats.c].  A loop takes what each of its
    turns observes, one [turn] for every test of [pg_lcore_is_running] that succeeds;
    so a list of turns is a run up to its stop, or up to some point of it.  The ports
    of a core have a data plane each. *)
From Stdlib Require Import FunctionalExtensionality Ascii String.
From S2P Require Import Prelude Mem PortInfo Atomics Headers Pacing Commands Mbuf Burst Special Transmit Capture Receive L2p Strings.

(** ** Ports of a core *)

(** [port_map_info]: the ports at the indices of [infos], with their [qids];
    [private] ports are known to the table.  With both counts asked for it counts
    the transmit ports and looks up the receive ports. *)
Definition port_map_info (private : Z → bool) (l : l2p_t) (lid : Z) (tx rx : bool) : option (list (Z * Z)) :=
  let cnt := if tx then get_lcore_txcnt l lid else if rx then get_lcore_rxcnt l lid else 0 in
  let pids := (if rx then get_rx_pid l lid else get_tx_pid l lid) <$> seqZ 0 cnt in
  if forallb private pids then Some ((λ pid, (pid, get_txque l lid pid)) <$> pids) else None.

(** ** A core

    [up] is [link_status], [idle_bursts] are the bursts of no packets, for the
    bonding driver. *)
Record link := mk_link { link_status : bool; link_speed : Z }.
Record core := mk_core {
  dps : Z → dp; up : Z → bool; cap : capture_t; tx_next_cycle : Z; tx_bond_cycle : Z; idle_bursts : list (Z * Z) }.
#[global] Instance eta_core : Eta core := λ c,
  mk_core (dps c) (up c) (cap c) (tx_next_cycle c) (tx_bond_cycle c) (idle_bursts c).

(** What a turn observes: the clock, the link of the first port if it is asked
    for, and the packets that a port delivers *)
Record turn := mk_turn { curr_tsc : Z; link_get : link; rx_burst : Z → list Z }.

Definition LINK_RETRY := 8.
Definition ETH_SPEED_NUM_10G := 10000.

Fixpoint link_loop (n : nat) (wait : bool) (prev_status : bool) (reads : nat → link) (k : nat) (status : bool) (w : world)
    : option (bool * world) :=
  let defaults := upd_info (λ i, i <| Info.link_speed := ETH_SPEED_NUM_10G |>) in
  match n with
  | O => Some (status, defaults w)
  | S n =>
      let '(mk_link status speed) := reads k in
      let w := upd_info (λ i, i <| Info.link_speed := speed |>) w in
      if status && negb (speed =? 0) then
        if prev_status then Some (status, w) else w ← pktgen_packet_rate w; Some (status, w)
      else if wait then link_loop n wait prev_status reads (S k) status w
      else Some (status, defaults w)
  end.

(** The new status, with the port *)
Definition pktgen_get_link_status (wait : bool) (reads : nat → link) (prev_status : bool) (w : world) : option (bool * world) :=
  link_loop (Z.to_nat LINK_RETRY) wait prev_status reads 0 prev_status w.

Section Loops.
Context `{Env} (fuel : nat) (strip timer_hz : Z).

Definition cycles (pid : Z) (c : core) : Z := Info.tx_cycles (port (dps c pid)).

(** *** Pieces of a turn *)

Fixpoint receive_ports (lid : Z) (pids : list Z) (t : turn) (c : core) : option core :=
  match pids with
  | [] => Some c
  | pid :: pids =>
      '(cp, s) ← pktgen_main_receive fuel strip lid (rx_burst t pid) (cap c) (dps c pid);
      receive_ports lid pids t (c <| cap := cp |> <| dps ::= set_at pid s |>)
  end.

Fixpoint transmit_ports (infos : list (Z * Z)) (c : core) : option core :=
  match infos with
  | [] => Some c
  | (pid, qid) :: infos =>
      s ← pktgen_main_transmit fuel qid (dps c pid);
      transmit_ports infos (c <| dps ::= set_at pid s |>)
  end.

Definition bond_ports (infos : list (Z * Z)) (c : core) : core :=
  c <| idle_bursts ::= λ l, l ++ filter (λ pq, tst (dps c pq.1) BONDING_TX_PACKETS = true) infos |>.

(** A port without a rate waits for its link. *)
Definition wait_for_link (pid : Z) (t : turn) (c : core) : option core :=
  let s := dps c pid in
  '(b, v) ← pktgen_get_link_status false (λ _, link_get t) (up c pid) (Mbuf.w s);
  let c := c <| up ::= set_at pid b |> in
  if b then
    v ← pktgen_packet_rate v;
    Some (c <| dps ::= set_at pid (s <| Mbuf.w := v |>) |>
            <| tx_next_cycle := u64 (curr_tsc t + Info.tx_cycles (info v)) |>)
  else Some (c <| dps ::= set_at pid (s <| Mbuf.w := v |>) |>).

(** *** The loops *)

(** Until there is a rate, the loop does nothing else; then come the bursts that
    are due, or a sign of life for the bonding driver. *)
Definition tx_turn (first : Z) (infos : list (Z * Z)) (t : turn) (c : core) : option core :=
  if cycles first c =? 0 then wait_for_link first t c
  else if tx_next_cycle c <=? curr_tsc t then
    transmit_ports infos (c <| tx_next_cycle := u64 (curr_tsc t + cycles first c) |>)
  else if tx_bond_cycle c <=? curr_tsc t then
    Some (bond_ports infos (c <| tx_bond_cycle := u64 (curr_tsc t + timer_hz / 10) |>))
  else Some c.
Fixpoint tx_turns (first : Z) (infos : list (Z * Z)) (ts : list turn) (c : core) : option core :=
  match ts with [] => Some c | t :: ts => c ← tx_turn first infos t c; tx_turns first infos ts c end.

(** This one goes on to what is due after waiting for the link. *)
Definition rxtx_turn (lid first : Z) (pids : list Z) (infos : list (Z * Z)) (t : turn) (c : core) : option core :=
  c ← receive_ports lid pids t c;
  c ← (if cycles first c =? 0 then wait_for_link first t c else Some c);
  if tx_next_cycle c <=? curr_tsc t then
    transmit_ports infos (c <| tx_next_cycle := u64 (curr_tsc t + cycles first c) |>)
  else if tx_bond_cycle c <=? curr_tsc t then
    Some (bond_ports infos (c <| tx_bond_cycle := u64 (curr_tsc t + timer_hz / 10) |>))
  else Some c.
Fixpoint rxtx_turns (lid first : Z) (pids : list Z) (infos : list (Z * Z)) (ts : list turn) (c : core) : option core :=
  match ts with [] => Some c | t :: ts => c ← rxtx_turn lid first pids infos t c; rxtx_turns lid first pids infos ts c end.

Fixpoint rx_turns (lid : Z) (pids : list Z) (ts : list turn) (c : core) : option core :=
  match ts with [] => Some c | t :: ts => c ← receive_ports lid pids t c; rx_turns lid pids ts c end.

(** *** From launch to exit *)

(** What does not change while a core runs: the table of ports, the ports it
    knows, those on the core's own socket, and the core that may not have ports *)
Record places := mk_places { l2p : l2p_t; private : Z → bool; on_socket : Z → bool; master_lcore : Z }.

Fixpoint flush_ports (infos : list (Z * Z)) (c : core) : option core :=
  match infos with
  | [] => Some c
  | (pid, qid) :: infos => s ← pktgen_tx_flush fuel qid (dps c pid); flush_ports infos (c <| dps ::= set_at pid s |>)
  end.
Definition pktgen_exit_cleanup (p : places) (lid : Z) (c : core) : option core :=
  flush_ports (filter (λ pq, private p pq.1 = true) ((λ pid, (pid, get_txque (l2p p) lid pid)) <$> tx_pids (lcores (l2p p) lid))) c.

(** The clock is read for each of the two cycles; what would end the program, and
    reading the rate of a port that is not there, gives no core. *)
Definition first_cycles (first : Z) (began : Z * Z) (c : core) : core :=
  c <| tx_next_cycle := u64 (began.1 + cycles first c) |> <| tx_bond_cycle := u64 (began.2 + timer_hz / 10) |>.

Definition pktgen_main_rxtx_loop (p : places) (lid : Z) (began : Z * Z) (ts : list turn) (c : core) : option core :=
  if lid =? master_lcore p then None
  else
    infos ← port_map_info (private p) (l2p p) lid true true;
    let rxcnt := Z.to_nat (get_lcore_rxcnt (l2p p) lid) in
    let pids := take rxcnt infos.*1 in
    match infos with
    | [] => None
    | (first, _) :: _ =>
        if (rxcnt =? 0)%nat || (length infos <? rxcnt)%nat || negb (forallb (on_socket p) pids) then None
        else c ← rxtx_turns lid first pids infos ts (first_cycles first began c); pktgen_exit_cleanup p lid c
    end.

Definition pktgen_main_tx_loop (p : places) (lid : Z) (began : Z * Z) (ts : list turn) (c : core) : option core :=
  if lid =? master_lcore p then None
  else
    infos ← port_map_info (private p) (l2p p) lid true false;
    match infos with
    | [] => None
    | (first, _) :: _ =>
        if negb (forallb (on_socket p) infos.*1) then None
        else c ← tx_turns first infos ts (first_cycles first began c); pktgen_exit_cleanup p lid c
    end.

Definition pktgen_main_rx_loop (p : places) (lid : Z) (ts : list turn) (c : core) : option core :=
  if lid =? master_lcore p then None
  else
    infos ← port_map_info (private p) (l2p p) lid false true;
    match infos with
    | [] => None
    | _ =>
        if negb (forallb (on_socket p) infos.*1) then None
        else c ← rx_turns lid infos.*1 ts c; pktgen_exit_cleanup p lid c
    end.

Definition pktgen_launch_one_lcore (p : places) (lid : Z) (began : Z * Z) (ts : list turn) (c : core) : option core :=
  if bool_decide (get_map (l2p p) L2p.RTE_MAX_ETHPORTS lid = (0, 0)) then Some c
  else
    let t := get_type (l2p p) lid in
    if t =? RX_TYPE then pktgen_main_rx_loop p lid ts c
    else if t =? TX_TYPE then pktgen_main_tx_loop p lid began ts c
    else if t =? RX_TYPE ||| TX_TYPE then pktgen_main_rxtx_loop p lid began ts c
    else Some c.
End Loops.

(** ** Transmitting keeps the pace *)

Section Pace.
Context `{Env}.

Definition pace (s : dp) : Z := Info.tx_cycles (port s).

Lemma pace_burst s s' : burst_rel s s' → pace s' = pace s.
Proof. intros Hr. exact (f_equal Info.tx_cycles (pr_port _ _ (br_port _ _ Hr))). Qed.
Lemma pace_setup s s' : setup_rel s s' → pace s' = pace s.
Proof. intros Hr. exact (f_equal Info.tx_cycles (sr_port _ _ Hr)). Qed.

Lemma pace_send_burst fuel qid s s' : pktgen_send_burst fuel qid s = Some s' → pace s' = pace s.
Proof.
  unfold pktgen_send_burst. destruct (_ =? 0)%nat; [by intros [= <-]|]. cbn zeta.
  intros E%send_loop_sent. by rewrite (pace_burst _ _ (proj1 E)).
Qed.
Lemma pace_flush fuel qid s s' : pktgen_tx_flush fuel qid s = Some s' → pace s' = pace s.
Proof. unfold pktgen_tx_flush. intros (s1 & E & [= <-])%bind_Some. by apply pace_send_burst in E. Qed.
Lemma pace_send_mbuf fuel m qid s s' : pktgen_send_mbuf fuel m qid s = Some s' → pace s' = pace s.
Proof.
  unfold pktgen_send_mbuf. cbn zeta. destruct (_ <? _); [|done]. destruct (_ <=? _); [|by intros [= <-]].
  intros E. by apply pace_send_burst in E.
Qed.

Lemma pace_send_pkts fuel qid mp s s' : pktgen_send_pkts fuel qid mp s = Some s' → pace s' = pace s.
Proof.
  unfold pktgen_send_pkts. destruct (take_count s) as [o s1] eqn:E1.
  assert (pace s1 = pace s) as E2.
  { unfold take_count in E1. destruct (negb _); [|by injection E1 as <- <-].
    destruct (pkt_atomic64_tx_count _ _) as [n l]. cbn zeta in E1. destruct (n =? 0); by injection E1 as <- <-. }
  destruct o as [n|]; [|intros E; exact (eq_trans (pace_send_burst _ _ _ _ E) E2)]. cbn zeta.
  set (cnt := if Info.tx_burst _ <? _ then _ else _).
  pose proof (alloc_bulk_spec mp (Z.to_nat cnt) s1) as A. destruct (pg_pktmbuf_alloc_bulk _ _ _) as [l s2].
  destruct A as (_ & Ha & _). destruct (DEFAULT_PKT_BURST <? _); [done|]. intros E. rewrite (pace_send_burst _ _ _ _ E), <-E2.
  unfold pace, port. change (Info.tx_cycles (info (Mbuf.w s2)) = Info.tx_cycles (info (Mbuf.w s1))). by rewrite (rr_w _ _ _ Ha).
Qed.

Lemma pace_mbuf_alloc pool s o s' : rte_pktmbuf_alloc pool s = (o, s') → pace s' = pace s.
Proof. unfold rte_pktmbuf_alloc. destruct (mempool_get _ _); by intros [= <- <-]. Qed.

Lemma pace_send_arp fuel type k s s' : pktgen_send_arp fuel type k s = Some s' → pace s' = pace s.
Proof.
  unfold pktgen_send_arp. cbn zeta. destruct (rte_pktmbuf_alloc _ _) as [[m|] s1] eqn:E1; apply pace_mbuf_alloc in E1.
  - intros (s2 & E & [= <-])%bind_Some. exact (eq_trans (pace_send_mbuf _ _ _ _ _ E) E1).
  - by intros [= <-].
Qed.
Lemma pace_send_ping4 fuel k s s' : pktgen_send_ping4 fuel k s = Some s' → pace s' = pace s.
Proof.
  unfold pktgen_send_ping4. cbn zeta. destruct (rte_pktmbuf_alloc _ _) as [[m|] s1] eqn:E1; apply pace_mbuf_alloc in E1.
  - intros (s2 & E & [= <-])%bind_Some. set (s3 := upd_w (set_pkt PING_PKT (slot s1 k)) s1) in E.
    refine (eq_trans (pace_send_mbuf _ _ _ _ _ E) (eq_trans _ E1)).
    exact (pace_setup _ _ (packet_ctor_setup PING_PKT ICMP4_ECHO s3)).
  - by intros [= <-].
Qed.

Lemma pace_if (b : bool) o s s' : (∀ s1, o = Some s1 → pace s1 = pace s) →
  (if b then o else Some s) = Some s' → pace s' = pace s.
Proof. intros Ho. destruct b; [apply Ho|by intros [= ->]]. Qed.

Lemma pace_special_slot fuel f k s s' : special_slot fuel f k s = Some s' → pace s' = pace s.
Proof.
  unfold special_slot. intros (s1 & E1 & (s2 & E2 & E3)%bind_Some)%bind_Some.
  apply pace_if in E1; [|intros ?; apply pace_send_arp]. apply pace_if in E2; [|intros ?; apply pace_send_arp].
  apply pace_if in E3; [|intros ?; apply pace_send_ping4]. congruence.
Qed.
Lemma pace_special_slots fuel n f : ∀ k s s', special_slots fuel n k f s = Some s' → pace s' = pace s.
Proof.
  induction n as [|n IH]; intros k s s' E; cbn [special_slots] in E; [by injection E as ->|].
  apply bind_Some in E as (s1 & E1 & E). rewrite (IH _ _ _ E). by eapply pace_special_slot.
Qed.
Lemma pace_special fuel f s s' : pktgen_send_special fuel f s = Some s' → pace s' = pace s.
Proof.
  unfold pktgen_send_special. intros (s1 & E1 & (s2 & E2 & [= <-])%bind_Some)%bind_Some.
  exact (eq_trans (pace_special_slot _ _ _ _ _ E2) (pace_special_slots _ _ _ _ _ _ E1)).
Qed.

Lemma pace_transmit fuel qid s s' : pktgen_main_transmit fuel qid s = Some s' → pace s' = pace s.
Proof.
  unfold pktgen_main_transmit. cbn zeta. intros (s1 & E1 & (s2 & E2 & E3)%bind_Some)%bind_Some.
  apply pace_if in E1; [|intros ?; apply pace_special]. apply pace_if in E3; [|intros ?; apply pace_flush].
  apply pace_if in E2; [congruence|]. clear E2 E3. intros s3 E%pace_send_pkts. rewrite E.
  destruct (pktgen_tst_q_flags _ _ _); [|done]. apply pace_setup, setup_packets_setup.
Qed.
End Pace.

(** ** The schedule of a core

    The turns at which bursts are due, for a rate of a burst in [T] cycles *)
Fixpoint due (T next : Z) (clocks : list Z) : list Z :=
  match clocks with
  | [] => []
  | t :: clocks => if next <=? t then t :: due T (u64 (t + T)) clocks else due T next clocks
  end.

(** A clock that is read at least every [d] cycles, from [t0] on *)
Fixpoint ticks (d t0 : Z) (clocks : list Z) : Prop :=
  match clocks with [] => True | t :: clocks => t0 ≤ t ≤ t0 + d ∧ ticks d t clocks end.

Lemma last_clock {A} (t0 t : A) (clocks : list A) : List.last (t :: clocks) t0 = List.last clocks t.
Proof.
  revert t0 t. induction clocks as [|t1 clocks IH]; intros t0 t; [done|].
  change (List.last (t1 :: clocks) t0 = List.last (t1 :: clocks) t). by rewrite !IH.
Qed.

Lemma due_bounds T d clocks : 0 < T → ∀ t0 next,
  ticks d t0 clocks → Forall (λ t, 0 ≤ t ∧ t + T < 2 ^ 64) clocks → t0 < next →
  let n := Z.of_nat (length (due T next clocks)) in let t := List.last clocks t0 in
  t0 ≤ t ∧ t < next + n * (T + d) ∧ (0 < n → next + (n - 1) * T ≤ t).
Proof.
  intros HT. induction clocks as [|t clocks IH]; intros t0 next Ht Hc Hn; cbn zeta.
  { cbn. split_and!; lia. }
  destruct Ht as [Ht Hts]. apply Forall_cons in Hc as [Hc Hcs].
  rewrite last_clock.
  cbn [due]. destruct (Z.leb_spec next t) as [Hd|Hd].
  - rewrite (wrap_small 64) by (unfold in_word; lia).
    destruct (IH t (t + T) Hts Hcs ltac:(lia)) as (I1 & I2 & I3). cbn zeta in *. cbn [length].
    set (n := Z.of_nat (length (due T (t + T) clocks))) in *. rewrite Nat2Z.inj_succ. fold n.
    assert (0 ≤ n) by lia. split_and!; [lia|nia|]. intros _.
    destruct (decide (n = 0)) as [->|]; [lia|]. specialize (I3 ltac:(lia)). nia.
  - destruct (IH t next Hts Hcs Hd) as (I1 & I2 & I3). cbn zeta in *. split_and!; [lia|lia|done].
Qed.

Section Schedule.
Context `{Env} (fuel : nat) (strip timer_hz : Z).

(** What transmitting on the ports of a core changes *)
Record sends (infos : list (Z * Z)) (n : nat) (c c' : core) : Prop := {
  sn_ports pid qid : (pid, qid) ∈ infos → transmit_turns fuel n qid (dps c pid) = Some (dps c' pid);
  sn_others pid : pid ∉ infos.*1 → dps c' pid = dps c pid;
  sn_pace pid : cycles pid c' = cycles pid c }.

Lemma turns_one qid s : transmit_turns fuel 1 qid s = pktgen_main_transmit fuel qid s.
Proof. cbn [transmit_turns]. by destruct (pktgen_main_transmit fuel qid s). Qed.

Lemma fst_elem {A B} (l : list (A * B)) a b : (a, b) ∈ l → a ∈ l.*1.
Proof. intros Hab. apply (list_elem_of_fmap_2 fst) in Hab. exact Hab. Qed.

Lemma transmit_ports_spec infos : NoDup infos.*1 → ∀ c,
  (∀ pid qid, (pid, qid) ∈ infos → is_Some (pktgen_main_transmit fuel qid (dps c pid))) →
  ∃ c', transmit_ports fuel infos c = Some c' ∧ sends infos 1 c c' ∧ tx_next_cycle c' = tx_next_cycle c.
Proof.
  induction infos as [|[pid qid] infos IH]; intros Hnd c Hs; cbn [transmit_ports].
  { exists c. split_and!; [done| |done]. split; [by intros ?? ?%not_elem_of_nil|done..]. }
  cbn [fmap list_fmap fst] in Hnd. apply NoDup_cons in Hnd as [Hni Hnd].
  destruct (Hs pid qid ltac:(by left)) as [s E]. rewrite E. cbn [mbind option_bind].
  set (c1 := c <| dps ::= set_at pid s |>).
  assert (∀ p, dps c1 p = if p =? pid then s else dps c p) as E1 by done.
  destruct (IH Hnd c1) as (c' & Ec & [S1 S2 S3] & En).
  { intros p k Hp. rewrite E1. destruct (Z.eqb_spec p pid) as [->|]; [by apply fst_elem in Hp|]. apply Hs. by right. }
  exists c'. split_and!; [done| |exact En]. split.
  - intros p k [[= -> ->]|Hp]%elem_of_cons.
    + rewrite turns_one, E, S2 by done. by rewrite E1, Z.eqb_refl.
    + rewrite <-(S1 p k Hp), E1. destruct (Z.eqb_spec p pid) as [->|]; [by apply fst_elem in Hp|done].
  - intros p Hp. cbn [fmap list_fmap fst] in Hp. apply not_elem_of_cons in Hp as [Hne Hp].
    rewrite S2, E1 by done. by destruct (Z.eqb_spec p pid).
  - intros p. rewrite S3. unfold cycles. rewrite E1. destruct (Z.eqb_spec p pid) as [->|]; [|done].
    exact (pace_transmit _ _ _ _ E).
Qed.

Lemma sends_refl infos c : sends infos 0 c c.
Proof. done. Qed.
Lemma sends_one infos c c' pid qid : sends infos 1 c c' → (pid, qid) ∈ infos →
  pktgen_main_transmit fuel qid (dps c pid) = Some (dps c' pid).
Proof. intros Hs Hp. rewrite <-turns_one. by apply (sn_ports _ _ _ _ Hs). Qed.
Lemma sends_from infos n c1 c c' : dps c1 = dps c → sends infos n c1 c' → sends infos n c c'.
Proof. intros E [S1 S2 S3]. split; unfold cycles in *; rewrite <-E; done. Qed.
Lemma sends_step infos n c1 c2 c3 : sends infos 1 c1 c2 → sends infos n c2 c3 → sends infos (S n) c1 c3.
Proof.
  intros [A1 A2 A3] [B1 B2 B3]. split.
  - intros pid qid Hp. cbn [transmit_turns]. rewrite (sends_one infos c1 c2 pid qid) by done. by apply B1.
  - intros pid Hp. by rewrite B2, A2.
  - intros pid. by rewrite B3, A3.
Qed.

(** The loop of a transmitting core is its schedule, and a turn for every port at
    each time of it. *)
Lemma tx_turns_due first infos ts : NoDup infos.*1 → ∀ c, cycles first c ≠ 0 →
  let n := length (due (cycles first c) (tx_next_cycle c) (curr_tsc <$> ts)) in
  (∀ pid qid, (pid, qid) ∈ infos → is_Some (transmit_turns fuel n qid (dps c pid))) →
  ∃ c', tx_turns fuel timer_hz first infos ts c = Some c' ∧ sends infos n c c'.
Proof.
  intros Hnd. induction ts as [|t ts IH]; intros c HT; cbn zeta; cbn [fmap list_fmap due tx_turns].
  { intros _. exists c. split; [done|apply sends_refl]. }
  intros Hs. unfold tx_turn. rewrite (proj2 (Z.eqb_neq _ _) HT).
  destruct (tx_next_cycle c <=? curr_tsc t).
  - set (c1 := c <| tx_next_cycle := u64 (curr_tsc t + cycles first c) |>).
    destruct (transmit_ports_spec infos Hnd c1) as (c2 & E2 & S2 & N2).
    { intros pid qid Hp. change (dps c1 pid) with (dps c pid). destruct (Hs pid qid Hp) as [s Es].
      cbn [length transmit_turns] in Es. apply bind_Some in Es as (s1 & Es & _). by exists s1. }
    rewrite E2. cbn [mbind option_bind].
    assert (cycles first c2 = cycles first c) as Ec by apply (sn_pace _ _ _ _ S2).
    change (tx_next_cycle c1) with (u64 (curr_tsc t + cycles first c)) in N2.
    destruct (IH c2) as (c3 & E3 & S3); [by rewrite Ec| |].
    { rewrite Ec, N2. intros pid qid Hp. destruct (Hs pid qid Hp) as [s Es]. cbn [length transmit_turns] in Es.
      change (dps c pid) with (dps c1 pid) in Es. rewrite (sends_one infos c1 c2 pid qid S2 Hp) in Es. by exists s. }
    rewrite Ec, N2 in S3. exists c3. split; [done|]. cbn [length].
    apply (sends_from _ _ c1 c); [done|]. by eapply sends_step.
  - match goal with |- ∃ c', (?o ≫= _) = _ ∧ _ => set (o1 := o) end.
    assert (∃ c1, o1 = Some c1 ∧ dps c1 = dps c ∧ tx_next_cycle c1 = tx_next_cycle c) as (c1 & -> & E1 & E2)
      by (unfold o1; destruct (tx_bond_cycle c <=? _); by eexists).
    cbn [mbind option_bind]. assert (cycles first c1 = cycles first c) as Ec by (unfold cycles; by rewrite E1).
    destruct (IH c1) as (c2 & E3 & S2); [by rewrite Ec|by rewrite Ec, E2, E1|].
    exists c2. split; [done|]. rewrite Ec, E2 in S2. by eapply sends_from.
Qed.

(** [n] turns of a port with [c] packets to send *)
Lemma turns_count D qid : plentiful → undisturbed → serves D → (64 * D < fuel)%nat → ∀ n c s, 0 ≤ c → ready qid c s →
  ∃ s' fs, transmit_turns fuel n qid s = Some s' ∧ sent s' = sent s ++ fs ∧
    Z.of_nat (length fs) = Z.min c (Z.of_nat n * Info.tx_burst (port s)).
Proof.
  intros Hp Hu HD Hf. induction n as [|n IH]; intros c s Hc Hr.
  { exists s, []. rewrite app_nil_r. split_and!; [done..|]. cbn. lia. }
  cbn [transmit_turns]. pose proof (re_burst _ _ _ Hr) as Hb. destruct (decide (c = 0)) as [->|Hne].
  - destruct (turn_done fuel qid s ltac:(lia) Hr) as (s1 & -> & Hi & Hs).
    destruct (turns_idle fuel n qid s1 ltac:(lia) Hi) as (s2 & E2 & _ & Hs2). cbn [mbind option_bind].
    exists s2, []. rewrite app_nil_r. split_and!; [done|congruence|]. cbn [length]. lia.
  - destruct (turn_ready D fuel qid c s Hp Hu HD Hf ltac:(lia) Hr) as (s1 & fs1 & -> & Hr1 & Hb1 & Hs1 & Hl1).
    cbn [mbind option_bind].
    destruct (IH (c - c `min` Info.tx_burst (port s)) s1 ltac:(lia) Hr1) as (s2 & fs2 & E2 & Hs2 & Hl2).
    exists s2, (fs1 ++ fs2). split_and!; [done|by rewrite Hs2, Hs1, app_assoc|].
    rewrite length_app, Nat2Z.inj_add, Hl1, Hl2, Hb1, Nat2Z.inj_succ, Z.mul_succ_l.
    assert (0 ≤ Z.of_nat n * Info.tx_burst (port s)) by nia. lia.
Qed.
End Schedule.

Section Paced.
Context `{Env} (fuel : nat) (strip timer_hz : Z).

Lemma tx_turns_paced (D : nat) (d : Z) (first : Z) (infos : list (Z * Z)) (count : Z → Z) (began : Z * Z)
    (ts : list turn) (c : core) :
  plentiful → undisturbed → serves D → (64 * D < fuel)%nat → NoDup infos.*1 →
  0 < cycles first c → in_word 64 (began.1 + cycles first c) → ticks d began.1 (curr_tsc <$> ts) →
  Forall (λ t, 0 ≤ t ∧ t + cycles first c < 2 ^ 64) (curr_tsc <$> ts) →
  (∀ pid qid, (pid, qid) ∈ infos → 0 ≤ count pid ∧ ready qid (count pid) (dps c pid)) →
  ∃ c' n, tx_turns fuel timer_hz first infos ts (first_cycles timer_hz first began c) = Some c' ∧
    let T := cycles first c in let W := List.last (curr_tsc <$> ts) began.1 - began.1 in
    0 ≤ n ∧ n * T ≤ W < T + n * (T + d) ∧
    ∀ pid qid, (pid, qid) ∈ infos → ∃ fs, sent (dps c' pid) = sent (dps c pid) ++ fs ∧
      Z.of_nat (length fs) = Z.min (count pid) (n * Info.tx_burst (port (dps c pid))).
Proof.
  intros Hp Hu HD Hf Hnd HT Hw Hts Hc Hr. set (c1 := first_cycles timer_hz first began c).
  assert (cycles first c1 = cycles first c) as ET by done.
  assert (tx_next_cycle c1 = began.1 + cycles first c) as EN by exact (wrap_small 64 _ Hw).
  destruct (due_bounds (cycles first c) d _ HT began.1 (began.1 + cycles first c) Hts Hc ltac:(lia)) as (B1 & B2 & B3).
  pose proof (tx_turns_due fuel timer_hz first infos ts Hnd c1) as Hd. rewrite ET, EN in Hd. cbn zeta in *.
  revert B2 B3 Hd. generalize (due (cycles first c) (began.1 + cycles first c) (curr_tsc <$> ts)). intros l B2 B3 Hd.
  destruct Hd as (c' & E & [S _ _]); [lia| |].
  { intros pid qid Hin. destruct (Hr pid qid Hin) as [Hc0 Hrd].
    destruct (turns_count fuel D qid Hp Hu HD Hf (length l) _ _ Hc0 Hrd) as (s' & fs & Es & _). by exists s'. }
  exists c', (Z.of_nat (length l)). split_and!; [exact E|lia| |lia|].
  { destruct (decide (0 < Z.of_nat (length l))) as [Hl|Hl]; [specialize (B3 Hl); lia|nia]. }
  intros pid qid Hin. destruct (Hr pid qid Hin) as [Hc0 Hrd].
  destruct (turns_count fuel D qid Hp Hu HD Hf (length l) _ _ Hc0 Hrd) as (s' & fs & Es & Hs & Hl).
  specialize (S pid qid Hin). change (dps c1 pid) with (dps c pid) in S. rewrite Es in S. injection S as <-. by exists fs.
Qed.

(** C2. A core that transmits keeps to its rate.  Let the clock be read at least
    every [d] cycles, from the start to [W] cycles later; then there is one number
    [n] of turns, within [n * T <= W < T + n * (T + d)] for the [T] cycles of the
    core's first port, such that every port of the core, whatever its own cycles
    are, has sent [n] bursts, or all of its packets if these are fewer. *)
Theorem paced_transmission (D : nat) (d : Z) (first : Z) (infos : list (Z * Z)) (count : Z → Z) (began : Z * Z)
    (ts : list turn) (c : core) :
  plentiful → undisturbed → serves D → (64 * D < fuel)%nat → NoDup infos.*1 →
  0 < cycles first c → in_word 64 (began.1 + cycles first c) → ticks d began.1 (curr_tsc <$> ts) →
  Forall (λ t, 0 ≤ t ∧ t + cycles first c < 2 ^ 64) (curr_tsc <$> ts) →
  (∀ pid qid, (pid, qid) ∈ infos → 0 ≤ count pid ∧ ready qid (count pid) (dps c pid)) →
  ∃ c' n, tx_turns fuel timer_hz first infos ts (first_cycles timer_hz first began c) = Some c' ∧
    let T := cycles first c in let W := List.last (curr_tsc <$> ts) began.1 - began.1 in
    0 ≤ n ∧ n * T ≤ W < T + n * (T + d) ∧
    ∀ pid qid, (pid, qid) ∈ infos → ∃ fs, sent (dps c' pid) = sent (dps c pid) ++ fs ∧
      Z.of_nat (length fs) = Z.min (count pid) (n * Info.tx_burst (port (dps c pid))).
Proof. apply tx_turns_paced. Qed.

(** ** Receiving and transmitting *)

Lemma set_at_own {A} (k : Z) (f : Z → A) : set_at k (f k) f = f.
Proof. apply functional_extensionality. intros j. unfold set_at. by destruct (Z.eqb_spec j k) as [->|]. Qed.
Lemma core_own pid c : c <| cap := cap c |> <| dps ::= set_at pid (dps c pid) |> = c.
Proof. destruct c as [f u k n b l]. change (mk_core (set_at pid (f pid) f) u k n b l = mk_core f u k n b l). by rewrite set_at_own. Qed.
Lemma receive_nothing lid pids t c : (∀ pid, rx_burst t pid = []) → receive_ports fuel strip lid pids t c = Some c.
Proof.
  intros Hn. revert c. induction pids as [|pid pids IH]; intros c; cbn [receive_ports]; [done|]. rewrite Hn.
  cbn [pktgen_main_receive length Nat.eqb mbind option_bind]. rewrite core_own. apply IH.
Qed.

Lemma transmit_pace p infos : ∀ c c', transmit_ports fuel infos c = Some c' → cycles p c' = cycles p c.
Proof.
  induction infos as [|[pid qid] infos IH]; intros c c' E; cbn [transmit_ports] in E; [by injection E as <-|].
  apply bind_Some in E as (s & Es & E). rewrite (IH _ _ E). unfold cycles.
  change (Info.tx_cycles (port (set_at pid s (dps c) p)) = Info.tx_cycles (port (dps c p))).
  unfold set_at. destruct (Z.eqb_spec p pid) as [->|]; [|done]. exact (pace_transmit _ _ _ _ Es).
Qed.
Lemma tx_turn_pace first infos t c c' : cycles first c ≠ 0 → tx_turn fuel timer_hz first infos t c = Some c' →
  cycles first c' = cycles first c.
Proof.
  intros HT. unfold tx_turn. rewrite (proj2 (Z.eqb_neq _ _) HT).
  destruct (_ <=? _); [|destruct (_ <=? _); intros [= <-]; reflexivity].
  intros E. exact (transmit_pace first _ _ _ E).
Qed.

Lemma rxtx_turns_tx lid first pids infos ts c :
  (∀ t pid, t ∈ ts → rx_burst t pid = []) → cycles first c ≠ 0 →
  rxtx_turns fuel strip timer_hz lid first pids infos ts c = tx_turns fuel timer_hz first infos ts c.
Proof.
  intros Hn. revert c. induction ts as [|t ts IH]; intros c HT; [done|]. cbn [rxtx_turns tx_turns].
  assert (rxtx_turn fuel strip timer_hz lid first pids infos t c = tx_turn fuel timer_hz first infos t c) as ->.
  { unfold rxtx_turn, tx_turn. rewrite receive_nothing by (intros pid; apply Hn; by left). cbn [mbind option_bind].
    by rewrite (proj2 (Z.eqb_neq _ _) HT). }
  destruct (tx_turn fuel timer_hz first infos t c) as [c1|] eqn:E; [|done]. cbn [mbind option_bind].
  apply IH; [intros t' pid Ht; apply Hn; by right|]. by rewrite (tx_turn_pace _ _ _ _ _ HT E).
Qed.

(** C22. A core that receives as well keeps the same pace: while nothing comes in,
    the loop for both directions, once its first port has a rate, does turn by
    turn what the loop that only transmits does, to the data plane of every
    port, to the next times of the bursts and of the bonding driver, and to the
    capture; and so, on the terms of C2, every port of it has sent [n] bursts,
    or all of its packets, for one [n] within [n * T <= W < T + n * (T + d)].
    Without a rate ([cycles] is zero) the two differ: this loop goes on to what is due after it
    has asked for the link, and the other starts its next turn. *)
Theorem rxtx_like_tx (lid first : Z) (pids : list Z) (infos : list (Z * Z)) (ts : list turn) (c : core) :
  (∀ t pid, t ∈ ts → rx_burst t pid = []) → cycles first c ≠ 0 →
  rxtx_turns fuel strip timer_hz lid first pids infos ts c = tx_turns fuel timer_hz first infos ts c ∧
  ∀ (D : nat) (d : Z) (count : Z → Z) (began : Z * Z),
    plentiful → undisturbed → serves D → (64 * D < fuel)%nat → NoDup infos.*1 →
    0 < cycles first c → in_word 64 (began.1 + cycles first c) → ticks d began.1 (curr_tsc <$> ts) →
    Forall (λ t, 0 ≤ t ∧ t + cycles first c < 2 ^ 64) (curr_tsc <$> ts) →
    (∀ pid qid, (pid, qid) ∈ infos → 0 ≤ count pid ∧ ready qid (count pid) (dps c pid)) →
    ∃ c' n, rxtx_turns fuel strip timer_hz lid first pids infos ts (first_cycles timer_hz first began c) = Some c' ∧
      let T := cycles first c in let W := List.last (curr_tsc <$> ts) began.1 - began.1 in
      0 ≤ n ∧ n * T ≤ W < T + n * (T + d) ∧
      ∀ pid qid, (pid, qid) ∈ infos → ∃ fs, sent (dps c' pid) = sent (dps c pid) ++ fs ∧
        Z.of_nat (length fs) = Z.min (count pid) (n * Info.tx_burst (port (dps c pid))).
Proof.
  intros Hn HT. split; [by apply rxtx_turns_tx|]. intros D d count began. intros.
  rewrite rxtx_turns_tx by done. by apply (tx_turns_paced D).
Qed.
End Paced.

(** ** A core with two ports

    Each has ten packets to send, four at a time; the first has 100 cycles for a
    burst, the second 7. *)
Definition busy (cycles : Z) : dp :=
  upd_port (λ i, i <| Info.tx_cycles := cycles |> <| Info.current_tx_count := 10 |>) demo_dp.
Definition demo_core : core :=
  mk_core (λ pid, if pid =? 0 then busy 100 else busy 7) (λ _, true) (mk_capture None 0 0 0 0 0) 0 0 [].
Definition demo_infos : list (Z * Z) := [(0, 0); (1, 0)].
Definition demo_turns : list turn := (λ t, mk_turn t (mk_link true 10000) (λ _, [])) <$> [60; 130; 190; 250; 320; 330].

Lemma busy_ready n : ready 0 10 (busy n).
Proof. split; try reflexivity; vm_compute; [split; congruence|by split]. Qed.
Lemma demo_core_ready pid qid : (pid, qid) ∈ demo_infos → 0 ≤ 10 ∧ ready qid 10 (dps demo_core pid).
Proof.
  intros Hin. split; [done|]. unfold demo_infos in Hin. rewrite !elem_of_cons in Hin.
  destruct Hin as [[= -> ->]|[[= -> ->]|Hin%elem_of_nil]]; [exact (busy_ready 100)|exact (busy_ready 7)|done].
Qed.

(** Two bursts of four by the time 330: fewer than the ten packets of each port *)
Lemma paced_transmission_witness :
  ∃ c' n, tx_turns 65 1000 0 demo_infos demo_turns (first_cycles 1000 0 (0, 0) demo_core) = Some c' ∧
    0 ≤ n ∧ n * 100 ≤ 330 < 100 + n * (100 + 70) ∧
    ∀ pid qid, (pid, qid) ∈ demo_infos → ∃ fs, sent (dps c' pid) = sent (dps demo_core pid) ++ fs ∧
      Z.of_nat (length fs) = Z.min 10 (n * Info.tx_burst (port (dps demo_core pid))).
Proof.
  refine (paced_transmission 65 1000 1 70 0 demo_infos (λ _, 10) (0, 0) demo_turns demo_core
    demo_plentiful demo_undisturbed demo_env_serves _ _ _ _ _ _ demo_core_ready).
  - lia.
  - apply (bool_decide_unpack _). vm_compute. exact I.
  - vm_compute. reflexivity.
  - vm_compute. split; [congruence|reflexivity].
  - vm_compute. repeat split; congruence.
  - apply (bool_decide_unpack _). vm_compute. exact I.
Defined.

Lemma rxtx_like_tx_witness :
  ∃ c' n, rxtx_turns 65 0 1000 1 0 [0; 1] demo_infos demo_turns (first_cycles 1000 0 (0, 0) demo_core) = Some c' ∧
    0 ≤ n ∧ n * 100 ≤ 330 < 100 + n * (100 + 70) ∧
    ∀ pid qid, (pid, qid) ∈ demo_infos → ∃ fs, sent (dps c' pid) = sent (dps demo_core pid) ++ fs ∧
      Z.of_nat (length fs) = Z.min 10 (n * Info.tx_burst (port (dps demo_core pid))).
Proof.
  refine (proj2 (rxtx_like_tx 65 0 1000 1 0 [0; 1] demo_infos demo_turns demo_core _ _) 1%nat 70 (λ _, 10) (0, 0)
    demo_plentiful demo_undisturbed demo_env_serves _ _ _ _ _ _ demo_core_ready).
  - intros t pid (x & -> & _)%list_elem_of_fmap. reflexivity.
  - vm_compute. congruence.
  - lia.
  - apply (bool_decide_unpack _). vm_compute. exact I.
  - vm_compute. reflexivity.
  - vm_compute. split; [congruence|reflexivity].
  - vm_compute. repeat split; congruence.
  - apply (bool_decide_unpack _). vm_compute. exact I.
Defined.

(** Core 1 receives on port 0 and sends on ports 1 and 0: the loop for both
    directions sends on port 0 twice, and never on port 1. *)
Example mixed_core :
  match pg_parse_matrix [0] (str "[2:1].1, 1.0") l2p_create with
  | Some (_, l) => (get_type l 1, rx_pids (lcores l 1), tx_pids (lcores l 1), port_map_info (λ _, true) l 1 true true) =
      (3, [0], [1; 0], Some [(0, 0); (0, 0)])
  | None => False
  end.
Proof. vm_compute. reflexivity. Qed.
