(* ===== verification/CliEnv.v ===== *)
(** * The console's variables

    [lib/cli/cli_env.c]: names with values, and their substitution in a line.
    [None] is the use of memory that was given back or not written yet, or a copy
    behind the end of its buffer. *)
From S2P Require Import Prelude Strings.

(** A function that computes a value from another, [NULL], or what was in the block
    before, which nothing was written to *)
Inductive sfunc_t := Unset | Null | Fn (f : list Z → list Z).

(** [val] is [None] when its memory has been freed. *)
Record env_node := mk_node { var : list Z; val : option (list Z); sfunc : sfunc_t }.
#[global] Instance eta_node : Eta env_node := λ n, mk_node (var n) (val n) (sfunc n).
Abbreviation cli_env := (list env_node).

Definition cli_env_create : cli_env := [].

Definition find_env (env : cli_env) (v : list Z) : option nat :=
  fst <$> list_find (λ n, var n = v) env.

(** Freeing a value twice is not defined. *)
Definition env_free (env : cli_env) (i : option nat) : option (Z * cli_env) :=
  match i with
  | None => Some (-1, env)
  | Some i => n ← env !! i; _ ← val n; Some (0, delete i env)
  end.

(** A variable that is set again gets the new value for its name; the function of a
    new one is not set. *)
Definition env_set (env : cli_env) (v x : list Z) : option (nat * cli_env) :=
  match find_env env v with
  | Some i => n ← env !! i; _ ← val n; Some (i, <[i := n <| val := None |> <| var := x |>]> env)
  | None => Some (length env, env ++ [mk_node v (Some x) Unset])
  end.
Definition cli_env_set (env : cli_env) (v x : list Z) : option cli_env := snd <$> env_set env v x.
Definition cli_env_string (env : cli_env) (v : list Z) (f : sfunc_t) (x : list Z) : option cli_env :=
  '(i, env) ← env_set env v x; n ← env !! i; Some (<[i := n <| sfunc := f |>]> env).

(** The value, or [NULL] *)
Definition cli_env_get (env : cli_env) (v : list Z) : option (option (list Z)) :=
  match find_env env v with
  | None => Some None
  | Some i =>
      n ← env !! i; x ← val n;
      match sfunc n with Unset => None | Null => Some (Some x) | Fn f => Some (Some (f x)) end
  end.

Definition cli_env_del (env : cli_env) (v : list Z) : option (Z * cli_env) := env_free env (find_env env v).

(** The loop stops when it has counted up to [max_size]; it does not look first. *)
Definition cli_env_get_all (env : cli_env) (max_size : Z) : list env_node :=
  if max_size <=? 0 then env else take (Z.to_nat max_size) env.

(** ** Substitution *)

Definition closing (c : Z) : Z := if c =? 123 then 125 else 41.
Definition oops : list Z := [111; 111; 112; 115; 33].

(** What is written to [tmp], by [room] turns of the loop at most; [skip] counts
    the characters of a variable that are stepped over. *)
Fixpoint substitute (room skip : nat) (env : cli_env) (p : list Z) : option (list Z) :=
  match room, p with
  | O, _ | _, [] => Some []
  | S room, c :: q =>
      match skip with
      | S k => substitute room k env q
      | O =>
          let next := (λ l, c :: l) <$> substitute room 0 env q in
          if negb (c =? 36) then next
          else
            match q with
            | b :: rest =>
                if negb ((b =? 123) || (b =? 40)) then next
                else
                  let '(name, tl) := span (λ x, x =? closing b) rest in
                  match tl with
                  | [] => next
                  | _ :: _ =>
                      v ← cli_env_get env name;
                      l ← substitute room (length name + 2) env q;
                      Some (default oops v ++ l)
                  end
            | [] => next
            end
      end
  end.

(** [tmp] has room for [sz] characters and the terminator; the line gets at most
    [sz - 1] of them back. *)
Definition cli_env_substitution (env : cli_env) (line : list Z) (sz : Z) : option (list Z) :=
  if sz <=? 0 then Some line
  else
    tmp ← substitute (Z.to_nat sz) 0 env line;
    if Z.of_nat (length tmp) <=? sz then Some (take (Z.to_nat (sz - 1)) tmp) else None.

(** ** What they do *)

Lemma substitute_skip room k env p : (k ≤ length p)%nat → (length p ≤ room)%nat →
  substitute room k env p = substitute (room - k) 0 env (drop k p).
Proof.
  revert room p. induction k as [|k IH]; intros room p Hk Hr; [by rewrite Nat.sub_0_r, drop_0|].
  destruct p as [|c p]; cbn [length] in *; [lia|]. destruct room as [|room]; [lia|].
  cbn [substitute drop Nat.sub]. apply IH; lia.
Qed.

(** A line without a dollar is left as it is. *)
Lemma substitute_plain env l : ∀ room, Forall (λ c, c ≠ 36) l → (length l ≤ room)%nat → substitute room 0 env l = Some l.
Proof.
  induction l as [|c l IH]; intros [|room] HF Hl; cbn [length] in *; try done; [lia|].
  apply Forall_cons in HF as [Hc HF]. cbn [substitute]. destruct (Z.eqb_spec c 36); [done|]. cbn [negb].
  by rewrite IH by (done || lia).
Qed.

Lemma substitution_plain env l sz : Forall (λ c, c ≠ 36) l → Z.of_nat (length l) < sz →
  cli_env_substitution env l sz = Some l.
Proof.
  intros HF Hl. unfold cli_env_substitution. destruct (Z.leb_spec sz 0); [lia|].
  rewrite substitute_plain by (done || lia). cbn [mbind option_bind]. destruct (Z.leb_spec (Z.of_nat (length l)) sz); [|lia].
  f_equal. apply take_ge. lia.
Qed.

(** A line as it is written: text, and variables in either kind of brackets *)
Inductive part := Text (l : list Z) | Var (round : bool) (name : list Z).
Definition written (p : part) : list Z :=
  match p with
  | Text l => l
  | Var round name => 36 :: (if round then 40 else 123) :: name ++ [if round then 41 else 125]
  end.
Definition part_ok (p : part) : Prop :=
  match p with
  | Text l => Forall (λ c, c ≠ 36) l
  | Var round name => Forall (λ c, c ≠ if round then 41 else 125) name
  end.
Definition value_of (env : cli_env) (p : part) : option (list Z) :=
  match p with
  | Text l => Some l
  | Var _ name => v ← cli_env_get env name; Some (default oops v)
  end.
Fixpoint values (env : cli_env) (ps : list part) : option (list Z) :=
  match ps with
  | [] => Some []
  | p :: ps => v ← value_of env p; l ← values env ps; Some (v ++ l)
  end.

Lemma substitute_text env l p : ∀ room, Forall (λ c, c ≠ 36) l → (length (l ++ p) ≤ room)%nat →
  substitute room 0 env (l ++ p) = (λ t, l ++ t) <$> substitute (room - length l) 0 env p.
Proof.
  induction l as [|c l IH]; intros [|room] HF Hr; cbn [app length Nat.sub] in *; try lia.
  - by destruct p; cbn in *; [|lia].
  - by destruct (substitute (S room) 0 env p).
  - apply Forall_cons in HF as [Hc HF]. cbn [substitute]. destruct (Z.eqb_spec c 36); [done|]. cbn [negb].
    rewrite IH by (done || lia). by destruct (substitute (room - length l) 0 env p).
Qed.

Lemma substitute_parts env ps : ∀ room, Forall part_ok ps → (length (mjoin (written <$> ps)) ≤ room)%nat →
  substitute room 0 env (mjoin (written <$> ps)) = values env ps.
Proof.
  induction ps as [|p ps IH]; intros room HF Hr; [by destruct room|]. apply Forall_cons in HF as [Hp HF].
  cbn [fmap list_fmap] in *. change (mjoin (written p :: ?l)) with (written p ++ mjoin l) in *.
  cbn [values]. set (rest := mjoin (written <$> ps)) in *. destruct p as [l|round name]; cbn [written value_of part_ok] in *.
  - rewrite substitute_text by done. rewrite IH by (done || (rewrite length_app in Hr; lia)).
    cbn [mbind option_bind]. by destruct (values env ps).
  - cbn [app length] in Hr. rewrite <-app_assoc, length_app in Hr. cbn [app length] in Hr.
    destruct room as [|room]; [lia|]. cbn [app]. rewrite <-app_assoc. cbn [app].
    set (b := if round then 40 else 123). cbn [substitute]. rewrite Z.eqb_refl. cbn [negb].
    assert ((b =? 123) || (b =? 40) = true ∧ closing b = if round then 41 else 125) as [-> Eb] by (subst b; by destruct round).
    cbn [negb]. rewrite Eb. set (e := if round then 41 else 125) in *.
    rewrite (span_at (λ x, x =? e) name e rest);
      [|eapply Forall_impl; [exact Hp|]; intros x Hx; by apply Z.eqb_neq|apply Z.eqb_refl].
    cbn beta iota. rewrite substitute_skip by (cbn [length]; rewrite length_app; cbn [length]; lia).
    assert (drop (length name + 2) (b :: name ++ e :: rest) = rest) as ->.
    { replace (length name + 2)%nat with (S (S (length name))) by lia. cbn [drop].
      change (name ++ e :: rest) with (name ++ [e] ++ rest). rewrite app_assoc.
      replace (S (length name)) with (length (name ++ [e])) by (rewrite length_app; cbn; lia). apply drop_app_length. }
    rewrite IH by (done || lia). cbn [mbind option_bind]. by destruct (cli_env_get env name).
Qed.

(** ** Setting variables *)

Lemma find_env_none env v : find_env env v = None ↔ Forall (λ n, var n ≠ v) env.
Proof. unfold find_env. rewrite fmap_None. apply list_find_None. Qed.

Lemma find_env_snoc env n w : find_env (env ++ [n]) w =
  match find_env env w with Some i => Some i | None => if decide (var n = w) then Some (length env) else None end.
Proof.
  unfold find_env. induction env as [|m env IH]; cbn; [by destruct (decide (var n = w))|].
  destruct (decide (var m = w)); [done|]. revert IH.
  destruct (list_find _ (env ++ [n])) as [[i x]|], (list_find _ env) as [[j y]|]; cbn; repeat case_decide; by intros [= ->] || intros [=].
Qed.

Lemma find_env_lookup env v i : find_env env v = Some i → (i < length env)%nat.
Proof.
  unfold find_env. destruct (list_find _ env) as [[j n]|] eqn:E'; [|done]. intros [= ->].
  apply list_find_Some in E' as (E' & _). by eapply lookup_lt_Some.
Qed.

(** The variable that was added last *)
Lemma last_node (env : cli_env) (n : env_node) : find_env env (var n) = None → find_env (env ++ [n]) (var n) = Some (length env) ∧
  (env ++ [n]) !! length env = Some n.
Proof. intros Hf. rewrite find_env_snoc, Hf, decide_True by done. split; [done|]. by apply list_lookup_middle. Qed.

Lemma last_node_changed (env : cli_env) (n m : env_node) : <[length env := m]> (env ++ [n]) = env ++ [m].
Proof. by rewrite insert_app_r_alt, Nat.sub_diag by done. Qed.

Lemma string_fresh env v f x : find_env env v = None → cli_env_string env v f x = Some (env ++ [mk_node v (Some x) f]).
Proof.
  intros Hf. unfold cli_env_string, env_set. rewrite Hf. cbn [mbind option_bind]. rewrite list_lookup_middle by done.
  cbn [mbind option_bind]. by rewrite last_node_changed.
Qed.

(** C34. A line is substituted as it is written: the text between variables stays,
    each [${name}] or [$(name)] becomes the value of the variable, or [oops!] if it
    is not set, and the line is cut to one character less than its buffer has
    room for.  A result longer than the buffer is written behind it. *)
Theorem substitution_spec (env : cli_env) (ps : list part) (t : list Z) (sz : Z) :
  Forall part_ok ps → 0 < sz → Z.of_nat (length (mjoin (written <$> ps))) ≤ sz → values env ps = Some t →
  cli_env_substitution env (mjoin (written <$> ps)) sz =
    if Z.of_nat (length t) <=? sz then Some (take (Z.to_nat (sz - 1)) t) else None.
Proof.
  intros HF Hsz Hl Hv. unfold cli_env_substitution. destruct (Z.leb_spec sz 0); [lia|].
  by rewrite substitute_parts, Hv by (done || lia).
Qed.

(** C35. A variable can be set once, and with [cli_env_string] only: a variable made
    by [cli_env_set] has a function that was never written, which looking it up
    follows.  Setting a variable again gives it the new value for its name: the
    old name is not found any more, substituting it yields [oops!], and asking for
    the variable of the new name, setting and removing it follow a pointer to
    memory that was freed. *)
Theorem variable_set_once (env : cli_env) (v x y : list Z) :
  find_env env v = None → find_env env y = None → y ≠ v →
  ∃ env0 env1 env2, cli_env_set env v x = Some env0 ∧ cli_env_get env0 v = None ∧
    cli_env_string env v Null x = Some env1 ∧ cli_env_get env1 v = Some (Some x) ∧
    cli_env_set env1 v y = Some env2 ∧ cli_env_get env2 v = Some None ∧ cli_env_get env2 y = None ∧
    cli_env_set env2 y x = None ∧ cli_env_del env2 y = None.
Proof.
  intros Hv Hy Hne. set (n0 := mk_node v (Some x) Unset). set (n1 := mk_node v (Some x) Null). set (n2 := mk_node y None Null).
  exists (env ++ [n0]), (env ++ [n1]), (env ++ [n2]).
  destruct (last_node env n0 Hv) as [F0 L0]. destruct (last_node env n1 Hv) as [F1 L1]. destruct (last_node env n2 Hy) as [F2 L2].
  cbn [var n0 n1 n2] in *. split; [unfold cli_env_set, env_set; by rewrite Hv|].
  split; [unfold cli_env_get; by rewrite F0, L0|]. split; [by apply string_fresh|]. split; [unfold cli_env_get; by rewrite F1, L1|].
  split; [unfold cli_env_set, env_set; rewrite F1, L1; cbn [mbind option_bind val n1 fmap option_fmap option_map snd]; by rewrite last_node_changed|].
  split; [unfold cli_env_get; rewrite find_env_snoc, Hv; cbn [var n2]; by rewrite decide_False|].
  split; [unfold cli_env_get; by rewrite F2, L2|]. split; [unfold cli_env_set, env_set; by rewrite F2, L2|].
  unfold cli_env_del, env_free. by rewrite F2, L2.
Qed.

Lemma substitution_spec_witness :
  cli_env_substitution [mk_node [120] (Some [55; 55]) Null] (mjoin (written <$> [Text [97; 32]; Var false [120]; Var true [121]])) 64 =
    Some [97; 32; 55; 55; 111; 111; 112; 115; 33].
Proof.
  rewrite (substitution_spec [mk_node [120] (Some [55; 55]) Null] [Text [97; 32]; Var false [120]; Var true [121]]
    [97; 32; 55; 55; 111; 111; 112; 115; 33] 64); [reflexivity| |lia|by vm_compute|reflexivity].
  repeat constructor; discriminate.
Defined.

Lemma variable_set_once_witness :
  ∃ env, cli_env_string cli_env_create [120] Null [49] = Some env ∧
    ∃ env', cli_env_set env [120] [50] = Some env' ∧ cli_env_get env' [120] = Some None ∧ cli_env_get env' [50] = None.
Proof.
  destruct (variable_set_once cli_env_create [120] [49] [50]) as (e0 & e1 & e2 & _ & _ & H1 & _ & H2 & H3 & H4 & _);
    [reflexivity|reflexivity|discriminate|]. exists e1. split; [exact H1|]. by exists e2.
Defined.
