(* ===== verification/CliMap.v ===== *)
(** * Command lines: words, formats and addresses

    [pg_strqtok] of [lib/common/pg_strings.c], which cuts a command line into
    words; [lib/cli/cli_map.c], which finds the entry of a command's table that
    the words fit; and [_atoip] of [lib/utils/_atoip.c], which reads the
    addresses among them.  Strings are lists of byte values without the
    terminating zero; reading behind it is not defined and gives [None]. *)
From Stdlib Require Import Ascii String.
From S2P Require Import Prelude Mem Strings.

(** The strings of [Commands] *)
Definition text (s : list Z) : string := string_of_list_ascii ((λ c, ascii_of_N (Z.to_N c)) <$> s).

Definition isxdigit (c : Z) : bool :=
  isdigit c || ((97 <=? c) && (c <=? 102)) || ((65 <=? c) && (c <=? 70)).
Definition isprint (c : Z) : bool := (32 <=? c) && (c <=? 126).

(** [strtol(s, NULL, 0)]: the base is found after blanks and a sign; [strtoul]
    likewise; [atoi] is [strtol] cut to an [int]. *)
Definition base_of (s : list Z) : Z :=
  let s := skip_while isspace s in
  let s := match s with c :: s' => if (c =? 45) || (c =? 43) then s' else s | [] => s end in
  match s with
  | z :: x :: _ => if z =? 48 then (if (x =? 120) || (x =? 88) then 16 else 8) else 10
  | _ => 10
  end.
Definition strtol0 (s : list Z) : Z := strtol (base_of s) s.
Definition strtoul0 (s : list Z) : Z := fst (fst (strtoul (base_of s) s)).
Definition atoi (s : list Z) : Z := swrap 32 (strtol 10 s).

(** ** Words *)

Inductive state := INIT | WORD | STRING_QUOTE | STRING_TICK | STRING_BRACKET.

(** The character [c] ends the word, *)
Definition ends (delim : list Z) (st : state) (c : Z) : bool :=
  match st with
  | INIT => false
  | STRING_QUOTE => c =? 34
  | STRING_TICK => c =? 39
  | STRING_BRACKET => c =? 125
  | WORD => mem_chr c delim
  end.
(** or belongs to it, starts one, or is skipped. *)
Definition goes_on (delim : list Z) (st : state) (word : list Z) (c : Z) : state * list Z :=
  match st with
  | INIT =>
      if c =? 34 then (STRING_QUOTE, [])
      else if c =? 39 then (STRING_TICK, [])
      else if c =? 123 then (STRING_BRACKET, [])
      else if negb (mem_chr c delim) then (WORD, [c])
      else (INIT, word)
  | _ => (st, word ++ [c])
  end.

(** [word] is the text from [start_of_word] up to [p], which is at the head of
    [s]; [argc] words more are asked for.  A backslash moves the start of the
    word behind it; one at the end of the line steps over the terminator. *)
Fixpoint strqtok (delim : list Z) (argc : nat) (st : state) (word s : list Z) : option (list (list Z)) :=
  match argc with
  | O => Some []
  | S argc' =>
      match s with
      | [] => Some (match st with INIT => [] | _ => [word] end)
      | c :: s =>
          if c =? 92 then
            match s with
            | [] => None
            | d :: s => strqtok delim argc st [d] s
            end
          else
            if ends delim st c then r ← strqtok delim argc' INIT [] s; Some (word :: r)
            else let '(st, word) := goes_on delim st word c in strqtok delim argc st word s
      end
  end.

(** The first word starts in the state [WORD], so there always is one, and the
    last test of the function, for none, is not taken. *)
Definition pg_strqtok (str delim : list Z) (maxtokens : nat) : option (list (list Z)) :=
  strqtok delim maxtokens WORD [] (pg_strtrim str).

(** ** cli_map.c *)

Definition CLI_MAX_ARGVS := 64%nat.

Definition cli_map_list_search (fmt item : list Z) (index : nat) : Z :=
  let opts := pg_strtok CLI_MAX_ARGVS fmt [32] in
  pg_stropt (drop 2 (nth index opts [])) item [124].

(** The characters of an argument are looked at until one fits, not until one
    does not. *)
Definition any_char (p : Z → bool) (arg : list Z) : option bool :=
  match arg with
  | [] => None
  | _ => Some (existsb p arg)
  end.

(** [fmt] is a format: it starts with [%]. *)
Definition is_map_valid (fmt arg : list Z) : option bool :=
  match fmt with
  | _ :: f :: _ =>
      if mem_chr f (str "%l") then Some true
      else if mem_chr f (str "bdDn46") then any_char isdigit arg
      else if mem_chr f (str "hHm") then any_char isxdigit arg
      else if f =? 115 then any_char isprint arg
      else if f =? 107 then Some true
      else if mem_chr f (str "PC") then any_char (λ c, isdigit c || (c =? 97)) arg
      else if f =? 124 then Some (negb (pg_stropt (drop 1 fmt) arg [124] =? -1))
      else Some false
  | _ => Some false
  end.

Fixpoint words_fit (map argv : list (list Z)) : option bool :=
  match map, argv with
  | m :: map, a :: argv =>
      ok ← (if (match m with c :: _ => c =? 37 | [] => false end) then is_map_valid m a
            else Some (pg_strmatch m a));
      if ok : bool then words_fit map argv else Some false
  | _, _ => Some true
  end.

Record cli_map := mk_map { index : Z; fmt : list Z }.

Fixpoint find_map (maps : list cli_map) (argv : list (list Z)) : option (option cli_map) :=
  match maps with
  | [] => Some None
  | m :: maps =>
      let map := pg_strtok CLI_MAX_ARGVS (fmt m) [32] in
      if negb (length map =? length argv)%nat then find_map maps argv
      else
        ok ← words_fit map argv;
        if ok : bool then Some (Some m) else find_map maps argv
  end.

Definition is_help (argv : list (list Z)) : bool :=
  match last argv with
  | Some a => pg_strmatch (str "-?") a || pg_strmatch (str "?") a
  | None => false
  end.

Definition cli_mapping (maps : list cli_map) (argv : list (list Z)) : option (option cli_map) :=
  match maps with
  | [] => Some None
  | _ => if is_help argv then Some None else find_map maps argv
  end.

(** ** Addresses *)

(** [inet_ipton4]: [pre] are the octets below [tp], [cur] is [*tp]. *)
Fixpoint ipton4_loop (src pre : list Z) (cur : Z) (saw_digit : bool) (octets : Z) : option (list Z) :=
  match src with
  | [] => if octets <? 4 then None else Some (pre ++ [cur])
  | ch :: src =>
      if isdigit ch then
        let new := cur * 10 + (ch - 48) in
        if 255 <? new then None
        else if negb saw_digit then
          if 4 <? octets + 1 then None else ipton4_loop src pre new true (octets + 1)
        else ipton4_loop src pre new true octets
      else if (ch =? 46) && saw_digit then
        if octets =? 4 then None else ipton4_loop src (pre ++ [cur]) 0 false octets
      else None
  end.
Definition inet_ipton4 (src : list Z) : option (list Z) := ipton4_loop src [] 0 false 0.

Definition rte_isendoftoken (c : Z) : bool :=
  (c =? 35) || (c =? 32) || (c =? 9) || (c =? 10) || (c =? 13).

(** [strrchr(s, '/')]: what is before and behind the last one *)
Definition strrchr_slash (s : list Z) : option (list Z * list Z) :=
  match span (λ c, c =? 47) (reverse s) with
  | (b, _ :: a) => Some (reverse a, reverse b)
  | _ => None
  end.

(** [strtol(s, &end, 10)] with [errno]: the value, if nothing is left *)
Definition strtol_all (s : list Z) : option Z :=
  match number 10 s with
  | None => match s with [] => Some 0 | _ => None end
  | Some (neg, v, rest) =>
      let v := if neg then - v else v in
      if (v <? - 2 ^ 63) || (2 ^ 63 - 1 <? v) then None
      else match rest with [] => Some v | _ => None end
  end.

Definition INET6_ADDRSTRLEN := 46.
Definition RTE_PREFIXMAX := 128.
Definition RTE_V4PREFIXMAX := 32.

(** [_atoip] with [RTE_IPADDR_V4], and [RTE_IPADDR_NETWORK] if [network]: the
    bytes of the address and the prefix length, [None] for -1.  No command
    gives [RTE_IPADDR_V6]. *)
Definition _atoip (buf : list Z) (network : bool) : option (list Z * Z) :=
  match buf with
  | [] => None
  | _ =>
      let token := fst (span rte_isendoftoken buf) in
      if INET6_ADDRSTRLEN + 4 <=? Z.of_nat (length token) then None
      else
        '(ip_str, prefixlen) ←
          (if network then
             '(ip_str, prefix) ← strrchr_slash token;
             prefixlen ← strtol_all prefix;
             if (prefixlen <? 0) || (RTE_PREFIXMAX <? prefixlen) then None
             else Some (ip_str, prefixlen)
           else Some (token, 0));
        ipv4 ← inet_ipton4 ip_str;
        if prefixlen <=? RTE_V4PREFIXMAX then Some (ipv4, prefixlen) else None
  end.
