(* ===== verification/CliFacts.v ===== *)
(** * What the words of a line are read as

    A line written down word by word, plain or between quotes, is read back by
    [pg_strqtok]; an address written in dotted form is read back by [_atoip];
    and the entry [cli_mapping] finds is the first whose form the words have. *)
From Stdlib Require Import Ascii String.
From S2P Require Import Prelude Mem Strings CliMap.

(** ** Lines *)

(** The delimiters [cli_execute] passes *)
Definition blanks : list Z := str " " ++ [13; 10].

Inductive quoting := Plain | Quoted | Ticked | Bracketed.
Definition word : Type := quoting * list Z.

Definition printed (w : word) : list Z :=
  match fst w with
  | Plain => snd w
  | Quoted => 34 :: snd w ++ [34]
  | Ticked => 39 :: snd w ++ [39]
  | Bracketed => 123 :: snd w ++ [125]
  end.

Definition plain_char (c : Z) : Prop := isspace c = false ∧ c ≠ 92.
Definition not_in (l : list Z) (c : Z) : Prop := c ∉ l.
Definition printable (w : word) : Prop :=
  match fst w with
  | Plain => Forall plain_char (snd w) ∧ ∃ c, head (snd w) = Some c ∧ not_in [34; 39; 123] c
  | Quoted => Forall (not_in [92; 34]) (snd w)
  | Ticked => Forall (not_in [92; 39]) (snd w)
  | Bracketed => Forall (not_in [92; 125]) (snd w)
  end.

(** Each word with the blanks before it *)
Definition rest_of_line : list (list Z * word) → list Z :=
  mjoin ∘ fmap (λ '(gap, w), gap ++ printed w).
Definition gap_ok (gap : list Z) : Prop := Forall (λ c, c ∈ blanks) gap.
Definition spaced (p : list Z * word) : Prop := gap_ok (fst p) ∧ fst p ≠ [] ∧ printable (snd p).
Definition words (ps : list (list Z * word)) : list (list Z) := (λ p, snd (snd p)) <$> ps.

Lemma blank_cases c : c ∈ blanks → c = 32 ∨ c = 13 ∨ c = 10.
Proof. unfold blanks. cbn. rewrite !elem_of_cons. intros [?|[?|[?|[]%not_elem_of_nil]]]; auto. Qed.
Lemma blank_delim c : c ∈ blanks → mem_chr c blanks = true.
Proof. by intros [-> | [-> | ->]]%blank_cases. Qed.
Lemma plain_not_delim c : plain_char c → mem_chr c blanks = false.
Proof.
  intros [H _]. destruct (mem_chr c blanks) eqn:E; [|done]. unfold mem_chr in E.
  apply existsb_exists in E as (d & Hd & ->%Z.eqb_eq).
  assert (c ∈ blanks) as Hc by by apply list_elem_of_In. by destruct (blank_cases c Hc) as [-> | [-> | ->]].
Qed.

(** *** The steps of the scanner *)

Definition inside_word (st : state) : Prop := match st with INIT => False | _ => True end.

Lemma strqtok_0 delim st pre s : strqtok delim 0 st pre s = Some [].
Proof. by destruct s. Qed.

Lemma strqtok_char delim n st pre c s :
  c ≠ 92 → inside_word st → ends delim st c = false →
  strqtok delim (S n) st pre (c :: s) = strqtok delim (S n) st (pre ++ [c]) s.
Proof.
  intros H92 Hst He. cbn [strqtok]. apply Z.eqb_neq in H92 as ->. rewrite He. by destruct st.
Qed.

Lemma strqtok_chars delim n st w : ∀ pre s,
  inside_word st → Forall (λ c, c ≠ 92 ∧ ends delim st c = false) w →
  strqtok delim (S n) st pre (w ++ s) = strqtok delim (S n) st (pre ++ w) s.
Proof.
  induction w as [|c w IH]; intros pre s Hst Hw; [by rewrite app_nil_r|].
  inversion Hw as [|? ? [H1 H2] Hw']; subst. rewrite <-app_comm_cons, strqtok_char by done.
  rewrite IH by done. by rewrite <-app_assoc.
Qed.

Lemma strqtok_end delim n st pre e s :
  e ≠ 92 → ends delim st e = true →
  strqtok delim (S n) st pre (e :: s) = (pre ::.) <$> strqtok delim n INIT [] s.
Proof.
  intros H92 He. cbn [strqtok]. apply Z.eqb_neq in H92 as ->. rewrite He.
  by destruct (strqtok delim n INIT [] s).
Qed.

Lemma strqtok_gap n g : ∀ pre s, gap_ok g →
  strqtok blanks n INIT pre (g ++ s) = strqtok blanks n INIT pre s.
Proof.
  induction g as [|c g IH]; intros pre s Hg; [done|]. inversion Hg as [|? ? Hc Hg']; subst.
  destruct n as [|n]; [by rewrite !strqtok_0|]. rewrite <-(IH pre s Hg').
  by destruct (blank_cases c Hc) as [-> | [-> | ->]].
Qed.

(** The rest of the line is read back from its first blank on. *)
Definition reads_back (ps : list (list Z * word)) : Prop :=
  match ps with
  | [] => True
  | (_, w) :: ps' => ∀ n pre gap, gap_ok gap →
      strqtok blanks n INIT pre (gap ++ printed w ++ rest_of_line ps') = Some (take n (snd w :: words ps'))
  end.

Lemma rest_cons gap w ps : rest_of_line ((gap, w) :: ps) = gap ++ printed w ++ rest_of_line ps.
Proof. unfold rest_of_line. cbn. by rewrite <-app_assoc. Qed.

Lemma plain_chars w : Forall plain_char w → Forall (λ c, c ≠ 92 ∧ ends blanks WORD c = false) w.
Proof. intros Hw. eapply Forall_impl; [exact Hw|]. intros c Hc. split; [apply Hc|by apply plain_not_delim]. Qed.

(** A plain word goes up to the blanks before the next one, or to the end. *)
Lemma strqtok_word n pre w ps :
  Forall plain_char w → Forall spaced ps → reads_back ps →
  strqtok blanks (S n) WORD pre (w ++ rest_of_line ps) = Some (take (S n) ((pre ++ w) :: words ps)).
Proof.
  intros Hw Hps Hr. rewrite strqtok_chars by (done || by apply plain_chars).
  destruct ps as [|[gap p] ps]; [by destruct n|]. rewrite rest_cons.
  inversion Hps as [|? ? (Hg & Hne & Hp) _]; subst. cbn [fst snd] in *.
  destruct gap as [|c gap]; [done|]. inversion Hg as [|? ? Hc Hg']; subst.
  rewrite <-app_comm_cons, strqtok_end; [|by destruct (blank_cases c Hc) as [-> | [-> | ->]]|by apply blank_delim].
  by rewrite (Hr n [] gap Hg').
Qed.

(** A word in quotes goes up to the closing one. *)
Lemma strqtok_quoted n st e w ps :
  inside_word st → e ≠ 92 → (∀ c, ends blanks st c = (c =? e)) →
  Forall (not_in [92; e]) w → Forall spaced ps → reads_back ps →
  strqtok blanks (S n) st [] (w ++ e :: rest_of_line ps) = Some (take (S n) (w :: words ps)).
Proof.
  intros Hst He Hends Hw Hps Hr. rewrite strqtok_chars; [|done|].
  - rewrite strqtok_end by (done || by rewrite Hends, Z.eqb_refl). cbn [app].
    destruct ps as [|[gap p] ps]; [by destruct n|]. rewrite rest_cons.
    inversion Hps as [|? ? (Hg & _ & _) _]; subst. by rewrite (Hr n [] gap Hg).
  - eapply Forall_impl; [exact Hw|]. intros c Hc. unfold not_in in Hc. rewrite !elem_of_cons in Hc.
    rewrite Hends, Z.eqb_neq. split; intros ->; apply Hc; auto.
Qed.

Lemma reads_back_all ps : Forall spaced ps → reads_back ps.
Proof.
  induction ps as [|[gap0 [q w]] ps IH]; intros Hps; [done|]. intros n pre gap Hg.
  inversion Hps as [|? ? (_ & _ & Hp) Hps']; subst. specialize (IH Hps').
  rewrite strqtok_gap by done. destruct n as [|n]; [by rewrite strqtok_0|].
  unfold printable in Hp. unfold printed. cbn [fst snd] in *.
  destruct q; [|rewrite <-app_comm_cons, <-app_assoc..].
  - destruct Hp as [Hw (c & Hc & Hq)]. destruct w as [|c' w]; [done|]. injection Hc as ->.
    inversion Hw as [|? ? Hc' Hw']; subst.
    assert (strqtok blanks (S n) INIT pre ((c :: w) ++ rest_of_line ps)
            = strqtok blanks (S n) WORD [c] (w ++ rest_of_line ps)) as ->; [|by apply strqtok_word].
    unfold not_in in Hq. rewrite !elem_of_cons in Hq. cbn [strqtok app ends goes_on].
    rewrite (plain_not_delim c Hc'). destruct Hc' as [_ N]. apply Z.eqb_neq in N as ->.
    destruct (Z.eqb_spec c 34); [by destruct Hq; auto|]. destruct (Z.eqb_spec c 39); [by destruct Hq; auto|].
    destruct (Z.eqb_spec c 123); [by destruct Hq; auto|]. done.
  - by apply (strqtok_quoted n STRING_QUOTE 34).
  - by apply (strqtok_quoted n STRING_TICK 39).
  - by apply (strqtok_quoted n STRING_BRACKET 125).
Qed.

(** *** The ends of the line are not blanks. *)

Definition solid_end (l : list Z) : Prop := ∃ l' d, l = l' ++ [d] ∧ isspace d = false.

Lemma solid_end_app a b : solid_end b → solid_end (a ++ b).
Proof. intros (l & d & -> & Hd). exists (a ++ l), d. by rewrite app_assoc. Qed.

Lemma plain_end w : w ≠ [] → Forall plain_char w → solid_end w.
Proof.
  intros Hne Hw. destruct w as [|d w] using rev_ind; [done|]. apply Forall_app in Hw as [_ Hd].
  inversion Hd as [|? ? [H _] _]; subst. by exists w, d.
Qed.

Lemma printed_end w : printable w → solid_end (printed w).
Proof.
  destruct w as [[] w]; unfold printable, printed; cbn [fst snd]; intros Hp;
    [|by eexists (_ :: w), _..].
  destruct Hp as [Hw (c & Hc & _)]. apply plain_end; [by destruct w|done].
Qed.

Lemma line_end w ps : w ≠ [] → Forall plain_char w → Forall spaced ps → solid_end (w ++ rest_of_line ps).
Proof.
  intros Hne Hw Hps. destruct ps as [|p ps] using rev_ind.
  - unfold rest_of_line. cbn. rewrite app_nil_r. by apply plain_end.
  - clear IHps. apply Forall_app in Hps as [_ Hp]. inversion Hp as [|? ? (_ & _ & H) _]; subst.
    destruct p as [gap v]. unfold rest_of_line. cbn [compose]. rewrite fmap_app, join_app.
    cbn. rewrite app_nil_r. by do 3 apply solid_end_app; apply printed_end.
Qed.

Lemma line_solid w ps : w ≠ [] → Forall plain_char w → Forall spaced ps → solid isspace (w ++ rest_of_line ps).
Proof.
  intros Hne Hw Hps. destruct (line_end w ps Hne Hw Hps) as (l & d & E & Hd).
  destruct w as [|c w]; [done|]. inversion Hw as [|? ? [Hc _] _]; subst.
  exists c, (w ++ rest_of_line ps), d. split_and!; try done. rewrite E. apply last_snoc.
Qed.

Lemma strqtok_words n w ps : Forall plain_char w → Forall spaced ps →
  strqtok blanks n WORD [] (w ++ rest_of_line ps) = Some (take n (w :: words ps)).
Proof.
  intros Hw Hps. destruct n as [|n]; [by rewrite strqtok_0|].
  by rewrite strqtok_word by (done || by apply reads_back_all).
Qed.

(** The characters before and after what is quoted *)
Definition opening (q : quoting) : list Z :=
  match q with Plain => [] | Quoted => [34] | Ticked => [39] | Bracketed => [123] end.
Definition closing (q : quoting) : list Z :=
  match q with Plain => [] | Quoted => [34] | Ticked => [39] | Bracketed => [125] end.

Lemma printed_split q u v : q ≠ Plain →
  printed (q, u ++ 32 :: v) = (opening q ++ u) ++ [32] ++ printed (Plain, v ++ closing q).
Proof. intros Hq. destruct q; [done|..]; cbn; by rewrite <-!app_assoc. Qed.

Lemma marks_plain q : Forall plain_char (opening q) ∧ Forall plain_char (closing q).
Proof. destruct q; split; repeat constructor; done. Qed.

Lemma printable_closed q v : printable (Plain, v) → printable (Plain, v ++ closing q).
Proof.
  intros [Hv (c & Hc & Hq)]. split; cbn [fst snd] in *.
  - apply Forall_app. split; [done|apply marks_plain].
  - exists c. split; [|done]. by destruct v.
Qed.

(** C29. A line whose first word is plain, that is, not in quotes, is read back as
    the words it was written from: the others plain, in double
    quotes, single quotes or braces, with any blanks between them and around the
    line, and only the first [n] of them if there are more.  A first word in quotes
    or braces is not read back: the scanner begins within a word, so it is
    split at its blank, with the opening character left in front and the
    closing one behind. *)
Theorem strqtok_roundtrip (n : nat) (w : list Z) (ps : list (list Z * word)) (before after : list Z) :
  w ≠ [] → Forall plain_char w → Forall spaced ps →
  Forall (λ c, isspace c = true) before → Forall (λ c, isspace c = true) after →
  pg_strqtok (before ++ (w ++ rest_of_line ps) ++ after) blanks n = Some (take n (w :: words ps)) ∧
  ∀ q u v, q ≠ Plain → Forall plain_char u → printable (Plain, v) →
    pg_strqtok (before ++ (printed (q, u ++ 32 :: v) ++ rest_of_line ps) ++ after) blanks n =
      Some (take n ((opening q ++ u) :: (v ++ closing q) :: words ps)).
Proof.
  intros Hne Hw Hps Hb Ha. unfold pg_strqtok. split.
  - rewrite strtrim_solid by (done || by apply line_solid). by apply strqtok_words.
  - intros q u v Hq Hu Hv.
    assert (printed (q, u ++ 32 :: v) ++ rest_of_line ps =
            (opening q ++ u) ++ rest_of_line (([32], (Plain, v ++ closing q)) :: ps)) as ->
      by (rewrite printed_split, rest_cons, <-!app_assoc by done; done).
    assert (Forall plain_char (opening q ++ u)) as Hw' by (apply Forall_app; split; [apply marks_plain|done]).
    assert (opening q ++ u ≠ []) as Hne' by by destruct q.
    assert (Forall spaced (([32], (Plain, v ++ closing q)) :: ps)) as Hps'.
    { apply Forall_cons. split; [|done]. split_and!; [by repeat constructor|done|by apply printable_closed]. }
    rewrite strtrim_solid by (done || by apply line_solid). by apply strqtok_words.
Qed.

Lemma strqtok_roundtrip_witness :
  let rest := rest_of_line [([32], (Plain, str "all")); ([32; 32], (Bracketed, str "user pattern"))] in
  pg_strqtok ([32] ++ (str "set" ++ rest) ++ [10]) blanks 64 = Some [str "set"; str "all"; str "user pattern"] ∧
  pg_strqtok ([32] ++ (printed (Bracketed, str "my file") ++ rest) ++ [10]) blanks 64 =
    Some [str "{my"; str "file}"; str "all"; str "user pattern"].
Proof.
  intros rest.
  assert (pg_strqtok ([32] ++ (str "set" ++ rest) ++ [10]) blanks 64 = Some [str "set"; str "all"; str "user pattern"] ∧
    ∀ q u v, q ≠ Plain → Forall plain_char u → printable (Plain, v) →
      pg_strqtok ([32] ++ (printed (q, u ++ 32 :: v) ++ rest) ++ [10]) blanks 64 =
        Some (take 64 ((opening q ++ u) :: (v ++ closing q) :: [str "all"; str "user pattern"]))) as [T1 T2].
  2: { split; [exact T1|]. refine (T2 Bracketed (str "my") (str "file") _ _ _); [done|by repeat constructor|].
       split; [by repeat constructor|]. exists 102. split; [done|]. by apply (bool_decide_unpack _); vm_compute. }
  apply (strqtok_roundtrip 64 (str "set") [([32], (Plain, str "all")); ([32; 32], (Bracketed, str "user pattern"))] [32] [10]).
  - done.
  - by repeat constructor.
  - repeat (apply Forall_cons; split); [..|by apply Forall_nil].
    + split_and!; [by apply (bool_decide_unpack _); vm_compute|done|].
      split; [by repeat constructor|]. exists 97. split; [done|]. by apply (bool_decide_unpack _); vm_compute.
    + split_and!; [by apply (bool_decide_unpack _); vm_compute|done|].
      by apply (bool_decide_unpack _); vm_compute.
  - by repeat constructor.
  - by repeat constructor.
Defined.

(** ** Addresses *)

Definition dotted (a b c d : Z) : list Z := show a ++ 46 :: show b ++ 46 :: show c ++ 46 :: show d.
Definition byte (a : Z) : Prop := 0 ≤ a < 256.

Lemma digit_true n : isdigit (48 + n `mod` 10) = true.
Proof. unfold isdigit. pose proof (Z.mod_pos_bound n 10). rewrite andb_true_iff, !Z.leb_le. lia. Qed.

Lemma ipton4_digit pre cur saw o n s :
  0 ≤ cur → cur * 10 + n `mod` 10 < 256 → (saw = false → o < 4) →
  ipton4_loop ((48 + n `mod` 10) :: s) pre cur saw o =
  ipton4_loop s pre (cur * 10 + n `mod` 10) true (if saw then o else o + 1).
Proof.
  intros Hc Hv Ho. cbn [ipton4_loop]. rewrite digit_true.
  replace (cur * 10 + (48 + n `mod` 10 - 48)) with (cur * 10 + n `mod` 10) by lia.
  destruct (Z.ltb_spec 255 (cur * 10 + n `mod` 10)); [lia|]. destruct saw; cbn [negb]; [done|].
  destruct (Z.ltb_spec 4 (o + 1)); [|done]. specialize (Ho eq_refl). lia.
Qed.

Lemma ipton4_dec f pre o s : ∀ n, 0 ≤ n < 256 → n < 10 ^ Z.of_nat f → (0 < f)%nat → o < 4 →
  ipton4_loop (dec_digits f n ++ s) pre 0 false o = ipton4_loop s pre n true (o + 1).
Proof.
  revert s. induction f as [|f IH]; intros s n Hn Hf H0 Ho; [lia|]. cbn [dec_digits].
  pose proof (Z.div_mod n 10 ltac:(lia)). pose proof (Z.mod_pos_bound n 10 eq_refl).
  rewrite <-app_assoc. cbn [app].
  destruct (Z.ltb_spec n 10) as [Hl|Hl].
  - cbn [app]. rewrite ipton4_digit by (try lia; rewrite Z.mod_small; lia).
    by replace (0 * 10 + n `mod` 10) with n by (rewrite Z.mod_small; lia).
  - rewrite Nat2Z.inj_succ, Z.pow_succ_r in Hf by lia.
    assert (n / 10 < 10 ^ Z.of_nat f) by (apply Z.div_lt_upper_bound; lia).
    assert (1 ≤ n / 10) by (apply Z.div_le_lower_bound; lia).
    destruct f as [|f]; [change (10 ^ Z.of_nat 0) with 1 in *; lia|].
    rewrite IH by lia. rewrite ipton4_digit by lia. f_equal; lia.
Qed.

Lemma ipton4_show pre o s n : byte n → o < 4 →
  ipton4_loop (show n ++ s) pre 0 false o = ipton4_loop s pre n true (o + 1).
Proof. intros Hn Ho. apply ipton4_dec; [done| |lia|done]. unfold byte in Hn. change (10 ^ Z.of_nat 20) with 100000000000000000000. lia. Qed.

Lemma ipton4_dot pre cur o s : o < 4 →
  ipton4_loop (46 :: s) pre cur true o = ipton4_loop s (pre ++ [cur]) 0 false o.
Proof. intros Ho. cbn [ipton4_loop isdigit]. cbn. by destruct (Z.eqb_spec o 4); [lia|]. Qed.

Lemma ipton4_dotted a b c d : byte a → byte b → byte c → byte d → inet_ipton4 (dotted a b c d) = Some [a; b; c; d].
Proof.
  intros Ha Hb Hc Hd. unfold inet_ipton4, dotted.
  rewrite ipton4_show, ipton4_dot, ipton4_show, ipton4_dot, ipton4_show, ipton4_dot by (done || lia).
  rewrite <-(app_nil_r (show d)), ipton4_show by (done || lia). done.
Qed.

Lemma dec_length f k n : 0 ≤ n < 10 ^ Z.of_nat (S k) → (length (dec_digits f n) ≤ S k)%nat.
Proof.
  revert k n. induction f as [|f IH]; intros k n Hn; cbn [dec_digits]; [cbn; lia|].
  rewrite length_app. cbn [length]. destruct (Z.ltb_spec n 10); [cbn; lia|].
  rewrite Nat2Z.inj_succ, Z.pow_succ_r in Hn by lia.
  destruct k as [|k]; [change (10 ^ Z.of_nat 0) with 1 in *; lia|].
  assert (length (dec_digits f (n / 10)) ≤ S k)%nat; [|lia].
  apply IH. split; [apply Z.div_pos; lia|]. apply Z.div_lt_upper_bound; lia.
Qed.

Lemma byte_length a : byte a → (length (show a) ≤ 3)%nat.
Proof. intros Ha. apply dec_length. unfold byte in Ha. change (10 ^ Z.of_nat 3) with 1000. lia. Qed.

(** Characters of addresses do not end the token. *)
Definition addr_char (c : Z) : Prop := 46 ≤ c ≤ 57.
Lemma show_addr n : 0 ≤ n → Forall addr_char (show n).
Proof. intros Hn. eapply Forall_impl; [by apply show_chars|]. intros c Hc. unfold digit_char, addr_char in *. lia. Qed.

Lemma dotted_chars a b c d : byte a → byte b → byte c → byte d →
  Forall (λ x, addr_char x ∧ x ≠ 47) (dotted a b c d) ∧ (length (dotted a b c d) ≤ 15)%nat.
Proof.
  intros Ha Hb Hc Hd. split.
  - assert (∀ n, byte n → Forall (λ x, addr_char x ∧ x ≠ 47) (show n)) as Hs.
    { intros n [Hn _]. eapply Forall_impl; [by apply show_chars|]. intros x Hx.
      unfold digit_char, addr_char in *. lia. }
    unfold dotted. repeat (apply Forall_app; split; [by apply Hs|]; apply Forall_cons; split; [unfold addr_char; lia|]).
    by apply Hs.
  - unfold dotted. rewrite !length_app. cbn [length]. rewrite !length_app. cbn [length]. rewrite !length_app.
    cbn [length]. pose proof (byte_length a Ha). pose proof (byte_length b Hb).
    pose proof (byte_length c Hc). pose proof (byte_length d Hd). lia.
Qed.

(** What follows a token: nothing, or something that ends it *)
Definition after_token (rest : list Z) : Prop := match rest with [] => True | c :: _ => rte_isendoftoken c = true end.

Lemma token_of s rest : Forall addr_char s → after_token rest → fst (span rte_isendoftoken (s ++ rest)) = s.
Proof.
  intros Hs Hr. assert (Forall (λ c, rte_isendoftoken c = false) s) as Hs'.
  { eapply Forall_impl; [exact Hs|]. intros c Hc. unfold addr_char in Hc. unfold rte_isendoftoken.
    rewrite !orb_false_iff, !Z.eqb_neq. lia. }
  destruct rest as [|c rest]; [by rewrite app_nil_r, span_out|]. by rewrite span_at.
Qed.

Lemma strrchr_slash_at a b : Forall (λ c, c ≠ 47) b → strrchr_slash (a ++ 47 :: b) = Some (a, b).
Proof.
  intros Hb. unfold strrchr_slash. rewrite reverse_app, reverse_cons, <-app_assoc. cbn [app].
  rewrite span_at; [by rewrite !reverse_involutive| |done].
  apply Forall_reverse. eapply Forall_impl; [exact Hb|]. intros c Hc. by apply Z.eqb_neq.
Qed.

Lemma strtol_all_show n : 0 ≤ n < 2 ^ 63 → strtol_all (show n) = Some n.
Proof.
  intros Hn. unfold strtol_all. rewrite <-(app_nil_r (show n)), number_show by (done || lia).
  destruct (Z.ltb_spec n (- 2 ^ 63)); [lia|]. destruct (Z.ltb_spec (2 ^ 63 - 1) n); [lia|done].
Qed.

Lemma ipton4_slash a b c d s : byte a → byte b → byte c → byte d → inet_ipton4 (dotted a b c d ++ 47 :: s) = None.
Proof.
  intros Ha Hb Hc Hd. unfold inet_ipton4, dotted. repeat (rewrite <-app_assoc; cbn [app]).
  by rewrite ipton4_show, ipton4_dot, ipton4_show, ipton4_dot, ipton4_show, ipton4_dot, ipton4_show by (done || lia).
Qed.

Lemma strrchr_no_slash s : Forall (λ c, c ≠ 47) s → strrchr_slash s = None.
Proof.
  intros Hs. unfold strrchr_slash. rewrite span_out; [done|].
  apply Forall_reverse. eapply Forall_impl; [exact Hs|]. intros c Hc. by apply Z.eqb_neq.
Qed.

(** [_atoip] on a token of a suitable length *)
Lemma atoip_token tok rest network :
  tok ≠ [] → Forall addr_char tok → (length tok < 50)%nat → after_token rest →
  _atoip (tok ++ rest) network =
  ('(ip_str, prefixlen) ←
     (if network then
        '(ip_str, prefix) ← strrchr_slash tok;
        prefixlen ← strtol_all prefix;
        if (prefixlen <? 0) || (RTE_PREFIXMAX <? prefixlen) then None else Some (ip_str, prefixlen)
      else Some (tok, 0));
   ipv4 ← inet_ipton4 ip_str;
   if prefixlen <=? RTE_V4PREFIXMAX then Some (ipv4, prefixlen) else None).
Proof.
  intros Hne Ht Hl Hr. unfold _atoip. rewrite token_of by done.
  destruct (tok ++ rest) eqn:E; [by apply app_nil in E as [-> _]|]. cbn zeta. unfold INET6_ADDRSTRLEN.
  destruct (Z.leb_spec (46 + 4) (Z.of_nat (length tok))); [lia|done].
Qed.

Definition token (t : list Z) : Prop := t ≠ [] ∧ Forall addr_char t ∧ lt (length t) 50.

Lemma dotted_token a b c d : byte a → byte b → byte c → byte d → token (dotted a b c d).
Proof.
  intros Ha Hb Hc Hd. destruct (dotted_chars a b c d Ha Hb Hc Hd) as [Hf Hl]. split_and!; [| |lia].
  - unfold dotted. by destruct (show a).
  - eapply Forall_impl; [exact Hf|]. by intros ? [? _].
Qed.

Lemma prefixed_token a b c d n : byte a → byte b → byte c → byte d → 0 ≤ n < 2 ^ 63 →
  token (dotted a b c d ++ 47 :: show n).
Proof.
  intros Ha Hb Hc Hd Hn. destruct (dotted_token a b c d Ha Hb Hc Hd) as (H1 & H2 & _).
  destruct (dotted_chars a b c d Ha Hb Hc Hd) as [_ Hl]. split_and!.
  - by destruct (dotted a b c d).
  - apply Forall_app. split; [done|]. constructor; [unfold addr_char; lia|apply show_addr; lia].
  - rewrite length_app. cbn [length]. assert (le (length (show n)) 20); [|lia].
    apply dec_length. change (10 ^ Z.of_nat 20) with 100000000000000000000. lia.
Qed.

Lemma atoip_unasked a b c d n rest :
  byte a → byte b → byte c → byte d → 0 ≤ n < 2 ^ 63 → after_token rest →
  _atoip ((dotted a b c d ++ 47 :: show n) ++ rest) false = None.
Proof.
  intros Ha Hb Hc Hd Hn Hr. destruct (prefixed_token a b c d n Ha Hb Hc Hd Hn) as (H1 & H2 & H3).
  rewrite atoip_token by done. cbn [mbind option_bind]. by rewrite ipton4_slash.
Qed.

(** An IPv4 address in dotted form is read as its four bytes, and with a
    prefix length behind a slash if one is asked for: lengths up to 32 are
    accepted, others, a missing length or one that was not asked for are not. *)
Theorem atoip_roundtrip (a b c d n : Z) (rest : list Z) :
  byte a → byte b → byte c → byte d → 0 ≤ n < 2 ^ 63 → after_token rest →
  _atoip ((dotted a b c d ++ 47 :: show n) ++ rest) true =
    (if n <=? RTE_V4PREFIXMAX then Some ([a; b; c; d], n) else None) ∧
  _atoip (dotted a b c d ++ rest) false = Some ([a; b; c; d], 0) ∧
  _atoip (dotted a b c d ++ rest) true = None ∧
  _atoip ((dotted a b c d ++ 47 :: show n) ++ rest) false = None.
Proof.
  intros Ha Hb Hc Hd Hn Hr. destruct (dotted_token a b c d Ha Hb Hc Hd) as (H1 & H2 & H3).
  destruct (prefixed_token a b c d n Ha Hb Hc Hd Hn) as (H1' & H2' & H3').
  destruct (dotted_chars a b c d Ha Hb Hc Hd) as [Hf _].
  assert (Forall (λ x, x ≠ 47) (dotted a b c d)) as Hns by (eapply Forall_impl; [exact Hf|]; by intros ? [_ ?]).
  rewrite atoip_unasked, !atoip_token by done. cbn [mbind option_bind].
  rewrite strrchr_slash_at by (apply show_no; [lia|unfold digit_char; lia]).
  rewrite strrchr_no_slash, ipton4_dotted by done. cbn [mbind option_bind].
  rewrite strtol_all_show by done. cbn [mbind option_bind]. split_and!; try done.
  unfold RTE_PREFIXMAX, RTE_V4PREFIXMAX. destruct (Z.ltb_spec n 0); [lia|].
  destruct (Z.ltb_spec 128 n); cbn [orb]; [destruct (Z.leb_spec n 32); [lia|done]|].
  cbn [mbind option_bind]. by rewrite ipton4_dotted.
Qed.

Lemma atoip_roundtrip_witness :
  _atoip (str "192.168.1.10/24 # lab") true = Some ([192; 168; 1; 10], 24).
Proof.
  destruct (atoip_roundtrip 192 168 1 10 24 (str " # lab")) as (H & _); done.
Defined.
