(* ===== verification/Console.v ===== *)
(** * The console: from typed words to commands on ports

    The tables and handlers of [app/cli-functions.c]: a line's words are matched
    against the formats of its table, the port list is read, and the command is
    carried out on every port of the list ([foreach_port] of [app/pktgen.h]).
    A handler gives a list of steps, which are then run on the state of the
    program; the commands on one port are those of [Session].

    Not modelled: commands that only show or load something ([theme], [plugin],
    [dbg], [pcap filter], [geometry], [load], [script], [lua], [save], [help],
    [bonding show]); command history, environment variables and the CLI
    library's own commands.  Such lines give [Undef]. *)
From Stdlib Require Import Floats.SpecFloat Ascii String.
From S2P Require Import Prelude Mem PortInfo RandomBits Headers Pacing Commands Session Capture.
From S2P Require Import Strings PortList CliMap.

(** ** Results

    What the C code does not define, or the model leaves out, is [Undef]. *)
Inductive res (A : Type) := Ok (a : A) | Refused | Undef.
Arguments Ok {A} a.
Arguments Refused {A}.
Arguments Undef {A}.
#[global] Instance res_bind : MBind res := λ A B f r,
  match r with Ok a => f a | Refused => Refused | Undef => Undef end.
Definition defined_as {A} (o : option A) : res A := match o with Some a => Ok a | None => Undef end.

(** ** The environment

    What the commands ask of the system, and what local variables contain
    before they are assigned. *)
Class Env := {
  devs : list Z;                        (* RTE_ETH_FOREACH_DEV *)
  tap : Z → tap_env;
  bond_conf : Z → Z; bond_slaves : Z → option (list Z); bond_active : Z → option (list Z);
  hw_stats : Z → eth_stats_t;           (* rte_eth_stats_get *)
  rx_view : Z → l2p_view; socket_of : Z → Z;
  strtod : list Z → spec_float;
  timer_hz : Z;
  dev_random : option (list Z); xor_state : Z;
  paused : bool;                        (* scrn_is_paused *)
  junk_portlist : Z; junk_ip : pg_ipaddr; junk_mac : Z }.

Record console := mk_console {
  globals : pktgen_t;
  ports : Z → option port_info_t;       (* [None]: [info->seq_pkt] is [NULL] *)
  rnd : Z → rnd_bits_t; caps : Z → capture_t; ram : mem }.
#[global] Instance eta_console : Eta console := λ c,
  mk_console (globals c) (ports c) (rnd c) (caps c) (ram c).

(** ** Actions on one port *)

Inductive action :=
  | Do (c : command)
  | Random (idx offset : Z) (mask : list Z)
  | Blink (s : Z)
  | Set_capture (s : Z)
  | Reset
  | Null_pointer.

Definition put_world (pid : Z) (w : world) (c : console) : console :=
  c <| globals := g w |> <| ports ::= set_at pid (Some (info w)) |>.

(** [dst_info->seq_pkt] of [pktgen_port_defaults] *)
Definition peer_pkts (c : console) (pid : Z) : option (Z → pkt_seq_t) :=
  Info.seq_pkt <$> ports c (if Z.land pid 1 =? 0 then pid + 1 else pid - 1).

Definition run_action `{Env} (pid : Z) (a : action) (i : port_info_t) (c : console) : option console :=
  let w := mk_world (globals c) i in
  match a with
  | Do cmd => w ← run cmd w; Some (put_world pid w c)
  | Random idx offset mask =>
      let '(act, rb) := pktgen_set_random_bitfield (rnd c pid) (u8 idx) (u8 offset) (text mask) in
      let w := enable_random w (if act =? 0 then DISABLE_STATE else ENABLE_STATE) in
      Some (put_world pid w c <| rnd ::= set_at pid rb |>)
  | Blink s => Some (put_world pid (debug_blink w s) c)
  | Set_capture s =>
      let '(cs, m, i, _) := pktgen_set_capture (rx_view pid) socket_of (caps c) (ram c) i s in
      Some (put_world pid (mk_world (globals c) i) c <| caps := cs |> <| ram := m |>)
  | Reset =>
      '(w, (rb, _)) ← pktgen_reset (peer_pkts c pid) (hw_stats pid) dev_random xor_state w;
      Some (put_world pid w c <| rnd ::= set_at pid rb |>)
  | Null_pointer => None
  end.

Fixpoint run_actions `{Env} (pid : Z) (acts : list action) (c : console) : option console :=
  match acts with
  | [] => Some c
  | a :: acts =>
      i ← ports c pid;
      c ← run_action pid a i c;
      run_actions pid acts c
  end.

(** [acts] may depend on the port and on whether it is the first of the list. *)
Fixpoint foreach_dev `{Env} (ds : list Z) (pl : Z) (first : bool) (acts : bool → Z → list action)
    (c : console) : option console :=
  match ds with
  | [] => Some c
  | pid :: ds =>
      if negb (Z.testbit pl pid) then foreach_dev ds pl first acts c
      else
        match ports c pid with
        | None => foreach_dev ds pl first acts c
        | Some _ => c ← run_actions pid (acts first pid) c; foreach_dev ds pl false acts c
        end
  end.

(** ** Steps *)

Definition BLINK_PORTS_FLAG := Z.shiftl 1 10.

Inductive step :=
  | Each (pl : Z) (acts : bool → Z → list action)
  | On_globals (f : world → world)
  | On_page (s : string)
  | Pcap_index (v : Z).

(** [f] looks at no port. *)
Definition on_globals (f : world → world) (c : console) : console :=
  c <| globals := g (f (mk_world (globals c) Info.zero)) |>.

(** [pktgen_set_page] looks at the port [pktgen.portNum], set up or not. *)
Definition on_page `{Env} (s : string) (c : console) : console :=
  let n := Pg.portNum (globals c) in
  match ports c n with
  | Some i => put_world n (pktgen_set_page paused (mk_world (globals c) i) s) c
  | None => on_globals (λ w, pktgen_set_page paused w s) c
  end.

(** [pcap <index>] on the port [pktgen.portNum]: the file's packet count is read
    before the test whether there is a file. *)
Definition pcap_index (v : Z) (c : console) : option console :=
  let n := Pg.portNum (globals c) in
  i ← ports c n;
  p ← Info.pcap i;
  let max_cnt := Pcap.pkt_count p in
  let idx := if max_cnt <=? v then max_cnt - Z.min PCAP_PAGE_SIZE (swrap 32 max_cnt) else v in
  let w := mk_world (globals c) i in
  let w := upd_pcap (λ p, p <| Pcap.pkt_idx := u32 idx |>) w in
  Some (put_world n (g_set_flags PRINT_LABELS_FLAG w) c).

Definition run_step `{Env} (s : step) (c : console) : option console :=
  match s with
  | Each pl acts => foreach_dev devs pl true acts c
  | On_globals f => Some (on_globals f c)
  | On_page s => Some (on_page s c)
  | Pcap_index v => pcap_index v c
  end.

Fixpoint run_steps `{Env} (ss : list step) (c : console) : option console :=
  match ss with
  | [] => Some c
  | s :: ss => c ← run_step s c; run_steps ss c
  end.

(** The same commands for every port *)
Definition foreach_port (pl : Z) (cs : list command) : step := Each pl (λ _ _, Do <$> cs).
Definition update_display : step := On_globals pktgen_update_display.

(** ** Reading arguments *)

Definition line : Type := list (list Z).

(** A pointer behind the last word is [NULL], or left over from a longer line. *)
Definition arg (argv : line) (i : nat) : res (list Z) := defined_as (argv !! i).

(** Handlers ignore what [portlist_parse] returns. *)
Definition portlist_of `{Env} (s : list Z) : Z := snd (portlist_parse s junk_portlist).

Definition mapping (maps : list cli_map) (argv : line) : res cli_map :=
  m ← defined_as (cli_mapping maps argv);
  match m with Some m => Ok m | None => Refused end.

Definition valid_pkt_size (val : list Z) : Z :=
  let pkt_size := u16 (atoi val) in
  let pkt_size := if pkt_size <? MIN_PKT_SIZE + PG_ETHER_CRC_LEN
                  then MIN_PKT_SIZE + PG_ETHER_CRC_LEN else pkt_size in
  if MAX_PKT_SIZE + PG_ETHER_CRC_LEN <? pkt_size then MAX_PKT_SIZE + PG_ETHER_CRC_LEN else pkt_size.

Definition valid_gtpu_teid (val : list Z) : Z := u16 (atoi val).

Definition to_lower (c : Z) : Z := if (65 <=? c) && (c <=? 90) then c + 32 else c.
Definition estate (s : list Z) : Z :=
  let s := to_lower <$> s in
  if pg_strmatch s (str "on") || pg_strmatch s (str "enable") || pg_strmatch s (str "start")
  then ENABLE_STATE else DISABLE_STATE.

(** A MAC address as [inet_mtoh64] reads it; [pg_ether_aton(s, NULL)] may be [NULL]. *)
Definition mac_of (bytes : list Z) : Z := fold_left (λ a b, a * 256 + b) bytes 0.
Definition with_mac (f : Z → command) (s : list Z) : action :=
  match pg_ether_aton s with Some b => Do (f (mac_of b)) | None => Null_pointer end.
Definition mac_into `{Env} (s : list Z) : Z :=
  match pg_ether_aton s with Some b => mac_of b | None => junk_mac end.

Definition s_addr_of (bytes : list Z) : Z :=
  match bytes with
  | [a; b; c; d] => a + b * 2 ^ 8 + c * 2 ^ 16 + d * 2 ^ 24
  | _ => 0
  end.
(** [_atoip(s, flags, &ip, sizeof(ip))], the result ignored *)
Definition atoip (s : list Z) (network : bool) (ip : pg_ipaddr) : pg_ipaddr :=
  match _atoip s network with Some (b, n) => mk_ipaddr (s_addr_of b) n | None => ip end.
Definition upto_slash (s : list Z) : list Z := fst (span (λ c, c =? 47) s).
(** A source address: [snprintf(buf, 32, "%s/32", s)] when it has no prefix *)
Definition src_ip `{Env} (s : list Z) : pg_ipaddr :=
  if existsb (λ c, c =? 47) s then atoip s true junk_ip else atoip (take 31 (s ++ str "/32")) true junk_ip.
Definition dst_ip `{Env} (s : list Z) : pg_ipaddr := atoip (upto_slash s) false junk_ip.

(** ** range *)

Definition SMMI := "%|start|minimum|maximum|increment|min|max|inc".
Definition fmts (l : list (Z * string)) : list cli_map := (λ '(i, s), mk_map i (str s)) <$> l.
Infix "^^" := String.append (at level 60, right associativity).

Definition range_map : list cli_map := fmts
  [(20, "range %P dst mac " ^^ SMMI ^^ " %m"); (21, "range %P src mac " ^^ SMMI ^^ " %m");
   (22, "range %P dst mac %m %m %m %m"); (23, "range %P src mac %m %m %m %m");
   (30, "range %P dst ip " ^^ SMMI ^^ " %4"); (31, "range %P src ip " ^^ SMMI ^^ " %4");
   (32, "range %P dst ip %4 %4 %4 %4"); (33, "range %P src ip %4 %4 %4 %4");
   (40, "range %P proto %|tcp|udp");
   (50, "range %P dst port " ^^ SMMI ^^ " %d"); (51, "range %P src port " ^^ SMMI ^^ " %d");
   (52, "range %P dst port %d %d %d %d"); (53, "range %P src port %d %d %d %d");
   (55, "range %P ttl " ^^ SMMI ^^ " %b"); (56, "range %P ttl %b %b %b %b");
   (60, "range %P vlan " ^^ SMMI ^^ " %d"); (61, "range %P vlan %d %d %d %d");
   (70, "range %P size " ^^ SMMI ^^ " %d"); (71, "range %P size %d %d %d %d");
   (80, "range %P mpls entry %h"); (85, "range %P qinq index %d %d");
   (90, "range %P gre key %d"); (91, "range %P gre_key %d");
   (100, "range %P gtpu " ^^ SMMI ^^ " %d"); (101, "range %P gtpu %d %d %d %d");
   (160, "range %P cos " ^^ SMMI ^^ " %d"); (161, "range %P cos %d %d %d %d");
   (170, "range %P tos " ^^ SMMI ^^ " %d"); (171, "range %P tos %d %d %d %d")].

(** The command once, with the word and the value *)
Definition one {A} (f : string → A → command) (what : res (list Z)) (v : res A) : res (list command) :=
  what ← what; v ← v; Ok [f (text what) v].
(** or four times, the values being the arguments from [i] on, [read] for the
    first three and [read_inc] for the last *)
Definition four (f : string → Z → command) (read read_inc : list Z → Z) (argv : line) (i : nat)
    : res (list command) :=
  a ← arg argv i; b ← arg argv (i + 1); c ← arg argv (i + 2); d ← arg argv (i + 3);
  Ok [f "start" (read a); f "min" (read b); f "max" (read c); f "inc" (read_inc d)].
Definition four_macs (f : string → Z → command) (argv : line) : res (list action) :=
  a ← arg argv 4; b ← arg argv 5; c ← arg argv 6; d ← arg argv 7;
  Ok [with_mac (f "start") a; with_mac (f "min") b; with_mac (f "max") c; with_mac (f "inc") d].
(** The variable [ip] goes from one call, and one port, to the next. *)
Definition four_ips (f : string → pg_ipaddr → command) (argv : line) (ip : pg_ipaddr)
    : res (list action * pg_ipaddr) :=
  a ← arg argv 4; b ← arg argv 5; c ← arg argv 6; d ← arg argv 7;
  let ip1 := atoip a false ip in
  let ip2 := atoip b false ip1 in
  let ip3 := atoip c false ip2 in
  let ip4 := atoip d false ip3 in
  Ok ([Do (f "start" ip1); Do (f "min" ip2); Do (f "max" ip3); Do (f "inc" ip4)], ip4).

Definition val {A} (f : list Z → A) (argv : line) (i : nat) : res A := a ← arg argv i; Ok (f a).
Definition atoi_w (w : Z) (s : list Z) : Z := wrap w (atoi s).

Definition each (pl : Z) (cs : res (list command)) : res (list step) :=
  cs ← cs; Ok [foreach_port pl cs; update_display].
Definition each_mac (pl : Z) (acts : res (list action)) : res (list step) :=
  acts ← acts; Ok [Each pl (λ _ _, acts); update_display].
Definition each_ip `{Env} (pl : Z) (f : string → pg_ipaddr → command) (argv : line) : res (list step) :=
  '(first, ip) ← four_ips f argv junk_ip;
  '(rest, _) ← four_ips f argv ip;
  Ok [Each pl (λ b _, if b : bool then first else rest); update_display].

(** [strcmp("inc", what) ? valid(val) : atoi(val)] *)
Definition size_or_inc (valid : list Z → Z) (argv : line) : res Z :=
  what ← arg argv 3; v ← arg argv 4;
  Ok (if pg_strmatch what (str "inc") then atoi v else valid v).

Definition range_cmd `{Env} (argv : line) : res (list step) :=
  m ← mapping range_map argv;
  pl ← val portlist_of argv 1;
  let a := arg argv in
  match index m with
  | 20 => w ← a 4%nat; v ← a 5%nat; each_mac pl (Ok [with_mac (Range_dst_mac (text w)) v])
  | 21 => w ← a 4%nat; v ← a 5%nat; each_mac pl (Ok [with_mac (Range_src_mac (text w)) v])
  | 22 => each_mac pl (four_macs Range_dst_mac argv)
  | 23 => each_mac pl (four_macs Range_src_mac argv)
  | 30 => w ← a 4%nat; each pl (one Range_dst_ip (Ok (upto_slash w)) (val (λ v, atoip v false junk_ip) argv 5))
  | 31 => w ← a 4%nat; each pl (one Range_src_ip (Ok (upto_slash w)) (val (λ v, atoip v false junk_ip) argv 5))
  | 32 => each_ip pl Range_dst_ip argv
  | 33 => each_ip pl Range_src_ip argv
  | 40 => each pl (t ← a 3%nat; Ok [Range_set_proto (text t)])
  | 50 => each pl (one Range_dst_port (a 4%nat) (val (atoi_w 16) argv 5))
  | 51 => each pl (one Range_src_port (a 4%nat) (val (atoi_w 16) argv 5))
  | 52 => each pl (four Range_dst_port (atoi_w 16) (atoi_w 16) argv 4)
  | 53 => each pl (four Range_src_port (atoi_w 16) (atoi_w 16) argv 4)
  | 55 => each pl (one Range_ttl (a 3%nat) (val (atoi_w 8) argv 4))
  | 56 => each pl (four Range_ttl (atoi_w 8) (atoi_w 8) argv 3)
  | 60 => each pl (one Range_vlan (a 3%nat) (val (atoi_w 16) argv 4))
  | 61 => each pl (four Range_vlan (atoi_w 16) (atoi_w 16) argv 3)
  | 70 => each pl (one Range_size (a 3%nat) (v ← size_or_inc valid_pkt_size argv; Ok (u16 v)))
  | 71 => each pl (four Range_size valid_pkt_size (atoi_w 16) argv 3)
  | 80 => each pl (v ← a 4%nat; Ok [Set_mpls (u32 (fst (fst (strtoul 16 v))))])
  | 85 => each pl (x ← a 4%nat; y ← a 5%nat; Ok [Range_set_qinq (atoi_w 16 x) (atoi_w 16 y)])
  | 90 | 91 => each pl (v ← a 4%nat; Ok [Set_gre_key (u32 (fst (fst (strtoul 10 v))))])
  | 100 => each pl (one Range_teid (a 3%nat) (v ← size_or_inc valid_gtpu_teid argv; Ok (u32 v)))
  | 101 => each pl (four Range_teid valid_gtpu_teid (atoi_w 32) argv 3)
  | 160 => each pl (one Range_cos (a 3%nat) (val (atoi_w 8) argv 4))
  | 161 => each pl (four Range_cos (atoi_w 8) (atoi_w 8) argv 3)
  | 170 => each pl (one Range_tos (a 3%nat) (val (atoi_w 8) argv 4))
  | 171 => each pl (four Range_tos (atoi_w 8) (atoi_w 8) argv 3)
  | _ => Refused
  end.

(** ** set *)

Definition set_types :=
  "count|size|rate|burst|tx_cycles|sport|dport|prime|dump|vlan|vlanid|seq_cnt|seqCnt|seqcnt|ttl".
Definition set_map : list cli_map := fmts
  [(10, "set %P %|" ^^ set_types ^^ " %d"); (11, "set %P jitter %D");
   (20, "set %P type %|arp|ipv4|ipv6|ip4|ip6|vlan"); (21, "set %P proto %|udp|tcp|icmp");
   (22, "set %P src mac %m"); (23, "set %P dst mac %m");
   (24, "set %P pattern %|abc|none|user|zero"); (25, "set %P user pattern %s");
   (30, "set %P src ip %4"); (31, "set %P dst ip %4"); (40, "set ports_per_page %d");
   (50, "set %P qinqids %d %d"); (60, "set %P rnd %d %d %s"); (70, "set %P cos %d");
   (80, "set %P tos %d"); (90, "set %P vxlan %h %d %d")].

Definition first_char (s : list Z) : ascii := chr (text s) 0.

Definition set_number `{Env} (n : Z) (what v : list Z) : res (list command) :=
  let value := atoi_w 32 v in
  match n with
  | 0 => Ok [Set_tx_count value]
  | 1 => Ok [Set_pkt_size (valid_pkt_size v)]
  | 2 => Ok [Set_tx_rate (strtod v)]
  | 3 => Ok [Set_tx_burst value]
  | 4 => Ok [Set_tx_cycles value]
  | 5 | 6 => Ok [Set_port (first_char what) value]
  | 7 => Ok [Set_prime value]
  | 8 => Ok [Set_dump value]
  | 9 | 10 => Ok [Set_vlan_id (u16 value)]
  | 11 | 12 | 13 => Ok [Set_seq_cnt value]
  | 14 => Ok [Set_ttl (u8 value)]
  | _ => Refused
  end.

(** The characters of a mask that count, at most 32 *)
Definition mask_chars (m : list Z) : list Z :=
  take 32 (List.filter (λ c, mem_chr c (str "01.Xx")) m).

Definition set_cmd `{Env} (argv : line) : res (list step) :=
  m ← mapping set_map argv;
  pl ← val portlist_of argv 1;
  what ← arg argv 2;
  a3 ← arg argv 3;
  let a := arg argv in
  let num i := val (λ s, u16 (strtol0 s)) argv i in
  match index m with
  | 10 => each pl (set_number (cli_map_list_search (fmt m) what 2) what a3)
  | 11 => each pl (Ok [Set_jitter timer_hz (strtoul0 a3)])
  | 20 => each pl (Ok [Set_pkt_type (text a3)])
  | 21 => each pl (Ok [Set_proto (text a3)])
  | 22 => v ← a 4%nat; each_mac pl (Ok [with_mac (Set_mac "src") v])
  | 23 => v ← a 4%nat; each_mac pl (Ok [with_mac (Set_mac "dst") v])
  | 24 => each pl (Ok [Set_pattern (text a3)])
  | 25 => each pl (Ok [Set_user_pattern (text a3)])
  | 30 => v ← a 4%nat; each pl (Ok [Set_ipaddr "s" (src_ip v)])
  | 31 => v ← a 4%nat; each pl (Ok [Set_ipaddr "d" (dst_ip v)])
  | 40 => Ok [On_globals (λ w, pktgen_set_page_size paused w (atoi_w 32 what)); update_display]
  | 50 => x ← num 3%nat; y ← num 4%nat; each pl (Ok [Set_qinq x y])
  | 60 =>
      x ← num 3%nat; y ← num 4%nat; m ← a 5%nat;
      let mask := if pg_strmatch m (str "off") then [] else mask_chars m in
      each_mac pl (Ok [Random x y mask])
  | 70 => x ← num 3%nat; each pl (Ok [Set_cos (u8 x)])
  | 80 => x ← num 3%nat; each pl (Ok [Set_tos (u8 x)])
  | 90 =>
      x ← num 3%nat; y ← num 4%nat; z ← a 5%nat;
      each pl (Ok [Set_vxlan x y (u32 (strtol0 z))])
  | _ => Refused
  end.

(** ** start, stop *)

Definition start_map : list cli_map := fmts
  [(10, "start %P"); (20, "stop %P"); (40, "start %P prime");
   (50, "start %P arp %|request|gratuitous|req|grat")].

Definition start_stop_cmd `{Env} (argv : line) : res (list step) :=
  m ← mapping start_map argv;
  pl ← val portlist_of argv 1;
  match index m with
  | 10 => each pl (Ok [Start])
  | 20 => each pl (Ok [Stop])
  | 40 => each pl (Ok [Prime])
  | 50 =>
      t ← arg argv 3;
      each pl (Ok [Send_arp (if Ascii.eqb (first_char t) "g" then GRATUITOUS_ARP else 0)])
  | _ => Refused
  end.

(** ** enable, disable *)

Definition ed_type :=
  "process|mpls|qinq|gre|gre_eth|vlan|garp|random|latency|pcap|blink|rx_tap|tx_tap|icmp|range|capture|bonding|vxlan|rate".
Definition enable_map : list cli_map := fmts
  [(10, "enable %P %|" ^^ ed_type); (20, "disable %P %|" ^^ ed_type);
   (30, "enable %|screen|mac_from_arp"); (31, "disable %|screen|mac_from_arp")].

(** [pktgen.blinklist] decides whether the display blinks ports. *)
Definition set_blinking (w : world) : world :=
  if Pg.blinklist (g w) =? 0 then g_clr_flags BLINK_PORTS_FLAG w else g_set_flags BLINK_PORTS_FLAG w.

(** [pktgen_screen]: of the terminal only the flag of [pktgen_force_update] shows. *)
Definition pktgen_screen (state : Z) (w : world) : world :=
  if state =? DISABLE_STATE then w else g_set_flags UPDATE_DISPLAY_FLAG w.

Definition en_dis_cmd `{Env} (argv : line) : res (list step) :=
  m ← mapping enable_map argv;
  pl ← val portlist_of argv 1;
  a0 ← arg argv 0;
  let s := estate a0 in
  let do_ (f : Z → command) := each pl (Ok [f s]) in
  match index m with
  | 10 | 20 =>
      a2 ← arg argv 2;
      match cli_map_list_search (fmt m) a2 2 with
      | 0 => do_ Enable_process
      | 1 => do_ Enable_mpls
      | 2 => do_ Enable_qinq
      | 3 => do_ Enable_gre
      | 4 => do_ Enable_gre_eth
      | 5 => do_ Enable_vlan
      | 6 => do_ Enable_garp
      | 7 => do_ Enable_random
      | 8 => do_ Enable_latency
      | 9 => do_ Enable_pcap
      | 10 => Ok [Each pl (λ _ _, [Blink s]); On_globals set_blinking; update_display]
      | 11 => Ok [Each pl (λ _ pid, [Do (Enable_rx_tap (tap pid) s)]); update_display]
      | 12 => Ok [Each pl (λ _ pid, [Do (Enable_tx_tap (tap pid) s)]); update_display]
      | 13 => do_ Enable_icmp_echo
      | 14 => do_ Enable_range
      | 15 => each_mac pl (Ok [Set_capture s])
      | 16 => Ok [Each pl (λ _ pid,
                [Do (Enable_bonding (bond_conf pid) (bond_slaves pid) (bond_active pid) s)]); update_display]
      | 17 => do_ Enable_vxlan
      | 18 => do_ Enable_rate
      | _ => Refused
      end
  | 30 | 31 =>
      a1 ← arg argv 1;
      Ok [On_globals (λ w, if Ascii.eqb (first_char a1) "m" then enable_mac_from_arp w s
                           else pktgen_screen s w); update_display]
  | _ => Refused
  end.

(** ** sequence *)

Definition seq_map : list cli_map := fmts
  [(10, "%|seq|sequence %d %P %m %m %4 %4 %d %d %|ipv4|ipv6 %|udp|tcp|icmp %d %d");
   (11, "%|seq|sequence %d %P %m %m %4 %4 %d %d %|ipv4|ipv6 %|udp|tcp|icmp %d %d %d");
   (12, "%|seq|sequence %d %P dst %m src %m dst %4 src %4 sport %d dport %d %|ipv4|ipv6 %|udp|tcp|icmp vlan %d size %d");
   (13, "%|seq|sequence %d %P dst %m src %m dst %4 src %4 sport %d dport %d %|ipv4|ipv6 %|udp|tcp|icmp vlan %d size %d teid %d");
   (15, "%|seq|sequence %d %P cos %d tos %d"); (16, "%|seq|sequence %d %P vxlan %d gid %d vid %d");
   (17, "%|seq|sequence %d %P vxlan %h gid %d vid %d")].

(** The places of the values among the words of the two long forms *)
Record seq_form := mk_form {
  p_dmac : nat; p_smac : nat; p_dip : nat; p_sip : nat; p_sport : nat; p_dport : nat; p_eth : nat;
  p_proto : nat; p_vlan : nat; p_size : nat; p_argc : nat; p_teid : nat }.

(** [seqnum >= NUM_SEQ_PKTS] compares an [int]; the slot is a [uint32_t]. *)
Definition seq_slot (argv : line) : res Z :=
  n ← val atoi argv 1; if NUM_SEQ_PKTS <=? n then Refused else Ok (u32 n).

Definition seq_form_cmd `{Env} (f : seq_form) (argv : line) : res (list step) :=
  let a := arg argv in
  proto ← a (p_proto f); eth ← a (p_eth f);
  let proto := first_char proto in
  let eth := chr (text eth) 3 in
  if Ascii.eqb proto "i" && Ascii.eqb eth "6" then Refused
  else
    n ← seq_slot argv;
    teid ← (if (length argv =? p_argc f)%nat
            then val (λ s, u32 (fst (fst (strtoul 10 s)))) argv (p_teid f) else Ok 0);
    dst ← val dst_ip argv (p_dip f);
    src ← val src_ip argv (p_sip f);
    pl ← val portlist_of argv 2;
    dmac ← val mac_into argv (p_dmac f);
    smac ← val mac_into argv (p_smac f);
    sport ← val (atoi_w 32) argv (p_sport f);
    dport ← val (atoi_w 32) argv (p_dport f);
    vlan ← val (atoi_w 16) argv (p_vlan f);
    size ← val (atoi_w 32) argv (p_size f);
    each pl (Ok [Seq n dmac smac dst src sport dport eth proto vlan size teid]).

Definition seq_1_set_cmd `{Env} : line → res (list step) :=
  seq_form_cmd (mk_form 3 4 5 6 7 8 9 10 11 12 14 13).
Definition seq_2_set_cmd `{Env} : line → res (list step) :=
  seq_form_cmd (mk_form 4 6 8 10 12 14 15 16 18 20 23 22).

Definition seq_3_set_cmd `{Env} (argv : line) : res (list step) :=
  n ← seq_slot argv;
  cos ← val (λ s, u32 (fst (fst (strtoul 10 s)))) argv 4;
  tos ← val (λ s, u32 (fst (fst (strtoul 10 s)))) argv 6;
  pl ← val portlist_of argv 2;
  each pl (Ok [Seq_cos_tos n cos tos]).

Definition seq_4_set_cmd `{Env} (argv : line) : res (list step) :=
  n ← seq_slot argv;
  flag ← val (λ s, u32 (strtoul0 s)) argv 4;
  gid ← val (λ s, u32 (fst (fst (strtoul 10 s)))) argv 6;
  vid ← val (λ s, u32 (fst (fst (strtoul 10 s)))) argv 8;
  pl ← val portlist_of argv 2;
  each pl (Ok [Seq_vxlan n flag gid vid]).

(** What the forms return is not looked at. *)
Definition ignore_status (r : res (list step)) : res (list step) :=
  match r with Refused => Ok [] | _ => r end.

Definition seq_cmd `{Env} (argv : line) : res (list step) :=
  m ← mapping seq_map argv;
  match index m with
  | 10 | 11 => ignore_status (seq_1_set_cmd argv)
  | 12 | 13 => ignore_status (seq_2_set_cmd argv)
  | 15 => ignore_status (seq_3_set_cmd argv)
  | 16 | 17 => ignore_status (seq_4_set_cmd argv)
  | _ => Refused
  end.

(** ** rate *)

Definition rate_map : list cli_map := fmts
  [(10, "rate %P %|count|size|burst|sport|dport|ttl %d");
   (20, "rate %P type %|arp|ipv4|ipv6|ip4|ip6|vlan"); (21, "rate %P proto %|udp|tcp|icmp");
   (22, "rate %P src mac %m"); (23, "rate %P dst mac %m"); (30, "rate %P src ip %4");
   (31, "rate %P dst ip %4"); (40, "rate %P fps %d"); (45, "rate %P lines %d");
   (46, "rate %P pixels %d"); (50, "rate %P color bits %d"); (60, "rate %P payload size %d");
   (70, "rate %P overhead %d")].

Definition rate_number (n : Z) (what v : list Z) : res (list command) :=
  let value := atoi_w 32 v in
  match n with
  | 0 => Ok [Set_tx_count value]
  | 1 => Ok [Rate_set_pkt_size (valid_pkt_size v)]
  | 2 => Ok [Set_tx_burst value]
  | 3 | 4 => Ok [Rate_set_port (first_char what) value]
  | 5 => Ok [Rate_set_ttl (u8 value)]
  | _ => Refused
  end.

Definition rate_cmd `{Env} (argv : line) : res (list step) :=
  m ← mapping rate_map argv;
  pl ← val portlist_of argv 1;
  what ← arg argv 2;
  a3 ← arg argv 3;
  let a := arg argv in
  let set_value name v := each pl (Ok [Rate_value name (atoi_w 32 v)]) in
  match index m with
  | 10 => each pl (rate_number (cli_map_list_search (fmt m) what 2) what a3)
  | 20 => each pl (Ok [Rate_set_pkt_type (text a3)])
  | 21 => each pl (Ok [Rate_set_proto (text a3)])
  | 22 => v ← a 4%nat; each_mac pl (Ok [with_mac Rate_set_src_mac v])
  | 23 => v ← a 4%nat; each_mac pl (Ok [with_mac Rate_set_dst_mac v])
  | 24 => each pl (Ok [Set_pattern (text a3)])
  | 30 => v ← a 4%nat; each pl (Ok [Rate_set_ipaddr "s" (src_ip v)])
  | 31 => v ← a 4%nat; each pl (Ok [Rate_set_ipaddr "d" (dst_ip v)])
  | 40 => set_value "fps"%string a3
  | 45 => set_value "lines"%string a3
  | 46 => set_value "pixels"%string a3
  | 50 => set_value "color"%string a3
  | 60 => set_value "overhead"%string a3
  | 70 => set_value "mbps"%string a3
  | 80 => v ← a 4%nat; set_value "frame"%string v
  | 90 => v ← a 4%nat; set_value "payload"%string v
  | _ => Refused
  end.

(** ** page and the rest *)

Definition page_map : list cli_map := fmts
  [(10, "page %d");
   (11, "page %|main|range|config|cfg|pcap|cpu|next|sequence|seq|rnd|log|latency|stats|xstats|rate|rate-pacing")].

Definition page_cmd `{Env} (argv : line) : res (list step) :=
  m ← mapping page_map argv;
  match index m with
  | 10 | 11 => a1 ← arg argv 1; Ok [On_page (text a1)]
  | _ => Refused
  end.

Definition pcap_map : list cli_map := fmts
  [(10, "pcap %D"); (20, "pcap show"); (30, "pcap filter %P %s")].

(** Showing the file is not modelled; compiling a filter is the PCAP library's. *)
Definition pcap_cmd `{Env} (argv : line) : res (list step) :=
  m ← mapping pcap_map argv;
  match index m with
  | 10 => v ← val (λ s, u32 (fst (fst (strtoul 10 s)))) argv 1; Ok [Pcap_index v; update_display]
  | 20 => Ok [update_display]
  | 30 => Undef
  | _ => Refused
  end.

Definition misc_map : list cli_map := fmts
  [(10, "clear %P stats"); (20, "geometry %s"); (21, "geometry"); (30, "load %s");
   (40, "script %l"); (50, "lua %l"); (60, "save %s"); (70, "redisplay"); (100, "reset %P");
   (110, "restart"); (130, "port %d"); (135, "ports per page %d"); (140, "ping4 %P")].

Definition clear_display `{Env} : step := On_globals (pktgen_clear_display paused).
(** [pktgen_force_update]; drawing the page is not modelled. *)
Definition force_update : step := On_globals (g_set_flags UPDATE_DISPLAY_FLAG).

Definition misc_cmd `{Env} (argv : line) : res (list step) :=
  m ← mapping misc_map argv;
  match index m with
  | 10 =>
      pl ← val portlist_of argv 1;
      Ok [Each pl (λ _ pid, [Do (Clear_stats (hw_stats pid))]); clear_display]
  | 20 | 21 | 30 | 40 | 50 | 60 => Undef
  | 70 => Ok [clear_display]
  | 100 => pl ← val portlist_of argv 1; Ok [Each pl (λ _ _, [Reset])]
  | 110 => pl ← val portlist_of argv 1; Ok [foreach_port pl [Port_restart]]
  | 120 | 130 =>
      n ← val (atoi_w 16) argv 1; Ok [On_globals (λ w, pktgen_set_port_number paused w n)]
  | 140 => pl ← val portlist_of argv 1; Ok [foreach_port pl [Ping4]; force_update]
  | _ => Refused
  end.

(** ** Executing a line *)

(** [default_tree]: the commands modelled here, and the aliases *)
Definition command_table `{Env} : list (list Z * (line → res (list step))) :=
  (λ '(name, f), (str name, f)) <$>
  [("clear", misc_cmd); ("geometry", misc_cmd); ("load", misc_cmd);
   ("lua", misc_cmd); ("save", misc_cmd); ("redisplay", misc_cmd); ("reset", misc_cmd);
   ("restart", misc_cmd); ("port", misc_cmd); ("ping4", misc_cmd); ("sequence", seq_cmd);
   ("page", page_cmd); ("range", range_cmd); ("enable", en_dis_cmd); ("disable", en_dis_cmd);
   ("start", start_stop_cmd); ("stop", start_stop_cmd); ("pcap", pcap_cmd); ("set", set_cmd); ("rate", rate_cmd)]%string.

Definition alias_table : list (list Z * list Z) :=
  (λ '(name, s), (str name, str s)) <$>
  [("clr", "clear all stats"); ("geom", "geometry"); ("cls", "redisplay"); ("rst", "reset all");
   ("seq", "sequence"); ("str", "start all"); ("stp", "stop all"); ("on", "enable screen");
   ("off", "disable screen")]%string.

(** Entries of pktgen's and of the CLI library's directories that are not modelled;
    [script] is the library's, whose directory is searched first.  A name may also
    be a path. *)
Definition other_commands : list (list Z) :=
  str <$>
  ["help"; "theme"; "ping6"; "dbg"; "plugin"; "bonding"; "copyright"; "dpdk-version"; "delay"; "sleep"; "chelp";
   "mkdir"; "rm"; "ls"; "cd"; "pwd"; "screen.clear"; "quit"; "history"; "more"; "sizes"; "cmap";
   "hugepages"; "path"; "env"; "script"; "echo"; "version"; "sbin"; "pktgen"]%string.
Definition is_other (name : list Z) : bool :=
  existsb (pg_strmatch (pg_strtrim name)) other_commands || existsb (λ c, (c =? 47) || (c =? 46)) name.

Fixpoint assoc {A} (name : list Z) (t : list (list Z * A)) : option A :=
  match t with
  | [] => None
  | (n, a) :: t => if pg_strmatch n name then Some a else assoc name t
  end.

(** [cli_execute] on the text of the line editor.  An alias is put in the place of
    the first characters of the text, as many as its name has. *)
Fixpoint cli_execute `{Env} (fuel : nat) (buf : list Z) : res (list step) :=
  match fuel with
  | O => Undef
  | S fuel =>
      let p := pg_strtrim buf in
      match p with
      | [] => Ok []
      | c :: _ =>
          if c =? 35 then Ok []
          else if (c =? 33) || (c =? 64) || existsb (λ d, d =? 36) p then Undef
          else
            argv ← defined_as (pg_strqtok p (str " " ++ [13; 10]) CLI_MAX_ARGVS);
            match argv with
            | [] => Ok []
            | name :: _ =>
                match assoc name alias_table with
                | Some a => cli_execute fuel (a ++ drop (length name) buf)
                | None =>
                    match assoc name command_table with
                    | Some f => f argv
                    | None => if is_other name then Undef else Refused
                    end
                end
            end
      end
  end.

(** No alias stands for another. *)
Definition run_line `{Env} (buf : list Z) (c : console) : res console :=
  ss ← cli_execute 2 buf; defined_as (run_steps ss c).

(** What is refused leaves the program as it was. *)
Fixpoint run_lines `{Env} (ls : list (list Z)) (c : console) : res console :=
  match ls with
  | [] => Ok c
  | l :: ls =>
      match run_line l c with
      | Ok c => run_lines ls c
      | Refused => run_lines ls c
      | Undef => Undef
      end
  end.
