(* ===== verification/ConsoleFacts.v ===== *)
(** * What typed lines do

    Whatever is typed, the ports keep the invariant of [Session]; a command on a
    port list reaches exactly the ports of the list; a line that was written
    down word by word is read back; and the lines whose handlers look at the
    wrong word. *)
From Stdlib Require Import Floats.SpecFloat Ascii String.
From S2P Require Import Prelude Mem PortInfo RandomBits Headers Pacing Commands Session Capture.
From S2P Require Import Strings PortList CliMap Console.

(** ** The invariant of the ports *)

Definition ports_ok (c : console) : Prop := ∀ pid i, ports c pid = Some i → port_ok i.

Definition act_ok (a : action) : Prop := match a with Do cmd => cmd_ok cmd | _ => True end.
Definition step_ok (s : step) : Prop :=
  match s with Each _ acts => ∀ b pid, Forall act_ok (acts b pid) | _ => True end.

(** Where a PCAP file is shown from is no matter of the invariant. *)
Lemma ok_upd_pcap f w :
  (∀ x, Pcap.pkt_size (f x) = Pcap.pkt_size x ∧ Pcap.pkt_count (f x) = Pcap.pkt_count x) →
  ok w → ok (upd_pcap f w).
Proof.
  intros Hf [[F1 F2 F3 F4] H2 H3 H4 H5 H6 H7]. split; try done.
  - split; try done. intros T. destruct (F3 T) as (x & E & N).
    change (∃ p, f <$> Info.pcap (info w) = Some p ∧ Pcap.pkt_count p ≠ 0).
    rewrite E. exists (f x). split; [done|]. by destruct (Hf x) as [_ ->].
  - intros x E. change (f <$> Info.pcap (info w) = Some x) in E.
    destruct (Info.pcap (info w)) as [y|] eqn:Ey; [|done]. cbn in E. injection E as <-.
    unfold pcap_ok. destruct (Hf y) as [-> _]. by apply H2.
Qed.

Lemma ok_set_page p w s : ok w → ok (pktgen_set_page p w s).
Proof.
  intros H. unfold pktgen_set_page, pktgen_clear_display, pktgen_update_display. cbn zeta.
  pose proof ok_upd_pcap as Hp.
  destruct (_ && _); [done|].
  assert (∀ w, ok w → ok (if p then w else g_set_flags UPDATE_DISPLAY_FLAG (g_set_flags PRINT_LABELS_FLAG w))) as Hd
    by (intros w1 H1; destruct p; done).
  apply Hd. destruct (String.eqb s "next").
  - apply ok_upd_g, Hp; [|done]. intros x. by destruct (_ <? _).
  - destruct (page_flag_of s) as [f|].
    + destruct (f =? PCAP_PAGE_FLAG); [|done]. by apply Hp.
    + unfold main_page. cbn zeta. by repeat case_match.
Qed.

Lemma ok_range_setup w : ok w → ok (pktgen_range_setup w).
Proof. exact (run_ok Range_setup w _ I eq_refl). Qed.
Lemma ok_rate_setup w w' : pktgen_rate_setup w = Some w' → ok w → ok w'.
Proof. exact (run_ok Rate_setup w w' I). Qed.
Lemma ok_clear_stats hw w : ok w → ok (pktgen_clear_stats hw w).
Proof. exact (run_ok (Clear_stats hw) w _ I eq_refl). Qed.
Lemma ok_no_range w w' : enable_range w DISABLE_STATE = Some w' → ok w → ok w'.
Proof. exact (run_ok (Enable_range DISABLE_STATE) w w' I). Qed.
Lemma ok_no_rate w w' : enable_rate w DISABLE_STATE = Some w' → ok w → ok w'.
Proof. exact (run_ok (Enable_rate DISABLE_STATE) w w' I). Qed.
Lemma ok_no_seq w : ok w → ok (pktgen_set_port_seqCnt w 0).
Proof. exact (run_ok (Set_seq_cnt 0) w _ (Z.le_refl 0) eq_refl). Qed.
Lemma ok_defaults_upto peer n : ∀ s w, ok w → ok (defaults_upto n s peer w).
Proof. induction n as [|n IH]; intros s w H; cbn [defaults_upto]; [done|]. by apply IH, ok_defaults. Qed.
(** What [pktgen_reset] does first *)
Definition stopped (w : world) : world :=
  upd_pkt RATE_PKT (λ p, p <| Pkt.pktSize := MIN_PKT_SIZE |>)
    (upd_pkt SINGLE_PKT (λ p, p <| Pkt.pktSize := MIN_PKT_SIZE |>)
      (g_clr_flags MAC_FROM_ARP_FLAG (pktgen_stop_transmitting w))).
Lemma ok_stopped w : ok w → ok (stopped w).
Proof. intros H. unfold stopped, pktgen_stop_transmitting. port_auto. Qed.

(** The shape of [pktgen_reset], its parts left open *)
Definition reset_chain {R} (f0 defs range : world → world) (rate : world → option world)
    (clear : world → world) (no_range no_rate : world → option world) (seq : world → world) (r : R)
    (w : world) : option (world * R) :=
  let w := range (defs (f0 w)) in
  w ← rate w;
  let w := clear w in
  w ← no_range w;
  w ← no_rate w;
  Some (pktgen_update_display (seq w), r).

Lemma ok_update_display w : ok w → ok (pktgen_update_display w).
Proof. exact id. Qed.

Lemma ok_reset_chain {R} f0 defs range rate clear no_range no_rate seq (r r' : R) w w' :
  (∀ w, ok w → ok (f0 w)) → (∀ w, ok w → ok (defs w)) → (∀ w, ok w → ok (range w)) →
  (∀ w w', rate w = Some w' → ok w → ok w') → (∀ w, ok w → ok (clear w)) →
  (∀ w w', no_range w = Some w' → ok w → ok w') → (∀ w w', no_rate w = Some w' → ok w → ok w') →
  (∀ w, ok w → ok (seq w)) →
  reset_chain f0 defs range rate clear no_range no_rate seq r w = Some (w', r') → ok w → ok w'.
Proof.
  intros H1 H2 H3 H4 H5 H6 H7 H8 E H. unfold reset_chain in E.
  destruct (rate _) as [w1|] eqn:E1; [|done]. cbn [mbind option_bind] in E.
  destruct (no_range _) as [w2|] eqn:E2; [|done]. cbn [mbind option_bind] in E.
  destruct (no_rate _) as [w3|] eqn:E3; [|done]. cbn [mbind option_bind] in E.
  injection E as <- _. apply ok_update_display, H8, (H7 _ _ E3), (H6 _ _ E2), H5, (H4 _ _ E1). by apply H3, H2, H1.
Qed.

Lemma reset_eq peer hw dr x w :
  pktgen_reset peer hw dr x w =
  reset_chain stopped (defaults_upto (Z.to_nat NUM_TOTAL_PKTS) 0 peer) pktgen_range_setup
    pktgen_rate_setup (pktgen_clear_stats hw) (λ w, enable_range w DISABLE_STATE)
    (λ w, enable_rate w DISABLE_STATE) (λ w, pktgen_set_port_seqCnt w 0)
    (pktgen_rnd_bits_init dr x) w.
Proof. unfold pktgen_reset, reset_chain, stopped. cbn zeta beta. reflexivity. Qed.

Lemma ok_reset peer hw dr x w w' r : pktgen_reset peer hw dr x w = Some (w', r) → ok w → ok w'.
Proof.
  rewrite reset_eq. apply ok_reset_chain;
    [exact ok_stopped|exact (ok_defaults_upto peer _ 0)|exact ok_range_setup|exact ok_rate_setup
    |exact (ok_clear_stats hw)|exact ok_no_range|exact ok_no_rate|exact ok_no_seq].
Qed.

Lemma ok_capture v sk cs m i s : port_ok i →
  port_ok (snd (fst (pktgen_set_capture v sk cs m i s))).
Proof.
  intros H. set (w := mk_world (Pg.mk 0 0 0 0 0 0 0 0 0 (λ _, 0) Eth.zero 0 0) i).
  assert (ok w) as Hw by done. unfold pktgen_set_capture, capture_on, capture_off.
  repeat (case_match; simplify_eq; try done); cbn [fst snd].
  1: apply (ok_set_flags CAPTURE_PKTS w eq_refl Hw).
  all: apply (ok_clr_flags CAPTURE_PKTS w eq_refl Hw).
Qed.

Section Env.
Context `{Env}.

Lemma put_world_ok pid w c : ports_ok c → ok w → ports_ok (put_world pid w c).
Proof.
  intros Hc Hw p i E. change (set_at pid (Some (info w)) (ports c) p = Some i) in E.
  unfold set_at in E. destruct (p =? pid); [by injection E as <-|by eapply Hc].
Qed.

Lemma set_rnd_ok f c : ports_ok c → ports_ok (c <| rnd ::= f |>).
Proof. exact id. Qed.
Lemma set_caps_ok cs m c : ports_ok c → ports_ok (c <| caps := cs |> <| ram := m |>).
Proof. exact id. Qed.
Lemma ok_debug_blink w s : ok w → ok (debug_blink w s).
Proof. unfold debug_blink. cbn zeta. by destruct (s =? ENABLE_STATE). Qed.

Lemma run_random_ok pid idx off mask i c c' :
  port_ok i → ports_ok c → run_action pid (Random idx off mask) i c = Some c' → ports_ok c'.
Proof.
  intros Hi Hc. cbn [run_action]. cbn zeta. destruct (pktgen_set_random_bitfield _ _ _ _) as [act rb].
  generalize (if act =? 0 then DISABLE_STATE else ENABLE_STATE); intros s E.
  assert (ok (enable_random (mk_world (globals c) i) s)) as Hw
    by exact (run_ok (Enable_random s) (mk_world (globals c) i) _ I eq_refl Hi).
  revert Hw E. generalize (enable_random (mk_world (globals c) i) s). intros w Hw [= <-].
  by apply set_rnd_ok, put_world_ok.
Qed.

Lemma run_reset_ok pid i c c' :
  port_ok i → ports_ok c → run_action pid Reset i c = Some c' → ports_ok c'.
Proof.
  intros Hi Hc. cbn [run_action]. cbn zeta.
  destruct (pktgen_reset _ _ _ _ _) as [[w [rb x]]|] eqn:Er; [|done]. intros [= <-].
  apply set_rnd_ok, put_world_ok; [done|]. by apply ok_reset in Er.
Qed.

Lemma run_capture_ok pid s i c c' :
  port_ok i → ports_ok c → run_action pid (Set_capture s) i c = Some c' → ports_ok c'.
Proof.
  intros Hi Hc. cbn [run_action]. cbn zeta.
  pose proof (ok_capture (rx_view pid) socket_of (caps c) (ram c) i s Hi) as Ho.
  destruct (pktgen_set_capture _ _ _ _ _ _) as [[[cs m] i'] f]. intros [= <-].
  by apply set_caps_ok, put_world_ok.
Qed.

Lemma run_action_ok pid a i c c' :
  act_ok a → port_ok i → ports_ok c → run_action pid a i c = Some c' → ports_ok c'.
Proof.
  intros Ha Hi Hc E. destruct a as [cmd|idx off mask|s|s| |].
  - cbn [run_action] in E. cbn zeta in E. destruct (run cmd _) as [w|] eqn:Er; [|done].
    injection E as <-. apply put_world_ok; [done|]. by apply run_ok in Er.
  - by eapply run_random_ok.
  - cbn [run_action] in E. cbn zeta in E. injection E as <-. apply put_world_ok; [done|]. by apply ok_debug_blink.
  - by eapply run_capture_ok.
  - by eapply run_reset_ok.
  - done.
Qed.

Lemma run_actions_ok pid acts : ∀ c c',
  Forall act_ok acts → ports_ok c → run_actions pid acts c = Some c' → ports_ok c'.
Proof.
  induction acts as [|a acts IH]; intros c c' Ha Hc E; cbn [run_actions] in E; [by injection E as <-|].
  inversion Ha; subst. destruct (ports c pid) as [i|] eqn:Ei; [|done]. cbn [mbind option_bind] in E.
  destruct (run_action pid a i c) as [c1|] eqn:E1; [|done]. cbn [mbind option_bind] in E.
  eapply IH; [done| |exact E]. eapply run_action_ok; [..|exact E1]; [done|by eapply Hc|done].
Qed.

Lemma foreach_ok ds pl acts : ∀ b c c', (∀ b pid, Forall act_ok (acts b pid)) →
  ports_ok c → foreach_dev ds pl b acts c = Some c' → ports_ok c'.
Proof.
  induction ds as [|pid ds IH]; intros b c c' Ha Hc E; cbn [foreach_dev] in E; [by injection E as <-|].
  destruct (negb _); [by eapply IH|]. destruct (ports c pid); [|by eapply IH].
  destruct (run_actions _ _ c) as [c1|] eqn:E1; [|done]. cbn [mbind option_bind] in E.
  eapply IH; [done| |exact E]. by eapply run_actions_ok.
Qed.

Lemma pcap_index_ok v c c' : ports_ok c → pcap_index v c = Some c' → ports_ok c'.
Proof.
  intros Hc. unfold pcap_index. cbn zeta. destruct (ports c _) as [i|] eqn:Ei; [|done].
  cbn [mbind option_bind]. destruct (Info.pcap i) as [p|]; [|done]. cbn [mbind option_bind]. intros [= <-].
  apply put_world_ok; [done|]. apply (ok_upd_pcap _ (mk_world (globals c) i)); [done|]. by eapply Hc.
Qed.

Lemma run_steps_ok ss : ∀ c c', Forall step_ok ss → ports_ok c → run_steps ss c = Some c' → ports_ok c'.
Proof.
  induction ss as [|s ss IH]; intros c c' Hs Hc E; cbn [run_steps] in E; [by injection E as <-|].
  inversion Hs as [|? ? H1 H2]; subst. destruct (run_step s c) as [c1|] eqn:E1; [|done].
  cbn [mbind option_bind] in E. eapply IH; [done| |exact E].
  destruct s as [pl acts|f|s|v]; cbn [run_step] in E1.
  - by eapply foreach_ok.
  - injection E1 as <-. exact Hc.
  - injection E1 as <-. unfold on_page. destruct (ports c _) as [i|] eqn:Ei; [|exact Hc].
    apply put_world_ok; [done|]. apply ok_set_page. by eapply Hc.
  - by eapply pcap_index_ok.
Qed.

(** *** Handlers give such steps *)

Definition all {A} (P : A → Prop) (r : res A) : Prop := ∀ a, r = Ok a → P a.

Lemma all_ok {A} (P : A → Prop) a : P a → all P (Ok a).
Proof. by intros Ha b [= <-]. Qed.
Lemma all_refused {A} (P : A → Prop) : all P Refused.
Proof. done. Qed.
Lemma all_undef {A} (P : A → Prop) : all P Undef.
Proof. done. Qed.
Lemma all_bind {A B} (P : B → Prop) (m : res A) (f : A → res B) : (∀ a, all P (f a)) → all P (m ≫= f).
Proof. intros Hf b E. destruct m as [a| |]; try done. by apply (Hf a). Qed.
Lemma all_bind' {A B} (Q : A → Prop) (P : B → Prop) (m : res A) (f : A → res B) :
  all Q m → (∀ a, Q a → all P (f a)) → all P (m ≫= f).
Proof. intros Hm Hf b E. destruct m as [a| |]; try done. by apply (Hf a); [apply Hm|]. Qed.

Lemma two_steps pl acts : (∀ b pid, Forall act_ok (acts b pid)) → Forall step_ok [Each pl acts; update_display].
Proof. intros Ha. constructor; [exact Ha|]. by constructor. Qed.

Lemma all_each pl cs : all (Forall cmd_ok) cs → all (Forall step_ok) (each pl cs).
Proof.
  intros Hcs. unfold each. eapply all_bind'; [exact Hcs|]. intros l Hl. apply all_ok.
  apply two_steps. intros _ _. by apply Forall_fmap.
Qed.
Lemma all_each_mac pl acts : all (Forall act_ok) acts → all (Forall step_ok) (each_mac pl acts).
Proof. intros Ha. unfold each_mac. eapply all_bind'; [exact Ha|]. intros l Hl. by apply all_ok, two_steps. Qed.

Lemma with_mac_ok f s : (∀ m, cmd_ok (f m)) → act_ok (with_mac f s).
Proof. intros Hf. unfold with_mac. destruct (pg_ether_aton s); [apply Hf|exact I]. Qed.

Lemma atoi_w_nonneg w s : 0 ≤ w → 0 ≤ atoi_w w s.
Proof. intros Hw. apply (wrap_in_word w (atoi s) Hw). Qed.
End Env.

(** One step of a proof that a handler gives such steps *)
Ltac handler_step :=
  match goal with
  | |- all _ Refused => apply all_refused
  | |- all _ Undef => apply all_undef
  | |- all _ (each _ _) => apply all_each
  | |- all _ (each_mac _ _) => apply all_each_mac
  | |- all _ (mbind _ _) => apply all_bind; intros ?
  | |- all _ (Ok _) => apply all_ok
  | |- all _ (match ?x with _ => _ end) => destruct x
  | |- Forall _ [] => constructor
  | |- Forall _ (_ :: _) => constructor
  | |- act_ok (with_mac _ _) => apply with_mac_ok; intros ?
  | |- step_ok (foreach_port _ _) => intros ? ?
  | |- Forall _ (_ <$> [_]) => constructor
  | |- step_ok (Each _ _) => intros ? ?; cbv beta
  | |- step_ok clear_display => exact I
  | |- cmd_ok (_ (atoi_w _ _)) => first [exact I|by apply atoi_w_nonneg]
  | |- cmd_ok _ => exact I
  | |- act_ok _ => exact I
  | |- step_ok _ => exact I
  end.
Ltac handler_auto := repeat handler_step.

Section Handlers.
Context `{Env}.

Lemma all_one {A} (f : string → A → command) what v :
  (∀ s x, cmd_ok (f s x)) → all (Forall cmd_ok) (one f what v).
Proof. intros Hf. unfold one. handler_auto; apply Hf. Qed.
Lemma all_four f r ri argv i : (∀ s x, cmd_ok (f s x)) → all (Forall cmd_ok) (four f r ri argv i).
Proof. intros Hf. unfold four. handler_auto; apply Hf. Qed.
Lemma all_four_macs f argv : (∀ s x, cmd_ok (f s x)) → all (Forall act_ok) (four_macs f argv).
Proof. intros Hf. unfold four_macs. handler_auto; apply Hf. Qed.
Lemma all_each_ip pl f argv : (∀ s x, cmd_ok (f s x)) → all (Forall step_ok) (each_ip pl f argv).
Proof.
  intros Hf. assert (∀ ip, all (λ p, Forall act_ok (fst p)) (four_ips f argv ip)) as H4.
  { intros ip. unfold four_ips. handler_auto. cbn [fst]. repeat constructor; apply Hf. }
  unfold each_ip. eapply all_bind'; [apply H4|]. intros [l1 ip1] H1. eapply all_bind'; [apply H4|].
  intros [l2 ip2] H2. apply all_ok, two_steps. by intros [].
Qed.

(** The cases of a handler are taken apart, then each is a list of such steps. *)
#[local] Ltac handler_cases :=
  repeat match goal with
  | |- all _ (match ?x with _ => _ end) => destruct x
  end; handler_auto.

Lemma range_cmd_ok argv : all (Forall step_ok) (range_cmd argv).
Proof.
  unfold range_cmd. cbn zeta. apply all_bind; intros m. apply all_bind; intros pl.
  handler_cases; (apply all_one || apply all_four || apply all_four_macs || apply all_each_ip); done.
Qed.

Lemma set_number_ok n what v : all (Forall cmd_ok) (set_number n what v).
Proof. unfold set_number. cbn zeta. handler_cases. Qed.

Lemma set_cmd_ok argv : all (Forall step_ok) (set_cmd argv).
Proof.
  unfold set_cmd. cbn zeta. do 4 (apply all_bind; intros ?). handler_cases. apply set_number_ok.
Qed.

Lemma start_stop_cmd_ok argv : all (Forall step_ok) (start_stop_cmd argv).
Proof. unfold start_stop_cmd. do 2 (apply all_bind; intros ?). handler_cases. Qed.

Lemma en_dis_cmd_ok argv : all (Forall step_ok) (en_dis_cmd argv).
Proof. unfold en_dis_cmd. cbn zeta. do 3 (apply all_bind; intros ?). handler_cases. Qed.

Lemma seq_form_ok f argv : all (Forall step_ok) (seq_form_cmd f argv).
Proof.
  unfold seq_form_cmd. cbn zeta. do 2 (apply all_bind; intros ?). destruct (_ && _); [done|].
  do 11 (apply all_bind; intros ?). handler_auto.
Qed.

Lemma seq_3_ok argv : all (Forall step_ok) (seq_3_set_cmd argv).
Proof. unfold seq_3_set_cmd. do 4 (apply all_bind; intros ?). handler_auto. Qed.
Lemma seq_4_ok argv : all (Forall step_ok) (seq_4_set_cmd argv).
Proof. unfold seq_4_set_cmd. do 5 (apply all_bind; intros ?). handler_auto. Qed.

Lemma ignore_status_ok r : all (Forall step_ok) r → all (Forall step_ok) (ignore_status r).
Proof. intros Hr. destruct r; [exact Hr|by apply all_ok|done]. Qed.

Lemma seq_cmd_ok argv : all (Forall step_ok) (seq_cmd argv).
Proof.
  unfold seq_cmd. apply all_bind; intros m.
  handler_cases; apply ignore_status_ok;
    first [apply seq_form_ok|apply seq_3_ok|apply seq_4_ok].
Qed.

Lemma rate_number_ok n what v : all (Forall cmd_ok) (rate_number n what v).
Proof. unfold rate_number. cbn zeta. handler_cases. Qed.

Lemma rate_cmd_ok argv : all (Forall step_ok) (rate_cmd argv).
Proof.
  unfold rate_cmd. cbn zeta. do 4 (apply all_bind; intros ?). handler_cases. apply rate_number_ok.
Qed.

Lemma page_cmd_ok argv : all (Forall step_ok) (page_cmd argv).
Proof. unfold page_cmd. apply all_bind; intros m. handler_cases. Qed.

Lemma pcap_cmd_ok argv : all (Forall step_ok) (pcap_cmd argv).
Proof. unfold pcap_cmd. apply all_bind; intros m. handler_cases. Qed.

Lemma misc_cmd_ok argv : all (Forall step_ok) (misc_cmd argv).
Proof. unfold misc_cmd. apply all_bind; intros m. handler_cases. Qed.

Definition handler_ok (f : line → res (list step)) : Prop := ∀ argv, all (Forall step_ok) (f argv).

Lemma commands_ok : Forall (λ p, handler_ok (snd p)) command_table.
Proof.
  unfold command_table. apply Forall_fmap.
  repeat (apply Forall_cons; split); [..|by apply Forall_nil];
    unfold compose; cbn [snd];
    match goal with
    | |- handler_ok misc_cmd => exact misc_cmd_ok
    | |- handler_ok seq_cmd => exact seq_cmd_ok
    | |- handler_ok pcap_cmd => exact pcap_cmd_ok
    | |- handler_ok page_cmd => exact page_cmd_ok
    | |- handler_ok range_cmd => exact range_cmd_ok
    | |- handler_ok en_dis_cmd => exact en_dis_cmd_ok
    | |- handler_ok start_stop_cmd => exact start_stop_cmd_ok
    | |- handler_ok set_cmd => exact set_cmd_ok
    | |- handler_ok rate_cmd => exact rate_cmd_ok
    end.
Qed.

Lemma assoc_forall {A} (P : A → Prop) name t a : Forall (λ p, P (snd p)) t → assoc name t = Some a → P a.
Proof.
  induction 1 as [|[n b] t Hb Ht IH]; cbn [assoc]; [done|].
  destruct (pg_strmatch n name); [by intros [= <-]|done].
Qed.

Lemma cli_execute_ok fuel : ∀ buf, all (Forall step_ok) (cli_execute fuel buf).
Proof.
  induction fuel as [|fuel IH]; intros buf; cbn [cli_execute]; [done|]. cbn zeta.
  destruct (pg_strtrim buf) as [|c p]; [by apply all_ok|].
  destruct (c =? 35); [by apply all_ok|]. destruct (_ || _); [done|].
  apply all_bind; intros [|name argv]; [by apply all_ok|].
  destruct (assoc name alias_table) as [a|]; [apply IH|].
  destruct (assoc name command_table) as [f|] eqn:E; [|by destruct (is_other name)].
  by apply (assoc_forall handler_ok _ _ _ commands_ok E).
Qed.

Lemma run_line_ok l c c' : run_line l c = Ok c' → ports_ok c → ports_ok c'.
Proof.
  unfold run_line. intros E Hc. destruct (cli_execute 2 l) as [ss| |] eqn:Es; try done.
  cbn [mbind res_bind] in E. destruct (run_steps ss c) as [c1|] eqn:E1; [|done]. injection E as <-.
  eapply run_steps_ok; [|exact Hc|exact E1]. by apply (cli_execute_ok 2 l).
Qed.

(** C4. Whatever lines are typed, and whichever of them are refused, every port
    keeps the invariant of [port_ok]: flags that fit together, packet sizes of
    16 bits, a burst between 1 and the default, and the sequence, prime and
    dump counts within their tables. *)
Theorem lines_keep_ports_ok ls c c' : run_lines ls c = Ok c' → ports_ok c → ports_ok c'.
Proof.
  revert c. induction ls as [|l ls IH]; intros c E Hc; cbn [run_lines] in E; [by injection E as <-|].
  destruct (run_line l c) as [c1| |] eqn:E1; [|by eapply IH|done].
  eapply IH; [exact E|]. by eapply run_line_ok.
Qed.
End Handlers.

(** ** Sequence slots *)

(** The slot of a [sequence] line is an [int] with an upper bound only, and
    is stored in a [uint32_t]: numbers from 0 up to the last slot are the slot,
    larger ones are refused, and a negative number is taken as a slot behind
    every packet of the port. *)
Theorem seq_slot_bounds (argv : line) (s : list Z) : argv !! 1%nat = Some s →
  (0 ≤ atoi s < NUM_SEQ_PKTS → seq_slot argv = Ok (atoi s)) ∧
  (NUM_SEQ_PKTS ≤ atoi s → seq_slot argv = Refused) ∧
  (atoi s < 0 → ∃ k, seq_slot argv = Ok k ∧ NUM_TOTAL_PKTS ≤ k).
Proof.
  intros Es. unfold seq_slot, val, arg. rewrite Es. cbn [defined_as mbind res_bind].
  assert (- 2 ^ 31 ≤ atoi s < 2 ^ 31) as Hr
    by (pose proof (Z.mod_pos_bound (strtol 10 s + 2 ^ 31) (2 ^ 32) eq_refl); unfold atoi, swrap;
        change (32 - 1) with 31; lia).
  split_and!; intros Hs.
  - destruct (Z.leb_spec NUM_SEQ_PKTS (atoi s)); [lia|]. unfold u32, wrap.
    by rewrite Z.mod_small by (unfold NUM_SEQ_PKTS in Hs; lia).
  - by destruct (Z.leb_spec NUM_SEQ_PKTS (atoi s)); [|lia].
  - destruct (Z.leb_spec NUM_SEQ_PKTS (atoi s)) as [H|_]; [unfold NUM_SEQ_PKTS in H; lia|].
    eexists. split; [done|]. unfold u32, wrap.
    replace (atoi s `mod` 2 ^ 32) with (atoi s + 2 ^ 32); [unfold NUM_TOTAL_PKTS; lia|].
    rewrite <-(Z.mod_small (atoi s + 2 ^ 32) (2 ^ 32)) by lia. by rewrite Z.add_mod, Z.mod_same, Z.add_0_r, Z.mod_mod by lia.
Qed.

Lemma seq_slot_bounds_witness :
  ∃ k, seq_slot [str "seq"; str "-1"; str "0"; str "cos"; str "1"; str "tos"; str "1"] = Ok k ∧ NUM_TOTAL_PKTS ≤ k.
Proof.
  by apply (seq_slot_bounds [str "seq"; str "-1"; str "0"; str "cos"; str "1"; str "tos"; str "1"] (str "-1")).
Defined.

(** ** Witnesses *)

(** A system with two ports; local variables contain zeros. *)
Definition lab : Env := {|
  devs := [0; 1]; tap := λ _, mk_tap 0 0 0 0; bond_conf := λ _, 0;
  bond_slaves := λ _, None; bond_active := λ _, None; hw_stats := λ _, Eth.zero;
  rx_view := λ _, Capture.mk_l2p 0 [] (λ _, []); socket_of := λ _, 0; strtod := λ _, S754_zero false;
  timer_hz := 1; dev_random := None; xor_state := 1; paused := true;
  junk_portlist := 0; junk_ip := mk_ipaddr 0 0; junk_mac := 0 |}.
Definition lab_console : console :=
  mk_console (g fresh_port)
    (λ p, if (p =? 0) || (p =? 1) then Some (info fresh_port <| Info.pid := p |>) else None)
    (λ _, rnd_bits_zero) (λ _, Capture.mk_capture None 0 0 0 0 0) (λ _, 0).


Lemma lab_ok : ports_ok lab_console.
Proof.
  intros p i. unfold lab_console. cbn [ports]. destruct (_ || _); [|done]. intros [= <-].
  apply (port_ok_ext (info fresh_port)); [done..|exact fresh_port_ok].
Qed.

Definition is_ok {A} (r : res A) : bool := match r with Ok _ => true | _ => false end.
Lemma ok_value {A} (r : res A) : is_ok r = true → ∃ a, r = Ok a.
Proof. by destruct r as [a| |]; [exists a|..]. Qed.

Lemma lines_keep_ports_ok_witness :
  ∃ c, @run_lines lab [str "set 0-1 count 1000"; str "frobnicate"; str "set all size 128"; str "str"]
         lab_console = Ok c ∧ ports_ok c.
Proof.
  destruct (ok_value (@run_lines lab [str "set 0-1 count 1000"; str "frobnicate"; str "set all size 128"; str "str"]
         lab_console)) as [c E]; [vm_compute; reflexivity|].
  exists c. split; [exact E|]. exact (@lines_keep_ports_ok lab _ _ c E lab_ok).
Defined.
