(* ===== verification/CliTree.v ===== *)
(** * The directory tree of the console

    The nodes of [lib/cli/cli.c] and their search in [lib/cli/cli_search.c]: the
    pool of nodes, directories with what is in them, the directories whose commands
    are found by name, and the commands [cd], [pwd], [mkdir] and [rm] of
    [lib/cli/cli_cmds.c].  A queue is the list of the nodes in it, a node its number
    in the pool, a function the name it has in the source; text that is printed is
    not modelled.  [None] is the use of a null pointer, of a queue a node is not in,
    or of memory past an array. *)
From Stdlib Require Import Ascii String.
From S2P Require Import Prelude Strings CliEnv CliMap.

Definition CLI_DEFAULT_NB_NODES := 256.
Definition CLI_NAME_LEN := 64.
Definition CLI_MAX_BINS := 32%nat.
Definition CLI_MAX_PATH_LENGTH := 2048.
Definition CLI_MAX_SCRATCH_LENGTH := 4096.
Definition CLI_ROOT_NAME : list Z := [47].

Definition CLI_UNK_NODE := 0.
Definition CLI_DIR_NODE := 1.
Definition CLI_CMD_NODE := 2.
Definition CLI_FILE_NODE := 4.
Definition CLI_ALIAS_NODE := 8.
Definition CLI_STR_NODE := 16.
Definition CLI_EXE_TYPE := Z.lor CLI_CMD_NODE CLI_ALIAS_NODE.
Definition CLI_ALL_TYPE := Z.lor (Z.lor CLI_EXE_TYPE CLI_FILE_NODE) CLI_DIR_NODE.
Definition CLI_OTHER_TYPE := Z.lor CLI_DIR_NODE CLI_FILE_NODE.

(** ** Nodes *)

Record cli_node := mk_node {
  parent : option Z; name : list Z; fstate : Z; fflags : Z; type : Z; func : option string;
  short_desc : option string; alias_str : option (list Z); foffset : Z; file_size : Z;
  file_data : option (list Z); items : list Z }.
#[global] Instance eta_cli_node : Eta cli_node := λ n,
  mk_node (parent n) (name n) (fstate n) (fflags n) (type n) (func n) (short_desc n) (alias_str n)
    (foffset n) (file_size n) (file_data n) (items n).

(** A node of cleared memory *)
Definition blank : cli_node := mk_node None [] 0 0 CLI_UNK_NODE None None None 0 0 None [].

(** [unlimited] is [CLI_NODES_UNLIMITED]; the first of [bins] is the working
    directory. *)
Record cli := mk_cli {
  nodes : Z → cli_node; nb_nodes : Z; unlimited : bool; free_nodes : list Z; root : list Z;
  bins : list (option Z); vars : cli_env; default_tree_added : bool }.
#[global] Instance eta_cli : Eta cli := λ t,
  mk_cli (nodes t) (nb_nodes t) (unlimited t) (free_nodes t) (root t) (bins t) (vars t) (default_tree_added t).

Definition set_node (i : Z) (f : cli_node → cli_node) (t : cli) : cli :=
  t <| nodes := λ j, if decide (j = i) then f (nodes t i) else nodes t j |>.

Definition is_node (n : cli_node) (types : Z) : bool := negb (Z.land (type n) types =? 0).
Definition is_directory (n : cli_node) : bool := is_node n CLI_DIR_NODE.
Definition is_executable (n : cli_node) : bool := is_node n CLI_CMD_NODE || is_node n CLI_ALIAS_NODE.
Definition cli_root_node (t : cli) : option Z := head (root t).
Definition get_cwd (t : cli) : option Z := default None (bins t !! 0%nat).
Definition set_cwd (n : option Z) (t : cli) : cli := t <| bins ::= <[0%nat := n]> |>.

(** What [realloc] does for more nodes.  Where it moves them every pointer to one
    is left behind; where it extends them the node handed out is the one past the
    end, since the loop over the new nodes has moved on. *)
Inductive realloc_result := No_memory | Moved | In_place.

Section Tree.
Context (realloc : Z → realloc_result).

Definition cli_alloc (t : cli) : option (option Z * cli) :=
  match free_nodes t with
  | i :: free => Some (Some i, t <| free_nodes := free |>)
  | [] =>
      if unlimited t then
        match realloc (nb_nodes t + CLI_DEFAULT_NB_NODES) with
        | No_memory => Some (None, t)
        | Moved => None
        | In_place =>
            let nb := nb_nodes t + CLI_DEFAULT_NB_NODES in
            Some (Some nb, t <| free_nodes := seqZ (nb_nodes t) CLI_DEFAULT_NB_NODES |> <| nb_nodes := nb |>)
        end
      else Some (None, t)
  end.
Definition cli_free (i : Z) (t : cli) : cli := t <| free_nodes ::= λ l, l ++ [i] |>.

(** ** Searching *)

Definition find_item (t : cli) (d : Z) (nm : list Z) (types : Z) : option Z :=
  snd <$> list_find (λ i, pg_strmatch (name (nodes t i)) nm && is_node (nodes t i) types) (items (nodes t d)).

(** The outer [option] is the use of a null pointer, the inner one the result. *)
Definition cli_search_dir (t : cli) (dir : option Z) (nm : list Z) (types : Z) : option (option Z) :=
  match nm with
  | [] => Some None
  | _ =>
      let look dir :=
        if pg_strmatch nm (str "..") then d ← dir; Some (parent (nodes t d))
        else if pg_strmatch nm (str ".") then Some dir
        else d ← dir; Some (find_item t d nm types) in
      match dir with
      | None => look (get_cwd t)
      | Some d => if is_directory (nodes t d) then look dir else Some None
      end
  end.

(** The walk along a path, with the node found last and the last directory *)
Fixpoint follow (t : cli) (argv : list (list Z)) (dir node : option Z) : option (option Z * option Z) :=
  match argv with
  | [] => Some (node, dir)
  | a :: argv =>
      n ← cli_search_dir t dir a CLI_ALL_TYPE;
      match n with
      | None => Some (None, dir)
      | Some i => if is_directory (nodes t i) then follow t argv (Some i) (Some i) else Some (Some i, dir)
      end
  end.

Definition absolute (path : list Z) : bool := match path with c :: _ => c =? 47 | [] => false end.
Definition path_words (path : list Z) : list (list Z) :=
  pg_strtok CLI_MAX_ARGVS (if absolute path then drop 1 path else path) [47].
Definition path_start (t : cli) (path : list Z) : option Z := if absolute path then cli_root_node t else get_cwd t.

Definition cli_find_node (t : cli) (path : list Z) : option (option Z) :=
  match path with
  | [] => Some None
  | _ => if pg_strmatch path CLI_ROOT_NAME then Some (cli_root_node t)
         else fst <$> follow t (path_words path) (path_start t path) None
  end.

Definition cli_last_dir_in_path (t : cli) (path : list Z) : option (option Z) :=
  match path with
  | [] => Some (get_cwd t)
  | _ => if pg_strmatch path CLI_ROOT_NAME then Some (cli_root_node t)
         else snd <$> follow t (path_words path) (path_start t path) None
  end.

Fixpoint search_bins (t : cli) (dirs : list (option Z)) (nm : list Z) : option (option Z) :=
  match dirs with
  | [] => Some None
  | None :: dirs => search_bins t dirs nm
  | Some d :: dirs =>
      r ← cli_search_dir t (Some d) nm CLI_EXE_TYPE;
      match r with Some i => Some (Some i) | None => search_bins t dirs nm end
  end.

Definition cli_find_cmd (t : cli) (path : list Z) : option (option Z) :=
  r ← cli_find_node t path;
  match r with Some i => Some (Some i) | None => search_bins t (bins t) path end.

(** ** Lists of nodes *)

Definition items_of_type (t : cli) (d : Z) (types : Z) : list Z :=
  filter (λ i, is_node (nodes t i) types = true) (items (nodes t d)).
Definition cli_dir_item_count (t : cli) (d : Z) (types : Z) : Z :=
  if is_directory (nodes t d) then Z.of_nat (length (items_of_type t d types)) else 0.
Definition cli_path_item_count (t : cli) (types : Z) : Z :=
  foldr Z.add 0 ((λ b, match b with Some d => cli_dir_item_count t d types | None => 0 end) <$> bins t).

(** The array has a place more than was counted. *)
Definition within_count (cnt : Z) (l : list Z) : option (list Z) :=
  if cnt =? 0 then Some [] else if cnt + 1 <? Z.of_nat (length l) then None else Some l.

Definition dir_list_with_type (t : cli) (d : Z) (types : Z) : option (list Z) :=
  within_count (cli_dir_item_count t d types) (items_of_type t d types).

(** The working directory may be on the path as well and is looked at once. *)
Definition node_list_with_type (t : cli) (types : Z) : option (list Z) :=
  within_count (cli_path_item_count t types)
    (mjoin (imap (λ i b, match b with
                         | Some d => if (0 <? Z.of_nat i) && bool_decide (b = get_cwd t) then [] else items_of_type t d types
                         | None => [] end) (bins t))).

Definition cli_node_list_with_type (t : cli) (node : option Z) (types : Z) : option (list Z) :=
  match node with Some d => dir_list_with_type t d types | None => node_list_with_type t types end.

(** ** The search path *)

Definition has_bin (d : Z) (l : list (option Z)) : bool := existsb (λ b, bool_decide (b = Some d)) l.
Definition first_free (l : list (option Z)) : option nat := fst <$> list_find (λ b, b = None) l.

Definition cli_add_bin (d : Z) (t : cli) : Z * cli :=
  if negb (is_directory (nodes t d)) then (-1, t)
  else if has_bin d (drop 1 (bins t)) then (0, t)
  else match first_free (drop 1 (bins t)) with
       | Some i => (0, t <| bins ::= <[S i := Some d]> |>)
       | None => (-1, t)
       end.

(** The entries behind the first that is the directory move up. *)
Fixpoint remove_bin (d : Z) (l : list (option Z)) : option (list (option Z)) :=
  match l with
  | [] => None
  | b :: l => if decide (b = Some d) then Some (l ++ [None]) else (λ l, b :: l) <$> remove_bin d l
  end.

Definition cli_del_bin (d : Z) (t : cli) : Z * cli :=
  if negb (is_directory (nodes t d)) then (-1, t)
  else match remove_bin d (bins t) with Some l => (0, t <| bins := l |>) | None => (-1, t) end.

Definition cli_add_bin_path (path : list Z) (t : cli) : option (Z * cli) :=
  r ← cli_find_node t path;
  Some (match r with
        | Some d => let '(e, t') := cli_add_bin d t in (if e =? 0 then 0 else -1, t')
        | None => (-1, t)
        end).

(** ** Removing *)

(** The first occurrence of a node, which has to be there *)
Fixpoint unlink (i : Z) (l : list Z) : option (list Z) :=
  match l with
  | [] => None
  | j :: l => if decide (j = i) then Some l else (λ l, j :: l) <$> unlink i l
  end.

(** The loop over what is in a directory, as many turns as it had entries and one
    more; [remove] is [cli_remove_node]. *)
Fixpoint empty_dir (remove : Z → cli → option (Z * cli)) (d : Z) (turns : nat) (t : cli) : option (Z * cli) :=
  match items (nodes t d), turns with
  | [], _ => Some (0, t)
  | _ :: _, O => None
  | i :: _, S turns =>
      '(e, t) ← remove i t;
      if e =? 0 then empty_dir remove d turns t else Some (-1, t)
  end.

Fixpoint cli_remove_node (fuel : nat) (i : Z) (t : cli) : option (Z * cli) :=
  match fuel with
  | O => None
  | S fuel =>
      match parent (nodes t i) with
      | None => Some (-1, t)
      | Some p =>
          let ty := type (nodes t i) in
          '(e, t) ← (if ty =? CLI_DIR_NODE then empty_dir (cli_remove_node fuel) i (S (length (items (nodes t i)))) t
                     else if existsb (Z.eqb ty) [CLI_CMD_NODE; CLI_FILE_NODE; CLI_ALIAS_NODE; CLI_STR_NODE] then Some (0, t)
                     else Some (-1, t));
          if e =? 0 then
            let t := if is_directory (nodes t i) then snd (cli_del_bin i t) else t in
            l ← unlink i (items (nodes t p));
            Some (0, cli_free i (set_node p (λ n, n <| items := l |>) t))
          else Some (-1, t)
      end
  end.

(** ** Adding *)

Definition may_add (nm : list Z) (par : option Z) (ty : Z) (f : option string) (desc : option string) : bool :=
  let some {A} (o : option A) := match o with Some _ => true | None => false end in
  if ty =? CLI_DIR_NODE then
    if some par then negb (pg_strmatch nm CLI_ROOT_NAME) && negb (some f)
    else pg_strmatch nm CLI_ROOT_NAME && negb (some f)
  else if (ty =? CLI_CMD_NODE) || (ty =? CLI_FILE_NODE) then some par && some f
  else if ty =? CLI_ALIAS_NODE then some par && negb (some f)
  else if ty =? CLI_STR_NODE then some f || some desc
  else false.

(** What is not written is what the node had before. *)
Definition __add_node (nm : list Z) (par : option Z) (ty : Z) (f : option string) (desc : option string) (t : cli) :
    option (option Z * cli) :=
  if negb (may_add nm par ty f desc) then Some (None, t)
  else
    '(r, t) ← cli_alloc t;
    match r with
    | None => Some (None, t)
    | Some i =>
        if nb_nodes t <=? i then None
        else
          let t := set_node i (λ n,
            let n := n <| type := ty |> <| parent := par |> <| short_desc := desc |>
                       <| name := take (Z.to_nat (CLI_NAME_LEN - 1)) nm |> in
            if (ty =? CLI_CMD_NODE) || (ty =? CLI_ALIAS_NODE) || (ty =? CLI_FILE_NODE) then n <| func := f |> else n) t in
          Some (Some i, match par with Some p => set_node p (λ n, n <| items ::= λ l, i :: l |>) t | None => t end)
    end.

(** The directory at each part of the path is looked for under the parts so far,
    written one after the other. *)
Fixpoint add_dirs (argv : list (list Z)) (path : list Z) (dir n : option Z) (t : cli) : option (option Z * cli) :=
  match argv with
  | [] => Some (n, t)
  | a :: argv =>
      let path := path ++ a in
      if CLI_MAX_PATH_LENGTH <=? Z.of_nat (length path) then None
      else
        r ← cli_find_node t path;
        match r with
        | Some d => add_dirs argv path (Some d) n t
        | None =>
            '(m, t) ← __add_node a dir CLI_DIR_NODE None None t;
            match m with
            | None => Some (None, t)
            | Some d => add_dirs argv path (Some d) (Some d) t
            end
        end
  end.

Definition cli_add_dir (nm : list Z) (dir : option Z) (t : cli) : option (option Z * cli) :=
  r ← cli_find_node t nm;
  match r with
  | Some d => Some (Some d, t)
  | None =>
      let dir := match dir with None => cli_root_node t | _ => dir end in
      let p := take (Z.to_nat (CLI_MAX_SCRATCH_LENGTH - 1)) nm in
      if absolute p then add_dirs (path_words p) [47] (cli_root_node t) None t
      else add_dirs (path_words p) [] dir None t
  end.

Definition cli_add_cmd (nm : list Z) (dir : option Z) (f : option string) (desc : option string) (t : cli) :=
  __add_node nm dir CLI_CMD_NODE f desc t.
Definition cli_add_file (nm : list Z) (dir : option Z) (f : option string) (desc : option string) (t : cli) :=
  __add_node nm dir CLI_FILE_NODE f desc t.
(** The node is not checked before its text is set. *)
Definition cli_add_alias (nm : list Z) (dir : option Z) (line : list Z) (desc : option string) (t : cli) :=
  '(r, t) ← __add_node nm dir CLI_ALIAS_NODE None desc t;
  i ← r; Some (Some i, set_node i (λ n, n <| alias_str := Some line |>) t).
Definition cli_add_str (nm : list Z) (f : sfunc_t) (s : list Z) (t : cli) : option (Z * cli) :=
  e ← cli_env_string (vars t) nm f s; Some (0, t <| vars := e |>).

(** ** Trees of entries *)

Inductive cli_tree :=
  | c_dir (n : string) | c_bin (n : string) | c_cmd (n f h : string) | c_file (n rw h : string)
  | c_alias (n l h : string) | c_str (n : string) (f : sfunc_t) (s : string).

(** The directory added last is the parent of what follows it. *)
Fixpoint cli_add_entries (tree : list cli_tree) (par : option Z) (t : cli) : option (Z * cli) :=
  match tree with
  | [] => Some (0, t)
  | e :: tree =>
      let go r := '(n, t) ← r; match (n : option Z) with Some _ => cli_add_entries tree par t | None => Some (-1, t) end in
      let dir (n : string) (bin : bool) :=
        '(d, t) ← cli_add_dir (str n) par t;
        match d with
        | None => Some (-1, t)
        | Some _ =>
            t ← (if bin then snd <$> cli_add_bin_path (str n) t else Some t);
            cli_add_entries tree d t
        end in
      match e with
      | c_dir n => dir n false
      | c_bin n => dir n true
      | c_cmd n f h => go (cli_add_cmd (str n) par (Some f) (Some h) t)
      | c_file n f h => go (cli_add_file (str n) par (Some f) (Some h) t)
      | c_alias n l h => go (cli_add_alias (str n) par (str l) (Some h) t)
      | c_str n f s => '(_, t) ← cli_add_str (str n) f (str s) t; cli_add_entries tree par t
      end
  end.

Definition cli_add_tree (par : option Z) (tree : list cli_tree) (t : cli) : option (Z * cli) :=
  cli_add_entries tree (match par with None => cli_root_node t | _ => par end) t.

(** ** Paths *)

(** The names from the root on, each with a slash behind it, as far as the buffer
    goes; [turns] bounds the number of directories. *)
Fixpoint path_string (turns : nat) (t : cli) (d : Z) : option (list Z) :=
  match turns with
  | O => None
  | S turns =>
      match parent (nodes t d) with
      | None => Some CLI_ROOT_NAME
      | Some p => s ← path_string turns t p; Some (s ++ name (nodes t d) ++ [47])
      end
  end.
Definition cli_path_string (node : option Z) (t : cli) : option (list Z) :=
  d ← match node with None => get_cwd t | _ => node end;
  s ← path_string (S (Z.to_nat (nb_nodes t))) t d;
  if Z.of_nat (length s) <=? CLI_MAX_SCRATCH_LENGTH then Some s else None.
Definition cli_cwd_path (t : cli) : option (list Z) := cli_path_string None t.

(** ** Commands

    The value a command returns, and the text [pwd] prints. *)

Definition cd_cmd (argv : list (list Z)) (t : cli) : option (Z * cli) :=
  match argv !! 1%nat with
  | None => Some (0, t)
  | Some a =>
      if pg_strmatch a (str "-?") then Some (0, t)
      else
        r ← cli_find_node t a;
        Some (match r with None => (-1, t) | Some _ => (0, set_cwd r t) end)
  end.

Definition pwd_cmd (argv : list (list Z)) (t : cli) : option (list Z) :=
  s ← cli_cwd_path t;
  Some (if match argv !! 1%nat with Some a => pg_strmatch a (str "-?") | None => false end then []
        else if 1 <? Z.of_nat (length s) then take (length s - 1) s else s).

Definition mkdir_cmd (argv : list (list Z)) (t : cli) : option (Z * cli) :=
  match argv with
  | [_; a] => '(r, t) ← cli_add_dir a (get_cwd t) t; Some (match r with None => -1 | Some _ => 0 end, t)
  | _ => Some (-1, t)
  end.

Definition rm_cmd (argv : list (list Z)) (t : cli) : option (Z * cli) :=
  match argv with
  | [_; a] =>
      r ← cli_find_node t a;
      match r with
      | None => Some (-1, t)
      | Some i => cli_remove_node (S (Z.to_nat (nb_nodes t))) i t
      end
  | _ => Some (-1, t)
  end.

(** ** Creation *)

Definition cli_create_root (dirname : list Z) (t : cli) : option (option Z * cli) :=
  '(r, t) ← __add_node dirname None CLI_DIR_NODE None None t;
  Some (r, match r with None => t | Some i => set_cwd (Some i) (t <| root ::= λ l, i :: l |>) end).

(** The part of [cli_init] that is about nodes; [None] in its result is the error
    exit. *)
Definition cli_init (nb_entries : Z) : option (option cli) :=
  let '(nb, more) := if nb_entries =? 0 then (CLI_DEFAULT_NB_NODES, false)
                     else if nb_entries =? -1 then (CLI_DEFAULT_NB_NODES, true) else (nb_entries, false) in
  '(r, t) ← cli_create_root CLI_ROOT_NAME
    (mk_cli (λ _, blank) nb more (seqZ 0 nb) [] (replicate CLI_MAX_BINS None) cli_env_create false);
  Some (match r with None => None | Some _ => Some t end).

Definition cli_default_tree (version : list Z) (debug : bool) : list cli_tree :=
  [c_file "copyright" "copyright_file" "DPDK copyright information";
   c_file "dpdk-version" "version_file" "DPDK version";
   c_bin "/sbin";
   c_cmd "delay" "delay_cmd" "delay a number of milliseconds";
   c_cmd "sleep" "sleep_cmd" "delay a number of seconds";
   c_cmd "chelp" "chelp_cmd" "CLI help - display information for DPDK";
   c_cmd "mkdir" "mkdir_cmd" "create a directory";
   c_cmd "rm" "rm_cmd" "remove a file or directory";
   c_cmd "ls" "ls_cmd" "ls [-lr] <dir> # list current directory";
   c_cmd "cd" "cd_cmd" "cd <dir> # change working directory";
   c_cmd "pwd" "pwd_cmd" "pwd # display current working directory";
   c_cmd "screen.clear" "scrn_cmd" "screen.clear # clear the screen";
   c_cmd "quit" "quit_cmd" "quit # quit the application";
   c_cmd "history" "hist_cmd" "history # display the current history";
   c_cmd "more" "more_cmd" "more <file> # display a file content"] ++
  (if debug then [c_cmd "sizes" "sizes_cmd" "sizes # display some internal sizes"] else []) ++
  [c_cmd "cmap" "core_cmd" "cmap # display the core mapping";
   c_cmd "hugepages" "huge_cmd" "hugepages # display hugepage info";
   c_cmd "path" "path_cmd" "display the execution path for commands";
   c_cmd "env" "env_cmd" "Show/del/get/set environment variables";
   c_cmd "script" "script_cmd" "load and process cli command files";
   c_cmd "echo" "echo_cmd" "simple echo a string to the screen";
   c_cmd "version" "version_cmd" "Display version information";
   c_str "SHELL" Null "CLI shell";
   c_str "DPDK_VER" (Fn (λ _, version)) ""]%string.

Definition cli_default_tree_init (version : list Z) (debug : bool) (t : cli) : option (Z * cli) :=
  if default_tree_added t then Some (0, t)
  else
    '(e, t) ← cli_add_tree None (cli_default_tree version debug) (t <| default_tree_added := true |>);
    Some (e, if e =? 0 then t else t <| default_tree_added := false |>).

(** The tree of [app/cli-functions.c], with the commands that are compiled in on
    demand *)
Definition default_tree (ping6 bond : bool) : list cli_tree :=
  [c_dir "/pktgen/bin";
   c_cmd "help" "help_cmd" "help command";
   c_cmd "clear" "misc_cmd" "clear stats, ...";
   c_alias "clr" "clear all stats" "clear all port stats";
   c_cmd "geometry" "misc_cmd" "set the screen geometry";
   c_alias "geom" "geometry" "set or show screen geometry";
   c_cmd "load" "misc_cmd" "load command file";
   c_cmd "script" "misc_cmd" "run a Lua script";
   c_cmd "lua" "misc_cmd" "execute a Lua string";
   c_cmd "save" "misc_cmd" "save the current state";
   c_cmd "redisplay" "misc_cmd" "redisplay the screen";
   c_alias "cls" "redisplay" "redraw screen";
   c_cmd "reset" "misc_cmd" "reset pktgen configuration";
   c_alias "rst" "reset all" "reset all ports";
   c_cmd "restart" "misc_cmd" "restart port";
   c_cmd "port" "misc_cmd" "Switch between ports";
   c_cmd "ping4" "misc_cmd" "Send a ping packet for IPv4"] ++
  (if ping6 then [c_cmd "ping6" "misc_cmd" "Send a ping packet for IPv6"] else []) ++
  [c_cmd "sequence" "seq_cmd" "sequence command";
   c_alias "seq" "sequence" "sequence command";
   c_cmd "page" "page_cmd" "change page displays";
   c_cmd "theme" "theme_cmd" "Set, save, show the theme";
   c_cmd "range" "range_cmd" "Range commands";
   c_cmd "enable" "en_dis_cmd" "enable features";
   c_cmd "disable" "en_dis_cmd" "disable features";
   c_cmd "start" "start_stop_cmd" "start features";
   c_cmd "stop" "start_stop_cmd" "stop features";
   c_alias "str" "start all" "start all ports sending packets";
   c_alias "stp" "stop all" "stop all ports sending packets";
   c_cmd "pcap" "pcap_cmd" "pcap commands";
   c_cmd "set" "set_cmd" "set a number of options";
   c_cmd "dbg" "dbg_cmd" "debug commands";
   c_cmd "plugin" "plugin_cmd" "Plugin a shared object file"] ++
  (if bond then [c_cmd "bonding" "bonding_cmd" "Bonding commands"] else []) ++
  [c_cmd "rate" "rate_cmd" "Rate setup commands";
   c_alias "on" "enable screen" "Enable screen updates";
   c_alias "off" "disable screen" "Disable screen updates"]%string.

Definition init_tree (version : list Z) (debug ping6 bond : bool) (t : cli) : option (Z * cli) :=
  '(e, t) ← cli_default_tree_init version debug t;
  if negb (e =? 0) then Some (-1, t)
  else
    '(e, t) ← cli_add_tree (cli_root_node t) (default_tree ping6 bond) t;
    if negb (e =? 0) then Some (-1, t)
    else
      '(e, t) ← cli_add_bin_path (str "/pktgen/bin") t;
      Some (if e =? 0 then 0 else -1, t).

(** [cli_create] and [init_tree], as [pktgen_cli_create] calls them *)
Definition pktgen_cli_create (version : list Z) (debug ping6 bond : bool) : option (option cli) :=
  t ← cli_init 0;
  match t with
  | None => Some None
  | Some t => '(e, t) ← init_tree version debug ping6 bond t; Some (if e =? 0 then Some t else None)
  end.
End Tree.
