(* ===== verification/CliTreeFacts.v ===== *)
(** * What the directory tree is for

    The commands and aliases of [Console] are those the search finds in the tree
    pktgen creates; the tree stays a tree; the path of a directory leads to it. *)
From Stdlib Require Import Ascii String.
From S2P Require Import Prelude Strings CliEnv CliMap Console ConsoleFacts CliTree.

(** ** The tables of the console

    [execute_in] is [cli_execute] with the search of the tree in the place of the
    tables; the functions modelled in [Console] go by the names the source has for
    them. *)
Section Tables.
Context `{Env}.

Definition modelled (f : string) : option (line → res (list step)) :=
  if (f =? "misc_cmd")%string then Some misc_cmd
  else if (f =? "seq_cmd")%string then Some seq_cmd
  else if (f =? "page_cmd")%string then Some page_cmd
  else if (f =? "range_cmd")%string then Some range_cmd
  else if (f =? "en_dis_cmd")%string then Some en_dis_cmd
  else if (f =? "start_stop_cmd")%string then Some start_stop_cmd
  else if (f =? "pcap_cmd")%string then Some pcap_cmd
  else if (f =? "set_cmd")%string then Some set_cmd
  else if (f =? "rate_cmd")%string then Some rate_cmd
  else None.

Fixpoint execute_in (t : cli) (fuel : nat) (buf : list Z) : res (list step) :=
  match fuel with
  | O => Undef
  | S fuel =>
      let p := pg_strtrim buf in
      match p with
      | [] => Ok []
      | c :: _ =>
          if c =? 35 then Ok []
          else if (c =? 33) || (c =? 64) || existsb (λ d, d =? 36) p then Undef
          else
            argv ← defined_as (pg_strqtok p (str " " ++ [13; 10]) CLI_MAX_ARGVS);
            match argv with
            | [] => Ok []
            | nm :: _ =>
                node ← defined_as (cli_find_cmd t nm);
                match node with
                | None => Refused
                | Some i =>
                    let n := nodes t i in
                    if type n =? CLI_CMD_NODE then
                      match func n ≫= modelled with Some f => f argv | None => Undef end
                    else if type n =? CLI_ALIAS_NODE then
                      a ← defined_as (alias_str n); execute_in t fuel (a ++ drop (length (name n)) buf)
                    else Refused
                end
            end
      end
  end.

Definition command_symbols : list (list Z * string) :=
  (λ '(name, f), (str name, f)) <$>
  [("clear", "misc_cmd"); ("geometry", "misc_cmd"); ("load", "misc_cmd"); ("lua", "misc_cmd"); ("save", "misc_cmd");
   ("redisplay", "misc_cmd"); ("reset", "misc_cmd"); ("restart", "misc_cmd"); ("port", "misc_cmd"); ("ping4", "misc_cmd");
   ("sequence", "seq_cmd"); ("page", "page_cmd"); ("range", "range_cmd"); ("enable", "en_dis_cmd");
   ("disable", "en_dis_cmd"); ("start", "start_stop_cmd"); ("stop", "start_stop_cmd"); ("pcap", "pcap_cmd");
   ("set", "set_cmd"); ("rate", "rate_cmd")]%string.

Lemma command_table_symbols : (prod_map id Some <$> command_table) = prod_map id modelled <$> command_symbols.
Proof. reflexivity. Qed.

Lemma assoc_map {A B} (f : A → B) nm (l : list (list Z * A)) : assoc nm (prod_map id f <$> l) = f <$> assoc nm l.
Proof. induction l as [|[n a] l IH]; [done|]. cbn. by destruct (pg_strmatch n nm). Qed.

Lemma assoc_commands nm : assoc nm command_table = assoc nm command_symbols ≫= modelled.
Proof.
  pose proof (f_equal (assoc nm) command_table_symbols) as E. rewrite !assoc_map in E.
  destruct (assoc nm command_table), (assoc nm command_symbols); cbn in *; congruence.
Qed.
End Tables.

Lemma strmatch_spec a b : pg_strmatch a b = true ↔ a = b.
Proof.
  revert b. induction a as [|c a IH]; intros [|d b]; cbn [pg_strmatch]; try done.
  destruct (Z.eqb_spec c d) as [->|]; [rewrite IH|]; split; congruence.
Qed.
Lemma strmatch_refl a : pg_strmatch a a = true.
Proof. by apply strmatch_spec. Qed.
Lemma strmatch_ne a b : a ≠ b → pg_strmatch a b = false.
Proof. intros Hn. apply not_true_is_false. by rewrite strmatch_spec. Qed.

Lemma assoc_none {A} nm (l : list (list Z * A)) : nm ∉ l.*1 → assoc nm l = None.
Proof.
  induction l as [|[n a] l IH]; [done|]. cbn. rewrite not_elem_of_cons. intros [Hn Hl]. by rewrite strmatch_ne by congruence; apply IH.
Qed.

(** ** Searching a directory that is known *)

(** What the search sees of an entry *)
Definition entry : Type := Z * option string * option (list Z).
Definition entry_of (t : cli) (i : Z) : entry := (type (nodes t i), func (nodes t i), alias_str (nodes t i)).
Definition listing (t : cli) (d types : Z) : list (list Z * (list Z * entry)) :=
  (λ i, (name (nodes t i), (name (nodes t i), entry_of t i))) <$> items_of_type t d types.

Lemma find_item_listing t d nm types :
  (λ i, (name (nodes t i), entry_of t i)) <$> find_item t d nm types = assoc nm (listing t d types).
Proof.
  unfold find_item, listing, items_of_type. induction (items (nodes t d)) as [|i l IH]; [done|].
  cbn [list_find]. destruct (is_node (nodes t i) types) eqn:E.
  - rewrite filter_cons_True by done. cbn [fmap list_fmap assoc]. rewrite andb_true_r.
    destruct (pg_strmatch (name (nodes t i)) nm); cbn [decide]; [done|]. rewrite <-IH.
    by destruct (list_find _ l) as [[]|].
  - rewrite filter_cons_False by congruence. rewrite andb_false_r. rewrite <-IH. by destruct (list_find _ l) as [[]|].
Qed.

(** ** The tree pktgen creates *)

Definition known (l : list (string * entry)) : list (list Z * (list Z * entry)) :=
  (λ '(n, e), (str n, (str n, e))) <$> l.
Definition command (n f : string) : string * entry := (n, (CLI_CMD_NODE, Some f, None)).
Definition alias (n s : string) : string * entry := (n, (CLI_ALIAS_NODE, None, Some (str s))).
Definition optional {A} (b : bool) (a : A) : list A := if b then [a] else [].

Definition root_entries : list (string * entry) :=
  [("pktgen", (CLI_DIR_NODE, None, None)); ("sbin", (CLI_DIR_NODE, None, None));
   ("dpdk-version", (CLI_FILE_NODE, Some "version_file", None));
   ("copyright", (CLI_FILE_NODE, Some "copyright_file", None))]%string.
Definition sbin_entries (debug : bool) : list (string * entry) := reverse
  ([command "delay" "delay_cmd"; command "sleep" "sleep_cmd"; command "chelp" "chelp_cmd"; command "mkdir" "mkdir_cmd";
    command "rm" "rm_cmd"; command "ls" "ls_cmd"; command "cd" "cd_cmd"; command "pwd" "pwd_cmd";
    command "screen.clear" "scrn_cmd"; command "quit" "quit_cmd"; command "history" "hist_cmd"; command "more" "more_cmd"] ++
   optional debug (command "sizes" "sizes_cmd") ++
   [command "cmap" "core_cmd"; command "hugepages" "huge_cmd"; command "path" "path_cmd"; command "env" "env_cmd";
    command "script" "script_cmd"; command "echo" "echo_cmd"; command "version" "version_cmd"]).
Definition bin_entries (ping6 bond : bool) : list (string * entry) := reverse
  ([command "help" "help_cmd"; command "clear" "misc_cmd"; alias "clr" "clear all stats"; command "geometry" "misc_cmd";
    alias "geom" "geometry"; command "load" "misc_cmd"; command "script" "misc_cmd"; command "lua" "misc_cmd";
    command "save" "misc_cmd"; command "redisplay" "misc_cmd"; alias "cls" "redisplay"; command "reset" "misc_cmd";
    alias "rst" "reset all"; command "restart" "misc_cmd"; command "port" "misc_cmd"; command "ping4" "misc_cmd"] ++
   optional ping6 (command "ping6" "misc_cmd") ++
   [command "sequence" "seq_cmd"; alias "seq" "sequence"; command "page" "page_cmd"; command "theme" "theme_cmd";
    command "range" "range_cmd"; command "enable" "en_dis_cmd"; command "disable" "en_dis_cmd";
    command "start" "start_stop_cmd"; command "stop" "start_stop_cmd"; alias "str" "start all"; alias "stp" "stop all";
    command "pcap" "pcap_cmd"; command "set" "set_cmd"; command "dbg" "dbg_cmd"; command "plugin" "plugin_cmd"] ++
   optional bond (command "bonding" "bonding_cmd") ++
   [command "rate" "rate_cmd"; alias "on" "enable screen"; alias "off" "disable screen"]).

(** The root is node 0, [/sbin] node 3 and [/pktgen/bin] node [b]. *)
Record created (debug ping6 bond : bool) (b : Z) (t : cli) : Prop := {
  c_root : root t = [0]; c_top : parent (nodes t 0) = None;
  c_bins : bins t = Some 0 :: Some 3 :: Some b :: replicate 29 None;
  c_dirs : forallb (λ d, is_directory (nodes t d)) [0; 3; b] = true;
  c_root_all : listing t 0 CLI_ALL_TYPE = known root_entries;
  c_root_exe : listing t 0 CLI_EXE_TYPE = [];
  c_sbin_exe : listing t 3 CLI_EXE_TYPE = known (sbin_entries debug);
  c_bin_exe : listing t b CLI_EXE_TYPE = known (bin_entries ping6 bond) }.

Definition report (b : Z) (t : cli) :=
  (root t, parent (nodes t 0), bins t, forallb (λ d, is_directory (nodes t d)) [0; 3; b],
   (listing t 0 CLI_ALL_TYPE, listing t 0 CLI_EXE_TYPE, listing t 3 CLI_EXE_TYPE, listing t b CLI_EXE_TYPE)).

Lemma pktgen_cli_created realloc version debug ping6 bond t :
  pktgen_cli_create realloc version debug ping6 bond = Some (Some t) →
  created debug ping6 bond (if debug then 25 else 24) t.
Proof.
  intros E.
  assert (report (if debug then 25 else 24) <$> (o ← pktgen_cli_create realloc version debug ping6 bond; o) =
    Some ([0], None, Some 0 :: Some 3 :: Some (if debug then 25 else 24) :: replicate 29 None, true,
      (known root_entries, [], known (sbin_entries debug), known (bin_entries ping6 bond)))) as H.
  { clear E. destruct debug, ping6, bond; vm_compute; reflexivity. }
  rewrite E in H. injection H. by constructor.
Qed.

(** ** Searching it *)

Section Search.
Context (debug ping6 bond : bool) (b : Z) (t : cli).
Hypothesis Ht : created debug ping6 bond b t.

Definition seen (i : Z) : list Z * entry := (name (nodes t i), entry_of t i).

(** What the search finds for a name that is not a path *)
Definition verdict (nm : list Z) : option (list Z * entry) :=
  match assoc (pg_strtrim nm) (known root_entries) with
  | Some e => Some e
  | None => match assoc nm (known (sbin_entries debug)) with
            | Some e => Some e
            | None => assoc nm (known (bin_entries ping6 bond))
            end
  end.

Definition plain_name (nm : list Z) : Prop := nm ≠ [] ∧ Forall (λ c, c ≠ 47 ∧ c ≠ 46) nm.

Lemma skip_while_forall (P : Z → Prop) p s : Forall P s → Forall P (skip_while p s).
Proof. induction 1 as [|c s Hc Hs IH]; [done|]. cbn. destruct (p c); [done|by constructor]. Qed.
Lemma strtrim_forall (P : Z → Prop) s : Forall P s → Forall P (pg_strtrim s).
Proof. intros Hs. unfold pg_strtrim. rewrite Forall_reverse. apply skip_while_forall. rewrite Forall_reverse. by apply skip_while_forall. Qed.

Lemma no_dots nm : Forall (λ c, c ≠ 47 ∧ c ≠ 46) nm → pg_strmatch nm (str "..") = false ∧ pg_strmatch nm (str ".") = false.
Proof. intros Hn. split; apply strmatch_ne; intros ->; apply Forall_cons in Hn as [[_ Hn] _]; by vm_compute in Hn. Qed.

Lemma search_plain d nm types : is_directory (nodes t d) = true → Forall (λ c, c ≠ 47 ∧ c ≠ 46) nm → nm ≠ [] →
  cli_search_dir t (Some d) nm types = Some (find_item t d nm types).
Proof.
  intros Hd Hn Hne. unfold cli_search_dir. rewrite Hd. destruct (no_dots nm Hn) as [-> ->]. by destruct nm.
Qed.

Lemma words_plain nm : plain_name nm → path_words nm = [pg_strtrim nm] ∧ path_start t nm = Some 0.
Proof.
  intros [Hne Hn]. assert (absolute nm = false) as Ha.
  { destruct Hn as [|c nm [Hc _] _]; [done|]. by apply Z.eqb_neq. }
  unfold path_words, path_start. rewrite Ha. split; [|unfold get_cwd; by rewrite (c_bins _ _ _ _ _ Ht)].
  change CLI_MAX_ARGVS with (S 63). cbn [pg_strtok]. rewrite strtok_last; [done| |done]. eapply Forall_impl; [exact Hn|]. by intros c [].
Qed.

Lemma dirs_here d : d ∈ [0; 3; b] → is_directory (nodes t d) = true.
Proof. intros Hd. pose proof (c_dirs _ _ _ _ _ Ht) as Hf. by eapply forallb_forall in Hf; [|apply list_elem_of_In]. Qed.

Lemma find_node_path path : path ≠ [] →
  cli_find_node t path = if pg_strmatch path CLI_ROOT_NAME then Some (cli_root_node t)
                         else fst <$> follow t (path_words path) (path_start t path) None.
Proof. by destruct path. Qed.

(** The name as a path of one word *)
Lemma find_plain nm : plain_name nm → ∃ r, cli_find_node t nm = Some r ∧ seen <$> r = assoc (pg_strtrim nm) (known root_entries).
Proof.
  intros Hp. destruct (words_plain nm Hp) as [Ew Es]. destruct Hp as [Hne Hn].
  assert (pg_strmatch nm CLI_ROOT_NAME = false) as Em.
  { apply strmatch_ne. intros ->. by apply Forall_cons in Hn as [[] _]. }
  rewrite <-(c_root_all _ _ _ _ _ Ht), <-find_item_listing.
  exists (find_item t 0 (pg_strtrim nm) CLI_ALL_TYPE). split; [|done].
  rewrite find_node_path, Em, Ew, Es by done. cbn [follow].
  destruct (pg_strtrim nm) as [|c' nm'] eqn:Etr.
  - cbn [cli_search_dir mbind option_bind fmap option_fmap fst]. f_equal.
    pose proof (find_item_listing t 0 [] CLI_ALL_TYPE) as Hl. rewrite (c_root_all _ _ _ _ _ Ht) in Hl.
    by destruct (find_item t 0 [] CLI_ALL_TYPE).
  - rewrite search_plain; [|apply dirs_here; by left|rewrite <-Etr; by apply strtrim_forall|done].
    cbn [mbind option_bind]. destruct (find_item t 0 (c' :: nm') CLI_ALL_TYPE) as [i|]; [|done]. by destruct (is_directory _).
Qed.

Lemma search_bins_none n nm : search_bins t (replicate n None) nm = Some None.
Proof. by induction n. Qed.

Lemma find_cmd_plain nm : plain_name nm → ∃ r, cli_find_cmd t nm = Some r ∧ seen <$> r = verdict nm.
Proof.
  intros Hp. destruct (find_plain nm Hp) as (r & Er & Es). destruct Hp as [Hne Hn]. unfold cli_find_cmd, verdict.
  rewrite Er, <-Es. destruct r as [i|]; [by exists (Some i)|]. cbn [mbind option_bind fmap option_fmap].
  rewrite (c_bins _ _ _ _ _ Ht). cbn [search_bins].
  rewrite !search_plain by (done || apply dirs_here; set_solver). cbn [mbind option_bind].
  pose proof (find_item_listing t 0 nm CLI_EXE_TYPE) as H0. pose proof (find_item_listing t 3 nm CLI_EXE_TYPE) as H3.
  pose proof (find_item_listing t b nm CLI_EXE_TYPE) as Hb.
  rewrite (c_root_exe _ _ _ _ _ Ht) in H0. rewrite (c_sbin_exe _ _ _ _ _ Ht) in H3. rewrite (c_bin_exe _ _ _ _ _ Ht) in Hb.
  destruct (find_item t 0 nm _); [done|]. cbn [mbind option_bind]. rewrite <-H3, <-Hb.
  destruct (find_item t 3 nm _) as [i|]; [by exists (Some i)|]. cbn [mbind option_bind fmap option_fmap].
  destruct (find_item t b nm _) as [i|]; [by exists (Some i)|]. cbn [mbind option_bind]. exists None.
  by rewrite search_bins_none.
Qed.
End Search.

(** ** The tables again *)

Definition verdict_is (debug ping6 bond : bool) (nm : list Z) (e : entry) : bool :=
  bool_decide (verdict debug ping6 bond nm = Some (nm, e)).
Definition plain_names (l : list (list Z)) : bool := forallb (λ nm, negb (bool_decide (nm = [])) && forallb (λ c, negb ((c =? 47) || (c =? 46))) nm) l.

Lemma aliases_found debug ping6 bond :
  forallb (λ '(nm, a), verdict_is debug ping6 bond nm (CLI_ALIAS_NODE, None, Some a)) alias_table = true.
Proof. by destruct debug, ping6, bond; vm_compute. Qed.
Lemma commands_found debug ping6 bond :
  forallb (λ '(nm, f), verdict_is debug ping6 bond nm (CLI_CMD_NODE, Some f, None)) command_symbols = true.
Proof. by destruct debug, ping6, bond; vm_compute. Qed.
Lemma names_plain : plain_names (alias_table.*1 ++ command_symbols.*1) = true.
Proof. by vm_compute. Qed.
(** What else there is, is known as such to [Console]. *)
Lemma others_known debug ping6 bond :
  forallb (λ nm, bool_decide (nm ∈ alias_table.*1) || bool_decide (nm ∈ command_symbols.*1) ||
                 existsb (pg_strmatch (pg_strtrim nm)) other_commands)
    ((known root_entries).*1 ++ (known (sbin_entries debug)).*1 ++ (known (bin_entries ping6 bond)).*1) = true.
Proof. by destruct debug, ping6, bond; vm_compute. Qed.

Lemma assoc_in {A} nm (l : list (list Z * A)) a : assoc nm l = Some a → (nm, a) ∈ l.
Proof.
  induction l as [|[n b] l IH]; [done|]. cbn. destruct (pg_strmatch n nm) eqn:E; [|right; by apply IH].
  apply strmatch_spec in E as ->. intros [= ->]. by left.
Qed.

Lemma forallb_in {A} (f : A → bool) l a : forallb f l = true → a ∈ l → f a = true.
Proof. intros Hf Ha. eapply forallb_forall in Hf; [exact Hf|]. by apply list_elem_of_In. Qed.

Lemma verdict_in debug ping6 bond nm e : verdict debug ping6 bond nm = Some e →
  nm ∈ (known (sbin_entries debug)).*1 ++ (known (bin_entries ping6 bond)).*1 ∨ pg_strtrim nm ∈ (known root_entries).*1.
Proof.
  unfold verdict. destruct (assoc _ (known root_entries)) as [e0|] eqn:E0.
  { apply assoc_in, (list_elem_of_fmap_2 fst) in E0. tauto. }
  destruct (assoc nm (known (sbin_entries _))) as [e1|] eqn:E1.
  { apply assoc_in, (list_elem_of_fmap_2 fst) in E1. intros _. left. apply elem_of_app. by left. }
  intros E2%assoc_in%(list_elem_of_fmap_2 fst). left. apply elem_of_app. by right.
Qed.

Lemma assoc_not_in {A} nm (l : list (list Z * A)) : assoc nm l = None → nm ∉ l.*1.
Proof.
  induction l as [|[n b] l IH]; [intros _; by apply not_elem_of_nil|]. cbn. destruct (pg_strmatch n nm) eqn:E; [done|].
  intros Hl. apply not_elem_of_cons. split; [intros ->; by rewrite strmatch_refl in E|by apply IH].
Qed.

Lemma trimmed_roots : forallb (λ nm, existsb (pg_strmatch nm) other_commands) (known root_entries).*1 = true.
Proof. by vm_compute. Qed.

Lemma unknown_not_found debug ping6 bond nm : assoc nm alias_table = None → assoc nm command_symbols = None →
  is_other nm = false → verdict debug ping6 bond nm = None.
Proof.
  intros Ha Hc Ho. destruct (verdict _ _ _ nm) as [e|] eqn:E; [|done]. exfalso.
  apply orb_false_iff in Ho as [Ho _]. apply verdict_in in E as [E|E].
  - pose proof (forallb_in _ _ nm (others_known debug ping6 bond)) as H. cbv beta in H.
    rewrite elem_of_app in H. specialize (H (or_intror E)). rewrite Ho, orb_false_r in H.
    apply orb_true_iff in H as [H|H]; apply bool_decide_eq_true in H; [by apply (assoc_not_in _ _ Ha)|by apply (assoc_not_in _ _ Hc)].
  - pose proof (forallb_in _ _ _ trimmed_roots E) as H. cbv beta in H. congruence.
Qed.

Lemma table_name nm : nm ∈ alias_table.*1 ++ command_symbols.*1 → plain_name nm.
Proof.
  intros Hn. pose proof (forallb_in _ _ nm names_plain Hn) as H. cbv beta in H. apply andb_true_iff in H as [H1 H2]. split.
  - intros ->. by vm_compute in H1.
  - apply Forall_forall. intros c Hc. pose proof (forallb_in _ _ c H2 Hc) as H. cbv beta in H.
    destruct (Z.eqb_spec c 47), (Z.eqb_spec c 46); done.
Qed.

Lemma not_other_plain nm : nm ≠ [] → is_other nm = false → plain_name nm.
Proof.
  intros Hne [_ Ho]%orb_false_iff. split; [done|]. apply Forall_forall. intros c Hc.
  destruct (Z.eqb_spec c 47), (Z.eqb_spec c 46); try done; exfalso;
    apply not_true_iff_false in Ho; apply Ho, existsb_exists; exists c; (split; [by apply list_elem_of_In|by subst]).
Qed.

Section Refines.
Context `{Env} (debug ping6 bond : bool) (b : Z) (t : cli).
Hypothesis Ht : created debug ping6 bond b t.

Lemma alias_found nm a : assoc nm alias_table = Some a → ∃ i, cli_find_cmd t nm = Some (Some i) ∧
  name (nodes t i) = nm ∧ type (nodes t i) = CLI_ALIAS_NODE ∧ alias_str (nodes t i) = Some a.
Proof.
  intros Ea%assoc_in. pose proof (forallb_in _ _ _ (aliases_found debug ping6 bond) Ea) as Hv. cbv beta iota in Hv.
  apply bool_decide_eq_true in Hv.
  destruct (find_cmd_plain debug ping6 bond b t Ht nm) as (r & Er & Es).
  { apply table_name, elem_of_app. left. exact (list_elem_of_fmap_2 fst _ _ Ea). }
  rewrite Hv in Es. destruct r as [i|]; [|done]. injection Es as E1 E2 E3 E4. by exists i.
Qed.

Lemma command_found nm f : assoc nm command_symbols = Some f → ∃ i, cli_find_cmd t nm = Some (Some i) ∧
  type (nodes t i) = CLI_CMD_NODE ∧ func (nodes t i) = Some f.
Proof.
  intros Ea%assoc_in. pose proof (forallb_in _ _ _ (commands_found debug ping6 bond) Ea) as Hv. cbv beta iota in Hv.
  apply bool_decide_eq_true in Hv.
  destruct (find_cmd_plain debug ping6 bond b t Ht nm) as (r & Er & Es).
  { apply table_name, elem_of_app. right. exact (list_elem_of_fmap_2 fst _ _ Ea). }
  rewrite Hv in Es. destruct r as [i|]; [|done]. injection Es as E1 E2 E3 E4. by exists i.
Qed.

Lemma nothing_found nm : assoc nm alias_table = None → assoc nm command_symbols = None → is_other nm = false →
  cli_find_cmd t nm = Some None.
Proof.
  intros Ha Hc Ho. destruct (decide (nm = [])) as [->|Hne].
  { unfold cli_find_cmd. cbn [cli_find_node mbind option_bind]. rewrite (c_bins _ _ _ _ _ Ht). done. }
  destruct (find_cmd_plain debug ping6 bond b t Ht nm (not_other_plain nm Hne Ho)) as (r & Er & Es).
  rewrite (unknown_not_found debug ping6 bond nm Ha Hc Ho) in Es. by destruct r.
Qed.

Lemma command_modelled nm f : assoc nm command_symbols = Some f → is_Some (modelled f).
Proof.
  intros Ea%assoc_in. assert (forallb (λ '(_, f), match modelled f with Some _ => true | None => false end) command_symbols = true) as Hm
    by reflexivity.
  pose proof (forallb_in _ _ _ Hm Ea) as Hf. cbv beta iota in Hf. by destruct (modelled f).
Qed.

Lemma execute_in_tables fuel buf : Console.cli_execute fuel buf ≠ Undef → execute_in t fuel buf = Console.cli_execute fuel buf.
Proof.
  revert buf. induction fuel as [|fuel IH]; intros buf; [done|]. cbn [execute_in Console.cli_execute].
  destruct (pg_strtrim buf) as [|c p]; [done|]. destruct (_ =? 35); [done|]. destruct (_ || _); [done|].
  destruct (defined_as _) as [argv| |]; [|done..]. cbn [mbind res_bind]. destruct argv as [|nm argv]; [done|].
  destruct (assoc nm alias_table) as [a|] eqn:Ea.
  - destruct (alias_found nm a Ea) as (i & -> & En & Et & Es). cbn [defined_as mbind res_bind]. rewrite Et, Es, En. apply IH.
  - rewrite assoc_commands. destruct (assoc nm command_symbols) as [f|] eqn:Ef.
    + destruct (command_found nm f Ef) as (i & -> & Et & Es). cbn [defined_as mbind res_bind]. rewrite Et, Es. cbn [mbind option_bind].
      destruct (command_modelled nm f Ef) as [h ->]. done.
    + cbn [mbind option_bind]. destruct (is_other nm) eqn:Eo; [done|]. intros _.
      by rewrite nothing_found.
Qed.
End Refines.

(** What [Console] makes of a line is what the search in the tree makes of it
    that pktgen creates, whatever is compiled in: the alias or the command the line
    is carried out as is the one that is found first, in the root directory, in
    [/sbin] or in [/pktgen/bin], and nothing is found for a name that is refused. *)
Theorem console_like_tree `{Env} realloc version debug ping6 bond t fuel buf :
  pktgen_cli_create realloc version debug ping6 bond = Some (Some t) →
  Console.cli_execute fuel buf ≠ Undef → execute_in t fuel buf = Console.cli_execute fuel buf.
Proof. intros Ht%pktgen_cli_created. by eapply execute_in_tables. Qed.

Lemma tree_created realloc version debug ping6 bond : ∃ t, pktgen_cli_create realloc version debug ping6 bond = Some (Some t).
Proof.
  destruct (pktgen_cli_create realloc version debug ping6 bond) as [[t|]|] eqn:E; [by exists t|exfalso..];
    assert (report 0 <$> (o ← pktgen_cli_create realloc version debug ping6 bond; o) = None) as H by (by rewrite E); clear E;
    destruct debug, ping6, bond; vm_compute in H; discriminate H.
Qed.

Lemma console_like_tree_witness : ∃ t, pktgen_cli_create (λ _, No_memory) [] false false false = Some (Some t) ∧
  @execute_in lab t 2 (str " str ") = @Console.cli_execute lab 2 (str " str ").
Proof.
  destruct (tree_created (λ _, No_memory) [] false false false) as [t Et]. exists t. split; [exact Et|].
  apply (@console_like_tree lab (λ _, No_memory) [] false false false t 2 (str " str ") Et). vm_compute. discriminate.
Defined.
