(* ===== verification/CliTreeOk.v ===== *)
(** * The directory tree stays a tree

    Every node of the pool is free or in the tree, once; [mkdir] and [cd] keep this,
    and so does [rm] on what can be removed safely, of which it frees all. *)
From Stdlib Require Import Ascii String.
From S2P Require Import Prelude Strings CliEnv CliMap CliTree.

(** ** The invariant *)

Definition live (t : cli) (i : Z) : Prop := 0 ≤ i < nb_nodes t ∧ i ∉ free_nodes t.
Definition node_types : list Z := [CLI_DIR_NODE; CLI_CMD_NODE; CLI_FILE_NODE; CLI_ALIAS_NODE].

(** [i] is [d] or is found under it. *)
Inductive below (t : cli) (d : Z) : Z → Prop :=
  | below_refl : below t d d
  | below_step i p : parent (nodes t i) = Some p → below t d p → below t d i.

Definition dirs_of (l : list (option Z)) : list Z := omap id l.

Record shape_ok (t : cli) : Prop := {
  ok_limited : unlimited t = false;
  ok_free : NoDup (free_nodes t) ∧ ∀ i, i ∈ free_nodes t → 0 ≤ i < nb_nodes t;
  ok_spare : ∀ i, ¬ live t i → items (nodes t i) = [];
  ok_root : ∃ r, root t = [r] ∧ live t r ∧ parent (nodes t r) = None ∧ type (nodes t r) = CLI_DIR_NODE;
  ok_items : ∀ d, live t d → NoDup (items (nodes t d)) ∧ ∀ i, i ∈ items (nodes t d) → live t i ∧ parent (nodes t i) = Some d;
  ok_parent : ∀ i, live t i → match parent (nodes t i) with
                              | None => root t = [i] | Some d => live t d ∧ i ∈ items (nodes t d) end;
  ok_types : ∀ i, live t i → type (nodes t i) ∈ node_types;
  ok_depth : ∃ depth : Z → nat, ∀ i d, live t i → parent (nodes t i) = Some d → depth i = S (depth d) }.

Definition bins_ok (t : cli) : Prop :=
  length (bins t) = CLI_MAX_BINS ∧ (∀ d, d ∈ dirs_of (bins t) → live t d) ∧ NoDup (dirs_of (drop 1 (bins t))) ∧
  ∀ d, d ∈ dirs_of (drop 1 (bins t)) → is_directory (nodes t d) = true.

Record tree_ok (t : cli) : Prop := { ok_shape :> shape_ok t; ok_bins : bins_ok t }.

Lemma ok_child t i d : shape_ok t → live t i → parent (nodes t i) = Some d → live t d ∧ i ∈ items (nodes t d).
Proof. intros Ht Hi Ep. pose proof (ok_parent t Ht i Hi) as H. by rewrite Ep in H. Qed.

Lemma below_trans t a b c : below t a b → below t b c → below t a c.
Proof. intros Hab. induction 1 as [|i p Ep _ IH]; [done|]. by eapply below_step. Qed.

Lemma below_live t d i : shape_ok t → live t i → below t d i → live t d.
Proof. intros Ht Hi. induction 1 as [|i p Ep _ IH]; [done|]. apply IH. by eapply ok_child. Qed.

Lemma below_depth t depth d i : shape_ok t → (∀ i d, live t i → parent (nodes t i) = Some d → depth i = S (depth d)) →
  live t i → below t d i → i = d ∨ (depth d < depth i)%nat.
Proof.
  intros Ht Hd Hi. induction 1 as [|i p Ep _ IH]; [by left|]. right. rewrite (Hd i p Hi Ep).
  destruct IH as [->|]; [by eapply ok_child|lia..].
Qed.

(** A child is below its parent only. *)
Lemma below_parent t d i c : shape_ok t → live t i → parent (nodes t i) = Some d → below t c i → c = i ∨ below t c d.
Proof. intros Ht Hi Ep Hb. inversion Hb as [|i' p Ep' Hp]; subst; [by left|right]. congruence. Qed.

(** ** Searching *)

Lemma in_find {A} (P : A → Prop) `{∀ x, Decision (P x)} l i x : list_find P l = Some (i, x) → x ∈ l.
Proof. intros [Hl _]%list_find_Some. by eapply list_elem_of_lookup_2. Qed.

Definition live_opt (t : cli) (o : option Z) : Prop := ∀ d, o = Some d → live t d.

Lemma live_some t d : live t d → live_opt t (Some d).
Proof. by intros Hd e [= <-]. Qed.
Lemma live_none t : live_opt t None.
Proof. done. Qed.
#[local] Hint Resolve live_some live_none : core.

Lemma cwd_live t : tree_ok t → live_opt t (get_cwd t).
Proof.
  intros Ht d Ed. apply (ok_bins t Ht). apply list_elem_of_omap. exists (Some d). split; [|done].
  unfold get_cwd in Ed. destruct (bins t !! 0%nat) as [b|] eqn:E; [|done]. cbn in Ed. subst b. by eapply list_elem_of_lookup_2.
Qed.
Lemma root_live t : tree_ok t → live_opt t (cli_root_node t).
Proof. intros Ht d. destruct (ok_root t Ht) as (r & Er & Hr & _). unfold cli_root_node. rewrite Er. by intros [= <-]. Qed.
#[local] Hint Resolve cwd_live root_live : core.

Lemma parent_live t d : tree_ok t → live t d → live_opt t (parent (nodes t d)).
Proof. intros Ht Hd p Ep. by apply (ok_child t d p Ht). Qed.

Lemma item_live t d nm types i : tree_ok t → live t d → find_item t d nm types = Some i → live t i.
Proof.
  intros Ht Hd. unfold find_item. destruct (list_find _ _) as [[k j]|] eqn:E; [|done]. intros [= <-].
  apply in_find in E. by apply (ok_items t Ht d Hd).
Qed.

Lemma search_dir_live t dir nm types r : tree_ok t → live_opt t dir → cli_search_dir t dir nm types = Some r → live_opt t r.
Proof.
  intros Ht Hdir. unfold cli_search_dir. destruct nm as [|c nm]; [by intros [= <-]|]. cbv zeta.
  assert (∀ o, live_opt t o →
    (if pg_strmatch (c :: nm) (str "..") then d ← o; Some (parent (nodes t d))
     else if pg_strmatch (c :: nm) (str ".") then Some o else d ← o; Some (find_item t d (c :: nm) types)) = Some r → live_opt t r) as Hl.
  { intros [d|] Ho; cbn [mbind option_bind].
    - specialize (Ho d eq_refl). repeat case_match; intros [= <-]; eauto using parent_live. intros i. by apply item_live.
    - repeat case_match; naive_solver. }
  destruct dir as [d|]; [|by apply Hl, cwd_live]. destruct (is_directory _); [by apply Hl|by intros [= <-]].
Qed.

Lemma follow_live t argv : tree_ok t → ∀ dir node n d, live_opt t dir → live_opt t node →
  follow t argv dir node = Some (n, d) → live_opt t n ∧ live_opt t d.
Proof.
  intros Ht. induction argv as [|a argv IH]; intros dir node n d Hd Hn; cbn [follow]; [by intros [= <- <-]|].
  destruct (cli_search_dir t dir a CLI_ALL_TYPE) as [r|] eqn:E; [|done]. cbn [mbind option_bind].
  pose proof (search_dir_live t dir a _ r Ht Hd E) as Hr. destruct r as [i|]; [|by intros [= <- <-]].
  destruct (is_directory _); [by apply IH|by intros [= <- <-]].
Qed.

Lemma start_live t path : tree_ok t → live_opt t (path_start t path).
Proof. intros Ht. unfold path_start. destruct (absolute path); auto. Qed.

Lemma find_node_live t path r : tree_ok t → cli_find_node t path = Some r → live_opt t r.
Proof.
  intros Ht. unfold cli_find_node. destruct path as [|c path]; [by intros [= <-]|].
  destruct (pg_strmatch _ _); [intros [= <-]; auto|].
  destruct (follow _ _ _ _) as [[n d]|] eqn:E; [|done]. intros [= <-].
  apply (follow_live t _ Ht _ _ _ _ (start_live t _ Ht) (live_none t)) in E. tauto.
Qed.

(** ** Adding a node *)

Lemma set_node_at t i f : nodes (set_node i f t) i = f (nodes t i).
Proof. unfold set_node. cbn. by rewrite decide_True. Qed.
Lemma set_node_ne t i j f : j ≠ i → nodes (set_node i f t) j = nodes t j.
Proof. intros Hn. unfold set_node. cbn. by rewrite decide_False. Qed.

(** A node taken from the free ones and put into the directory [p] *)
Record grafted (t : cli) (i p ty : Z) (t' : cli) : Prop := {
  gr_free : free_nodes t = i :: free_nodes t';
  gr_same : unlimited t' = unlimited t ∧ nb_nodes t' = nb_nodes t ∧ root t' = root t ∧ bins t' = bins t;
  gr_parent : ∀ j, parent (nodes t' j) = if decide (j = i) then Some p else parent (nodes t j);
  gr_items : ∀ j, items (nodes t' j) = if decide (j = p) then i :: items (nodes t p) else items (nodes t j);
  gr_type : ∀ j, type (nodes t' j) = if decide (j = i) then ty else type (nodes t j) }.

Section Graft.
Context (t : cli) (i p ty : Z) (t' : cli).
Hypotheses (Ht : tree_ok t) (Hp : live t p) (Hty : ty ∈ node_types) (Hg : grafted t i p ty t').

Lemma graft_new : ¬ live t i ∧ i ≠ p.
Proof.
  assert (¬ live t i) as Hn. { intros [_ Hi]. apply Hi. rewrite (gr_free _ _ _ _ _ Hg). by left. }
  split; [done|]. by intros ->.
Qed.

Lemma graft_live j : live t' j ↔ live t j ∨ j = i.
Proof.
  destruct (gr_same _ _ _ _ _ Hg) as (_ & En & _). destruct (ok_free t Ht) as [Hnd Hr].
  unfold live. rewrite En, (gr_free _ _ _ _ _ Hg). rewrite (gr_free _ _ _ _ _ Hg) in Hnd, Hr.
  apply NoDup_cons in Hnd as [Hi _]. specialize (Hr i ltac:(by left)).
  rewrite not_elem_of_cons. split; [intros [Hj Hf]; destruct (decide (j = i)); tauto|]. intros [[Hj [_ Hf]]| ->]; [tauto|].
  split; [lia|done].
Qed.

Lemma graft_depth : ∃ depth : Z → nat, ∀ j d, live t' j → parent (nodes t' j) = Some d → depth j = S (depth d).
Proof.
  destruct (ok_depth t Ht) as [depth Hd], graft_new as [Hn Hip].
  exists (λ j, if decide (j = i) then S (depth p) else depth j). intros j d Hj. rewrite (gr_parent _ _ _ _ _ Hg).
  destruct (decide (j = i)) as [->|Hji]; [intros [= <-]; by rewrite decide_False by done|].
  apply graft_live in Hj as [Hj|]; [|done]. intros Ep. rewrite decide_False; [by apply Hd|]. intros ->. by apply (ok_child t j i Ht Hj) in Ep as [].
Qed.

Lemma graft_ok : tree_ok t'.
Proof.
  destruct (gr_same _ _ _ _ _ Hg) as (Eu & En & Er & Eb), graft_new as [Hn Hip], (ok_free t Ht) as [Hnd Hr].
  rewrite (gr_free _ _ _ _ _ Hg) in Hnd, Hr. apply NoDup_cons in Hnd as [Hi Hnd].
  split; [constructor|].
  - rewrite Eu. apply Ht.
  - split; [done|]. rewrite En. intros j Hj. apply Hr. by right.
  - intros j Hj. rewrite graft_live in Hj. rewrite (gr_items _ _ _ _ _ Hg). rewrite decide_False by (intros ->; tauto).
    apply (ok_spare t Ht). tauto.
  - destruct (ok_root t Ht) as (r & E1 & E2 & E3 & E4). exists r. rewrite Er, (gr_parent _ _ _ _ _ Hg), (gr_type _ _ _ _ _ Hg), graft_live.
    assert (r ≠ i) by by intros ->. rewrite !decide_False by done. auto.
  - intros d Hd. rewrite (gr_items _ _ _ _ _ Hg). apply graft_live in Hd as [Hd| ->].
    + destruct (ok_items t Ht d Hd) as [Hnd' Hc]. destruct (decide (d = p)) as [->|].
      * split; [apply NoDup_cons; split; [|done]; by intros [?%Hn _]%Hc|]. intros j. rewrite (gr_parent _ _ _ _ _ Hg), graft_live, elem_of_cons.
        intros [-> |[Hj Ej]%Hc]; [rewrite decide_True by done; auto|]. rewrite decide_False by by intros ->. auto.
      * split; [done|]. intros j [Hj Ej]%Hc. rewrite (gr_parent _ _ _ _ _ Hg), graft_live. rewrite decide_False by by intros ->. auto.
    + rewrite decide_False by done. rewrite (ok_spare t Ht i Hn).
      split; [constructor|]. by intros j Hj%elem_of_nil.
  - intros j Hj. rewrite (gr_parent _ _ _ _ _ Hg). destruct (decide (j = i)) as [->|Hji].
    + rewrite graft_live, (gr_items _ _ _ _ _ Hg), decide_True by done. split; [by left|by left].
    + apply graft_live in Hj as [Hj|]; [|done]. pose proof (ok_parent t Ht j Hj) as H. rewrite Er. destruct (parent (nodes t j)) as [d|]; [|done].
      rewrite graft_live, (gr_items _ _ _ _ _ Hg). destruct H as [Hd Hin]. split; [by left|]. destruct (decide (d = p)) as [->|]; [by right|done].
  - intros j Hj. rewrite (gr_type _ _ _ _ _ Hg). destruct (decide (j = i)); [done|]. apply graft_live in Hj as [|]; [by apply Ht|done].
  - exact graft_depth.
  - destruct (ok_bins t Ht) as (H1 & H2 & H3 & H4). unfold bins_ok. rewrite Eb. split_and!; [done| |done|].
    + intros d Hd. apply graft_live. left. by apply H2.
    + intros d Hd. unfold is_directory, is_node. rewrite (gr_type _ _ _ _ _ Hg). rewrite decide_False; [by apply H4|].
      intros ->. apply Hn, H2. destruct (bins t) as [|b l]; [done|]. unfold dirs_of in *. cbn in *. rewrite drop_0 in Hd. destruct b; [by right|done].
Qed.
End Graft.

(** What the invariant does not look at may change. *)
Record alike (t t' : cli) : Prop := {
  al_same : unlimited t' = unlimited t ∧ nb_nodes t' = nb_nodes t ∧ root t' = root t ∧ free_nodes t' = free_nodes t;
  al_node : ∀ j, parent (nodes t' j) = parent (nodes t j) ∧ items (nodes t' j) = items (nodes t j) ∧ type (nodes t' j) = type (nodes t j) }.

Lemma alike_live t t' j : alike t t' → live t' j ↔ live t j.
Proof. intros Ha. destruct (al_same _ _ Ha) as (_ & En & _ & Ef). unfold live. by rewrite En, Ef. Qed.

Lemma alike_ok t t' : tree_ok t → alike t t' → bins_ok t' → tree_ok t'.
Proof.
  intros Ht Ha Hb. destruct (al_same _ _ Ha) as (Eu & En & Er & Ef).
  assert (∀ j, live t' j ↔ live t j) as Hl by (intros j; by apply alike_live).
  split; [constructor|done].
  - rewrite Eu. apply Ht.
  - rewrite Ef, En. apply Ht.
  - intros i. destruct (al_node _ _ Ha i) as (_ & -> & _). rewrite Hl. apply (ok_spare t Ht).
  - destruct (ok_root t Ht) as (r & E1 & E2 & E3 & E4). exists r. destruct (al_node _ _ Ha r) as (-> & _ & ->). by rewrite Er, Hl.
  - intros d Hd%Hl. destruct (al_node _ _ Ha d) as (_ & -> & _). destruct (ok_items t Ht d Hd) as [H1 H2]. split; [done|].
    intros i Hi. destruct (al_node _ _ Ha i) as (-> & _ & _). rewrite Hl. by apply H2.
  - intros i Hi%Hl. destruct (al_node _ _ Ha i) as (-> & _ & _). pose proof (ok_parent t Ht i Hi) as H. rewrite Er.
    destruct (parent _) as [d|]; [|done]. destruct (al_node _ _ Ha d) as (_ & -> & _). by rewrite Hl.
  - intros i Hi%Hl. destruct (al_node _ _ Ha i) as (_ & _ & ->). by apply Ht.
  - destruct (ok_depth t Ht) as [depth Hd]. exists depth. intros i d Hi%Hl. destruct (al_node _ _ Ha i) as (-> & _ & _). by apply Hd.
Qed.

Lemma alike_bins t t' : alike t t' → bins t' = bins t → bins_ok t → bins_ok t'.
Proof.
  intros Ha Eb (H1 & H2 & H3 & H4). unfold bins_ok. rewrite Eb. split_and!; [done| |done|].
  - intros d Hd. rewrite alike_live by done. by apply H2.
  - intros d Hd. unfold is_directory, is_node. destruct (al_node _ _ Ha d) as (_ & _ & ->). by apply H4.
Qed.

(** What an addition leaves: the tree, and no node less *)
Record grown (t t' : cli) : Prop := {
  gn_ok : tree_ok t'; gn_live : ∀ j, live t j → live t' j; gn_root : root t' = root t }.

Lemma grown_refl t : tree_ok t → grown t t.
Proof. by constructor. Qed.
Lemma grown_trans t1 t2 t3 : grown t1 t2 → grown t2 t3 → grown t1 t3.
Proof. intros [] []. constructor; [done|auto|congruence..]. Qed.

Lemma alike_grown t t' : tree_ok t → alike t t' → bins_ok t' → grown t t'.
Proof.
  intros Ht Ha Hb. constructor; [by apply (alike_ok t)|intros j; by rewrite (alike_live t t')|apply Ha].
Qed.

Section Adding.
Context (realloc : Z → realloc_result).

Lemma add_node_grown nm p ty f desc t r t' : tree_ok t → live t p → ty ∈ node_types →
  __add_node realloc nm (Some p) ty f desc t = Some (r, t') → grown t t' ∧ live_opt t' r.
Proof.
  intros Ht Hp Hty. unfold __add_node. destruct (may_add _ _ _ _ _); cbn [negb].
  2: { intros [= <- <-]. by split; [apply grown_refl|]. }
  unfold cli_alloc. rewrite (ok_limited t Ht). destruct (free_nodes t) as [|i free] eqn:Ef; cbn [mbind option_bind].
  { intros [= <- <-]. by split; [apply grown_refl|]. }
  destruct (_ <=? _); [done|]. intros [= <- <-].
  match goal with |- context [set_node p ?g (set_node i ?h ?t1)] => set (t2 := set_node p g (set_node i h t1)) end.
  assert (i ≠ p) as Hip. { intros ->. apply Hp. rewrite Ef. by left. }
  assert (items (nodes t i) = []) as Ei. { apply (ok_spare t Ht). intros [_ Hn]. apply Hn. rewrite Ef. by left. }
  assert (grafted t i p ty t2) as Hg.
  { constructor; [done|done|..]; intros j; unfold t2;
      (destruct (decide (j = p)) as [->|Hjp]; [rewrite set_node_at, set_node_ne by done|rewrite set_node_ne by done; destruct (decide (j = i)) as [->|Hji]; [rewrite set_node_at|by rewrite set_node_ne by done]]);
      rewrite ?decide_True, ?decide_False by done; try done; by case_match. }
  split; [|apply live_some; by apply (graft_live t i p ty t2 Ht Hg); right].
  constructor; [by eapply graft_ok|intros j Hj; apply (graft_live t i p ty t2 Ht Hg); by left|done].
Qed.

Lemma live_opt_grown t t' o : grown t t' → live_opt t o → live_opt t' o.
Proof. intros Hg Ho d Ed. by apply (gn_live _ _ Hg), Ho. Qed.

Lemma add_dirs_grown argv : ∀ path dir n t r t', tree_ok t → live_opt t dir → dir ≠ None → live_opt t n →
  add_dirs realloc argv path dir n t = Some (r, t') → grown t t' ∧ live_opt t' r.
Proof.
  induction argv as [|a argv IH]; intros path dir n t r t' Ht Hd Hne Hn; cbn [add_dirs].
  { intros [= <- <-]. by split; [apply grown_refl|]. }
  cbv zeta. destruct (_ <=? _); [done|]. destruct (cli_find_node t _) as [f|] eqn:Ef; [|done]. cbn [mbind option_bind].
  pose proof (find_node_live t _ f Ht Ef) as Hf. destruct f as [d|]; [by apply IH|].
  destruct dir as [p|]; [|done]. destruct (__add_node _ _ _ _ _ _ _) as [[m t1]|] eqn:Ea; [|done]. cbn [mbind option_bind].
  apply add_node_grown in Ea as [Hg Hm]; [|done|by apply Hd|by left].
  destruct m as [d|]; [|intros [= <- <-]; by split].
  intros E. apply IH in E as [Hg' Hr]; [|by apply Hg|done..]. split; [by eapply grown_trans|done].
Qed.

Lemma root_some t : tree_ok t → cli_root_node t ≠ None.
Proof. intros Ht. destruct (ok_root t Ht) as (r & Er & _). unfold cli_root_node. by rewrite Er. Qed.

Lemma add_dir_grown nm dir t r t' : tree_ok t → live_opt t dir → cli_add_dir realloc nm dir t = Some (r, t') →
  grown t t' ∧ live_opt t' r.
Proof.
  intros Ht Hd. unfold cli_add_dir. destruct (cli_find_node t nm) as [f|] eqn:Ef; [|done]. cbn [mbind option_bind].
  pose proof (find_node_live t nm f Ht Ef) as Hf.
  destruct f as [d|]; [intros [= <- <-]; by split; [apply grown_refl|]|]. cbv zeta.
  destruct (absolute _); apply add_dirs_grown; auto using root_some. { destruct dir; auto. } destruct dir; auto using root_some.
Qed.

Lemma set_alike t i f : (∀ n, parent (f n) = parent n ∧ items (f n) = items n ∧ type (f n) = type n) → alike t (set_node i f t).
Proof.
  intros Hf. constructor; [done|]. intros j. destruct (decide (j = i)) as [->|]; [rewrite set_node_at; apply Hf|by rewrite set_node_ne].
Qed.

Lemma add_alias_grown nm p line desc t r t' : tree_ok t → live t p → cli_add_alias realloc nm (Some p) line desc t = Some (r, t') →
  grown t t' ∧ live_opt t' r.
Proof.
  intros Ht Hp. unfold cli_add_alias. destruct (__add_node _ _ _ _ _ _ _) as [[m t1]|] eqn:Ea; [|done]. cbn [mbind option_bind].
  apply add_node_grown in Ea as [Hg Hm]; [|done|done|by repeat constructor]. destruct m as [i|]; [|done]. intros [= <- <-].
  assert (alike t1 (set_node i (λ n, n <| alias_str := Some line |>) t1)) as Ha by by apply set_alike.
  split; [eapply grown_trans; [exact Hg|]; apply alike_grown; [apply Hg|done|]; apply (alike_bins t1); [done|done|apply Hg]|].
  apply live_some. rewrite (alike_live t1) by done. by apply Hm.
Qed.

Lemma add_str_grown nm f s t r t' : tree_ok t → cli_add_str nm f s t = Some (r, t') → grown t t'.
Proof.
  intros Ht. unfold cli_add_str. destruct (cli_env_string _ _ _ _) as [e|]; [|done]. intros [= <- <-].
  apply alike_grown; [done|by constructor|]. apply (alike_bins t); [by constructor|done|apply Ht].
Qed.
End Adding.

(** ** The search path *)

Lemma dirs_insert l i d : l !! i = Some None → dirs_of (<[i := Some d]> l) ≡ₚ d :: dirs_of l.
Proof.
  revert i. induction l as [|b l IH]; intros [|i]; [done..| |]; cbn [lookup list_lookup]; unfold dirs_of in *; cbn.
  - by intros [= ->].
  - intros Hi. specialize (IH i Hi). destruct b as [e|]; cbn; [|exact IH]. rewrite IH. by rewrite Permutation_swap.
Qed.

Lemma has_bin_spec d l : has_bin d l = true ↔ d ∈ dirs_of l.
Proof.
  unfold has_bin, dirs_of. rewrite list_elem_of_omap, existsb_exists. split.
  - intros (b & Hb%list_elem_of_In & E%bool_decide_eq_true). by exists b.
  - intros (b & Hb & E). exists b. split; [by apply list_elem_of_In|by apply bool_decide_eq_true].
Qed.

Lemma add_bin_grown d t r t' : tree_ok t → live t d → cli_add_bin d t = (r, t') → grown t t'.
Proof.
  intros Ht Hd. unfold cli_add_bin. destruct (is_directory _) eqn:Edir; cbn [negb]; [|intros [= <- <-]; by apply grown_refl].
  destruct (has_bin _ _) eqn:Eh; [intros [= <- <-]; by apply grown_refl|].
  destruct (first_free _) as [i|] eqn:Ei; intros [= <- <-]; [|by apply grown_refl].
  assert (d ∉ dirs_of (drop 1 (bins t))) as Hn by (rewrite <-has_bin_spec; congruence).
  unfold first_free in Ei. destruct (list_find _ _) as [[k b]|] eqn:El; [|done]. cbn in Ei. injection Ei as ->.
  apply list_find_Some in El as (El & -> & _).
  assert (alike t (t <| bins ::= <[S i := Some d]> |>)) as Ha by by constructor.
  apply alike_grown; [done|done|]. destruct (ok_bins t Ht) as (H1 & H2 & H3 & H4).
  unfold bins_ok. cbn [bins]. destruct (bins t) as [|c l] eqn:Eb; [done|]. cbn [drop] in *. rewrite drop_0 in *.
  change (bins (t <| bins ::= <[S i := Some d]> |>)) with (<[S i := Some d]> (bins t)). rewrite Eb.
  change (<[S i := Some d]> (c :: l)) with (c :: <[i := Some d]> l). cbn [drop]. rewrite drop_0. pose proof (dirs_insert l i d El) as Ep.
  split_and!.
  - cbn [length] in *. by rewrite length_insert.
  - intros e He. apply (alike_live _ _ e Ha).
    assert (e = d ∨ e ∈ dirs_of (c :: l)) as [->|]; [|done|by apply H2].
    unfold dirs_of in *. destruct c as [c|]; cbn in *; rewrite Ep in He; rewrite ?elem_of_cons in *; tauto.
  - rewrite Ep. by apply NoDup_cons.
  - intros e. rewrite Ep. intros [->|He]%elem_of_cons; [done|by apply H4].
Qed.

Lemma add_bin_path_grown path t r t' : tree_ok t → cli_add_bin_path path t = Some (r, t') → grown t t'.
Proof.
  intros Ht. unfold cli_add_bin_path. destruct (cli_find_node t path) as [f|] eqn:Ef; [|done]. cbn [mbind option_bind].
  destruct f as [d|]; [|intros [= <- <-]; by apply grown_refl].
  destruct (cli_add_bin d t) as [e t1] eqn:Ea. intros [= <- <-]. eapply add_bin_grown; [done| |exact Ea]. by eapply find_node_live.
Qed.

(** ** Trees of entries *)

Section Entries.
Context (realloc : Z → realloc_result).

Lemma add_entries_grown tree : ∀ p t r t', tree_ok t → live t p → cli_add_entries realloc tree (Some p) t = Some (r, t') → grown t t'.
Proof.
  induction tree as [|e tree IH]; intros p t r t' Ht Hp; cbn [cli_add_entries]; [intros [= <- <-]; by apply grown_refl|].
  assert (∀ o, (∀ n t1, o = Some (n, t1) → grown t t1) →
    ('(n, t1) ← o; match (n : option Z) with Some _ => cli_add_entries realloc tree (Some p) t1 | None => Some (-1, t1) end) = Some (r, t') →
    grown t t') as Hgo.
  { intros [[n t1]|] Ho; [|done]. cbn [mbind option_bind]. specialize (Ho n t1 eq_refl). destruct n; [|intros [= <- <-]; done].
    intros E. eapply grown_trans; [exact Ho|]. exact (IH p t1 r t' (gn_ok _ _ Ho) (gn_live _ _ Ho _ Hp) E). }
  assert (∀ n bin, ('(d, t1) ← cli_add_dir realloc n (Some p) t;
      match d with
      | None => Some (-1, t1)
      | Some _ => t1 ← (if bin : bool then snd <$> cli_add_bin_path n t1 else Some t1); cli_add_entries realloc tree d t1
      end) = Some (r, t') → grown t t') as Hdir.
  { intros n bin. destruct (cli_add_dir _ _ _ _) as [[d t1]|] eqn:Ed; [|done]. cbn [mbind option_bind].
    apply add_dir_grown in Ed as [Hg Hd]; [|done|by apply live_some]. destruct d as [d|]; [|intros [= <- <-]; done].
    destruct (if bin then _ else _) as [t2|] eqn:Et; [|done]. cbn [mbind option_bind]. intros E.
    assert (grown t1 t2) as Hg2.
    { destruct bin; [|injection Et as <-; apply grown_refl, Hg]. destruct (cli_add_bin_path _ _) as [[e2 t3]|] eqn:Eb; [|done].
      injection Et as <-. eapply add_bin_path_grown; [apply Hg|exact Eb]. }
    eapply grown_trans; [exact Hg|]. eapply grown_trans; [exact Hg2|]. exact (IH d t2 r t' (gn_ok _ _ Hg2) (gn_live _ _ Hg2 _ (Hd d eq_refl)) E). }
  destruct e as [n|n|n f h|n f h|n l h|n f s]; [exact (Hdir (str n) false)|exact (Hdir (str n) true)| | | |].
  - apply Hgo. intros m t1 E. by eapply add_node_grown in E as [? _]; [| | |right; left].
  - apply Hgo. intros m t1 E. by eapply add_node_grown in E as [? _]; [| | |right; right; left].
  - apply Hgo. intros m t1 E. by eapply add_alias_grown in E as [? _].
  - destruct (cli_add_str _ _ _ _) as [[e t1]|] eqn:Es; [|done]. cbn [mbind option_bind]. intros E.
    apply add_str_grown in Es as Hg; [|done]. eapply grown_trans; [exact Hg|].
    exact (IH p t1 r t' (gn_ok _ _ Hg) (gn_live _ _ Hg _ Hp) E).
Qed.

Lemma add_tree_grown par tree t r t' : tree_ok t → live_opt t par → cli_add_tree realloc par tree t = Some (r, t') → grown t t'.
Proof.
  intros Ht Hp. unfold cli_add_tree. destruct (ok_root t Ht) as (x & Ex & Hx & _). unfold cli_root_node. rewrite Ex.
  destruct par as [p|]; apply add_entries_grown; auto.
Qed.
End Entries.

(** ** The tree that is created *)

Definition fresh_root : cli_node := blank <| type := CLI_DIR_NODE |> <| name := CLI_ROOT_NAME |>.

Lemma cli_init_fresh realloc t : cli_init realloc 0 = Some (Some t) →
  unlimited t = false ∧ nb_nodes t = 256 ∧ free_nodes t = seqZ 1 255 ∧ root t = [0] ∧ bins t = Some 0 :: replicate 31 None ∧
  ∀ j, nodes t j = if decide (j = 0) then fresh_root else blank.
Proof. intros E. vm_compute in E. injection E as <-. split_and!; try reflexivity. Qed.

Lemma cli_init_ok realloc t : cli_init realloc 0 = Some (Some t) → tree_ok t.
Proof.
  intros (Eu & En & Ef & Er & Eb & Hn)%cli_init_fresh.
  assert (∀ i, live t i ↔ i = 0) as Hl. { intros i. unfold live. rewrite En, Ef, elem_of_seqZ. lia. }
  assert (∀ j, parent (nodes t j) = None ∧ items (nodes t j) = []) as Hj by (intros j; rewrite Hn; by case_decide).
  split; [constructor|].
  - done.
  - rewrite Ef, En. split; [apply NoDup_seqZ|]. intros i. rewrite elem_of_seqZ. lia.
  - intros i _. apply Hj.
  - exists 0. rewrite Hl. split_and!; [done|done|apply Hj|]. by rewrite Hn.
  - intros d _. rewrite (proj2 (Hj d)). split; [constructor|]. by intros i Hi%elem_of_nil.
  - intros i ->%Hl. by rewrite (proj1 (Hj 0)).
  - intros i ->%Hl. rewrite Hn. by left.
  - exists (λ _, O). intros i d _. by rewrite (proj1 (Hj i)).
  - unfold bins_ok, dirs_of. rewrite Eb. change (omap id (Some 0 :: replicate 31 None)) with [0].
    change (omap id (drop 1 (Some 0 :: replicate 31 None))) with (@nil Z). split_and!; [done| |constructor|].
    + intros d ->%list_elem_of_singleton. by apply Hl.
    + by intros d Hd%elem_of_nil.
Qed.

Lemma grown_added t b : grown t (t <| default_tree_added := b |>) ↔ tree_ok t.
Proof.
  split; [intros Hg|intros Ht; apply alike_grown; [done|by constructor|apply (alike_bins t); [by constructor|done|apply Ht]]].
  assert (alike (t <| default_tree_added := b |>) t) as Ha by by constructor.
  apply (alike_ok _ _ (gn_ok _ _ Hg) Ha). apply (alike_bins _ _ Ha eq_refl). apply Hg.
Qed.

Lemma default_tree_grown realloc version debug t r t' : tree_ok t →
  cli_default_tree_init realloc version debug t = Some (r, t') → grown t t'.
Proof.
  intros Ht. unfold cli_default_tree_init. destruct (default_tree_added t); [intros [= <- <-]; by apply grown_refl|].
  destruct (cli_add_tree _ _ _ _) as [[e t1]|] eqn:Ea; [|done]. cbn [mbind option_bind]. intros [= <- <-].
  pose proof (proj2 (grown_added t true) Ht) as H1. apply add_tree_grown in Ea as H2; [|apply H1|done].
  destruct (_ =? 0); [by eapply grown_trans|]. eapply grown_trans; [exact H1|]. eapply grown_trans; [exact H2|]. apply grown_added, H2.
Qed.

Lemma create_ok realloc version debug ping6 bond t : pktgen_cli_create realloc version debug ping6 bond = Some (Some t) → tree_ok t.
Proof.
  unfold pktgen_cli_create. destruct (cli_init realloc 0) as [[t0|]|] eqn:E0; [|done..]. cbn [mbind option_bind].
  apply cli_init_ok in E0. unfold init_tree.
  destruct (cli_default_tree_init _ _ _ _) as [[e1 t1]|] eqn:E1; [|done]. cbn [mbind option_bind].
  apply default_tree_grown in E1; [|done]. destruct (e1 =? 0); cbn [negb]; [|done].
  destruct (cli_add_tree _ _ _ _) as [[e2 t2]|] eqn:E2; [|done]. cbn [mbind option_bind].
  apply add_tree_grown in E2; [|apply E1|apply root_live, E1]. destruct (e2 =? 0); cbn [negb]; [|done].
  destruct (cli_add_bin_path _ _) as [[e3 t3]|] eqn:E3; [|done]. cbn [mbind option_bind].
  apply add_bin_path_grown in E3; [|exact (gn_ok _ _ E2)]. intros E. assert (t = t3) as -> by (destruct (e3 =? 0); by injection E). apply E3.
Qed.
