(* ===== verification/CliTreeRm.v ===== *)
(** * Removing from the directory tree

    [cli_remove_node] frees a node and all nodes under it, and leaves a tree; what
    sessions of [mkdir], [cd] and [rm] keep; and what they do not. *)
From Stdlib Require Import Ascii String.
From S2P Require Import Prelude Strings CliEnv CliMap CliTree CliTreeOk.

(** ** What a removal leaves *)

Definition drop_bin (b : list (option Z)) (d : Z) : list (option Z) := default b (remove_bin d b).
Definition dir_nodes (t : cli) (D : list Z) : list Z := filter (λ j, is_directory (nodes t j) = true) D.

(** The nodes of [D] are freed, in this order, and are in no directory any more. *)
Record removed (t : cli) (D : list Z) (t' : cli) : Prop := {
  rm_free : free_nodes t' = free_nodes t ++ D;
  rm_same : unlimited t' = unlimited t ∧ nb_nodes t' = nb_nodes t ∧ root t' = root t;
  rm_nodes : ∀ j, nodes t' j = nodes t j <| items ::= filter (λ i, i ∉ D) |>;
  rm_bins : bins t' = foldl drop_bin (bins t) (dir_nodes t D) }.

Lemma node_items_id n : n <| items ::= filter (λ i, i ∉ []) |> = n.
Proof.
  destruct n as [? ? ? ? ? ? ? ? ? ? ? l]. unfold upd. cbn. f_equal. induction l as [|i l IH]; [done|].
  rewrite filter_cons_True by apply not_elem_of_nil. by rewrite IH.
Qed.

Lemma removed_nil t : removed t [] t.
Proof. constructor; [by rewrite app_nil_r|done|intros j; by rewrite node_items_id|done]. Qed.

Lemma removed_is_dir t D t' j : removed t D t' → is_directory (nodes t' j) = is_directory (nodes t j).
Proof. intros Hr. by rewrite (rm_nodes _ _ _ Hr). Qed.

Lemma removed_trans t1 D1 t2 D2 t3 : removed t1 D1 t2 → removed t2 D2 t3 → removed t1 (D1 ++ D2) t3.
Proof.
  intros H1 H2. destruct (rm_same _ _ _ H1) as (E1 & E2 & E3), (rm_same _ _ _ H2) as (F1 & F2 & F3). constructor.
  - by rewrite (rm_free _ _ _ H2), (rm_free _ _ _ H1), app_assoc.
  - split_and!; congruence.
  - intros j. rewrite (rm_nodes _ _ _ H2), (rm_nodes _ _ _ H1). destruct (nodes t1 j) as [? ? ? ? ? ? ? ? ? ? ? l]. unfold upd. cbn. f_equal.
    rewrite list_filter_filter. apply list_filter_iff. intros i. rewrite not_elem_of_app. tauto.
  - rewrite (rm_bins _ _ _ H2), (rm_bins _ _ _ H1). unfold dir_nodes. rewrite filter_app, foldl_app. f_equal.
    apply list_filter_iff. intros i. by rewrite (removed_is_dir t1 D1 t2).
Qed.

(** Whole subtrees can be taken out. *)
Record prunable (t : cli) (D : list Z) : Prop := {
  pr_nodup : NoDup D; pr_live : ∀ j, j ∈ D → live t j; pr_inner : ∀ j, j ∈ D → parent (nodes t j) ≠ None;
  pr_closed : ∀ j c, j ∈ D → c ∈ items (nodes t j) → c ∈ D }.

Section Removed.
Context (t : cli) (D : list Z) (t' : cli).
Hypotheses (Hr : removed t D t').

Lemma removed_live j : live t' j ↔ live t j ∧ j ∉ D.
Proof. unfold live. destruct (rm_same _ _ _ Hr) as (_ & -> & _). rewrite (rm_free _ _ _ Hr), not_elem_of_app. tauto. Qed.
Lemma removed_parent j : parent (nodes t' j) = parent (nodes t j).
Proof. by rewrite (rm_nodes _ _ _ Hr). Qed.
Lemma removed_type j : type (nodes t' j) = type (nodes t j).
Proof. by rewrite (rm_nodes _ _ _ Hr). Qed.
Lemma removed_items j : items (nodes t' j) = filter (λ i, i ∉ D) (items (nodes t j)).
Proof. by rewrite (rm_nodes _ _ _ Hr). Qed.

Lemma removed_below d i : below t' d i ↔ below t d i.
Proof.
  split; (induction 1 as [|i p Ep _ IH]; [apply below_refl|apply below_step with p; [|done]]).
  - by rewrite <-removed_parent.
  - by rewrite removed_parent.
Qed.

Hypotheses (Ht : shape_ok t) (Hp : prunable t D).

Lemma removed_ok : shape_ok t'.
Proof.
  destruct (rm_same _ _ _ Hr) as (Eu & En & Er). destruct (ok_free t Ht) as [Hnd Hf]. constructor.
  - rewrite Eu. apply Ht.
  - rewrite (rm_free _ _ _ Hr), En. split.
    + apply NoDup_app. split_and!; [done| |apply Hp]. intros j Hj Hd%(pr_live _ _ Hp). by apply Hd.
    + intros i [Hi|Hi]%elem_of_app; [by apply Hf|by apply (pr_live _ _ Hp)].
  - intros i. rewrite removed_live, removed_items. intros Hi. destruct (decide (i ∈ D)) as [HD|HD].
    2: { rewrite (ok_spare t Ht i); [done|tauto]. }
    destruct (filter _ _) as [|c l] eqn:E; [done|]. exfalso.
    assert (c ∈ filter (λ i, i ∉ D) (items (nodes t i))) as Hc by (rewrite E; by left).
    apply list_elem_of_filter in Hc as [Hn Hc]. apply Hn. by eapply pr_closed.
  - destruct (ok_root t Ht) as (r & E1 & E2 & E3 & E4). exists r. rewrite Er, removed_live, removed_parent, removed_type.
    split_and!; try done. intros Hd. by apply (pr_inner _ _ Hp r Hd).
  - intros d [Hd Hn]%removed_live. rewrite removed_items. destruct (ok_items t Ht d Hd) as [H1 H2]. split; [by apply NoDup_filter|].
    intros i [Hi Hin]%list_elem_of_filter. rewrite removed_live, removed_parent. apply H2 in Hin. tauto.
  - intros i [Hi Hn]%removed_live. rewrite removed_parent. pose proof (ok_parent t Ht i Hi) as H. rewrite Er.
    destruct (parent (nodes t i)) as [d|] eqn:Ep; [|done]. rewrite removed_live, removed_items, list_elem_of_filter.
    destruct H as [Hd Hin]. split_and!; try done. intros HD. apply Hn. by eapply pr_closed.
  - intros i [Hi _]%removed_live. rewrite removed_type. by apply Ht.
  - destruct (ok_depth t Ht) as [depth Hd]. exists depth. intros i d [Hi _]%removed_live. rewrite removed_parent. by apply Hd.
Qed.
End Removed.

(** ** The removal of a node *)

Definition subtree (t : cli) (i : Z) (D : list Z) : Prop := NoDup D ∧ ∀ j, j ∈ D ↔ live t j ∧ below t i j.
(** Only directories have something in them. *)
Definition leaves_empty (t : cli) (i : Z) : Prop :=
  ∀ j, live t j → below t i j → type (nodes t j) ≠ CLI_DIR_NODE → items (nodes t j) = [].

Lemma child_of t c d : shape_ok t → live t d → c ∈ items (nodes t d) → live t c ∧ parent (nodes t c) = Some d.
Proof. intros Ht Hd. by apply (ok_items t Ht d Hd). Qed.

(** What is in [i] or below; [i] may be taken out last. *)
Lemma subtree_prunable t i D : shape_ok t → (∀ j, j ∈ D ↔ live t j ∧ below t i j) → NoDup D → parent (nodes t i) ≠ None → prunable t D.
Proof.
  intros Ht HD Hnd Hi. constructor; [done| | |].
  - intros j Hj%HD. tauto.
  - intros j [Hj Hb]%HD. inversion Hb; subst; congruence.
  - intros j c [Hj Hb]%HD Hc. destruct (child_of t c j Ht Hj Hc) as [Hl Ep]. apply HD. split; [done|by eapply below_step].
Qed.

Lemma filter_absent (i : Z) (l : list Z) : i ∉ l → filter (λ j, j ∉ [i]) l = l.
Proof.
  induction l as [|j l IH]; [done|]. intros [Hj Hl]%not_elem_of_cons. rewrite filter_cons_True by (by intros ->%list_elem_of_singleton).
  by rewrite IH.
Qed.

Lemma unlink_filter (i : Z) (l : list Z) : i ∈ l → NoDup l → unlink i l = Some (filter (λ j, j ∉ [i]) l).
Proof.
  induction l as [|j l IH]; [by intros ?%elem_of_nil|]. intros Hi [Hj Hnd]%NoDup_cons. cbn [unlink].
  destruct (decide (j = i)) as [->|Hne].
  - rewrite filter_cons_False by (intros Hn; apply Hn; by left). by rewrite filter_absent.
  - rewrite filter_cons_True by (by intros ->%list_elem_of_singleton). rewrite IH; [done| |done]. by apply elem_of_cons in Hi as [->|].
Qed.

(** The node itself, when nothing is left in it *)
Lemma unhook t i p l : shape_ok t → live t i → parent (nodes t i) = Some p → unlink i (items (nodes t p)) = Some l →
  items (nodes t i) = [] →
  removed t [i] (cli_free i (set_node p (λ n, n <| items := l |>) (if is_directory (nodes t i) then snd (cli_del_bin i t) else t))).
Proof.
  intros Ht Hi Ep El Ei. destruct (ok_child t i p Ht Hi Ep) as [Hp Hin]. destruct (ok_items t Ht p Hp) as [Hnd Hc].
  rewrite (unlink_filter i _ Hin Hnd) in El. injection El as <-.
  set (t1 := if is_directory (nodes t i) then snd (cli_del_bin i t) else t).
  assert (nodes t1 = nodes t ∧ free_nodes t1 = free_nodes t ∧ unlimited t1 = unlimited t ∧ nb_nodes t1 = nb_nodes t ∧ root t1 = root t ∧
          bins t1 = foldl drop_bin (bins t) (dir_nodes t [i])) as (E1 & E2 & E3 & E4 & E5 & E6).
  { unfold t1, dir_nodes. destruct (is_directory (nodes t i)) eqn:Ed.
    - rewrite filter_cons_True by done. unfold cli_del_bin. rewrite Ed. cbn [negb filter list_filter foldl]. unfold drop_bin.
      by destruct (remove_bin i (bins t)).
    - rewrite filter_cons_False by congruence. done. }
  constructor; [cbn; by rewrite E2|done| |exact E6].
  intros j. change (nodes (cli_free i (set_node p (λ n, n <| items := filter (λ j0, j0 ∉ [i]) (items (nodes t p)) |>) t1)) j)
    with (nodes (set_node p (λ n, n <| items := filter (λ j0, j0 ∉ [i]) (items (nodes t p)) |>) t1) j).
  destruct (decide (j = p)) as [->|Hjp]; [by rewrite set_node_at, E1|]. rewrite set_node_ne, E1 by done.
  assert (i ∉ items (nodes t j)) as Hn.
  { intros Hj. assert (live t j → False) as Hd. { intros Hd. destruct (child_of t i j Ht Hd Hj). congruence. }
    rewrite (ok_spare t Ht j) in Hj by done. by apply elem_of_nil in Hj. }
  destruct (nodes t j) as [? ? ? ? ? ? ? ? ? ? ? lj]. unfold upd. cbn in *. by rewrite filter_absent.
Qed.

Section Recursion.
Context (depth : Z → nat) (nb : Z).

Definition ranked (t : cli) : Prop :=
  shape_ok t ∧ nb_nodes t = nb ∧ ∀ i d, live t i → parent (nodes t i) = Some d → depth i = S (depth d).

(** The nodes that are as deep bound the depth of the recursion. *)
Definition rank (i : Z) : nat := length (filter (λ j, (depth i ≤ depth j)%nat) (seqZ 0 nb)).

Lemma rank_child t i c : ranked t → live t c → parent (nodes t c) = Some i → (rank c < rank i)%nat.
Proof.
  intros (Ht & En & Hd) Hc Ep. destruct (ok_child t c i Ht Hc Ep) as [[Hi _] _]. pose proof (Hd c i Hc Ep) as E.
  unfold rank. rewrite En in Hi. assert (i ∈ seqZ 0 nb) as Hin by (apply elem_of_seqZ; lia). revert Hin. generalize (seqZ 0 nb).
  assert (∀ l, length (filter (λ j, (depth c ≤ depth j)%nat) l) ≤ length (filter (λ j, (depth i ≤ depth j)%nat) l))%nat as Hle.
  { induction l as [|j l IH]; [done|]. destruct (decide (depth c ≤ depth j)%nat).
    - rewrite !filter_cons_True by lia. cbn [length]. lia.
    - rewrite filter_cons_False by done. destruct (decide (depth i ≤ depth j)%nat); [rewrite filter_cons_True by done; cbn [length]; lia|by rewrite filter_cons_False]. }
  induction l as [|j l IH]; [by intros ?%elem_of_nil|]. intros [<-|Hin]%elem_of_cons.
  - rewrite filter_cons_False by lia. rewrite filter_cons_True by lia. cbn [length]. specialize (Hle l). lia.
  - specialize (IH Hin). destruct (decide (depth c ≤ depth j)%nat).
    + rewrite !filter_cons_True by lia. cbn [length]. lia.
    + rewrite filter_cons_False by done. destruct (decide (depth i ≤ depth j)%nat); [rewrite filter_cons_True by done; cbn [length]; lia|by rewrite filter_cons_False].
Qed.

Lemma rank_bound i : (rank i ≤ Z.to_nat nb)%nat.
Proof. unfold rank. etrans; [apply length_filter|]. by rewrite length_seqZ. Qed.

Lemma below_child t i c : ranked t → live t c → parent (nodes t c) = Some i → ¬ below t c i.
Proof.
  intros (Ht & En & Hd) Hc Ep Hb. destruct (ok_child t c i Ht Hc Ep) as [Hi _].
  pose proof (Hd c i Hc Ep). destruct (below_depth t depth c i Ht Hd Hi Hb) as [->|]; lia.
Qed.

Lemma ranked_removed t D t' : ranked t → removed t D t' → prunable t D → ranked t'.
Proof.
  intros (Ht & En & Hd) Hr Hp. split_and!; [by apply (removed_ok t D t')|by rewrite (proj1 (proj2 (rm_same _ _ _ Hr)))|].
  intros i d [Hi _]%(removed_live t D t' Hr). rewrite (removed_parent t D t' Hr). by apply Hd.
Qed.

Lemma leaves_removed t D t' i : removed t D t' → leaves_empty t i → leaves_empty t' i.
Proof.
  intros Hr Hl j [Hj _]%(removed_live t D t' Hr) Hb%(removed_below t D t' Hr). rewrite (removed_type t D t' Hr), (removed_items t D t' Hr).
  intros Hty. by rewrite (Hl j Hj Hb Hty).
Qed.

Lemma leaves_child t i c : leaves_empty t i → parent (nodes t c) = Some i → leaves_empty t c.
Proof. intros Hl Ep j Hj Hb. apply Hl; [done|]. eapply below_trans; [|exact Hb]. eapply below_step; [exact Ep|apply below_refl]. Qed.

Definition removes (remove : Z → cli → option (Z * cli)) (t : cli) (c : Z) : Prop :=
  ∃ t' D, remove c t = Some (0, t') ∧ removed t D t' ∧ subtree t c D.

(** What is below [i] is [i], or below one of what is in it. *)
Lemma below_items t i j : shape_ok t → live t j → below t i j → j = i ∨ ∃ c, c ∈ items (nodes t i) ∧ below t c j.
Proof.
  intros Ht Hj. induction 1 as [|j p Ep Hb IH]; [by left|]. right. destruct (ok_child t j p Ht Hj Ep) as [Hp Hin].
  destruct (IH Hp) as [->|(c & Hc & Hcp)]; [exists j; split; [done|apply below_refl]|]. exists c. split; [done|by eapply below_step].
Qed.

Lemma empty_dir_spec remove i : ∀ l t turns, ranked t → live t i → parent (nodes t i) ≠ None → leaves_empty t i →
  items (nodes t i) = l → (length l ≤ turns)%nat →
  (∀ t c, ranked t → live t c → parent (nodes t c) = Some i → leaves_empty t c → removes remove t c) →
  ∃ t' D, empty_dir remove i turns t = Some (0, t') ∧ removed t D t' ∧ NoDup D ∧ ∀ j, j ∈ D ↔ live t j ∧ below t i j ∧ j ≠ i.
Proof.
  induction l as [|c l IH]; intros t turns Hk Hi Hpi Hl El Hn Hrem.
  { exists t, []. destruct turns; cbn [empty_dir]; rewrite El; (split_and!; [done|apply removed_nil|constructor|]);
      intros j; (split; [by intros ?%elem_of_nil|]); intros (Hj & Hb & Hne); exfalso;
      (destruct (below_items t i j (proj1 Hk) Hj Hb) as [|(c & Hc & _)]; [done|]); rewrite El in Hc; by apply elem_of_nil in Hc. }
  destruct turns as [|turns]; [cbn [length] in Hn; lia|]. cbn [empty_dir]. rewrite El.
  destruct (child_of t c i (proj1 Hk) Hi) as [Hc Ep]; [rewrite El; by left|].
  destruct (Hrem t c Hk Hc Ep (leaves_child t i c Hl Ep)) as (t1 & D1 & -> & Hr1 & Hnd1 & HD1). cbn [mbind option_bind].
  change (0 =? 0) with true. cbv iota.
  assert (prunable t D1) as Hp1. { apply (subtree_prunable t c D1); [apply Hk|done|done|congruence]. }
  pose proof (ranked_removed t D1 t1 Hk Hr1 Hp1) as Hk1.
  assert (i ∉ D1) as HiD. { intros [_ Hb]%HD1. by apply (below_child t i c Hk Hc Ep). }
  assert (items (nodes t1 i) = l) as El1.
  { rewrite (removed_items t D1 t1 Hr1), El. destruct (ok_items t (proj1 Hk) i Hi) as [Hnd _]. rewrite El in Hnd. apply NoDup_cons in Hnd as [Hcl Hnd].
    rewrite filter_cons_False by (intros HcD; apply HcD, HD1; split; [done|apply below_refl]).
    assert (∀ c', c' ∈ l → c' ∉ D1) as Hoth.
    { intros c' Hc' [Hl' Hb]%HD1. destruct (child_of t c' i (proj1 Hk) Hi) as [_ Ep']; [rewrite El; by right|].
      destruct (below_parent t i c' c (proj1 Hk) Hl' Ep' Hb) as [->|Hb']; [done|]. by apply (below_child t i c Hk Hc Ep). }
    clear -Hoth. induction l as [|x l IH]; [done|]. rewrite filter_cons_True by (apply Hoth; by left). f_equal. apply IH. intros c' Hc'. apply Hoth. by right. }
  assert (live t1 i) as Hi1 by (rewrite (removed_live t D1 t1 Hr1); auto).
  assert (parent (nodes t1 i) ≠ None) as Hpi1 by by rewrite (removed_parent t D1 t1 Hr1).
  pose proof (leaves_removed t D1 t1 i Hr1 Hl) as Hl1.
  destruct (IH t1 turns Hk1 Hi1 Hpi1 Hl1 El1 ltac:(cbn [length] in Hn; lia) Hrem) as (t2 & D2 & E2 & Hr2 & Hnd2 & HD2).
  exists t2, (D1 ++ D2). split_and!; [done|by eapply removed_trans| |].
  - apply NoDup_app. split_and!; [done| |done]. intros j Hj (Hj' & _)%HD2. by apply (removed_live t D1 t1 Hr1) in Hj' as [_ Hj'].
  - intros j. rewrite elem_of_app, HD1, HD2, (removed_live t D1 t1 Hr1), (removed_below t D1 t1 Hr1). split.
    + intros [[Hj Hb]|([Hj _] & Hb & Hne)]; [|tauto]. split_and!; [done| |].
      * eapply below_trans; [eapply below_step; [exact Ep|apply below_refl]|done].
      * intros ->. by apply (below_child t i c Hk Hc Ep).
    + intros (Hj & Hb & Hne). destruct (decide (j ∈ D1)) as [HjD|HjD]; [left; by apply HD1|right]. tauto.
Qed.

Lemma is_dir_type t i : shape_ok t → live t i → is_directory (nodes t i) = (type (nodes t i) =? CLI_DIR_NODE).
Proof.
  intros Ht Hi. pose proof (ok_types t Ht i Hi) as H. unfold is_directory, is_node.
  repeat (apply elem_of_cons in H as [->|H]; [done|]). by apply elem_of_nil in H.
Qed.

Lemma remove_node_spec fuel : ∀ i t, ranked t → live t i → parent (nodes t i) ≠ None → leaves_empty t i → (rank i < fuel)%nat →
  removes (cli_remove_node fuel) t i.
Proof.
  induction fuel as [|fuel IH]; intros i t Hk Hi Hpi Hl Hf; [lia|].
  destruct (parent (nodes t i)) as [p|] eqn:Ep; [|done].
  assert (∃ t1 D, (if type (nodes t i) =? CLI_DIR_NODE
                   then empty_dir (cli_remove_node fuel) i (S (length (items (nodes t i)))) t
                   else if existsb (Z.eqb (type (nodes t i))) [CLI_CMD_NODE; CLI_FILE_NODE; CLI_ALIAS_NODE; CLI_STR_NODE]
                        then Some (0, t) else Some (-1, t)) = Some (0, t1) ∧
           removed t D t1 ∧ NoDup D ∧ ∀ j, j ∈ D ↔ live t j ∧ below t i j ∧ j ≠ i) as (t1 & D & E1 & Hr1 & Hnd & HD).
  { destruct (Z.eqb_spec (type (nodes t i)) CLI_DIR_NODE) as [Ety|Ety].
    - apply (empty_dir_spec _ i _ t _ Hk Hi ltac:(by rewrite Ep) Hl eq_refl); [lia|].
      intros t1 c Hk1 Hc Epc Hlc. destruct (ok_child t1 c i (proj1 Hk1) Hc Epc) as [Hi1 _].
      apply IH; [done|done|by rewrite Epc|done|]. pose proof (rank_child t1 i c Hk1 Hc Epc). lia.
    - exists t, []. split_and!; [|apply removed_nil|constructor|].
      + pose proof (ok_types t (proj1 Hk) i Hi) as H. unfold node_types in H.
        apply elem_of_cons in H as [H|H]; [done|]. repeat (apply elem_of_cons in H as [->|H]; [done|]). by apply elem_of_nil in H.
      + intros j. split; [by intros ?%elem_of_nil|]. intros (Hj & Hb & Hne). exfalso.
        destruct (below_items t i j (proj1 Hk) Hj Hb) as [|(c & Hc & _)]; [done|].
        rewrite (Hl i Hi (below_refl t i) Ety) in Hc. by apply elem_of_nil in Hc. }
  assert (i ∉ D) as HiD. { intros (_ & _ & Hne)%HD. done. }
  assert (prunable t D) as Hp.
  { constructor; [done| | |].
    - intros j Hj%HD. tauto.
    - intros j (Hj & Hb & Hne)%HD. inversion Hb; subst; congruence.
    - intros j c (Hj & Hb & Hne)%HD Hc. destruct (child_of t c j (proj1 Hk) Hj Hc) as [Hc' Epc]. apply HD. split_and!; [done|by eapply below_step|].
      intros ->. assert (j = p) as -> by congruence. by apply (below_child t p i Hk Hi Ep). }
  pose proof (ranked_removed t D t1 Hk Hr1 Hp) as Hk1.
  assert (live t1 i) as Hi1 by (rewrite (removed_live t D t1 Hr1); auto).
  assert (parent (nodes t1 i) = Some p) as Ep1 by by rewrite (removed_parent t D t1 Hr1).
  assert (items (nodes t1 i) = []) as Ei1.
  { destruct (items (nodes t1 i)) as [|c l] eqn:E; [done|]. exfalso.
    assert (c ∈ items (nodes t1 i)) as Hc by (rewrite E; by left). rewrite (removed_items t D t1 Hr1), list_elem_of_filter in Hc.
    destruct Hc as [Hn Hc]. destruct (child_of t c i (proj1 Hk) Hi Hc) as [Hc' Epc]. apply Hn, HD.
    split_and!; [done|eapply below_step; [exact Epc|apply below_refl]|]. intros ->. apply (below_child t i i Hk Hi Epc), below_refl. }
  destruct (ok_child t1 i p (proj1 Hk1) Hi1 Ep1) as [Hp1 Hin1]. destruct (ok_items t1 (proj1 Hk1) p Hp1) as [Hndp _].
  pose proof (unlink_filter i _ Hin1 Hndp) as Eul.
  pose proof (unhook t1 i p _ (proj1 Hk1) Hi1 Ep1 Eul Ei1) as Hun.
  eexists _, (D ++ [i]). split_and!; [|eapply removed_trans; [exact Hr1|exact Hun]|].
  - cbn [cli_remove_node]. rewrite Ep. cbv zeta. rewrite E1. cbn [mbind option_bind]. change (0 =? 0) with true. cbv iota.
    replace (items (nodes (if is_directory (nodes t1 i) then _ else _) p)) with (items (nodes t1 p)); [by rewrite Eul|].
    destruct (is_directory (nodes t1 i)) eqn:Ed; [|done]. unfold cli_del_bin. rewrite Ed. cbn [negb]. by destruct (remove_bin _ _).
  - split; [apply NoDup_app; split_and!; [done|intros j Hj ->%list_elem_of_singleton; done|apply NoDup_singleton]|].
    intros j. rewrite elem_of_app, list_elem_of_singleton, HD. split.
    + intros [?| ->]; [tauto|]. split; [done|apply below_refl].
    + intros [Hj Hb]. destruct (decide (j = i)); tauto.
Qed.
End Recursion.

(** ** The search path

    A directory is given up once; the working directory must not be one that is on
    the path as well, and goes. *)
Definition spared (b : list (option Z)) (D : list Z) : Prop :=
  NoDup (dirs_of (drop 1 b)) ∧ ∀ d, head b = Some (Some d) → d ∈ dirs_of (drop 1 b) → d ∉ D.

Lemma dirs_snoc l : dirs_of (l ++ [None]) = dirs_of l.
Proof. unfold dirs_of. rewrite omap_app. apply app_nil_r. Qed.

Lemma remove_bin_some d l l' : remove_bin d l = Some l' → dirs_of l ≡ₚ d :: dirs_of l' ∧ length l' = length l.
Proof.
  revert l'. induction l as [|b l IH]; intros l'; [done|]. cbn [remove_bin]. destruct (decide (b = Some d)) as [->|Hb].
  - intros [= <-]. rewrite dirs_snoc. split; [done|]. rewrite length_app. cbn. lia.
  - destruct (remove_bin d l) as [l1|]; [|done]. cbn. intros [= <-]. destruct (IH l1 eq_refl) as [Ep El]. split; [|cbn; lia].
    unfold dirs_of in *. destruct b as [e|]; cbn; [|done]. rewrite Ep. by rewrite Permutation_swap.
Qed.
Lemma remove_bin_none d l : remove_bin d l = None → d ∉ dirs_of l.
Proof.
  induction l as [|b l IH]; [intros _; apply not_elem_of_nil|]. cbn [remove_bin]. destruct (decide (b = Some d)) as [->|Hb]; [done|].
  destruct (remove_bin d l); [done|]. intros _. specialize (IH eq_refl). unfold dirs_of in *. destruct b as [e|]; cbn; [|done].
  apply not_elem_of_cons. split; [congruence|done].
Qed.

Lemma dirs_cons (b : option Z) l e : e ∈ dirs_of (b :: l) ↔ b = Some e ∨ e ∈ dirs_of l.
Proof. unfold dirs_of. destruct b as [d|]; cbn; [rewrite elem_of_cons|]; intuition congruence. Qed.

Record shrunk (b b' : list (option Z)) : Prop := {
  sh_length : length b' = length b; sh_all : ∀ e, e ∈ dirs_of b' → e ∈ dirs_of b;
  sh_path : ∀ e, e ∈ dirs_of (drop 1 b') → e ∈ dirs_of (drop 1 b) }.

Lemma shrunk_refl b : shrunk b b.
Proof. done. Qed.
Lemma shrunk_trans a b c : shrunk a b → shrunk b c → shrunk a c.
Proof. intros [] []. constructor; [congruence|auto..]. Qed.

Lemma drop_bin_spec b d D : spared b (d :: D) → (spared (drop_bin b d) D) ∧ (d ∉ dirs_of (drop_bin b d)) ∧ shrunk b (drop_bin b d).
Proof.
  destruct b as [|c l]; [intros _; split_and!; [split; [constructor|done]|apply not_elem_of_nil|apply shrunk_refl]|].
  unfold spared, drop_bin. cbn [drop head remove_bin]. rewrite ?drop_0. intros [Hnd Hd].
  destruct (decide (c = Some d)) as [->|Hc].
  - assert (d ∉ dirs_of l) as Hn. { intros Hin. apply (Hd d eq_refl Hin). by left. }
    cbn [default from_option]. unfold id. rewrite dirs_snoc. split_and!; [| |done|].
    + destruct l as [|e l]; [constructor|]. cbn [app drop]. rewrite ?drop_0, dirs_snoc. unfold dirs_of in *. destruct e; [by apply NoDup_cons in Hnd as [_ ?]|done].
    + destruct l as [|e l]; [done|]. cbn [app drop head]. rewrite ?drop_0, dirs_snoc. intros x [= ->] Hx. by apply NoDup_cons in Hnd as [? _].
    + constructor; [cbn; rewrite length_app; cbn; lia| |].
      * intros e. rewrite dirs_snoc, dirs_cons. by right.
      * intros e. cbn [drop]. rewrite ?drop_0. destruct l as [|x l]; [done|]. cbn [app drop]. rewrite ?drop_0, dirs_snoc, dirs_cons. by right.
  - destruct (remove_bin d l) as [l'|] eqn:El; cbn [fmap option_fmap option_map from_option]; unfold id.
    + destruct (remove_bin_some d l l' El) as [Ep Ell]. cbn [drop head]. rewrite ?drop_0. rewrite Ep in Hnd. apply NoDup_cons in Hnd as [Hn Hnd].
      split_and!; [done| | |].
      * intros x Hx Hin HD. apply (Hd x Hx); [rewrite Ep; by right|by right].
      * rewrite dirs_cons. intros [?|?]; [congruence|done].
      * constructor; [cbn; lia|intros e; rewrite !dirs_cons, Ep, elem_of_cons; tauto|]. intros e. cbn [drop]. rewrite ?drop_0, Ep, elem_of_cons. tauto.
    + apply remove_bin_none in El as Hn. cbn [drop head]. rewrite ?drop_0. split_and!; [done| | |apply shrunk_refl].
      * intros x Hx Hin HD. apply (Hd x Hx Hin). by right.
      * rewrite dirs_cons. intros [?|?]; [congruence|done].
Qed.

Lemma drop_bins_spec D : ∀ b, spared b D → spared (foldl drop_bin b D) [] ∧ (∀ d, d ∈ D → d ∉ dirs_of (foldl drop_bin b D)) ∧
  shrunk b (foldl drop_bin b D).
Proof.
  induction D as [|d D IH]; intros b Hs; cbn [foldl]; [split_and!; [done|by intros d Hd%elem_of_nil|done]|].
  destruct (drop_bin_spec b d D Hs) as (Hs' & Hd & Hsh). destruct (IH _ Hs') as (H1 & H2 & H3). split_and!; [done| |by eapply shrunk_trans].
  intros e [->|He]%elem_of_cons; [|by apply H2]. intros Hin. by apply Hd, (sh_all _ _ H3).
Qed.

(** What can be removed safely: only directories have something in them, and the
    working directory, when it is removed, is a directory and not on the path. *)
Definition rm_safe (t : cli) (i : Z) : Prop :=
  leaves_empty t i ∧
  ∀ d, get_cwd t = Some d → is_directory (nodes t d) = false ∨ d ∈ dirs_of (drop 1 (bins t)) → ¬ below t i d.

Lemma removed_bins t i D t' : tree_ok t → removed t D t' → subtree t i D → rm_safe t i → bins_ok t'.
Proof.
  intros Ht Hr [Hnd HD] [_ Hs]. destruct (ok_bins t Ht) as (H1 & H2 & H3 & H4).
  assert (∀ d, head (bins t) = Some (Some d) → get_cwd t = Some d) as Hcwd.
  { intros d Hh. unfold get_cwd. destruct (bins t) as [|b l]; [done|]. cbn in *. congruence. }
  assert (spared (bins t) (dir_nodes t D)) as Hsp.
  { split; [done|]. intros d Hh Hin [_ Hd]%list_elem_of_filter. apply HD in Hd as [_ Hb]. by apply (Hs d (Hcwd d Hh) (or_intror Hin)). }
  destruct (drop_bins_spec _ _ Hsp) as ([Hnd' _] & Hgone & Hsh). unfold bins_ok. rewrite (rm_bins _ _ _ Hr).
  split_and!; [by rewrite (sh_length _ _ Hsh)| |done|].
  - intros d Hd. rewrite (removed_live t D t' Hr). apply (sh_all _ _ Hsh) in Hd as Hin. split; [by apply H2|]. intros HdD.
    destruct (is_directory (nodes t d)) eqn:Ed; [apply (Hgone d); [by apply list_elem_of_filter|done]|].
    assert (get_cwd t = Some d) as Ec.
    { apply Hcwd. destruct (bins t) as [|b l]; [by apply elem_of_nil in Hin|]. apply dirs_cons in Hin as [->|Hin]; [done|].
      exfalso. cbn [drop] in H4. rewrite drop_0 in H4. specialize (H4 d Hin). congruence. }
    apply HD in HdD as [_ Hb]. by apply (Hs d Ec (or_introl Ed)).
  - intros d Hd. rewrite (removed_is_dir t D t' d Hr). by apply H4, (sh_path _ _ Hsh).
Qed.

Lemma remove_node_ok t i : tree_ok t → live t i → parent (nodes t i) ≠ None → rm_safe t i →
  ∃ t' D, cli_remove_node (S (Z.to_nat (nb_nodes t))) i t = Some (0, t') ∧ removed t D t' ∧ subtree t i D ∧ tree_ok t'.
Proof.
  intros Ht Hi Hp Hs. destruct (ok_depth t Ht) as [depth Hd].
  pose proof (conj (ok_shape t Ht) (conj eq_refl Hd) : ranked depth (nb_nodes t) t) as Hk.
  pose proof (rank_bound depth (nb_nodes t) i) as Hb.
  destruct (remove_node_spec depth (nb_nodes t) (S (Z.to_nat (nb_nodes t))) i t Hk Hi Hp (proj1 Hs) ltac:(lia)) as (t' & D & E & Hr & HD).
  exists t', D. split_and!; [done..|]. split; [|by eapply removed_bins].
  apply (removed_ok t D t' Hr Ht). destruct HD. by apply (subtree_prunable t i D Ht).
Qed.

(** ** Sessions *)

(** A command that changes the tree; [rm] is to be given what can be removed
    safely. *)
Inductive cli_step (realloc : Z → realloc_result) (t : cli) : cli → Prop :=
  | step_mkdir argv r t' : mkdir_cmd realloc argv t = Some (r, t') → cli_step realloc t t'
  | step_cd argv r t' : cd_cmd argv t = Some (r, t') → cli_step realloc t t'
  | step_rm argv r t' : rm_cmd argv t = Some (r, t') →
      (∀ path i, argv !! 1%nat = Some path → cli_find_node t path = Some (Some i) → rm_safe t i) → cli_step realloc t t'.

Lemma set_cwd_ok t o : tree_ok t → live_opt t o → tree_ok (set_cwd o t).
Proof.
  intros Ht Ho. assert (alike t (set_cwd o t)) as Ha by by constructor. apply (alike_ok t); [done|done|].
  destruct (ok_bins t Ht) as (H1 & H2 & H3 & H4). unfold bins_ok.
  change (bins (set_cwd o t)) with (<[0%nat := o]> (bins t)). destruct (bins t) as [|c l]; [done|].
  change (<[0%nat := o]> (c :: l)) with (o :: l). cbn [drop] in *. rewrite ?drop_0 in *. split_and!; [done| |done|done].
  intros d [Hd|Hd]%dirs_cons; apply (alike_live t _ d Ha); [by apply Ho|]. apply H2, dirs_cons. by right.
Qed.

Lemma cd_ok t argv r t' : tree_ok t → cd_cmd argv t = Some (r, t') → tree_ok t'.
Proof.
  intros Ht. unfold cd_cmd. destruct (argv !! 1%nat) as [a|]; [|by intros [= <- <-]].
  destruct (pg_strmatch _ _); [by intros [= <- <-]|]. destruct (cli_find_node t a) as [f|] eqn:Ef; [|done]. cbn [mbind option_bind].
  pose proof (find_node_live t a f Ht Ef) as Hf. destruct f as [d|]; intros [= <- <-]; [by apply set_cwd_ok|done].
Qed.

Lemma mkdir_ok realloc t argv r t' : tree_ok t → mkdir_cmd realloc argv t = Some (r, t') → tree_ok t'.
Proof.
  intros Ht. unfold mkdir_cmd. destruct argv as [|a [|b [|]]]; try (intros [= <- <-]; done).
  destruct (cli_add_dir _ _ _ _) as [[d t1]|] eqn:Ed; [|done]. cbn [mbind option_bind]. intros [= <- <-].
  apply add_dir_grown in Ed as [Hg _]; [apply Hg|done|by apply cwd_live].
Qed.

Lemma rm_ok t argv r t' : tree_ok t → rm_cmd argv t = Some (r, t') →
  (∀ path i, argv !! 1%nat = Some path → cli_find_node t path = Some (Some i) → rm_safe t i) → tree_ok t'.
Proof.
  intros Ht E Hs. destruct argv as [|a [|b [|]]]; try (injection E as <- <-; done). unfold rm_cmd in E.
  destruct (cli_find_node t b) as [f|] eqn:Ef; [|done]. cbn [mbind option_bind] in E. pose proof (find_node_live t b f Ht Ef) as Hf.
  destruct f as [i|]; [|by injection E as <- <-]. specialize (Hs b i eq_refl Ef). specialize (Hf i eq_refl).
  destruct (parent (nodes t i)) as [p|] eqn:Ep.
  - destruct (remove_node_ok t i Ht Hf ltac:(by rewrite Ep) Hs) as (t1 & D & E1 & _ & _ & Ht1). rewrite E1 in E. by injection E as <- <-.
  - cbn [cli_remove_node] in E. rewrite Ep in E. by injection E as <- <-.
Qed.

(** Removing a node of the tree that is not the root ends, frees the node and
    all nodes under it, each once, behind those that were free, and leaves a tree:
    nothing else is lost, and no directory of the search path is one that is free. *)
Theorem rm_frees_subtree t i : tree_ok t → live t i → parent (nodes t i) ≠ None → rm_safe t i →
  ∃ t' D, cli_remove_node (S (Z.to_nat (nb_nodes t))) i t = Some (0, t') ∧ tree_ok t' ∧
    free_nodes t' = free_nodes t ++ D ∧ NoDup D ∧ (∀ j, j ∈ D ↔ live t j ∧ below t i j) ∧
    ∀ j, nodes t' j = nodes t j <| items ::= filter (λ i, i ∉ D) |>.
Proof.
  intros Ht Hi Hp Hs. destruct (remove_node_ok t i Ht Hi Hp Hs) as (t' & D & E & Hr & [Hnd HD] & Ht').
  exists t', D. split_and!; [done..|apply Hr|done|done|apply Hr].
Qed.

(** From the tree pktgen creates on, the directories stay a tree, whatever is
    made, entered and safely removed: every node of the pool is free or is in one
    directory, once, with the root above it; and the working directory and those of
    the search path are in the tree. *)
Theorem tree_stays realloc version debug ping6 bond t t' :
  pktgen_cli_create realloc version debug ping6 bond = Some (Some t) → rtc (cli_step realloc) t t' → tree_ok t'.
Proof.
  intros Ht%create_ok Hs. induction Hs as [|t t1 t' H1 _ IH]; [done|]. apply IH.
  destruct H1 as [argv r t1 E|argv r t1 E|argv r t1 E Hs]; [by eapply mkdir_ok|by eapply cd_ok|by eapply rm_ok].
Qed.

(** ** Commands one after the other *)

Definition run_commands (realloc : Z → realloc_result) (ls : list (list string)) (t : cli) : option cli :=
  foldl (λ o l,
    t ← o;
    let argv := str <$> l in
    match l with
    | c :: _ =>
        if (c =? "mkdir")%string then snd <$> mkdir_cmd realloc argv t
        else if (c =? "cd")%string then snd <$> cd_cmd argv t
        else if (c =? "rm")%string then snd <$> rm_cmd argv t else Some t
    | [] => Some t
    end) (Some t) ls.

Definition pktgen_tree : option cli := o ← pktgen_cli_create (λ _, No_memory) [] false false false; o.

(** Entering a directory of the search path and removing it leaves the working
    directory among the free nodes: it is taken off once. *)
Example rm_leaves_cwd_free :
  (t ← pktgen_tree; t ← run_commands (λ _, No_memory) [["cd"; "/sbin"]; ["rm"; "/sbin"]] t;
   d ← get_cwd t; Some (bool_decide (d ∈ free_nodes t)))%string = Some true.
Proof. by vm_compute. Qed.

(** So does entering a command, which is no directory, and removing it. *)
Example rm_leaves_command_free :
  (t ← pktgen_tree; t ← run_commands (λ _, No_memory) [["cd"; "/sbin/ls"]; ["rm"; "/sbin/ls"]] t;
   d ← get_cwd t; Some (bool_decide (d ∈ free_nodes t)))%string = Some true.
Proof. by vm_compute. Qed.

(** A directory made under the name of a file at the root, taken for the parts of a
    path written together, is in the file; removing the file loses it. *)
Example mkdir_in_file :
  (t ← pktgen_tree; t ← run_commands (λ _, No_memory) [["mkdir"; "/copy/right/x"]] t;
   i ← (r ← cli_find_node t (str "/copyright"); r); Some (is_directory (nodes t i), length (items (nodes t i))))%string
  = Some (false, 1%nat).
Proof. by vm_compute. Qed.

(** ** Removing [/sbin] *)

Lemma pktgen_tree_some : ∃ t, pktgen_tree = Some t.
Proof. assert (match pktgen_tree with Some _ => true | None => false end = true) as H by reflexivity. destruct pktgen_tree as [t|]; [by exists t|done]. Qed.
Lemma pktgen_tree_ok t : pktgen_tree = Some t → tree_ok t.
Proof. unfold pktgen_tree. destruct (pktgen_cli_create _ _ _ _ _) as [[t0|]|] eqn:E; [|done..]. intros [= <-]. by eapply create_ok. Qed.

Definition only_dirs_filled (t : cli) : bool :=
  forallb (λ j, (type (nodes t j) =? CLI_DIR_NODE) || bool_decide (items (nodes t j) = [])) (seqZ 0 (nb_nodes t)).

Lemma leaves_empty_check t i : only_dirs_filled t = true → leaves_empty t i.
Proof.
  intros Hc j [Hj _] _ Hty. apply (forallb_forall _ _) with (x := j) in Hc; [|apply list_elem_of_In, elem_of_seqZ; lia].
  apply orb_true_iff in Hc as [Hc|Hc]; [by apply Z.eqb_eq in Hc|by apply bool_decide_eq_true in Hc].
Qed.

Lemma sbin_facts t : pktgen_tree = Some t →
  live t 3 ∧ parent (nodes t 3) = Some 0 ∧ parent (nodes t 0) = None ∧ get_cwd t = Some 0 ∧ only_dirs_filled t = true.
Proof.
  intros E.
  assert ((λ t, (nb_nodes t, bool_decide (3 ∈ free_nodes t), parent (nodes t 3), parent (nodes t 0), get_cwd t, only_dirs_filled t)) <$> pktgen_tree
          = Some (256, false, Some 0, None, Some 0, true)) as H by (by vm_compute).
  rewrite E in H. injection H as H1 H2 H3 H4 H5 H6. apply bool_decide_eq_false in H2. split_and!; [split; [lia|done]|done..].
Qed.

Lemma sbin_safe t : pktgen_tree = Some t → rm_safe t 3.
Proof.
  intros (Hl & H3 & H0 & Hc & Hf)%sbin_facts. split; [by apply leaves_empty_check|]. intros d Hd _ Hb. rewrite Hc in Hd. injection Hd as <-.
  inversion Hb; congruence.
Qed.

Lemma rm_frees_subtree_witness : ∃ t, pktgen_tree = Some t ∧
  ∃ t' D, cli_remove_node (S (Z.to_nat (nb_nodes t))) 3 t = Some (0, t') ∧ tree_ok t' ∧
    free_nodes t' = free_nodes t ++ D ∧ NoDup D ∧ (∀ j, j ∈ D ↔ live t j ∧ below t 3 j) ∧
    ∀ j, nodes t' j = nodes t j <| items ::= filter (λ i, i ∉ D) |>.
Proof.
  destruct pktgen_tree_some as [t E]. exists t. split; [exact E|]. destruct (sbin_facts t E) as (Hl & H3 & _).
  apply (rm_frees_subtree t 3); [by apply pktgen_tree_ok|done|by rewrite H3|by apply sbin_safe].
Defined.

Lemma tree_created_by t : pktgen_tree = Some t → pktgen_cli_create (λ _, No_memory) [] false false false = Some (Some t).
Proof. unfold pktgen_tree. generalize (pktgen_cli_create (λ _, No_memory) [] false false false). intros [[t0|]|]; [|done..]. by intros [= ->]. Qed.

Lemma sbin_found t : pktgen_tree = Some t → cli_find_node t (str "/sbin") = Some (Some 3).
Proof.
  intros E. assert ((t ← pktgen_tree; cli_find_node t (str "/sbin")) = Some (Some 3)) as H by (by vm_compute). by rewrite E in H.
Qed.

Lemma rm_step realloc t path i t' : cli_find_node t path = Some (Some i) → rm_safe t i →
  cli_remove_node (S (Z.to_nat (nb_nodes t))) i t = Some (0, t') → cli_step realloc t t'.
Proof.
  intros Ef Hs Er. apply (step_rm _ t [[]; path] 0 t'); [unfold rm_cmd; by rewrite Ef|]. intros path' i' [= <-]. rewrite Ef. by intros [= <-].
Qed.

Lemma rm_sbin t : pktgen_tree = Some t → ∃ t', rtc (cli_step (λ _, No_memory)) t t'.
Proof.
  intros E. destruct (sbin_facts t E) as (Hl & H3 & _).
  destruct (remove_node_ok t 3 (pktgen_tree_ok t E) Hl ltac:(by rewrite H3) (sbin_safe t E)) as (t' & D & Er & _).
  exists t'. apply rtc_once. by apply (rm_step _ t (str "/sbin") 3 t' (sbin_found t E) (sbin_safe t E)).
Qed.

Lemma tree_stays_witness : ∃ t t', pktgen_cli_create (λ _, No_memory) [] false false false = Some (Some t) ∧
  rtc (cli_step (λ _, No_memory)) t t' ∧ tree_ok t'.
Proof.
  destruct pktgen_tree_some as [t E]. destruct (rm_sbin t E) as [t' Hs].
  exists t, t'. split; [exact (tree_created_by t E)|]. split; [exact Hs|].
  exact (tree_stays (λ _, No_memory) [] false false false t t' (tree_created_by t E) Hs).
Defined.
