(* ===== verification/CliTreePaths.v ===== *)
(** * Paths

    The path of a node, as [pwd] prints it, leads back to it; and making a directory
    three levels deep hides the one it was to be made in. *)
From Stdlib Require Import Ascii String.
From S2P Require Import Prelude Strings CliEnv CliMap CliTree CliTreeFacts CliTreeOk CliTreeRm.

(** ** Words of a path *)

Definition good_name (nm : list Z) : Prop :=
  solid isspace nm ∧ Forall (λ c, c ≠ 47) nm ∧ nm ≠ str "." ∧ nm ≠ str "..".

Lemma good_cons nm : good_name nm → ∃ c l, nm = c :: l.
Proof. intros ((c & l & d & -> & _) & _). by exists c, l. Qed.

Lemma good_app a b : good_name a → good_name b → good_name (a ++ b).
Proof.
  intros ((c & l & d & -> & Hl & Hc & Hd) & Ha & Hne & _) ((c' & l' & d' & -> & Hl' & Hc' & Hd') & Hb & _). split_and!.
  - exists c, (l ++ c' :: l'), d'. split_and!; [done| |done|done]. by rewrite last_app, Hl'.
  - by apply Forall_app.
  - intros E. apply (f_equal length) in E. rewrite length_app in E. cbn in E. lia.
  - intros E. destruct l as [|x l]; [injection E as -> _; by apply Hne|]. apply (f_equal length) in E. rewrite length_app in E. cbn in E. lia.
Qed.

Definition path_of (ws : list (list Z)) : list Z := 47 :: join 47 [] ws.

Lemma join_nonempty ws : ws ≠ [] → Forall good_name ws → join 47 [] ws ≠ [].
Proof.
  intros Hne HF. destruct ws as [|w ws]; [done|]. apply Forall_cons in HF as [Hw _]. destruct (good_cons w Hw) as (c & l & ->).
  by destruct ws.
Qed.

Lemma find_words t ws : ws ≠ [] → Forall good_name ws → (length ws ≤ CLI_MAX_ARGVS)%nat →
  cli_find_node t (path_of ws) = fst <$> follow t ws (cli_root_node t) None.
Proof.
  intros Hne HF Hn. unfold path_of. rewrite find_node_path by done.
  rewrite strmatch_ne by (intros [= E]; by apply (join_nonempty ws)).
  unfold path_words, path_start. cbn [absolute drop]. rewrite drop_0. change (47 =? 47) with true. cbv iota.
  change (join 47 [] ws) with ([] ++ join 47 [] ws). rewrite strtok_join; [done|done|constructor|constructor| |done|done].
  eapply Forall_impl; [exact HF|]. intros w (Hs & Hc & _). done.
Qed.

Lemma search_good t d nm types : is_directory (nodes t d) = true → good_name nm →
  cli_search_dir t (Some d) nm types = Some (find_item t d nm types).
Proof.
  intros Hd Hg. destruct (good_cons nm Hg) as (c & l & ->). unfold cli_search_dir. rewrite Hd.
  destruct Hg as (_ & _ & H1 & H2). by rewrite (strmatch_ne _ (str "..")), (strmatch_ne _ (str ".")).
Qed.

Lemma follow_good t w ws d node : is_directory (nodes t d) = true → good_name w →
  follow t (w :: ws) (Some d) node =
    match find_item t d w CLI_ALL_TYPE with
    | None => Some (None, Some d)
    | Some i => if is_directory (nodes t i) then follow t ws (Some i) (Some i) else Some (Some i, Some d)
    end.
Proof. intros Hd Hw. cbn [follow]. by rewrite search_good. Qed.

(** ** Names that are told apart *)

Definition well_named (t : cli) : Prop := ∀ i p, live t i → parent (nodes t i) = Some p →
  is_directory (nodes t p) = true ∧ good_name (name (nodes t i)) ∧
  ∀ i', i' ∈ items (nodes t p) → name (nodes t i') = name (nodes t i) → i' = i.

Lemma type_all t i : tree_ok t → live t i → is_node (nodes t i) CLI_ALL_TYPE = true.
Proof.
  intros Ht Hi. pose proof (ok_types t Ht i Hi) as H. unfold is_node. unfold node_types in H.
  repeat (apply elem_of_cons in H as [->|H]; [done|]). by apply elem_of_nil in H.
Qed.

Lemma find_own_name t i p : tree_ok t → well_named t → live t i → parent (nodes t i) = Some p →
  find_item t p (name (nodes t i)) CLI_ALL_TYPE = Some i.
Proof.
  intros Ht Hw Hi Ep. destruct (Hw i p Hi Ep) as (_ & _ & Hu). destruct (ok_child t i p Ht Hi Ep) as [_ Hin]. unfold find_item.
  destruct (list_find _ (items (nodes t p))) as [[k j]|] eqn:E.
  - apply list_find_Some in E as (El & Hj & _). apply list_elem_of_lookup_2 in El.
    apply andb_prop_elim in Hj as [Hj _]. apply Is_true_true, strmatch_spec in Hj. cbn. by rewrite (Hu j El Hj).
  - apply list_find_None in E. rewrite Forall_forall in E. exfalso. apply (E i Hin).
    by rewrite strmatch_refl, type_all.
Qed.

(** The names from the root to a node *)
Lemma path_string_words turns : ∀ t r d s, tree_ok t → well_named t → root t = [r] → live t d → path_string turns t d = Some s →
  ∃ ws, s = 47 :: (ws ≫= λ w, w ++ [47]) ∧ Forall good_name ws ∧
    (ws = [] ∧ d = r ∨ ws ≠ [] ∧ fst <$> follow t ws (Some r) None = Some (Some d)) ∧
    (is_directory (nodes t d) = true → ∀ rest, ∃ node, follow t (ws ++ rest) (Some r) None = follow t rest (Some d) node).
Proof.
  induction turns as [|turns IH]; intros t r d s Ht Hw Hr Hd; [done|]. cbn [path_string].
  destruct (parent (nodes t d)) as [p|] eqn:Ep.
  - destruct (ok_child t d p Ht Hd Ep) as [Hp _]. destruct (path_string turns t p) as [s'|] eqn:Es; [|done]. intros [= <-].
    destruct (IH t r p s' Ht Hw Hr Hp Es) as (ws & -> & Hg & _ & Hf). destruct (Hw d p Hd Ep) as (Hpd & Hgd & _).
    assert (∀ rest, follow t ((ws ++ [name (nodes t d)]) ++ rest) (Some r) None =
                    if is_directory (nodes t d) then follow t rest (Some d) (Some d) else Some (Some d, Some p)) as Hfd.
    { intros rest. rewrite <-app_assoc. destruct (Hf Hpd ([name (nodes t d)] ++ rest)) as [node ->].
      change ([name (nodes t d)] ++ rest) with (name (nodes t d) :: rest).
      by rewrite follow_good, (find_own_name t d p Ht Hw Hd Ep). }
    exists (ws ++ [name (nodes t d)]). split_and!.
    + cbn [app]. rewrite bind_app. cbn. by rewrite app_nil_r.
    + apply Forall_app. split; [done|by apply Forall_singleton].
    + right. split; [by destruct ws|]. specialize (Hfd []). rewrite app_nil_r in Hfd. rewrite Hfd. destruct (is_directory (nodes t d)); reflexivity.
    + intros Hdir rest. exists (Some d). by rewrite Hfd, Hdir.
  - intros [= <-]. pose proof (ok_parent t Ht d Hd) as H. rewrite Ep, Hr in H. injection H as ->. exists []. split_and!; [done|constructor|by left|].
    intros _ rest. by exists None.
Qed.

Lemma flat_join ws : ws ≠ [] → ws ≫= (λ w, w ++ [47]) = join 47 [] ws ++ [47].
Proof.
  induction ws as [|w ws IH]; [done|]. intros _. destruct ws as [|w' ws]; [cbn; by rewrite app_nil_r|].
  change ((w :: w' :: ws) ≫= (λ w, w ++ [47])) with ((w ++ [47]) ++ ((w' :: ws) ≫= (λ w, w ++ [47]))). rewrite IH by done.
  change (join 47 [] (w :: w' :: ws)) with (w ++ 47 :: join 47 [] (w' :: ws)). by rewrite <-!app_assoc.
Qed.

Lemma strcnt_app a b c : pg_strcnt (a ++ b) c = pg_strcnt a c + pg_strcnt b c.
Proof. induction a as [|d a IH]; [done|]. cbn [app pg_strcnt]. rewrite IH. lia. Qed.
Lemma strcnt_none a c : Forall (λ d, d ≠ c) a → pg_strcnt a c = 0.
Proof. induction 1 as [|d a Hd _ IH]; [done|]. cbn [pg_strcnt]. rewrite IH. destruct (Z.eqb_spec d c); [done|lia]. Qed.

Lemma strcnt_path ws : ws ≠ [] → Forall good_name ws → pg_strcnt (path_of ws) 47 = Z.of_nat (length ws).
Proof.
  intros Hne HF. unfold path_of. cbn [pg_strcnt]. change (47 =? 47) with true. cbv iota.
  induction HF as [|w ws (_ & Hw & _) HF IH]; [done|]. destruct ws as [|w' ws].
  - cbn [join length]. rewrite strcnt_none by done. lia.
  - change (join 47 [] (w :: w' :: ws)) with (w ++ 47 :: join 47 [] (w' :: ws)). rewrite strcnt_app, strcnt_none by done.
    cbn [pg_strcnt]. change (47 =? 47) with true. cbv iota. cbn [length] in *. specialize (IH ltac:(done)). lia.
Qed.

(** The slash at the end is not printed, but for the root's. *)
Definition printed (s : list Z) : list Z := if 1 <? Z.of_nat (length s) then take (length s - 1) s else s.

Lemma printed_found turns t d s : tree_ok t → well_named t → live t d → path_string turns t d = Some s → pg_strcnt (printed s) 47 ≤ 64 →
  absolute (printed s) = true ∧ cli_find_node t (printed s) = Some (Some d).
Proof.
  intros Ht Hw Hl Es Hn. destruct (ok_root t Ht) as (r & Er & _).
  destruct (path_string_words _ t r d s Ht Hw Er Hl Es) as (ws & -> & Hg & Hf & _). destruct Hf as [[-> ->]|[Hne Hf]].
  - split; [done|]. change (Some (head (root t)) = Some (Some r)). by rewrite Er.
  - rewrite (flat_join ws Hne) in *.
    assert (printed (47 :: join 47 [] ws ++ [47]) = path_of ws) as Et.
    { unfold printed. destruct (Z.ltb_spec 1 (Z.of_nat (length (47 :: join 47 [] ws ++ [47])))) as [_|Hlt].
      - change (47 :: join 47 [] ws ++ [47]) with ((47 :: join 47 [] ws) ++ [47]). rewrite length_app, Nat.add_sub. apply take_app_length.
      - cbn [length] in Hlt. rewrite length_app in Hlt. cbn in Hlt. lia. }
    rewrite Et in *. rewrite (strcnt_path ws Hne Hg) in Hn. split; [done|].
    rewrite (find_words _ ws Hne Hg) by (unfold CLI_MAX_ARGVS; lia). unfold cli_root_node. by rewrite Er.
Qed.

Lemma path_string_cwd o t n : ∀ d, path_string n (set_cwd o t) d = path_string n t d.
Proof.
  induction n as [|n IH]; intros d; [done|]. cbn [path_string]. change (nodes (set_cwd o t)) with (nodes t).
  destruct (parent (nodes t d)) as [p|]; [|done]. by rewrite IH.
Qed.

(** The directory [pwd] prints is found again: typed after [cd], wherever in the
    tree one is by then, what [pwd] printed leads back to the directory it was
    printed in and leaves everything else as it was; so long as names within a
    directory differ and are no dots and the path has at most 64 parts. *)
Theorem pwd_returns t w w' s o : tree_ok t → well_named t → pwd_cmd [w] t = Some s → pg_strcnt s 47 ≤ 64 → live_opt t o →
  cd_cmd [w'; s] (set_cwd o t) = Some (0, t).
Proof.
  intros Ht Hw Hs Hn Ho. destruct (get_cwd t) as [d|] eqn:Hd; [|unfold pwd_cmd, cli_cwd_path, cli_path_string in Hs; by rewrite Hd in Hs].
  unfold pwd_cmd, cli_cwd_path, cli_path_string in Hs. rewrite Hd in Hs. cbn [mbind option_bind lookup list_lookup] in Hs.
  destruct (path_string _ t d) as [s'|] eqn:Es; [|done]. cbn [mbind option_bind] in Hs.
  destruct (_ <=? _); [|done]. cbn [mbind option_bind] in Hs. injection Hs as <-. fold (printed s') in *.
  rewrite <-(path_string_cwd o) in Es.
  destruct (printed_found _ (set_cwd o t) d s' (set_cwd_ok t o Ht Ho) Hw (cwd_live t Ht d Hd) Es Hn) as [Ha Hf].
  unfold cd_cmd. cbn [lookup list_lookup]. rewrite strmatch_ne by (intros E; by rewrite E in Ha).
  rewrite Hf. cbn [mbind option_bind]. f_equal. f_equal.
  destruct (ok_bins t Ht) as [Hlen _]. unfold get_cwd in Hd. unfold set_cwd. destruct t as [n nb u fr rt bs v a]. cbn in *.
  destruct bs as [|b bs]; [done|]. cbn in *. by subst b.
Qed.

(** ** Three levels

    What [__add_node] does for a directory when there is a free node *)
Lemma add_dir_node realloc nm p i free t : tree_ok t → live t p → free_nodes t = i :: free → good_name nm → Z.of_nat (length nm) < CLI_NAME_LEN →
  ∃ t', __add_node realloc nm (Some p) CLI_DIR_NODE None None t = Some (Some i, t') ∧ tree_ok t' ∧ free_nodes t' = free ∧
    root t' = root t ∧ bins t' = bins t ∧ i ≠ p ∧
    nodes t' p = nodes t p <| items ::= λ l, i :: l |> ∧
    (name (nodes t' i) = nm ∧ is_directory (nodes t' i) = true ∧ items (nodes t' i) = []) ∧
    ∀ j, j ≠ i → j ≠ p → nodes t' j = nodes t j.
Proof.
  intros Ht Hp Ef Hg Hl.
  assert (¬ live t i) as Hn. { intros [_ Hn]. apply Hn. rewrite Ef. by left. }
  assert (i ≠ p) as Hip by by intros ->.
  assert (may_add nm (Some p) CLI_DIR_NODE None None = true) as Hm.
  { unfold may_add. cbn. rewrite strmatch_ne; [done|]. intros ->. destruct Hg as (_ & Hc & _). by apply Forall_cons in Hc as [? _]. }
  destruct (ok_free t Ht) as [_ Hr]. specialize (Hr i ltac:(rewrite Ef; by left)).
  assert (∃ t', __add_node realloc nm (Some p) CLI_DIR_NODE None None t = Some (Some i, t') ∧
    t' = set_node p (λ n, n <| items ::= λ l, i :: l |>)
           (set_node i (λ n, n <| type := CLI_DIR_NODE |> <| parent := Some p |> <| short_desc := None |>
                       <| name := take (Z.to_nat (CLI_NAME_LEN - 1)) nm |>) (t <| free_nodes := free |>))) as (t' & E & Et').
  { unfold __add_node. rewrite Hm. cbn [negb]. unfold cli_alloc. rewrite Ef. cbn [mbind option_bind].
    change (nb_nodes (t <| free_nodes := free |>)) with (nb_nodes t). destruct (Z.leb_spec (nb_nodes t) i); [lia|]. eexists. split; reflexivity. }
  exists t'. pose proof (add_node_grown realloc nm p CLI_DIR_NODE None None t _ t' Ht Hp ltac:(by left) E) as [Hgr _].
  assert (nodes t' i = nodes t i <| type := CLI_DIR_NODE |> <| parent := Some p |> <| short_desc := None |> <| name := take (Z.to_nat (CLI_NAME_LEN - 1)) nm |>) as Ei
    by by rewrite Et', set_node_ne, set_node_at.
  split_and!; [done|apply Hgr|by rewrite Et'..|done| | | | |].
  - rewrite Et', set_node_at, set_node_ne by done. done.
  - rewrite Ei. cbn. apply take_ge. unfold CLI_NAME_LEN in *. lia.
  - by rewrite Ei.
  - rewrite Ei. apply (ok_spare t Ht i Hn).
  - intros j Hji Hjp. by rewrite Et', !set_node_ne.
Qed.

Lemma find_cons {A} (P : A → Prop) `{∀ x, Decision (P x)} x l :
  snd <$> list_find P (x :: l) = if decide (P x) then Some x else snd <$> list_find P l.
Proof. cbn [list_find]. destruct (decide (P x)); [done|]. by destruct (list_find P l) as [[]|]. Qed.

Lemma find_item_ext t t' d nm types : items (nodes t' d) = items (nodes t d) →
  (∀ j, j ∈ items (nodes t d) → name (nodes t' j) = name (nodes t j) ∧ type (nodes t' j) = type (nodes t j)) →
  find_item t' d nm types = find_item t d nm types.
Proof.
  intros Ei Hj. unfold find_item. rewrite Ei. clear Ei. induction (items (nodes t d)) as [|j l IH]; [done|]. rewrite !find_cons.
  unfold is_node in *. destruct (Hj j ltac:(by left)) as [-> ->]. rewrite IH; [done|]. intros k Hk. apply Hj. by right.
Qed.

Lemma is_directory_all n : is_directory n = true → is_node n CLI_ALL_TYPE = true.
Proof.
  unfold is_directory, is_node. intros H%negb_true_iff%Z.eqb_neq. apply negb_true_iff, Z.eqb_neq. intros E. apply H.
  change CLI_DIR_NODE with (Z.land CLI_ALL_TYPE CLI_DIR_NODE). by rewrite Z.land_assoc, E.
Qed.

(** An entry in front is found by its name, and others past it. *)
Lemma find_item_front t d i l nm : items (nodes t d) = i :: l → is_directory (nodes t i) = true →
  find_item t d nm CLI_ALL_TYPE =
    if decide (name (nodes t i) = nm) then Some i else snd <$> list_find (λ i, pg_strmatch (name (nodes t i)) nm && is_node (nodes t i) CLI_ALL_TYPE) l.
Proof.
  intros El Hd. unfold find_item. rewrite El, find_cons, (is_directory_all _ Hd), andb_true_r.
  destruct (decide (name (nodes t i) = nm)) as [E|E].
  - rewrite decide_True; [done|]. by rewrite E, strmatch_refl.
  - rewrite decide_False; [done|]. rewrite strmatch_ne by done. by intros [].
Qed.

Lemma find_one t r a : root t = [r] → is_directory (nodes t r) = true → good_name a →
  cli_find_node t (path_of [a]) = Some (find_item t r a CLI_ALL_TYPE).
Proof.
  intros Er Hr Ha. rewrite find_words; [|done|by apply Forall_singleton|unfold CLI_MAX_ARGVS; cbn; lia].
  unfold cli_root_node. rewrite Er. cbn [head]. rewrite follow_good by done.
  destruct (find_item t r a CLI_ALL_TYPE) as [i|]; [|done]. by destruct (is_directory (nodes t i)).
Qed.

(** One word more, in a directory that is found *)
Lemma find_more t r ws d x : root t = [r] → ws ≠ [] → Forall good_name ws → good_name x → (length ws < CLI_MAX_ARGVS)%nat →
  is_directory (nodes t r) = true → is_directory (nodes t d) = true → (∀ rest node, ∃ node', follow t (ws ++ rest) (Some r) node = follow t rest (Some d) node') →
  cli_find_node t (path_of (ws ++ [x])) = Some (find_item t d x CLI_ALL_TYPE).
Proof.
  intros Er Hne Hws Hx Hl Hr Hd Hf.
  rewrite find_words; [|by destruct ws|apply Forall_app; split; [done|by apply Forall_singleton]|rewrite length_app; cbn; lia].
  unfold cli_root_node. rewrite Er. cbn [head]. destruct (Hf [x] None) as [node ->]. rewrite follow_good by done.
  destruct (find_item t d x CLI_ALL_TYPE) as [i|]; [|done]. by destruct (is_directory (nodes t i)).
Qed.

(** A walk to a directory through directories *)
Definition leads (t : cli) (ws : list (list Z)) (r d : Z) : Prop := ∀ rest node, ∃ node', follow t (ws ++ rest) (Some r) node = follow t rest (Some d) node'.

Lemma leads_one t r a d : is_directory (nodes t r) = true → good_name a → find_item t r a CLI_ALL_TYPE = Some d →
  is_directory (nodes t d) = true → leads t [a] r d.
Proof. intros Hr Ha Ef Hd rest node. exists (Some d). cbn [app]. by rewrite follow_good, Ef, Hd. Qed.

Lemma leads_snoc t ws r d b e : leads t ws r d → is_directory (nodes t d) = true → good_name b → find_item t d b CLI_ALL_TYPE = Some e →
  is_directory (nodes t e) = true → leads t (ws ++ [b]) r e.
Proof.
  intros Hl Hd Hb Ef He rest node. rewrite <-app_assoc. destruct (Hl ([b] ++ rest) node) as [node' ->].
  exists (Some e). cbn [app]. by rewrite follow_good, Ef, He.
Qed.

Section Hides.
Context (realloc : Z → realloc_result) (t : cli) (a b c : list Z) (A B N C r : Z) (free : list Z).
Hypotheses (Ht : tree_ok t) (Ha : good_name a) (Hb : good_name b) (Hc : good_name c).
Hypotheses (Er : root t = [r]) (Hr : live t r) (Hrt : type (nodes t r) = CLI_DIR_NODE) (Hrp : parent (nodes t r) = None).
Hypotheses (Hfa : find_item t r a CLI_ALL_TYPE = Some A) (HA : is_directory (nodes t A) = true).
Hypotheses (Hfree : free_nodes t = N :: C :: free) (Lb : Z.of_nat (length b) < CLI_NAME_LEN) (Lc : Z.of_nat (length c) < CLI_NAME_LEN).

Lemma hides_A : live t A ∧ parent (nodes t A) = Some r ∧ A ≠ r.
Proof.
  unfold find_item in Hfa. destruct (list_find _ _) as [[k j]|] eqn:E; [|done]. injection Hfa as ->. apply in_find in E.
  destruct (ok_items t Ht r Hr) as [_ Hi]. destruct (Hi A E) as [H1 H2]. split_and!; [done|done|]. intros ->. congruence.
Qed.

(** The nodes for the two directories are used up, and all other nodes are as they
    were but for what is in [A]. *)
Lemma hides_added : ∃ t1 t2, __add_node realloc b (Some A) CLI_DIR_NODE None None t = Some (Some N, t1) ∧
  __add_node realloc c (Some N) CLI_DIR_NODE None None t1 = Some (Some C, t2) ∧ tree_ok t1 ∧ root t1 = [r] ∧ root t2 = [r] ∧
  (∀ d nm, live t d → d ≠ A → find_item t1 d nm CLI_ALL_TYPE = find_item t d nm CLI_ALL_TYPE ∧
                              find_item t2 d nm CLI_ALL_TYPE = find_item t d nm CLI_ALL_TYPE) ∧
  (∀ d, live t d → is_directory (nodes t1 d) = is_directory (nodes t d) ∧ is_directory (nodes t2 d) = is_directory (nodes t d)) ∧
  items (nodes t2 A) = N :: items (nodes t A) ∧ (name (nodes t2 N) = b ∧ is_directory (nodes t2 N) = true) ∧
  items (nodes t2 N) = [C] ∧ (name (nodes t2 C) = c ∧ is_directory (nodes t2 C) = true).
Proof.
  destruct hides_A as (HlA & HpA & HAr).
  destruct (add_dir_node realloc b A N (C :: free) t Ht HlA Hfree Hb Lb) as (t1 & E1 & Ht1 & Ef1 & Er1 & _ & HNA & EA1 & (EnN & EdN & EiN) & Eo1).
  assert (live t1 N) as HlN by (by apply (add_node_grown realloc b A CLI_DIR_NODE None None t _ t1 Ht HlA ltac:(by left) E1)).
  destruct (add_dir_node realloc c N C free t1 Ht1 HlN Ef1 Hc Lc) as (t2 & E2 & Ht2 & Ef2 & Er2 & _ & HCN & EN2 & (EnC & EdC & EiC) & Eo2).
  exists t1, t2. split_and!; [done|done|done|congruence|congruence|..].
  all: assert (¬ live t N ∧ ¬ live t C) as [HnN HnC] by (split; intros [_ Hn]; apply Hn; rewrite Hfree; [by left|by right; left]).
  all: assert (∀ j, live t j → name (nodes t1 j) = name (nodes t j) ∧ type (nodes t1 j) = type (nodes t j) ∧ nodes t2 j = nodes t1 j ∧ (j ≠ A → nodes t1 j = nodes t j)) as Hj
    by (intros j Hj; assert (j ≠ N ∧ j ≠ C) as [? ?] by (split; by intros ->);
        destruct (decide (j = A)) as [->|]; [rewrite EA1|rewrite Eo1 by done]; rewrite ?Eo2 by done; rewrite ?EA1, ?Eo1 by done; by split_and!).
  - intros d nm Hd HdA. destruct (Hj d Hd) as (_ & _ & E & Ed). specialize (Ed HdA).
    assert (∀ j, j ∈ items (nodes t d) → live t j) as Hin by (intros j Hin; by apply (ok_items t Ht d Hd)).
    split; apply find_item_ext; rewrite ?E, ?Ed; try done; intros j Hjd%Hin; destruct (Hj j Hjd) as (H1 & H2 & H3 & _); rewrite ?H3; done.
  - intros d Hd. destruct (Hj d Hd) as (_ & H2 & H3 & _). unfold is_directory, is_node. by rewrite H3, H2.
  - destruct (Hj A HlA) as (_ & _ & E & _). by rewrite E, EA1.
  - by rewrite EN2.
  - rewrite EN2. exact EdN.
  - rewrite EN2. cbn. by rewrite EiN.
  - done.
  - done.
Qed.
End Hides.

Lemma find_root t a r A : root t = [r] → type (nodes t r) = CLI_DIR_NODE → good_name a →
  cli_find_node t (path_of [a]) = Some A → find_item t r a CLI_ALL_TYPE = A.
Proof.
  intros Er Hr Ha. rewrite (find_one t r a Er); [by intros [= ->]| |done]. unfold is_directory, is_node. by rewrite Hr.
Qed.

(** A directory asked for two levels below one at the root is not made where it
    was to be: the directory at the second part of the path is looked for under the
    first two parts written as one word, is not found there, and is made again.
    From then on the path of the second directory leads to the new one, and what
    was in the old one is not found by its path any more. *)
Theorem mkdir_hides realloc t w a b c A B N C free : tree_ok t → Forall good_name [a; b; c] →
  Forall (λ n, Z.of_nat (length n) < CLI_NAME_LEN) [a; b; c] →
  cli_find_node t (path_of [a]) = Some (Some A) → is_directory (nodes t A) = true →
  cli_find_node t (path_of [a; b]) = Some (Some B) → cli_find_node t (path_of [a; b; c]) = Some None →
  cli_find_node t (path_of [a ++ b]) = Some None → cli_find_node t (path_of [a ++ b ++ c]) = Some None →
  free_nodes t = N :: C :: free →
  ∃ t', mkdir_cmd realloc [w; path_of [a; b; c]] t = Some (0, t') ∧
    B ∈ items (nodes t' A) ∧ B ≠ N ∧ cli_find_node t' (path_of [a; b]) = Some (Some N) ∧
    ∀ x, good_name x → cli_find_node t' (path_of [a; b; x]) = Some (if decide (x = c) then Some C else None).
Proof.
  intros Ht HF HL HA HAd HB Habc Hab Habc' Hfree. pose proof HF as HF3.
  apply Forall_cons in HF as [Ha HF]. apply Forall_cons in HF as [Hb HF]. apply Forall_cons in HF as [Hc _].
  apply Forall_cons in HL as [La HL]. apply Forall_cons in HL as [Lb HL]. apply Forall_cons in HL as [Lc _].
  destruct (ok_root t Ht) as (r & Er & Hr & Hrp & Hrt).
  assert (is_directory (nodes t r) = true) as Hrd by (unfold is_directory, is_node; by rewrite Hrt).
  apply (find_root t a r _ Er Hrt Ha) in HA as HfA.
  apply (find_root t _ r _ Er Hrt (good_app a b Ha Hb)) in Hab as Hfab.
  apply (find_root t _ r _ Er Hrt (good_app a _ Ha (good_app b c Hb Hc))) in Habc' as Hfabc.
  pose proof (leads_one t r a A Hrd Ha HfA HAd) as HleadA.
  assert (find_item t A b CLI_ALL_TYPE = Some B) as HfB.
  { change (path_of [a; b]) with (path_of ([a] ++ [b])) in HB.
    rewrite (find_more t r [a] A b Er) in HB; [congruence|done|by apply Forall_singleton|done|unfold CLI_MAX_ARGVS; cbn; lia|done|done|done]. }
  destruct (hides_A t a A r) as (HlA & HpA & HAr); try done.
  destruct (hides_added realloc t a b c A N C r free)
    as (t1 & t2 & E1 & E2 & Ht1 & Er1 & Er2 & Hfind & Hdir & EA & (EN & HNd) & EiN & (EC & HCd)); try done.
  destruct (Hfind r a Hr (not_eq_sym HAr)) as [_ Hf2a]. destruct (Hdir r Hr) as [Hr1 Hr2]. destruct (Hdir A HlA) as [_ HA2].
  rewrite Hrd in Hr2. rewrite HAd in HA2.
  assert (leads t2 [a] r A) as HlA2 by (by apply leads_one; [| |rewrite Hf2a|]).
  assert (find_item t2 A b CLI_ALL_TYPE = Some N) as Hf2b by (by rewrite (find_item_front t2 A N _ b EA HNd), decide_True).
  pose proof (leads_snoc t2 [a] r A b N HlA2 HA2 Hb Hf2b HNd) as HlN2.
  exists t2. split_and!.
  - unfold mkdir_cmd, cli_add_dir. rewrite Habc. cbn [mbind option_bind]. cbv zeta.
    assert (Z.of_nat (length (path_of [a; b; c])) < 4000) as Hlen.
    { unfold path_of. cbn [join length app]. rewrite !length_app. cbn [length]. rewrite length_app. cbn [length]. unfold CLI_NAME_LEN in *. lia. }
    rewrite take_ge by (unfold CLI_MAX_SCRATCH_LENGTH; lia).
    assert (path_words (path_of [a; b; c]) = [a; b; c]) as ->.
    { unfold path_of, path_words. cbn [absolute]. change (47 =? 47) with true. cbv iota. cbn [drop]. rewrite drop_0.
      change (join 47 [] [a; b; c]) with ([] ++ join 47 [] [a; b; c]).
      apply strtok_join; [done|constructor|constructor| |done|unfold CLI_MAX_ARGVS; cbn; lia].
      eapply Forall_impl; [exact HF3|]. intros w' (Hs & Hw & _). done. }
    change (absolute (path_of [a; b; c])) with true. cbv iota.
    assert (∀ p : list Z, Z.of_nat (length p) < 2048 → (CLI_MAX_PATH_LENGTH <=? Z.of_nat (length p)) = false) as Hp
      by (intros p Hp; apply Z.leb_gt; exact Hp).
    cbn [add_dirs]. change ([47] ++ a) with (path_of [a]). rewrite Hp, HA by (unfold path_of, CLI_NAME_LEN in *; cbn [join length]; lia).
    cbn [mbind option_bind].
    replace (path_of [a] ++ b) with (path_of [a ++ b]) by done.
    rewrite Hp, Hab by (unfold path_of, CLI_NAME_LEN in *; cbn [join length]; rewrite length_app; lia). cbn [mbind option_bind]. rewrite E1. cbn [mbind option_bind].
    replace (path_of [a ++ b] ++ c) with (path_of [a ++ b ++ c]) by (unfold path_of; cbn; by rewrite <-app_assoc).
    rewrite Hp by (unfold path_of, CLI_NAME_LEN in *; cbn [join length]; rewrite !length_app; lia).
    rewrite (find_one t1 r _ Er1), (proj1 (Hfind r _ Hr (not_eq_sym HAr))), Hfabc; [|by rewrite Hr1|by apply good_app, good_app].
    cbn [mbind option_bind]. by rewrite E2.
  - rewrite EA. right. unfold find_item in HfB. destruct (list_find _ _) as [[k j]|] eqn:E; [|done]. injection HfB as ->. by apply in_find in E.
  - intros ->. unfold find_item in HfB. destruct (list_find _ _) as [[k j]|] eqn:E; [|done]. injection HfB as ->. apply in_find in E.
    destruct (ok_items t Ht A HlA) as [_ Hi]. destruct (Hi N E) as [[_ Hn] _]. apply Hn. rewrite Hfree. by left.
  - change (path_of [a; b]) with (path_of ([a] ++ [b])).
    rewrite (find_more t2 r [a] A b Er2); [by rewrite Hf2b|done|by apply Forall_singleton|done|unfold CLI_MAX_ARGVS; cbn; lia|done|done|done].
  - intros x Hx. change (path_of [a; b; x]) with (path_of ([a; b] ++ [x])).
    rewrite (find_more t2 r [a; b] N x Er2); [|done|by repeat (apply Forall_cons; split)|done|unfold CLI_MAX_ARGVS; cbn; lia|done|done|done].
    f_equal. rewrite (find_item_front t2 N C [] x EiN HCd). rewrite EC. destruct (decide (c = x)), (decide (x = c)); try congruence. done.
Qed.
