(* ===== verification/Display.v ===== *)
(** * Statistics and display

    What the timer's thread does: [pktgen_process_stats] of [app/pktgen-stats.c],
    [pktgen_page_display], [_page_display] and [_timer_thread] of [app/pktgen.c], and
    what drawing a page changes: the totals of [pktgen_page_stats], and links,
    totals and averages of [pktgen_page_latency] and [pktgen_page_rate] in
    [app/pktgen-latency.c] and [app/pktgen-rate.c].  The text of the pages is not
    modelled. *)
From Stdlib Require Import Ascii String.
From S2P Require Import Prelude Mem PortInfo Pacing Headers Commands Session Mbuf Burst Capture Console Loops.

(** ** Statistics *)

Definition eth_diff (c p : eth_stats_t) : eth_stats_t :=
  let d f := u64 (f c - f p) in
  Eth.mk (d Eth.ipackets) (d Eth.opackets) (d Eth.ibytes) (d Eth.obytes)
         (d Eth.imissed) (d Eth.ierrors) (d Eth.oerrors) (d Eth.rx_nombuf).

Definition process_port (curr : eth_stats_t) (i : port_info_t) : port_info_t :=
  let i := i <| Info.curr_stats := curr |> in
  let rate := eth_diff (Info.curr_stats i) (Info.prev_stats i) in
  let i := i <| Info.rate_stats := rate |> in
  let i := if Info.max_ipackets i <? Eth.ipackets rate then i <| Info.max_ipackets := Eth.ipackets rate |> else i in
  let i := if Info.max_opackets i <? Eth.opackets rate then i <| Info.max_opackets := Eth.opackets rate |> else i in
  i <| Info.prev_stats := curr |>.

(** [rte_eth_stats_get] is [read]; the structures of all devices are looked at,
    whether a core handles them or not. *)
Fixpoint pktgen_process_stats (devs : list Z) (read : Z → eth_stats_t) (infos : Z → port_info_t) : Z → port_info_t :=
  match devs with
  | [] => infos
  | pid :: devs => pktgen_process_stats devs read (set_at pid (process_port (read pid) (infos pid)) infos)
  end.

(** The LEDs that are switched, and how, on the [counter]-th call *)
Definition blink_ports (devs : list Z) (counter : Z) (g : pktgen_t) : list (Z * bool) :=
  if tst_bits (Pg.flags g) BLINK_PORTS_FLAG
  then (λ pid, (pid, Z.testbit counter 0)) <$> filter (λ pid, Z.testbit (Pg.blinklist g) pid = true) devs else [].

(** ** Pages *)

Inductive page :=
  | Page_cpu | Page_pcap | Page_range | Page_config | Page_seq | Page_random | Page_log
  | Page_latency | Page_phys_stats | Page_xstats | Page_rate | Page_stats.

Definition _page_display (flags : Z) : page :=
  if tst_bits flags CPU_PAGE_FLAG then Page_cpu
  else if tst_bits flags PCAP_PAGE_FLAG then Page_pcap
  else if tst_bits flags RANGE_PAGE_FLAG then Page_range
  else if tst_bits flags CONFIG_PAGE_FLAG then Page_config
  else if tst_bits flags SEQUENCE_PAGE_FLAG then Page_seq
  else if tst_bits flags RND_BITFIELD_PAGE_FLAG then Page_random
  else if tst_bits flags LOG_PAGE_FLAG then Page_log
  else if tst_bits flags LATENCY_PAGE_FLAG then Page_latency
  else if tst_bits flags STATS_PAGE_FLAG then Page_phys_stats
  else if tst_bits flags XSTATS_PAGE_FLAG then Page_xstats
  else if tst_bits flags RATE_PAGE_FLAG then Page_rate
  else Page_stats.

Definition UPDATE_DISPLAY_TICK_INTERVAL := 8.

(** What is displayed of: the flags and totals, the ports, their link status, the
    static [update_display], and the pages drawn so far, each with whether its
    labels were drawn too *)
Record view := mk_view {
  glob : pktgen_t; infos : Z → port_info_t; up : Z → bool; update_display : Z; shown : list (page * bool) }.
#[global] Instance eta_view : Eta view := λ v, mk_view (glob v) (infos v) (up v) (update_display v) (shown v).

Definition add_total (rate : eth_stats_t) (g : pktgen_t) : pktgen_t :=
  let add f := λ x, u64 (x + f rate) in
  let g := g <| Pg.cumm_rate_totals ::= λ c, c
    <| Eth.ipackets ::= add Eth.ipackets |> <| Eth.opackets ::= add Eth.opackets |>
    <| Eth.ibytes ::= add Eth.ibytes |> <| Eth.obytes ::= add Eth.obytes |>
    <| Eth.ierrors ::= add Eth.ierrors |> <| Eth.oerrors ::= add Eth.oerrors |> |> in
  let c := Pg.cumm_rate_totals g in
  let g := if Pg.max_total_ipackets g <? Eth.ipackets c then g <| Pg.max_total_ipackets := Eth.ipackets c |> else g in
  let g := if Pg.max_total_opackets g <? Eth.opackets c then g <| Pg.max_total_opackets := Eth.opackets c |> else g in
  g <| Pg.cumm_rate_totals ::= λ c, c <| Eth.imissed ::= add Eth.imissed |> <| Eth.rx_nombuf ::= add Eth.rx_nombuf |> |>.
Definition clear_totals (g : pktgen_t) : pktgen_t := g <| Pg.cumm_rate_totals := Eth.zero |>.

Section Pages.
Context (attached : Z → bool) (devs : list Z) (timer_hz : Z) (links : Z → link).

(** The totals of all ports *)
Definition page_totals (v : view) : view :=
  v <| glob ::= λ g, foldl (λ g pid, add_total (Info.rate_stats (infos v pid)) g) (clear_totals g)
                       (filter (λ pid, attached pid = true) devs) |>.

(** The link of port [from] is stored with port [pid]. *)
Definition read_link (from pid : Z) (v : view) : option view :=
  '(b, w) ← pktgen_get_link_status false (λ _, links from) (up v pid) (mk_world (glob v) (infos v pid));
  Some (v <| infos ::= set_at pid (info w) |> <| up ::= set_at pid b |>).

(** The columns of a page that have a port *)
Definition columns (g : pktgen_t) : list Z :=
  filter (λ k, attached (k + Pg.starting_port g) = true) (seqZ 0 (Pg.nb_ports_per_page g)).

Fixpoint draw_columns (draw : Z → view → option view) (ks : list Z) (v : view) : option view :=
  match ks with [] => Some v | k :: ks => v ← draw k v; draw_columns draw ks v end.

Definition pktgen_page_stats (v : view) : option view :=
  let sp := Pg.starting_port (glob v) in
  draw_columns (λ k, read_link (k + sp) (k + sp)) (columns (glob v)) (page_totals v).

(** Averages in microseconds; they start again when they are shown. *)
Definition average_latency (i : port_info_t) : option (Z * port_info_t) :=
  let ticks := timer_hz / 1000000 in
  if Info.latency_nb_pkts i =? 0 then Some (0, i)
  else
    avg_lat ← div_trap (Info.avg_latency i / Info.latency_nb_pkts i) ticks;
    let i := if Info.max_avg_latency i <? avg_lat then i <| Info.max_avg_latency := avg_lat |> else i in
    let i := if Info.min_avg_latency i =? 0 then i <| Info.min_avg_latency := avg_lat |>
             else if avg_lat <? Info.min_avg_latency i then i <| Info.min_avg_latency := avg_lat |> else i in
    Some (avg_lat, i <| Info.latency_nb_pkts := 0 |> <| Info.avg_latency := 0 |>).

(** A column of the latency and rate pages: the link is that of the port whose
    number is the column's. *)
Definition latency_column (sp k : Z) (v : view) : option view :=
  v ← read_link k (k + sp) v;
  let v := v <| glob ::= add_total (Info.rate_stats (infos v (k + sp))) |> in
  '(_, i) ← average_latency (infos v (k + sp));
  Some (v <| infos ::= set_at (k + sp) i |>).
Definition pktgen_page_latency (v : view) : option view :=
  draw_columns (latency_column (Pg.starting_port (glob v))) (columns (glob v)) (v <| glob ::= clear_totals |>).
Definition pktgen_page_rate (v : view) : option view := pktgen_page_latency v.

Definition draw_page (p : page) (v : view) : option view :=
  match p with
  | Page_stats => pktgen_page_stats v
  | Page_latency => pktgen_page_latency v
  | Page_rate => pktgen_page_rate v
  | _ => Some v
  end.

(** [pktgen_print_packet_dump], apart from what it writes to the log *)
Fixpoint print_dump (n : nat) (i : port_info_t) : port_info_t :=
  match n with
  | O => i
  | S n =>
      if Info.dump_head i <? Info.dump_tail i
      then print_dump n (i <| Info.dump_list ::= set_at (Info.dump_head i) 0 |> <| Info.dump_head ::= λ h, h + 1 |>)
      else i
  end.
Definition pktgen_print_packet_dump (infos : Z → port_info_t) : Z → port_info_t :=
  λ pid, if (0 <=? pid) && (pid <? Capture.RTE_MAX_ETHPORTS) && attached pid
         then print_dump (Z.to_nat MAX_DUMP_PACKETS) (infos pid) else infos pid.

Definition pktgen_page_display (paused : bool) (v : view) : option view :=
  if paused then Some v
  else
    let v := if tst_bits (Pg.flags (glob v)) UPDATE_DISPLAY_FLAG
             then v <| glob ::= λ g, g <| Pg.flags ::= λ x, clr_bits x UPDATE_DISPLAY_FLAG |> |> <| update_display := 1 |> else v in
    let v := v <| update_display ::= λ n, u32 (n - 1) |> in
    v ← (if update_display v =? 0 then
      let v := v <| update_display := UPDATE_DISPLAY_TICK_INTERVAL |> in
      let p := _page_display (Pg.flags (glob v)) in
      let labels := tst_bits (Pg.flags (glob v)) PRINT_LABELS_FLAG in
      v ← draw_page p v;
      Some (v <| glob ::= λ g, g <| Pg.flags ::= λ x, clr_bits x PRINT_LABELS_FLAG |> |> <| shown ::= λ l, l ++ [(p, labels)] |>)
    else Some v);
    Some (v <| infos ::= pktgen_print_packet_dump |>).
End Pages.

(** ** The timer's thread *)

(** What a turn of the thread observes *)
Record tick := mk_tick { tick_tsc : Z; tick_stats : Z → eth_stats_t; tick_links : Z → link; tick_paused : bool }.
Record timer := mk_timer { process : Z; page_at : Z; tv : view; counter : Z; leds : list (Z * bool) }.
#[global] Instance eta_timer : Eta timer := λ x, mk_timer (process x) (page_at x) (tv x) (counter x) (leds x).

Section Timer.
Context (attached : Z → bool) (devs : list Z) (timer_hz : Z).

Definition UPDATE_DISPLAY_TICK_RATE (hz : Z) : Z := u64 (hz * 1) / UPDATE_DISPLAY_TICK_INTERVAL.

Definition timer_turn (process_timo page_timo : Z) (t : tick) (x : timer) : option timer :=
  let curr := tick_tsc t in
  let x := if process x <=? curr
           then x <| process := u64 (curr + process_timo) |>
                  <| counter ::= λ n, u32 (n + 1) |>
                  <| leds := blink_ports devs (u32 (counter x + 1)) (glob (tv x)) |>
                  <| tv ::= λ v, v <| infos ::= pktgen_process_stats devs (tick_stats t) |> |>
           else x in
  if page_at x <=? curr then
    v ← pktgen_page_display attached devs timer_hz (tick_links t) (tick_paused t) (tv x);
    Some (x <| page_at := u64 (curr + page_timo) |> <| tv := v |>)
  else Some x.
Fixpoint timer_turns (process_timo page_timo : Z) (ts : list tick) (x : timer) : option timer :=
  match ts with [] => Some x | t :: ts => x ← timer_turn process_timo page_timo t x; timer_turns process_timo page_timo ts x end.

(** [_timer_thread], until [timer_running] is cleared *)
Definition _timer_thread (began : Z) (ts : list tick) (v : view) : option timer :=
  let hz := Pg.hz (glob v) in
  let page_timo := UPDATE_DISPLAY_TICK_RATE hz in
  timer_turns hz page_timo ts (mk_timer (u64 (began + hz)) (u64 (began + page_timo)) v 0 []).
End Timer.

(** ** Rates *)

(** The rates that a port gets from its readings, one after the other *)
Fixpoint rates (p : eth_stats_t) (xs : list eth_stats_t) : list eth_stats_t :=
  match xs with [] => [] | x :: xs => eth_diff x p :: rates x xs end.
Definition counters : list (eth_stats_t → Z) :=
  [Eth.ipackets; Eth.opackets; Eth.ibytes; Eth.obytes; Eth.imissed; Eth.ierrors; Eth.oerrors; Eth.rx_nombuf].
Fixpoint zsum (l : list Z) : Z := match l with [] => 0 | x :: l => x + zsum l end.

(** What the statistics of a port are *)
Definition stat_part (i : port_info_t) : eth_stats_t * eth_stats_t * Z * Z :=
  (Info.prev_stats i, Info.rate_stats i, Info.max_ipackets i, Info.max_opackets i).
Definition process_run (i : port_info_t) (xs : list eth_stats_t) : port_info_t := foldl (λ i x, process_port x i) i xs.
Definition process_all (devs : list Z) (rs : list (Z → eth_stats_t)) (infos : Z → port_info_t) : Z → port_info_t :=
  foldl (λ f r, pktgen_process_stats devs r f) infos rs.

Lemma raise_in i n : stat_part (if Info.max_ipackets i <? n then i <| Info.max_ipackets := n |> else i) =
  (Info.prev_stats i, Info.rate_stats i, Z.max (Info.max_ipackets i) n, Info.max_opackets i).
Proof. unfold stat_part. destruct (Z.ltb_spec (Info.max_ipackets i) n); [rewrite Z.max_r by lia|rewrite Z.max_l by lia]; reflexivity. Qed.
Lemma raise_out i n : stat_part (if Info.max_opackets i <? n then i <| Info.max_opackets := n |> else i) =
  (Info.prev_stats i, Info.rate_stats i, Info.max_ipackets i, Z.max (Info.max_opackets i) n).
Proof. unfold stat_part. destruct (Z.ltb_spec (Info.max_opackets i) n); [rewrite Z.max_r by lia|rewrite Z.max_l by lia]; reflexivity. Qed.
Lemma set_prev c i : stat_part (i <| Info.prev_stats := c |>) = (c, Info.rate_stats i, Info.max_ipackets i, Info.max_opackets i).
Proof. done. Qed.

Lemma process_port_stats c i : stat_part (process_port c i) =
  (c, eth_diff c (Info.prev_stats i), Z.max (Info.max_ipackets i) (Eth.ipackets (eth_diff c (Info.prev_stats i))),
   Z.max (Info.max_opackets i) (Eth.opackets (eth_diff c (Info.prev_stats i)))).
Proof.
  unfold process_port. cbn zeta. rewrite set_prev.
  change (Info.prev_stats (i <| Info.curr_stats := c |>)) with (Info.prev_stats i).
  change (Info.curr_stats (i <| Info.curr_stats := c |>)) with c. generalize (eth_diff c (Info.prev_stats i)). intros r.
  set (i1 := i <| Info.curr_stats := c |> <| Info.rate_stats := r |>).
  pose proof (raise_in i1 (Eth.ipackets r)) as E1. revert E1. generalize (if Info.max_ipackets i1 <? Eth.ipackets r
    then i1 <| Info.max_ipackets := Eth.ipackets r |> else i1). intros i2 E1.
  pose proof (raise_out i2 (Eth.opackets r)) as E2. revert E2. generalize (if Info.max_opackets i2 <? Eth.opackets r
    then i2 <| Info.max_opackets := Eth.opackets r |> else i2). intros i3 E2.
  unfold stat_part in E1, E2. injection E1 as _ E11 E12 E13. injection E2 as _ -> -> ->. by rewrite E11, E12, E13.
Qed.

Lemma process_run_stats xs : ∀ i,
  stat_part (process_run i xs) =
    (List.last xs (Info.prev_stats i), List.last (rates (Info.prev_stats i) xs) (Info.rate_stats i),
     foldl Z.max (Info.max_ipackets i) (Eth.ipackets <$> rates (Info.prev_stats i) xs),
     foldl Z.max (Info.max_opackets i) (Eth.opackets <$> rates (Info.prev_stats i) xs)).
Proof.
  induction xs as [|x xs IH]; intros i; [done|].
  change (process_run i (x :: xs)) with (process_run (process_port x i) xs).
  pose proof (process_port_stats x i) as E. revert E. generalize (process_port x i). intros j E.
  rewrite IH. unfold stat_part in E. injection E as -> -> -> ->.
  cbn [rates fmap list_fmap foldl]. by rewrite !last_clock.
Qed.

Lemma eth_diff_counter f c p : f ∈ counters → f (eth_diff c p) = u64 (f c - f p).
Proof. unfold counters. rewrite !elem_of_cons. intros Hf. repeat (destruct Hf as [->|Hf]; [done|]). by apply elem_of_nil in Hf. Qed.
Lemma rates_sum f xs : f ∈ counters → ∀ p, u64 (zsum (f <$> rates p xs)) = u64 (f (List.last xs p) - f p).
Proof.
  intros Hf. induction xs as [|x xs IH]; intros p; cbn [rates fmap list_fmap zsum]; [by rewrite Z.sub_diag|].
  rewrite last_clock, (eth_diff_counter f x p Hf). unfold wrap. rewrite Zplus_mod_idemp_l.
  rewrite <-Zplus_mod_idemp_r. unfold wrap in IH. rewrite IH, Zplus_mod_idemp_r. f_equal. lia.
Qed.

(** Each port is looked at once. *)
Lemma process_stats_port devs read : NoDup devs → ∀ infos pid,
  pktgen_process_stats devs read infos pid = if decide (pid ∈ devs) then process_port (read pid) (infos pid) else infos pid.
Proof.
  induction devs as [|d devs IH]; intros Hnd infos pid; cbn [pktgen_process_stats].
  { by rewrite decide_False by apply not_elem_of_nil. }
  apply NoDup_cons in Hnd as [Hd Hnd]. rewrite IH by done. unfold set_at.
  destruct (Z.eqb_spec pid d) as [->|Hne].
  - rewrite decide_False by done. by rewrite decide_True by (by left).
  - destruct (decide (pid ∈ devs)); [rewrite decide_True by (by right)|rewrite decide_False by (by intros [?|?]%elem_of_cons)]; done.
Qed.
Lemma process_all_port devs rs : NoDup devs → ∀ infos pid, pid ∈ devs →
  process_all devs rs infos pid = process_run (infos pid) ((λ r, r pid) <$> rs).
Proof.
  intros Hnd. induction rs as [|r rs IH]; intros infos pid Hp; [done|].
  change (process_all devs (r :: rs) infos pid) with (process_all devs rs (pktgen_process_stats devs r infos) pid).
  rewrite IH, process_stats_port by done. by rewrite decide_True by done.
Qed.

(** ** What drawing leaves alone *)

Record quiet (v v' : view) : Prop := {
  qt_flags : Pg.flags (glob v') = Pg.flags (glob v);
  qt_shown : shown v' = shown v;
  qt_counter : update_display v' = update_display v;
  qt_stats pid : stat_part (infos v' pid) = stat_part (infos v pid) }.
#[global] Instance quiet_refl : Reflexive quiet.
Proof. by intros v. Qed.
#[global] Instance quiet_trans : Transitive quiet.
Proof. intros v1 v2 v3 [A1 A2 A3 A4] [B1 B2 B3 B4]. split; [..|intros pid]; etrans; eauto. Qed.

Lemma packet_rate_quiet w w' : pktgen_packet_rate w = Some w' → g w' = g w ∧ stat_part (info w') = stat_part (info w).
Proof.
  unfold pktgen_packet_rate. cbn zeta. intros (a & _ & (b & _ & E)%bind_Some)%bind_Some. by injection E as <-.
Qed.
Lemma link_loop_quiet n wait prev reads : ∀ k st w b w',
  link_loop n wait prev reads k st w = Some (b, w') → g w' = g w ∧ stat_part (info w') = stat_part (info w).
Proof.
  induction n as [|n IH]; intros k st w b w'; cbn [link_loop]; cbn zeta; [by intros [= <- <-]|].
  destruct (reads k) as [status speed]. destruct (_ && _).
  - destruct prev; [by intros [= <- <-]|]. intros (w1 & E%packet_rate_quiet & [= <- <-])%bind_Some. exact E.
  - destruct wait; [intros E%IH; exact E|by intros [= <- <-]].
Qed.

Lemma set_quiet v pid i : stat_part i = stat_part (infos v pid) → ∀ p, stat_part (set_at pid i (infos v) p) = stat_part (infos v p).
Proof. intros E p. unfold set_at. by destruct (Z.eqb_spec p pid) as [->|]. Qed.
Lemma read_link_quiet links from pid v v' : read_link links from pid v = Some v' → quiet v v'.
Proof.
  unfold read_link. intros ([b w] & E%link_loop_quiet & [= <-])%bind_Some. split; [done..|].
  exact (set_quiet v pid _ (proj2 E)).
Qed.
Lemma average_quiet hz i a i' : average_latency hz i = Some (a, i') → stat_part i' = stat_part i.
Proof.
  unfold average_latency. cbn zeta. destruct (_ =? 0); [by intros [= <- <-]|].
  intros (avg & _ & [= <- <-])%bind_Some.
  set (i1 := if Info.max_avg_latency i <? avg then _ else i). assert (stat_part i1 = stat_part i) as <- by (unfold i1; by destruct (_ <? _)).
  clearbody i1. destruct (Info.min_avg_latency i1 =? 0); [done|]. by destruct (avg <? Info.min_avg_latency i1).
Qed.
Lemma add_total_flags r g : Pg.flags (add_total r g) = Pg.flags g.
Proof. unfold add_total. cbn zeta. by destruct (_ <? Eth.ipackets _); destruct (_ <? Eth.opackets _). Qed.
Lemma latency_column_quiet hz links sp k v v' : latency_column hz links sp k v = Some v' → quiet v v'.
Proof.
  unfold latency_column. intros (v1 & E1%read_link_quiet & ([a i] & E2%average_quiet & [= <-])%bind_Some)%bind_Some.
  etrans; [exact E1|]. split; [apply add_total_flags|done|done|]. exact (set_quiet v1 (k + sp) i E2).
Qed.
Lemma draw_columns_quiet draw ks : (∀ k v v', draw k v = Some v' → quiet v v') → ∀ v v', draw_columns draw ks v = Some v' → quiet v v'.
Proof.
  intros Hd. induction ks as [|k ks IH]; intros v v' E; cbn [draw_columns] in E; [by injection E as <-|].
  apply bind_Some in E as (v1 & E1 & E). etrans; [by eapply Hd|by eapply IH].
Qed.
Lemma totals_flags {A} (f : A → eth_stats_t) l : ∀ g, Pg.flags (foldl (λ g a, add_total (f a) g) g l) = Pg.flags g.
Proof. induction l as [|a l IH]; intros g; [done|]. cbn [foldl]. by rewrite IH, add_total_flags. Qed.

Lemma draw_page_quiet attached devs hz links p v v' : draw_page attached devs hz links p v = Some v' → quiet v v'.
Proof.
  destruct p; cbn [draw_page]; try by intros [= <-].
  - intros E. etrans; [|eapply draw_columns_quiet; [|exact E]; intros ? ? ?; apply latency_column_quiet]. done.
  - intros E. etrans; [|eapply draw_columns_quiet; [|exact E]; intros ? ? ?; apply latency_column_quiet]. done.
  - intros E. etrans; [|eapply draw_columns_quiet; [|exact E]; intros ? ? ?; apply read_link_quiet].
    split; [|done..]. exact (totals_flags (λ pid, Info.rate_stats (infos v pid)) _ (clear_totals (glob v))).
Qed.

Lemma print_dump_stats n : ∀ i, stat_part (print_dump n i) = stat_part i.
Proof. induction n as [|n IH]; intros i; [done|]. cbn [print_dump]. destruct (_ <? _); [|done]. by rewrite IH. Qed.
Lemma print_dumps_stats attached f pid : stat_part (pktgen_print_packet_dump attached f pid) = stat_part (f pid).
Proof. unfold pktgen_print_packet_dump. destruct (_ && _); [apply print_dump_stats|done]. Qed.

Lemma page_display_stats attached devs hz links paused v v' pid :
  pktgen_page_display attached devs hz links paused v = Some v' → stat_part (infos v' pid) = stat_part (infos v pid).
Proof.
  unfold pktgen_page_display. destruct paused; [by intros [= <-]|]. cbn zeta.
  intros (v2 & E & [= <-])%bind_Some. refine (eq_trans (print_dumps_stats attached (infos v2) pid) _).
  match type of E with (if update_display ?x =? 0 then _ else _) = _ => assert (infos x = infos v) as Ei
    by (by destruct (tst_bits _ UPDATE_DISPLAY_FLAG)); revert E Ei; generalize x end.
  intros v3 E Ei. rewrite <-Ei. destruct (_ =? 0); [|by injection E as <-].
  apply bind_Some in E as (v4 & E4%draw_page_quiet & [= <-]). exact (qt_stats _ _ E4 pid).
Qed.

(** ** The timer keeps the statistics *)

(** The readings that are due, for a statistics turn in [T] cycles *)
Fixpoint due_readings (T next : Z) (ts : list tick) : list (Z → eth_stats_t) :=
  match ts with
  | [] => []
  | t :: ts => if next <=? tick_tsc t then tick_stats t :: due_readings T (u64 (tick_tsc t + T)) ts else due_readings T next ts
  end.
Lemma due_readings_length T ts : ∀ next, length (due_readings T next ts) = length (due T next (tick_tsc <$> ts)).
Proof.
  induction ts as [|t ts IH]; intros next; [done|]. cbn [due_readings due fmap list_fmap].
  destruct (next <=? tick_tsc t); [|apply IH]. cbn [length]. f_equal. apply IH.
Qed.

Lemma process_run_ext i j xs : stat_part i = stat_part j → stat_part (process_run i xs) = stat_part (process_run j xs).
Proof. intros E. rewrite !process_run_stats. unfold stat_part in E. by injection E as -> -> -> ->. Qed.

Lemma timer_turn_stats attached devs hz T P t x x' pid : NoDup devs → pid ∈ devs →
  timer_turn attached devs hz T P t x = Some x' →
  process x' = (if process x <=? tick_tsc t then u64 (tick_tsc t + T) else process x) ∧
  stat_part (infos (tv x') pid) =
    stat_part (if process x <=? tick_tsc t then process_port (tick_stats t pid) (infos (tv x) pid) else infos (tv x) pid).
Proof.
  intros Hnd Hp. unfold timer_turn. cbn zeta.
  match goal with |- (if page_at ?y <=? _ then _ else _) = _ → _ =>
    assert (process y = (if process x <=? tick_tsc t then u64 (tick_tsc t + T) else process x) ∧
      infos (tv y) pid = (if process x <=? tick_tsc t then process_port (tick_stats t pid) (infos (tv x) pid) else infos (tv x) pid)) as [E1 E2];
    [|revert E1 E2; generalize y] end.
  { destruct (process x <=? tick_tsc t); [|done]. split; [done|].
    change (pktgen_process_stats devs (tick_stats t) (infos (tv x)) pid = process_port (tick_stats t pid) (infos (tv x) pid)).
    rewrite process_stats_port by done. by rewrite decide_True by done. }
  intros y <- <-. destruct (page_at y <=? tick_tsc t); [|by intros [= <-]].
  intros (v & E & [= <-])%bind_Some. split; [done|]. by eapply page_display_stats.
Qed.

Lemma timer_turns_stats attached devs hz T P pid : NoDup devs → pid ∈ devs → ∀ ts x x',
  timer_turns attached devs hz T P ts x = Some x' →
  stat_part (infos (tv x') pid) = stat_part (process_run (infos (tv x) pid) ((λ r, r pid) <$> due_readings T (process x) ts)).
Proof.
  intros Hnd Hp. induction ts as [|t ts IH]; intros x x' E; cbn [timer_turns] in E; [by injection E as <-|].
  apply bind_Some in E as (x1 & E1 & E). destruct (timer_turn_stats _ _ _ _ _ _ _ _ pid Hnd Hp E1) as [Ep Es].
  rewrite (IH _ _ E), Ep. cbn [due_readings]. destruct (process x <=? tick_tsc t); [|by apply process_run_ext].
  cbn [fmap list_fmap]. by apply (process_run_ext _ (process_port (tick_stats t pid) (infos (tv x) pid))).
Qed.

(** C17. The timer's thread takes the statistics once in a second of [T] cycles:
    with the clock read at least every [d] cycles until [W] cycles after its start,
    [n] times with [n * T <= W < T + n * (T + d)].  Whatever pages are drawn
    meanwhile, every device then has its last reading, the differences between
    the last two readings as its rates, the largest rates so far as its maxima;
    and the rates of each counter add up to what the counter has advanced, modulo
    2^64. *)
Theorem timer_statistics (attached : Z → bool) (devs : list Z) (timer_hz d began : Z) (ts : list tick) (v : view) (x : timer) :
  let T := Pg.hz (glob v) in let W := List.last (tick_tsc <$> ts) began - began in
  let rs := due_readings T (began + T) ts in let n := Z.of_nat (length rs) in
  NoDup devs → 0 < T → in_word 64 (began + T) → ticks d began (tick_tsc <$> ts) →
  Forall (λ t, 0 ≤ t ∧ t + T < 2 ^ 64) (tick_tsc <$> ts) →
  _timer_thread attached devs timer_hz began ts v = Some x →
  n * T ≤ W < T + n * (T + d) ∧
  ∀ pid, pid ∈ devs →
    let p := Info.prev_stats (infos v pid) in let xs := (λ r, r pid) <$> rs in let i := infos (tv x) pid in
    Info.prev_stats i = List.last xs p ∧
    Info.rate_stats i = List.last (rates p xs) (Info.rate_stats (infos v pid)) ∧
    Info.max_ipackets i = foldl Z.max (Info.max_ipackets (infos v pid)) (Eth.ipackets <$> rates p xs) ∧
    Info.max_opackets i = foldl Z.max (Info.max_opackets (infos v pid)) (Eth.opackets <$> rates p xs) ∧
    ∀ f, f ∈ counters → u64 (zsum (f <$> rates p xs)) = u64 (f (List.last xs p) - f p).
Proof.
  intros T W rs n Hnd HT Hw Hts Hc E. split.
  - destruct (due_bounds T d _ HT began (began + T) Hts Hc ltac:(lia)) as (B1 & B2 & B3). cbn zeta in *.
    rewrite <-due_readings_length in B2, B3. fold rs n in B2, B3. unfold W.
    split; [destruct (decide (0 < n)) as [Hn|Hn]; [specialize (B3 Hn); lia|assert (n = 0) as -> by lia; lia]|lia].
  - intros pid Hp. cbn zeta. unfold _timer_thread in E. cbn zeta in E. fold T in E.
    pose proof (timer_turns_stats _ _ _ _ _ pid Hnd Hp _ _ _ E) as Es.
    change (process (mk_timer (u64 (began + T)) (u64 (began + UPDATE_DISPLAY_TICK_RATE T)) v 0 [])) with (u64 (began + T)) in Es.
    rewrite (wrap_small 64 (began + T)) in Es by done. fold rs in Es. rewrite process_run_stats in Es.
    unfold stat_part in Es. injection Es as E1 E2 E3 E4. split_and!; try done. intros f Hf. by apply rates_sum.
Qed.

(** ** The page that is asked for *)

Lemma page_name_no_digit str f : page_flag_of str = Some f → is_digit (chr str 0) = false ∧ String.eqb str "next" = false.
Proof.
  unfold page_flag_of. intros E.
  repeat match type of E with context [String.eqb str ?s] => destruct (String.eqb_spec str s) as [->|]; [by split|]; cbn [orb] in E end.
  done.
Qed.

Lemma set_page_flags w str f : page_flag_of str = Some f →
  Pg.flags (g (pktgen_set_page false w str)) =
    set_bits (set_bits (set_bits (clr_bits (Pg.flags (g w)) PAGE_MASK_BITS) f) PRINT_LABELS_FLAG) UPDATE_DISPLAY_FLAG.
Proof.
  intros Hf. destruct (page_name_no_digit str f Hf) as [Hd Hn]. unfold pktgen_set_page. rewrite Hd, Hn, Hf. cbn [andb].
  cbn zeta. by destruct (f =? PCAP_PAGE_FLAG).
Qed.

Definition page_flags : list Z :=
  [CPU_PAGE_FLAG; PCAP_PAGE_FLAG; RANGE_PAGE_FLAG; CONFIG_PAGE_FLAG; SEQUENCE_PAGE_FLAG; RND_BITFIELD_PAGE_FLAG; LOG_PAGE_FLAG;
   LATENCY_PAGE_FLAG; STATS_PAGE_FLAG; XSTATS_PAGE_FLAG; RATE_PAGE_FLAG].
Lemma page_flag_in str f : page_flag_of str = Some f → f ∈ page_flags.
Proof.
  unfold page_flag_of. cbv zeta. intros E.
  repeat match type of E with (if ?b then _ else _) = _ => destruct b; [injection E as <-; unfold page_flags; rewrite !elem_of_cons; tauto|] end.
  done.
Qed.

(** With the one flag set, whatever other flags there are, its page is drawn. *)
Lemma one_page v f : in_word 32 v → f ∈ page_flags →
  let v' := clr_bits (set_bits (set_bits (set_bits (clr_bits v PAGE_MASK_BITS) f) PRINT_LABELS_FLAG) UPDATE_DISPLAY_FLAG) UPDATE_DISPLAY_FLAG in
  _page_display v' = _page_display f ∧ tst_bits v' PRINT_LABELS_FLAG = true ∧ in_word 32 v'.
Proof.
  intros Hv Hf v'.
  assert (in_word 32 f) as Hfw by (unfold page_flags in Hf; rewrite !elem_of_cons in Hf;
    repeat (destruct Hf as [->|Hf]; [by vm_compute|]); by apply elem_of_nil in Hf).
  assert (in_word 32 PRINT_LABELS_FLAG) as HP by (by vm_compute). assert (in_word 32 UPDATE_DISPLAY_FLAG) as HU by (by vm_compute).
  pose proof (set_bits_word _ _ (set_bits_word _ _ (set_bits_word _ _ (clr_bits_word v PAGE_MASK_BITS Hv) Hfw) HP) HU) as Hs.
  pose proof (clr_bits_word _ UPDATE_DISPLAY_FLAG Hs) as Hw.
  assert (∀ k, 16 ≤ k < 27 → Z.testbit v' k = Z.testbit f k) as Hb.
  { intros k Hk. unfold v'. rewrite clr_bits_spec by (exact Hs || lia).
    rewrite !set_bits_spec, clr_bits_spec by (done || lia).
    assert (Z.testbit PAGE_MASK_BITS k = true ∧ Z.testbit PRINT_LABELS_FLAG k = false ∧ Z.testbit UPDATE_DISPLAY_FLAG k = false) as (-> & -> & ->).
    { assert (k ∈ seqZ 16 11) as Hin by (apply elem_of_seqZ; lia). revert Hin. clear. intros Hin. revert k Hin.
      apply Forall_forall. by repeat constructor. }
    by rewrite !andb_false_r, andb_true_r, !orb_false_r. }
  split_and!; [|unfold v'|done].
  - unfold _page_display, CPU_PAGE_FLAG, PCAP_PAGE_FLAG, RANGE_PAGE_FLAG, CONFIG_PAGE_FLAG, SEQUENCE_PAGE_FLAG, RND_BITFIELD_PAGE_FLAG,
      LOG_PAGE_FLAG, LATENCY_PAGE_FLAG, STATS_PAGE_FLAG, XSTATS_PAGE_FLAG, RATE_PAGE_FLAG. rewrite !tst_flag by done.
    by rewrite !Hb by lia.
  - unfold PRINT_LABELS_FLAG at 2. rewrite tst_flag by done.
    rewrite clr_bits_spec by (exact Hs || done).
    rewrite !set_bits_spec. by rewrite orb_true_r.
Qed.

(** Clearing a flag that no page has *)
Lemma kept_page v f : in_word 32 v → _page_display v = f → _page_display (clr_bits v PRINT_LABELS_FLAG) = f.
Proof.
  intros Hv <-. assert (∀ k, 16 ≤ k < 27 → Z.testbit (clr_bits v PRINT_LABELS_FLAG) k = Z.testbit v k) as Hb.
  { intros k Hk. rewrite clr_bits_spec by (done || lia). unfold PRINT_LABELS_FLAG. rewrite Z.shiftl_1_l, Z.pow2_bits_eqb by done.
    destruct (Z.eqb_spec 0 k); [lia|]. by rewrite andb_true_r. }
  unfold _page_display, CPU_PAGE_FLAG, PCAP_PAGE_FLAG, RANGE_PAGE_FLAG, CONFIG_PAGE_FLAG, SEQUENCE_PAGE_FLAG, RND_BITFIELD_PAGE_FLAG,
    LOG_PAGE_FLAG, LATENCY_PAGE_FLAG, STATS_PAGE_FLAG, XSTATS_PAGE_FLAG, RATE_PAGE_FLAG. rewrite !tst_flag by done.
  by rewrite !Hb by lia.
Qed.

(** The state in which [pktgen_page_display] draws *)
Definition updated (v : view) : view :=
  v <| glob ::= λ g, g <| Pg.flags ::= λ x, clr_bits x UPDATE_DISPLAY_FLAG |> |> <| update_display := UPDATE_DISPLAY_TICK_INTERVAL |>.
Lemma page_display_updated attached devs hz links v : tst_bits (Pg.flags (glob v)) UPDATE_DISPLAY_FLAG = true →
  let p := _page_display (clr_bits (Pg.flags (glob v)) UPDATE_DISPLAY_FLAG) in
  pktgen_page_display attached devs hz links false v =
    (v' ← draw_page attached devs hz links p (updated v);
     let labels := tst_bits (clr_bits (Pg.flags (glob v)) UPDATE_DISPLAY_FLAG) PRINT_LABELS_FLAG in
     let v' := v' <| glob ::= λ g, g <| Pg.flags ::= λ x, clr_bits x PRINT_LABELS_FLAG |> |> <| shown ::= λ l, l ++ [(p, labels)] |> in
     Some (v' <| infos ::= pktgen_print_packet_dump attached |>)).
Proof.
  intros E. unfold pktgen_page_display. rewrite E. cbn zeta.
  change (update_display (v <| glob ::= _ |> <| update_display := 1 |> <| update_display ::= _ |>)) with (u32 (1 - 1)).
  change (u32 (1 - 1) =? 0) with true. cbn iota. unfold updated.
  match goal with |- (?a ≫= _) ≫= _ = ?b ≫= _ => change b with a; by destruct a end.
Qed.

(** C31. The page that is asked for is the page that is drawn: after a [page]
    command that names one, whatever flags were set before, the next display
    draws that page, and no other, with its labels.  Drawing can only fail on the
    pages that look at links. *)
Theorem page_shown (attached : Z → bool) (devs : list Z) (timer_hz : Z) (links : Z → link) (w : world) (str : string) (f : Z) (v : view) :
  page_flag_of str = Some f → in_word 32 (Pg.flags (g w)) → glob v = g (pktgen_set_page false w str) →
  (∀ v', pktgen_page_display attached devs timer_hz links false v = Some v' →
     shown v' = shown v ++ [(_page_display f, true)] ∧ tst_bits (Pg.flags (glob v')) PRINT_LABELS_FLAG = false ∧
     _page_display (Pg.flags (glob v')) = _page_display f) ∧
  (pktgen_page_display attached devs timer_hz links false v = None → f = LATENCY_PAGE_FLAG ∨ f = RATE_PAGE_FLAG).
Proof.
  intros Hf Hw Eg. pose proof (set_page_flags w str f Hf) as Ef. rewrite <-Eg in Ef.
  destruct (one_page (Pg.flags (g w)) f Hw (page_flag_in str f Hf)) as (Ep & El & Hw'). cbn zeta in *. rewrite <-Ef in Ep, El, Hw'.
  assert (tst_bits (Pg.flags (glob v)) UPDATE_DISPLAY_FLAG = true) as Hu.
  { rewrite Ef. unfold UPDATE_DISPLAY_FLAG at 2. rewrite tst_flag by done. rewrite set_bits_spec. by rewrite orb_true_r. }
  rewrite (page_display_updated attached devs timer_hz links v Hu). cbn zeta. rewrite Ep, El.
  destruct (draw_page attached devs timer_hz links (_page_display f) (updated v)) as [v2|] eqn:Ed; cbn [mbind option_bind]; split.
  - intros v' [= <-]. pose proof (draw_page_quiet _ _ _ _ _ _ _ Ed) as Hq. pose proof (qt_flags _ _ Hq) as Efl.
    change (Pg.flags (glob (updated v))) with (clr_bits (Pg.flags (glob v)) UPDATE_DISPLAY_FLAG) in Efl.
    split; [|split].
    + change (shown v2 ++ [(_page_display f, true)] = shown v ++ [(_page_display f, true)]). by rewrite (qt_shown _ _ Hq).
    + change (tst_bits (clr_bits (Pg.flags (glob v2)) PRINT_LABELS_FLAG) PRINT_LABELS_FLAG = false).
      apply tst_clr_bits. by rewrite Efl.
    + change (_page_display (clr_bits (Pg.flags (glob v2)) PRINT_LABELS_FLAG) = _page_display f). rewrite Efl.
      by apply kept_page.
  - done.
  - done.
  - intros _. pose proof (page_flag_in str f Hf) as Hin. unfold page_flags in Hin. rewrite !elem_of_cons in Hin.
    repeat (destruct Hin as [->|Hin]; [by (discriminate Ed) || (by left) || (by right)|]). by apply elem_of_nil in Hin.
Qed.

(** ** One port, a clock of 1000 cycles a second *)

Definition demo_view : view := mk_view demo_pktgen (λ _, demo_port) (λ _, false) 1 [].
Definition demo_ticks : list tick :=
  (λ t, mk_tick t (λ _, Eth.zero <| Eth.ipackets := 3 * t |> <| Eth.obytes := 2 ^ 64 - 1000 + t |>) (λ _, mk_link true 10000) false)
    <$> [600; 1200; 1700; 2300].
Definition demo_run : option timer := _timer_thread (λ pid, pid =? 0) [0] 1000000 0 demo_ticks demo_view.
Lemma demo_runs : ∃ x, demo_run = Some x.
Proof. assert (is_Some demo_run) as [x E] by (apply (bool_decide_unpack _); vm_compute; exact I). by exists x. Qed.
Lemma demo_run_eq x : demo_run = Some x → _timer_thread (λ pid, pid =? 0) [0] 1000000 0 demo_ticks demo_view = Some x.
Proof. unfold demo_run. exact id. Qed.
Example demo_rates :
  (λ x, (Info.rate_stats (infos (tv x) 0), Info.max_ipackets (infos (tv x) 0), shown (tv x))) <$> demo_run =
    Some (Eth.zero <| Eth.ipackets := 3300 |> <| Eth.obytes := 1100 |>, 3600, [(Page_stats, false)]).
Proof. vm_compute. reflexivity. Qed.

Lemma timer_statistics_witness : ∃ x, demo_run = Some x ∧
  let rs := due_readings 1000 (0 + 1000) demo_ticks in let n := Z.of_nat (length rs) in
  n * 1000 ≤ 2300 - 0 < 1000 + n * (1000 + 700) ∧
  let p := Info.prev_stats (infos demo_view 0) in let xs := (λ r, r 0) <$> rs in
  Info.prev_stats (infos (tv x) 0) = List.last xs p ∧
  u64 (zsum (Eth.obytes <$> rates p xs)) = u64 (Eth.obytes (List.last xs p) - Eth.obytes p).
Proof.
  destruct demo_runs as [x E]. exists x. split; [exact E|].
  destruct (timer_statistics (λ pid, pid =? 0) [0] 1000000 700 0 demo_ticks demo_view x) as [H1 H2].
  - apply NoDup_singleton.
  - reflexivity.
  - split; [done|reflexivity].
  - vm_compute. repeat split; congruence.
  - apply (bool_decide_unpack _). vm_compute. exact I.
  - exact (demo_run_eq x E).
  - destruct (H2 0 ltac:(by left)) as (P1 & _ & _ & _ & P5). split; [exact H1|]. split; [exact P1|]. apply P5. by repeat constructor.
Defined.

Lemma page_shown_witness : ∃ v', pktgen_page_display (λ pid, pid =? 0) [0] 1000000 (λ _, mk_link true 10000) false
    (demo_view <| glob := g (pktgen_set_page false (mk_world demo_pktgen demo_port) "rnd") |>) = Some v' ∧
  shown v' = [(Page_random, true)].
Proof.
  set (v := demo_view <| glob := _ |>).
  assert (is_Some (pktgen_page_display (λ pid, pid =? 0) [0] 1000000 (λ _, mk_link true 10000) false v)) as [v' E]
    by (apply (bool_decide_unpack _); vm_compute; exact I).
  exists v'. split; [exact E|].
  destruct (page_shown (λ pid, pid =? 0) [0] 1000000 (λ _, mk_link true 10000) (mk_world demo_pktgen demo_port) "rnd"
    RND_BITFIELD_PAGE_FLAG v eq_refl ltac:(by vm_compute) eq_refl) as [H _].
  exact (proj1 (H v' E)).
Defined.
