(* ===== verification/Lines.v ===== *)
(** * What single lines do

    [start] and [stop] reach exactly the ports of their list; and some lines
    that fit their format are carried out on the wrong word. *)
From Stdlib Require Import Floats.SpecFloat Ascii String.
From S2P Require Import Prelude Mem PortInfo RandomBits Headers Pacing Commands Session Capture.
From S2P Require Import Strings PortList CliMap CliFacts Console ConsoleFacts.

(** ** Finding the entry of a table that the words of a line fit *)

(** The words of the formats, computed *)
Ltac tokens :=
  repeat match goal with
  | |- context [pg_strtok CLI_MAX_ARGVS ?s [32]] =>
      let v := eval vm_compute in (pg_strtok CLI_MAX_ARGVS s [32]) in
      change (pg_strtok CLI_MAX_ARGVS s [32]) with v
  end.

(** Words a format takes for a port list, a number, a string *)
Definition port_word (s : list Z) : Prop := is_map_valid (str "%P") s = Some true ∧ is_help [s] = false.
Definition number_word (s : list Z) : Prop := is_map_valid (str "%d") s = Some true ∧ is_help [s] = false.
Definition address_word (s : list Z) : Prop := is_map_valid (str "%4") s = Some true ∧ is_help [s] = false.
Definition string_word (s : list Z) : Prop := is_map_valid (str "%s") s = Some true ∧ is_help [s] = false.

Lemma mapping_words m maps argv s :
  last argv = Some s → is_help [s] = false →
  mapping (m :: maps) argv = (r ← defined_as (find_map (m :: maps) argv); match r with Some m => Ok m | None => Refused end).
Proof.
  intros Hl Hs. unfold mapping, cli_mapping. replace (is_help argv) with false; [done|].
  unfold is_help in *. by rewrite Hl.
Qed.

(** The search for the entry, one step at a time *)
Lemma find_other m maps argv :
  Nat.eqb (length (pg_strtok CLI_MAX_ARGVS (fmt m) [32])) (length argv) = false →
  find_map (m :: maps) argv = find_map maps argv.
Proof. intros E. cbn [find_map]. by rewrite E. Qed.
Lemma find_miss m maps argv :
  words_fit (pg_strtok CLI_MAX_ARGVS (fmt m) [32]) argv = Some false →
  find_map (m :: maps) argv = find_map maps argv.
Proof. intros E. cbn [find_map]. rewrite E. by destruct (negb _). Qed.
Lemma find_hit m maps argv :
  Nat.eqb (length (pg_strtok CLI_MAX_ARGVS (fmt m) [32])) (length argv) = true →
  words_fit (pg_strtok CLI_MAX_ARGVS (fmt m) [32]) argv = Some true →
  find_map (m :: maps) argv = Some (Some m).
Proof. intros E1 E2. cbn [find_map]. by rewrite E1, E2. Qed.

Definition is_format (m : list Z) : bool := match m with c :: _ => c =? 37 | [] => false end.
Lemma fit_word m ms a argv : is_format m = false →
  words_fit (m :: ms) (a :: argv) = if pg_strmatch m a then words_fit ms argv else Some false.
Proof. intros E. cbn [words_fit]. unfold is_format in E. rewrite E. by destruct (pg_strmatch m a). Qed.
Lemma fit_format m ms a argv b : is_format m = true → is_map_valid m a = Some b →
  words_fit (m :: ms) (a :: argv) = if b then words_fit ms argv else Some false.
Proof. intros E Hv. cbn [words_fit]. unfold is_format in E. by rewrite E, Hv. Qed.

Ltac fit :=
  tokens;
  repeat (lazymatch goal with |- words_fit (_ :: _) _ = _ => idtac end;
    first
    [ rewrite fit_word by reflexivity;
      match goal with |- context [pg_strmatch ?m ?a] =>
        let v := eval vm_compute in (pg_strmatch m a) in change (pg_strmatch m a) with v end
    | erewrite fit_format; [|reflexivity|solve [eassumption|vm_compute; reflexivity]] ];
    cbv iota);
  reflexivity.

(** The entry that words fit; the last word is no request for help *)
Ltac find_entry table :=
  unfold table, fmts; cbn [fmap list_fmap]; erewrite mapping_words; [|reflexivity|first [assumption|reflexivity]];
  repeat first
    [ rewrite find_other by (vm_compute; reflexivity)
    | rewrite find_hit; [|vm_compute; reflexivity|cbn [fmt]; fit]
    | rewrite find_miss by (cbn [fmt]; fit) ];
  cbn [defined_as mbind res_bind find_map].

Ltac word_facts :=
  unfold port_word, number_word, address_word, string_word;
  change (str "%P") with [37; 80]; change (str "%d") with [37; 100]; change (str "%4") with [37; 52];
  change (str "%s") with [37; 115];
  repeat (intros [? ?]).

(** ** A command on the ports of a list *)

Section Env.
Context `{Env}.

(** A command that always runs and leaves the shared state alone *)
Definition local_command (cmd : command) (f : world → world) : Prop :=
  ∀ w, run cmd w = Some (f w) ∧ g (f w) = g w.

Definition on_port (f : world → world) (c : console) (pid : Z) : option port_info_t :=
  (λ i, info (f (mk_world (globals c) i))) <$> ports c pid.

Lemma run_local cmd f pid i c :
  local_command cmd f → ports c pid = Some i →
  ∃ c', run_actions pid [Do cmd] c = Some c' ∧ globals c' = globals c ∧
    ∀ p, ports c' p = if p =? pid then on_port f c p else ports c p.
Proof.
  intros Hf Ei. cbn [run_actions run_action]. rewrite Ei. cbn [mbind option_bind].
  destruct (Hf (mk_world (globals c) i)) as [-> Hg]. cbn [mbind option_bind].
  eexists. split; [done|]. split; [exact Hg|]. intros p. unfold on_port.
  change (set_at pid (Some (info (f (mk_world (globals c) i)))) (ports c) p =
          if p =? pid then (λ i, info (f (mk_world (globals c) i))) <$> ports c p else ports c p).
  unfold set_at. by destruct (Z.eqb_spec p pid) as [->|N]; [rewrite Ei|].
Qed.

Lemma foreach_local cmd f ds pl : local_command cmd f → NoDup ds → ∀ b c,
  ∃ c', foreach_dev ds pl b (λ _ _, [Do cmd]) c = Some c' ∧ globals c' = globals c ∧
    ∀ pid, ports c' pid =
      if bool_decide (pid ∈ ds) && Z.testbit pl pid then on_port f c pid else ports c pid.
Proof.
  intros Hf. induction 1 as [|d ds Hd Hnd IH]; intros b c; cbn [foreach_dev].
  { exists c. split_and!; try done. }
  assert (∀ pid, bool_decide (pid ∈ d :: ds) = (pid =? d) || bool_decide (pid ∈ ds)) as Hin.
  { intros pid. destruct (Z.eqb_spec pid d) as [->|N]; cbn [orb].
    - by apply bool_decide_eq_true_2, elem_of_cons; left.
    - apply bool_decide_ext. rewrite elem_of_cons. split; [by intros [?|?]|by right]. }
  setoid_rewrite Hin. apply (bool_decide_eq_false_2 _) in Hd.
  destruct (Z.testbit pl d) eqn:Eb; cbn [negb]; [destruct (ports c d) as [i|] eqn:Ei|].
  - destruct (run_local cmd f d i c Hf Ei) as (c1 & -> & Hg & Hp). cbn [mbind option_bind].
    destruct (IH false c1) as (c2 & -> & Hg2 & Hp2). exists c2. split_and!; [done|congruence|].
    intros pid. rewrite Hp2. unfold on_port. rewrite Hg, Hp.
    destruct (Z.eqb_spec pid d) as [->|N]; cbn [orb]; [|done]. by rewrite Hd, Eb.
  - destruct (IH b c) as (c2 & -> & Hg2 & Hp2). exists c2. split_and!; [done|done|].
    intros pid. rewrite Hp2. destruct (Z.eqb_spec pid d) as [->|N]; cbn [orb]; [|done].
    rewrite Hd, Eb. cbn [andb]. unfold on_port. by rewrite Ei.
  - destruct (IH b c) as (c2 & -> & Hg2 & Hp2). exists c2. split_and!; [done|done|].
    intros pid. rewrite Hp2. destruct (Z.eqb_spec pid d) as [->|N]; cbn [orb]; [|done].
    by rewrite Hd, Eb.
Qed.

Lemma local_start : local_command Start pktgen_start_transmitting.
Proof.
  intros w. split; [done|]. unfold pktgen_start_transmitting. destruct (tst_flags w _); [done|]. cbn zeta.
  by destruct (_ =? 0).
Qed.
Lemma local_stop : local_command Stop pktgen_stop_transmitting.
Proof. intros w. split; [done|]. unfold pktgen_stop_transmitting. by destruct (tst_flags w _). Qed.

(** ** The line *)

(** What [portlist_of] gives for a written list *)
Lemma portlist_of_entries sp rs :
  Forall word_bounds rs → rs ≠ [] → (length rs ≤ MAX_SPLIT)%nat → Forall (λ c, isspace c = true) sp →
  ∀ i, 0 ≤ i → Z.testbit (portlist_of (join 44 sp (show_entry <$> rs))) i =
    if forallb valid rs then existsb (covers i) rs else Z.testbit junk_portlist i.
Proof.
  intros Hr Hne Hlen Hsp i Hi. unfold portlist_of. rewrite parse_join by done.
  pose proof (entries_spec rs 0 Hr) as He. destruct (forallb valid rs); [|by rewrite He].
  destruct He as (m & -> & Hm). cbn [snd]. by rewrite (Hm i Hi), Z.bits_0.
Qed.

(** A list starts with a digit. *)
Lemma join_digit sp rs : Forall word_bounds rs → rs ≠ [] →
  ∃ c t, join 44 sp (show_entry <$> rs) = c :: t ∧ digit_char c.
Proof.
  intros Hr Hne. destruct rs as [|[lo hi] rs]; [done|]. inversion Hr as [|? ? [Hl _] _]; subst.
  cbn [fmap list_fmap fst] in *. destruct (join_first 44 sp (show_entry <$> rs) (show_entry (lo, hi))) as [t ->].
  destruct (show_cons lo) as (c & l & El & Hc); [lia|]. unfold show_entry. rewrite El.
  destruct (lo =? hi); cbn [app]; by eexists c, _.
Qed.

Definition verb (on : bool) : list Z := if on then str "start" else str "stop".

Lemma start_stop_mapping (on : bool) c t : digit_char c →
  mapping start_map [verb on; c :: t] =
  Ok (mk_map (if on then 10 else 20) (if on then str "start %P" else str "stop %P")).
Proof.
  intros Hc. assert (isdigit c = true) as Hd.
  { unfold isdigit. unfold digit_char in Hc. rewrite andb_true_iff, !Z.leb_le. lia. }
  assert ((63 =? c) = false ∧ (45 =? c) = false) as [E1 E2] by (unfold digit_char in Hc; rewrite !Z.eqb_neq; lia).
  assert (is_help [verb on; c :: t] = false) as Hh.
  { unfold is_help. cbn [last]. change (str "-?") with [45; 63]. change (str "?") with [63]. cbn [pg_strmatch].
    by rewrite E1, E2. }
  assert (is_map_valid [37; 80] (c :: t) = Some true) as Hv by (cbn; by rewrite Hd).
  unfold mapping, cli_mapping. rewrite Hh. unfold start_map, fmts. cbn [fmap list_fmap find_map fmt]. tokens.
  destruct on; cbn -[is_map_valid] ; by rewrite Hv.
Qed.

Lemma start_stop_steps on c t : digit_char c →
  start_stop_cmd [verb on; c :: t] =
  Ok [foreach_port (portlist_of (c :: t)) [if on then Start else Stop]; update_display].
Proof. intros Hc. unfold start_stop_cmd. rewrite start_stop_mapping by done. by destruct on. Qed.

(** The first word of a line decides what it is, when nothing in the line stands for
    something else. *)
Lemma scan_words fuel before line after name argv :
  pg_strtrim (before ++ line ++ after) = line →
  Forall (λ c, c ≠ 36) line → (∃ c l, line = c :: l ∧ not_in [35; 33; 64] c) →
  pg_strqtok line blanks CLI_MAX_ARGVS = Some (name :: argv) →
  cli_execute (S fuel) (before ++ line ++ after) =
    match assoc name alias_table with
    | Some a => cli_execute fuel (a ++ drop (length name) (before ++ line ++ after))
    | None =>
        match assoc name command_table with
        | Some f => f (name :: argv)
        | None => if is_other name then Undef else Refused
        end
    end.
Proof.
  intros Et Hd (c & l & E & Hc) Eq. cbn [cli_execute]. rewrite Et. rewrite E in *. cbn zeta.
  unfold not_in in Hc. rewrite !elem_of_cons in Hc.
  destruct (Z.eqb_spec c 35); [by destruct Hc; auto|]. destruct (Z.eqb_spec c 33); [by destruct Hc; auto|].
  destruct (Z.eqb_spec c 64); [by destruct Hc; auto|]. cbn [orb].
  assert (existsb (λ d, d =? 36) (c :: l) = false) as ->.
  { apply not_true_is_false. intros (x & Hx & ->%Z.eqb_eq)%existsb_exists.
    rewrite Forall_forall in Hd. by apply (Hd 36); [apply list_elem_of_In|]. }
  change (str " " ++ [13; 10]) with blanks. by rewrite Eq.
Qed.

Lemma execute_words fuel before line after name argv f :
  pg_strtrim (before ++ line ++ after) = line →
  Forall (λ c, c ≠ 36) line → (∃ c l, line = c :: l ∧ not_in [35; 33; 64] c) →
  pg_strqtok line blanks CLI_MAX_ARGVS = Some (name :: argv) →
  assoc name alias_table = None → assoc name command_table = Some f →
  cli_execute (S fuel) (before ++ line ++ after) = f (name :: argv).
Proof. intros Et Hd Hc Eq Ea Ef. rewrite (scan_words fuel before line after name argv) by done. by rewrite Ea, Ef. Qed.

Lemma join_forall (P : Z → Prop) sep sp es :
  P sep → Forall P sp → Forall (Forall P) es → Forall P (join sep sp es).
Proof.
  intros H1 H2 Hes. induction Hes as [|e es He Hes IH]; [constructor|].
  destruct es as [|e' es]; [exact He|]. apply Forall_app. split; [exact He|].
  constructor; [exact H1|]. apply Forall_app. by split.
Qed.

(** No variable of the environment is meant in a list. *)
Lemma list_no_dollar sp rs :
  Forall word_bounds rs → Forall (λ c, isspace c = true) sp →
  Forall (λ c, c ≠ 36) (join 44 sp (show_entry <$> rs)).
Proof.
  intros Hr Hsp. apply join_forall; [done|by eapply Forall_impl; [exact Hsp|intros c Hc ->]|].
  apply Forall_fmap. eapply Forall_impl; [exact Hr|]. intros [lo hi] [Hl Hh]. cbn [fst snd] in *.
  assert (¬ digit_char 36) by (unfold digit_char; lia). unfold compose, show_entry.
  destruct (lo =? hi); [by apply show_no; [lia|]|].
  apply Forall_app. split; [by apply show_no; [lia|]|]. constructor; [done|]. by apply show_no; [lia|].
Qed.

Lemma printed_forall (P : Z → Prop) q w :
  P 34 → P 39 → P 123 → P 125 → Forall P w → Forall P (printed (q, w)).
Proof.
  intros H1 H2 H3 H4 Hw. destruct q; unfold printed; cbn [fst snd]; [exact Hw|..];
    (constructor; [done|]); apply Forall_app; (split; [exact Hw|]); by repeat constructor.
Qed.

Lemma port_negative rs pid : Forall word_bounds rs → pid < 0 →
  (if forallb valid rs then existsb (covers pid) rs else Z.testbit junk_portlist pid) = false.
Proof.
  intros Hr Hp. destruct (forallb valid rs); [|by apply Z.testbit_neg_r].
  apply not_true_is_false. intros ([lo hi] & Hx & Hc)%existsb_exists.
  apply list_elem_of_In in Hx. rewrite Forall_forall in Hr. destruct (Hr _ Hx) as [[Hl _] _].
  cbn in Hc, Hl. apply andb_true_iff in Hc as [Hc%Z.leb_le _]. lia.
Qed.

(** C19. The lines [start <list>] and [stop <list>], however the list is spaced and
    quoted, start or stop transmission on exactly the ports the list covers, and
    leave every other port and the shared flags of the program as they are, the
    display's apart.  If an entry of the list is out of order or beyond port 63,
    the ports are the ones the local variable happened to contain. *)
Theorem start_stop_line (on : bool) (gap : list Z) (q : quoting) (sp : list Z) (rs : list (Z * Z))
    (before after : list Z) (c : console) :
  NoDup devs → Forall word_bounds rs → rs ≠ [] → (length rs ≤ MAX_SPLIT)%nat →
  Forall (λ c, isspace c = true) sp → Forall (λ c, isspace c = true) before →
  Forall (λ c, isspace c = true) after → spaced (gap, (q, join 44 sp (show_entry <$> rs))) →
  ∃ c', run_line (before ++ (verb on ++ rest_of_line [(gap, (q, join 44 sp (show_entry <$> rs)))]) ++ after) c = Ok c' ∧
    globals c' = g (pktgen_update_display (mk_world (globals c) Info.zero)) ∧
    ∀ pid, ports c' pid =
      if bool_decide (pid ∈ devs) &&
         (if forallb valid rs then existsb (covers pid) rs else Z.testbit junk_portlist pid)
      then on_port (if on then pktgen_start_transmitting else pktgen_stop_transmitting) c pid
      else ports c pid.
Proof.
  intros Hnd Hr Hne Hlen Hsp Hb Ha Hps.
  set (lst := join 44 sp (show_entry <$> rs)) in *.
  destruct (join_digit sp rs Hr Hne) as (x & t & El & Hx). fold lst in El.
  assert (Forall plain_char (verb on) ∧ verb on ≠ []) as [Hw Hv] by (destruct on; split; [by repeat constructor|done|by repeat constructor|done]).
  assert (Forall spaced [(gap, (q, lst))]) as Hps' by (constructor; [exact Hps|constructor]).
  assert (solid isspace (verb on ++ rest_of_line [(gap, (q, lst))])) as Hs by by apply line_solid.
  set (pl := portlist_of lst).
  destruct (foreach_local (if on then Start else Stop)
    (if on then pktgen_start_transmitting else pktgen_stop_transmitting) devs pl
    ltac:(destruct on; [exact local_start|exact local_stop]) Hnd true c) as (c1 & E1 & Hg & Hp).
  exists (on_globals pktgen_update_display c1). split_and!.
  - unfold run_line. rewrite (execute_words 1 before _ after (verb on) [lst] start_stop_cmd).
    + rewrite El, start_stop_steps, <-El by done. cbn [mbind res_bind run_steps]. fold pl.
      assert (run_step (foreach_port pl [if on then Start else Stop]) c = Some c1) as -> by exact E1.
      done.
    + by apply strtrim_solid.
    + apply Forall_app. split; [by destruct on; repeat constructor|]. rewrite rest_cons.
      apply Forall_app. destruct Hps as (Hgap & _). split.
      * eapply Forall_impl; [exact Hgap|]. by intros y [-> | [-> | ->]]%blank_cases.
      * apply Forall_app. split; [|constructor]. by apply printed_forall, list_no_dollar.
    + destruct on; eexists _, _; split; try done; unfold not_in; cbn; rewrite !elem_of_cons;
        by intros [|[|[|[]%not_elem_of_nil]]].
    + unfold pg_strqtok. pose proof (strtrim_solid [] _ [] ltac:(constructor) ltac:(constructor) Hs) as E.
      rewrite app_nil_r in E. cbn [app] in E. rewrite E, strqtok_words by done. done.
    + by destruct on.
    + by destruct on.
  - unfold on_globals. change (g (pktgen_update_display (mk_world (globals c1) Info.zero)) = g (pktgen_update_display (mk_world (globals c) Info.zero))).
    by rewrite Hg.
  - intros pid. change (ports (on_globals pktgen_update_display c1) pid) with (ports c1 pid). rewrite Hp.
    destruct (Z.lt_ge_cases pid 0).
    + by rewrite port_negative, Z.testbit_neg_r by done.
    + unfold pl, lst. by rewrite portlist_of_entries by done.
Qed.

(** ** Lines whose handler looks at another word *)

Section Words.
Context (pl n x : list Z).

Definition sets (cmd : command) : res (list step) := Ok [foreach_port (portlist_of pl) [cmd]; update_display].

Lemma rate_payload :
  port_word pl → number_word n → rate_cmd [str "rate"; pl; str "payload"; str "size"; n] = sets (Rate_value "overhead" 0).
Proof. word_facts. unfold rate_cmd. by find_entry rate_map. Qed.

Lemma rate_color :
  port_word pl → number_word n → rate_cmd [str "rate"; pl; str "color"; str "bits"; n] = sets (Rate_value "color" 0).
Proof. word_facts. unfold rate_cmd. by find_entry rate_map. Qed.

Lemma rate_overhead :
  port_word pl → number_word n → rate_cmd [str "rate"; pl; str "overhead"; n] = sets (Rate_value "mbps" (atoi_w 32 n)).
Proof. word_facts. unfold rate_cmd. by find_entry rate_map. Qed.

Lemma set_user_pattern_word :
  port_word pl → string_word x → set_cmd [str "set"; pl; str "user"; str "pattern"; x] = sets (Set_user_pattern "pattern").
Proof. word_facts. unfold set_cmd. by find_entry set_map. Qed.

Lemma range_gre_key :
  port_word pl → number_word n → range_cmd [str "range"; pl; str "gre_key"; n] = Undef.
Proof. word_facts. unfold range_cmd. cbn zeta. by find_entry range_map. Qed.

Lemma set_ports_per_page :
  number_word n → set_cmd [str "set"; str "ports_per_page"; n] = Undef.
Proof. word_facts. unfold set_cmd. by find_entry set_map. Qed.

Lemma restart_ports :
  port_word pl → misc_cmd [str "restart"; pl] = Refused.
Proof. word_facts. unfold misc_cmd. by find_entry misc_map. Qed.

Lemma range_dst_ip_word w : port_word pl → address_word n →
  In w ["start"; "min"; "max"; "inc"]%string → _atoip n false = None →
  range_cmd [str "range"; pl; str "dst"; str "ip"; str w; n] = sets (Range_dst_ip w junk_ip).
Proof.
  word_facts. intros Hw Ha. unfold range_cmd. cbn zeta.
  assert (atoip n false junk_ip = junk_ip) as Hj by (unfold atoip; by rewrite Ha).
  repeat destruct Hw as [<-|Hw]; [..|done];
    find_entry range_map; cbn -[atoip]; by rewrite Hj.
Qed.
End Words.

Lemma address_dotted a b c d t : byte a → address_word (dotted a b c d ++ t).
Proof.
  intros [Ha _]. unfold dotted. destruct (show_cons a Ha) as (x & l & -> & Hx). unfold digit_char in Hx.
  assert (isdigit x = true) as Hd by (unfold isdigit; rewrite andb_true_iff, !Z.leb_le; lia).
  assert ((63 =? x) = false ∧ (45 =? x) = false) as [E1 E2] by (rewrite !Z.eqb_neq; lia).
  split.
  - change (str "%4") with [37; 52]. cbn. by rewrite Hd.
  - unfold is_help. cbn [last app]. change (str "-?") with [45; 63]. change (str "?") with [63].
    cbn [pg_strmatch]. by rewrite E1, E2.
Qed.

(** Lines that fit their format and whose handler looks at another word than
    the one with the value.  Of [rate], [payload size N] sets the overhead to zero
    and [color bits N] asks for zero bits, whatever [N] is, and [overhead N] sets
    a value no port has; [set user pattern X] stores the word [pattern]; an
    address with a prefix length in a [range] line is not read, and the value is
    what a local variable contained; [range gre_key N] and [set ports_per_page N]
    read behind the last word; and [restart] takes no ports. *)
Theorem misread_arguments (pl n x : list Z) (w : string) (a b c d m : Z) :
  port_word pl → number_word n → string_word x → In w ["start"; "min"; "max"; "inc"]%string →
  byte a → byte b → byte c → byte d → 0 ≤ m < 2 ^ 63 →
  rate_cmd [str "rate"; pl; str "payload"; str "size"; n] = sets pl (Rate_value "overhead" 0) ∧
  rate_cmd [str "rate"; pl; str "color"; str "bits"; n] = sets pl (Rate_value "color" 0) ∧
  (rate_cmd [str "rate"; pl; str "overhead"; n] = sets pl (Rate_value "mbps" (atoi_w 32 n)) ∧
   ∀ i v, rate_set_value i "mbps" v = i) ∧
  set_cmd [str "set"; pl; str "user"; str "pattern"; x] = sets pl (Set_user_pattern "pattern") ∧
  range_cmd [str "range"; pl; str "dst"; str "ip"; str w; dotted a b c d ++ 47 :: show m] =
    sets pl (Range_dst_ip w junk_ip) ∧
  range_cmd [str "range"; pl; str "gre_key"; n] = Undef ∧
  set_cmd [str "set"; str "ports_per_page"; n] = Undef ∧
  misc_cmd [str "restart"; pl] = Refused.
Proof.
  intros Hp Hn Hx Hw Ha Hb Hc Hd Hm. split_and!; try done.
  - by apply rate_payload.
  - by apply rate_color.
  - by apply rate_overhead.
  - by apply set_user_pattern_word.
  - apply range_dst_ip_word; [done|by apply address_dotted|done|].
    pose proof (atoip_unasked a b c d m [] Ha Hb Hc Hd Hm I) as E. by rewrite app_nil_r in E.
  - by apply range_gre_key.
  - by apply set_ports_per_page.
  - by apply restart_ports.
Qed.
End Env.

(** ** Witnesses *)

Lemma start_stop_line_witness :
  ∃ c', @run_line lab (str " start '1,  3-5'") lab_console = Ok c' ∧
    ports c' 1 = on_port pktgen_start_transmitting lab_console 1 ∧ ports c' 0 = ports lab_console 0.
Proof.
  destruct (@start_stop_line lab true [32] Ticked [32; 32] [(1, 1); (3, 5)] [32] [] lab_console)
    as (c' & E & _ & Hp).
  - by apply (bool_decide_unpack _); vm_compute.
  - by repeat constructor.
  - done.
  - by apply Nat.leb_le.
  - by repeat constructor.
  - by repeat constructor.
  - constructor.
  - split_and!; by apply (bool_decide_unpack _); vm_compute.
  - exists c'. split; [exact E|]. by rewrite !Hp.
Defined.

Lemma misread_arguments_witness :
  @rate_cmd lab [str "rate"; str "0"; str "payload"; str "size"; str "800"] =
    Ok [@foreach_port 1 [Rate_value "overhead" 0]; update_display] ∧
  @set_cmd lab [str "set"; str "0"; str "user"; str "pattern"; str "abc"] =
    Ok [@foreach_port 1 [Set_user_pattern "pattern"]; update_display].
Proof.
  destruct (@misread_arguments lab (str "0") (str "800") (str "abc") "inc" 10 0 0 1 24)
    as (H1 & _ & _ & H2 & _);
    [by split|by split|by split|by right; right; right; left|done..|].
  by split; [rewrite H1|rewrite H2].
Defined.
