(* ===== verification/Terminal.v ===== *)
(** * The terminal: from bytes to commands

    [lib/cli/cli_input.c], the keys of [lib/cli/cli_vt100.c], [cli_execute] and the
    command files of [lib/cli/cli.c]: bytes are taken for characters and keys
    ([Keys]), edit a line ([GapBuf]), and the return key executes it ([Console])
    with the history ([History]) and the variables ([CliEnv]) of the console.
    What is written to the screen is not modelled. *)
From Stdlib Require Import Ascii String.
From S2P Require Import Prelude Mem GapBuf History Keys Strings CliEnv CliMap Console.

(** ** Outcomes

    [Undefined]: freed memory is used, or memory that was not allocated.
    [Beyond]: a command, or the completion of words, that is not modelled, or one
    that [Console] has no result for. *)
Inductive out (A : Type) := Runs (a : A) | Undefined | Beyond.
Arguments Runs {A} a.
Arguments Undefined {A}.
Arguments Beyond {A}.
#[global] Instance out_bind : MBind out := λ _ _ f m,
  match m with Runs a => f a | Undefined => Undefined | Beyond => Beyond end.

Definition or_undefined {A} (o : option A) : out A := match o with Some a => Runs a | None => Undefined end.
Definition or_beyond {A} (o : option A) : out A := match o with Some a => Runs a | None => Beyond end.

(** ** The state *)

(** What [cli->kill] points to *)
Inductive kill_t := No_kill | Killed (s : list Z) | Freed.

Record terminal := mk_terminal {
  gb : gapbuf; vt : cli_vt100; hist : history; kill : kill_t; quit_flag : bool; env : cli_env; con : console }.
#[global] Instance eta_terminal : Eta terminal := λ t,
  mk_terminal (gb t) (vt t) (hist t) (kill t) (quit_flag t) (env t) (con t).

Definition CLI_MAX_PATH_LENGTH := 2048.
Definition CLI_MAX_SCRATCH_LENGTH := 4096.

(** ** Executing the line *)

(** The text of the history's line, which is copied to the start of the buffer,
    while [p] still points behind the [lead] blanks that were skipped *)
Definition recalled (l old : list Z) (lead : nat) : list Z :=
  cstr (drop lead (l ++ [0] ++ drop (S (length l)) (old ++ [0]))).

(** An alias takes the place of the name; the rest of the text follows. *)
Definition put_alias (name a text : list Z) (g : gapbuf) : out gapbuf :=
  let name_sz := Z.of_nat (length name) in
  let data := gb_data_size g in
  if (name_sz <? data) && (CLI_MAX_SCRATCH_LENGTH <? data) then Undefined
  else
    let scratch := if name_sz <? data then text else [] in
    let g := snd (gb_str_insert a (gb_reset_buf g)) in
    Runs (if 0 <? Z.of_nat (length scratch) - name_sz then snd (gb_str_insert (drop (length name) scratch) g) else g).

(** The history is not reset when nothing was executed. *)
Definition execute_command `{Env} (argv : line) (t : terminal) : out terminal :=
  match argv with
  | [] => Runs t
  | name :: _ =>
      match assoc name command_table with
      | Some f =>
          match f argv with
          | Ok ss => c ← or_beyond (run_steps ss (con t)); Runs (t <| con := c |> <| hist ::= cli_history_reset |>)
          | Refused => Runs (t <| hist ::= cli_history_reset |>)
          | Undef => Beyond
          end
      | None => if is_other name then Beyond else Runs t
      end
  end.

Fixpoint cli_execute `{Env} (fuel : nat) (t : terminal) : out terminal :=
  match fuel with
  | O => Beyond
  | S fuel =>
      let sz := Z.max (gb_data_size (gb t)) CLI_MAX_PATH_LENGTH in
      let text := cstr (gb_copy_to_buf (gb t) sz) in
      let p := pg_strtrim text in
      let lead := (length text - length (skip_while isspace text))%nat in
      let words p t :=
        p ← or_undefined (cli_env_substitution (env t) p (sz - Z.of_nat lead));
        argv ← or_undefined (pg_strqtok p (str " " ++ [13; 10]) CLI_MAX_ARGVS);
        match argv with
        | [] => Runs t
        | name :: _ =>
            match assoc name alias_table with
            | Some a =>
                g ← put_alias name a text (gb t);
                t ← cli_execute fuel (t <| gb := g |> <| hist ::= cli_history_del |>);
                Runs (t <| hist ::= cli_history_reset |>)
            | None => execute_command argv t
            end
        end in
      match p with
      | [] => Runs t
      | c :: n =>
          if c =? 35 then Runs t
          else if c =? 33 then
            match cli_history_line (atoi n) (hist t) with
            | None => Runs t
            | Some l => if sz <? Z.of_nat (length l) then Undefined else words (recalled l (take (lead + length p) text) lead) t
            end
          else if c =? 64 then Beyond
          else h ← or_undefined (cli_history_add p (hist t)); words p (t <| hist := h |>)
      end
  end.

(** ** Keys *)
Definition on_gb (f : gapbuf → gapbuf) (t : terminal) : terminal := t <| gb ::= f |>.

Definition key_return `{Env} (t : terminal) : out terminal :=
  t ← cli_execute 2 t;
  Runs (t <| gb ::= gb_reset_buf |> <| hist ::= λ h, h <| curr_hist := 0 |> |>).

(** A line of the history, if there is one, in the place of the text *)
Definition show_line (r : option (option (list Z) * history)) (t : terminal) : out terminal :=
  '(l, h) ← or_undefined r;
  Runs (t <| hist := h |> <| gb ::= λ g, match l with Some l => key_up_arr l g | None => g end |>).

(** What is killed is copied with one byte more, which may lie behind the block;
    the old copy is given up first, also when there is no new one. *)
Definition key_ctrl_k (t : terminal) : out terminal :=
  let g := gb_move_gap_to_point (gb t) in
  let n := gb_right_data_size g in
  match kill t with
  | Freed => Undefined
  | k =>
      let freed := match k with Killed _ => Freed | _ => k end in
      if n =? 0 then Runs (t <| gb := gb_del n g |> <| kill := freed |>)
      else if size g <? egap g + n + 1 then Undefined
      else Runs (t <| gb := gb_del n g |> <| kill := Killed (cstr (read_bytes (data g) (egap g) (Z.to_nat n + 1))) |>)
  end.

Definition key_ctrl_y (t : terminal) : out terminal :=
  match kill t with
  | No_kill => Runs t
  | Killed s => Runs (on_gb (λ g, snd (gb_str_insert s g)) t)
  | Freed => Undefined
  end.

Definition vt100_do_cmd `{Env} (k : key) (t : terminal) : out terminal :=
  let turns := S (S (Z.to_nat (gb_data_size (gb t)))) in
  match k with
  | Invalid_key | Ctrl_d | Ctrl_l | Meta_bkspace | Ctrl_w | Meta_d => Runs t
  | Up_arr | Ctrl_p => show_line (cli_history_prev (hist t)) t
  | Down_arr | Ctrl_n => show_line (cli_history_next (hist t)) t
  | Right_arr | Ctrl_f => Runs (on_gb key_right_arr t)
  | Left_arr | Ctrl_b => Runs (on_gb key_left_arr t)
  | Bkspace | Suppr => Runs (on_gb key_backspace t)
  | Return | Return2 => key_return t
  | Ctrl_a => Runs (on_gb key_ctrl_a t)
  | Ctrl_e => Runs (on_gb key_ctrl_e t)
  | Ctrl_k => key_ctrl_k t
  | Ctrl_y => key_ctrl_y t
  | Ctrl_c => Runs (on_gb key_ctrl_c t <| hist ::= λ h, h <| curr_hist := 0 |> |>)
  | Tab => Beyond
  | Wleft => g ← or_beyond (key_word_left turns (gb t)); Runs (t <| gb := g |>)
  | Wright => g ← or_beyond (key_word_right turns (gb t)); Runs (t <| gb := g |>)
  | Ctrl_x => Runs (t <| quit_flag := true |>)
  end.

(** ** Input *)
Definition input_char `{Env} (c : Z) (t : terminal) : out terminal :=
  let '(r, v) := vt100_parse_input (vt t) c in
  let t := t <| vt := v |> in
  match r with
  | Found Invalid_key | VT100_CONTINUE => Runs t
  | Found k => vt100_do_cmd k t
  | VT100_DONE => Runs (on_gb (handle_input_display c) t)
  end.

Fixpoint cli_input `{Env} (s : list Z) (t : terminal) : out terminal :=
  match s with
  | [] => Runs t
  | c :: s => t ← input_char c t; cli_input s t
  end.

(** ** Command files *)

(** [fgets] into a buffer of [n + 1] bytes: up to the end of the line, or [n] bytes *)
Fixpoint fgets (n : nat) (s : list Z) : list Z * list Z :=
  match n, s with
  | S n, c :: s => if c =? 10 then ([c], s) else let '(l, s) := fgets n s in (c :: l, s)
  | _, _ => ([], s)
  end.

(** [while (fgets(...)) cli_input(buff, strlen(buff))] *)
Fixpoint feed_file `{Env} (fuel : nat) (s : list Z) (t : terminal) : out terminal :=
  match fuel, s with
  | _, [] => Runs t
  | O, _ => Beyond
  | S fuel, _ => let '(l, s) := fgets 255 s in t ← cli_input (cstr l) t; feed_file fuel s t
  end.

(** The contents of a file that is not a Lua script, or [None] when it cannot be
    opened, and the status *)
Definition cli_execute_cmdfile `{Env} (file : option (list Z)) (t : terminal) : out (Z * terminal) :=
  let t := on_gb gb_reset_buf t in
  match file with
  | None => Runs (-1, t)
  | Some s => t ← feed_file (S (length s)) s t; Runs (0, t)
  end.

(** The files in the order given; the first that cannot be opened ends it. *)
Fixpoint cli_execute_cmdfiles `{Env} (files : list (option (list Z))) (t : terminal) : out (Z * terminal) :=
  match files with
  | [] => Runs (0, t)
  | f :: fs => '(r, t) ← cli_execute_cmdfile f t; if r =? 0 then cli_execute_cmdfiles fs t else Runs (-1, t)
  end.
