(* ===== verification/TerminalFacts.v ===== *)
(** * What typing lines does

    Lines that are typed, or read from a file, are executed one after the other as
    [Console] executes their texts, through the line editor, the history and the
    substitution of variables. *)
From Stdlib Require Import Ascii String.
From S2P Require Import Prelude Mem GapBuf History Keys Strings CliEnv CliMap CliFacts Console ConsoleFacts Lines Terminal.

(** ** Characters *)

Definition printable (c : Z) : Prop := 32 ≤ c ≤ 126.
#[global] Instance printable_dec c : Decision (printable c).
Proof. unfold printable. apply _. Defined.

Lemma printable_byte s : Forall printable s → wrap 8 <$> s = s.
Proof.
  induction 1 as [|c s Hc HF IH]; [done|]. cbn. rewrite IH. f_equal. apply wrap_small. unfold printable, in_word in *. lia.
Qed.

Lemma cstr_text s : Forall printable s → cstr (s ++ [0]) = s.
Proof.
  intros HF. unfold cstr. rewrite (span_at (λ c, c =? 0) s 0 []); [done| |done].
  eapply Forall_impl; [exact HF|]. intros c Hc. unfold printable in Hc. apply Z.eqb_neq. lia.
Qed.
Lemma cstr_no_zero s : Forall (λ c, c ≠ 0) s → cstr s = s.
Proof. intros HF. unfold cstr. rewrite span_out; [done|]. eapply Forall_impl; [exact HF|]. intros c Hc. by apply Z.eqb_neq. Qed.

Lemma length_skip_while p s : (length (skip_while p s) ≤ length s)%nat.
Proof. induction s as [|c s IH]; cbn; [lia|]. destruct (p c); cbn; lia. Qed.
Lemma length_strtrim s : (length (pg_strtrim s) ≤ length (skip_while isspace s))%nat.
Proof.
  unfold pg_strtrim. rewrite length_reverse. etrans; [apply length_skip_while|]. by rewrite length_reverse.
Qed.

(** ** The line editor *)

Definition MAX_LINE := 2000.

Lemma wf_reset g z : rep g z → rep (gb_reset_buf g) ([], []).
Proof. intros [[? ? ? ? ?] _ _]. apply reset_spec; lia. Qed.

Lemma str_insert g l s : rep g (l, []) → Forall printable s → Z.of_nat (length l + length s) ≤ LIMIT →
  rep (snd (gb_str_insert s g)) (l ++ s, []).
Proof.
  intros Hr Hs Hl. pose proof (str_insert_spec g l [] s Hr) as Hi. rewrite app_nil_r in Hi.
  destruct (gb_str_insert s g) as [n g']. destruct Hi as [_ Hi]; [lia|]. by rewrite printable_byte in Hi.
Qed.

Lemma data_size g l r : rep g (l, r) → gb_data_size g = Z.of_nat (length (l ++ r)).
Proof. intros [Hw Ht _]. cbn in Ht. destruct (wf_sizes g Hw) as (_ & _ & ->). by rewrite <-Ht, length_text. Qed.

(** What is copied out of the editor *)
Lemma text_of g l r sz : rep g (l, r) → Forall printable (l ++ r) → Z.of_nat (length (l ++ r)) ≤ sz →
  cstr (gb_copy_to_buf g sz) = l ++ r.
Proof.
  intros Hr HF Hsz. pose proof (data_size g l r Hr) as Hd.
  assert (gb_copy_to_buf g sz = gb_copy_to_buf g (gb_data_size g)) as ->.
  { unfold gb_copy_to_buf. by replace (Z.min sz (gb_data_size g)) with (Z.min (gb_data_size g) (gb_data_size g)) by lia. }
  rewrite (copy_spec g l r Hr). by apply cstr_text.
Qed.

(** ** The history *)

(** [n] entries are left. *)
Definition keeps (n : nat) (h : history) : Prop := ∃ ls, holds n (h <| curr_hist := 0 |>) (ls, None).

Lemma keeps_add n h l : keeps n h → (0 < n)%nat → ∃ h', cli_history_add l h = Some h' ∧ keeps n h' ∧
  ∃ ls, holds n (h' <| curr_hist := 0 |>) (ls, None) ∧ ls ≠ [].
Proof.
  intros [ls Hk] Hn. destruct (add_spec n _ ls None l Hk Hn) as (h1 & E & H1). rewrite curr_irrelevant in E.
  destruct (cli_history_add l h) as [h'|]; [|done]. injection E as <-. exists h'. split; [done|].
  split; [by exists (push n ls l)|]. exists (push n ls l). split; [exact H1|].
  intros E. pose proof (push_last n ls l Hn) as Hl. by rewrite E in Hl.
Qed.

Lemma keeps_del n h ls : holds n (h <| curr_hist := 0 |>) (ls, None) → ls ≠ [] → keeps (pred n) (cli_history_del h).
Proof.
  intros Hk Hne. apply hist_del_spec in Hk; [|done]. eexists. unfold cli_history_del in *. cbn in Hk.
  destruct (hist_mem h); exact Hk.
Qed.
Lemma keeps_reset n h : keeps n h → keeps n (cli_history_reset h).
Proof. done. Qed.

Section Env.
Context `{Env}.

(** A terminal at its prompt, with [n] entries of history left *)
Record prompt (n : nat) (t : terminal) (l : list Z) : Prop := mk_prompt {
  pr_gb : rep (gb t) (l, []); pr_vt : idle (vt t); pr_hist : keeps n (hist t) }.

(** *** Executing *)

(** The words of a line that is neither empty nor a comment *)
Definition is_alias (buf : list Z) : bool :=
  match pg_strtrim buf with
  | [] => false
  | c :: p =>
      negb (c =? 35) &&
      match pg_strqtok (c :: p) (str " " ++ [13; 10]) CLI_MAX_ARGVS with
      | Some (name :: _) => bool_decide (is_Some (assoc name alias_table))
      | _ => false
      end
  end.

(** No alias stands for another. *)
Lemma alias_undef buf : is_alias buf = true → Console.cli_execute 1 buf = Undef.
Proof.
  unfold is_alias. cbn [Console.cli_execute]. destruct (pg_strtrim buf) as [|c p]; [done|].
  intros [->%negb_true_iff Hw]%andb_true_iff. destruct (_ || _); [done|].
  destruct (pg_strqtok (c :: p) _ _) as [[|name f]|]; [done| |done]. apply bool_decide_eq_true in Hw as [a Ea].
  cbn [defined_as mbind res_bind]. by rewrite Ea.
Qed.

Lemma alias_words buf : is_alias buf = true → ∃ name f a,
  pg_strqtok (pg_strtrim buf) (str " " ++ [13; 10]) CLI_MAX_ARGVS = Some (name :: f) ∧
  match pg_strtrim buf with [] => False | c :: _ => c ≠ 35 end ∧ assoc name alias_table = Some a.
Proof.
  unfold is_alias. intros Ha. destruct (pg_strtrim buf) as [|c p]; [done|].
  apply andb_true_iff in Ha as [Hc%negb_true_iff Ha]. destruct (pg_strqtok _ _ _) as [[|name f]|]; [done| |done].
  apply bool_decide_eq_true in Ha as [a Ea]. exists name, f, a. split; [done|]. split; [by apply Z.eqb_neq|done].
Qed.

(** The same but for editor, history and ports *)
Definition others (t t' : terminal) : Prop :=
  vt t' = vt t ∧ kill t' = kill t ∧ quit_flag t' = quit_flag t ∧ env t' = env t.

(** What executing a line comes to *)
Definition executed (n : nat) (t t' : terminal) (r : res (list step)) : Prop :=
  others t t' ∧ keeps n (hist t') ∧ (∃ z, rep (gb t') z) ∧
  match r with Ok ss => run_steps ss (con t) = Some (con t') | _ => con t' = con t end.
Definition defined_on (r : res (list step)) (c : console) : Prop :=
  match r with Ok ss => is_Some (run_steps ss c) | Refused => True | Undef => False end.

Lemma execute_command_spec n t argv f name :
  argv = name :: f → assoc name alias_table = None → keeps n (hist t) → (∃ z, rep (gb t) z) →
  let r := match assoc name command_table with Some f => f argv | None => if is_other name then Undef else Refused end in
  defined_on r (con t) → ∃ t', execute_command argv t = Runs t' ∧ executed n t t' r.
Proof.
  intros -> Ha Hk Hg r Hd. subst r. unfold execute_command in *.
  destruct (assoc name command_table) as [f'|].
  - destruct (f' (name :: f)) as [ss| |]; [|by eexists|done]. cbn [defined_on] in Hd.
    destruct Hd as [c' E]. rewrite E. cbn [or_beyond mbind out_bind]. by eexists.
  - destruct (is_other name); [done|]. by exists t.
Qed.

Lemma no_dollar p : existsb (λ d, d =? 36) p = false → Forall (λ c, c ≠ 36) p.
Proof.
  intros E. apply Forall_forall. intros c Hc ->. apply not_true_iff_false in E. apply E, existsb_exists.
  exists 36. split; [by apply list_elem_of_In|done].
Qed.

Lemma executed_still n t r : keeps n (hist t) → (∃ z, rep (gb t) z) →
  match r with Ok ss => run_steps ss (con t) = Some (con t) | _ => True end → executed n t t r.
Proof. intros Hk Hg Hr. split_and!; [done|done|done|by destruct r]. Qed.

(** Storing a line in the history changes nothing else. *)
Lemma executed_history n t h t' r : executed n (t <| hist := h |>) t' r → executed n t t' r.
Proof. done. Qed.

(** The parts of [Terminal.cli_execute] up to the words of the line *)
Lemma execute_words_of fuel n t l r buf name f :
  buf = l ++ r → rep (gb t) (l, r) → Forall printable buf → Z.of_nat (length buf) < CLI_MAX_PATH_LENGTH →
  keeps n (hist t) → (0 < n)%nat → Console.cli_execute (S fuel) buf ≠ Undef →
  pg_strqtok (pg_strtrim buf) (str " " ++ [13; 10]) CLI_MAX_ARGVS = Some (name :: f) →
  match pg_strtrim buf with [] => False | c :: _ => c ≠ 35 end →
  ∃ h, keeps n h ∧ (∃ ls, holds n (h <| curr_hist := 0 |>) (ls, None) ∧ ls ≠ []) ∧
    let t1 := t <| hist := h |> in
    Terminal.cli_execute (S fuel) t =
      match assoc name alias_table with
      | Some a => g ← put_alias name a buf (gb t);
                  t ← Terminal.cli_execute fuel (t1 <| gb := g |> <| hist ::= cli_history_del |>);
                  Runs (t <| hist ::= cli_history_reset |>)
      | None => execute_command (name :: f) t1
      end ∧
    Console.cli_execute (S fuel) buf =
      match assoc name alias_table with
      | Some a => Console.cli_execute fuel (a ++ drop (length name) buf)
      | None => match assoc name command_table with Some g => g (name :: f) | None => if is_other name then Undef else Refused end
      end.
Proof.
  intros -> Hr HF Hl Hk Hn Hu Hw Hc. cbn [Terminal.cli_execute Console.cli_execute] in *. cbn zeta.
  pose proof (data_size _ _ _ Hr) as Hd. set (buf := l ++ r) in *.
  replace (Z.max (gb_data_size (gb t)) CLI_MAX_PATH_LENGTH) with CLI_MAX_PATH_LENGTH by lia.
  rewrite (text_of _ l r) by (done || (fold buf; lia)). fold buf.
  pose proof (length_strtrim buf) as Hlen. pose proof (length_skip_while isspace buf) as Hlen'.
  destruct (pg_strtrim buf) as [|c p] eqn:Ep; [done|]. destruct (Z.eqb_spec c 35); [done|].
  destruct (Z.eqb_spec c 33); [done|]. destruct (Z.eqb_spec c 64); [done|]. cbn [orb] in Hu |- *.
  destruct (existsb (λ d, d =? 36) (c :: p)) eqn:E36; [done|].
  destruct (keeps_add n (hist t) (c :: p) Hk Hn) as (h & Eh & Hk' & Hls). exists h. split; [done|]. split; [done|].
  rewrite Eh. cbn [or_undefined mbind out_bind]. split.
  - rewrite substitution_plain; [|by apply no_dollar|cbn [length] in *; lia]. cbn [or_undefined mbind out_bind].
    rewrite Hw. cbn [or_undefined mbind out_bind]. done.
  - rewrite Hw. done.
Qed.

(** Nothing, or a comment *)
Lemma execute_nothing fuel t l r :
  rep (gb t) (l, r) → Forall printable (l ++ r) → Z.of_nat (length (l ++ r)) < CLI_MAX_PATH_LENGTH →
  match pg_strtrim (l ++ r) with [] => True | c :: _ => c = 35 end →
  Terminal.cli_execute (S fuel) t = Runs t ∧ Console.cli_execute (S fuel) (l ++ r) = Ok [].
Proof.
  intros Hr HF Hl Hp. cbn [Terminal.cli_execute Console.cli_execute]. cbn zeta.
  rewrite (text_of _ l r) by (done || lia). destruct (pg_strtrim (l ++ r)) as [|c p]; [done|]. by subst c.
Qed.

(** Without an entry nothing can be stored. *)
Lemma execute_without_history fuel t l r :
  rep (gb t) (l, r) → Forall printable (l ++ r) → Z.of_nat (length (l ++ r)) < CLI_MAX_PATH_LENGTH → keeps 0 (hist t) →
  match pg_strtrim (l ++ r) with [] => False | c :: _ => c ∉ [35; 33; 64] end →
  Terminal.cli_execute (S fuel) t = Undefined.
Proof.
  intros Hr HF Hl [ls Hk] Hc. cbn [Terminal.cli_execute]. cbn zeta.
  rewrite (text_of _ l r) by (done || lia). destruct (pg_strtrim (l ++ r)) as [|c p]; [done|].
  rewrite !not_elem_of_cons in Hc. destruct Hc as (H1 & H2 & H3 & _).
  destruct (Z.eqb_spec c 35); [done|]. destruct (Z.eqb_spec c 33); [done|]. destruct (Z.eqb_spec c 64); [done|].
  pose proof (add_nothing _ _ (c :: p) Hk) as Ha. rewrite curr_irrelevant in Ha.
  by destruct (cli_history_add (c :: p) (hist t)).
Qed.

(** The first word always is there. *)
Lemma strqtok_some delim argc : ∀ s st word, st ≠ INIT → strqtok delim (S argc) st word s ≠ Some [].
Proof.
  intros s. remember (length s) as n eqn:En. revert s En. induction (lt_wf n) as [n _ IH]. intros s -> st word Hst.
  destruct s as [|c s]; cbn [strqtok]; [by destruct st|]. destruct (c =? 92).
  - destruct s as [|d s]; [done|]. apply (IH (length s)); [cbn; lia|done|done].
  - destruct (ends delim st c); [by destruct (strqtok delim argc INIT [] s)|].
    destruct (goes_on delim st word c) as [st' w'] eqn:Eg. apply (IH (length s)); [cbn; lia|done|].
    destruct st; cbn in Eg; by simplify_eq.
Qed.

Lemma has_words fuel buf : Console.cli_execute (S fuel) buf ≠ Undef →
  (match pg_strtrim buf with [] => true | c :: _ => c =? 35 end) = false →
  ∃ name f, pg_strqtok (pg_strtrim buf) (str " " ++ [13; 10]) CLI_MAX_ARGVS = Some (name :: f) ∧
    match pg_strtrim buf with [] => False | c :: _ => c ≠ 35 end.
Proof.
  cbn [Console.cli_execute]. intros Hu E0. destruct (pg_strtrim buf) as [|c p]; [done|]. rewrite E0 in Hu.
  destruct (_ || _); [done|].
  pose proof (strqtok_some (str " " ++ [13; 10]) 63 (pg_strtrim (c :: p)) WORD [] ltac:(done)) as Hs.
  change (strqtok (str " " ++ [13; 10]) 64 WORD [] (pg_strtrim (c :: p)))
    with (pg_strqtok (c :: p) (str " " ++ [13; 10]) CLI_MAX_ARGVS) in Hs.
  destruct (pg_strqtok (c :: p) _ _) as [[|name f]|]; [done| |done]. exists name, f. split; [done|]. by apply Z.eqb_neq.
Qed.

(** A line that is no alias *)
Lemma execute_plain fuel n t l r buf :
  buf = l ++ r → rep (gb t) (l, r) → Forall printable buf → Z.of_nat (length buf) < CLI_MAX_PATH_LENGTH →
  keeps n (hist t) → (0 < n)%nat → is_alias buf = false → defined_on (Console.cli_execute (S fuel) buf) (con t) →
  ∃ t', Terminal.cli_execute (S fuel) t = Runs t' ∧ executed n t t' (Console.cli_execute (S fuel) buf).
Proof.
  intros Eb Hr HF Hl Hk Hn Ha Hd. assert (Console.cli_execute (S fuel) buf ≠ Undef) as Hu by (by intros E; rewrite E in Hd).
  destruct (match pg_strtrim buf with [] => true | c :: _ => c =? 35 end) eqn:E0.
  { subst buf. destruct (execute_nothing fuel t l r Hr HF Hl) as [E1 E2].
    - destruct (pg_strtrim (l ++ r)) as [|c p]; [done|by apply Z.eqb_eq].
    - exists t. rewrite E1, E2. split; [done|]. apply executed_still; [done|by eexists|done]. }
  destruct (has_words fuel buf Hu E0) as (name & f & Ew & Hc).
  destruct (execute_words_of fuel n t l r buf name f Eb Hr HF Hl Hk Hn Hu Ew Hc) as (h & Hk' & _ & E1 & E2).
  assert (assoc name alias_table = None) as Ea.
  { unfold is_alias in Ha. destruct (pg_strtrim buf) as [|c p]; [done|]. rewrite Ew in Ha.
    rewrite (proj2 (Z.eqb_neq c 35) Hc) in Ha. apply bool_decide_eq_false in Ha. by apply eq_None_not_Some. }
  rewrite Ea in E1, E2. cbn zeta in E1. rewrite E1.
  rewrite E2 in Hd |- *.
  set (t1 := t <| hist := h |>) in *.
  destruct (execute_command_spec n t1 (name :: f) f name eq_refl Ea Hk' ltac:(by eexists) Hd) as (t' & E & Hx).
  by exists t'.
Qed.

(** The text of an alias starts with a letter. *)
Definition alias_ok (a : list Z) : Prop :=
  match a with [] => False | c :: _ => 97 ≤ c ≤ 122 end ∧ Forall printable a ∧ (length a ≤ 40)%nat.
Lemma alias_text name a : assoc name alias_table = Some a → alias_ok a.
Proof.
  assert (Forall (λ x, alias_ok (snd x)) alias_table) as HF.
  { repeat constructor; cbn [snd]; by apply (bool_decide_unpack _); vm_compute. }
  induction HF as [|[m b] tb Hb HF IH]; [done|]. cbn [assoc]. destruct (pg_strmatch m name); [by intros [= <-]|exact IH].
Qed.

Lemma put_alias_spec name a g l r : rep g (l, r) → Forall printable (l ++ r) → Forall printable a →
  (length a ≤ 40)%nat → Z.of_nat (length (l ++ r)) < CLI_MAX_PATH_LENGTH →
  ∃ g', put_alias name a (l ++ r) g = Runs g' ∧ rep g' (a ++ drop (length name) (l ++ r), []).
Proof.
  intros Hr HF Ha Hal Hl. unfold put_alias. rewrite (data_size _ _ _ Hr). set (buf := l ++ r) in *.
  unfold CLI_MAX_SCRATCH_LENGTH, CLI_MAX_PATH_LENGTH in *.
  destruct (Z.ltb_spec 4096 (Z.of_nat (length buf))); [lia|]. rewrite andb_false_r. eexists. split; [reflexivity|].
  assert (rep (snd (gb_str_insert a (gb_reset_buf g))) (a, [])) as Hg.
  { apply (str_insert _ [] a); [by eapply wf_reset|done|unfold LIMIT; cbn; lia]. }
  destruct (Z.ltb_spec (Z.of_nat (length name)) (Z.of_nat (length buf))) as [Hlt|Hge]; cbn [length Z.of_nat].
  - destruct (Z.ltb_spec 0 (Z.of_nat (length buf) - Z.of_nat (length name))); [|lia].
    apply str_insert; [done|by apply Forall_drop|]. rewrite length_drop. unfold LIMIT. lia.
  - destruct (Z.ltb_spec 0 (Z.of_nat 0 - Z.of_nat (length name))); [lia|].
    rewrite (drop_ge buf) by lia. rewrite app_nil_r. exact Hg.
Qed.

(** A line takes an entry of the history if it is an alias. *)
Definition taken (buf : list Z) : nat := if is_alias buf then 1 else 0.

Lemma execute_line n t l r buf :
  buf = l ++ r → rep (gb t) (l, r) → Forall printable buf → Z.of_nat (length buf) ≤ MAX_LINE →
  keeps n (hist t) → (taken buf < n)%nat → defined_on (Console.cli_execute 2 buf) (con t) →
  ∃ t', Terminal.cli_execute 2 t = Runs t' ∧ executed (n - taken buf) t t' (Console.cli_execute 2 buf).
Proof.
  intros Eb Hr HF Hl Hk Hn Hd. unfold MAX_LINE in Hl. unfold taken in *. destruct (is_alias buf) eqn:Ha.
  2: { rewrite Nat.sub_0_r. eapply execute_plain; eauto. unfold CLI_MAX_PATH_LENGTH. lia. }
  assert (Console.cli_execute 2 buf ≠ Undef) as Hu by (by intros E; rewrite E in Hd).
  destruct (alias_words buf Ha) as (name & f & a & Ew & Hc & Ea).
  destruct (execute_words_of 1 n t l r buf name f Eb Hr HF ltac:(unfold CLI_MAX_PATH_LENGTH; lia) Hk ltac:(lia) Hu Ew Hc)
    as (h & Hk' & (ls & Hls & Hne) & E1 & E2). rewrite Ea in E1, E2. cbn zeta in E1. rewrite E1.
  destruct (alias_text name a Ea) as (Hac & Hap & Hal). subst buf.
  destruct (put_alias_spec name a (gb t) l r Hr HF Hap Hal ltac:(unfold CLI_MAX_PATH_LENGTH; lia)) as (g & -> & Hg).
  cbn [mbind out_bind]. rewrite E2 in Hd |- *. set (buf := l ++ r) in *.
  assert (is_alias (a ++ drop (length name) buf) = false) as Hna.
  { apply not_true_iff_false. intros E%alias_undef. by rewrite E in Hd. }
  destruct (execute_plain 0 (n - 1) (t <| hist := h |> <| gb := g |> <| hist ::= cli_history_del |>) (a ++ drop (length name) buf) []
    (a ++ drop (length name) buf)) as (t' & E & Hx).
  - by rewrite app_nil_r.
  - exact Hg.
  - apply Forall_app. split; [done|by apply Forall_drop].
  - rewrite length_app, length_drop. unfold CLI_MAX_PATH_LENGTH. lia.
  - replace (n - 1)%nat with (pred n) by lia. by eapply keeps_del.
  - lia.
  - done.
  - exact Hd.
  - rewrite E. cbn [mbind out_bind]. eexists. split; [reflexivity|]. exact Hx.
Qed.
(** *** Typing *)

Lemma cli_input_app s1 s2 t : cli_input (s1 ++ s2) t = (t ← cli_input s1 t; cli_input s2 t).
Proof.
  revert t. induction s1 as [|c s1 IH]; intros t; [done|]. cbn [app cli_input].
  destruct (input_char c t) as [t'| |]; [apply IH|done..].
Qed.

Lemma type_char n t l c : prompt n t l → printable c → Z.of_nat (length l) < MAX_LINE →
  ∃ t', input_char c t = Runs t' ∧ prompt n t' (l ++ [c]) ∧ con t' = con t.
Proof.
  intros [Hg Hv Hk] Hc Hl. destruct (parse_printable (vt t) c Hv Hc) as (v & E & Hv'). unfold input_char. rewrite E.
  eexists. split; [reflexivity|]. split; [|done]. split; [|exact Hv'|exact Hk].
  cbn [on_gb gb]. unfold handle_input_display. unfold printable in Hc.
  destruct (Z.leb_spec 32 c); [|lia]. destruct (Z.leb_spec c 126); [|lia].
  pose proof (insert_spec (gb t) l [] c Hg) as Hi. rewrite app_nil_r in Hi. unfold MAX_LINE, LIMIT in *.
  rewrite (wrap_small 8 c) in Hi by (unfold in_word; lia). apply Hi. lia.
Qed.

Lemma type_text n s : ∀ t l, prompt n t l → Forall printable s → Z.of_nat (length (l ++ s)) ≤ MAX_LINE →
  ∃ t', cli_input s t = Runs t' ∧ prompt n t' (l ++ s) ∧ con t' = con t.
Proof.
  induction s as [|c s IH]; intros t l Hp HF Hl; [exists t; by rewrite app_nil_r|].
  apply Forall_cons in HF as [Hc HF]. rewrite length_app in Hl. cbn [length] in Hl.
  destruct (type_char n t l c Hp Hc ltac:(lia)) as (t1 & E1 & Hp1 & Ec1).
  destruct (IH t1 (l ++ [c]) Hp1 HF) as (t2 & E2 & Hp2 & Ec2); [rewrite !length_app; cbn [length]; lia|].
  exists t2. cbn [cli_input]. rewrite E1. cbn [mbind out_bind]. rewrite <-app_assoc in Hp2. split_and!; [done|done|congruence].
Qed.

(** A line that is executed, or does nothing *)
Definition line_ok (buf : list Z) : Prop := Forall printable buf ∧ Z.of_nat (length buf) ≤ MAX_LINE.
#[global] Instance line_ok_dec buf : Decision (line_ok buf).
Proof. unfold line_ok. apply _. Defined.

Definition after_line (buf : list Z) (c : console) : console :=
  match run_line buf c with Ok c => c | _ => c end.

Lemma run_line_defined buf c : run_line buf c ≠ Undef → defined_on (Console.cli_execute 2 buf) c.
Proof.
  unfold run_line. destruct (Console.cli_execute 2 buf) as [ss| |]; cbn [mbind res_bind defined_on]; [|done..].
  by destruct (run_steps ss c); [eexists|].
Qed.

Lemma typed_line n t l buf : prompt n t l → line_ok (l ++ buf) → (taken (l ++ buf) < n)%nat →
  run_line (l ++ buf) (con t) ≠ Undef →
  ∃ t', cli_input (buf ++ [10]) t = Runs t' ∧ prompt (n - taken (l ++ buf)) t' [] ∧ con t' = after_line (l ++ buf) (con t).
Proof.
  intros Hp [HF Hl] Hn Hu. pose proof HF as [_ HF2]%Forall_app.
  destruct (type_text n buf t l Hp HF2 Hl) as (t1 & E1 & [Hg Hv Hk] & Ec). rewrite cli_input_app, E1. cbn [mbind out_bind cli_input].
  destruct (parse_return (vt t1) Hv) as (v & Ev & Hv'). unfold input_char. rewrite Ev. cbn [vt100_do_cmd]. unfold key_return.
  apply run_line_defined in Hu. rewrite <-Ec in Hu |- *.
  set (t2 := t1 <| vt := v |>).
  destruct (execute_line n t2 (l ++ buf) [] (l ++ buf)) as (t3 & E3 & (Ho & _) & Hk3 & [z Hg3] & Hr); try done; [by rewrite app_nil_r|].
  rewrite E3. cbn [mbind out_bind]. eexists. split; [reflexivity|]. split.
  - split; [by eapply wf_reset|cbn; rewrite Ho; exact Hv'|exact Hk3].
  - unfold after_line, run_line. cbn [con]. change (con t2) with (con t1) in Hr.
    destruct (Console.cli_execute 2 (l ++ buf)) as [ss| |]; cbn [mbind res_bind]; [by rewrite Hr|done..].
Qed.

(** *** Command files *)

Lemma fgets_split n s : fst (fgets n s) ++ snd (fgets n s) = s.
Proof.
  revert s. induction n as [|n IH]; intros [|c s]; try done. cbn [fgets]. destruct (Z.eqb_spec c 10); [by subst|].
  specialize (IH s). destruct (fgets n s) as [l s']. cbn in *. by rewrite IH.
Qed.
Lemma fgets_some n c s : fst (fgets (S n) (c :: s)) ≠ [].
Proof. cbn [fgets]. destruct (c =? 10); [done|]. by destruct (fgets n s). Qed.

(** The pieces in which the file is read do not matter. *)
Lemma feed_file_input fuel : ∀ s t, (length s ≤ fuel)%nat → Forall (λ c, c ≠ 0) s → feed_file fuel s t = cli_input s t.
Proof.
  induction fuel as [|fuel IH]; intros [|c s] t Hl HF; cbn [length] in Hl; [done|lia|done|]. cbn [feed_file].
  pose proof (fgets_split 255 (c :: s)) as Hs. pose proof (fgets_some 254 c s) as Hn.
  destruct (fgets 255 (c :: s)) as [l s']. cbn [fst snd] in *. rewrite <-Hs in HF |- *. apply Forall_app in HF as [H1 H2].
  rewrite cstr_no_zero, cli_input_app by done. destruct (cli_input l t) as [t'| |]; [|done..]. apply IH; [|done].
  apply (f_equal length) in Hs. rewrite length_app in Hs. destruct l; [done|]. cbn [length] in Hs. lia.
Qed.

(** The text of a file, one line after the other *)
Definition file_of (lines : list (list Z)) : list Z := concat ((λ l, l ++ [10]) <$> lines).

Lemma file_no_zero lines rest : Forall line_ok lines → line_ok rest → Forall (λ c, c ≠ 0) (file_of lines ++ rest).
Proof.
  assert (∀ l, Forall printable l → Forall (λ c, c ≠ 0) l) as Hp.
  { intros l Hl. eapply Forall_impl; [exact Hl|]. unfold printable. lia. }
  intros HF [Hr _]. apply Forall_app. split; [|by apply Hp]. unfold file_of.
  induction HF as [|l ls [Hl _] HF IH]; [constructor|]. cbn [fmap list_fmap concat]. apply Forall_app. split; [|exact IH].
  apply Forall_app. split; [by apply Hp|by repeat constructor].
Qed.

Lemma lines_input n lines : ∀ t c', prompt n t [] → Forall line_ok lines → (sum_list (taken <$> lines) < n)%nat →
  run_lines lines (con t) = Ok c' →
  ∃ t', cli_input (file_of lines) t = Runs t' ∧ prompt (n - sum_list (taken <$> lines)) t' [] ∧ con t' = c'.
Proof.
  revert n. induction lines as [|buf lines IH]; intros n t c' Hp HF Hn Hr.
  - injection Hr as <-. exists t. cbn [fmap list_fmap sum_list_with]. by rewrite Nat.sub_0_r.
  - apply Forall_cons in HF as [Hb HF]. cbn [fmap list_fmap] in *.
    change (sum_list (taken buf :: (taken <$> lines))) with (taken buf + sum_list (taken <$> lines))%nat in *.
    assert (run_line buf (con t) ≠ Undef) as Hu by (intros E; cbn [run_lines] in Hr; by rewrite E in Hr).
    destruct (typed_line n t [] buf Hp Hb ltac:(cbn [app]; lia) Hu) as (t1 & E1 & Hp1 & Ec1). cbn [app] in *.
    destruct (IH (n - taken buf)%nat t1 c' Hp1 HF) as (t2 & E2 & Hp2 & Ec2); [lia| |].
    { rewrite Ec1. cbn [run_lines] in Hr. unfold after_line. by destruct (run_line buf (con t)). }
    exists t2. unfold file_of in *. cbn [fmap list_fmap concat]. rewrite cli_input_app, E1. cbn [mbind out_bind].
    split; [done|]. split; [|done]. by replace (n - (taken buf + sum_list (taken <$> lines)))%nat
      with (n - taken buf - sum_list (taken <$> lines))%nat by lia.
Qed.

Lemma file_loads (n : nat) (t : terminal) (l : list Z) (lines : list (list Z)) (rest : list Z) (c' : console) :
  prompt n t l → Forall line_ok lines → line_ok rest → (sum_list (taken <$> lines) < n)%nat →
  run_lines lines (con t) = Ok c' →
  ∃ t', cli_execute_cmdfile (Some (file_of lines ++ rest)) t = Runs (0, t') ∧ con t' = c' ∧
    prompt (n - sum_list (taken <$> lines)) t' rest.
Proof.
  intros [Hg Hv Hk] HF Hrest Hn Hr. set (t0 := on_gb gb_reset_buf t).
  assert (prompt n t0 []) as Hp by (split; [by eapply wf_reset|done|done]).
  destruct (lines_input n lines t0 c' Hp HF Hn Hr) as (t1 & E1 & Hp1 & Ec1). destruct Hrest as [Hrp Hrl].
  destruct (type_text _ rest t1 [] Hp1 Hrp Hrl) as (t2 & E2 & Hp2 & Ec2).
  exists t2. unfold cli_execute_cmdfile. rewrite feed_file_input by (lia || by apply file_no_zero).
  fold t0. rewrite cli_input_app, E1. cbn [mbind out_bind]. rewrite E2. split_and!; [done|congruence|done].
Qed.

(** C13. A command file does what its lines do: when the file consists of lines of
    at most 2000 characters that can be printed, and the history has more entries
    than the file has aliases, then loading it succeeds and leaves the ports as
    executing the lines one after the other does, whatever was being typed and
    however the file is cut into pieces of 255 bytes.  Each alias has cost an
    entry of the history, and a last line without its end is not executed: it
    stays in the editor. *)
Theorem file_runs_lines (n : nat) (t : terminal) (l : list Z) (lines : list (list Z)) (rest : list Z) (c' : console) :
  prompt n t l → Forall line_ok lines → line_ok rest → (sum_list (taken <$> lines) < n)%nat →
  run_lines lines (con t) = Ok c' →
  ∃ t', cli_execute_cmdfile (Some (file_of lines ++ rest)) t = Runs (0, t') ∧ con t' = c' ∧
    prompt (n - sum_list (taken <$> lines)) t' rest.
Proof. apply file_loads. Qed.
(** *** Aliases use up the history *)

Lemma execute_exhausted t l r buf : buf = l ++ r → rep (gb t) (l, r) → line_ok buf → keeps 1 (hist t) →
  is_alias buf = true → Console.cli_execute 2 buf ≠ Undef → Terminal.cli_execute 2 t = Undefined.
Proof.
  intros Eb Hr [HF Hl] Hk Ha Hu. unfold MAX_LINE in Hl.
  destruct (alias_words buf Ha) as (name & f & a & Ew & Hc & Ea).
  destruct (execute_words_of 1 1 t l r buf name f Eb Hr HF ltac:(unfold CLI_MAX_PATH_LENGTH; lia) Hk ltac:(lia) Hu Ew Hc)
    as (h & Hk' & (ls & Hls & Hls') & E1 & _). rewrite Ea in E1. cbn zeta in E1. rewrite E1.
  destruct (alias_text name a Ea) as (Hac & Hap & Hal). subst buf.
  destruct (put_alias_spec name a (gb t) l r Hr HF Hap Hal ltac:(unfold CLI_MAX_PATH_LENGTH; lia)) as (g & -> & Hg).
  cbn [mbind out_bind]. set (buf := l ++ r) in *.
  rewrite (execute_without_history 0 _ (a ++ drop (length name) buf) []); [done|exact Hg|rewrite ?app_nil_r..].
  - apply Forall_app. split; [done|by apply Forall_drop].
  - rewrite length_app, length_drop. unfold CLI_MAX_PATH_LENGTH. lia.
  - by eapply (keeps_del 1).
  - destruct a as [|c a]; [done|]. cbn [app]. destruct (strtrim_first c (a ++ drop (length name) buf)) as [l' ->];
      [|rewrite !not_elem_of_cons; split_and!; [lia..|apply not_elem_of_nil]].
    unfold isspace. lia.
Qed.
(** C26. Each alias costs an entry of the history, and none is left after as many
    as there were: when the lines of a file in front of an alias have used all
    entries but one, executing this alias uses an entry that does not exist,
    whatever follows in the file.  The memory is then no longer what the program
    takes it for. *)
Theorem aliases_use_up_history (t : terminal) (l : list Z) (lines : list (list Z)) (buf rest : list Z) (c' : console) :
  prompt (S (sum_list (taken <$> lines))) t l → Forall line_ok lines → run_lines lines (con t) = Ok c' →
  line_ok buf → is_alias buf = true → Console.cli_execute 2 buf ≠ Undef → Forall (λ c, c ≠ 0) rest →
  cli_execute_cmdfile (Some (file_of (lines ++ [buf]) ++ rest)) t = Undefined.
Proof.
  intros [Hg Hv Hk] HF Hr Hb Ha Hu Hrest. set (n := sum_list (taken <$> lines)) in *. set (t0 := on_gb gb_reset_buf t).
  assert (prompt (S n) t0 []) as Hp by (split; [by eapply wf_reset|done|done]).
  destruct (lines_input (S n) lines t0 c' Hp HF ltac:(fold n; lia) Hr) as (t1 & E1 & Hp1 & _).
  fold n in Hp1. replace (S n - n)%nat with 1%nat in Hp1 by lia. pose proof Hb as [Hbp Hbl].
  destruct (type_text 1 buf t1 [] Hp1 Hbp Hbl) as (t2 & E2 & [Hg2 Hv2 Hk2] & _).
  unfold cli_execute_cmdfile, file_of. rewrite fmap_app, concat_app. cbn [fmap list_fmap concat]. rewrite app_nil_r.
  rewrite feed_file_input; [|lia|].
  - fold t0. unfold file_of in E1. rewrite <-!app_assoc, cli_input_app, E1. cbn [mbind out_bind]. rewrite cli_input_app, E2.
    cbn [mbind out_bind app cli_input]. destruct (parse_return (vt t2) Hv2) as (v & Ev & _). unfold input_char. rewrite Ev.
    cbn [vt100_do_cmd]. unfold key_return. set (t3 := t2 <| vt := v |>).
    by rewrite (execute_exhausted t3 buf [] buf) by (done || by rewrite app_nil_r).
  - apply Forall_app. split; [|done]. pose proof (file_no_zero (lines ++ [buf]) []) as Hz. unfold file_of in Hz.
    rewrite fmap_app, concat_app in Hz. cbn [fmap list_fmap concat] in Hz. rewrite !app_nil_r in Hz. apply Hz; [|done].
    apply Forall_app. split; [done|by constructor].
Qed.
End Env.

Lemma kill_at_end t l s : rep (gb t) (l, []) → kill t = Killed s →
  ∃ t', key_ctrl_k t = Runs t' ∧ vt t' = vt t ∧ kill t' = Freed.
Proof.
  intros Hg Hk. destruct (move_gap_spec (gb t) l [] Hg) as [Ha _]. unfold key_ctrl_k.
  rewrite Hk, (right_size _ _ _ Ha). by eexists.
Qed.

Lemma freed_undefined t : kill t = Freed → key_ctrl_k t = Undefined ∧ key_ctrl_y t = Undefined.
Proof. intros Hk. unfold key_ctrl_k, key_ctrl_y. by rewrite Hk. Qed.

(** Killed text is freed and used again: after Ctrl-K at the end of the text the
    text that was killed before is freed but still held, so that another Ctrl-K
    frees it once more and Ctrl-Y reads it. *)
Theorem killed_text_freed_twice `{Env} (t : terminal) (l s : list Z) (c : Z) :
  rep (gb t) (l, []) → idle (vt t) → kill t = Killed s → c = 11 ∨ c = 25 →
  cli_input [11; c] t = Undefined.
Proof.
  intros Hg Hv Hk Hc. assert (input_char 11 t = key_ctrl_k (t <| vt := vt100_setup |>)) as E by (unfold input_char; rewrite (parse_idle (vt t) 11 Hv); done).
  cbn [cli_input]. rewrite E.
  set (t1 := t <| vt := vt100_setup |>). change (vt t1) with vt100_setup in *.
  destruct (kill_at_end t1 l s Hg Hk) as (t2 & -> & Ev & Ek). cbn [mbind out_bind].
  unfold input_char. rewrite Ev. set (t3 := t2 <| vt := vt100_setup |>).
  assert (key_ctrl_k t3 = Undefined ∧ key_ctrl_y t3 = Undefined) as [E1 E2] by (by apply freed_undefined).
  destruct Hc as [-> | ->]; [change (key_ctrl_k t3 ≫= Runs = Undefined); by rewrite E1
    |change (key_ctrl_y t3 ≫= Runs = Undefined); by rewrite E2].
Qed.

(** ** Witnesses *)

(** A terminal on the ports of [lab], with [n] entries of history *)
Definition lab_terminal (n : Z) : terminal := mk_terminal (gb_create demo_mem) vt100_setup
  (snd (cli_set_history (Some 4096) n no_history)) No_kill false cli_env_create lab_console.

Lemma lab_prompt n : 0 < n → prompt (Z.to_nat n) (lab_terminal n) [].
Proof. intros Hn. split; [apply create_rep|exact I|]. exists [].
  destruct (set_history_holds 4096 n ltac:(lia) Hn) as [H1 H2 H3 H4 _]. by split. Qed.

Definition lab_file : list (list Z) := [str "# two aliases"; str "str"; str " set all count 5"; str "seq 0 all cos 1 tos 2"; str "nonsense"].

Lemma file_runs_lines_witness :
  ∃ t', @cli_execute_cmdfile lab (Some (file_of lab_file ++ str "stp")) (lab_terminal 4) = Runs (0, t') ∧
    prompt 2 t' (str "stp").
Proof.
  destruct (ok_value (@run_lines lab lab_file lab_console)) as [c E]; [vm_compute; reflexivity|].
  destruct (@file_runs_lines lab 4 (lab_terminal 4) [] lab_file (str "stp") c) as (t' & E' & _ & Hp).
  - by apply (lab_prompt 4).
  - by apply (bool_decide_unpack _); vm_compute.
  - by apply (bool_decide_unpack _); vm_compute.
  - vm_compute. lia.
  - exact E.
  - exists t'. split; [exact E'|]. replace 2%nat with (4 - sum_list (taken <$> lab_file))%nat by (vm_compute; reflexivity). exact Hp.
Defined.

Lemma aliases_use_up_history_witness :
  @cli_execute_cmdfile lab (Some (file_of ([str "str"; str "set 0 count 1"; str "stp"] ++ [str "str"]) ++ [])) (lab_terminal 3) = Undefined.
Proof.
  destruct (ok_value (@run_lines lab [str "str"; str "set 0 count 1"; str "stp"] lab_console)) as [c E]; [vm_compute; reflexivity|].
  apply (@aliases_use_up_history lab (lab_terminal 3) [] [str "str"; str "set 0 count 1"; str "stp"] (str "str") [] c).
  - change (S _) with (Z.to_nat 3). by apply (lab_prompt 3).
  - by apply (bool_decide_unpack _); vm_compute.
  - exact E.
  - by apply (bool_decide_unpack _); vm_compute.
  - vm_compute. reflexivity.
  - vm_compute. discriminate.
  - constructor.
Defined.

Lemma killed_text_freed_twice_witness :
  @cli_input lab [11; 25] (lab_terminal 1 <| kill := Killed [98] |>) = Undefined.
Proof.
  apply (@killed_text_freed_twice lab (lab_terminal 1 <| kill := Killed [98] |>) [] [98] 25);
    [apply create_rep|exact I|reflexivity|by right].
Defined.
