(* ===== verification/Save.v ===== *)
(** * Saving a configuration

    [pktgen_script_save] of [app/pktgen-cmds.c]: the state of the program written
    as lines of the console, port by port.  A file is the list of its lines; what
    [printf] makes of numbers is written out, apart from [%g], which is a parameter
    like the texts other code supplies (version, command line, link state). *)
From Stdlib Require Import Floats.SpecFloat Ascii String.
From S2P Require Import Prelude Mem PortInfo RandomBits Inet Strings PortList Commands CliMap Console.

(** ** Printing numbers *)

(** [%d] of an [int], of an [unsigned] and of an [uint64_t] with [%PRIu64] *)
Definition dec (n : Z) : list Z := if n <? 0 then 45 :: show (- n) else show n.
Definition dec_u (n : Z) : list Z := dec (swrap 32 n).
Definition dec_l (n : Z) : list Z := show (u64 n).

Fixpoint hex_digits (fuel : nat) (n : Z) : list Z :=
  match fuel with
  | O => []
  | S fuel => (if n <? 16 then [] else hex_digits fuel (n / 16)) ++ [hex_char (n `mod` 16)]
  end.
Definition hex (n : Z) : list Z := hex_digits 16 n.
(** A number in a field of a width, filled with blanks or zeros *)
Definition padded (c : Z) (width : nat) (s : list Z) : list Z := replicate (width - length s)%nat c ++ s.

Definition byte_at (a i : Z) : Z := (a / 2 ^ (8 * i)) `mod` 256.
Definition inet_ntop4 (ip_addr mask : Z) : list Z :=
  let byte i := show (byte_at ip_addr i) in
  let buff := byte 0 ++ 46 :: byte 1 ++ 46 :: byte 2 ++ 46 :: byte 3 in
  if mask =? 0xFFFFFFFF then buff else buff ++ 47 :: dec (Inet.mask_size mask).

(** The bytes of a MAC address; [inet_mtoa] prints them. *)
Definition mac_bytes (m : Z) : list Z := (λ i, byte_at m i) <$> [5; 4; 3; 2; 1; 0].
Definition mtoa (m : Z) : list Z := inet_mtoa (mac_bytes m).

Definition bitmask (s : bf_spec_t) : list Z :=
  (λ i, code (mask_char s i)) <$> seqZ 0 32.
Definition convert_bitfield (s : bf_spec_t) : list Z := bitmask s.

(** ** Texts from elsewhere *)
Class Texts := {
  fmt_g : spec_float → list Z;
  pktgen_version : list Z; copyright_msg : list Z; powered_by : list Z;
  argv0 : list Z; args : list (list Z);
  enabled : list Z;                     (* rte_lcore_is_enabled *)
  primary : bool;                       (* rte_eal_process_type *)
  nb_rxd : Z; nb_txd : Z; rows : Z; cols : Z;
  link_state : Z → list Z; filename : Z → list Z }.

(** Words of a line with single blanks between *)
Definition ln (ws : list (list Z)) : list Z := join 32 [] ws.

Definition able (on : bool) : list Z := if on then str "enable" else str "disable".
Definition on_off (flags f : Z) : list Z := able (tst_bits flags f).

Definition type_name (ethType : Z) (vlan other : list Z) : list Z :=
  if ethType =? PG_ETHER_TYPE_IPv4 then str "ipv4" else if ethType =? PG_ETHER_TYPE_IPv6 then str "ipv6"
  else if ethType =? PG_ETHER_TYPE_VLAN then vlan else other.
Definition proto_name (p : Z) : list Z :=
  if p =? PG_IPPROTO_TCP then str "tcp" else if p =? PG_IPPROTO_ICMP then str "icmp" else str "udp".
Definition range_proto_name (p : Z) : list Z :=
  if p =? PG_IPPROTO_UDP then str "udp" else if p =? PG_IPPROTO_ICMP then str "icmp" else str "tcp".
Definition pattern_name (t : fill_t) : list Z :=
  match t with
  | ABC_FILL_PATTERN => str "abc" | NO_FILL_PATTERN => str "none" | ZERO_FILL_PATTERN => str "zero"
  | USER_FILL_PATTERN => str "user"
  end.
Definition cstring (n : nat) (m : Z → Z) : list Z := fst (span (λ c, c =? 0) (m <$> seqZ 0 (Z.of_nat n))).

(** ** The part of a port: the lines that are not comments, in groups *)

Section Port.
Context `{Texts} (i : Z) (info : port_info_t).
#[local] Abbreviation w := str.
#[local] Abbreviation I := (dec i).
#[local] Abbreviation pkt := (Info.seq_pkt info SINGLE_PKT).
#[local] Abbreviation range := (Info.range info).
#[local] Abbreviation rate := (Info.rate info).
#[local] Abbreviation P := (dec (Info.pid info)).
#[local] Abbreviation flags := (Info.port_flags info).

Definition primary_lines : list (list Z) :=
  [ln [w "set"; P; w "count"; dec_l (Info.transmit_count info)];
   ln [w "set"; P; w "size"; dec (Pkt.pktSize pkt + PG_ETHER_CRC_LEN)];
   ln [w "set"; P; w "rate"; fmt_g (Info.tx_rate info)];
   ln [w "set"; P; w "burst"; dec (Info.tx_burst info)];
   ln [w "set"; P; w "sport"; dec (Pkt.sport pkt)];
   ln [w "set"; P; w "dport"; dec (Pkt.dport pkt)];
   ln [w "set"; P; w "prime"; dec (Info.prime_cnt info)];
   ln [w "set"; I; w "type"; type_name (Pkt.ethType pkt) (w "vlan")
         (if Pkt.ethType pkt =? PG_ETHER_TYPE_ARP then w "arp" else w "unknown")];
   ln [w "set"; I; w "proto"; proto_name (Pkt.ipProto pkt)];
   ln [w "set"; I; w "dst"; w "ip"; inet_ntop4 (ntohl (Pkt.ip_dst_addr pkt)) 0xFFFFFFFF];
   ln [w "set"; I; w "src"; w "ip"; inet_ntop4 (ntohl (Pkt.ip_src_addr pkt)) (Pkt.ip_mask pkt)];
   ln [w "set"; P; w "dst"; w "mac"; mtoa (Pkt.eth_dst_addr pkt)];
   ln [w "set"; P; w "src"; w "mac"; mtoa (Pkt.eth_src_addr pkt)];
   ln [w "set"; I; w "vlan"; dec (Pkt.vlanid pkt)]; [];
   ln [w "set"; I; w "pattern"; pattern_name (Info.fill_pattern_type info)]] ++
  (let user := cstring 16 (Info.user_pattern info) in
   match Info.fill_pattern_type info, user with
   | USER_FILL_PATTERN, _ :: _ => [ln [w "set"; I; w "user"; w "pattern"; user]]
   | _, _ => []
   end) ++
  [[];
   ln [w "set"; I; w "jitter"; dec_l (Info.jitter_threshold info)];
   ln [on_off flags SEND_MPLS_LABEL; I; w "mpls"];
   ln [w "range"; I; w "mpls"; w "entry"; w "0x" ++ hex (Pkt.mpls_entry pkt)];
   ln [on_off flags SEND_Q_IN_Q_IDS; I; w "qinq"];
   ln [w "set"; I; w "qinqids"; dec (Pkt.qinq_outerid pkt); dec (Pkt.qinq_innerid pkt)];
   ln [on_off flags SEND_GRE_IPv4_HEADER; I; w "gre"];
   ln [on_off flags SEND_GRE_ETHER_HEADER; I; w "gre_eth"];
   ln [on_off flags SEND_VXLAN_PACKETS; I; w "vxlan"];
   ln [w "set"; I; w "vxlan"; w "0x" ++ hex (Pkt.vni_flags pkt); dec (Pkt.group_id pkt);
       dec_u (Pkt.vxlan_id pkt)]].

Definition flag_lines : list (list Z) :=
  [ln [on_off flags ICMP_ECHO_ENABLE_FLAG; I; w "icmp"];
   ln [on_off flags SEND_PCAP_PKTS; I; w "pcap"];
   ln [on_off flags SEND_RANGE_PKTS; I; w "range"];
   ln [on_off flags SEND_LATENCY_PKTS; I; w "latency"];
   ln [on_off flags PROCESS_INPUT_PKTS; I; w "process"];
   ln [on_off flags CAPTURE_PKTS; I; w "capture"];
   ln [on_off flags PROCESS_RX_TAP_PKTS; I; w "rx_tap"];
   ln [on_off flags PROCESS_TX_TAP_PKTS; I; w "tx_tap"];
   ln [on_off flags SEND_VLAN_ID; I; w "vlan"];
   ln [on_off flags SEND_RATE_PACKETS; I; w "rate"]; []].

(** Four lines of one setting: start, min, max and inc *)
Definition four_lines (name : list (list Z)) (start min max inc : list Z) : list (list Z) :=
  [ln (w "range" :: I :: name ++ [w "start"; start]); ln (w "range" :: I :: name ++ [w "min"; min]);
   ln (w "range" :: I :: name ++ [w "max"; max]); ln (w "range" :: I :: name ++ [w "inc"; inc])].
Definition ip4 (a : Z) : list Z := inet_ntop4 (ntohl a) 0xFFFFFFFF.

Definition range_lines : list (list Z) :=
  four_lines [w "src"; w "mac"] (mtoa (Rng.src_mac range)) (mtoa (Rng.src_mac_min range))
    (mtoa (Rng.src_mac_max range)) (mtoa (Rng.src_mac_inc range)) ++ [] ::
  four_lines [w "dst"; w "mac"] (mtoa (Rng.dst_mac range)) (mtoa (Rng.dst_mac_min range))
    (mtoa (Rng.dst_mac_max range)) (mtoa (Rng.dst_mac_inc range)) ++ [] ::
  four_lines [w "src"; w "ip"] (ip4 (Rng.src_ip range)) (ip4 (Rng.src_ip_min range))
    (ip4 (Rng.src_ip_max range)) (ip4 (Rng.src_ip_inc range)) ++ [] ::
  four_lines [w "dst"; w "ip"] (ip4 (Rng.dst_ip range)) (ip4 (Rng.dst_ip_min range))
    (ip4 (Rng.dst_ip_max range)) (ip4 (Rng.dst_ip_inc range)) ++ [] ::
  ln [w "range"; I; w "proto"; range_proto_name (Rng.ip_proto range)] :: [] ::
  four_lines [w "src"; w "port"] (dec (Rng.src_port range)) (dec (Rng.src_port_min range))
    (dec (Rng.src_port_max range)) (dec (Rng.src_port_inc range)) ++ [] ::
  four_lines [w "dst"; w "port"] (dec (Rng.dst_port range)) (dec (Rng.dst_port_min range))
    (dec (Rng.dst_port_max range)) (dec (Rng.dst_port_inc range)) ++ [] ::
  four_lines [w "ttl"] (dec (Rng.ttl range)) (dec (Rng.ttl_min range))
    (dec (Rng.ttl_max range)) (dec (Rng.ttl_inc range)) ++ [] ::
  four_lines [w "vlan"] (dec (Rng.vlan_id range)) (dec (Rng.vlan_id_min range))
    (dec (Rng.vlan_id_max range)) (dec (Rng.vlan_id_inc range)) ++ [] ::
  four_lines [w "cos"] (dec (Rng.cos range)) (dec (Rng.cos_min range))
    (dec (Rng.cos_max range)) (dec (Rng.cos_inc range)) ++ [] ::
  four_lines [w "tos"] (dec (Rng.tos range)) (dec (Rng.tos_min range))
    (dec (Rng.tos_max range)) (dec (Rng.tos_inc range)) ++
  ln [w "range"; I; w "gre"; w "key"; dec_u (Pkt.gre_key pkt)] :: [] ::
  four_lines [w "size"] (dec (Rng.pkt_size range + PG_ETHER_CRC_LEN)) (dec (Rng.pkt_size_min range + PG_ETHER_CRC_LEN))
    (dec (Rng.pkt_size_max range + PG_ETHER_CRC_LEN)) (dec (Rng.pkt_size_inc range)) ++ [[]].

Definition rate_lines : list (list Z) :=
  [ln [w "rate"; I; w "fps"; dec (Rate.fps rate)];
   ln [w "rate"; I; w "lines"; dec (Rate.vlines rate)];
   ln [w "rate"; I; w "pixels"; dec (Rate.pixels rate)];
   ln [w "rate"; I; w "color"; w "bits"; dec (Rate.color_bits rate)];
   ln [w "rate"; I; w "payload"; w "size"; dec (Rate.payload rate)]; [];
   ln [w "rate"; I; w "overhead"; dec (Rate.overhead rate)]].

Definition seq_line (j : Z) : list Z :=
  let p := Info.seq_pkt info j in
  ln [w "seq"; dec j; I; mtoa (Pkt.eth_dst_addr p); mtoa (Pkt.eth_src_addr p);
      inet_ntop4 (htonl (Pkt.ip_dst_addr p)) 0xFFFFFFFF; inet_ntop4 (htonl (Pkt.ip_src_addr p)) (Pkt.ip_mask p);
      dec (Pkt.sport p); dec (Pkt.dport p); type_name (Pkt.ethType p) (w "vlan") (w "Other");
      proto_name (Pkt.ipProto p); dec (Pkt.vlanid p); dec (Pkt.pktSize p + PG_ETHER_CRC_LEN); dec_u (Pkt.gtpu_teid p)].
Definition seq_lines : list (list Z) :=
  ln [w "set"; P; w "seq_cnt"; dec (Info.seqCnt info)] :: (seq_line <$> seqZ 0 (Info.seqCnt info)).

(** A port without a burst size is left out, as one that is not set up. *)
Definition pcap_comment : list (list Z) :=
  match Info.pcap info with
  | Some p =>
      [w "#"; w "# PCAP port " ++ I; w "#    Packet count: " ++ dec_u (Pcap.pkt_count p);
       w "#    Filename    : " ++ filename i]
  | None => []
  end.

Definition rnd_lines (rnd : rnd_bits_t) : list (list Z) :=
  if active_specs rnd =? 0 then []
  else [[]; w "-- Rnd bitfeilds"] ++
    omap (λ j, bf ← specs rnd !! Z.to_nat j;
               if Z.land (active_specs rnd) (u32 (Z.shiftl 1 j)) =? 0 then None
               else Some (ln [w "set"; I; w "rnd"; dec j; dec (RandomBits.offset bf); convert_bitfield bf]))
         (seqZ 0 MAX_RND_BITFIELDS) ++ [[]].

Definition port_comment : list (list Z) :=
  let buff := if Info.transmit_count info =? 0 then w "Forever" else dec_l (Info.transmit_count info) in
  [w "######################### Port " ++ padded 32 2 I ++ w " ##################################"; w "#";
   w "# Port: " ++ padded 32 2 P ++ w ", Burst:" ++ padded 32 3 (dec (Info.tx_burst info)) ++ w ", Rate:" ++
     fmt_g (Info.tx_rate info) ++ w "%, Flags:" ++ padded 48 8 (hex flags) ++ w ", TX Count:" ++ buff;
   w "#           Sequence count:" ++ dec (Info.seqCnt info) ++ w ", Prime:" ++ dec (Info.prime_cnt info) ++
     w " VLAN ID:" ++ padded 48 4 (hex (Info.vlanid info)) ++ w ", Link: " ++ link_state (Info.pid info);
   w "#"; w "# Set up the primary port information:"].

Definition port_lines (rnd : rnd_bits_t) : list (list Z) :=
  port_comment ++ primary_lines ++
  [w "#"; w "# Port flag values:"] ++ flag_lines ++
  [w "#"; w "# Range packet information:"] ++ range_lines ++
  [w "#"; w "# Set up the rate data for the port."] ++ rate_lines ++
  [w "#"; w "# Set up the sequence data for the port."] ++ seq_lines ++
  pcap_comment ++ [[]] ++ rnd_lines rnd.
End Port.

(** ** The file *)

Definition ENABLE_GUI_FLAG := Z.shiftl 1 5.
Definition hash_line : list Z := replicate 71 35.

(** [lcore |= (1 << i)]: shifting into the sign of an [int], or further, is not
    defined. *)
Fixpoint lcore_mask (cores : list Z) : option Z :=
  match cores with
  | [] => Some 0
  | i :: cores => m ← lcore_mask cores; if i <? 31 then Some (Z.lor (Z.shiftl 1 i) m) else None
  end.

Definition script_header `{Texts} (c : console) (lcore : Z) : list (list Z) :=
  let g := globals c in
  [str "#"; str "# " ++ pktgen_version; str "# " ++ copyright_msg ++ str ", " ++ powered_by; [];
   str "# Command line arguments: (DPDK args are defaults)";
   str "# " ++ argv0 ++ str " -c " ++ hex lcore ++ str " -n 3 -m 512 --proc-type " ++
     (if primary then str "primary" else str "secondary") ++ str " -- " ++ mjoin ((λ a, a ++ [32]) <$> args);
   []; hash_line; str "# Pktgen Configuration script information:";
   str "#   GUI socket is " ++ (if tst_bits (Pg.flags g) ENABLE_GUI_FLAG then str "Enabled" else str "Not Enabled");
   str "#   Flags " ++ padded 48 8 (hex (Pg.flags g));
   str "#   Number of ports: " ++ dec (Pg.nb_ports g);
   str "#   Number ports per page: " ++ dec (Pg.nb_ports_per_page g);
   str "#   Number descriptors: RX " ++ dec nb_rxd ++ str " TX: " ++ dec nb_txd;
   str "#   Promiscuous mode is " ++ (if tst_bits (Pg.flags g) PROMISCUOUS_ON_FLAG then str "Enabled" else str "Disabled");
   []; []; str "# Global configuration:";
   str "geometry " ++ dec cols ++ str "x" ++ dec rows;
   ln [on_off (Pg.flags g) MAC_FROM_ARP_FLAG; str "mac_from_arp"]; []].

(** The lines of all ports; [info->seq_pkt] of a port that is not set up is
    [NULL], and so is its burst size. *)
Definition ports_lines `{Texts} (c : console) : list (list Z) :=
  flat_map (λ i, match ports c i with
                 | Some info => if Info.tx_burst info =? 0 then [] else port_lines i info (rnd c i)
                 | None => []
                 end) (seqZ 0 (Pg.nb_ports (globals c))).

(** [fopen] may fail. *)
Definition pktgen_script_save `{Texts} (opened : bool) (c : console) : option (option (list (list Z))) :=
  if negb opened then Some None
  else
    lcore ← lcore_mask enabled;
    Some (Some (script_header c lcore ++ ports_lines c ++
                [str "################################ Done #################################"])).
