(* ===== verification/Log.v ===== *)
(** * The log

    [app/pktgen-log.c]: the history of messages with what is printed of each, the
    file and the page, and the text of a packet dump of [app/pktgen-dump.c].  The
    time of day as text is a parameter, since it depends on where the program
    runs; so is whether a file can be opened. *)
From Stdlib Require Import Ascii String.
From S2P Require Import Prelude Mem PortInfo Strings PortList CliMap Save.

Definition LOG_LEVEL_ALL := 0.
Definition LOG_LEVEL_TRACE := 1.
Definition LOG_LEVEL_DEBUG := 2.
Definition LOG_LEVEL_INFO := 3.
Definition LOG_LEVEL_WARNING := 4.
Definition LOG_LEVEL_ERROR := 5.
Definition LOG_LEVEL_PANIC := 6.
Definition LOG_HISTORY := 64.
Definition LOG_MAX_LINE := 1024.
Definition MAX_PAGE_LINES := 28.

Module Msg.
Record log_msg_t := mk { tv_sec : Z; tv_usec : Z; level : Z; file : list Z; line : Z; func : list Z; msg : list Z }.
End Msg.
Abbreviation log_msg_t := Msg.log_msg_t.

(** [written] is what the log file has got, [stdout] what the screen has; no slot
    has a message at first. *)
Record log_t := mk_log {
  msgs : Z → option log_msg_t; head : Z; tail : Z; need_refresh : bool;
  log_file : option (list (list Z)); log_level_screen : Z; stdout : list (list Z) }.
#[global] Instance eta_log : Eta log_t := λ l,
  mk_log (msgs l) (head l) (tail l) (need_refresh l) (log_file l) (log_level_screen l) (stdout l).

Definition pktgen_init_log (l : log_t) : log_t :=
  l <| msgs := λ _, None |> <| head := 0 |> <| tail := 0 |> <| need_refresh := false |>.
Definition pktgen_log_set_screen_level (level : Z) (l : log_t) : log_t := l <| log_level_screen := level |>.

(** [snprintf] into [n] bytes *)
Definition fits (n : Z) (s : list Z) : list Z := take (Z.to_nat (n - 1)) s.
Definition pad_to (width : nat) (s : list Z) : list Z := s ++ replicate (width - length s)%nat 32.

(** [basename] *)
Definition slash (c : Z) : bool := c =? 47.
Definition basename (path : list Z) : list Z :=
  match path with
  | [] => str "."
  | _ =>
      match skip_while slash (rev path) with
      | [] => str "/"
      | p => rev (fst (span slash p))
      end
  end.

Section Format.
(** [strftime] of [localtime], as time and as date with time *)
Context (time_text date_text : Z → list Z).

Definition level_letter (level : Z) : list Z :=
  str (if level =? LOG_LEVEL_TRACE then "t" else if level =? LOG_LEVEL_DEBUG then "d" else if level =? LOG_LEVEL_INFO then "I"
       else if level =? LOG_LEVEL_WARNING then "W" else if level =? LOG_LEVEL_ERROR then "E"
       else if level =? LOG_LEVEL_PANIC then "P" else "?").
Definition level_letters (level : Z) : list Z :=
  str (if level =? LOG_LEVEL_TRACE then "tt" else if level =? LOG_LEVEL_DEBUG then "dd" else if level =? LOG_LEVEL_INFO then "II"
       else if level =? LOG_LEVEL_WARNING then "WW" else if level =? LOG_LEVEL_ERROR then "EE"
       else if level =? LOG_LEVEL_PANIC then "PP" else "??").
Definition level_label (level : Z) : list Z :=
  str (if level <=? LOG_LEVEL_INFO then "" else if level =? LOG_LEVEL_WARNING then "WARNING: "
       else if level =? LOG_LEVEL_ERROR then "!ERROR!: " else if level =? LOG_LEVEL_PANIC then "!PANIC!: " else "??? ").

(** The name of a function in 32 bytes.  A long one gets a mark of three bytes and
    its characters from [length - 34] on, as many as fit; for 32 and 33
    characters this is in front of the name, which is not defined. *)
Definition short_func (func : list Z) : option (list Z) :=
  let n := Z.of_nat (length func) in
  if 32 - 1 <? n then
    if n - 32 - 2 <? 0 then None
    else Some (fits 32 ([0xE2; 0x80; 0xA6] ++ drop (Z.to_nat (n - 32 - 2)) func))
  else Some func.

Definition pktgen_format_msg_page (m : log_msg_t) : option (list Z) :=
  func ← short_func (Msg.func m);
  Some (fits LOG_MAX_LINE (level_letter (Msg.level m) ++ [32] ++ padded 32 8 (fits 9 (time_text (Msg.tv_sec m))) ++ [32] ++
                           pad_to 32 func ++ [32] ++ Msg.msg m)).
Definition pktgen_format_msg_file (m : log_msg_t) : list Z :=
  fits LOG_MAX_LINE (level_letters (Msg.level m) ++ [32] ++ fits 32 (date_text (Msg.tv_sec m)) ++ [46] ++
    padded 48 3 (dec (Msg.tv_usec m / 1000)) ++ [32; 91] ++ basename (Msg.file m) ++ [58] ++ dec (Msg.line m) ++ [40] ++ Msg.func m ++
    [41; 93; 32] ++ Msg.msg m).
Definition pktgen_format_msg_stdout (m : log_msg_t) : list Z :=
  fits LOG_MAX_LINE (level_label (Msg.level m) ++ Msg.msg m).

(** [text] is what the format gives. *)
Definition pktgen_log (sec usec level : Z) (file : list Z) (line : Z) (func text : list Z) (l : log_t) : log_t :=
  let m := Msg.mk sec usec level file line func (fits LOG_MAX_LINE text) in
  let l := l <| msgs ::= set_at (head l) (Some m) |> in
  let l := l <| head := (head l + 1) `mod` LOG_HISTORY |> in
  let l := if head l =? tail l then l <| tail := (tail l + 1) `mod` LOG_HISTORY |> else l in
  let l := match log_file l with
           | None => l
           | Some f => l <| log_file := Some (f ++ [pktgen_format_msg_file m]) |>
           end in
  let l := if log_level_screen l <=? level then l <| stdout ::= λ s, s ++ [pktgen_format_msg_stdout m] |> else l in
  l <| need_refresh := true |>.

(** [opened]: [fopen] gives a file, which is empty then.  The warning has the time
    [sec], [usec] and is logged from this file. *)
Definition pktgen_log_set_file (sec usec : Z) (here : list Z) (opened : bool) (filename : option (list Z)) (l : log_t) : log_t :=
  let l := l <| log_file := None |> in
  match filename with
  | None => l
  | Some f =>
      let l := if opened then l
               else pktgen_log sec usec LOG_LEVEL_WARNING here 145 (str "pktgen_log_set_file")
                      (str "Unable to open log file '" ++ f ++ str "' for writing") l in
      l <| log_file := if opened then Some [] else None |>
  end.

(** ** The page *)

Definition newlines (s : list Z) : Z := Z.of_nat (length (List.filter (λ c, c =? 10) s)).

(** Backwards from [curr_msg]: the lines, newest first *)
Fixpoint collect (fuel : nat) (l : log_t) (curr_msg output_lines : Z) : option (list (list Z)) :=
  match fuel with
  | O => None
  | S fuel =>
      if negb (curr_msg =? tail l) && (output_lines <? MAX_PAGE_LINES) then
        let curr_msg := (curr_msg + LOG_HISTORY - 1) `mod` LOG_HISTORY in
        m ← msgs l curr_msg;
        s ← pktgen_format_msg_page m;
        ls ← collect fuel l curr_msg (output_lines + newlines s + 1);
        Some (s :: ls)
      else Some []
  end.

(** Each line at its row *)
Fixpoint place (row : Z) (lines : list (list Z)) : list (Z * list Z) :=
  match lines with [] => [] | s :: ls => (row, s) :: place (row + 1 + newlines s) ls end.

(** What is drawn, unless nothing is new *)
Definition pktgen_page_log (print_labels : bool) (l : log_t) : option (option (list (Z * list Z)) * log_t) :=
  if negb print_labels && negb (need_refresh l) then Some (None, l)
  else
    ls ← collect (Z.to_nat LOG_HISTORY) l (head l) 0;
    Some (Some (place 3 (rev ls)), l <| need_refresh := false |>).
End Format.

(** ** The text of a packet dump *)

Definition hex6 (n : Z) : list Z := padded 48 6 (hex n).
Definition isprint (c : Z) : bool := (32 <=? c) && (c <=? 126).
Definition dump_cells (cell : Z → list Z) (bytes : list Z) : list Z :=
  mjoin ((λ j, (match bytes !! Z.to_nat j with Some b => cell b | None => str "   " end) ++
               (if (j + 1) `mod` 8 =? 0 then [32] else [])) <$> seqZ 0 16).
Definition dump_line (i : Z) (bytes : list Z) : list Z :=
  [10; 9] ++ hex6 i ++ str ": " ++ dump_cells (λ b, hex2 b ++ [32]) bytes ++ [9] ++
  ((λ b, if isprint b then b else 46) <$> take 16 bytes).
Fixpoint dump_lines (n : nat) (i : Z) (bytes : list Z) : list Z :=
  match n, bytes with
  | O, _ | _, [] => []
  | S n, _ => dump_line i (take 16 bytes) ++ dump_lines n (i + 16) (drop 16 bytes)
  end.
(** [strncatf] never writes past the 4096 bytes of [buff]. *)
Definition dump_text (pid : Z) (data : list Z) : list Z :=
  fits 4096 (str "Port " ++ dec pid ++ str ", packet with length " ++ dec (Z.of_nat (length data)) ++ [58] ++
             dump_lines (length data) 0 data).

(** ** The log as a list *)

(** [n] steps backwards from slot [k], the oldest first *)
Fixpoint run (l : log_t) (n : nat) (k : Z) : list (option log_msg_t) :=
  match n with O => [] | S n => run l n ((k + LOG_HISTORY - 1) `mod` LOG_HISTORY) ++ [msgs l ((k + LOG_HISTORY - 1) `mod` LOG_HISTORY)] end.

(** The log holds the messages [ms], at most 63 of them. *)
Record holds (ms : list log_msg_t) (l : log_t) : Prop := {
  hd_length : (length ms < 64)%nat;
  hd_head : 0 ≤ head l < LOG_HISTORY;
  hd_tail : tail l = (head l - Z.of_nat (length ms)) `mod` LOG_HISTORY;
  hd_msgs i m : ms !! i = Some m → msgs l ((head l - Z.of_nat (length ms) + Z.of_nat i) `mod` LOG_HISTORY) = Some m }.

(** The last [n] elements *)
Definition lastn {A} (n : nat) (l : list A) : list A := drop (length l - n) l.
Lemma lastn_short {A} n (l : list A) : (length l ≤ n)%nat → lastn n l = l.
Proof. intros Hn. unfold lastn. by replace (length l - n)%nat with 0%nat by lia. Qed.
Lemma lastn_length {A} n (l : list A) : length (lastn n l) = Nat.min n (length l).
Proof. unfold lastn. rewrite length_drop. lia. Qed.
Lemma lastn_snoc {A} n (l : list A) x : lastn (S n) (lastn (S n) l ++ [x]) = lastn (S n) (l ++ [x]).
Proof.
  unfold lastn. rewrite !length_app, length_drop. cbn [length].
  destruct (decide (length l ≤ S n)%nat).
  - replace (length l - S n)%nat with 0%nat by lia. rewrite drop_0. f_equal. lia.
  - rewrite !drop_app, drop_drop, length_drop. f_equal; f_equal; lia.
Qed.

Lemma init_holds l : holds [] (pktgen_init_log l).
Proof. split; cbn; [lia|done|done|]. intros i m. by rewrite lookup_nil. Qed.

Lemma mod64 a b : 0 < a - b < 64 → a `mod` 64 ≠ b `mod` 64.
Proof.
  intros Hab E. pose proof (Z.div_mod a 64 ltac:(lia)). pose proof (Z.div_mod b 64 ltac:(lia)). lia.
Qed.

(** Adding a message to the array *)
Lemma log_holds ms m l l' : holds ms l → msgs l' = set_at (head l) (Some m) (msgs l) →
  head l' = (head l + 1) `mod` LOG_HISTORY →
  tail l' = (if head l' =? tail l then (tail l + 1) `mod` LOG_HISTORY else tail l) →
  holds (lastn 63 (ms ++ [m])) l'.
Proof.
  intros [H1 H2 H3 H4] Em Eh Et. unfold LOG_HISTORY in *. set (n := Z.of_nat (length ms)) in *.
  assert (∀ i x, (ms ++ [m]) !! i = Some x → (length ms = 63%nat → (0 < i)%nat) →
    msgs l' ((head l + 1 - (n + 1) + Z.of_nat i) `mod` 64) = Some x) as Hm.
  { intros i x Hi Hi0. rewrite Em. unfold set_at.
    destruct (decide (i < length ms)%nat) as [Hl|Hl].
    - rewrite lookup_app_l in Hi by done. replace (head l + 1 - (n + 1) + Z.of_nat i) with (head l - n + Z.of_nat i) by lia.
      destruct (Z.eqb_spec ((head l - n + Z.of_nat i) `mod` 64) (head l)) as [E|]; [|by apply H4].
      exfalso. rewrite <-(Z.mod_small (head l) 64) in E at 2 by done. symmetry in E. revert E. apply mod64. lia.
    - apply lookup_lt_Some in Hi as Hlt. rewrite length_app in Hlt. cbn [length] in Hlt.
      assert (i = length ms) as -> by lia. rewrite lookup_app_r, Nat.sub_diag in Hi by done. injection Hi as <-.
      replace (head l + 1 - (n + 1) + Z.of_nat (length ms)) with (head l) by lia. rewrite Z.mod_small by done. by rewrite Z.eqb_refl. }
  rewrite Eh, H3 in Et.
  assert (length (lastn 63 (ms ++ [m])) = Nat.min 63 (S (length ms))) as Hl by (rewrite lastn_length, length_app; cbn [length]; lia).
  split; unfold LOG_HISTORY; rewrite ?Hl.
  - lia.
  - rewrite Eh. apply Z.mod_pos_bound. lia.
  - rewrite Et, Eh, Zminus_mod_idemp_l. destruct (decide (length ms = 63%nat)) as [E|Hne].
    + assert ((head l + 1) `mod` 64 = (head l - n) `mod` 64) as E1
        by (replace (head l + 1) with (head l - n + 1 * 64) by lia; by rewrite Z.mod_add).
      rewrite E1, Z.eqb_refl, Zplus_mod_idemp_l. f_equal. lia.
    + destruct (Z.eqb_spec ((head l + 1) `mod` 64) ((head l - n) `mod` 64)) as [E|_]; [|f_equal; lia].
      exfalso. revert E. apply mod64. lia.
  - intros i x Hi. rewrite Eh. rewrite <-Zplus_mod_idemp_l, Zminus_mod_idemp_l, Zplus_mod_idemp_l.
    unfold lastn in Hi. rewrite lookup_drop, length_app in Hi. cbn [length] in Hi.
    rewrite <-(Hm _ _ Hi ltac:(lia)). do 2 f_equal. lia.
Qed.

(** ** What the page shows *)

(** The newest lines, as many as begin within the page *)
Fixpoint pick (output_lines : Z) (ls : list (list Z)) : list (list Z) :=
  match ls with
  | [] => []
  | s :: ls => if output_lines <? MAX_PAGE_LINES then s :: pick (output_lines + newlines s + 1) ls else []
  end.

Section Shown.
Context (time_text date_text : Z → list Z).
Abbreviation format := (pktgen_format_msg_page time_text).

Lemma collect_spec ms l : holds ms l → ∀ p q ss fuel out, ms = p ++ q → Forall2 (λ m s, format m = Some s) p ss →
  (length p < fuel)%nat →
  collect time_text fuel l ((head l - Z.of_nat (length q)) `mod` LOG_HISTORY) out = Some (pick out (rev ss)).
Proof.
  intros [H1 H2 H3 H4] p. induction p as [|m p IH] using rev_ind; intros q ss fuel out E Hf Hfu.
  - apply Forall2_nil_inv_l in Hf as ->. destruct fuel as [|fuel]; [cbn in Hfu; lia|]. cbn [collect].
    rewrite H3, E. cbn [app]. by rewrite Z.eqb_refl.
  - apply Forall2_app_inv_l in Hf as (ss1 & ss2 & Hf1 & Hf2 & ->). apply Forall2_cons_inv_l in Hf2 as (s & ss3 & Hs & Hn & ->).
    apply Forall2_nil_inv_l in Hn as ->. rewrite rev_app_distr. cbn [rev app pick].
    destruct fuel as [|fuel]; [lia|]. cbn [collect]. rewrite length_app in Hfu. cbn [length] in Hfu.
    assert (length ms = length p + 1 + length q)%nat as El by (rewrite E, !length_app; cbn [length]; lia).
    assert (((head l - Z.of_nat (length q)) `mod` LOG_HISTORY =? tail l) = false) as ->.
    { apply Z.eqb_neq. rewrite H3. unfold LOG_HISTORY. apply mod64. lia. }
    cbn [negb andb]. destruct (out <? MAX_PAGE_LINES); [|done].
    assert (((head l - Z.of_nat (length q)) `mod` LOG_HISTORY + LOG_HISTORY - 1) `mod` LOG_HISTORY =
            (head l - Z.of_nat (length (m :: q))) `mod` LOG_HISTORY) as Ec.
    { unfold LOG_HISTORY. replace ((head l - Z.of_nat (length q)) `mod` 64 + 64 - 1) with ((head l - Z.of_nat (length q)) `mod` 64 + 63) by lia.
      rewrite Zplus_mod_idemp_l. cbn [length].
      replace (head l - Z.of_nat (length q) + 63) with (head l - Z.of_nat (S (length q)) + 1 * 64) by lia. by rewrite Z.mod_add. }
    cbn zeta. rewrite Ec.
    assert (msgs l ((head l - Z.of_nat (length (m :: q))) `mod` LOG_HISTORY) = Some m) as ->.
    { rewrite <-(H4 (length p) m); [do 2 f_equal; cbn [length]; lia|].
      rewrite E, <-app_assoc, lookup_app_r, Nat.sub_diag by lia. done. }
    cbn [mbind option_bind]. rewrite Hs. cbn [mbind option_bind].
    rewrite (IH (m :: q) ss1 fuel); [done|by rewrite E, <-app_assoc|done|lia].
Qed.

(** A call of [pktgen_log] *)
Record entry := mk_entry { e_sec : Z; e_usec : Z; e_level : Z; e_file : list Z; e_line : Z; e_func : list Z; e_text : list Z }.
Definition message (e : entry) : log_msg_t :=
  Msg.mk (e_sec e) (e_usec e) (e_level e) (e_file e) (e_line e) (e_func e) (fits LOG_MAX_LINE (e_text e)).
Definition log_entry (l : log_t) (e : entry) : log_t :=
  pktgen_log date_text (e_sec e) (e_usec e) (e_level e) (e_file e) (e_line e) (e_func e) (e_text e) l.

Record logged (all : list log_msg_t) (l0 l : log_t) : Prop := {
  lg_holds : holds (lastn 63 all) l;
  lg_file : log_file l = (λ f, f ++ (pktgen_format_msg_file date_text <$> all)) <$> log_file l0;
  lg_level : log_level_screen l = log_level_screen l0;
  lg_stdout : stdout l = stdout l0 ++ (pktgen_format_msg_stdout <$> filter (λ m, log_level_screen l0 ≤ Msg.level m) all);
  lg_refresh : all ≠ [] → need_refresh l = true }.

Lemma log_fields e l : let l' := log_entry l e in
  msgs l' = set_at (head l) (Some (message e)) (msgs l) ∧ head l' = (head l + 1) `mod` LOG_HISTORY ∧
  tail l' = (if head l' =? tail l then (tail l + 1) `mod` LOG_HISTORY else tail l) ∧
  log_file l' = (λ f, f ++ [pktgen_format_msg_file date_text (message e)]) <$> log_file l ∧
  log_level_screen l' = log_level_screen l ∧
  stdout l' = stdout l ++ (if log_level_screen l <=? e_level e then [pktgen_format_msg_stdout (message e)] else []) ∧
  need_refresh l' = true.
Proof.
  destruct l as [ms hd tl nr lf sc so]. unfold log_entry, pktgen_log. cbn zeta. fold (message e). unfold upd at 2.
  set (h := (head _ + 1) `mod` LOG_HISTORY). set (t' := (tail _ + 1) `mod` LOG_HISTORY).
  change ((head (mk_log ms hd tl nr lf sc so) + 1) `mod` LOG_HISTORY) with h.
  change ((tail (mk_log ms hd tl nr lf sc so) + 1) `mod` LOG_HISTORY) with t'. clearbody h t'. cbn.
  destruct (h =? tl) eqn:E; cbn; destruct lf as [f|]; cbn; destruct (sc <=? e_level e); cbn; rewrite ?app_nil_r, ?E; done.
Qed.
Lemma log_logged e all l0 l : logged all l0 l → logged (all ++ [message e]) l0 (log_entry l e).
Proof.
  intros [H1 H2 H3 H4 _]. destruct (log_fields e l) as (E1 & E2 & E3 & E4 & E5 & E6 & E7). split.
  - rewrite <-(lastn_snoc 62). by eapply log_holds.
  - rewrite E4, H2. destruct (log_file l0); [|done]. cbn. by rewrite fmap_app, app_assoc.
  - congruence.
  - rewrite E6, H4, H3, filter_app, fmap_app, app_assoc. f_equal. destruct (Z.leb_spec (log_level_screen l0) (e_level e)).
    + by rewrite filter_cons_True.
    + by rewrite filter_cons_False by (cbn; lia).
  - done.
Qed.
Lemma logs_logged es l0 : logged (message <$> es) (pktgen_init_log l0) (foldl log_entry (pktgen_init_log l0) es).
Proof.
  induction es as [|e es IH] using rev_ind.
  - split; [apply init_holds|destruct l0 as [???? [f|]]; [|done]; change (Some f = Some (f ++ [])); by rewrite app_nil_r|done|by rewrite app_nil_r|done].
  - rewrite foldl_app, fmap_app. by apply log_logged.
Qed.

(** C25. The log is the list of the last 63 messages.  However many messages were
    logged, the page shows the newest of them, in the order in which they were
    logged and each below the one before it, as many as begin within its 28
    lines; showing it again shows nothing until there is a new one.  The file has
    all messages since it was opened, and the screen those of its level. *)
Theorem log_page (es : list entry) (l0 : log_t) (ss : list (list Z)) :
  Forall2 (λ m s, format m = Some s) (lastn 63 (message <$> es)) ss →
  let l := foldl log_entry (pktgen_init_log l0) es in let l' := l <| need_refresh := false |> in
  pktgen_page_log time_text true l = Some (Some (place 3 (rev (pick 0 (rev ss)))), l') ∧
  pktgen_page_log time_text false l' = Some (None, l') ∧
  log_file l = (λ f, f ++ (pktgen_format_msg_file date_text ∘ message <$> es)) <$> log_file l0 ∧
  stdout l = stdout l0 ++ (pktgen_format_msg_stdout ∘ message <$> filter (λ e, log_level_screen l0 ≤ e_level e) es).
Proof.
  intros Hf l l'. pose proof (logs_logged es l0) as [H1 H2 _ H4 _]. fold l in H1, H2, H4.
  assert (holds (lastn 63 (message <$> es)) l) as Hh by exact H1.
  pose proof (collect_spec _ l Hh (lastn 63 (message <$> es)) [] ss (Z.to_nat LOG_HISTORY) 0 ltac:(by rewrite app_nil_r) Hf) as Hc.
  rewrite lastn_length in Hc. cbn [length] in Hc. rewrite Z.sub_0_r, Z.mod_small in Hc by apply Hh.
  split_and!.
  - unfold pktgen_page_log. cbn [negb andb]. rewrite Hc by (unfold LOG_HISTORY; lia). done.
  - done.
  - rewrite H2. change (log_file (pktgen_init_log l0)) with (log_file l0). by rewrite list_fmap_compose.
  - rewrite H4. change (stdout (pktgen_init_log l0)) with (stdout l0).
    change (log_level_screen (pktgen_init_log l0)) with (log_level_screen l0). f_equal. rewrite list_fmap_compose.
    f_equal. clear. induction es as [|e es IH]; [done|]. cbn [fmap list_fmap]. rewrite !filter_cons, IH. cbn. by destruct (decide _).
Qed.
End Shown.

(** ** Three messages, two of them on the page *)

Definition noon (_ : Z) : list Z := str "12:00:00".
Definition demo_log : log_t := mk_log (λ _, None) 0 0 false (Some []) LOG_LEVEL_WARNING [].
Definition demo_entries : list entry :=
  [mk_entry 0 0 LOG_LEVEL_INFO (str "app/a.c") 7 (str "main") (str "first");
   mk_entry 0 5000 LOG_LEVEL_ERROR (str "app/b.c") 8 (str "other") (str "second")].
Definition demo_lines : list (list Z) :=
  (λ e, default [] (pktgen_format_msg_page noon (message e))) <$> demo_entries.

Lemma log_page_witness : let l := foldl (log_entry noon) (pktgen_init_log demo_log) demo_entries in
  pktgen_page_log noon true l = Some (Some (place 3 demo_lines), l <| need_refresh := false |>) ∧
  log_file l = Some [str "II 12:00:00.000 [a.c:7(main)] first"; str "EE 12:00:00.005 [b.c:8(other)] second"] ∧
  stdout l = [str "!ERROR!: second"].
Proof.
  destruct (log_page noon noon demo_entries demo_log demo_lines) as (P1 & _ & P3 & P4).
  - constructor; [vm_compute; reflexivity|]. constructor; [vm_compute; reflexivity|]. constructor.
  - split_and!; [exact P1|exact P3|exact P4].
Defined.

(** The end of the name of a function is cut, not its beginning. *)
Example short_names :
  (short_func (str "a_function_whose_name_is_longer_than_32"),
   short_func (str "a_name_of_as_many_as_32_letters_")) =
  (Some ([0xE2; 0x80; 0xA6] ++ str "ction_whose_name_is_longer_t"), None).
Proof. vm_compute. reflexivity. Qed.

(** Of a packet of 1000 bytes, a log message has 13 lines of 16, the last cut. *)
Example dump_cut :
  length (dump_text 0 (replicate 1000 65)) = 4095%nat ∧
  newlines (fits LOG_MAX_LINE (dump_text 0 (replicate 1000 65))) = 13.
Proof. vm_compute. by split. Qed.
