(* ===== verification/SaveWords.v ===== *)
(** * The words of a saved configuration

    Numbers, addresses and names as they are printed are words that the console's
    formats accept, and read as the values they were printed from; and each form of
    line has its entry in the tables of the console. *)
From Stdlib Require Import Floats.SpecFloat Ascii String.
From S2P Require Import Prelude Mem Inet PortInfo RandomBits Headers Pacing Commands Session Capture.
From S2P Require Import Strings PortList CliMap CliFacts Console ConsoleFacts Lines Save.

(** ** Words *)

Definition word_char (c : Z) : bool := (33 <=? c) && (c <=? 126) && negb (mem_chr c [34; 36; 39; 92; 123]).
Definition wordy (w : list Z) : Prop := w ≠ [] ∧ Forall (λ c, word_char c = true) w.

Lemma word_char_facts c : word_char c = true → plain_char c ∧ c ≠ 36 ∧ not_in [34; 39; 123] c.
Proof.
  unfold word_char. rewrite !andb_true_iff, negb_true_iff, !Z.leb_le. intros [[H1 H2] H3].
  unfold mem_chr in H3. cbn [existsb] in H3. rewrite !orb_false_iff, !Z.eqb_neq in H3.
  unfold plain_char, isspace, not_in. rewrite !elem_of_cons, orb_false_iff, andb_false_iff, Z.eqb_neq, !Z.leb_gt.
  split_and!; try lia. intros [?|[?|[?|[]%not_elem_of_nil]]]; lia.
Qed.

Lemma wordy_plain w : wordy w → Forall plain_char w ∧ spaced ([32], (Plain, w)).
Proof.
  intros [Hne Hw]. assert (Forall plain_char w) as Hp
    by (eapply Forall_impl; [exact Hw|]; intros c Hc; by apply word_char_facts).
  split; [exact Hp|]. split_and!; [by repeat constructor|done|]. split; [exact Hp|].
  destruct w as [|c w]; [done|]. exists c. split; [done|]. inversion Hw; subst. by apply word_char_facts.
Qed.

Definition gaps (args : list (list Z)) : list (list Z * word) := (λ a, ([32], (Plain, a))) <$> args.

Lemma ln_words name args : ln (name :: args) = name ++ rest_of_line (gaps args).
Proof.
  revert name. induction args as [|a args IH]; intros name.
  - unfold ln, rest_of_line. cbn. by rewrite app_nil_r.
  - change (ln (name :: a :: args)) with (name ++ 32 :: ln (a :: args)). by rewrite IH.
Qed.

Lemma gaps_spaced args : Forall wordy args → Forall spaced (gaps args).
Proof. intros H. apply Forall_fmap. eapply Forall_impl; [exact H|]. intros w Hw. by apply wordy_plain. Qed.

Lemma words_gaps args : words (gaps args) = args.
Proof. unfold words, gaps. rewrite <-list_fmap_compose. by rewrite list_fmap_id. Qed.

Lemma ln_chars (P : Z → Prop) ws : P 32 → Forall (Forall P) ws → Forall P (ln ws).
Proof. intros H Hw. apply join_forall; [done|constructor|done]. Qed.

Section Env.
Context `{Env}.

(** A line of words is executed by the handler of its first word, or that of the
    word its first word stands for. *)
Definition starts_line (name : list Z) : Prop := match name with c :: _ => not_in [35; 33; 64] c | [] => False end.

Lemma scan_ln n name args :
  wordy name → Forall wordy args → (length args < 64)%nat → starts_line name →
  cli_execute (S n) (ln (name :: args)) =
    match assoc name alias_table with
    | Some a => cli_execute n (a ++ drop (length name) (ln (name :: args)))
    | None =>
        match assoc name command_table with
        | Some f => f (name :: args)
        | None => if is_other name then Undef else Refused
        end
    end.
Proof.
  intros Hn Ha Hlen Hc. rewrite ln_words.
  destruct (wordy_plain name Hn) as [Hp _]. pose proof (gaps_spaced args Ha) as Hs.
  pose proof (strtrim_solid [] _ [] ltac:(constructor) ltac:(constructor) (line_solid name (gaps args) (proj1 Hn) Hp Hs)) as Et.
  rewrite app_nil_r in Et. cbn [app] in Et.
  pose proof (scan_words n [] (name ++ rest_of_line (gaps args)) [] name args) as E.
  rewrite app_nil_r in E. cbn [app] in E. apply E; [exact Et| | |].
  - rewrite <-ln_words. apply ln_chars; [done|]. constructor.
    + eapply Forall_impl; [apply Hn|]. intros c Hc'. by apply word_char_facts.
    + eapply Forall_impl; [exact Ha|]. intros w [_ Hw]. eapply Forall_impl; [exact Hw|]. intros c Hc'.
      by apply word_char_facts.
  - destruct name as [|c name]; [done|]. by exists c, (name ++ rest_of_line (gaps args)).
  - unfold pg_strqtok. rewrite Et, strqtok_words by done. rewrite words_gaps. unfold CLI_MAX_ARGVS.
    rewrite take_ge; [done|]. cbn [length]. lia.
Qed.

Lemma execute_ln n name args f :
  wordy name → Forall wordy args → (length args < 64)%nat → starts_line name →
  assoc name alias_table = None → assoc name command_table = Some f →
  cli_execute (S n) (ln (name :: args)) = f (name :: args).
Proof. intros Hn Ha Hlen Hc Eal Ef. by rewrite scan_ln, Eal, Ef by done. Qed.

(** [seq] stands for [sequence]. *)
Lemma execute_seq n args : Forall wordy args → (length args < 64)%nat →
  cli_execute (S (S n)) (ln (str "seq" :: args)) = seq_cmd (str "sequence" :: args).
Proof.
  intros Ha Hlen.
  assert (∀ s, wordy (str s) → starts_line (str s) →
    ∀ k, cli_execute (S k) (ln (str s :: args)) = _) as Hscan
    by (intros s Hw Hs k; exact (scan_ln k (str s) args Hw Ha Hlen Hs)).
  rewrite (Hscan "seq"%string) by (by apply wordy_chars || by apply (bool_decide_unpack _)).
  change (assoc (str "seq") alias_table) with (Some (str "sequence")). cbv iota.
  assert (str "sequence" ++ drop (length (str "seq")) (ln (str "seq" :: args)) = ln (str "sequence" :: args)) as ->.
  { rewrite !ln_words. by rewrite drop_app_length. }
  rewrite (Hscan "sequence"%string) by (by apply wordy_chars || by apply (bool_decide_unpack _)). done.
Qed.
End Env.

(** *** The words that are written *)

Lemma wordy_chars w : w ≠ [] → forallb word_char w = true → wordy w.
Proof. intros Hne Hf. split; [done|]. apply Forall_forall. intros c Hc. rewrite forallb_forall in Hf. by apply Hf, list_elem_of_In. Qed.

Lemma wordy_app a b : wordy a → Forall (λ c, word_char c = true) b → wordy (a ++ b).
Proof. intros [Hne Ha] Hb. split; [by destruct a|]. by apply Forall_app. Qed.
Lemma wordy_app' a b : Forall (λ c, word_char c = true) a → wordy b → wordy (a ++ b).
Proof. intros Ha [Hne Hb]. split; [by destruct a|]. by apply Forall_app. Qed.

Lemma digit_word c : digit_char c → word_char c = true.
Proof.
  intros Hc. unfold digit_char in Hc. unfold word_char. rewrite !andb_true_iff, negb_true_iff, !Z.leb_le.
  split; [lia|]. unfold mem_chr. cbn [existsb]. rewrite !orb_false_iff, !Z.eqb_neq. lia.
Qed.
Lemma hex_word d : 0 ≤ d < 16 → word_char (hex_char d) = true.
Proof.
  intros Hd. pose proof (hex_char_range d Hd). unfold word_char. rewrite !andb_true_iff, negb_true_iff, !Z.leb_le.
  split; [lia|]. unfold mem_chr. cbn [existsb]. rewrite !orb_false_iff, !Z.eqb_neq. lia.
Qed.

Lemma show_wordy n : 0 ≤ n → wordy (show n).
Proof.
  intros Hn. split; [by destruct (show_cons n Hn) as (c & l & -> & _)|].
  eapply Forall_impl; [by apply show_chars|]. exact digit_word.
Qed.

(** Words with a digit fit the formats for numbers, ports, addresses and strings. *)
Definition digit_first (w : list Z) : Prop := ∃ c t, w = c :: t ∧ digit_char c.

Lemma digit_first_app w t : digit_first w → digit_first (w ++ t).
Proof. intros (c & l & -> & Hc). by exists c, (l ++ t). Qed.
Lemma show_digit_first n : 0 ≤ n → digit_first (show n).
Proof. intros Hn. apply show_cons, Hn. Qed.

Lemma digit_first_help w : digit_first w → is_help [w] = false.
Proof.
  intros (c & l & -> & Hc). unfold digit_char in Hc. unfold is_help. cbn [last].
  change (str "-?") with [45; 63]. change (str "?") with [63]. cbn [pg_strmatch].
  assert ((63 =? c) = false ∧ (45 =? c) = false) as [-> ->] by (rewrite !Z.eqb_neq; lia). done.
Qed.

Lemma digit_first_valid w f : digit_first w → mem_chr f (str "bdDn46hHmsPC") = true →
  is_map_valid [37; f] w = Some true.
Proof.
  intros (c & l & -> & Hc) Hf. unfold digit_char in Hc.
  assert (isdigit c = true) as Hd by (unfold isdigit; rewrite andb_true_iff, !Z.leb_le; lia).
  assert (isprint c = true) as Hp by (unfold isprint; rewrite andb_true_iff, !Z.leb_le; lia).
  unfold mem_chr in Hf. apply existsb_exists in Hf as (x & Hx & ->%Z.eqb_eq).
  change (str "bdDn46hHmsPC") with [98; 100; 68; 110; 52; 54; 104; 72; 109; 115; 80; 67] in Hx.
  cbn in Hx. unfold is_map_valid. unfold any_char, isxdigit. cbn [existsb].
  repeat destruct Hx as [<-|Hx]; try done; cbn; rewrite ?Hd, ?Hp; done.
Qed.

Lemma digit_port w : digit_first w → port_word w.
Proof. intros Hw. split; [by apply digit_first_valid|by apply digit_first_help]. Qed.
Lemma digit_number w : digit_first w → number_word w.
Proof. intros Hw. split; [by apply digit_first_valid|by apply digit_first_help]. Qed.
Lemma digit_address w : digit_first w → address_word w.
Proof. intros Hw. split; [by apply digit_first_valid|by apply digit_first_help]. Qed.

(** ** Values: what is printed is what is read *)

Lemma dec_show n : 0 ≤ n → dec n = show n.
Proof. intros Hn. unfold dec. by destruct (Z.ltb_spec n 0); [lia|]. Qed.

Lemma strtol_of_show n : 0 ≤ n < 2 ^ 64 → strtol 10 (show n) = Z.min (2 ^ 63 - 1) n.
Proof.
  intros Hn. unfold strtol. rewrite <-(app_nil_r (show n)), number_show by done. lia.
Qed.
Lemma atoi_show n : 0 ≤ n < 2 ^ 31 → atoi (show n) = n.
Proof. intros Hn. unfold atoi. rewrite strtol_of_show by lia. rewrite swrap_small; lia. Qed.
Lemma atoi_w_show w n : 0 ≤ n < 2 ^ 31 → in_word w n → atoi_w w (show n) = n.
Proof. intros Hn Hw. unfold atoi_w. rewrite atoi_show by done. by apply wrap_small. Qed.
Lemma strtoul10_show n : 0 ≤ n < 2 ^ 64 → fst (fst (strtoul 10 (show n))) = n.
Proof. intros Hn. rewrite <-(app_nil_r (show n)). by rewrite strtoul_show. Qed.

(** [strtol(s, NULL, 0)] takes a number without leading zeros for a decimal one. *)
Lemma dec_first f n : 0 < n < 10 ^ Z.of_nat f → ∃ c l, dec_digits f n = c :: l ∧ 49 ≤ c ≤ 57.
Proof.
  revert n. induction f as [|f IH]; intros n Hn; [change (10 ^ Z.of_nat 0) with 1 in Hn; lia|].
  rewrite Nat2Z.inj_succ, Z.pow_succ_r in Hn by lia. cbn [dec_digits].
  destruct (Z.ltb_spec n 10).
  - rewrite Z.mod_small by lia. eexists _, _. split; [reflexivity|]. lia.
  - destruct (IH (n / 10)) as (c & l & -> & Hc).
    { split; [apply Z.div_str_pos; lia|apply Z.div_lt_upper_bound; lia]. }
    by eexists c, _.
Qed.

Lemma base_show n : 0 ≤ n < 2 ^ 64 → base_of (show n) = 10.
Proof.
  intros Hn. destruct (decide (n = 0)) as [->|Hne]; [done|].
  destruct (dec_first 20 n) as (c & l & E & Hc).
  { change (10 ^ Z.of_nat 20) with 100000000000000000000. lia. }
  unfold base_of, show. rewrite E. cbn [skip_while]. rewrite digit_not_space by (unfold digit_char; lia).
  destruct (Z.eqb_spec c 45); [lia|]. destruct (Z.eqb_spec c 43); [lia|]. cbn [orb].
  destruct l as [|x l]; [done|]. by destruct (Z.eqb_spec c 48); [lia|].
Qed.
Lemma strtol0_show n : 0 ≤ n < 2 ^ 63 → strtol0 (show n) = n.
Proof. intros Hn. unfold strtol0. rewrite base_show, strtol_of_show by lia. lia. Qed.
Lemma strtoul0_show n : 0 ≤ n < 2 ^ 64 → strtoul0 (show n) = n.
Proof. intros Hn. unfold strtoul0. rewrite base_show by lia. by apply strtoul10_show. Qed.

(** Hexadecimal numbers behind [0x] *)
Lemma hex_digits_spec f n v :
  0 ≤ n < 16 ^ Z.of_nat f → ∃ k, digits 16 v (hex_digits f n) = (v * 16 ^ k + n, []) ∧ 0 ≤ k.
Proof.
  assert (∀ f n v rest, 0 ≤ n < 16 ^ Z.of_nat f →
    ∃ k, digits 16 v (hex_digits f n ++ rest) = digits 16 (v * 16 ^ k + n) rest ∧ 0 ≤ k) as Hd.
  { clear. induction f as [|f IH]; intros n v rest Hn.
    { change (16 ^ Z.of_nat 0) with 1 in Hn. exists 0. cbn [hex_digits app]. split; [f_equal; lia|lia]. }
    rewrite Nat2Z.inj_succ, Z.pow_succ_r in Hn by lia. cbn [hex_digits].
    pose proof (Z.mod_pos_bound n 16 ltac:(lia)) as Hm. pose proof (Z.div_mod n 16).
    rewrite <-app_assoc. destruct (Z.ltb_spec n 16).
    - exists 1. split; [|lia]. cbn [app digits]. rewrite digit_val_hex by done. f_equal. rewrite Z.mod_small; lia.
    - destruct (IH (n / 16) v ([hex_char (n `mod` 16)] ++ rest)) as (k & -> & Hk).
      { split; [apply Z.div_pos; lia|apply Z.div_lt_upper_bound; lia]. }
      exists (k + 1). split; [|lia]. cbn [app digits]. rewrite digit_val_hex by done.
      f_equal. rewrite Z.pow_add_r by lia. change (16 ^ 1) with 16. lia. }
  intros Hn. destruct (Hd f n v [] Hn) as (k & E & Hk). rewrite app_nil_r in E. by exists k.
Qed.

Lemma hex_chars n : 0 ≤ n → Forall (λ c, ∃ d, 0 ≤ d < 16 ∧ c = hex_char d) (hex n).
Proof.
  unfold hex. generalize 16%nat as f. intros f. revert n. induction f as [|f IH]; intros n Hn; [constructor|].
  cbn [hex_digits]. apply Forall_app. split.
  - destruct (n <? 16); [constructor|]. apply IH, Z.div_pos; lia.
  - apply Forall_singleton. exists (n `mod` 16). split; [apply Z.mod_pos_bound; lia|done].
Qed.
Lemma hex_cons n : 0 ≤ n → ∃ d l, hex n = hex_char d :: l ∧ 0 ≤ d < 16.
Proof.
  intros Hn. pose proof (hex_chars n Hn) as Hf. destruct (hex n) as [|c l] eqn:E.
  - apply (f_equal length) in E. unfold hex in E. cbn [hex_digits] in E. rewrite length_app in E. cbn in E. lia.
  - inversion Hf as [|? ? (d & Hd & ->) _]; subst. by exists d, l.
Qed.

Definition hex_word_of (n : Z) : list Z := str "0x" ++ hex n.

Lemma number_hex n : 0 ≤ n < 2 ^ 64 → number 16 (hex_word_of n) = Some (false, n, []).
Proof.
  intros Hn. destruct (hex_cons n) as (d & l & E & Hd); [lia|].
  destruct (hex_digits_spec 16 n 0) as (k & Ed & Hk).
  { change (16 ^ Z.of_nat 16) with (2 ^ 64). lia. }
  fold (hex n) in Ed. unfold hex_word_of. rewrite E in *. change (str "0x") with [48; 120].
  unfold number. cbn -[digit_val digits hex_char]. rewrite digit_val_hex by done. cbn -[digit_val digits hex_char].
  by rewrite digit_val_hex, Ed by done.
Qed.
Lemma strtoul16_hex n : 0 ≤ n < 2 ^ 64 → fst (fst (strtoul 16 (hex_word_of n))) = n.
Proof. intros Hn. unfold strtoul. rewrite number_hex by done. by destruct (Z.leb_spec (2 ^ 64) n); [lia|]. Qed.
Lemma base_hex n : base_of (hex_word_of n) = 16.
Proof. done. Qed.
Lemma strtol0_hex n : 0 ≤ n < 2 ^ 63 → strtol0 (hex_word_of n) = n.
Proof. intros Hn. unfold strtol0, strtol. rewrite base_hex, number_hex by lia. lia. Qed.

(** MAC addresses *)
Lemma byte_at_range a i : 0 ≤ byte_at a i < 256.
Proof. apply Z.mod_pos_bound. lia. Qed.
Lemma mac_bytes_ok m : Forall (λ b, 0 ≤ b < 256) (mac_bytes m).
Proof. apply Forall_fmap, Forall_forall. intros i _. by apply byte_at_range. Qed.
Lemma aton_mtoa m : pg_ether_aton (mtoa m) = Some (mac_bytes m).
Proof. apply mac_text_roundtrip; [done|apply mac_bytes_ok]. Qed.

Lemma bytes_value (x n : Z) : 0 ≤ n → x `mod` 2 ^ (8 * (n + 1)) = byte_at x n * 2 ^ (8 * n) + x `mod` 2 ^ (8 * n).
Proof.
  unfold byte_at. intros Hn. replace (8 * (n + 1)) with (8 * n + 8) by lia. rewrite Z.pow_add_r by lia.
  change (2 ^ 8) with 256. rewrite Z.rem_mul_r by lia.
  rewrite Z.mul_comm. lia.
Qed.

Lemma mac_of_bytes m : 0 ≤ m < 2 ^ 48 → mac_of (mac_bytes m) = m.
Proof.
  intros Hm. rewrite <-(Z.mod_small m (2 ^ 48)) at 2 by done.
  unfold mac_of, mac_bytes. cbn [fmap list_fmap fold_left].
  pose proof (bytes_value m 5 ltac:(lia)) as E5. pose proof (bytes_value m 4 ltac:(lia)) as E4.
  pose proof (bytes_value m 3 ltac:(lia)) as E3. pose proof (bytes_value m 2 ltac:(lia)) as E2.
  pose proof (bytes_value m 1 ltac:(lia)) as E1. pose proof (bytes_value m 0 ltac:(lia)) as E0.
  change (8 * (5 + 1)) with 48 in *. change (8 * (4 + 1)) with 40 in *. change (8 * 5) with 40 in *.
  change (8 * (3 + 1)) with 32 in *. change (8 * 4) with 32 in *.
  change (8 * (2 + 1)) with 24 in *. change (8 * 3) with 24 in *.
  change (8 * (1 + 1)) with 16 in *. change (8 * 2) with 16 in *. change (8 * (0 + 1)) with 8 in *.
  change (8 * 1) with 8 in *. change (8 * 0) with 0 in *. change (2 ^ 0) with 1 in *. rewrite (Z.mod_1_r m) in *. lia.
Qed.

(** IPv4 addresses *)
Definition ip_bytes (a : Z) : list Z := (λ i, byte_at a i) <$> [0; 1; 2; 3].
Lemma ntop4_dotted a : inet_ntop4 a 0xFFFFFFFF =
  dotted (byte_at a 0) (byte_at a 1) (byte_at a 2) (byte_at a 3).
Proof. done. Qed.
Lemma s_addr_bytes a : in_word 32 a → s_addr_of (ip_bytes a) = a.
Proof.
  unfold in_word. intros Ha. rewrite <-(Z.mod_small a (2 ^ 32)) at 2 by done.
  unfold s_addr_of, ip_bytes. cbn [fmap list_fmap].
  pose proof (bytes_value a 3 ltac:(lia)) as E3. pose proof (bytes_value a 2 ltac:(lia)) as E2.
  pose proof (bytes_value a 1 ltac:(lia)) as E1. pose proof (bytes_value a 0 ltac:(lia)) as E0.
  change (8 * (3 + 1)) with 32 in *. change (8 * (2 + 1)) with 24 in *. change (8 * 3) with 24 in *.
  change (8 * (1 + 1)) with 16 in *. change (8 * 2) with 16 in *. change (8 * (0 + 1)) with 8 in *.
  change (8 * 1) with 8 in *. change (8 * 0) with 0 in *. change (2 ^ 0) with 1 in *. rewrite (Z.mod_1_r a) in *. lia.
Qed.

(** ** The handlers on these words *)

Definition hex_arg (s : list Z) : Prop := is_map_valid (str "%m") s = Some true ∧ is_map_valid (str "%h") s = Some true ∧ is_help [s] = false.
Ltac words := unfold hex_arg; word_facts; destruct_and?; change (str "%m") with [37; 109] in *; change (str "%h") with [37; 104] in *.

Section Handlers.
Context `{Env} (pl : list Z) (Hpl : port_word pl).

Lemma set_number_words n name idx : number_word n →
  In (name, idx) [("count", 0); ("size", 1); ("rate", 2); ("burst", 3); ("sport", 5); ("dport", 6); ("prime", 7);
                  ("vlan", 9); ("seq_cnt", 11)]%string →
  set_cmd [str "set"; pl; str name; n] = each (portlist_of pl) (set_number idx (str name) n).
Proof using Hpl.
  revert Hpl. words. intros Hin. unfold set_cmd. cbn zeta.
  repeat (destruct Hin as [[= <- <-]|Hin]; [by find_entry set_map|]). done.
Qed.

Lemma set_jitter_words n : number_word n → is_map_valid (str "%D") n = Some true →
  set_cmd [str "set"; pl; str "jitter"; n] = each (portlist_of pl) (Ok [Set_jitter timer_hz (strtoul0 n)]).
Proof using Hpl.
  revert Hpl. words. change (str "%D") with [37; 68]. intros Hd. unfold set_cmd. cbn zeta. by find_entry set_map.
Qed.

Lemma set_type_words name : In name ["ipv4"; "ipv6"; "vlan"; "arp"]%string →
  set_cmd [str "set"; pl; str "type"; str name] = each (portlist_of pl) (Ok [Set_pkt_type name]).
Proof using Hpl.
  revert Hpl. words. intros Hin. unfold set_cmd. cbn zeta.
  repeat (destruct Hin as [<-|Hin]; [by find_entry set_map|]). done.
Qed.

Lemma set_type_unknown : set_cmd [str "set"; pl; str "type"; str "unknown"] = Refused.
Proof using Hpl. revert Hpl. words. unfold set_cmd. cbn zeta. by find_entry set_map. Qed.

Lemma set_proto_words name : In name ["tcp"; "icmp"; "udp"]%string →
  set_cmd [str "set"; pl; str "proto"; str name] = each (portlist_of pl) (Ok [Set_proto name]).
Proof using Hpl.
  revert Hpl. words. intros Hin. unfold set_cmd. cbn zeta.
  repeat (destruct Hin as [<-|Hin]; [by find_entry set_map|]). done.
Qed.

Lemma set_pattern_words name : In name ["abc"; "none"; "zero"; "user"]%string →
  set_cmd [str "set"; pl; str "pattern"; str name] = each (portlist_of pl) (Ok [Set_pattern name]).
Proof using Hpl.
  revert Hpl. words. intros Hin. unfold set_cmd. cbn zeta.
  repeat (destruct Hin as [<-|Hin]; [by find_entry set_map|]). done.
Qed.

Lemma set_ip_words x : address_word x →
  set_cmd [str "set"; pl; str "dst"; str "ip"; x] = each (portlist_of pl) (Ok [Set_ipaddr "d" (dst_ip x)]) ∧
  set_cmd [str "set"; pl; str "src"; str "ip"; x] = each (portlist_of pl) (Ok [Set_ipaddr "s" (src_ip x)]).
Proof using Hpl. revert Hpl. words. unfold set_cmd. cbn zeta. split; by find_entry set_map. Qed.

Lemma set_mac_words x which : hex_arg x → In which ["dst"; "src"]%string →
  set_cmd [str "set"; pl; str which; str "mac"; x] = each_mac (portlist_of pl) (Ok [with_mac (Set_mac which) x]).
Proof using Hpl.
  revert Hpl. words. intros Hin. unfold set_cmd. cbn zeta.
  repeat (destruct Hin as [<-|Hin]; [by find_entry set_map|]). done.
Qed.

Lemma set_qinqids_words x y : number_word x → number_word y →
  set_cmd [str "set"; pl; str "qinqids"; x; y] = each (portlist_of pl) (Ok [Set_qinq (u16 (strtol0 x)) (u16 (strtol0 y))]).
Proof using Hpl. revert Hpl. words. unfold set_cmd. cbn zeta. by find_entry set_map. Qed.

Lemma set_vxlan_words x y z : hex_arg x → number_word y → number_word z →
  set_cmd [str "set"; pl; str "vxlan"; x; y; z] =
    each (portlist_of pl) (Ok [Set_vxlan (u16 (strtol0 x)) (u16 (strtol0 y)) (u32 (strtol0 z))]).
Proof using Hpl. revert Hpl. words. unfold set_cmd. cbn zeta. by find_entry set_map. Qed.

Lemma set_rnd_words x y z : number_word x → number_word y → string_word z → pg_strmatch z (str "off") = false →
  set_cmd [str "set"; pl; str "rnd"; x; y; z] =
    each_mac (portlist_of pl) (Ok [Random (u16 (strtol0 x)) (u16 (strtol0 y)) (mask_chars z)]).
Proof using Hpl. revert Hpl. words. intros Ho. unfold set_cmd. cbn zeta. find_entry set_map. revert Ho. cbn. by intros ->. Qed.

(** [enable] and [disable] of a port *)
Lemma able_words (on : bool) name f :
  In (name, f) [("process", Enable_process); ("mpls", Enable_mpls); ("qinq", Enable_qinq); ("gre", Enable_gre);
    ("gre_eth", Enable_gre_eth); ("vlan", Enable_vlan); ("latency", Enable_latency); ("pcap", Enable_pcap);
    ("icmp", Enable_icmp_echo); ("range", Enable_range); ("vxlan", Enable_vxlan); ("rate", Enable_rate)]%string →
  en_dis_cmd [able on; pl; str name] =
    each (portlist_of pl) (Ok [f (if on then ENABLE_STATE else DISABLE_STATE)]).
Proof using Hpl.
  revert Hpl. words. intros Hin. unfold en_dis_cmd. cbn zeta.
  repeat (destruct Hin as [[= <- <-]|Hin]; [destruct on; by find_entry enable_map|]). done.
Qed.

Lemma able_tap_words (on : bool) :
  en_dis_cmd [able on; pl; str "rx_tap"] =
    Ok [Each (portlist_of pl) (λ _ pid, [Do (Enable_rx_tap (tap pid) (if on then ENABLE_STATE else DISABLE_STATE))]); update_display] ∧
  en_dis_cmd [able on; pl; str "tx_tap"] =
    Ok [Each (portlist_of pl) (λ _ pid, [Do (Enable_tx_tap (tap pid) (if on then ENABLE_STATE else DISABLE_STATE))]); update_display] ∧
  en_dis_cmd [able on; pl; str "capture"] =
    each_mac (portlist_of pl) (Ok [Set_capture (if on then ENABLE_STATE else DISABLE_STATE)]).
Proof using Hpl.
  revert Hpl. words. unfold en_dis_cmd. cbn zeta. split_and!; destruct on; by find_entry enable_map.
Qed.

(** [range] *)
Definition whats : list string := ["start"; "min"; "max"; "inc"].

Lemma range_mac_words what x : In what whats → hex_arg x →
  range_cmd [str "range"; pl; str "dst"; str "mac"; str what; x] =
    each_mac (portlist_of pl) (Ok [with_mac (Range_dst_mac what) x]) ∧
  range_cmd [str "range"; pl; str "src"; str "mac"; str what; x] =
    each_mac (portlist_of pl) (Ok [with_mac (Range_src_mac what) x]).
Proof using Hpl.
  revert Hpl. intros Hpl' Hin. revert Hpl'. words. unfold range_cmd. cbn zeta.
  split; repeat (destruct Hin as [<-|Hin]; [by find_entry range_map|]); done.
Qed.

Lemma range_ip_words what x : In what whats → address_word x →
  range_cmd [str "range"; pl; str "dst"; str "ip"; str what; x] =
    each (portlist_of pl) (Ok [Range_dst_ip what (atoip x false junk_ip)]) ∧
  range_cmd [str "range"; pl; str "src"; str "ip"; str what; x] =
    each (portlist_of pl) (Ok [Range_src_ip what (atoip x false junk_ip)]).
Proof using Hpl.
  revert Hpl. intros Hpl' Hin. revert Hpl'. words. unfold range_cmd. cbn zeta.
  split; repeat (destruct Hin as [<-|Hin]; [by find_entry range_map|]); done.
Qed.

Lemma range_port_words what x : In what whats → number_word x →
  range_cmd [str "range"; pl; str "dst"; str "port"; str what; x] =
    each (portlist_of pl) (Ok [Range_dst_port what (atoi_w 16 x)]) ∧
  range_cmd [str "range"; pl; str "src"; str "port"; str what; x] =
    each (portlist_of pl) (Ok [Range_src_port what (atoi_w 16 x)]).
Proof using Hpl.
  revert Hpl. intros Hpl' Hin. revert Hpl'. words. unfold range_cmd. cbn zeta.
  split; repeat (destruct Hin as [<-|Hin]; [by find_entry range_map|]); done.
Qed.

Lemma range_number_words what x name f : In what whats → number_word x → is_map_valid (str "%b") x = Some true →
  In (name, f) [("ttl", λ w, Range_ttl w (atoi_w 8 x)); ("vlan", λ w, Range_vlan w (atoi_w 16 x));
                ("cos", λ w, Range_cos w (atoi_w 8 x)); ("tos", λ w, Range_tos w (atoi_w 8 x));
                ("size", λ w, Range_size w (u16 (if pg_strmatch (str w) (str "inc") then CliMap.atoi x else valid_pkt_size x)))]%string →
  range_cmd [str "range"; pl; str name; str what; x] = each (portlist_of pl) (Ok [f what]).
Proof using Hpl.
  revert Hpl. intros Hpl' Hin. revert Hpl'. words. change (str "%b") with [37; 98]. intros Hb Hf.
  unfold range_cmd. cbn zeta.
  repeat (destruct Hin as [<-|Hin];
    [repeat (destruct Hf as [[= <- <-]|Hf]; [by find_entry range_map|]); done|]); done.
Qed.

Lemma range_proto_words name : In name ["tcp"; "icmp"; "udp"]%string →
  range_cmd [str "range"; pl; str "proto"; str name] = 
    if String.eqb name "icmp" then Refused else each (portlist_of pl) (Ok [Range_set_proto name]).
Proof using Hpl.
  revert Hpl. words. intros Hin. unfold range_cmd. cbn zeta.
  repeat (destruct Hin as [<-|Hin]; [by find_entry range_map|]). done.
Qed.

Lemma range_mpls_words x : hex_arg x →
  range_cmd [str "range"; pl; str "mpls"; str "entry"; x] =
    each (portlist_of pl) (Ok [Set_mpls (u32 (fst (fst (strtoul 16 x))))]).
Proof using Hpl. revert Hpl. words. unfold range_cmd. cbn zeta. by find_entry range_map. Qed.

Lemma range_gre_words x : number_word x →
  range_cmd [str "range"; pl; str "gre"; str "key"; x] =
    each (portlist_of pl) (Ok [Set_gre_key (u32 (fst (fst (strtoul 10 x))))]).
Proof using Hpl. revert Hpl. words. unfold range_cmd. cbn zeta. by find_entry range_map. Qed.

(** [rate]; the lines with a second word, and the last, are read as [Lines] says. *)
Lemma rate_words name x : number_word x → In name ["fps"; "lines"; "pixels"]%string →
  rate_cmd [str "rate"; pl; str name; x] = each (portlist_of pl) (Ok [Rate_value name (atoi_w 32 x)]).
Proof using Hpl.
  revert Hpl. words. intros Hin. unfold rate_cmd. cbn zeta.
  repeat (destruct Hin as [<-|Hin]; [by find_entry rate_map|]). done.
Qed.

(** A sequence line in its short form *)
Lemma seq_words j dm sm dip sip sp dp type proto vlan size teid :
  number_word j → CliMap.atoi j < NUM_SEQ_PKTS → hex_arg dm → hex_arg sm → address_word dip → address_word sip →
  number_word sp → number_word dp → number_word vlan → number_word size → number_word teid →
  In type ["ipv4"; "ipv6"]%string → In proto ["tcp"; "icmp"; "udp"]%string → 
  seq_cmd [str "sequence"; j; pl; dm; sm; dip; sip; sp; dp; str type; str proto; vlan; size; teid] =
    if String.eqb type "ipv6" && String.eqb proto "icmp" then Ok []
    else each (portlist_of pl) (Ok [Seq (u32 (CliMap.atoi j)) (mac_into dm) (mac_into sm) (dst_ip dip) (src_ip sip)
           (atoi_w 32 sp) (atoi_w 32 dp) (chr type 3) (chr proto 0) (atoi_w 16 vlan) (atoi_w 32 size)
           (u32 (fst (fst (strtoul 10 teid))))]).
Proof using Hpl.
  intros Hj Hn. revert Hpl Hj. words. intros Ht Hp. unfold seq_cmd.
  assert (seq_slot [str "sequence"; j; pl; dm; sm; dip; sip; sp; dp; str type; str proto; vlan; size; teid] =
          Ok (u32 (CliMap.atoi j))) as Hs.
  { unfold seq_slot, val, arg. cbn [lookup list_lookup defined_as mbind res_bind].
    destruct (Z.leb_spec NUM_SEQ_PKTS (CliMap.atoi j)); [lia|done]. }
  repeat (destruct Ht as [<-|Ht];
    [repeat (destruct Hp as [<-|Hp];
      [find_entry seq_map; cbn [mbind res_bind index]; unfold seq_1_set_cmd, seq_form_cmd; rewrite Hs; reflexivity|]); done|]); done.
Qed.

Lemma seq_refused j dm sm dip sip sp dp type proto vlan size teid :
  number_word j → hex_arg dm → hex_arg sm → address_word dip → address_word sip →
  number_word sp → number_word dp → number_word vlan → number_word size → number_word teid →
  In type ["vlan"; "Other"]%string → In proto ["tcp"; "icmp"; "udp"]%string →
  seq_cmd [str "sequence"; j; pl; dm; sm; dip; sip; sp; dp; str type; str proto; vlan; size; teid] = Refused.
Proof using Hpl.
  intros Hj. revert Hpl Hj. words. intros Ht Hp. unfold seq_cmd.
  repeat (destruct Ht as [<-|Ht]; [repeat (destruct Hp as [<-|Hp]; [by find_entry seq_map|]); done|]); done.
Qed.
End Handlers.

(** ** The values again: numbers that may be negative, addresses with masks *)

Lemma number_dec n : - 2 ^ 63 ≤ n < 2 ^ 63 → number 10 (dec n) = Some (n <? 0, Z.abs n, []).
Proof.
  intros Hn. unfold dec. destruct (Z.ltb_spec n 0) as [Hl|Hl].
  - pose proof (number_show (- n) [] ltac:(lia) I) as E. rewrite app_nil_r in E.
    replace (Z.abs n) with (- n) by lia. destruct (show_cons (- n)) as (c & l & Es & Hc); [lia|].
    rewrite Es in *. unfold number in *. cbn [skip_while] in *. rewrite (digit_not_space c Hc) in E.
    change (isspace 45) with false. cbn iota. change (45 =? 45) with true. cbn iota.
    unfold digit_char in Hc. destruct (Z.eqb_spec c 45); [lia|]. destruct (Z.eqb_spec c 43); [lia|].
    destruct l as [|x [|d s']]; cbn [Z.eqb Pos.eqb andb] in *;
      (destruct (digit_val 10 c); [|done]); destruct (digits 10 0 _) as [v r]; by injection E as -> ->.
  - replace (Z.abs n) with n by lia. rewrite <-(app_nil_r (show n)). by rewrite number_show by (done || lia).
Qed.

Lemma swrap_back v : in_word 32 v → - 2 ^ 31 ≤ swrap 32 v < 2 ^ 31 ∧ swrap 32 v `mod` 2 ^ 32 = v.
Proof.
  intros Hv. unfold swrap. change (2 ^ (32 - 1)) with (2 ^ 31).
  pose proof (Z.mod_pos_bound (v + 2 ^ 31) (2 ^ 32) ltac:(lia)). split; [lia|].
  rewrite Zminus_mod_idemp_l. replace (v + 2 ^ 31 - 2 ^ 31) with v by lia. by apply Z.mod_small.
Qed.

Lemma dec_u_unsigned v : in_word 32 v → u32 (fst (fst (strtoul 10 (dec_u v)))) = v.
Proof.
  intros Hv. unfold dec_u, strtoul.
  destruct (swrap_back v Hv) as [Hr Hm].
  rewrite number_dec by lia. destruct (Z.leb_spec (2 ^ 64) (Z.abs (swrap 32 v))); [lia|]. cbn [fst].
  destruct (Z.ltb_spec (swrap 32 v) 0).
  - replace (- Z.abs (swrap 32 v)) with (swrap 32 v) by lia. unfold wrap. rewrite <-Znumtheory.Zmod_div_mod; [exact Hm|lia..|by exists (2 ^ 32)].
  - replace (Z.abs (swrap 32 v)) with (swrap 32 v) by lia. exact Hm.
Qed.

Lemma dec_u_signed v : in_word 32 v → u32 (strtol0 (dec_u v)) = v.
Proof.
  intros Hv.
  assert (base_of (dec_u v) = 10) as Eb.
  { unfold dec_u, dec. destruct (swrap_back v Hv) as [Hr _].
    destruct (Z.ltb_spec (swrap 32 v) 0); [|by apply base_show; lia].
    pose proof (base_show (- swrap 32 v) ltac:(lia)) as E. destruct (show_cons (- swrap 32 v)) as (c & l & Es & Hc); [lia|].
    rewrite Es in *. unfold base_of in *. cbn [skip_while] in *. rewrite digit_not_space in E by done.
    unfold digit_char in Hc. destruct (Z.eqb_spec c 45); [lia|]. destruct (Z.eqb_spec c 43); [lia|]. exact E. }
  unfold strtol0. rewrite Eb. unfold dec_u, strtol.
  destruct (swrap_back v Hv) as [Hr Hm].
  rewrite number_dec by lia. unfold wrap.
  destruct (Z.ltb_spec (swrap 32 v) 0); (etransitivity; [|exact Hm]); f_equal; lia.
Qed.
