(* ===== verification/SaveFacts.v ===== *)
(** * What a saved configuration means

    Every line that [pktgen_script_save] writes for a port is taken apart by the
    console into the words it was written from, and executed; here is which
    commands these are, and what becomes of the port that reads them. *)
From Stdlib Require Import Floats.SpecFloat Ascii String.
From S2P Require Import Prelude Mem Inet PortInfo RandomBits Headers Pacing Commands Session Capture.
From S2P Require Import Strings PortList CliMap CliFacts Console ConsoleFacts Lines Save SaveWords.

(** ** More words *)

Definition digit_in (w : list Z) : Prop := Exists digit_char w.

Lemma dec_wordy n : - 2 ^ 63 ≤ n → wordy (dec n) ∧ is_help [dec n] = false ∧ digit_in (dec n).
Proof.
  intros Hn. unfold dec. destruct (Z.ltb_spec n 0).
  - destruct (show_cons (- n)) as (c & l & E & Hc); [lia|].
    split_and!.
    + apply (wordy_app' [45]); [by repeat constructor|]. apply show_wordy. lia.
    + rewrite E. unfold is_help. cbn [last]. change (str "-?") with [45; 63]. change (str "?") with [63].
      cbn [pg_strmatch]. change (45 =? 45) with true. change (63 =? 45) with false. cbn iota.
      unfold digit_char in Hc. destruct (Z.eqb_spec 63 c); [lia|done].
    + rewrite E. apply Exists_cons. right. by apply Exists_cons; left.
  - split_and!; [apply show_wordy; lia|apply digit_first_help, show_digit_first; lia|].
    destruct (show_cons n) as (c & l & -> & Hc); [lia|]. by apply Exists_cons; left.
Qed.

Lemma digit_in_valid w f : digit_in w → mem_chr f (str "bdDn46hHmsPC") = true →
  is_map_valid [37; f] w = Some true.
Proof.
  intros Hw Hf.
  assert (∀ p : Z → bool, (∀ c, digit_char c → p c = true) → any_char p w = Some true) as Hany.
  { intros p Hp. apply Exists_exists in Hw as (c & Hin & Hc). unfold any_char. destruct w as [|d w']; [by apply not_elem_of_nil in Hin|].
    f_equal. apply existsb_exists. exists c. split; [by apply list_elem_of_In|by apply Hp]. }
  assert (∀ c, digit_char c → isdigit c = true) as Hd
    by (intros c Hc; unfold digit_char in Hc; unfold isdigit; rewrite andb_true_iff, !Z.leb_le; lia).
  assert (∀ c, digit_char c → isprint c = true) as Hpr
    by (intros c Hc; unfold digit_char in Hc; unfold isprint; rewrite andb_true_iff, !Z.leb_le; lia).
  unfold mem_chr in Hf. apply existsb_exists in Hf as (x & Hx & ->%Z.eqb_eq).
  change (str "bdDn46hHmsPC") with [98; 100; 68; 110; 52; 54; 104; 72; 109; 115; 80; 67] in Hx.
  cbn [In] in Hx. unfold is_map_valid.
  repeat destruct Hx as [<-|Hx]; try done; cbn -[any_char]; apply Hany; try done;
    intros c Hc; unfold isxdigit; by rewrite Hd.
Qed.

Lemma dec_number n : - 2 ^ 63 ≤ n → number_word (dec n).
Proof. intros Hn. destruct (dec_wordy n Hn) as (_ & Hh & Hd). split; [by apply digit_in_valid|done]. Qed.
Lemma dec_byte n : - 2 ^ 63 ≤ n → is_map_valid (str "%b") (dec n) = Some true.
Proof. intros Hn. by apply digit_in_valid; [apply dec_wordy|]. Qed.

Lemma dotted_wordy a b c d : byte a → byte b → byte c → byte d → wordy (dotted a b c d) ∧ digit_first (dotted a b c d).
Proof.
  intros Ha Hb Hc Hd. destruct (dotted_token a b c d Ha Hb Hc Hd) as (Hne & Hf & _). split.
  - split; [done|]. eapply Forall_impl; [exact Hf|]. intros x Hx. unfold addr_char in Hx.
    unfold word_char. rewrite !andb_true_iff, negb_true_iff, !Z.leb_le. split; [lia|].
    unfold mem_chr. cbn [existsb]. rewrite !orb_false_iff, !Z.eqb_neq. lia.
  - unfold dotted. apply digit_first_app, show_digit_first. by destruct Ha.
Qed.

Lemma mask_scan_range n i m : 0 ≤ i → i ≤ mask_scan n i m ≤ i + Z.of_nat n.
Proof.
  revert i. induction n as [|n IH]; intros i Hi; cbn [mask_scan]; [lia|]. destruct (_ =? 0); [lia|].
  specialize (IH (i + 1) ltac:(lia)). lia.
Qed.
Lemma mask_size_range m : 0 ≤ Inet.mask_size m ≤ 32.
Proof.
  unfold Inet.mask_size. repeat (destruct (_ =? _); [lia|]). pose proof (mask_scan_range 32 0 m). lia.
Qed.

Lemma byte_byte a i : byte (byte_at a i).
Proof. apply byte_at_range. Qed.

Lemma ntop4_word a : wordy (inet_ntop4 a 0xFFFFFFFF) ∧ digit_first (inet_ntop4 a 0xFFFFFFFF).
Proof. rewrite ntop4_dotted. apply dotted_wordy; apply byte_byte. Qed.

Lemma ntop4_mask a m : inet_ntop4 a m =
  if m =? 0xFFFFFFFF then inet_ntop4 a 0xFFFFFFFF else inet_ntop4 a 0xFFFFFFFF ++ 47 :: show (Inet.mask_size m).
Proof.
  unfold inet_ntop4. rewrite Z.eqb_refl. destruct (m =? 0xFFFFFFFF); [done|].
  rewrite dec_show by apply mask_size_range. done.
Qed.

Lemma ntop4_mask_word a m : wordy (inet_ntop4 a m) ∧ digit_first (inet_ntop4 a m).
Proof.
  rewrite ntop4_mask. destruct (ntop4_word a) as [Hw Hd]. destruct (m =? 0xFFFFFFFF); [done|]. split.
  - apply wordy_app; [done|]. constructor; [done|]. apply show_wordy, mask_size_range.
  - by apply digit_first_app.
Qed.

Lemma hex2_word b : 0 ≤ b < 256 → Forall (λ c, ∃ d, 0 ≤ d < 16 ∧ c = hex_char d) (hex2 b).
Proof.
  intros Hb. unfold hex2. repeat constructor.
  - exists (b / 16). split; [|done]. split; [apply Z.div_pos; lia|apply Z.div_lt_upper_bound; lia].
  - exists (b `mod` 16). split; [apply Z.mod_pos_bound; lia|done].
Qed.

(** The first character of what is printed in hexadecimal *)
Lemma hex_first d w : 0 ≤ d < 16 → is_map_valid (str "%m") (hex_char d :: w) = Some true ∧
  is_map_valid (str "%h") (hex_char d :: w) = Some true ∧ is_help [hex_char d :: w] = false.
Proof.
  intros Hd. pose proof (hex_char_range d Hd) as Hc.
  assert (isxdigit (hex_char d) = true) as Hx.
  { unfold isxdigit, isdigit. rewrite !orb_true_iff, !andb_true_iff, !Z.leb_le. lia. }
  split_and!; [by cbn; rewrite Hx..|]. unfold is_help. cbn [last].
  change (str "-?") with [45; 63]. change (str "?") with [63]. cbn [pg_strmatch].
  destruct (Z.eqb_spec 45 (hex_char d)); [lia|]. destruct (Z.eqb_spec 63 (hex_char d)); [lia|done].
Qed.

Lemma mtoa_word m : wordy (mtoa m) ∧ hex_arg (mtoa m).
Proof.
  unfold mtoa, mac_bytes. cbn [fmap list_fmap]. unfold inet_mtoa.
  set (bs := [byte_at m 4; byte_at m 3; byte_at m 2; byte_at m 1; byte_at m 0]).
  assert (Forall (λ b, 0 ≤ b < 256) bs) as Hbs by (repeat constructor; apply byte_at_range).
  assert (∀ b, 0 ≤ b < 256 → Forall (λ c, word_char c = true) (hex2 b)) as Hh.
  { intros b Hb. eapply Forall_impl; [by apply hex2_word|]. intros c (d & Hd & ->). by apply hex_word. }
  split.
  - split; [done|]. apply Forall_app. split; [apply Hh, byte_at_range|].
    clear -Hbs Hh. induction Hbs as [|b bs Hb Hbs IH]; [constructor|]. cbn [flat_map].
    constructor; [done|]. apply Forall_app. split; [by apply Hh|exact IH].
  - unfold hex2 at 1. cbn [app]. apply hex_first. pose proof (byte_at_range m 5).
    split; [apply Z.div_pos; lia|apply Z.div_lt_upper_bound; lia].
Qed.

Lemma hex_word_of_word n : 0 ≤ n → wordy (hex_word_of n) ∧ hex_arg (hex_word_of n).
Proof.
  intros Hn. split.
  - apply (wordy_app (str "0x")); [by apply wordy_chars|].
    eapply Forall_impl; [by apply hex_chars|]. intros c (d & Hd & ->). by apply hex_word.
  - unfold hex_word_of. change (str "0x") with (hex_char 0 :: [120]). apply (hex_first 0). lia.
Qed.

(** ** Addresses, read back *)

Section Addresses.
Context `{Env}.

Lemma atoip_dotted a b c d : byte a → byte b → byte c → byte d → _atoip (dotted a b c d) false = Some ([a; b; c; d], 0).
Proof.
  intros Ha Hb Hc Hd. destruct (dotted_token a b c d Ha Hb Hc Hd) as (H1 & H2 & H3).
  rewrite <-(app_nil_r (dotted a b c d)), atoip_token by done. cbn [mbind option_bind]. by rewrite ipton4_dotted.
Qed.

Lemma atoip_prefix a b c d n : byte a → byte b → byte c → byte d → 0 ≤ n ≤ 32 →
  _atoip (dotted a b c d ++ 47 :: show n) true = Some ([a; b; c; d], n).
Proof.
  intros Ha Hb Hc Hd Hn. destruct (prefixed_token a b c d n Ha Hb Hc Hd ltac:(lia)) as (H1 & H2 & H3).
  rewrite <-(app_nil_r (dotted a b c d ++ _)), atoip_token by done. cbn [mbind option_bind].
  rewrite strrchr_slash_at by (apply show_no; [lia|unfold digit_char; lia]). cbn [mbind option_bind].
  rewrite strtol_all_show by lia. cbn [mbind option_bind]. unfold RTE_PREFIXMAX, RTE_V4PREFIXMAX.
  destruct (Z.ltb_spec n 0); [lia|]. destruct (Z.ltb_spec 128 n); [lia|]. cbn [orb mbind option_bind].
  rewrite ipton4_dotted by done. cbn [mbind option_bind]. by destruct (Z.leb_spec n 32); [|lia].
Qed.

Lemma ntop4_no_slash a : Forall (λ x, x ≠ 47) (inet_ntop4 a 0xFFFFFFFF).
Proof.
  rewrite ntop4_dotted. destruct (dotted_chars (byte_at a 0) (byte_at a 1) (byte_at a 2) (byte_at a 3)) as [Hf _];
    try apply byte_byte. eapply Forall_impl; [exact Hf|]. by intros ? [_ ?].
Qed.

Lemma atoip_ntop4 a ip : in_word 32 a → atoip (inet_ntop4 a 0xFFFFFFFF) false ip = mk_ipaddr a 0.
Proof.
  intros Ha. unfold atoip. rewrite ntop4_dotted, atoip_dotted by apply byte_byte.
  f_equal. by apply s_addr_bytes.
Qed.

Lemma dst_ip_ntop4 a : in_word 32 a → dst_ip (inet_ntop4 a 0xFFFFFFFF) = mk_ipaddr a 0.
Proof.
  intros Ha. unfold dst_ip, upto_slash. rewrite span_out; [by apply atoip_ntop4|].
  eapply Forall_impl; [apply ntop4_no_slash|]. intros c Hc. by apply Z.eqb_neq.
Qed.

Lemma existsb_slash s : Forall (λ x, x ≠ 47) s → existsb (λ c, c =? 47) s = false.
Proof.
  intros Hs. apply not_true_is_false. intros (c & Hc & ->%Z.eqb_eq)%existsb_exists.
  rewrite Forall_forall in Hs. by apply (Hs 47); [apply list_elem_of_In|].
Qed.

Lemma src_ip_ntop4 a m : in_word 32 a → src_ip (inet_ntop4 a m) = mk_ipaddr a (Inet.mask_size m).
Proof.
  intros Ha. rewrite ntop4_mask. unfold src_ip. pose proof (mask_size_range m) as Hm.
  assert (∀ n, 0 ≤ n ≤ 32 → atoip (inet_ntop4 a 0xFFFFFFFF ++ 47 :: show n) true junk_ip = mk_ipaddr a n) as E.
  { intros n Hn. unfold atoip. rewrite ntop4_dotted, atoip_prefix by (apply byte_byte || done).
    f_equal. by apply s_addr_bytes. }
  destruct (Z.eqb_spec m 0xFFFFFFFF) as [->|Hne].
  - rewrite existsb_slash by apply ntop4_no_slash. change (str "/32") with (47 :: show 32).
    rewrite take_ge; [by rewrite E|]. rewrite ntop4_dotted, length_app.
    destruct (dotted_chars (byte_at a 0) (byte_at a 1) (byte_at a 2) (byte_at a 3)) as [_ Hl]; try apply byte_byte.
    change (length (47 :: show 32)) with 3%nat. lia.
  - rewrite existsb_app, existsb_slash by apply ntop4_no_slash. cbn [existsb orb]. rewrite Z.eqb_refl. cbn [orb].
    by apply E.
Qed.

Lemma with_mac_mtoa f m : 0 ≤ m < 2 ^ 48 → with_mac f (mtoa m) = Do (f m).
Proof. intros Hm. unfold with_mac. by rewrite aton_mtoa, mac_of_bytes. Qed.
Lemma mac_into_mtoa m : 0 ≤ m < 2 ^ 48 → mac_into (mtoa m) = m.
Proof. intros Hm. unfold mac_into. by rewrite aton_mtoa, mac_of_bytes. Qed.

(** The list of one port *)
Lemma portlist_of_show i : 0 ≤ i < 64 → portlist_of (show i) = 2 ^ i.
Proof.
  intros Hi.
  pose proof (portlist_of_entries [] [(i, i)] ltac:(repeat constructor; cbn; lia) ltac:(done)
    ltac:(unfold MAX_SPLIT; cbn; lia) ltac:(constructor)) as E.
  apply Z.bits_inj'. intros k Hk. specialize (E k Hk). cbn [fmap list_fmap] in E.
  unfold show_entry in E. rewrite Z.eqb_refl in E. cbn [join] in E. rewrite E.
  rewrite Z.pow2_bits_eqb by lia. cbn [forallb existsb]. unfold valid, covers. cbn [fst snd].
  destruct (Z.eqb_spec i k) as [->|Hne].
  - by destruct (Z.leb_spec k k), (Z.ltb_spec k 64); try lia.
  - destruct (Z.leb_spec i i); [|lia]. destruct (Z.ltb_spec i 64); [|lia]. cbn [andb orb].
    destruct (Z.leb_spec i k), (Z.leb_spec k i); cbn; (done || lia).
Qed.
End Addresses.

(** ** What the lines of a port are read as *)

(** The fields of a packet and of the range settings within the width of their C
    types, and the packet lengths between the smallest and the largest *)
Record pkt_fits (p : pkt_seq_t) : Prop := {
  pf_48 : Forall (in_word 48) [Pkt.eth_dst_addr p; Pkt.eth_src_addr p];
  pf_32 : Forall (in_word 32) [Pkt.ip_dst_addr p; Pkt.ip_src_addr p; Pkt.mpls_entry p; Pkt.gre_key p;
                               Pkt.gtpu_teid p; Pkt.vxlan_id p];
  pf_16 : Forall (in_word 16) [Pkt.sport p; Pkt.dport p; Pkt.vlanid p; Pkt.qinq_outerid p; Pkt.qinq_innerid p;
                               Pkt.vni_flags p; Pkt.group_id p; Pkt.pktSize p] }.
Definition size_fits (s : Z) : Prop := MIN_PKT_SIZE ≤ s ≤ MAX_PKT_SIZE.
Record range_fits (r : range_info_t) : Prop := {
  rf_48 : Forall (in_word 48) [Rng.src_mac r; Rng.src_mac_min r; Rng.src_mac_max r; Rng.src_mac_inc r;
                               Rng.dst_mac r; Rng.dst_mac_min r; Rng.dst_mac_max r; Rng.dst_mac_inc r];
  rf_32 : Forall (in_word 32) [Rng.src_ip r; Rng.src_ip_min r; Rng.src_ip_max r; Rng.src_ip_inc r;
                               Rng.dst_ip r; Rng.dst_ip_min r; Rng.dst_ip_max r; Rng.dst_ip_inc r];
  rf_16 : Forall (in_word 16) [Rng.src_port r; Rng.src_port_min r; Rng.src_port_max r; Rng.src_port_inc r;
                               Rng.dst_port r; Rng.dst_port_min r; Rng.dst_port_max r; Rng.dst_port_inc r;
                               Rng.vlan_id r; Rng.vlan_id_min r; Rng.vlan_id_max r; Rng.vlan_id_inc r; Rng.pkt_size_inc r];
  rf_8 : Forall (in_word 8) [Rng.ttl r; Rng.ttl_min r; Rng.ttl_max r; Rng.ttl_inc r;
                             Rng.cos r; Rng.cos_min r; Rng.cos_max r; Rng.cos_inc r;
                             Rng.tos r; Rng.tos_min r; Rng.tos_max r; Rng.tos_inc r];
  rf_size : Forall size_fits [Rng.pkt_size r; Rng.pkt_size_min r; Rng.pkt_size_max r] }.
Definition rate_fits (r : rate_info_t) : Prop :=
  Forall (in_word 16) [Rate.fps r; Rate.vlines r; Rate.pixels r; Rate.color_bits r; Rate.payload r; Rate.overhead r].

Section Meaning.
Context `{Env} `{Texts} (i : Z) (Hi : 0 ≤ i < 64).

(** What [%g] prints of a rate: a word with a digit, and no request for help *)
Definition rate_printed (r : spec_float) : Prop := wordy (fmt_g r) ∧ number_word (fmt_g r).

Record saveable (info : port_info_t) : Prop := {
  sv_pid : Info.pid info = i;
  sv_count : 0 ≤ Info.transmit_count info < 2 ^ 63;
  sv_jitter : in_word 64 (Info.jitter_threshold info);
  sv_16 : Forall (in_word 16) [Info.tx_burst info; Info.prime_cnt info];
  sv_seqCnt : 0 ≤ Info.seqCnt info ≤ NUM_SEQ_PKTS;
  sv_rate : rate_printed (Info.tx_rate info);
  sv_pkts : ∀ k, pkt_fits (Info.seq_pkt info k);
  sv_size : size_fits (Pkt.pktSize (Info.seq_pkt info SINGLE_PKT));
  sv_range : range_fits (Info.range info);
  sv_rates : rate_fits (Info.rate info);
  sv_user : let u := cstring 16 (Info.user_pattern info) in u = [] ∨ wordy u ∧ string_word u }.

(** A command on the port, and the display *)
Definition does (c : command) : list step := [foreach_port (2 ^ i) [c]; update_display].
Definition acts (a : Z → action) : list step := [Each (2 ^ i) (λ _ pid, [a pid]); update_display].
Definition switch (flags f : Z) : Z := if tst_bits flags f then ENABLE_STATE else DISABLE_STATE.

Definition type_meaning (e : Z) : list step :=
  if e =? PG_ETHER_TYPE_IPv4 then does (Set_pkt_type "ipv4") else if e =? PG_ETHER_TYPE_IPv6 then does (Set_pkt_type "ipv6")
  else if e =? PG_ETHER_TYPE_VLAN then does (Set_pkt_type "vlan")
  else if e =? PG_ETHER_TYPE_ARP then does (Set_pkt_type "arp") else [].
Definition proto_word (p : Z) : string :=
  if p =? PG_IPPROTO_TCP then "tcp" else if p =? PG_IPPROTO_ICMP then "icmp" else "udp".
Definition pattern_word (t : fill_t) : string :=
  match t with
  | ABC_FILL_PATTERN => "abc" | NO_FILL_PATTERN => "none" | ZERO_FILL_PATTERN => "zero" | USER_FILL_PATTERN => "user"
  end.

(** The user pattern is lost: the word [pattern] becomes the pattern. *)
Definition primary_meaning (info : port_info_t) : list (list step) :=
  let pkt := Info.seq_pkt info SINGLE_PKT in
  let flags := Info.port_flags info in
  [does (Set_tx_count (u32 (Info.transmit_count info))); does (Set_pkt_size (Pkt.pktSize pkt + PG_ETHER_CRC_LEN));
   does (Set_tx_rate (strtod (fmt_g (Info.tx_rate info)))); does (Set_tx_burst (Info.tx_burst info));
   does (Set_port "s" (Pkt.sport pkt)); does (Set_port "d" (Pkt.dport pkt)); does (Set_prime (Info.prime_cnt info));
   type_meaning (Pkt.ethType pkt); does (Set_proto (proto_word (Pkt.ipProto pkt)));
   does (Set_ipaddr "d" (mk_ipaddr (ntohl (Pkt.ip_dst_addr pkt)) 0));
   does (Set_ipaddr "s" (mk_ipaddr (ntohl (Pkt.ip_src_addr pkt)) (Inet.mask_size (Pkt.ip_mask pkt))));
   does (Set_mac "dst" (Pkt.eth_dst_addr pkt)); does (Set_mac "src" (Pkt.eth_src_addr pkt));
   does (Set_vlan_id (Pkt.vlanid pkt)); []; does (Set_pattern (pattern_word (Info.fill_pattern_type info)))] ++
  (match Info.fill_pattern_type info, cstring 16 (Info.user_pattern info) with
   | USER_FILL_PATTERN, _ :: _ => [does (Set_user_pattern "pattern")]
   | _, _ => []
   end) ++
  [[]; does (Set_jitter timer_hz (Info.jitter_threshold info));
   does (Enable_mpls (switch flags SEND_MPLS_LABEL)); does (Set_mpls (Pkt.mpls_entry pkt));
   does (Enable_qinq (switch flags SEND_Q_IN_Q_IDS)); does (Set_qinq (Pkt.qinq_outerid pkt) (Pkt.qinq_innerid pkt));
   does (Enable_gre (switch flags SEND_GRE_IPv4_HEADER)); does (Enable_gre_eth (switch flags SEND_GRE_ETHER_HEADER));
   does (Enable_vxlan (switch flags SEND_VXLAN_PACKETS));
   does (Set_vxlan (Pkt.vni_flags pkt) (Pkt.group_id pkt) (Pkt.vxlan_id pkt))].

Definition flag_meaning (info : port_info_t) : list (list step) :=
  let flags := Info.port_flags info in
  [does (Enable_icmp_echo (switch flags ICMP_ECHO_ENABLE_FLAG)); does (Enable_pcap (switch flags SEND_PCAP_PKTS));
   does (Enable_range (switch flags SEND_RANGE_PKTS)); does (Enable_latency (switch flags SEND_LATENCY_PKTS));
   does (Enable_process (switch flags PROCESS_INPUT_PKTS)); acts (λ _, Set_capture (switch flags CAPTURE_PKTS));
   acts (λ pid, Do (Enable_rx_tap (tap pid) (switch flags PROCESS_RX_TAP_PKTS)));
   acts (λ pid, Do (Enable_tx_tap (tap pid) (switch flags PROCESS_TX_TAP_PKTS)));
   does (Enable_vlan (switch flags SEND_VLAN_ID)); does (Enable_rate (switch flags SEND_RATE_PACKETS)); []].

Definition four_meaning (f : string → Z → command) (start min max inc : Z) : list (list step) :=
  [does (f "start" start); does (f "min" min); does (f "max" max); does (f "inc" inc)]%string.
Definition four_ip (f : string → pg_ipaddr → command) (start min max inc : Z) : list (list step) :=
  four_meaning (λ w a, f w (mk_ipaddr (ntohl a) 0)) start min max inc.

(** A range of ICMP packets is not read back. *)
Definition range_meaning (info : port_info_t) : list (list step) :=
  let r := Info.range info in
  let size s := s + PG_ETHER_CRC_LEN in
  four_meaning Range_src_mac (Rng.src_mac r) (Rng.src_mac_min r) (Rng.src_mac_max r) (Rng.src_mac_inc r) ++ [] ::
  four_meaning Range_dst_mac (Rng.dst_mac r) (Rng.dst_mac_min r) (Rng.dst_mac_max r) (Rng.dst_mac_inc r) ++ [] ::
  four_ip Range_src_ip (Rng.src_ip r) (Rng.src_ip_min r) (Rng.src_ip_max r) (Rng.src_ip_inc r) ++ [] ::
  four_ip Range_dst_ip (Rng.dst_ip r) (Rng.dst_ip_min r) (Rng.dst_ip_max r) (Rng.dst_ip_inc r) ++ [] ::
  (if Rng.ip_proto r =? PG_IPPROTO_UDP then does (Range_set_proto "udp")
   else if Rng.ip_proto r =? PG_IPPROTO_ICMP then [] else does (Range_set_proto "tcp")) :: [] ::
  four_meaning Range_src_port (Rng.src_port r) (Rng.src_port_min r) (Rng.src_port_max r) (Rng.src_port_inc r) ++ [] ::
  four_meaning Range_dst_port (Rng.dst_port r) (Rng.dst_port_min r) (Rng.dst_port_max r) (Rng.dst_port_inc r) ++ [] ::
  four_meaning Range_ttl (Rng.ttl r) (Rng.ttl_min r) (Rng.ttl_max r) (Rng.ttl_inc r) ++ [] ::
  four_meaning Range_vlan (Rng.vlan_id r) (Rng.vlan_id_min r) (Rng.vlan_id_max r) (Rng.vlan_id_inc r) ++ [] ::
  four_meaning Range_cos (Rng.cos r) (Rng.cos_min r) (Rng.cos_max r) (Rng.cos_inc r) ++ [] ::
  four_meaning Range_tos (Rng.tos r) (Rng.tos_min r) (Rng.tos_max r) (Rng.tos_inc r) ++
  does (Set_gre_key (Pkt.gre_key (Info.seq_pkt info SINGLE_PKT))) :: [] ::
  four_meaning Range_size (size (Rng.pkt_size r)) (size (Rng.pkt_size_min r)) (size (Rng.pkt_size_max r))
    (Rng.pkt_size_inc r) ++ [[]].

(** Three of the rates are read from the wrong word. *)
Definition rate_meaning (info : port_info_t) : list (list step) :=
  let r := Info.rate info in
  [does (Rate_value "fps" (Rate.fps r)); does (Rate_value "lines" (Rate.vlines r)); does (Rate_value "pixels" (Rate.pixels r));
   does (Rate_value "color" 0); does (Rate_value "overhead" 0); []; does (Rate_value "mbps" (Rate.overhead r))].

(** Only IPv4 and IPv6 packets, and no ICMP in IPv6, are read back. *)
Definition seq_meaning (info : port_info_t) (j : Z) : list step :=
  let p := Info.seq_pkt info j in
  let reads type := does (Seq j (Pkt.eth_dst_addr p) (Pkt.eth_src_addr p) (mk_ipaddr (htonl (Pkt.ip_dst_addr p)) 0)
    (mk_ipaddr (htonl (Pkt.ip_src_addr p)) (Inet.mask_size (Pkt.ip_mask p))) (Pkt.sport p) (Pkt.dport p) type
    (chr (proto_word (Pkt.ipProto p)) 0) (Pkt.vlanid p) (Pkt.pktSize p + PG_ETHER_CRC_LEN) (Pkt.gtpu_teid p)) in
  if Pkt.ethType p =? PG_ETHER_TYPE_IPv4 then reads "4"%char
  else if Pkt.ethType p =? PG_ETHER_TYPE_IPv6 then
    if Pkt.ipProto p =? PG_IPPROTO_ICMP then [] else reads "6"%char
  else [].
Definition seqs_meaning (info : port_info_t) : list (list step) :=
  does (Set_seq_cnt (Info.seqCnt info)) :: (seq_meaning info <$> seqZ 0 (Info.seqCnt info)).

Definition rnd_meaning (rnd : rnd_bits_t) : list (list step) :=
  if active_specs rnd =? 0 then []
  else [[]; []] ++
    omap (λ j, bf ← specs rnd !! Z.to_nat j;
               if Z.land (active_specs rnd) (u32 (Z.shiftl 1 j)) =? 0 then None
               else Some (acts (λ _, Random j (RandomBits.offset bf) (convert_bitfield bf))))
         (seqZ 0 MAX_RND_BITFIELDS) ++ [[]].

(** Comments and blank lines mean nothing. *)
Definition port_meaning (info : port_info_t) (rnd : rnd_bits_t) : list (list step) :=
  replicate 6 [] ++ primary_meaning info ++ [[]; []] ++ flag_meaning info ++ [[]; []] ++ range_meaning info ++
  [[]; []] ++ rate_meaning info ++ [[]; []] ++ seqs_meaning info ++
  match Info.pcap info with Some _ => replicate 4 [] | None => [] end ++ [[]] ++ rnd_meaning rnd.
End Meaning.

(** ** Reading the lines *)

Section Reads.
Context `{Env}.

Definition reads (l : list Z) (ss : list step) : Prop :=
  cli_execute 2 l = Ok ss ∨ (cli_execute 2 l = Refused ∧ ss = []).

Lemma run_steps_app a b c : run_steps (a ++ b) c = (c ← run_steps a c; run_steps b c).
Proof. revert c. induction a as [|s a IH]; intros c; [done|]. cbn. destruct (run_step s c); cbn; [apply IH|done]. Qed.

(** Lines that are read as steps do these steps, one line after the other. *)
Lemma run_reads ls sss c : Forall2 reads ls sss → run_lines ls c = defined_as (run_steps (mjoin sss) c).
Proof.
  intros HF. revert c. induction HF as [|l ss ls sss Hl HF IH]; intros c; [done|].
  cbn [run_lines]. change (mjoin (ss :: sss)) with (ss ++ mjoin sss). rewrite run_steps_app. unfold run_line.
  destruct Hl as [-> | [-> ->]]; cbn [mbind res_bind option_bind run_steps]; [|apply IH].
  destruct (run_steps ss c) as [c'|]; cbn [defined_as mbind option_bind]; [apply IH|done].
Qed.

Lemma reads_blank : reads [] [].
Proof. by left. Qed.

Lemma reads_comment l : reads (35 :: l) [].
Proof. left. cbn [cli_execute]. by destruct (strtrim_first 35 l) as [l' ->]. Qed.

Definition fits (args : list (list Z)) : Prop := Forall wordy args ∧ lt (length args) 64.

(** What the handler gives is what the line is read as. *)
Definition understood (l : list Z) (r : res (list step)) : Prop :=
  match r with Ok ss => reads l ss | Refused => reads l [] | Undef => True end.

Lemma reads_words name args f r :
  wordy name → starts_line name →
  assoc name alias_table = None → assoc name command_table = Some f →
  fits args → f (name :: args) = r →
  understood (ln (name :: args)) r.
Proof.
  intros Hn Hc Ha Hf [Hw Hl] E. pose proof (execute_ln 1 name args f Hn Hw Hl Hc Ha Hf) as Ex. rewrite E in Ex.
  destruct r; [by left|by right|done].
Qed.

#[local] Ltac handler f :=
  intros Hf E; apply (reads_words _ _ f _) in E;
    [exact E|by apply wordy_chars|by apply (bool_decide_unpack _)|reflexivity|reflexivity|exact Hf].

Lemma reads_set args r : fits args → set_cmd (str "set" :: args) = r →
  understood (ln (str "set" :: args)) r.
Proof. handler set_cmd. Qed.
Lemma reads_range args r : fits args → range_cmd (str "range" :: args) = r →
  understood (ln (str "range" :: args)) r.
Proof. handler range_cmd. Qed.
Lemma reads_rate args r : fits args → rate_cmd (str "rate" :: args) = r →
  understood (ln (str "rate" :: args)) r.
Proof. handler rate_cmd. Qed.
Lemma reads_able (on : bool) args r : fits args → en_dis_cmd (able on :: args) = r →
  understood (ln (able on :: args)) r.
Proof. destruct on; handler en_dis_cmd. Qed.
End Reads.

Section Port.
Context `{Env} `{Texts} (i : Z) (Hi : 0 ≤ i < 64) (info : port_info_t) (Hs : saveable i info).

Lemma port_i : port_word (dec i) ∧ portlist_of (dec i) = 2 ^ i ∧ wordy (dec i).
Proof using Hi.
  rewrite dec_show by lia. split_and!; [apply digit_port, show_digit_first; lia|by apply portlist_of_show|apply show_wordy; lia].
Qed.

(** *** Values of number words *)
Lemma atoi_w_dec w n : 0 ≤ n < 2 ^ 31 → in_word w n → atoi_w w (dec n) = n.
Proof using. intros Hn Hw. rewrite dec_show by lia. by apply atoi_w_show. Qed.
Lemma atoi_w_dec_l n : 0 ≤ n < 2 ^ 63 → atoi_w 32 (dec_l n) = u32 n.
Proof using.
  intros Hn. unfold dec_l. rewrite (wrap_small 64) by (unfold in_word; lia). unfold atoi_w, CliMap.atoi.
  rewrite strtol_of_show by lia. replace (Z.min (2 ^ 63 - 1) n) with n by lia. unfold wrap, swrap.
  change (2 ^ (32 - 1)) with (2 ^ 31). rewrite Zminus_mod_idemp_l. f_equal. lia.
Qed.
Lemma atoi_w32_dec v : in_word 16 v → atoi_w 32 (dec v) = v.
Proof using. unfold in_word. intros Hv. apply atoi_w_dec; [lia|]. unfold in_word. lia. Qed.
Lemma valid_pkt_size_dec n : 64 ≤ n ≤ 1518 → valid_pkt_size (dec n) = n.
Proof using.
  intros Hn. unfold valid_pkt_size. rewrite dec_show, atoi_show by lia. rewrite wrap_small by (unfold in_word; lia).
  unfold MIN_PKT_SIZE, MAX_PKT_SIZE, PG_ETHER_MIN_LEN, PG_ETHER_MAX_LEN, PG_ETHER_CRC_LEN.
  destruct (Z.ltb_spec n (64 - 4 + 4)); [lia|]. cbn zeta. by destruct (Z.ltb_spec (1518 - 4 + 4) n); [lia|].
Qed.

#[local] Ltac fits :=
  split; [repeat (apply Forall_cons; split); [..|constructor]|cbn [length]; lia];
    first [assumption|by apply wordy_chars|apply port_i|apply dec_wordy; lia|apply mtoa_word|apply ntop4_mask_word|idtac].

Lemma set_line name idx n c : wordy n → number_word n →
  In (name, idx) [("count", 0); ("size", 1); ("rate", 2); ("burst", 3); ("sport", 5); ("dport", 6); ("prime", 7);
                  ("vlan", 9); ("seq_cnt", 11)]%string →
  set_number idx (str name) n = Ok [c] → reads (ln [str "set"; dec i; str name; n]) (does i c).
Proof using Hi.
  intros Hw Hn Hin E. destruct port_i as (Hp & Epl & Hwp).
  apply (reads_set [dec i; str name; n] (Ok _)).
  - fits. repeat destruct Hin as [[= <- _]|Hin]; try (by apply wordy_chars).
  - rewrite (set_number_words (dec i) Hp n name idx Hn Hin), Epl, E. done.
Qed.

Lemma able_line (on : bool) name f :
  In (name, f) [("process", Enable_process); ("mpls", Enable_mpls); ("qinq", Enable_qinq); ("gre", Enable_gre);
    ("gre_eth", Enable_gre_eth); ("vlan", Enable_vlan); ("latency", Enable_latency); ("pcap", Enable_pcap);
    ("icmp", Enable_icmp_echo); ("range", Enable_range); ("vxlan", Enable_vxlan); ("rate", Enable_rate)]%string →
  reads (ln [able on; dec i; str name]) (does i (f (if on then ENABLE_STATE else DISABLE_STATE))).
Proof using Hi.
  intros Hin. destruct port_i as (Hp & Epl & Hwp). apply (reads_able on [dec i; str name] (Ok _)).
  - fits. repeat destruct Hin as [[= <- _]|Hin]; try (by apply wordy_chars).
  - by rewrite (able_words (dec i) Hp on name f Hin), Epl.
Qed.

Lemma mac_line which m : In which ["dst"; "src"]%string → in_word 48 m →
  reads (ln [str "set"; dec i; str which; str "mac"; mtoa m]) (does i (Set_mac which m)).
Proof using Hi.
  intros Hin Hm. destruct port_i as (Hp & Epl & Hwp). apply (reads_set [dec i; str which; str "mac"; mtoa m] (Ok _)).
  - fits. repeat destruct Hin as [<-|Hin]; try (by apply wordy_chars).
  - destruct (mtoa_word m) as [_ Ha]. by rewrite (set_mac_words (dec i) Hp (mtoa m) which Ha Hin), with_mac_mtoa, Epl.
Qed.

Lemma ip_lines a b m : in_word 32 a → in_word 32 b →
  reads (ln [str "set"; dec i; str "dst"; str "ip"; inet_ntop4 a 0xFFFFFFFF]) (does i (Set_ipaddr "d" (mk_ipaddr a 0))) ∧
  reads (ln [str "set"; dec i; str "src"; str "ip"; inet_ntop4 b m]) (does i (Set_ipaddr "s" (mk_ipaddr b (Inet.mask_size m)))).
Proof using Hi.
  intros Ha Hb. destruct port_i as (Hp & Epl & Hwp).
  split; [apply (reads_set [dec i; str "dst"; str "ip"; inet_ntop4 a 0xFFFFFFFF] (Ok _)); [fits|]
         |apply (reads_set [dec i; str "src"; str "ip"; inet_ntop4 b m] (Ok _)); [fits|]].
  - destruct (set_ip_words (dec i) Hp (inet_ntop4 a 0xFFFFFFFF)) as [-> _]; [by apply digit_address, ntop4_word|].
    by rewrite dst_ip_ntop4, Epl.
  - destruct (set_ip_words (dec i) Hp (inet_ntop4 b m)) as [_ ->]; [by apply digit_address, ntop4_mask_word|].
    by rewrite src_ip_ntop4, Epl.
Qed.

Lemma type_line e :
  reads (ln [str "set"; dec i; str "type"; type_name e (str "vlan") (if e =? PG_ETHER_TYPE_ARP then str "arp" else str "unknown")])
    (type_meaning i e).
Proof using Hi.
  destruct port_i as (Hp & Epl & Hwp). unfold type_name, type_meaning.
  assert (∀ name, In name ["ipv4"; "ipv6"; "vlan"; "arp"]%string → wordy (str name) →
    reads (ln [str "set"; dec i; str "type"; str name]) (does i (Set_pkt_type name))) as Hname.
  { intros name Hin Hw. apply (reads_set [dec i; str "type"; str name] (Ok _)); [fits|].
    by rewrite (set_type_words (dec i) Hp name Hin), Epl. }
  destruct (e =? PG_ETHER_TYPE_IPv4); [apply Hname; [cbn; tauto|by apply wordy_chars]|].
  destruct (e =? PG_ETHER_TYPE_IPv6); [apply Hname; [cbn; tauto|by apply wordy_chars]|].
  destruct (e =? PG_ETHER_TYPE_VLAN); [apply Hname; [cbn; tauto|by apply wordy_chars]|].
  destruct (e =? PG_ETHER_TYPE_ARP); [apply Hname; [cbn; tauto|by apply wordy_chars]|].
  cbv iota. pose proof (set_type_unknown (dec i) Hp) as E.
  assert (fits [dec i; str "type"; str "unknown"]) as Hf by fits.
  pose proof (reads_set _ _ Hf E) as Hr. exact Hr.
Qed.

Lemma proto_line p : reads (ln [str "set"; dec i; str "proto"; proto_name p]) (does i (Set_proto (proto_word p))).
Proof using Hi.
  destruct port_i as (Hp & Epl & Hwp). unfold proto_name, proto_word.
  assert (∀ name, In name ["tcp"; "icmp"; "udp"]%string → wordy (str name) →
    reads (ln [str "set"; dec i; str "proto"; str name]) (does i (Set_proto name))) as Hname.
  { intros name Hin Hw. apply (reads_set [dec i; str "proto"; str name] (Ok _)); [fits|].
    by rewrite (set_proto_words (dec i) Hp name Hin), Epl. }
  destruct (p =? PG_IPPROTO_TCP); [apply Hname; [cbn; tauto|by apply wordy_chars]|].
  destruct (p =? PG_IPPROTO_ICMP); [apply Hname; [cbn; tauto|by apply wordy_chars]|].
  apply Hname; [cbn; tauto|by apply wordy_chars].
Qed.

Lemma pattern_line t : reads (ln [str "set"; dec i; str "pattern"; pattern_name t]) (does i (Set_pattern (pattern_word t))).
Proof using Hi.
  destruct port_i as (Hp & Epl & Hwp).
  assert (In (pattern_word t) ["abc"; "none"; "zero"; "user"]%string) as Hin by (destruct t; cbn; tauto).
  assert (pattern_name t = str (pattern_word t)) as -> by by destruct t.
  apply (reads_set [dec i; str "pattern"; str (pattern_word t)] (Ok _)).
  - fits. by destruct t; apply wordy_chars.
  - by rewrite (set_pattern_words (dec i) Hp _ Hin), Epl.
Qed.

(** The pattern is one word. *)
Lemma user_line u : wordy u → string_word u →
  reads (ln [str "set"; dec i; str "user"; str "pattern"; u]) (does i (Set_user_pattern "pattern")).
Proof using Hi.
  intros Hw Hu. destruct port_i as (Hp & Epl & Hwp). apply (reads_set [dec i; str "user"; str "pattern"; u] (Ok _)); [fits|].
  rewrite set_user_pattern_word by done. unfold sets. by rewrite Epl.
Qed.

Lemma jitter_line n : in_word 64 n → reads (ln [str "set"; dec i; str "jitter"; dec_l n]) (does i (Set_jitter timer_hz n)).
Proof using Hi.
  intros Hn. destruct port_i as (Hp & Epl & Hwp). unfold dec_l. rewrite wrap_small by done. unfold in_word in Hn.
  assert (digit_first (show n)) as Hd by (apply show_digit_first; lia).
  apply (reads_set [dec i; str "jitter"; show n] (Ok _)); [fits; apply show_wordy; lia|].
  rewrite (set_jitter_words (dec i) Hp (show n)), Epl by (by apply digit_number || by apply digit_first_valid).
  by rewrite strtoul0_show.
Qed.

Lemma mpls_line n : in_word 32 n →
  reads (ln [str "range"; dec i; str "mpls"; str "entry"; str "0x" ++ hex n]) (does i (Set_mpls n)).
Proof using Hi.
  intros Hn. destruct port_i as (Hp & Epl & Hwp). fold (hex_word_of n). unfold in_word in Hn.
  destruct (hex_word_of_word n) as [Hw Ha]; [lia|].
  apply (reads_range [dec i; str "mpls"; str "entry"; hex_word_of n] (Ok _)); [fits|].
  rewrite (range_mpls_words (dec i) Hp _ Ha), Epl, strtoul16_hex by lia. by rewrite wrap_small.
Qed.

Lemma qinqids_line a b : in_word 16 a → in_word 16 b →
  reads (ln [str "set"; dec i; str "qinqids"; dec a; dec b]) (does i (Set_qinq a b)).
Proof using Hi.
  intros Ha Hb. destruct port_i as (Hp & Epl & Hwp). unfold in_word in Ha, Hb.
  apply (reads_set [dec i; str "qinqids"; dec a; dec b] (Ok _)); [fits|].
  rewrite (set_qinqids_words (dec i) Hp) by (apply dec_number; lia). rewrite Epl, !dec_show, !strtol0_show by lia.
  by rewrite !wrap_small by done.
Qed.

Lemma vxlan_line f gid vid : in_word 16 f → in_word 16 gid → in_word 32 vid →
  reads (ln [str "set"; dec i; str "vxlan"; str "0x" ++ hex f; dec gid; dec_u vid]) (does i (Set_vxlan f gid vid)).
Proof using Hi.
  intros Hf Hg Hv. destruct port_i as (Hp & Epl & Hwp). fold (hex_word_of f).
  assert (0 ≤ f < 2 ^ 16 ∧ 0 ≤ gid < 2 ^ 16) as [Hf' Hg'] by done.
  destruct (hex_word_of_word f) as [Hw Ha]; [lia|]. destruct (swrap_back vid Hv) as [Hr _].
  apply (reads_set [dec i; str "vxlan"; hex_word_of f; dec gid; dec_u vid] (Ok _)); [fits|].
  rewrite (set_vxlan_words (dec i) Hp) by (done || (apply dec_number; lia)).
  rewrite Epl, strtol0_hex, dec_show, strtol0_show, dec_u_signed by (done || lia). by rewrite !wrap_small by done.
Qed.

Lemma gre_line k : in_word 32 k → reads (ln [str "range"; dec i; str "gre"; str "key"; dec_u k]) (does i (Set_gre_key k)).
Proof using Hi.
  intros Hk. destruct port_i as (Hp & Epl & Hwp). destruct (swrap_back k Hk) as [Hr _].
  apply (reads_range [dec i; str "gre"; str "key"; dec_u k] (Ok _)); [fits|].
  rewrite (range_gre_words (dec i) Hp) by (apply dec_number; lia). by rewrite Epl, dec_u_unsigned.
Qed.

(** *** Ranges *)
Lemma what_wordy w : In w whats → wordy (str w).
Proof using. intros Hw. repeat destruct Hw as [<-|Hw]; try (by apply wordy_chars). Qed.

Lemma range_mac_line w m : In w whats → in_word 48 m →
  reads (ln [str "range"; dec i; str "src"; str "mac"; str w; mtoa m]) (does i (Range_src_mac w m)) ∧
  reads (ln [str "range"; dec i; str "dst"; str "mac"; str w; mtoa m]) (does i (Range_dst_mac w m)).
Proof using Hi.
  intros Hw Hm. destruct port_i as (Hp & Epl & Hwp). pose proof (what_wordy w Hw). destruct (mtoa_word m) as [_ Ha].
  destruct (range_mac_words (dec i) Hp w (mtoa m) Hw Ha) as [Ed Es].
  rewrite with_mac_mtoa, Epl in Ed, Es by done.
  split; [apply (reads_range [dec i; str "src"; str "mac"; str w; mtoa m] (Ok _))|
          apply (reads_range [dec i; str "dst"; str "mac"; str w; mtoa m] (Ok _))]; first [fits|done].
Qed.

Lemma range_ip_line w a : In w whats → in_word 32 a →
  reads (ln [str "range"; dec i; str "src"; str "ip"; str w; inet_ntop4 a 0xFFFFFFFF]) (does i (Range_src_ip w (mk_ipaddr a 0))) ∧
  reads (ln [str "range"; dec i; str "dst"; str "ip"; str w; inet_ntop4 a 0xFFFFFFFF]) (does i (Range_dst_ip w (mk_ipaddr a 0))).
Proof using Hi.
  intros Hw Ha. destruct port_i as (Hp & Epl & Hwp). pose proof (what_wordy w Hw).
  destruct (range_ip_words (dec i) Hp w (inet_ntop4 a 0xFFFFFFFF) Hw) as [Ed Es]; [by apply digit_address, ntop4_word|].
  rewrite atoip_ntop4, Epl in Ed, Es by done.
  split; [apply (reads_range [dec i; str "src"; str "ip"; str w; inet_ntop4 a 0xFFFFFFFF] (Ok _))|
          apply (reads_range [dec i; str "dst"; str "ip"; str w; inet_ntop4 a 0xFFFFFFFF] (Ok _))]; first [fits|done].
Qed.

Lemma range_port_line w v : In w whats → in_word 16 v →
  reads (ln [str "range"; dec i; str "src"; str "port"; str w; dec v]) (does i (Range_src_port w v)) ∧
  reads (ln [str "range"; dec i; str "dst"; str "port"; str w; dec v]) (does i (Range_dst_port w v)).
Proof using Hi.
  intros Hw Hv. destruct port_i as (Hp & Epl & Hwp). pose proof (what_wordy w Hw). assert (0 ≤ v < 2 ^ 16) as Hv' by done.
  destruct (range_port_words (dec i) Hp w (dec v) Hw) as [Ed Es]; [apply dec_number; lia|].
  rewrite atoi_w_dec, Epl in Ed, Es by (done || lia).
  split; [apply (reads_range [dec i; str "src"; str "port"; str w; dec v] (Ok _))|
          apply (reads_range [dec i; str "dst"; str "port"; str w; dec v] (Ok _))]; first [fits|done].
Qed.

Lemma range_number_line w v name f : In w whats → 0 ≤ v < 2 ^ 31 →
  In (name, f) [("ttl", λ w, Range_ttl w (atoi_w 8 (dec v))); ("vlan", λ w, Range_vlan w (atoi_w 16 (dec v)));
                ("cos", λ w, Range_cos w (atoi_w 8 (dec v))); ("tos", λ w, Range_tos w (atoi_w 8 (dec v)));
                ("size", λ w, Range_size w (u16 (if pg_strmatch (str w) (str "inc") then CliMap.atoi (dec v) else valid_pkt_size (dec v))))]%string →
  reads (ln [str "range"; dec i; str name; str w; dec v]) (does i (f w)).
Proof using Hi.
  intros Hw Hv Hin. destruct port_i as (Hp & Epl & Hwp). pose proof (what_wordy w Hw).
  apply (reads_range [dec i; str name; str w; dec v] (Ok _)).
  - fits. repeat destruct Hin as [[= <- _]|Hin]; try (by apply wordy_chars).
  - rewrite (range_number_words (dec i) Hp w (dec v) name f Hw), Epl; [done|apply dec_number; lia|apply dec_byte; lia|exact Hin].
Qed.

Lemma range_small_line w v : In w whats →
  (in_word 8 v → reads (ln [str "range"; dec i; str "ttl"; str w; dec v]) (does i (Range_ttl w v)) ∧
     reads (ln [str "range"; dec i; str "cos"; str w; dec v]) (does i (Range_cos w v)) ∧
     reads (ln [str "range"; dec i; str "tos"; str w; dec v]) (does i (Range_tos w v))) ∧
  (in_word 16 v → reads (ln [str "range"; dec i; str "vlan"; str w; dec v]) (does i (Range_vlan w v))).
Proof using Hi.
  intros Hw. split; intros Hv; assert (0 ≤ v < 2 ^ 31) as Hv' by (unfold in_word in Hv; lia).
  - pose proof (atoi_w_dec 8 v Hv' Hv) as E.
    pose proof (range_number_line w v "ttl" _ Hw Hv' ltac:(left; reflexivity)) as H1.
    pose proof (range_number_line w v "cos" _ Hw Hv' ltac:(right; right; left; reflexivity)) as H2.
    pose proof (range_number_line w v "tos" _ Hw Hv' ltac:(right; right; right; left; reflexivity)) as H3.
    cbn beta in H1, H2, H3. rewrite E in H1, H2, H3. done.
  - pose proof (range_number_line w v "vlan" _ Hw Hv' ltac:(right; left; reflexivity)) as H1.
    cbn beta in H1. by rewrite atoi_w_dec in H1.
Qed.

Lemma range_size_line v :
  (size_fits v → ∀ w, In w ["start"; "min"; "max"]%string →
     reads (ln [str "range"; dec i; str "size"; str w; dec (v + PG_ETHER_CRC_LEN)]) (does i (Range_size w (v + PG_ETHER_CRC_LEN)))) ∧
  (in_word 16 v → reads (ln [str "range"; dec i; str "size"; str "inc"; dec v]) (does i (Range_size "inc" v))).
Proof using Hi.
  split; intros Hv.
  - intros w Hw. assert (In w whats) as Hw' by (cbn in *; tauto).
    unfold size_fits, MIN_PKT_SIZE, MAX_PKT_SIZE, PG_ETHER_MIN_LEN, PG_ETHER_MAX_LEN in Hv. unfold PG_ETHER_CRC_LEN in *.
    pose proof (range_number_line w (v + 4) "size" _ Hw' ltac:(lia) ltac:(right; right; right; right; left; reflexivity)) as H1.
    cbn beta in H1. rewrite valid_pkt_size_dec in H1 by lia.
    replace (pg_strmatch (str w) (str "inc")) with false in H1 by (by repeat destruct Hw as [<-|Hw]).
    rewrite wrap_small in H1 by (unfold in_word; lia). exact H1.
  - assert (0 ≤ v < 2 ^ 16) as Hv' by done.
    pose proof (range_number_line "inc" v "size" _ ltac:(cbn; tauto) ltac:(lia) ltac:(right; right; right; right; left; reflexivity)) as H1.
    cbn beta in H1. change (pg_strmatch (str "inc") (str "inc")) with true in H1. cbv iota in H1.
    assert (CliMap.atoi (dec v) = v) as E by (rewrite dec_show by lia; apply atoi_show; lia).
    by rewrite E, wrap_small in H1.
Qed.

Lemma range_proto_line p : reads (ln [str "range"; dec i; str "proto"; range_proto_name p])
  (if p =? PG_IPPROTO_UDP then does i (Range_set_proto "udp")
   else if p =? PG_IPPROTO_ICMP then [] else does i (Range_set_proto "tcp")).
Proof using Hi.
  destruct port_i as (Hp & Epl & Hwp). unfold range_proto_name.
  assert (∀ name, In name ["tcp"; "icmp"; "udp"]%string → wordy (str name) →
    understood (ln [str "range"; dec i; str "proto"; str name])
      (if String.eqb name "icmp" then Refused else each (2 ^ i) (Ok [Range_set_proto name]))) as Hname.
  { intros name Hin Hw. apply reads_range; [fits|]. by rewrite (range_proto_words (dec i) Hp name Hin), Epl. }
  destruct (p =? PG_IPPROTO_UDP); [exact (Hname "udp"%string ltac:(cbn; tauto) ltac:(by apply wordy_chars))|].
  destruct (p =? PG_IPPROTO_ICMP); [exact (Hname "icmp"%string ltac:(cbn; tauto) ltac:(by apply wordy_chars))|].
  exact (Hname "tcp"%string ltac:(cbn; tauto) ltac:(by apply wordy_chars)).
Qed.

(** *** Groups of lines *)
#[local] Ltac widths :=
  repeat match goal with
  | H : Forall _ (_ :: _) |- _ => apply Forall_cons in H as [? H]
  | H : Forall _ [] |- _ => clear H
  end.
#[local] Ltac fit_all := repeat (apply Forall_cons; split; [assumption|]); constructor.
#[local] Ltac lines := repeat (apply Forall2_cons; split).

Lemma four_lines_read (P : Z → Prop) name f pr a b c d :
  (∀ w v, In w whats → P v → reads (ln (str "range" :: dec i :: name ++ [str w; pr v])) (does i (f w v))) →
  Forall P [a; b; c; d] →
  Forall2 reads (four_lines i name (pr a) (pr b) (pr c) (pr d)) (four_meaning i f a b c d).
Proof using Hi.
  intros Hw HP. widths. unfold four_lines, four_meaning.
  repeat (apply Forall2_cons; split); [apply Hw; [cbn; tauto|assumption]..|constructor].
Qed.

Lemma read_primary : Forall2 reads (primary_lines i info) (primary_meaning i info).
Proof using Hi Hs.
  destruct Hs as [Epid Hc Hj H16 Hsq Hr Hp Hsz _ _ Hu]. destruct (Hp SINGLE_PKT) as [P48 P32 P16].
  unfold size_fits in Hsz. unfold primary_lines, primary_meaning. rewrite Epid. set (pkt := Info.seq_pkt info SINGLE_PKT) in *.
  widths. unfold MIN_PKT_SIZE, MAX_PKT_SIZE, PG_ETHER_MIN_LEN, PG_ETHER_MAX_LEN in Hsz.
  assert (∀ v, in_word 16 v → 0 ≤ v < 2 ^ 31) as H31 by (intros v Hv; unfold in_word in Hv; lia).
  assert (∀ name idx v c, in_word 16 v → In (name, idx) [("count", 0); ("size", 1); ("rate", 2); ("burst", 3); ("sport", 5);
      ("dport", 6); ("prime", 7); ("vlan", 9); ("seq_cnt", 11)]%string →
    set_number idx (str name) (dec v) = Ok [c] → reads (ln [str "set"; dec i; str name; dec v]) (does i c)) as Hset.
  { intros name idx v c Hv Hin E. pose proof (H31 v Hv).
    apply (set_line name idx); [apply dec_wordy; lia|apply dec_number; lia|exact Hin|exact E]. }
  apply Forall2_app; [lines; [..|constructor]|apply Forall2_app].
  - apply (set_line "count" 0); [unfold dec_l; rewrite wrap_small by (unfold in_word; lia); apply show_wordy; lia| |cbn; tauto|].
    + unfold dec_l. rewrite wrap_small by (unfold in_word; lia). apply digit_number, show_digit_first. lia.
    + unfold set_number. cbv zeta. by rewrite atoi_w_dec_l.
  - apply (set_line "size" 1); [apply dec_wordy; unfold PG_ETHER_CRC_LEN in *; lia|apply dec_number; unfold PG_ETHER_CRC_LEN in *; lia|cbn; tauto|].
    unfold set_number. rewrite valid_pkt_size_dec by (unfold PG_ETHER_CRC_LEN in *; lia). done.
  - destruct Hr as [Hw Hn]. apply (set_line "rate" 2); [exact Hw|exact Hn|cbn; tauto|done].
  - apply (Hset "burst"%string 3); [done|cbn; tauto|]. unfold set_number. cbv zeta. by rewrite atoi_w32_dec.
  - apply (Hset "sport"%string 5); [done|cbn; tauto|]. unfold set_number. cbv zeta. by rewrite atoi_w32_dec.
  - apply (Hset "dport"%string 6); [done|cbn; tauto|]. unfold set_number. cbv zeta. by rewrite atoi_w32_dec.
  - apply (Hset "prime"%string 7); [done|cbn; tauto|]. unfold set_number. cbv zeta. by rewrite atoi_w32_dec.
  - apply type_line.
  - apply proto_line.
  - apply (ip_lines (ntohl (Pkt.ip_dst_addr pkt)) (ntohl (Pkt.ip_dst_addr pkt)) 0); apply bswap32_range.
  - apply (ip_lines (ntohl (Pkt.ip_src_addr pkt)) (ntohl (Pkt.ip_src_addr pkt)) (Pkt.ip_mask pkt)); apply bswap32_range.
  - apply mac_line; [cbn; tauto|done].
  - apply mac_line; [cbn; tauto|done].
  - apply (Hset "vlan"%string 9); [done|cbn; tauto|]. unfold set_number. cbv zeta. by rewrite atoi_w32_dec, wrap_small.
  - apply reads_blank.
  - apply pattern_line.
  - cbv zeta in Hu |- *. destruct (Info.fill_pattern_type info); try constructor.
    destruct (cstring 16 (Info.user_pattern info)) as [|c u]; [constructor|]. destruct Hu as [Hu|[Hu Hst]]; [done|].
    lines; [by apply user_line|constructor].
  - lines; [..|constructor].
    + apply reads_blank.
    + by apply jitter_line.
    + apply (able_line _ "mpls" Enable_mpls). cbn; tauto.
    + by apply mpls_line.
    + apply (able_line _ "qinq" Enable_qinq). cbn; tauto.
    + by apply qinqids_line.
    + apply (able_line _ "gre" Enable_gre). cbn; tauto.
    + apply (able_line _ "gre_eth" Enable_gre_eth). cbn; tauto.
    + apply (able_line _ "vxlan" Enable_vxlan). cbn; tauto.
    + by apply vxlan_line.
Qed.

Lemma read_flags : Forall2 reads (flag_lines i info) (flag_meaning i info).
Proof using Hi Hs.
  destruct port_i as (Hp & Epl & Hwp). unfold flag_lines, flag_meaning. set (flags := Info.port_flags info).
  assert (∀ f name ss, wordy (str name) → en_dis_cmd [able (tst_bits flags f); dec i; str name] = Ok ss →
    reads (ln [on_off flags f; dec i; str name]) ss) as Hable.
  { intros f name ss Hw E. assert (fits [dec i; str name]) as Hf by fits. pose proof (reads_able _ _ _ Hf E) as Hr. exact Hr. }
  lines; [..|constructor].
  - apply (able_line _ "icmp" Enable_icmp_echo). cbn; tauto.
  - apply (able_line _ "pcap" Enable_pcap). cbn; tauto.
  - apply (able_line _ "range" Enable_range). cbn; tauto.
  - apply (able_line _ "latency" Enable_latency). cbn; tauto.
  - apply (able_line _ "process" Enable_process). cbn; tauto.
  - apply (Hable CAPTURE_PKTS "capture"%string); [by apply wordy_chars|].
    destruct (able_tap_words (dec i) Hp (tst_bits flags CAPTURE_PKTS)) as (_ & _ & ->). by rewrite Epl.
  - apply (Hable PROCESS_RX_TAP_PKTS "rx_tap"%string); [by apply wordy_chars|].
    destruct (able_tap_words (dec i) Hp (tst_bits flags PROCESS_RX_TAP_PKTS)) as (-> & _ & _). by rewrite Epl.
  - apply (Hable PROCESS_TX_TAP_PKTS "tx_tap"%string); [by apply wordy_chars|].
    destruct (able_tap_words (dec i) Hp (tst_bits flags PROCESS_TX_TAP_PKTS)) as (_ & -> & _). by rewrite Epl.
  - apply (able_line _ "vlan" Enable_vlan). cbn; tauto.
  - apply (able_line _ "rate" Enable_rate). cbn; tauto.
  - apply reads_blank.
Qed.

Lemma read_range : Forall2 reads (range_lines i info) (range_meaning i info).
Proof using Hi Hs.
  destruct Hs as [_ _ _ _ _ _ Hp _ [R48 R32 R16 R8 Rsz] _ _]. destruct (Hp SINGLE_PKT) as [_ P32 _].
  set (r := Info.range info) in *. unfold range_lines, range_meaning. cbv zeta. fold r.
  assert (∀ a b c d, Forall (in_word 32) [a; b; c; d] →
    Forall2 reads (four_lines i [str "src"; str "ip"] (ip4 a) (ip4 b) (ip4 c) (ip4 d)) (four_ip i Range_src_ip a b c d) ∧
    Forall2 reads (four_lines i [str "dst"; str "ip"] (ip4 a) (ip4 b) (ip4 c) (ip4 d)) (four_ip i Range_dst_ip a b c d)) as Hip.
  { intros a b c d HF.
    split; apply (four_lines_read (in_word 32)); [|exact HF| |exact HF]; intros w v Hw _;
      destruct (range_ip_line w (ntohl v) Hw (bswap32_range v)) as [E1 E2]; [exact E1|exact E2]. }
  assert (∀ l ss, Forall2 reads l ss → Forall2 reads ([] :: l) ([] :: ss)) as Hblank
    by (intros l ss HF; apply Forall2_cons; split; [apply reads_blank|exact HF]).
  widths.
  apply Forall2_app; [apply (four_lines_read (in_word 48)); [intros w v Hw Hv; exact (proj1 (range_mac_line w v Hw Hv))|fit_all]|].
  apply Hblank, Forall2_app; [apply (four_lines_read (in_word 48)); [intros w v Hw Hv; exact (proj2 (range_mac_line w v Hw Hv))|fit_all]|].
  apply Hblank, Forall2_app; [apply Hip; fit_all|].
  apply Hblank, Forall2_app; [apply Hip; fit_all|].
  apply Hblank, Forall2_cons; split; [apply range_proto_line|].
  apply Hblank, Forall2_app; [apply (four_lines_read (in_word 16)); [intros w v Hw Hv; exact (proj1 (range_port_line w v Hw Hv))|fit_all]|].
  apply Hblank, Forall2_app; [apply (four_lines_read (in_word 16)); [intros w v Hw Hv; exact (proj2 (range_port_line w v Hw Hv))|fit_all]|].
  apply Hblank, Forall2_app; [apply (four_lines_read (in_word 8)); [intros w v Hw Hv; exact (proj1 (proj1 (range_small_line w v Hw) Hv))|fit_all]|].
  apply Hblank, Forall2_app; [apply (four_lines_read (in_word 16)); [intros w v Hw Hv; exact (proj2 (range_small_line w v Hw) Hv)|fit_all]|].
  apply Hblank, Forall2_app; [apply (four_lines_read (in_word 8)); [intros w v Hw Hv; exact (proj1 (proj2 (proj1 (range_small_line w v Hw) Hv)))|fit_all]|].
  apply Hblank, Forall2_app; [apply (four_lines_read (in_word 8)); [intros w v Hw Hv; exact (proj2 (proj2 (proj1 (range_small_line w v Hw) Hv)))|fit_all]|].
  apply Forall2_cons; split; [by apply gre_line|]. apply Hblank.
  apply Forall2_app; [|by apply Hblank; constructor].
  assert (∀ w v, In w ["start"; "min"; "max"]%string → size_fits v →
    reads (ln [str "range"; dec i; str "size"; str w; dec (v + PG_ETHER_CRC_LEN)]) (does i (Range_size w (v + PG_ETHER_CRC_LEN)))) as Hsize
    by (intros w v Hw Hv; exact (proj1 (range_size_line v) Hv w Hw)).
  lines; [| | | |constructor].
  - exact (Hsize "start"%string (Rng.pkt_size r) ltac:(cbn; tauto) ltac:(assumption)).
  - exact (Hsize "min"%string (Rng.pkt_size_min r) ltac:(cbn; tauto) ltac:(assumption)).
  - exact (Hsize "max"%string (Rng.pkt_size_max r) ltac:(cbn; tauto) ltac:(assumption)).
  - exact (proj2 (range_size_line (Rng.pkt_size_inc r)) ltac:(assumption)).
Qed.

Lemma rate_line name v : In name ["fps"; "lines"; "pixels"]%string → in_word 16 v →
  reads (ln [str "rate"; dec i; str name; dec v]) (does i (Rate_value name v)).
Proof using Hi.
  intros Hin Hv. destruct port_i as (Hp & Epl & Hwp). assert (0 ≤ v < 2 ^ 16) as Hv' by done.
  apply (reads_rate [dec i; str name; dec v] (Ok _)).
  - fits. repeat destruct Hin as [<-|Hin]; try (by apply wordy_chars).
  - rewrite (rate_words (dec i) Hp) by (done || (apply dec_number; lia)). by rewrite Epl, atoi_w32_dec.
Qed.

Lemma read_rate : Forall2 reads (rate_lines i info) (rate_meaning i info).
Proof using Hi Hs.
  destruct Hs as [_ _ _ _ _ _ _ _ _ Hr _]. destruct port_i as (Hp & Epl & Hwp). unfold rate_fits in Hr. widths.
  unfold rate_lines, rate_meaning. cbv zeta. set (r := Info.rate info) in *.
  assert (∀ v, in_word 16 v → wordy (dec v) ∧ number_word (dec v)) as Hn.
  { intros v Hv. assert (0 ≤ v < 2 ^ 16) as Hv' by done. split; [apply dec_wordy|apply dec_number]; lia. }
  lines; [..|constructor].
  - apply rate_line; [cbn; tauto|done].
  - apply rate_line; [cbn; tauto|done].
  - apply rate_line; [cbn; tauto|done].
  - destruct (Hn (Rate.color_bits r)) as [Hw Hd]; [done|]. apply (reads_rate [dec i; str "color"; str "bits"; dec (Rate.color_bits r)] (Ok _)); [fits|].
    rewrite rate_color by done. unfold sets. by rewrite Epl.
  - destruct (Hn (Rate.payload r)) as [Hw Hd]; [done|]. apply (reads_rate [dec i; str "payload"; str "size"; dec (Rate.payload r)] (Ok _)); [fits|].
    rewrite rate_payload by done. unfold sets. by rewrite Epl.
  - apply reads_blank.
  - destruct (Hn (Rate.overhead r)) as [Hw Hd]; [done|]. apply (reads_rate [dec i; str "overhead"; dec (Rate.overhead r)] (Ok _)); [fits|].
    rewrite rate_overhead, atoi_w32_dec by done. unfold sets. by rewrite Epl.
Qed.

(** *** Sequences *)
Lemma seq_line_read j : 0 ≤ j < NUM_SEQ_PKTS → reads (seq_line i info j) (seq_meaning i info j).
Proof using Hi Hs.
  intros Hj. destruct Hs as [_ _ _ _ _ _ Hp _ _ _ _]. destruct (Hp j) as [P48 P32 P16].
  destruct port_i as (Hpl & Epl & Hwp). unfold seq_line, seq_meaning. cbv zeta. set (p := Info.seq_pkt info j) in *.
  unfold NUM_SEQ_PKTS in Hj. widths. unfold PG_ETHER_CRC_LEN.
  assert (0 ≤ Pkt.pktSize p < 2 ^ 16) as Hsz by assumption.
  assert (∀ v, in_word 16 v → wordy (dec v) ∧ number_word (dec v)) as Hn.
  { intros v Hv. assert (0 ≤ v < 2 ^ 16) as Hv' by done. split; [apply dec_wordy|apply dec_number]; lia. }
  assert (- 2 ^ 31 ≤ swrap 32 (Pkt.gtpu_teid p) < 2 ^ 31) as Ht by by apply swrap_back.
  assert (CliMap.atoi (dec j) = j) as Ej by (rewrite dec_show by lia; apply atoi_show; lia).
  set (args type := [dec j; dec i; mtoa (Pkt.eth_dst_addr p); mtoa (Pkt.eth_src_addr p);
    inet_ntop4 (htonl (Pkt.ip_dst_addr p)) 0xFFFFFFFF; inet_ntop4 (htonl (Pkt.ip_src_addr p)) (Pkt.ip_mask p);
    dec (Pkt.sport p); dec (Pkt.dport p); type; proto_name (Pkt.ipProto p); dec (Pkt.vlanid p);
    dec (Pkt.pktSize p + 4); dec_u (Pkt.gtpu_teid p)]).
  assert (proto_name (Pkt.ipProto p) = str (proto_word (Pkt.ipProto p)) ∧
          In (proto_word (Pkt.ipProto p)) ["tcp"; "icmp"; "udp"]%string) as [Eproto Hproto].
  { unfold proto_name, proto_word. destruct (_ =? PG_IPPROTO_TCP); [cbn; tauto|].
    destruct (_ =? PG_IPPROTO_ICMP); cbn; tauto. }
  assert (wordy (proto_name (Pkt.ipProto p))) as Hwproto.
  { rewrite Eproto. repeat destruct Hproto as [<-|Hproto]; by apply wordy_chars. }
  assert (∀ type, wordy type → fits (args type)) as Hfits.
  { intros type Hw. unfold args. fits; try (by apply Hn). }
  assert (∀ type, wordy type → ∀ r, seq_cmd (str "sequence" :: args type) = r → understood (ln (str "seq" :: args type)) r) as Hread.
  { intros type Hw r E. destruct (Hfits type Hw) as [Hws Hl]. unfold understood, reads.
    rewrite (execute_seq 0 (args type) Hws Hl), E. by destruct r; auto. }
  assert (∀ type, In type ["ipv4"; "ipv6"]%string → wordy (str type) →
    seq_cmd (str "sequence" :: args (str type)) =
      if String.eqb type "ipv6" && String.eqb (proto_word (Pkt.ipProto p)) "icmp" then Ok []
      else Ok (does i (Seq j (Pkt.eth_dst_addr p) (Pkt.eth_src_addr p) (mk_ipaddr (htonl (Pkt.ip_dst_addr p)) 0)
        (mk_ipaddr (htonl (Pkt.ip_src_addr p)) (Inet.mask_size (Pkt.ip_mask p))) (Pkt.sport p) (Pkt.dport p) (chr type 3)
        (chr (proto_word (Pkt.ipProto p)) 0) (Pkt.vlanid p) (Pkt.pktSize p + 4) (Pkt.gtpu_teid p)))) as Hseq.
  { intros type Hin Hw. unfold args. rewrite Eproto.
    rewrite (seq_words (dec i) Hpl); try (by apply Hn); try (by apply mtoa_word); try (by apply digit_address, ntop4_mask_word);
      try (apply dec_number; lia); [|rewrite Ej; unfold NUM_SEQ_PKTS; lia|exact Hin|exact Hproto].
    rewrite Epl, Ej, !mac_into_mtoa, dst_ip_ntop4, src_ip_ntop4, !atoi_w32_dec, dec_u_unsigned
      by (done || apply bswap32_range).
    rewrite (wrap_small 32 j) by (unfold in_word; lia). rewrite (atoi_w_dec 16) by (done || unfold in_word in *; lia).
    rewrite (atoi_w_dec 32) by (unfold in_word; lia). done. }
  change (str "seq") with (str "seq"). fold (args (type_name (Pkt.ethType p) (str "vlan") (str "Other"))).
  unfold type_name. destruct (Pkt.ethType p =? PG_ETHER_TYPE_IPv4).
  { pose proof (Hread (str "ipv4") ltac:(by apply wordy_chars) _ (Hseq "ipv4"%string ltac:(cbn; tauto) ltac:(by apply wordy_chars))) as Hr. exact Hr. }
  destruct (Pkt.ethType p =? PG_ETHER_TYPE_IPv6).
  { pose proof (Hread (str "ipv6") ltac:(by apply wordy_chars) _ (Hseq "ipv6"%string ltac:(cbn; tauto) ltac:(by apply wordy_chars))) as Hr.
    unfold proto_word in Hr at 1. unfold PG_IPPROTO_TCP, PG_IPPROTO_ICMP in *.
    destruct (Z.eqb_spec (Pkt.ipProto p) 6) as [E6|N6].
    - destruct (Z.eqb_spec (Pkt.ipProto p) 1); [lia|]. exact Hr.
    - destruct (Z.eqb_spec (Pkt.ipProto p) 1); exact Hr. }
  assert (∀ type, In type ["vlan"; "Other"]%string → wordy (str type) → reads (ln (str "seq" :: args (str type))) []) as Hother.
  { intros type Hin Hw. pose proof (Hread (str type) Hw Refused) as Hr. apply Hr. unfold args. rewrite Eproto.
    apply (seq_refused (dec i) Hpl); try (by apply Hn); try (by apply mtoa_word); try (by apply digit_address, ntop4_mask_word);
      try (apply dec_number; lia); done. }
  destruct (Pkt.ethType p =? PG_ETHER_TYPE_VLAN); [apply (Hother "vlan"%string)|apply (Hother "Other"%string)];
    first [cbn; tauto|by apply wordy_chars].
Qed.

Lemma read_seqs : Forall2 reads (seq_lines i info) (seqs_meaning i info).
Proof using Hi Hs.
  unfold seq_lines, seqs_meaning. destruct (sv_seqCnt i info Hs) as [Hge H16]. unfold NUM_SEQ_PKTS in H16.
  apply Forall2_cons. split.
  - rewrite (sv_pid i info Hs). assert (in_word 16 (Info.seqCnt info)) as Hw by (unfold in_word; lia).
    apply (set_line "seq_cnt" 11); [apply dec_wordy; lia|apply dec_number; lia|cbn; tauto|].
    unfold set_number. cbv zeta. by rewrite atoi_w32_dec.
  - apply Forall2_fmap, Forall_Forall2_diag, Forall_forall. intros j Hj. apply elem_of_seqZ in Hj.
    apply seq_line_read. unfold NUM_SEQ_PKTS. lia.
Qed.

(** *** Random bit fields *)
Lemma mask_char_word s k : code (mask_char s k) ∈ [88; 48; 49; 46].
Proof using.
  unfold mask_char. destruct (negb _); [by left|]. destruct (_ =? 0); [by right; left|].
  destruct (negb _); [by right; right; left|by right; right; right; left].
Qed.

Lemma bitfield_word s : wordy (convert_bitfield s) ∧ string_word (convert_bitfield s) ∧
  pg_strmatch (convert_bitfield s) (str "off") = false ∧ mask_chars (convert_bitfield s) = convert_bitfield s.
Proof using.
  unfold convert_bitfield, bitmask.
  assert (∀ c, c ∈ [88; 48; 49; 46] → word_char c = true ∧ mem_chr c (str "01.Xx") = true ∧ isprint c = true ∧
    (111 =? c) = false ∧ (c =? 111) = false ∧ (45 =? c) = false ∧ (63 =? c) = false) as Hc.
  { intros c Hc. rewrite !elem_of_cons in Hc. repeat destruct Hc as [->|Hc]; try done. by apply not_elem_of_nil in Hc. }
  assert (Forall (λ c, c ∈ [88; 48; 49; 46]) ((λ k, code (mask_char s k)) <$> seqZ 0 32)) as HF
    by (apply Forall_fmap, Forall_forall; intros k _; apply mask_char_word).
  assert (length ((λ k, code (mask_char s k)) <$> seqZ 0 32) = 32%nat) as Hl by (by rewrite length_fmap, length_seqZ).
  set (l := (λ k, code (mask_char s k)) <$> seqZ 0 32) in *. clearbody l.
  destruct l as [|c l]; [done|]. pose proof HF as HF'. apply Forall_cons in HF' as [H1 _].
  destruct (Hc c H1) as (W & M & P & E1 & E2 & E3 & E4).
  split_and!.
  - split; [done|]. eapply Forall_impl; [exact HF|]. intros x Hx. by apply Hc.
  - split; [unfold is_map_valid; cbn -[isprint]; by rewrite P|]. unfold is_help. cbn [last].
    change (str "-?") with [45; 63]. change (str "?") with [63]. cbn [pg_strmatch]. by rewrite E3, E4.
  - change (str "off") with [111; 102; 102]. cbn [pg_strmatch]. by rewrite E2.
  - unfold mask_chars. assert (List.filter (λ x, mem_chr x (str "01.Xx")) (c :: l) = c :: l) as ->.
    { clear -HF Hc. induction HF as [|x xs Hx HF IH]; [done|]. cbn [List.filter].
      destruct (Hc x Hx) as (_ & -> & _). by rewrite IH. }
    apply take_ge. rewrite Hl. lia.
Qed.

Definition rnd_fits (rnd : rnd_bits_t) : Prop := Forall (λ s, in_word 16 (RandomBits.offset s)) (specs rnd).

Lemma read_rnd rnd : rnd_fits rnd → Forall2 reads (rnd_lines i rnd) (rnd_meaning i rnd).
Proof using Hi.
  intros Hr. destruct port_i as (Hp & Epl & Hwp). unfold rnd_lines, rnd_meaning. destruct (active_specs rnd =? 0); [constructor|].
  apply Forall2_app; [lines; [apply reads_blank|by right|constructor]|].
  apply Forall2_app; [|lines; [apply reads_blank|constructor]].
  assert (Forall (λ j, 0 ≤ j < 32) (seqZ 0 MAX_RND_BITFIELDS)) as Hj.
  { apply Forall_forall. intros j Hj%elem_of_seqZ. unfold MAX_RND_BITFIELDS in Hj. lia. }
  induction Hj as [|j js Hj Hjs IH]; [constructor|]. cbn [omap list_omap].
  destruct (specs rnd !! Z.to_nat j) as [bf|] eqn:E; cbn [mbind option_bind]; [|exact IH].
  destruct (_ =? 0); [exact IH|]. apply Forall2_cons. split; [|exact IH].
  destruct (bitfield_word bf) as (Hw & Hst & Hoff & Em).
  assert (in_word 16 (RandomBits.offset bf)) as Ho by (by eapply Forall_lookup_1 in Hr).
  assert (0 ≤ RandomBits.offset bf < 2 ^ 16) as Ho' by done.
  apply (reads_set [dec i; str "rnd"; dec j; dec (RandomBits.offset bf); convert_bitfield bf] (Ok _)); [fits|].
  rewrite (set_rnd_words (dec i) Hp) by (done || (apply dec_number; lia)).
  rewrite Em, Epl, !(dec_show j), !(dec_show (RandomBits.offset bf)), !strtol0_show by lia.
  by rewrite !wrap_small by (done || (unfold in_word; lia)).
Qed.

(** *** The whole port *)
Lemma read_port rnd : rnd_fits rnd → Forall2 reads (port_lines i info rnd) (port_meaning i info rnd).
Proof using Hi Hs.
  intros Hr. unfold port_lines, port_meaning. unfold port_comment.
  assert (∀ l, reads (35 :: l) []) as Hc by apply reads_comment.
  assert (Forall2 reads [str "#"; str "# Port flag values:"] [[]; []] ∧ Forall2 reads [str "#"; str "# Range packet information:"] [[]; []] ∧
    Forall2 reads [str "#"; str "# Set up the rate data for the port."] [[]; []] ∧
    Forall2 reads [str "#"; str "# Set up the sequence data for the port."] [[]; []]) as (C1 & C2 & C3 & C4)
    by (split_and!; lines; first [apply Hc|constructor]).
  apply Forall2_app; [lines; [apply Hc..|constructor]|].
  apply Forall2_app; [apply read_primary|]. apply Forall2_app; [exact C1|].
  apply Forall2_app; [apply read_flags|]. apply Forall2_app; [exact C2|].
  apply Forall2_app; [apply read_range|]. apply Forall2_app; [exact C3|].
  apply Forall2_app; [apply read_rate|]. apply Forall2_app; [exact C4|].
  apply Forall2_app; [apply read_seqs|]. apply Forall2_app.
  - unfold pcap_comment. destruct (Info.pcap info); [lines; [apply Hc..|constructor]|constructor].
  - apply Forall2_app; [lines; [apply reads_blank|constructor]|]. by apply read_rnd.
Qed.
End Port.
