(* ===== verification/Restore.v ===== *)
(** * Loading what was saved

    The lines [pktgen_script_save] writes for a port, given to a console: first
    that each is read as the command it was written for, then what the port is
    left with.  [settings] are the parts of a port that a saved file speaks of. *)
From Stdlib Require Import Floats.SpecFloat Ascii String.
From S2P Require Import Prelude Mem Inet PortInfo RandomBits Headers Pacing Commands Session Capture.
From S2P Require Import Strings PortList CliMap CliFacts Console ConsoleFacts Lines Save SaveWords SaveFacts.

(** ** Settings *)

(** Of a packet, what rebuilding its headers leaves alone: all but the headers
    themselves, their length, and the destination port, which the constructor
    replaces in VxLAN mode. *)
Definition visible (p : pkt_seq_t) : pkt_seq_t := fixed p.

(** The length of a packet whose type changes from [e0] to [e], and of one whose
    latency mode is switched *)
Definition resized (e0 e size : Z) : Z :=
  let size := if (e0 =? PG_ETHER_TYPE_IPv6) && (e =? PG_ETHER_TYPE_IPv4)
              then if MIN_v6_PKT_SIZE <=? size then u16 (MIN_PKT_SIZE + (size - MIN_v6_PKT_SIZE)) else size
              else size in
  if (e0 =? PG_ETHER_TYPE_IPv4) && (e =? PG_ETHER_TYPE_IPv6)
  then if size <? MIN_v6_PKT_SIZE then u16 (MIN_v6_PKT_SIZE + (size - MIN_PKT_SIZE)) else size
  else size.
Definition timed (on : bool) (size : Z) : Z :=
  let min := PG_ETHER_MIN_LEN - PG_ETHER_CRC_LEN + sizeof_tstamp_t in
  if on then if size <? min then u16 (size + sizeof_tstamp_t) else size
  else if min <=? size then u16 (size - sizeof_tstamp_t) else size.

Record settings_t := mk_settings {
  st_count : Z; st_prime : Z; st_burst : Z; st_jitter : Z; st_pattern : fill_t; st_seqs : Z;
  st_range : range_info_t; st_pkt : pkt_seq_t }.
#[global] Instance eta_settings : Eta settings_t := λ s,
  mk_settings (st_count s) (st_prime s) (st_burst s) (st_jitter s) (st_pattern s) (st_seqs s)
    (st_range s) (st_pkt s).

Definition settings (i : port_info_t) : settings_t :=
  mk_settings (Info.transmit_count i) (Info.prime_cnt i) (Info.tx_burst i) (Info.jitter_threshold i)
    (Info.fill_pattern_type i) (Info.seqCnt i) (Info.range i) (visible (Info.seq_pkt i SINGLE_PKT)).

(** *** Operations that keep them *)

Lemma q_flags_settings n q f i : settings (set_q_flags_upto n q f i) = settings i.
Proof. revert q i. induction n as [|n IH]; intros q i; [done|]. cbn [set_q_flags_upto]. by rewrite IH. Qed.

Lemma all_q_flags_settings f w : settings (info (all_q_flags f w)) = settings (info w).
Proof. apply q_flags_settings. Qed.

Lemma ctor_settings w k t : settings (info (pktgen_packet_ctor w k t)) = settings (info w).
Proof.
  pose proof (packet_ctor_slot w k t SINGLE_PKT) as E. unfold get_pkt in E. revert E.
  unfold pktgen_packet_ctor. destruct (ctor_pkt _ _ _ _) as [p id]. intros E.
  unfold settings, visible. rewrite E. done.
Qed.

Lemma rebuild_settings k w : settings (info (rebuild k w)) = settings (info w).
Proof. unfold rebuild, pktgen_set_tx_update. by rewrite all_q_flags_settings, ctor_settings. Qed.

Lemma packet_rate_settings w w' : pktgen_packet_rate w = Some w' → settings (info w') = settings (info w).
Proof.
  unfold pktgen_packet_rate. destruct (pktgen_wire_size _); [|done]. cbn [mbind option_bind].
  destruct (div_trap _ _); [|done]. cbn [mbind option_bind]. by intros [= <-].
Qed.

Lemma retype_visible t p : visible (retype t p) = visible p <| Pkt.ethType := ether_type_of t |>
  <| Pkt.pktSize := resized (Pkt.ethType p) (ether_type_of t) (Pkt.pktSize p) |>.
Proof.
  unfold retype, resized. generalize (ether_type_of t) as e. intros e. destruct p as [].
  cbn -[PG_ETHER_TYPE_IPv4 PG_ETHER_TYPE_IPv6 MIN_v6_PKT_SIZE MIN_PKT_SIZE wrap].
  repeat (case_match; cbn -[PG_ETHER_TYPE_IPv4 PG_ETHER_TYPE_IPv6 MIN_v6_PKT_SIZE MIN_PKT_SIZE wrap] in *);
    first [reflexivity|congruence].
Qed.

(** A packet of a sequence is not the single packet. *)
Lemma seq_slot_settings j f w : 0 ≤ j < NUM_SEQ_PKTS → settings (info (upd_pkt j f w)) = settings (info w).
Proof.
  intros Hj. unfold settings.
  change (Info.seq_pkt (info (upd_pkt j f w)) SINGLE_PKT) with (set_at j (f (get_pkt w j)) (Info.seq_pkt (info w)) SINGLE_PKT).
  rewrite set_at_ne by (unfold NUM_SEQ_PKTS, SINGLE_PKT in *; lia). done.
Qed.

(** ** Effects of commands *)

(** On any valid port the command runs, and changes the settings by [h]. *)
Definition effect (c : command) (h : settings_t → settings_t) : Prop :=
  cmd_ok c ∧ ∀ w, ok w → ∃ w', run c w = Some w' ∧ settings (info w') = h (settings (info w)).

Lemma effect_of c f h :
  cmd_ok c → (∀ w, run c w = Some (f w)) → (∀ w, settings (info (f w)) = h (settings (info w))) → effect c h.
Proof. intros Hc Hr Hs. split; [done|]. intros w _. exists (f w). by rewrite Hr, Hs. Qed.

(** A command that ends in computing the rate *)
Lemma effect_rate c f h :
  cmd_ok c → (∀ w, run c w = pktgen_packet_rate (f w)) → (∀ w, ok w → ok (f w)) →
  (∀ w, settings (info (f w)) = h (settings (info w))) → effect c h.
Proof.
  intros Hc Hr Ho Hs. split; [done|]. intros w Hw. destruct (packet_rate_defined (f w)) as [w' E]; [by apply Ho|].
  exists w'. rewrite Hr, E. split; [done|]. rewrite (packet_rate_settings _ _ E). apply Hs.
Qed.

#[local] Ltac plain := eapply effect_of; [exact I|reflexivity|]; intros w.
#[local] Ltac rebuilt := plain; etransitivity; [apply rebuild_settings|]; try reflexivity.

Lemma effect_count v : effect (Set_tx_count v) (λ s, s <| st_count := v |>).
Proof. plain. reflexivity. Qed.

Lemma effect_prime v : 1 ≤ v ≤ MAX_PRIME_COUNT → effect (Set_prime v) (λ s, s <| st_prime := v |>).
Proof.
  intros Hv. eapply effect_of; [cbn; lia|reflexivity|]. intros w. unfold pktgen_set_port_prime.
  destruct (Z.ltb_spec MAX_PRIME_COUNT v); [lia|]. destruct (Z.eqb_spec v 0); [lia|]. reflexivity.
Qed.

Lemma effect_burst v : 1 ≤ v ≤ DEFAULT_PKT_BURST → effect (Set_tx_burst v) (λ s, s <| st_burst := v |>).
Proof.
  intros Hv. eapply (effect_rate _ (upd_info (λ i, i <| Info.tx_burst := v |> <| Info.tx_cycles := 0 |>))); [cbn; lia| | |].
  - intros w. cbn [run]. unfold single_set_tx_burst, set_tx_burst. destruct (Z.eqb_spec v 0); [lia|].
    by destruct (Z.ltb_spec DEFAULT_PKT_BURST v); [lia|].
  - intros w Hw. keep_counts. cbn. lia.
  - reflexivity.
Qed.

Lemma effect_tx_rate r : effect (Set_tx_rate r) id.
Proof. by eapply effect_rate; [exact I|reflexivity|intros w Hw; port_auto|reflexivity]. Qed.

Lemma effect_size v : effect (Set_pkt_size v)
  (λ s, s <| st_pkt ::= λ p, p <| Pkt.pktSize := clamp_size (Pkt.ethType p) v - PG_ETHER_CRC_LEN |> |>).
Proof.
  split; [exact I|]. intros w Hw. destruct (slot_size_defined SINGLE_PKT w v Hw) as [w' E]. exists w'. split; [exact E|].
  unfold slot_set_pkt_size in E. cbn zeta in E. destruct (pktgen_packet_rate _) as [w1|] eqn:E1; [|done].
  cbn [mbind option_bind] in E. injection E as <-. unfold pktgen_set_tx_update.
  rewrite all_q_flags_settings, (packet_rate_settings _ _ E1), ctor_settings. reflexivity.
Qed.

Lemma effect_sport v : effect (Set_port "s" v) (λ s, s <| st_pkt ::= λ p, p <| Pkt.sport := u16 v |> |>).
Proof. rebuilt. Qed.
Lemma effect_dport v : effect (Set_port "d" v) id.
Proof. rebuilt. Qed.

Lemma effect_type t : effect (Set_pkt_type t)
  (λ s, s <| st_pkt ::= λ p, p <| Pkt.ethType := ether_type_of t |>
                               <| Pkt.pktSize := resized (Pkt.ethType p) (ether_type_of t) (Pkt.pktSize p) |> |>).
Proof.
  rebuilt. unfold settings.
  change (Info.seq_pkt (info (upd_pkt SINGLE_PKT (retype t) w)) SINGLE_PKT) with (retype t (Info.seq_pkt (info w) SINGLE_PKT)).
  by rewrite retype_visible.
Qed.

Lemma effect_proto t : effect (Set_proto t)
  (λ s, s <| st_pkt ::= λ p, p <| Pkt.ipProto := proto_of t |>
       <| Pkt.ethType := if Ascii.eqb (chr t 0) "i" then PG_ETHER_TYPE_IPv4 else Pkt.ethType p |> |>).
Proof. rebuilt. by destruct (Ascii.eqb (chr t 0) "i"). Qed.

Lemma effect_dst_ip ip : effect (Set_ipaddr "d" ip) (λ s, s <| st_pkt ::= λ p, p <| Pkt.ip_dst_addr := ntohl (s_addr ip) |> |>).
Proof. rebuilt. Qed.
Lemma effect_src_ip ip : effect (Set_ipaddr "s" ip)
  (λ s, s <| st_pkt ::= λ p, p <| Pkt.ip_mask := size_to_mask (prefixlen ip) |> <| Pkt.ip_src_addr := ntohl (s_addr ip) |> |>).
Proof. rebuilt. Qed.

Lemma effect_dst_mac m : effect (Set_mac "dst" m) (λ s, s <| st_pkt ::= λ p, p <| Pkt.eth_dst_addr := m |> |>).
Proof. plain. etransitivity; [apply (rebuild_settings SINGLE_PKT (upd_pkt SINGLE_PKT (λ p, p <| Pkt.eth_dst_addr := m |>) w))|reflexivity]. Qed.
Lemma effect_src_mac m : effect (Set_mac "src" m) (λ s, s <| st_pkt ::= λ p, p <| Pkt.eth_src_addr := m |> |>).
Proof. plain. etransitivity; [apply (rebuild_settings SINGLE_PKT (upd_pkt SINGLE_PKT (λ p, p <| Pkt.eth_src_addr := m |>) w))|reflexivity]. Qed.

Lemma effect_vlan_id v : effect (Set_vlan_id v) (λ s, s <| st_pkt ::= λ p, p <| Pkt.vlanid := v |> |>).
Proof. rebuilt. Qed.

Lemma effect_pattern t : effect (Set_pattern (pattern_word t)) (λ s, s <| st_pattern := t |>).
Proof. plain. by destruct t. Qed.
Lemma effect_user : effect (Set_user_pattern "pattern") (λ s, s <| st_pattern := USER_FILL_PATTERN |>).
Proof. by plain. Qed.

Lemma effect_jitter hz v : effect (Set_jitter hz v) (λ s, s <| st_jitter := v |>).
Proof. by plain. Qed.

Lemma encap_settings f w s : settings (info (enable_encap f w s)) = settings (info w).
Proof. unfold enable_encap. rewrite rebuild_settings. by destruct (s =? ENABLE_STATE). Qed.

Lemma effect_able_encap c :
  c ∈ [Enable_mpls; Enable_qinq; Enable_gre; Enable_gre_eth; Enable_vxlan; Enable_vlan] → ∀ s, effect (c s) id.
Proof. rewrite !elem_of_cons. intros Hc s. repeat destruct Hc as [->|Hc]; [..|by apply not_elem_of_nil in Hc]; plain; apply encap_settings. Qed.

Lemma effect_mpls v : effect (Set_mpls v) (λ s, s <| st_pkt ::= λ p, p <| Pkt.mpls_entry := v |> |>).
Proof. rebuilt. Qed.
Lemma effect_qinq o i : effect (Set_qinq o i)
  (λ s, s <| st_pkt ::= λ p, p <| Pkt.qinq_outerid := o |> <| Pkt.qinq_innerid := i |> |>).
Proof. rebuilt. Qed.
Lemma effect_gre_key v : effect (Set_gre_key v) (λ s, s <| st_pkt ::= λ p, p <| Pkt.gre_key := v |> |>).
Proof. rebuilt. Qed.
Lemma effect_vxlan f g v : effect (Set_vxlan f g v)
  (λ s, s <| st_pkt ::= λ p, p <| Pkt.vni_flags := f |> <| Pkt.group_id := g |> <| Pkt.vxlan_id := v |> |>).
Proof. rebuilt. Qed.

Lemma effect_flags c :
  c ∈ [Enable_icmp_echo; Enable_process; Enable_random] → ∀ s, effect (c s) id.
Proof.
  rewrite !elem_of_cons. intros Hc s. repeat destruct Hc as [->|Hc]; [..|by apply not_elem_of_nil in Hc]; plain.
  - unfold enable_icmp_echo. by destruct (s =? ENABLE_STATE).
  - unfold enable_process. by destruct (s =? ENABLE_STATE).
  - unfold enable_random. by destruct (s =? ENABLE_STATE).
Qed.

Lemma timed_visible (b : Z → bool) (f : Z → Z) p :
  visible ((if b (Pkt.pktSize p) then p <| Pkt.pktSize ::= f |> else p) <| Pkt.ipProto := PG_IPPROTO_UDP |>) =
  visible p <| Pkt.pktSize ::= λ s, if b s then f s else s |> <| Pkt.ipProto := PG_IPPROTO_UDP |>.
Proof. destruct p as []. lazy. destruct (b pktSize); reflexivity. Qed.

(** Switching the latency mode, on or off, changes the protocol and the length. *)
Lemma effect_latency s : effect (Enable_latency s)
  (λ t, t <| st_pkt ::= λ p, p <| Pkt.pktSize ::= timed (s =? ENABLE_STATE) |> <| Pkt.ipProto := PG_IPPROTO_UDP |> |>).
Proof.
  plain. unfold enable_latency. etransitivity; [apply rebuild_settings|]. unfold settings, timed.
  destruct (s =? ENABLE_STATE); apply (f_equal (mk_settings _ _ _ _ _ _ _)).
  - exact (timed_visible (λ z, z <? PG_ETHER_MIN_LEN - PG_ETHER_CRC_LEN + sizeof_tstamp_t)
             (λ z, u16 (z + sizeof_tstamp_t)) _).
  - exact (timed_visible (λ z, PG_ETHER_MIN_LEN - PG_ETHER_CRC_LEN + sizeof_tstamp_t <=? z)
             (λ z, u16 (z - sizeof_tstamp_t)) _).
Qed.

Lemma effect_tap env s : effect (Enable_rx_tap env s) id ∧ effect (Enable_tx_tap env s) id.
Proof. split; plain; unfold enable_rx_tap, enable_tx_tap; repeat (case_match; simplify_eq); reflexivity. Qed.

Lemma effect_pcap s : effect (Enable_pcap s) id.
Proof. plain. unfold enable_pcap. repeat case_match; reflexivity. Qed.

Lemma effect_range s : effect (Enable_range s) id.
Proof.
  split; [exact I|]. intros w Hw. cbn [run]. unfold enable_range, SEND_RANGE_PKTS.
  destruct (s =? ENABLE_STATE); [destruct (tst_flags _ _); [by exists w|]|].
  all: match goal with |- context [pktgen_packet_rate ?x] => destruct (packet_rate_defined x) as [w' E]; [port_auto|] end;
    exists w'; rewrite E; by rewrite (packet_rate_settings _ _ E).
Qed.

(** Switching the video rate off sets the burst, too. *)
Lemma effect_no_rate : effect (Enable_rate DISABLE_STATE) (λ s, s <| st_burst := DEFAULT_PKT_BURST |>).
Proof.
  eapply effect_rate; [exact I|reflexivity| |].
  - intros w Hw. apply ok_upd_pkt_size; [size_tac|]. apply ok_tx_burst_1; [done|]. port_auto.
  - reflexivity.
Qed.

Lemma effect_rate_value what v : effect (Rate_value what v) id.
Proof. plain. cbn -[visible]. unfold rate_set_value. repeat case_match; reflexivity. Qed.

Lemma effect_seq_cnt v : 0 ≤ v ≤ NUM_SEQ_PKTS → effect (Set_seq_cnt v) (λ s, s <| st_seqs := v |>).
Proof.
  intros Hv. eapply effect_of; [cbn; lia|reflexivity|]. intros w. unfold pktgen_set_port_seqCnt.
  destruct (Z.ltb_spec NUM_SEQ_PKTS v); [lia|]. by destruct (v =? 0).
Qed.

Lemma effect_seq j d s dip sip sp dp t p vid size teid : 0 ≤ j < NUM_SEQ_PKTS → effect (Seq j d s dip sip sp dp t p vid size teid) id.
Proof.
  intros Hj. assert (is_slot j = true) as E
    by (unfold is_slot, NUM_TOTAL_PKTS, NUM_SEQ_PKTS in *; rewrite andb_true_iff, Z.leb_le, Z.ltb_lt; lia).
  eapply effect_of; [exact I|intros w; cbn [run]; unfold pktgen_set_seq; rewrite E; reflexivity|]. intros w. cbn beta zeta.
  by rewrite rebuild_settings, seq_slot_settings.
Qed.

(** *** The range page *)
Definition ranged (f : string → Z → command) (put : string → Z → range_info_t → range_info_t) (P : string → Z → Prop) : Prop :=
  ∀ what v, In what whats → P what v → effect (f what v) (λ s, s <| st_range ::= put what v |>).

#[local] Ltac by_what := intros what v Hw HP; repeat destruct Hw as [<-|Hw]; try contradiction; plain.
#[local] Ltac plainly := by_what; reflexivity.

Definition always (what : string) (v : Z) : Prop := True.
Definition inc_below (n : Z) (what : string) (v : Z) : Prop := what = "inc"%string → v ≤ n.

Lemma at_most_le v n : v ≤ n → at_most v n = v.
Proof. intros H. unfold at_most. by destruct (Z.ltb_spec n v); [lia|]. Qed.

(** The four settings of one field, by name *)
Definition four_fields (start min max inc : Z → range_info_t → range_info_t) (what : string) : Z → range_info_t → range_info_t :=
  match what_of what with What_min => min | What_max => max | What_inc => inc | _ => start end.

Lemma ranged_src_mac : ranged Range_src_mac (four_fields (λ v r, r <| Rng.src_mac := v |>) (λ v r, r <| Rng.src_mac_min := v |>)
  (λ v r, r <| Rng.src_mac_max := v |>) (λ v r, r <| Rng.src_mac_inc := v |>)) always.
Proof. plainly. Qed.
Lemma ranged_dst_mac : ranged Range_dst_mac (four_fields (λ v r, r <| Rng.dst_mac := v |>) (λ v r, r <| Rng.dst_mac_min := v |>)
  (λ v r, r <| Rng.dst_mac_max := v |>) (λ v r, r <| Rng.dst_mac_inc := v |>)) always.
Proof. plainly. Qed.

Lemma ntohl_back a : in_word 32 a → ntohl (ntohl a) = a.
Proof. intros Ha. by rewrite bswap32_involutive, wrap_small. Qed.
Definition address (what : string) (v : Z) : Prop := in_word 32 v.

Lemma ranged_src_ip : ranged (λ w a, Range_src_ip w (mk_ipaddr (ntohl a) 0))
  (four_fields (λ v r, r <| Rng.src_ip := v |>) (λ v r, r <| Rng.src_ip_min := v |>)
     (λ v r, r <| Rng.src_ip_max := v |>) (λ v r, r <| Rng.src_ip_inc := v |>)) address.
Proof. by_what; unfold range_set_src_ip; cbn [s_addr]; by rewrite (ntohl_back v HP). Qed.
Lemma ranged_dst_ip : ranged (λ w a, Range_dst_ip w (mk_ipaddr (ntohl a) 0))
  (four_fields (λ v r, r <| Rng.dst_ip := v |>) (λ v r, r <| Rng.dst_ip_min := v |>)
     (λ v r, r <| Rng.dst_ip_max := v |>) (λ v r, r <| Rng.dst_ip_inc := v |>)) address.
Proof. by_what; unfold range_set_dst_ip; cbn [s_addr]; by rewrite (ntohl_back v HP). Qed.

#[local] Ltac limited n := intros what v Hw HP;
  assert (what = "inc"%string → at_most v n = v) as Em by (intros ->; apply at_most_le, HP; reflexivity);
  repeat destruct Hw as [<-|Hw]; try contradiction; plain; try reflexivity.

Lemma ranged_src_port : ranged Range_src_port (four_fields (λ v r, r <| Rng.src_port := v |>) (λ v r, r <| Rng.src_port_min := v |>)
  (λ v r, r <| Rng.src_port_max := v |>) (λ v r, r <| Rng.src_port_inc := v |>)) (inc_below 64).
Proof. limited 64. unfold range_set_src_port. by rewrite (Em eq_refl). Qed.
Lemma ranged_dst_port : ranged Range_dst_port (four_fields (λ v r, r <| Rng.dst_port := v |>) (λ v r, r <| Rng.dst_port_min := v |>)
  (λ v r, r <| Rng.dst_port_max := v |>) (λ v r, r <| Rng.dst_port_inc := v |>)) (inc_below 64).
Proof. limited 64. unfold range_set_dst_port. by rewrite (Em eq_refl). Qed.
Lemma ranged_ttl : ranged Range_ttl (four_fields (λ v r, r <| Rng.ttl := v |>) (λ v r, r <| Rng.ttl_min := v |>)
  (λ v r, r <| Rng.ttl_max := v |>) (λ v r, r <| Rng.ttl_inc := v |>)) always.
Proof. plainly. Qed.
Lemma ranged_tos : ranged Range_tos (four_fields (λ v r, r <| Rng.tos := v |>) (λ v r, r <| Rng.tos_min := v |>)
  (λ v r, r <| Rng.tos_max := v |>) (λ v r, r <| Rng.tos_inc := v |>)) always.
Proof. plainly. Qed.
Lemma ranged_cos : ranged Range_cos (four_fields (λ v r, r <| Rng.cos := v |>) (λ v r, r <| Rng.cos_min := v |>)
  (λ v r, r <| Rng.cos_max := v |>) (λ v r, r <| Rng.cos_inc := v |>)) (inc_below 7).
Proof. limited 7. unfold range_set_cos_id. by rewrite (Em eq_refl). Qed.

(** VLAN identifiers out of range are replaced by the smallest. *)
Definition vlan_fits (what : string) (v : Z) : Prop :=
  if String.eqb what "inc" then v ≤ 64 else MIN_VLAN_ID ≤ v ≤ MAX_VLAN_ID.
Lemma ranged_vlan : ranged Range_vlan (four_fields (λ v r, r <| Rng.vlan_id := v |>) (λ v r, r <| Rng.vlan_id_min := v |>)
  (λ v r, r <| Rng.vlan_id_max := v |>) (λ v r, r <| Rng.vlan_id_inc := v |>)) vlan_fits.
Proof.
  by_what; unfold vlan_fits in HP; cbn in HP; unfold range_set_vlan_id; cbn zeta;
    try (destruct (Z.ltb_spec v MIN_VLAN_ID); [lia|]; destruct (Z.ltb_spec MAX_VLAN_ID v); [lia|]; reflexivity).
  by rewrite (at_most_le v 64).
Qed.

(** Lengths are saved with the checksum, the step without. *)
Definition with_crc (what : string) (v : Z) : Z := if String.eqb what "inc" then v else v + PG_ETHER_CRC_LEN.
Definition length_fits (what : string) (v : Z) : Prop :=
  if String.eqb what "inc" then v ≤ PG_ETHER_MAX_LEN else size_fits v.
Lemma ranged_size : ranged (λ w v, Range_size w (with_crc w v))
  (four_fields (λ v r, r <| Rng.pkt_size := v |>) (λ v r, r <| Rng.pkt_size_min := v |>)
     (λ v r, r <| Rng.pkt_size_max := v |>) (λ v r, r <| Rng.pkt_size_inc := v |>)) length_fits.
Proof.
  assert (∀ v, size_fits v → (v + PG_ETHER_CRC_LEN <? PG_ETHER_MIN_LEN) = false ∧
    (PG_ETHER_MAX_LEN <? v + PG_ETHER_CRC_LEN) = false ∧ v + PG_ETHER_CRC_LEN - PG_ETHER_CRC_LEN = v) as Hs.
  { intros v Hv. unfold size_fits, MIN_PKT_SIZE, MAX_PKT_SIZE in Hv.
    split_and!; [apply Z.ltb_ge; lia|apply Z.ltb_ge; lia|lia]. }
  by_what; unfold length_fits in HP; cbn -[PG_ETHER_MAX_LEN] in HP; unfold range_set_pkt_size, with_crc;
    cbn [String.eqb Ascii.eqb Bool.eqb].
  1-3: destruct (Hs v HP) as (E1 & E2 & E3); cbn zeta; rewrite E1, E2, E3; reflexivity.
  cbn zeta. by rewrite (at_most_le v).
Qed.

Lemma effect_range_proto t p :
  (t = "udp"%string ∧ p = PG_IPPROTO_UDP) ∨ (t = "tcp"%string ∧ p = PG_IPPROTO_TCP) →
  effect (Range_set_proto t) (λ s, s <| st_range ::= λ r, r <| Rng.ip_proto := p |> |>).
Proof. intros [[-> ->]|[-> ->]]; by plain. Qed.

(** ** Steps on one port *)

Section Port.
Context `{Env} (i : Z) (Hi : 0 ≤ i < 64) (Hnd : NoDup devs) (Hin : i ∈ devs).

(** The steps succeed, change the settings of port [i] by [h], and leave the other
    ports as they are. *)
Definition moves (ss : list step) (h : settings_t → settings_t) : Prop :=
  ∀ c i0, ports_ok c → ports c i = Some i0 →
  ∃ c' i1, run_steps ss c = Some c' ∧ ports_ok c' ∧ ports c' i = Some i1 ∧ settings i1 = h (settings i0) ∧
    ∀ p, p ≠ i → ports c' p = ports c p.

Definition act_moves (a : action) (h : settings_t → settings_t) : Prop :=
  act_ok a ∧ ∀ c i0, ports_ok c → ports c i = Some i0 →
  ∃ c' i1, run_action i a i0 c = Some c' ∧ ports c' = set_at i (Some i1) (ports c) ∧ settings i1 = h (settings i0).

Lemma foreach_others ds acts : ∀ b c, i ∉ ds → foreach_dev ds (2 ^ i) b acts c = Some c.
Proof using Hi.
  induction ds as [|d ds IH]; intros b c Hn; cbn [foreach_dev]; [done|].
  rewrite Z.pow2_bits_eqb by lia. apply not_elem_of_cons in Hn as [Hne Hn].
  destruct (Z.eqb_spec i d); [done|]. by apply IH.
Qed.

Lemma foreach_single ds acts b c i0 : NoDup ds → i ∈ ds → ports c i = Some i0 →
  foreach_dev ds (2 ^ i) b acts c = run_actions i (acts b i) c.
Proof using Hi.
  clear Hnd Hin.
  intros Hd. revert b. induction Hd as [|d ds Hn Hd IH]; intros b Hds Hp; [by apply not_elem_of_nil in Hds|].
  cbn [foreach_dev]. rewrite Z.pow2_bits_eqb by lia. destruct (Z.eqb_spec i d) as [<-|Hne].
  - cbn [negb]. rewrite Hp. destruct (run_actions i (acts b i) c) as [c1|]; [|done]. cbn [mbind option_bind].
    by apply foreach_others.
  - cbn [negb]. apply elem_of_cons in Hds as [->|Hds]; [done|]. by apply IH.
Qed.

Lemma act_moves_each a h : act_moves a h → moves [Each (2 ^ i) (λ _ _, [a]); update_display] h.
Proof using Hi Hnd Hin.
  intros [Ha Hm] c i0 Hc Hp. destruct (Hm c i0 Hc Hp) as (c' & i1 & E & Ep & Es).
  assert (run_actions i [a] c = Some c') as Er by (cbn [run_actions]; rewrite Hp; cbn [mbind option_bind]; by rewrite E).
  exists (on_globals pktgen_update_display c'), i1. cbn [run_steps]. change (run_step (Each (2 ^ i) (λ _ _, [a])) c)
    with (foreach_dev devs (2 ^ i) true (λ _ _, [a]) c).
  rewrite (foreach_single _ _ _ _ i0 Hnd Hin Hp), Er. split; [done|]. split.
  - change (ports_ok c'). eapply (run_actions_ok i [a]); [by repeat constructor|exact Hc|exact Er].
  - change (ports (on_globals pktgen_update_display c')) with (ports c'). rewrite Ep. split; [apply set_at_eq|].
    split; [done|]. intros p Hne. by apply set_at_ne.
Qed.

Lemma effect_act c h : effect c h → act_moves (Do c) h.
Proof using.
  intros [Hc He]. split; [exact Hc|]. intros k i0 Hk Hp.
  destruct (He (mk_world (globals k) i0)) as (w' & E & Es); [by eapply Hk|].
  exists (put_world i w' k), (info w'). cbn [run_action]. rewrite E. by split_and!.
Qed.

Lemma moves_does c h : effect c h → moves (does i c) h.
Proof using Hi Hnd Hin. intros He. apply act_moves_each. by apply effect_act. Qed.

Lemma moves_acts a h : act_moves (a i) h → moves (acts i a) h.
Proof using Hi Hnd Hin.
  intros Hm c i0 Hc Hp. destruct (act_moves_each _ _ Hm c i0 Hc Hp) as (c' & i1 & E & R). exists c', i1. split; [|exact R].
  rewrite <-E. cbn [acts run_steps run_step]. by rewrite !(foreach_single _ _ _ _ i0 Hnd Hin Hp).
Qed.

Lemma act_capture s : act_moves (Set_capture s) id.
Proof using.
  split; [exact I|]. intros c i0 Hc Hp. cbn [run_action]. cbn zeta.
  assert (settings (snd (fst (pktgen_set_capture (rx_view i) socket_of (caps c) (ram c) i0 s))) = settings i0) as Es.
  { unfold pktgen_set_capture, capture_on, capture_off. repeat (case_match; simplify_eq; try done). }
  destruct (pktgen_set_capture _ _ _ _ _ _) as [[[cs m] i1] f]. by eexists _, i1.
Qed.

Lemma act_random idx off mask : act_moves (Random idx off mask) id.
Proof using.
  split; [exact I|]. intros c i0 Hc Hp. cbn [run_action]. cbn zeta.
  destruct (pktgen_set_random_bitfield _ _ _ _) as [act rb].
  assert (∀ s, settings (info (enable_random (mk_world (globals c) i0) s)) = settings i0) as Es
    by (intros s; unfold enable_random; by destruct (s =? ENABLE_STATE)).
  eexists _, (info (enable_random _ _)). split; [reflexivity|]. split; [reflexivity|apply Es].
Qed.

Lemma moves_nil : moves [] id.
Proof using. intros c i0 Hc Hp. by exists c, i0. Qed.

Lemma moves_ext ss h h' : moves ss h → (∀ s, h s = h' s) → moves ss h'.
Proof using. intros Hm Eh c i0 Hc Hp. rewrite <-Eh. by apply Hm. Qed.

Lemma moves_app a b h1 h2 : moves a h1 → moves b h2 → moves (a ++ b) (λ s, h2 (h1 s)).
Proof using.
  intros Ha Hb c i0 Hc Hp. destruct (Ha c i0 Hc Hp) as (c1 & i1 & E1 & Hc1 & Hp1 & Es1 & Ho1).
  destruct (Hb c1 i1 Hc1 Hp1) as (c2 & i2 & E2 & Hc2 & Hp2 & Es2 & Ho2). exists c2, i2.
  rewrite run_steps_app, E1. cbn [mbind option_bind]. split_and!; [done..|by rewrite Es2, Es1|].
  intros p Hne. by rewrite Ho2, Ho1.
Qed.

(** Lines, each with what it does *)
Lemma moves_cons ss sss h1 h2 : moves ss h1 → moves (mjoin sss) h2 → moves (mjoin (ss :: sss)) (λ s, h2 (h1 s)).
Proof using. apply moves_app. Qed.
Lemma moves_join a b h1 h2 : moves (mjoin a) h1 → moves (mjoin b) h2 → moves (mjoin (a ++ b)) (λ s, h2 (h1 s)).
Proof using.
  intros Ha Hb. rewrite join_app. by apply moves_app.
Qed.
Lemma moves_still sss : Forall (λ ss, moves ss id) sss → moves (mjoin sss) id.
Proof using.
  induction 1 as [|ss sss Hs _ IH]; [apply moves_nil|]. exact (moves_cons ss sss id id Hs IH).
Qed.

Lemma moves_four f put P a b c d :
  ranged f put P → P "start"%string a → P "min"%string b → P "max"%string c → P "inc"%string d →
  moves (mjoin (four_meaning i f a b c d))
    (λ s, s <| st_range ::= λ r, put "inc"%string d (put "max"%string c (put "min"%string b (put "start"%string a r))) |>).
Proof using Hi Hnd Hin.
  intros Hf Ha Hb Hc Hd. unfold four_meaning.
  eapply moves_ext; [repeat (eapply moves_cons; [apply moves_does, Hf; [cbn; tauto|done]|]); apply moves_nil|].
  reflexivity.
Qed.
End Port.

(** ** A saved port *)

(** Limits of the range commands: a range of ICMP packets is refused, and the
    increments of ports, VLANs, classes and lengths are bounded. *)
Record range_settable (r : range_info_t) : Prop := {
  rs_vlan : Forall (λ v, MIN_VLAN_ID ≤ v ≤ MAX_VLAN_ID) [Rng.vlan_id r; Rng.vlan_id_min r; Rng.vlan_id_max r];
  rs_inc : Forall (λ v, v ≤ 64) [Rng.src_port_inc r; Rng.dst_port_inc r; Rng.vlan_id_inc r];
  rs_cos : Rng.cos_inc r ≤ 7;
  rs_size : Rng.pkt_size_inc r ≤ PG_ETHER_MAX_LEN;
  rs_proto : Rng.ip_proto r = PG_IPPROTO_UDP ∨ Rng.ip_proto r = PG_IPPROTO_TCP }.

Record restorable (info : port_info_t) : Prop := {
  re_ok : port_ok info;
  re_rate : tst_bits (Info.port_flags info) SEND_RATE_PACKETS = false;
  re_mask : let m := Pkt.ip_mask (Info.seq_pkt info SINGLE_PKT) in size_to_mask (Inet.mask_size m) = m;
  re_range : range_settable (Info.range info) }.

(** Everything a file has of a range: all but the tunnel identifiers (of GTP-U
    and VxLAN) *)
Definition restore_range (q r : range_info_t) : range_info_t :=
  q <| Rng.gtpu_teid := Rng.gtpu_teid r |> <| Rng.gtpu_teid_inc := Rng.gtpu_teid_inc r |>
    <| Rng.gtpu_teid_min := Rng.gtpu_teid_min r |> <| Rng.gtpu_teid_max := Rng.gtpu_teid_max r |>
    <| Rng.vxlan_gid := Rng.vxlan_gid r |> <| Rng.vxlan_gid_inc := Rng.vxlan_gid_inc r |>
    <| Rng.vxlan_gid_min := Rng.vxlan_gid_min r |> <| Rng.vxlan_gid_max := Rng.vxlan_gid_max r |>
    <| Rng.vxlan_vid := Rng.vxlan_vid r |> <| Rng.vxlan_vid_inc := Rng.vxlan_vid_inc r |>
    <| Rng.vxlan_vid_min := Rng.vxlan_vid_min r |> <| Rng.vxlan_vid_max := Rng.vxlan_vid_max r |>
    <| Rng.vni_flags := Rng.vni_flags r |>.
(** The packet type that is read: VLAN packets become IPv4 packets, and no line
    is read for other types, so the port's own type stays. *)
Definition typed (e e0 : Z) : Z :=
  if e =? PG_ETHER_TYPE_IPv4 then e else if e =? PG_ETHER_TYPE_IPv6 then e
  else if e =? PG_ETHER_TYPE_VLAN then PG_ETHER_TYPE_IPv4 else if e =? PG_ETHER_TYPE_ARP then e else e0.
(** The length that is read: limited for the type the port had before, moved
    with the type, and changed by the line for the latency mode *)
Definition sized (latency : bool) (q p : pkt_seq_t) : Z :=
  timed latency (resized (Pkt.ethType p) (typed (Pkt.ethType q) (Pkt.ethType p))
                   (clamp_size (Pkt.ethType p) (Pkt.pktSize q + PG_ETHER_CRC_LEN) - PG_ETHER_CRC_LEN)).

(** The packet [p] after [q] was loaded into it: all the fields [visible] shows
    but class, type of service, time to live, tunnel endpoint and offload flags
    are those of [q], its length and type with the exceptions above; an ICMP
    packet is loaded as IPv4, and every packet becomes one of UDP. *)
Definition restore_pkt (latency : bool) (q p : pkt_seq_t) : pkt_seq_t :=
  visible q <| Pkt.cos := Pkt.cos p |> <| Pkt.tos := Pkt.tos p |> <| Pkt.ttl := Pkt.ttl p |>
    <| Pkt.gtpu_teid := Pkt.gtpu_teid p |> <| Pkt.ol_flags := Pkt.ol_flags p |>
    <| Pkt.pktSize := sized latency q p |> <| Pkt.ipProto := PG_IPPROTO_UDP |>
    <| Pkt.ethType := if Pkt.ipProto q =? PG_IPPROTO_ICMP then PG_ETHER_TYPE_IPv4
                      else typed (Pkt.ethType q) (Pkt.ethType p) |>.

Section Saved.
Context `{Env} `{Texts} (i : Z) (Hi : 0 ≤ i < 64) (Hnd : NoDup devs) (Hin : i ∈ devs).
Context (info : port_info_t) (Hs : saveable i info) (Hr : restorable info).
#[local] Abbreviation pkt := (Info.seq_pkt info SINGLE_PKT).

#[local] Ltac widths :=
  repeat match goal with
  | H : Forall _ (_ :: _) |- _ => apply Forall_cons in H as [? H]
  | H : Forall _ [] |- _ => clear H
  end.
#[local] Ltac step tac := eapply moves_cons; [first [exact (moves_nil i)|apply moves_does; [done..|tac]]|].
#[local] Ltac able c := apply (effect_able_encap c); rewrite !elem_of_cons; tauto.
#[local] Ltac flag c := apply (effect_flags c); rewrite !elem_of_cons; tauto.

Definition type_saved (e : Z) (p : pkt_seq_t) : pkt_seq_t :=
  p <| Pkt.ethType := typed e (Pkt.ethType p) |>
    <| Pkt.pktSize := resized (Pkt.ethType p) (typed e (Pkt.ethType p)) (Pkt.pktSize p) |>.

Lemma resized_same e size : resized e e size = size.
Proof using.
  unfold resized, PG_ETHER_TYPE_IPv6, PG_ETHER_TYPE_IPv4.
  destruct (Z.eqb_spec e 0x86DD) as [->|]; [done|]. by rewrite andb_false_r.
Qed.

Lemma moves_type e : moves i (type_meaning i e) (λ s, s <| st_pkt ::= type_saved e |>).
Proof using Hi Hnd Hin.
  unfold type_meaning, type_saved, typed.
  repeat match goal with |- context [e =? ?t] => destruct (Z.eqb_spec e t) as [->|?];
    [apply moves_does; [done..|]; match goal with |- effect (Set_pkt_type ?t) _ => exact (effect_type t) end|] end.
  eapply moves_ext; [apply moves_nil|]. intros [? ? ? ? ? ? ? p]. symmetry.
  apply (f_equal (mk_settings _ _ _ _ _ _ _)). rewrite resized_same. by destruct p.
Qed.

Definition proto_saved (q p : pkt_seq_t) : pkt_seq_t :=
  p <| Pkt.ipProto := proto_of (proto_word (Pkt.ipProto q)) |>
    <| Pkt.ethType := if Pkt.ipProto q =? PG_IPPROTO_ICMP then PG_ETHER_TYPE_IPv4 else Pkt.ethType p |>.

Lemma effect_saved_proto q : effect (Set_proto (proto_word (Pkt.ipProto q))) (λ s, s <| st_pkt ::= proto_saved q |>).
Proof using.
  unfold proto_saved, proto_word.
  destruct (Z.eqb_spec (Pkt.ipProto q) PG_IPPROTO_TCP) as [->|]; [exact (effect_proto "tcp")|].
  destruct (Z.eqb_spec (Pkt.ipProto q) PG_IPPROTO_ICMP); [exact (effect_proto "icmp")|exact (effect_proto "udp")].
Qed.

Definition primary_saved (s : settings_t) : settings_t :=
  s <| st_count := u32 (Info.transmit_count info) |> <| st_prime := Info.prime_cnt info |>
    <| st_burst := Info.tx_burst info |> <| st_jitter := Info.jitter_threshold info |>
    <| st_pattern := Info.fill_pattern_type info |>
    <| st_pkt ::= λ p, proto_saved pkt (type_saved (Pkt.ethType pkt) (p <| Pkt.pktSize :=
           clamp_size (Pkt.ethType p) (Pkt.pktSize pkt + PG_ETHER_CRC_LEN) - PG_ETHER_CRC_LEN |>))
         <| Pkt.eth_dst_addr := Pkt.eth_dst_addr pkt |> <| Pkt.eth_src_addr := Pkt.eth_src_addr pkt |>
         <| Pkt.ip_dst_addr := Pkt.ip_dst_addr pkt |> <| Pkt.ip_src_addr := Pkt.ip_src_addr pkt |>
         <| Pkt.ip_mask := Pkt.ip_mask pkt |> <| Pkt.sport := Pkt.sport pkt |> <| Pkt.vlanid := Pkt.vlanid pkt |>
         <| Pkt.mpls_entry := Pkt.mpls_entry pkt |> <| Pkt.qinq_outerid := Pkt.qinq_outerid pkt |>
         <| Pkt.qinq_innerid := Pkt.qinq_innerid pkt |> <| Pkt.vni_flags := Pkt.vni_flags pkt |>
         <| Pkt.group_id := Pkt.group_id pkt |> <| Pkt.vxlan_id := Pkt.vxlan_id pkt |> |>.

Lemma moves_user : ∃ h, moves i (mjoin (match Info.fill_pattern_type info, cstring 16 (Info.user_pattern info) with
    | USER_FILL_PATTERN, _ :: _ => [does i (Set_user_pattern "pattern")]
    | _, _ => []
    end)) h ∧ ∀ s, st_pattern s = Info.fill_pattern_type info → h s = s.
Proof using Hi Hnd Hin.
  assert (moves i (mjoin []) id) as Hn by apply moves_nil.
  destruct (Info.fill_pattern_type info); try by exists id.
  destruct (cstring 16 _) as [|x u]; [by exists id|].
  eexists. split; [step ltac:(apply effect_user); apply moves_nil|]. intros s <-. by destruct s.
Qed.

Lemma moves_primary : moves i (mjoin (primary_meaning i info)) primary_saved.
Proof using Hi Hnd Hin Hs Hr.
  destruct Hs as [_ _ _ _ _ _ Hp _ _ _ _]. destruct (Hp SINGLE_PKT) as [_ P32 P16]. widths.
  destruct Hr as [Hok _ Hm _]. cbv zeta in Hm. unfold primary_meaning. cbv zeta.
  destruct moves_user as (h & Hh & Eh).
  eapply moves_ext; [eapply moves_join; [|eapply moves_join; [exact Hh|]]|].
  - step ltac:(apply effect_count). step ltac:(apply effect_size). step ltac:(apply effect_tx_rate).
    step ltac:(apply effect_burst, Hok). step ltac:(apply effect_sport). step ltac:(apply effect_dport).
    step ltac:(apply effect_prime, Hok). eapply moves_cons; [apply moves_type|].
    step ltac:(apply (effect_saved_proto pkt)). step ltac:(apply effect_dst_ip). step ltac:(apply effect_src_ip).
    step ltac:(apply effect_dst_mac). step ltac:(apply effect_src_mac). step ltac:(apply effect_vlan_id).
    step idtac. step ltac:(apply effect_pattern). apply moves_nil.
  - step idtac. step ltac:(apply effect_jitter). step ltac:(able Enable_mpls). step ltac:(apply effect_mpls). step ltac:(able Enable_qinq).
    step ltac:(apply effect_qinq). step ltac:(able Enable_gre).
    step ltac:(able Enable_gre_eth). step ltac:(able Enable_vxlan). step ltac:(apply effect_vxlan). apply moves_nil.
  - intros s. cbn beta. rewrite Eh by reflexivity. cbn [s_addr prefixlen].
    rewrite !ntohl_back, Hm, (wrap_small 16 (Pkt.sport pkt)) by done. reflexivity.
Qed.

(** What [disable rate] does to the burst is not undone. *)
Lemma moves_flags : moves i (mjoin (flag_meaning i info)) (λ s, s <| st_burst := DEFAULT_PKT_BURST |>
  <| st_pkt ::= λ p, p <| Pkt.pktSize ::= timed (tst_bits (Info.port_flags info) SEND_LATENCY_PKTS) |>
                       <| Pkt.ipProto := PG_IPPROTO_UDP |> |>).
Proof using Hi Hnd Hin Hr.
  unfold flag_meaning. cbv zeta. unfold switch at 10. rewrite (re_rate info Hr).
  eapply moves_ext.
  - step ltac:(flag Enable_icmp_echo). step ltac:(apply effect_pcap). step ltac:(apply effect_range).
    step ltac:(apply effect_latency). step ltac:(flag Enable_process).
    eapply moves_cons; [apply moves_acts; [done..|apply act_capture]|].
    eapply moves_cons; [apply moves_acts; [done..|apply effect_act, effect_tap]|].
    eapply moves_cons; [apply moves_acts; [done..|apply effect_act, effect_tap]|].
    step ltac:(able Enable_vlan). step ltac:(apply effect_no_rate). step idtac. apply moves_nil.
  - unfold switch. by destruct (tst_bits (Info.port_flags info) SEND_LATENCY_PKTS).
Qed.

Definition range_saved (s : settings_t) : settings_t :=
  s <| st_range ::= restore_range (Info.range info) |> <| st_pkt ::= λ p, p <| Pkt.gre_key := Pkt.gre_key pkt |> |>.

#[local] Ltac four L :=
  eapply moves_join; [eapply (moves_four i Hi Hnd Hin); [exact L|first [exact I|done|by intros ?|by intros _]..]|].

Lemma moves_range : moves i (mjoin (range_meaning i info)) range_saved.
Proof using Hi Hnd Hin Hs Hr.
  destruct Hs as [_ _ _ _ _ _ _ _ [_ R32 _ _ Rsz] _ _]. destruct Hr as [_ _ _ [Rv Ri Rc Rn Rp]].
  unfold range_meaning. cbv zeta. set (r := Info.range info) in *. widths.
  eapply moves_ext.
  - four ranged_src_mac. step idtac. four ranged_dst_mac. step idtac. four ranged_src_ip. step idtac.
    four ranged_dst_ip. step idtac. eapply moves_cons; [|step idtac].
    + instantiate (1 := λ s, s <| st_range ::= λ r', r' <| Rng.ip_proto := Rng.ip_proto r |> |>).
      destruct Rp as [-> | ->]; apply moves_does; try done; apply effect_range_proto; tauto.
    + four ranged_src_port. step idtac. four ranged_dst_port. step idtac. four ranged_ttl. step idtac.
      four ranged_vlan. step idtac. four ranged_cos. step idtac. four ranged_tos. step ltac:(apply effect_gre_key). step idtac.
      eapply moves_join; [exact (moves_four i Hi Hnd Hin _ _ _ (Rng.pkt_size r) (Rng.pkt_size_min r) (Rng.pkt_size_max r)
        (Rng.pkt_size_inc r) ranged_size ltac:(done) ltac:(done) ltac:(done) ltac:(done))|].
      step idtac. apply moves_nil.
  - intros [? ? ? ? ? ? [] ?]. unfold range_saved. subst r. generalize (Info.range info). intros []. reflexivity.
Qed.

Lemma moves_rate : moves i (mjoin (rate_meaning i info)) id.
Proof using Hi Hnd Hin.
  apply moves_still. unfold rate_meaning. cbv zeta.
  repeat (constructor; [first [apply moves_nil|apply moves_does, effect_rate_value; done]|]). constructor.
Qed.

Lemma moves_seq j : 0 ≤ j < NUM_SEQ_PKTS → moves i (seq_meaning i info j) id.
Proof using Hi Hnd Hin.
  intros Hj. unfold seq_meaning. cbv zeta.
  assert (∀ c, effect c id → moves i (does i c) id) as Hd by (intros c Hc; by apply moves_does).
  destruct (_ =? PG_ETHER_TYPE_IPv4); [by apply Hd, effect_seq|].
  destruct (_ =? PG_ETHER_TYPE_IPv6); [|apply moves_nil].
  destruct (_ =? PG_IPPROTO_ICMP); [apply moves_nil|by apply Hd, effect_seq].
Qed.

Lemma moves_seqs : moves i (mjoin (seqs_meaning i info)) (λ s, s <| st_seqs := Info.seqCnt info |>).
Proof using Hi Hnd Hin Hs.
  unfold seqs_meaning. eapply moves_ext; [eapply moves_cons; [apply moves_does, effect_seq_cnt, Hs; done|apply moves_still]|].
  - apply Forall_fmap, Forall_forall. intros j Hj%elem_of_seqZ. apply moves_seq. destruct (sv_seqCnt i info Hs). lia.
  - reflexivity.
Qed.

Lemma moves_rnd rnd : moves i (mjoin (rnd_meaning i rnd)) id.
Proof using Hi Hnd Hin.
  apply moves_still. unfold rnd_meaning. destruct (active_specs rnd =? 0); [constructor|].
  assert (moves i [] id) as Hn by apply moves_nil.
  apply Forall_app. split; [by repeat constructor|]. apply Forall_app. split; [|by repeat constructor].
  generalize (seqZ 0 MAX_RND_BITFIELDS). intros js. induction js as [|j js IH]; [constructor|]. cbn [omap list_omap].
  destruct (specs rnd !! Z.to_nat j) as [bf|]; cbn [mbind option_bind]; [|exact IH].
  destruct (_ =? 0); [exact IH|]. constructor; [|exact IH]. by apply moves_acts, act_random.
Qed.

(** What the settings [s] become *)
Definition restored (s : settings_t) : settings_t :=
  s <| st_count := u32 (Info.transmit_count info) |> <| st_prime := Info.prime_cnt info |>
    <| st_burst := DEFAULT_PKT_BURST |> <| st_jitter := Info.jitter_threshold info |>
    <| st_pattern := Info.fill_pattern_type info |> <| st_seqs := Info.seqCnt info |>
    <| st_range ::= restore_range (Info.range info) |>
    <| st_pkt ::= restore_pkt (tst_bits (Info.port_flags info) SEND_LATENCY_PKTS) pkt |>.

Lemma moves_port rnd : ∃ h, moves i (mjoin (port_meaning i info rnd)) h ∧ ∀ i0, h (settings i0) = restored (settings i0).
Proof using Hi Hnd Hin Hs Hr.
  assert (∀ n, moves i (mjoin (replicate n [])) id) as Hn.
  { intros n. apply moves_still, Forall_replicate, moves_nil. }
  assert (moves i (mjoin (match Info.pcap info with Some _ => replicate 4 [] | None => [] end)) id) as Hp.
  { destruct (Info.pcap info); [apply (Hn 4%nat)|apply (Hn 0%nat)]. }
  eexists. split.
  - unfold port_meaning.
    eapply moves_join; [apply (Hn 6%nat)|]. eapply moves_join; [exact moves_primary|]. eapply moves_join; [apply (Hn 2%nat)|].
    eapply moves_join; [exact moves_flags|]. eapply moves_join; [apply (Hn 2%nat)|]. eapply moves_join; [exact moves_range|].
    eapply moves_join; [apply (Hn 2%nat)|]. eapply moves_join; [exact moves_rate|]. eapply moves_join; [apply (Hn 2%nat)|].
    eapply moves_join; [exact moves_seqs|]. eapply moves_join; [exact Hp|]. eapply moves_join; [apply (Hn 1%nat)|].
    apply moves_rnd.
  - intros i0. unfold settings, restored, primary_saved, range_saved, restore_pkt, sized, type_saved, proto_saved.
    generalize (Info.seq_pkt i0 SINGLE_PKT) pkt (tst_bits (Info.port_flags info) SEND_LATENCY_PKTS).
    generalize (u32 (Info.transmit_count info)) timed resized typed clamp_size.
    intros. vm_compute. reflexivity.
Qed.
End Saved.

(** Loading a saved port *)
Lemma restores `{Env} `{Texts} (i : Z) (info : port_info_t) (rnd : rnd_bits_t) (c : console) (i0 : port_info_t) :
  0 ≤ i < 64 → NoDup devs → i ∈ devs → saveable i info → rnd_fits rnd → restorable info →
  ports_ok c → ports c i = Some i0 →
  ∃ c' i1, run_lines (port_lines i info rnd) c = Ok c' ∧ ports_ok c' ∧ ports c' i = Some i1 ∧
    settings i1 = restored info (settings i0) ∧ ∀ p, p ≠ i → ports c' p = ports c p.
Proof.
  intros Hi Hnd Hin Hs Hf Hr Hc Hp. destruct (moves_port i Hi Hnd Hin info Hs Hr rnd) as (h & Hm & Eh).
  destruct (Hm c i0 Hc Hp) as (c' & i1 & E & Hc' & Hp' & Es & Ho). exists c', i1.
  rewrite (run_reads _ _ c (read_port i Hi info Hs rnd Hf)), E. by rewrite <-Eh.
Qed.

(** ** The properties *)

(** Every line that [pktgen_script_save] writes for a port is a line the
    console understands, or refuses: loading the section does exactly the
    commands of [port_meaning], in their order, for any values of the port's
    fields.  Where the meaning of a line is no command, or not the one that would
    set the saved value, the saved setting is lost. *)
Theorem script_read_back `{Env} `{Texts} (i : Z) (info : port_info_t) (rnd : rnd_bits_t) (c : console) :
  0 ≤ i < 64 → saveable i info → rnd_fits rnd →
  run_lines (port_lines i info rnd) c = defined_as (run_steps (mjoin (port_meaning i info rnd)) c).
Proof. intros Hi Hs Hr. apply run_reads. by apply read_port. Qed.

(** Saving a port and loading the file: in any state the whole section runs,
    port [i] gets the saved transmit count (modulo 2^32), prime count, jitter,
    fill pattern, sequence count, range page, apart from its tunnel identifiers,
    and single packet as [restore_pkt] says, and every other port stays as it is.
    The burst is set to 64, whatever was saved. *)
Theorem port_restored `{Env} `{Texts} (i : Z) (info : port_info_t) (rnd : rnd_bits_t) (c : console) (i0 : port_info_t) :
  0 ≤ i < 64 → NoDup devs → i ∈ devs → saveable i info → rnd_fits rnd → restorable info →
  ports_ok c → ports c i = Some i0 →
  ∃ c' i1, run_lines (port_lines i info rnd) c = Ok c' ∧ ports_ok c' ∧ ports c' i = Some i1 ∧
    settings i1 = restored info (settings i0) ∧ ∀ p, p ≠ i → ports c' p = ports c p.
Proof. apply restores. Qed.

(** ** Witnesses *)

(** A saved port: defaults, a range of UDP packets, one sequence packet *)
Definition plain_texts : Texts := {|
  fmt_g := λ _, str "100"; pktgen_version := []; copyright_msg := []; powered_by := []; argv0 := str "pktgen"; args := [];
  enabled := [0]; primary := true; nb_rxd := 1024; nb_txd := 1024; rows := 24; cols := 80;
  link_state := λ _, str "up"; filename := λ _, [] |}.
Definition saved_port : port_info_t :=
  info fresh_port <| Info.pid := 1 |> <| Info.transmit_count := 1000 |> <| Info.seqCnt := 1 |>
    <| Info.seq_pkt := λ _, Pkt.zero <| Pkt.pktSize := 60 |> <| Pkt.ethType := PG_ETHER_TYPE_IPv4 |>
         <| Pkt.ip_mask := 0xFFFFFF00 |> <| Pkt.sport := 1234 |> |>
    <| Info.range ::= λ r, r <| Rng.ip_proto := PG_IPPROTO_UDP |> <| Rng.vlan_id := 1 |> <| Rng.vlan_id_min := 1 |>
         <| Rng.vlan_id_max := 4095 |> <| Rng.pkt_size := 60 |> <| Rng.pkt_size_min := 60 |> <| Rng.pkt_size_max := 1514 |> |>.

Lemma saved_port_saveable : @saveable plain_texts 1 saved_port.
Proof.
  by split; repeat constructor.
Qed.

Lemma saved_port_restorable : restorable saved_port.
Proof.
  split.
  - split; cbn; try done. split; try done. intros i j _ _ _ _. by rewrite Z.testbit_0_l.
  - done.
  - by vm_compute.
  - by split; repeat constructor.
Qed.

Lemma script_read_back_witness :
  @run_lines lab (@port_lines plain_texts 1 saved_port rnd_bits_zero) lab_console =
  defined_as (@run_steps lab (mjoin (@port_meaning lab plain_texts 1 saved_port rnd_bits_zero)) lab_console).
Proof.
  apply (@script_read_back lab plain_texts 1 saved_port rnd_bits_zero lab_console); [lia|apply saved_port_saveable|by repeat constructor].
Defined.

Lemma port_restored_witness :
  ∃ c' i1, @run_lines lab (@port_lines plain_texts 1 saved_port rnd_bits_zero) lab_console = Ok c' ∧
    ports c' 1 = Some i1 ∧ Info.transmit_count i1 = 1000 ∧ Rng.vlan_id_max (Info.range i1) = 4095.
Proof.
  destruct (ports lab_console 1) as [i0|] eqn:Ep; [|discriminate].
  destruct (@port_restored lab plain_texts 1 saved_port rnd_bits_zero lab_console i0) as (c' & i1 & E & _ & Hp & Es & _);
    [lia|by repeat constructor; rewrite ?elem_of_cons, ?elem_of_nil; lia|by right; left|apply saved_port_saveable|by repeat constructor
    |apply saved_port_restorable|apply lab_ok|exact Ep|].
  exists c', i1. split_and!; [exact E|exact Hp|exact (f_equal st_count Es)|].
  exact (f_equal (λ s, Rng.vlan_id_max (st_range s)) Es).
Defined.
