(* ===== verification/Reload.v ===== *)
(** * A saved port through the terminal

    The section of a port that [pktgen_script_save] writes ([Save]), as the bytes of
    a file that [cli_execute_cmdfile] reads ([Terminal]). *)
From Stdlib Require Import Ascii String.
From S2P Require Import Prelude Mem PortInfo RandomBits Session Strings Console ConsoleFacts Save SaveFacts Restore.
From S2P Require Import GapBuf History Keys CliEnv Terminal TerminalFacts.

(** C10. The file that is written is read back: the bytes of a saved port's section,
    loaded at a terminal with more entries of history than the section has lines
    with an alias, run to the end and leave every other port as it was; the
    terminal is at its prompt again.  The port's settings are then those
    [restored] computes: the transmit count modulo 2^32, the prime count, the
    jitter, the fill pattern and the sequence count that were saved, a burst of
    64; the range page that was saved, but for its tunnel identifiers; and of the
    single packet the addresses, the mask, the source port and the identifiers
    of VLAN, MPLS, Q-in-Q, GRE and VxLAN that were saved.  Its type comes back, but a VLAN or
    ICMP packet as IPv4; its length is the saved one limited for the old type,
    moved with the type, and changed by the line for the latency mode, and its
    protocol is always UDP, which that line sets.  Of the section's other lines
    (the destination port, the rates, the sequence's packets, the random bits,
    the mode flags) the theorem says no more than that they run.  The port
    saved is in a state that commands lead to ([restorable]): no video rate, a
    mask that is a prefix, a range within the limits of the range commands. *)
Theorem saved_file_loads `{Env} `{Texts} (i : Z) (info : port_info_t) (rnd : rnd_bits_t)
    (n : nat) (t : terminal) (l : list Z) (i0 : port_info_t) :
  0 ≤ i < 64 → NoDup devs → i ∈ devs → saveable i info → rnd_fits rnd → restorable info →
  Forall line_ok (port_lines i info rnd) → (sum_list (taken <$> port_lines i info rnd) < n)%nat →
  prompt n t l → ports_ok (con t) → ports (con t) i = Some i0 →
  ∃ t' i1, cli_execute_cmdfile (Some (file_of (port_lines i info rnd))) t = Runs (0, t') ∧ (∃ m, prompt m t' []) ∧
    ports_ok (con t') ∧ ports (con t') i = Some i1 ∧ settings i1 = restored info (settings i0) ∧
    ∀ p, p ≠ i → ports (con t') p = ports (con t) p.
Proof.
  intros Hi Hnd Hin Hs Hf Hr Hl Hn Hp Hc Hi0.
  destruct (restores i info rnd (con t) i0 Hi Hnd Hin Hs Hf Hr Hc Hi0) as (c' & i1 & E & Hc' & Hi1 & Es & Ho).
  destruct (file_loads n t l _ [] c' Hp Hl ltac:(split; [constructor|done]) Hn E) as (t' & E' & <- & Hp').
  rewrite app_nil_r in E'. exists t', i1. split_and!; [exact E'|by eexists|exact Hc'|exact Hi1|exact Es|exact Ho].
Qed.

Lemma saved_file_loads_witness :
  ∃ t' i1, @cli_execute_cmdfile lab (Some (file_of (@port_lines plain_texts 1 saved_port rnd_bits_zero))) (lab_terminal 2) =
      Runs (0, t') ∧ ports (con t') 1 = Some i1 ∧ Info.transmit_count i1 = 1000 ∧ Rng.vlan_id_max (Info.range i1) = 4095 ∧
      Pkt.pktSize (Info.seq_pkt i1 SINGLE_PKT) = 60 ∧ Pkt.ipProto (Info.seq_pkt i1 SINGLE_PKT) = PG_IPPROTO_UDP.
Proof.
  destruct (ports lab_console 1) as [i0|] eqn:Ep; [|discriminate].
  destruct (@saved_file_loads lab plain_texts 1 saved_port rnd_bits_zero 2 (lab_terminal 2) [] i0)
    as (t' & i1 & E & _ & _ & Hp & Es & _);
    [lia|by repeat constructor; rewrite ?elem_of_cons, ?elem_of_nil; lia|by right; left|apply saved_port_saveable|by repeat constructor
    |apply saved_port_restorable|by apply (bool_decide_unpack _); vm_compute|apply Nat.ltb_lt; by vm_compute
    |by apply (lab_prompt 2)|apply lab_ok|exact Ep|].
  exists t', i1. split_and!; [exact E|exact Hp|exact (f_equal st_count Es)|..].
  - exact (f_equal (λ s, Rng.vlan_id_max (st_range s)) Es).
  - etransitivity; [exact (f_equal (λ s, Pkt.pktSize (st_pkt s)) Es)|].
    injection Ep as <-. vm_compute. reflexivity.
  - exact (f_equal (λ s, Pkt.ipProto (st_pkt s)) Es).
Defined.
