(* ===== verification/Lua.v ===== *)
(** * The Lua front end

    The functions [app/lpktgenlib.c] gives to Lua scripts: each looks at its
    arguments and carries out the commands of [Session] on the ports of a list, as
    the handlers of [Console] do.  Lua itself is not part of the sources: what its
    library functions make of a value is stated here for the kinds of values,
    with the parts that depend on its number formats in the class [Lua].  Functions
    that wait, read the keyboard, open files or show help are not modelled. *)
From Stdlib Require Import Floats.SpecFloat Ascii String.
From S2P Require Import Prelude Mem PortInfo RandomBits Headers Pacing Commands Session Capture.
From S2P Require Import Strings PortList CliMap Console Save.

(** ** Values *)

Inductive lua_num := Int (n : Z) | Flt (x : spec_float).
Inductive lua_key := Idx (n : Z) | Name (s : list Z).
#[global] Instance lua_key_eq : EqDecision lua_key.
Proof. solve_decision. Defined.

(** A table gives [Nil] for what it does not have. *)
Inductive lua_value := Nil | Bool (b : bool) | Num (n : lua_num) | Str (s : list Z) | Table (t : lua_key → lua_value).

(** How a float is written, the number a string stands for, and the integer a float
    is equal to *)
Class Lua := {
  flt_text : spec_float → list Z; number_of : list Z → option lua_num; whole : spec_float → option Z }.

(** Arguments are counted from 1; a wrong one raises an error, [Refused]. *)
Definition lua_arg (args : list lua_value) (i : nat) : lua_value := default Nil (args !! pred i).
Definition or_error {A} (o : option A) : res A := match o with Some a => Ok a | None => Refused end.

(** What C takes for the string ends at its first zero byte. *)
Definition tolstring `{Lua} (v : lua_value) : option (list Z) :=
  match v with
  | Str s => Some (cstr s)
  | Num (Int n) => Some (dec n)
  | Num (Flt x) => Some (flt_text x)
  | _ => None
  end.
Definition luaL_checkstring `{Lua} (args : list lua_value) (i : nat) : res (list Z) := or_error (tolstring (lua_arg args i)).

Definition tonumber `{Lua} (v : lua_value) : option lua_num :=
  match v with Num n => Some n | Str s => number_of s | _ => None end.
Definition luaL_checknumber `{Lua} (args : list lua_value) (i : nat) : res lua_num := or_error (tonumber (lua_arg args i)).
Definition luaL_checkinteger `{Lua} (args : list lua_value) (i : nat) : res Z :=
  n ← luaL_checknumber args i; or_error (match n with Int n => Some n | Flt x => whole x end).

(** A number, which is a [double], as a [uint32_t]; what does not fit has no value. *)
Definition u32_of (n : lua_num) : res Z :=
  z ← defined_as (match n with Int n => Some n | Flt x => sf_trunc x end);
  if (0 <=? z) && (z <? 2 ^ 32) then Ok z else Undef.

(** ** Functions

    A function gives the state of the program and what it returns, or raises an
    error; errors are raised before anything has been done. *)
Definition lua_fun : Type := list lua_value → console → res (console * list lua_value).

Definition no_values (o : option console) : res (console * list lua_value) := c ← defined_as o; Ok (c, []).
Definition do_steps `{Env} (ss : list step) (c : console) : res (console * list lua_value) := no_values (run_steps ss c).

Definition argc (args : list lua_value) (n : nat) : res unit := if (length args =? n)%nat then Ok tt else Refused.
Definition lua_portlist `{Env} `{Lua} (args : list lua_value) (i : nat) : res Z :=
  s ← luaL_checkstring args i; Ok (portlist_of s).

(** Is a port of the list set up? *)
Definition selects `{Env} (pl : Z) (c : console) : bool :=
  existsb (λ pid, Z.testbit pl pid && match ports c pid with Some _ => true | None => false end) devs.

(** [foreach_port]: arguments that are looked at for every port are looked at only
    when there is one. *)
Definition foreach `{Env} (pl : Z) (acts : res (Z → list action)) (after : list step) (c : console)
    : res (console * list lua_value) :=
  match acts with
  | Ok acts => do_steps (Each pl (λ _, acts) :: after) c
  | Refused => if selects pl c then Refused else do_steps after c
  | Undef => if selects pl c then Undef else do_steps after c
  end.
Definition commands (cs : res (list command)) : res (Z → list action) :=
  match cs with Ok l => Ok (λ _, Do <$> l) | Refused => Refused | Undef => Undef end.

(** A function of a port list and [n] arguments in all; [cs] are the commands for
    each of its ports. *)
Definition on_ports `{Env} `{Lua} (n : nat) (cs : list lua_value → res (list command)) (after : list step) : lua_fun :=
  λ args c, _ ← argc args n; pl ← lua_portlist args 1; foreach pl (commands (cs args)) after c.
(** The same, and an argument of it is looked at before the ports are *)
Definition on_ports_with `{Env} `{Lua} {A} (n : nat) (read : list lua_value → res A) (cs : A → list lua_value → res (list command))
    (after : list step) : lua_fun :=
  λ args c, _ ← argc args n; pl ← lua_portlist args 1; a ← read args; foreach pl (commands (cs a args)) after c.

(** An option that is switched *)
Definition switched `{Env} `{Lua} (f : Z → command) (after : list step) : lua_fun :=
  on_ports 2 (λ args, s ← luaL_checkstring args 2; Ok [f (estate s)]) after.

Definition shown : list step := [update_display].

(** ** Setting values *)

Definition named (s : string) (what : list Z) : bool := pg_strmatch (to_lower <$> what) (str s).

(** [value] is the third argument as an integer; the rate is taken from its text. *)
Definition set_what `{Env} `{Lua} (what : list Z) (value : Z) (args : list lua_value) : res (list command) :=
  if named "count" what then Ok [Set_tx_count value]
  else if named "size" what then Ok [Set_pkt_size (u16 value)]
  else if named "rate" what then r ← luaL_checkstring args 3; Ok [Set_tx_rate (strtod r)]
  else if named "burst" what then Ok [Set_tx_burst value]
  else if named "cycles" what then Ok [Set_tx_cycles value]
  else if named "sport" what || named "dport" what then Ok [Set_port (first_char what) value]
  else if named "ttl" what then Ok [Set_ttl (u8 value)]
  else if named "seq_cnt" what || named "seqcnt" what then Ok [Set_seq_cnt value]
  else if named "prime" what then Ok [Set_prime value]
  else if named "dump" what then Ok [Set_dump value]
  else Refused.

Definition pktgen_set `{Env} `{Lua} : lua_fun :=
  on_ports_with 3 (λ args, what ← luaL_checkstring args 2; n ← luaL_checknumber args 3; value ← u32_of n; Ok (what, value))
    (λ '(what, value) args, set_what what value args) shown.

(** ** Sequence packets *)

(** A character of a string that may be too short for it *)
Definition char_at (s : list Z) (i : nat) : res ascii := if (length s <? i)%nat then Undef else Ok (chr (text s) i).

(** Addresses of version 6 are not modelled; a negative number of results, after a
    message or for a slot that does not exist, is nothing Lua defines. *)
Definition set_seq `{Env} `{Lua} (seqnum : Z) (args : list lua_value) (c : console) : res (console * list lua_value) :=
  pl ← lua_portlist args 2;
  dmac ← luaL_checkstring args 3; smac ← luaL_checkstring args 4;
  sport ← luaL_checkinteger args 7; dport ← luaL_checkinteger args 8;
  ip ← luaL_checkstring args 9; eth ← char_at ip 3;
  if Ascii.eqb eth "6" then Undef
  else
    dip ← luaL_checkstring args 5; sip ← luaL_checkstring args 6;
    proto ← luaL_checkstring args 10;
    vlanid ← luaL_checkinteger args 11; pktsize ← luaL_checkinteger args 12;
    teid ← (if (length args =? 13)%nat then luaL_checkinteger args 13 else Ok 0);
    '(cos, tos) ← (if (13 <? length args)%nat
                   then x ← luaL_checkinteger args 14; y ← luaL_checkinteger args 15; Ok (u8 x, u8 y) else Ok (0, 0));
    foreach pl
      (commands (Ok [Seq seqnum (mac_into dmac) (mac_into smac) (atoip dip false junk_ip) (atoip sip true junk_ip)
                       (u32 sport) (u32 dport) eth (first_char proto) (u16 vlanid) (u32 pktsize) (u32 teid);
                     Seq_cos_tos seqnum cos tos])) shown c.

Definition seq_slot_of `{Lua} (args : list lua_value) : res Z :=
  n ← luaL_checkinteger args 1; if NUM_SEQ_PKTS <=? u32 n then Undef else Ok (u32 n).

Definition pktgen_seq `{Env} `{Lua} : lua_fun := λ args c,
  if ((length args =? 12) || (length args =? 13))%nat then n ← seq_slot_of args; set_seq n args c else Refused.

(** Fields of the table in the third argument *)
Definition field `{Lua} (args : list lua_value) (name : string) : res lua_value :=
  match lua_arg args 3 with Table t => Ok (t (Name (str name))) | Str _ => Undef | _ => Refused end.
Definition getf_etheraddr `{Env} `{Lua} (args : list lua_value) (name : string) : res Z :=
  v ← field args name; Ok (match tolstring v with Some s => mac_into s | None => junk_mac end).
Definition getf_ipaddr `{Env} `{Lua} (args : list lua_value) (name : string) (network : bool) : res pg_ipaddr :=
  v ← field args name; Ok (match tolstring v with Some s => atoip s network junk_ip | None => junk_ip end).
Definition getf_integer `{Lua} (args : list lua_value) (name : string) : res Z :=
  v ← field args name; Ok (match v with Num (Int n) => u32 n | _ => 0 end).
(** A missing string is [NULL], which is looked into. *)
Definition getf_string `{Lua} (args : list lua_value) (name : string) : res (list Z) :=
  v ← field args name; defined_as (tolstring v).

Definition set_seqTable `{Env} `{Lua} (seqnum : Z) (args : list lua_value) (c : console) : res (console * list lua_value) :=
  pl ← lua_portlist args 2;
  dmac ← getf_etheraddr args "eth_dst_addr"; smac ← getf_etheraddr args "eth_src_addr";
  dip ← getf_ipaddr args "ip_dst_addr" false; sip ← getf_ipaddr args "ip_src_addr" true;
  sport ← getf_integer args "sport"; dport ← getf_integer args "dport";
  proto ← getf_string args "ipProto"; type ← field args "ethType";
  vlanid ← getf_integer args "vlanid"; pktSize ← getf_integer args "pktSize";
  cos ← getf_integer args "cos"; tos ← getf_integer args "tos"; teid ← getf_integer args "gtpu_teid";
  let eth := s ← defined_as (tolstring type); char_at s 3 in
  icmp6 ← (if Ascii.eqb (first_char proto) "i" then e ← eth; Ok (Ascii.eqb e "6") else Ok false);
  if icmp6 : bool then Undef
  else
    foreach pl
      (commands (e ← eth; Ok [Seq seqnum dmac smac dip sip sport dport e (first_char proto) (u16 vlanid) pktSize teid;
                              Seq_cos_tos seqnum (u8 cos) (u8 tos)])) shown c.

Definition pktgen_seqTable `{Env} `{Lua} : lua_fun := λ args c,
  _ ← argc args 3; n ← seq_slot_of args; set_seqTable n args c.

(** ** The single packet *)

Definition with_word `{Lua} {A} (i : nat) (f : list Z → A) (args : list lua_value) : res A := s ← luaL_checkstring args i; Ok (f s).
Definition with_int `{Lua} {A} (i : nat) (f : Z → A) (args : list lua_value) : res A := n ← luaL_checkinteger args i; Ok (f n).

Definition pktgen_icmp `{Env} `{Lua} : lua_fun := switched Enable_icmp_echo [].
Definition pktgen_sendARP `{Env} `{Lua} : lua_fun :=
  on_ports_with 2 (with_word 2 first_char) (λ t _, Ok [Send_arp (if Ascii.eqb t "g" then GRATUITOUS_ARP else 0)]) [].
Definition pktgen_set_mac `{Env} `{Lua} : lua_fun :=
  on_ports_with 3 (with_word 3 mac_into) (λ mac, with_word 2 (λ w, [Set_mac (text w) mac])) shown.
Definition pktgen_macFromArp `{Env} `{Lua} : lua_fun := λ args c,
  _ ← argc args 1; s ← luaL_checkstring args 1; do_steps [On_globals (λ w, enable_mac_from_arp w (estate s))] c.
Definition pktgen_prototype `{Env} `{Lua} : lua_fun := on_ports_with 2 (with_word 2 text) (λ t _, Ok [Set_proto t]) [].
Definition pktgen_set_ip_addr `{Env} `{Lua} : lua_fun :=
  on_ports_with 3 (λ args, t ← luaL_checkstring args 2; s ← luaL_checkstring args 3; Ok (first_char t, s))
    (λ '(t, s) _, Ok [Set_ipaddr t (atoip s (Ascii.eqb t "s") junk_ip)]) shown.
Definition pktgen_set_type `{Env} `{Lua} : lua_fun := on_ports_with 2 (with_word 2 text) (λ t _, Ok [Set_pkt_type t]) shown.
Definition pktgen_send_ping4 `{Env} `{Lua} : lua_fun := on_ports 1 (λ _, Ok [Ping4]) [].
Definition pktgen_pcap `{Env} `{Lua} : lua_fun := on_ports_with 2 (with_word 2 estate) (λ s _, Ok [Enable_pcap s]) [].
Definition pktgen_start `{Env} `{Lua} : lua_fun := on_ports 1 (λ _, Ok [Start]) [].
Definition pktgen_stop `{Env} `{Lua} : lua_fun := on_ports 1 (λ _, Ok [Stop]) [].
Definition pktgen_scrn `{Env} `{Lua} : lua_fun := λ args c,
  _ ← argc args 1; s ← luaL_checkstring args 1; do_steps [On_globals (pktgen_screen (estate s))] c.
Definition pktgen_prime `{Env} `{Lua} : lua_fun := on_ports 1 (λ _, Ok [Prime]) [].

(** The VLAN identifier, 1 when it is out of range *)
Definition valid_vlan (n : Z) : Z := if (u32 n <? MIN_VLAN_ID) || (MAX_VLAN_ID <? u32 n) then 1 else u32 n.
Definition single_vlan_id `{Env} `{Lua} : lua_fun :=
  on_ports_with 2 (with_int 2 valid_vlan) (λ v _, Ok [Set_vlan_id (u16 v)]) shown.
(** Three arguments are asked for; the second is not looked at. *)
Definition single_cos `{Env} `{Lua} : lua_fun :=
  on_ports_with 3 (with_int 3 u8) (λ v _, Ok [Set_cos (if MAX_COS <? v then 0 else v)]) shown.
Definition single_tos `{Env} `{Lua} : lua_fun := on_ports_with 2 (with_int 2 u8) (λ v _, Ok [Set_tos v]) shown.
(** Flags and group are cut to 8 bits here. *)
Definition single_vxlan_id `{Env} `{Lua} : lua_fun :=
  on_ports_with 4 (λ args, f ← luaL_checkinteger args 2; g ← luaL_checkinteger args 3; v ← luaL_checkinteger args 4; Ok (u8 f, u8 g, u32 v))
    (λ '(f, g, v) _, Ok [Set_vxlan f g v]) shown.
Definition single_vlan `{Env} `{Lua} : lua_fun := switched Enable_vlan shown.
Definition single_vxlan `{Env} `{Lua} : lua_fun := switched Enable_vxlan shown.
Definition range_mpls_entry `{Env} `{Lua} : lua_fun :=
  on_ports_with 2 (with_word 2 (λ s, u32 (fst (fst (strtoul 16 s))))) (λ v _, Ok [Set_mpls v]) shown.
Definition pktgen_mpls `{Env} `{Lua} : lua_fun := switched Enable_mpls shown.
Definition range_qinqids `{Env} `{Lua} : lua_fun :=
  on_ports_with 3 (λ args, a ← luaL_checkinteger args 2; b ← luaL_checkinteger args 3; Ok (valid_vlan a, valid_vlan b))
    (λ '(a, b) _, Ok [Set_qinq (u16 a) (u16 b)]) shown.
Definition pktgen_qinq `{Env} `{Lua} : lua_fun := switched Enable_qinq shown.
Definition range_gre_key `{Env} `{Lua} : lua_fun := on_ports_with 2 (with_int 2 u32) (λ v _, Ok [Set_gre_key v]) shown.
Definition pktgen_gre `{Env} `{Lua} : lua_fun := switched Enable_gre shown.
Definition pktgen_gre_eth `{Env} `{Lua} : lua_fun := switched Enable_gre_eth shown.
Definition pktgen_latency `{Env} `{Lua} : lua_fun := switched Enable_latency shown.
Definition pktgen_jitter `{Env} `{Lua} : lua_fun := on_ports 2 (with_int 2 (λ n, [Set_jitter timer_hz (u64 n)])) shown.
Definition pktgen_pattern `{Env} `{Lua} : lua_fun := on_ports 2 (with_word 2 (λ s, [Set_pattern (text s)])) shown.
Definition pktgen_user_pattern `{Env} `{Lua} : lua_fun := on_ports 2 (with_word 2 (λ s, [Set_user_pattern (text s)])) shown.
Definition pktgen_process `{Env} `{Lua} : lua_fun := switched Enable_process shown.
Definition pktgen_garp `{Env} `{Lua} : lua_fun := switched Enable_garp shown.
Definition pktgen_range `{Env} `{Lua} : lua_fun := switched Enable_range shown.

(** ** Ranges *)

(** [what], then a number of [w] bits *)
Definition range_number `{Env} `{Lua} (f : string → Z → command) (cut : Z → Z) : lua_fun :=
  on_ports 3 (λ args, w ← luaL_checkstring args 2; n ← luaL_checkinteger args 3; Ok [f (text w) (cut n)]) shown.
Definition range_dst_mac `{Env} `{Lua} : lua_fun :=
  on_ports_with 3 (with_word 3 mac_into) (λ mac, with_word 2 (λ w, [Range_dst_mac (text w) mac])) shown.
Definition range_src_mac `{Env} `{Lua} : lua_fun :=
  on_ports_with 3 (with_word 3 mac_into) (λ mac, with_word 2 (λ w, [Range_src_mac (text w) mac])) shown.
Definition range_address `{Env} `{Lua} (f : string → pg_ipaddr → command) : lua_fun :=
  on_ports_with 3 (λ args, s ← luaL_checkstring args 3; w ← luaL_checkstring args 2; Ok (s, w))
    (λ '(s, w) _, Ok [f (text w) (atoip s false junk_ip)]) shown.
Definition range_dst_ip `{Env} `{Lua} : lua_fun := range_address Range_dst_ip.
Definition range_src_ip `{Env} `{Lua} : lua_fun := range_address Range_src_ip.
Definition range_ip_proto `{Env} `{Lua} : lua_fun := on_ports_with 2 (with_word 2 text) (λ t _, Ok [Range_set_proto t]) shown.
Definition range_dst_port `{Env} `{Lua} : lua_fun := range_number Range_dst_port u16.
Definition range_src_port `{Env} `{Lua} : lua_fun := range_number Range_src_port u16.
Definition range_ttl `{Env} `{Lua} : lua_fun := range_number Range_ttl u8.
Definition range_gtpu_teid `{Env} `{Lua} : lua_fun := range_number Range_teid u32.
(** The number is looked at before the ports are. *)
Definition range_number_first `{Env} `{Lua} (f : string → Z → command) (cut : Z → Z) : lua_fun :=
  on_ports_with 3 (with_int 3 cut) (λ n, with_word 2 (λ w, [f (text w) n])) shown.
Definition range_vlan_id `{Env} `{Lua} : lua_fun := range_number_first Range_vlan u16.
Definition range_cos `{Env} `{Lua} : lua_fun := range_number_first Range_cos u8.
Definition range_tos `{Env} `{Lua} : lua_fun := range_number_first Range_tos u8.
Definition range_pkt_size `{Env} `{Lua} : lua_fun :=
  on_ports_with 3 (λ args, w ← luaL_checkstring args 2; n ← luaL_checkinteger args 3; Ok (w, u16 n))
    (λ '(w, n) _, Ok [Range_size (text w) n]) shown.

(** ** Other actions on ports *)

Definition on_ports_do `{Env} `{Lua} (n : nat) (acts : list lua_value → res (Z → list action)) (after : list step) : lua_fun :=
  λ args c, _ ← argc args n; pl ← lua_portlist args 1; foreach pl (acts args) after c.
Definition switched_do `{Env} `{Lua} (f : Z → Z → action) (after : list step) : lua_fun :=
  on_ports_do 2 (λ args, s ← luaL_checkstring args 2; Ok (λ pid, [f pid (estate s)])) after.

Definition pktgen_capture `{Env} `{Lua} : lua_fun := switched_do (λ _, Set_capture) shown.
Definition pktgen_bonding `{Env} `{Lua} : lua_fun :=
  switched_do (λ pid s, Do (Enable_bonding (bond_conf pid) (bond_slaves pid) (bond_active pid) s)) shown.
Definition pktgen_rxtap `{Env} `{Lua} : lua_fun := switched_do (λ pid s, Do (Enable_rx_tap (tap pid) s)) shown.
Definition pktgen_txtap `{Env} `{Lua} : lua_fun := switched_do (λ pid s, Do (Enable_tx_tap (tap pid) s)) shown.
Definition pktgen_blink `{Env} `{Lua} : lua_fun := switched_do (λ _, Blink) (On_globals set_blinking :: shown).
Definition pktgen_clear `{Env} `{Lua} : lua_fun := on_ports_do 1 (λ _, Ok (λ pid, [Do (Clear_stats (hw_stats pid))])) shown.
(** [forall_ports] *)
Definition pktgen_clear_all `{Env} : lua_fun := λ _ c,
  do_steps [Each (-1) (λ _ pid, [Do (Clear_stats (hw_stats pid))]); update_display] c.
Definition pktgen_reset_config `{Env} `{Lua} : lua_fun := on_ports_do 1 (λ _, Ok (λ _, [Reset])) [].
Definition pktgen_restart `{Env} `{Lua} : lua_fun := on_ports 1 (λ _, Ok [Port_restart]) [].

Definition pktgen_rnd `{Env} `{Lua} : lua_fun := λ args c,
  _ ← argc args 4; pl ← lua_portlist args 1;
  if pl =? 0 then do_steps [] c
  else
    m ← luaL_checkstring args 4;
    let mask := if pg_strmatch m (str "off") then [] else mask_chars m in
    foreach pl (x ← luaL_checkinteger args 2; y ← luaL_checkinteger args 3; Ok (λ _, [Random x y mask])) [] c.

(** ** The display *)
Definition pktgen_ports_per_page `{Env} `{Lua} : lua_fun := λ args c,
  _ ← argc args 1; n ← luaL_checkinteger args 1; do_steps [On_globals (λ w, pktgen_set_page_size paused w (u32 n))] c.
Definition pktgen_cls_screen `{Env} : lua_fun := λ _ c, do_steps [clear_display] c.
Definition pktgen_update_screen `{Env} : lua_fun := λ _ c, do_steps [update_display] c.
Definition pktgen_page `{Env} `{Lua} : lua_fun := λ args c,
  _ ← argc args 1; s ← luaL_checkstring args 1; do_steps [On_page (text s)] c.
Definition pktgen_port `{Env} `{Lua} : lua_fun := λ args c,
  _ ← argc args 1; n ← luaL_checkinteger args 1; do_steps [On_globals (λ w, pktgen_set_port_number paused w (u16 n))] c.
