(* ===== verification/LuaReports.v ===== *)
(** * What Lua scripts are told

    The functions of [app/lpktgenlib.c] that return tables about the ports of a
    list, and the table of functions a script sees.  What functions that are not
    modelled do is left open. *)
From Stdlib Require Import Floats.SpecFloat Ascii String.
From S2P Require Import Prelude Mem PortInfo RandomBits Headers Pacing Commands Session Capture.
From S2P Require Import Inet Strings PortList CliMap Console Save Lua.

(** The texts of a device's address, link and place on the bus, and a local
    variable's contents *)
Class Devices := { mac_addr : Z → list Z; link_of : Z → list Z; pci_of : Z → list Z; junk_stats : eth_stats_t }.

(** ** Tables *)

Definition integer (n : Z) : lua_value := Num (Int (swrap 64 n)).
Definition rawset (k : lua_key) (v : lua_value) (t : lua_key → lua_value) : lua_key → lua_value :=
  λ k', if decide (k' = k) then v else t k'.
Definition setf (name : string) (v : lua_value) : (lua_key → lua_value) → lua_key → lua_value := rawset (Name (str name)) v.
Definition record (l : list (string * lua_value)) : lua_value :=
  Table (foldl (λ t '(name, v), setf name v t) (λ _, Nil) l).
Definition integers (l : list (string * Z)) : list (string * lua_value) := (λ '(name, n), (name, integer n)) <$> l.

(** An entry for every port of the list under the port's number, and their number;
    [f] may change the port. *)
Fixpoint report_devs (f : Z → port_info_t → console → port_info_t * lua_value) (ds : list Z) (pl : Z)
    (t : lua_key → lua_value) (n : Z) (c : console) : console * lua_value :=
  match ds with
  | [] => (c, Table (setf "n" (integer n) t))
  | pid :: ds =>
      if negb (Z.testbit pl pid) then report_devs f ds pl t n c
      else
        match ports c pid with
        | None => report_devs f ds pl t n c
        | Some i =>
            let '(i', v) := f pid i c in
            report_devs f ds pl (rawset (Idx (Info.pid i)) v t) (u32 (n + 1)) (c <| ports ::= set_at pid (Some i') |>)
        end
  end.
Definition report `{Env} (f : Z → port_info_t → console → port_info_t * lua_value) (pl : Z) (c : console)
    : res (console * list lua_value) :=
  let '(c, v) := report_devs f devs pl (λ _, Nil) 0 c in Ok (c, [v]).
Definition unchanged (f : Z → port_info_t → console → lua_value) : Z → port_info_t → console → port_info_t * lua_value :=
  λ pid i c, (i, f pid i c).

(** The variable starts with 0 in some of the functions. *)
Definition zero_portlist `{Lua} (args : list lua_value) : res Z :=
  s ← luaL_checkstring args 1; Ok (snd (portlist_parse s 0)).

(** ** The reports *)

Definition isSending (pid : Z) (i : port_info_t) (c : console) : lua_value :=
  Str (if pktgen_port_transmitting (mk_world (globals c) i) then str "y" else str "n").
Definition pktgen_isSending `{Env} `{Lua} : lua_fun := λ args c,
  _ ← argc args 1; pl ← lua_portlist args 1; report (unchanged isSending) pl c.

Definition link_state `{Devices} (pid : Z) (i : port_info_t) (c : console) : lua_value := Str (link_of (Info.pid i)).
Definition pktgen_linkState `{Env} `{Lua} `{Devices} : lua_fun := λ args c,
  _ ← argc args 1; pl ← zero_portlist args; report (unchanged link_state) pl c.

Definition port_sizes (pid : Z) (i : port_info_t) (c : console) : lua_value :=
  let s := pktgen_port_sizes (mk_world (globals c) i) in
  record (integers
    [("runt", Sizes.runt s); ("_64", Sizes._64 s); ("_65_127", Sizes._65_127 s); ("_128_255", Sizes._128_255 s);
     ("_256_511", Sizes._256_511 s); ("_512_1023", Sizes._512_1023 s); ("_1024_1518", Sizes._1024_1518 s);
     ("jumbo", Sizes.jumbo s); ("broadcast", Sizes.broadcast s); ("multicast", Sizes.multicast s)]%string).
Definition pktgen_portSizes `{Env} `{Lua} : lua_fun := λ args c,
  _ ← argc args 1; pl ← zero_portlist args; report (unchanged port_sizes) pl c.

(** The latency since the last report, and its extremes; what has been reported is
    forgotten. *)
Definition latency_stats `{Env} (i : port_info_t) : port_info_t * list (string * Z) :=
  let ticks := timer_hz / 1000000 in
  let '(i, avg_lat, jitter) :=
    if (ticks =? 0) || negb (0 <? Info.latency_nb_pkts i) then (i, 0, 0)
    else
      let nb := Info.latency_nb_pkts i in
      let avg_lat := Info.avg_latency i / nb / ticks in
      let max := if Info.max_avg_latency i <? avg_lat then avg_lat else Info.max_avg_latency i in
      let min := if (Info.min_avg_latency i =? 0) || (avg_lat <? Info.min_avg_latency i) then avg_lat
                 else Info.min_avg_latency i in
      (i <| Info.max_avg_latency := max |> <| Info.min_avg_latency := min |> <| Info.latency_nb_pkts := 0 |>
         <| Info.avg_latency := 0 |> <| Info.jitter_count := 0 |>,
       avg_lat, u64 (Info.jitter_count i * 100) / nb) in
  (i, [("avg_latency", avg_lat); ("max_avg_latency", Info.max_avg_latency i);
       ("min_avg_latency", Info.min_avg_latency i); ("jitter_count", jitter)]%string).

Definition pkt_stats `{Env} `{Devices} (pid : Z) (i : port_info_t) (c : console) : port_info_t * lua_value :=
  let s := pktgen_pkt_stats (mk_world (globals c) i) in
  let counts := integers
    [("arp_pkts", Stats.arp_pkts s); ("echo_pkts", Stats.echo_pkts s); ("ip_pkts", Stats.ip_pkts s);
     ("ipv6_pkts", Stats.ipv6_pkts s); ("vlan_pkts", Stats.vlan_pkts s); ("dropped_pkts", Stats.dropped_pkts s);
     ("unknown_pkts", Stats.unknown_pkts s); ("tx_failed", Stats.tx_failed s)]%string in
  let addr := [("mac_addr"%string, Str (mac_addr (Info.pid i)))] in
  if tst_bits (Info.port_flags i) SEND_LATENCY_PKTS then
    let '(i, lat) := latency_stats i in (i, record (counts ++ addr ++ integers lat))
  else (i, record (counts ++ addr)).
Definition pktgen_pktStats `{Env} `{Lua} `{Devices} : lua_fun := λ args c,
  _ ← argc args 1; pl ← zero_portlist args; report pkt_stats pl c.

Definition bits_total (packets bytes : Z) : Z := u64 ((packets * PKT_OVERHEAD_SIZE + bytes) * 8).
Definition port_stats `{Devices} (type : list Z) (pid : Z) (i : port_info_t) (c : console) : lua_value :=
  let s := pktgen_port_stats (mk_world (globals c) i) (text type) junk_stats in
  let counts :=
    [("ipackets", Eth.ipackets s); ("opackets", Eth.opackets s); ("ibytes", Eth.ibytes s); ("obytes", Eth.obytes s);
     ("ierrors", Eth.ierrors s); ("oerrors", Eth.oerrors s); ("rx_nombuf", Eth.rx_nombuf s); ("imissed", Eth.imissed s)]%string in
  let rates :=
    [("pkts_rx", Eth.ipackets s); ("pkts_tx", Eth.opackets s);
     ("mbits_rx", bits_total (Eth.ipackets s) (Eth.ibytes s) / Million);
     ("mbits_tx", bits_total (Eth.opackets s) (Eth.obytes s) / Million)]%string in
  record (integers (if pg_strmatch type (str "rate") then counts ++ rates else counts)).
Definition pktgen_portStats `{Env} `{Lua} `{Devices} : lua_fun := λ args c,
  _ ← argc args 2; pl ← lua_portlist args 1; type ← luaL_checkstring args 2; report (unchanged (port_stats type)) pl c.

(** [pktgen_portInfo]: tables in a table. Nothing counts [imissed] and [rx_nombuf]
    of [info->stats]. *)
Definition strings (l : list (string * list Z)) : list (string * lua_value) := (λ '(name, s), (name, Str s)) <$> l.

Definition info_stats (s : eth_stats_t) : lua_value :=
  record (integers
    [("ipackets", Eth.ipackets s); ("opackets", Eth.opackets s); ("ibytes", Eth.ibytes s); ("obytes", Eth.obytes s);
     ("ierrors", Eth.ierrors s); ("oerrors", Eth.oerrors s); ("rx_nombuf", Eth.rx_nombuf s); ("imissed", Eth.imissed s)]%string).
Definition info_totals (s : eth_stats_t) : lua_value :=
  record (integers
    [("pkts_rx", Eth.ipackets s); ("pkts_tx", Eth.opackets s);
     ("mbits_rx", bits_total (Eth.ipackets s) (Eth.ibytes s) / Million);
     ("mbits_tx", bits_total (Eth.opackets s) (Eth.obytes s) / Million)]%string).
Definition info_size_cnts (i : port_info_t) : lua_value :=
  let z := Info.sizes i in
  record (integers
    [("broadcast", Sizes.broadcast z); ("multicast", Sizes.multicast z); ("_64", Sizes._64 z);
     ("_65_127", Sizes._65_127 z); ("_128_255", Sizes._128_255 z); ("_256_511", Sizes._256_511 z);
     ("_512_1023", Sizes._512_1023 z); ("_1024_1518", Sizes._1024_1518 z); ("jumbo", Sizes.jumbo z);
     ("runts", Sizes.runt z); ("arp_pkts", Stats.arp_pkts (Info.stats i)); ("echo_pkts", Stats.echo_pkts (Info.stats i));
     ("ierrors", Eth.ierrors (Info.prev_stats i)); ("oerrors", Eth.oerrors (Info.prev_stats i));
     ("tx_failed", Stats.tx_failed (Info.stats i)); ("imissed", 0); ("ibadcrc", 0)]%string).
Definition info_total_stats (g : pktgen_t) : lua_value :=
  let t := Pg.cumm_rate_totals g in
  record (integers
    [("max_ipackets", Pg.max_total_ipackets g); ("max_opackets", Pg.max_total_opackets g);
     ("cumm_rate_ipackets", Eth.ipackets t); ("cumm_rate_opackets", Eth.opackets t);
     ("cumm_rate_itotals", bits_total (Eth.ipackets t) (Eth.ibytes t));
     ("cumm_rate_ototals", bits_total (Eth.opackets t) (Eth.obytes t))]%string).

Definition pattern_text (i : port_info_t) : list Z :=
  match Info.fill_pattern_type i with
  | ABC_FILL_PATTERN => str "abcd..." | NO_FILL_PATTERN => str "None" | ZERO_FILL_PATTERN => str "Zero"
  | USER_FILL_PATTERN => cstring 16 (Info.user_pattern i)
  end.
Definition eth_type_text (t : Z) : list Z :=
  if t =? PG_ETHER_TYPE_IPv4 then str "IPv4" else if t =? PG_ETHER_TYPE_IPv6 then str "IPv6"
  else if t =? PG_ETHER_TYPE_ARP then str "ARP" else str "Other".
Definition proto_type_text (p flags : Z) : list Z :=
  if p =? PG_IPPROTO_TCP then str "TCP" else if p =? PG_IPPROTO_ICMP then str "ICMP"
  else if tst_bits flags SEND_VXLAN_PACKETS then str "VXLAN" else str "UDP".

Definition info_l2_l3 (p : pkt_seq_t) : lua_value :=
  record (integers [("src_port", Pkt.sport p); ("dst_port", Pkt.dport p); ("ttl", Pkt.ttl p)]%string ++
    strings
      [("dst_ip", inet_ntop4 (htonl (Pkt.ip_dst_addr p)) 0xFFFFFFFF);
       ("src_ip", inet_ntop4 (htonl (Pkt.ip_src_addr p)) (Pkt.ip_mask p));
       ("dst_mac", mtoa (Pkt.eth_dst_addr p)); ("src_mac", mtoa (Pkt.eth_src_addr p))]%string).

(** [tx_rate] is its rate as an integer. *)
Definition info_info `{Devices} (i : port_info_t) (tx_rate : Z) : lua_value :=
  let p := Info.seq_pkt i SINGLE_PKT in
  record (
    [("pattern_type", Str (pattern_text i));
     ("tx_count", if (Info.transmit_count i =? 0)%Z then Str (str "Forever") else integer (Info.transmit_count i));
     ("tx_rate", integer tx_rate); ("pkt_size", integer (Pkt.pktSize p + PG_ETHER_CRC_LEN)%Z);
     ("tx_burst", integer (Info.tx_burst i)); ("eth_type", Str (eth_type_text (Pkt.ethType p)));
     ("proto_type", Str (proto_type_text (Pkt.ipProto p) (Info.port_flags i)));
     ("vlanid", integer (Pkt.vlanid p)); ("l2_l3_info", info_l2_l3 p); ("pci_vendor", Str (pci_of (Info.pid i)));
     ("tx_debug", record (integers [("tx_pps", Info.tx_pps i); ("tx_cycles", Info.tx_cycles i)]));
     ("802.1p", record (integers [("cos", Pkt.cos p); ("dscp", Z.shiftr (Pkt.tos p) 2); ("ipp", Z.shiftr (Pkt.tos p) 5)]));
     ("VxLAN", record (integers [("vni_flags", Pkt.vni_flags p); ("group_id", Pkt.group_id p); ("vlan_id", Pkt.vlanid p)] ++
                       strings [("link_state", link_of (Info.pid i))]))]%string).

Definition port_info `{Devices} (pid : Z) (i : port_info_t) (c : console) : lua_value :=
  let s := pktgen_port_stats (mk_world (globals c) i) "port" junk_stats in
  record
    [("stats", info_stats s); ("totals", info_totals s); ("size_cnts", info_size_cnts i);
     ("total_stats", info_total_stats (globals c)); ("info", info_info i (default 0 (sf_trunc (Info.tx_rate i))))]%string.

(** A rate that is no number has no integer. *)
Definition rate_known `{Env} (pl : Z) (c : console) : bool :=
  forallb (λ pid, negb (Z.testbit pl pid) ||
             match ports c pid with
             | Some i => match sf_trunc (Info.tx_rate i) with Some n => (- 2 ^ 63 <=? n) && (n <? 2 ^ 63) | None => false end
             | None => true
             end) devs.
Definition pktgen_portInfo `{Env} `{Lua} `{Devices} : lua_fun := λ args c,
  _ ← argc args 1; pl ← lua_portlist args 1;
  if rate_known pl c then report (unchanged port_info) pl c else Undef.

Definition pktgen_totalPorts : lua_fun := λ _ c, Ok (c, [integer (Pg.nb_ports (globals c))]).

(** The rows of the random page, under the number of the row *)
Definition add_rnd_pattern (pid : Z) (i : port_info_t) (c : console) : lua_value :=
  let row idx t :=
    match page_row (rnd c pid) idx with
    | Some (_, offset, active, mask) =>
        rawset (Idx idx) (record [("offset", integer offset); ("mask", Str (code <$> mask));
                                  ("active", Str (if active : bool then str "Yes" else str "No"))]%string) t
    | None => t
    end in
  Table (foldr row (λ _, Nil) (seqZ 0 MAX_RND_BITFIELDS)).
Definition pktgen_rnd_list `{Env} `{Lua} : lua_fun := λ args c,
  if (1 <? length args)%nat then Refused
  else pl ← (if (length args =? 1)%nat then lua_portlist args 1 else Ok (2 ^ 64 - 1));
       report (unchanged add_rnd_pattern) pl c.

(** ** The module *)

Definition pktgenlib_range `{Env} `{Lua} : list (string * lua_fun) :=
  [("dst_mac", range_dst_mac); ("src_mac", range_src_mac); ("src_ip", range_src_ip); ("dst_ip", range_dst_ip);
   ("ip_proto", range_ip_proto); ("src_port", range_src_port); ("dst_port", range_dst_port); ("ttl", range_ttl);
   ("vlan_id", range_vlan_id); ("mpls_entry", range_mpls_entry); ("qinqids", range_qinqids);
   ("gre_key", range_gre_key); ("pkt_size", range_pkt_size); ("cos", range_cos); ("tos", range_tos)]%string.

(** Of functions with the same name the last one counts. *)
Definition pktgenlib `{Env} `{Lua} `{Devices} : list (string * lua_fun) :=
  [("set", pktgen_set); ("start", pktgen_start); ("stop", pktgen_stop); ("set_mac", pktgen_set_mac);
   ("set_ipaddr", pktgen_set_ip_addr); ("mac_from_arp", pktgen_macFromArp); ("set_proto", pktgen_prototype);
   ("set_type", pktgen_set_type); ("ping4", pktgen_send_ping4); ("pcap", pktgen_pcap); ("icmp_echo", pktgen_icmp);
   ("send_arp", pktgen_sendARP); ("seq", pktgen_seq); ("seqTable", pktgen_seqTable); ("screen", pktgen_scrn);
   ("prime", pktgen_prime); ("clear", pktgen_clear); ("clr", pktgen_clear_all); ("cls", pktgen_cls_screen);
   ("update", pktgen_update_screen); ("reset", pktgen_reset_config); ("port_restart", pktgen_restart);
   ("totalPorts", pktgen_totalPorts); ("vlan", single_vlan); ("vlanid", single_vlan_id); ("cos", single_cos);
   ("tos", single_tos); ("vxlan", single_vxlan); ("vxlan_id", single_vxlan_id); ("mpls", pktgen_mpls);
   ("qinq", pktgen_qinq); ("gre", pktgen_gre); ("gre_eth", pktgen_gre_eth);
   ("dst_mac", range_dst_mac); ("src_mac", range_src_mac); ("src_ip", range_src_ip); ("dst_ip", range_dst_ip);
   ("ip_proto", range_ip_proto); ("src_port", range_src_port); ("dst_port", range_dst_port);
   ("vlan_id", range_vlan_id); ("mpls_entry", range_mpls_entry); ("qinqids", range_qinqids);
   ("gre_key", range_gre_key); ("pkt_size", range_pkt_size); ("cos", range_cos); ("tos", range_tos);
   ("set_range", pktgen_range); ("ports_per_page", pktgen_ports_per_page); ("page", pktgen_page);
   ("port", pktgen_port); ("process", pktgen_process); ("capture", pktgen_capture); ("bonding", pktgen_bonding);
   ("garp", pktgen_garp); ("blink", pktgen_blink); ("isSending", pktgen_isSending); ("linkState", pktgen_linkState);
   ("portSizes", pktgen_portSizes); ("pktStats", pktgen_pktStats); ("portStats", pktgen_portStats);
   ("portInfo", pktgen_portInfo);
   ("pattern", pktgen_pattern); ("userPattern", pktgen_user_pattern); ("latency", pktgen_latency);
   ("jitter", pktgen_jitter); ("gtpu_teid", range_gtpu_teid); ("rnd", pktgen_rnd); ("rnd_list", pktgen_rnd_list);
   ("rxtap", pktgen_rxtap); ("txtap", pktgen_txtap)]%string.

Definition lua_function (lib : list (string * lua_fun)) (name : string) : option lua_fun :=
  snd <$> last (filter (λ x, fst x = name) lib).

(** Functions of the module that are not modelled *)
Definition other_functions : list string :=
  ["quit"; "delay"; "pause"; "sleep"; "load"; "save"; "portCount"; "help"; "Lua.help"; "run"; "continue"; "input"].

(** Calls of a script, one after the other; the first error ends it. The flag tells
    whether it came to its end. *)
Fixpoint run_calls `{Env} `{Lua} `{Devices} (cs : list (string * list lua_value)) (c : console) : option (console * bool) :=
  match cs with
  | [] => Some (c, true)
  | (name, args) :: cs =>
      match lua_function pktgenlib name with
      | None => if bool_decide (name ∈ other_functions) then None else Some (c, false)
      | Some f =>
          match f args c with
          | Ok (c, _) => run_calls cs c
          | Refused => Some (c, false)
          | Undef => None
          end
      end
  end.
