(* ===== verification/LuaFacts.v ===== *)
(** * What Lua calls do

    Every call keeps the ports well formed; where console and Lua have a command
    with the same name, they do the same; and where they do not. *)
From Stdlib Require Import Floats.SpecFloat Ascii String.
From S2P Require Import Prelude Mem PortInfo RandomBits Headers Pacing Commands Session Capture.
From S2P Require Import Inet Strings PortList CliMap CliFacts Console ConsoleFacts Lines Save SaveWords Lua LuaReports.

(** ** The invariant *)

Section Ok.
Context `{Env} `{Lua} `{Devices}.

Definition fun_ok (f : lua_fun) : Prop := ∀ args c c' vs, f args c = Ok (c', vs) → ports_ok c → ports_ok c'.

Lemma do_steps_ok ss c c' vs : Forall step_ok ss → do_steps ss c = Ok (c', vs) → ports_ok c → ports_ok c'.
Proof.
  unfold do_steps, no_values. intros Hs E Hc. destruct (run_steps ss c) as [c1|] eqn:E1; [|done].
  injection E as <- _. by eapply run_steps_ok.
Qed.

Lemma shown_ok : Forall step_ok shown.
Proof. by constructor. Qed.

Lemma foreach_lua_ok pl acts after c c' vs :
  all (λ f, ∀ pid, Forall act_ok (f pid)) acts → Forall step_ok after →
  foreach pl acts after c = Ok (c', vs) → ports_ok c → ports_ok c'.
Proof.
  intros Ha Hs. unfold foreach. destruct acts as [f| |].
  - apply do_steps_ok. constructor; [|done]. intros b pid. by apply (Ha f eq_refl).
  - destruct (selects pl c); [done|]. by apply do_steps_ok.
  - destruct (selects pl c); [done|]. by apply do_steps_ok.
Qed.

Lemma commands_acts cs : all (Forall cmd_ok) cs → all (λ f : Z → list action, ∀ pid, Forall act_ok (f pid)) (commands cs).
Proof. intros Hc f. destruct cs as [l| |]; cbn [commands]; intros [= <-] pid. apply Forall_fmap. by apply (Hc l). Qed.

(** A bind that gave a result *)
Lemma bind_ok {A B} (m : res A) (f : A → res B) b : m ≫= f = Ok b → ∃ a, m = Ok a ∧ f a = Ok b.
Proof. destruct m as [a| |]; [by exists a|done..]. Qed.

Lemma on_ports_ok n cs after : (∀ args, all (Forall cmd_ok) (cs args)) → Forall step_ok after → fun_ok (on_ports n cs after).
Proof.
  intros Hc Hs args c c' vs E Ho. unfold on_ports in E. apply bind_ok in E as (_ & _ & E). apply bind_ok in E as (pl & _ & E).
  eapply foreach_lua_ok; [apply commands_acts, Hc|exact Hs|exact E|exact Ho].
Qed.
Lemma on_ports_with_ok {A} n (read : list lua_value → res A) cs after (P : A → Prop) :
  (∀ args, all P (read args)) → (∀ a args, P a → all (Forall cmd_ok) (cs a args)) → Forall step_ok after →
  fun_ok (on_ports_with n read cs after).
Proof.
  intros Hr Hc Hs args c c' vs E Ho. unfold on_ports_with in E. apply bind_ok in E as (_ & _ & E). apply bind_ok in E as (pl & _ & E).
  apply bind_ok in E as (a & Ea & E).
  eapply foreach_lua_ok; [apply commands_acts, Hc, (Hr args), Ea|exact Hs|exact E|exact Ho].
Qed.
Lemma on_ports_do_ok n acts after :
  (∀ args, all (λ f : Z → list action, ∀ pid, Forall act_ok (f pid)) (acts args)) → Forall step_ok after → fun_ok (on_ports_do n acts after).
Proof.
  intros Hc Hs args c c' vs E Ho. unfold on_ports_do in E. apply bind_ok in E as (_ & _ & E). apply bind_ok in E as (pl & _ & E).
  eapply foreach_lua_ok; [apply Hc|exact Hs|exact E|exact Ho].
Qed.
(** Functions that look at their arguments and then run steps *)
Lemma steps_fun_ok {A} n (read : list lua_value → res A) (ss : A → list step) :
  (∀ a, Forall step_ok (ss a)) → fun_ok (λ args c, _ ← argc args n; a ← read args; do_steps (ss a) c).
Proof. intros Hs args c c' vs E Ho. do 2 (apply bind_ok in E as (? & _ & E)). by eapply do_steps_ok. Qed.
Lemma const_fun_ok ss : Forall step_ok ss → fun_ok (λ _ c, do_steps ss c).
Proof. intros Hs args c c' vs E Ho. by eapply do_steps_ok. Qed.

Lemma u32_of_range n : all (λ v, 0 ≤ v) (u32_of n).
Proof. intros v. unfold u32_of. destruct (defined_as _) as [z| |]; cbn; try done. destruct (_ && _) eqn:E; [|done]. intros [= <-]. lia. Qed.

Lemma set_what_ok what v args : 0 ≤ v → all (Forall cmd_ok) (set_what what v args).
Proof. intros Hv. unfold set_what. repeat (destruct (_ : bool)); handler_auto; exact Hv. Qed.

Lemma set_ok : fun_ok pktgen_set.
Proof.
  apply (on_ports_with_ok _ _ _ _ (λ x, 0 ≤ snd x)); [|intros [w v] args; apply set_what_ok|exact shown_ok].
  intros args. apply all_bind; intros w. apply all_bind; intros n. eapply all_bind'; [apply u32_of_range|]. intros v Hv. by apply all_ok.
Qed.

Lemma set_seq_ok n args c c' vs : set_seq n args c = Ok (c', vs) → ports_ok c → ports_ok c'.
Proof.
  intros E. unfold set_seq in E. do 7 (apply bind_ok in E as (? & _ & E)). destruct (Ascii.eqb _ _); [done|].
  do 6 (apply bind_ok in E as (? & _ & E)). apply bind_ok in E as ([cos tos] & _ & E).
  eapply foreach_lua_ok; [|exact shown_ok|exact E]. apply commands_acts. handler_auto.
Qed.
Lemma seq_fun_ok : fun_ok pktgen_seq.
Proof. intros args c c' vs E. unfold pktgen_seq in E. destruct (_ || _); [|done]. apply bind_ok in E as (n & _ & E). by eapply set_seq_ok. Qed.

Lemma seqTable_ok : fun_ok pktgen_seqTable.
Proof.
  intros args c c' vs E. unfold pktgen_seqTable in E. do 2 (apply bind_ok in E as (? & _ & E)). unfold set_seqTable in E.
  do 14 (apply bind_ok in E as (? & _ & E)). cbn zeta in E. apply bind_ok in E as ([] & _ & E); [done|].
  eapply foreach_lua_ok; [|exact shown_ok|exact E]. apply commands_acts. handler_auto.
Qed.

Lemma rnd_fun_ok : fun_ok pktgen_rnd.
Proof.
  intros args c c' vs E. unfold pktgen_rnd in E. do 2 (apply bind_ok in E as (? & _ & E)). destruct (_ =? 0).
  { eapply do_steps_ok; [|exact E]. constructor. }
  apply bind_ok in E as (? & _ & E). cbn zeta in E. eapply foreach_lua_ok; [|by constructor|exact E].
  do 2 (apply all_bind; intros ?). apply all_ok. intros pid. by repeat constructor.
Qed.

(** Reports change the latency counters only. *)
Lemma report_devs_ok f ds pl : ∀ t n c c' v, (∀ pid i c, port_ok i → port_ok (fst (f pid i c))) →
  report_devs f ds pl t n c = (c', v) → ports_ok c → ports_ok c'.
Proof.
  induction ds as [|pid ds IH]; intros t n c c' v Hf E Hc; cbn [report_devs] in E; [by injection E as <- _|].
  destruct (negb _); [by eapply IH|]. destruct (ports c pid) as [i|] eqn:Ei; [|by eapply IH].
  destruct (f pid i c) as [i' w] eqn:Ef. eapply IH; [exact Hf|exact E|]. intros p j Ej.
  change (set_at pid (Some i') (ports c) p = Some j) in Ej. unfold set_at in Ej. destruct (p =? pid).
  - injection Ej as <-. pose proof (Hf pid i c (Hc pid i Ei)) as Ho. by rewrite Ef in Ho.
  - by eapply Hc.
Qed.
Lemma report_ok f pl c c' vs : (∀ pid i c, port_ok i → port_ok (fst (f pid i c))) →
  report f pl c = Ok (c', vs) → ports_ok c → ports_ok c'.
Proof.
  intros Hf. unfold report. destruct (report_devs f devs pl (λ _, Nil) 0 c) as [c1 v] eqn:E. intros [= <- _].
  by eapply report_devs_ok.
Qed.
Lemma report_fun_ok n (read : list lua_value → res Z) f : (∀ pid i c, port_ok i → port_ok (fst (f pid i c))) →
  fun_ok (λ args c, _ ← argc args n; pl ← read args; report f pl c).
Proof. intros Hf args c c' vs E. do 2 (apply bind_ok in E as (? & _ & E)). by eapply report_ok. Qed.

Lemma latency_fields_ok i mx mn nb av jc : port_ok i →
  port_ok (i <| Info.max_avg_latency := mx |> <| Info.min_avg_latency := mn |> <| Info.latency_nb_pkts := nb |>
             <| Info.avg_latency := av |> <| Info.jitter_count := jc |>).
Proof. intros []. by split. Qed.
Lemma latency_stats_ok i : port_ok i → port_ok (fst (latency_stats i)).
Proof. intros Hi. unfold latency_stats. destruct (_ || _); [done|]. cbn zeta beta iota. cbn [fst]. by apply latency_fields_ok. Qed.
Lemma pkt_stats_ok pid i c : port_ok i → port_ok (fst (pkt_stats pid i c)).
Proof.
  intros Hi. unfold pkt_stats. cbn zeta. destruct (tst_bits _ _); [|done].
  pose proof (latency_stats_ok i Hi) as Hl. by destruct (latency_stats i) as [i' l].
Qed.

Lemma plain_ok n cs after : (∀ args, all (Forall cmd_ok) (cs args)) → Forall step_ok after → fun_ok (on_ports n cs after).
Proof. apply on_ports_ok. Qed.
Lemma with_ok {A} n (read : list lua_value → res A) cs after :
  (∀ a args, all (Forall cmd_ok) (cs a args)) → Forall step_ok after → fun_ok (on_ports_with n read cs after).
Proof. intros Hc. apply (on_ports_with_ok _ _ _ _ (λ _, True)); [done|]. intros a args _. apply Hc. Qed.

Lemma lib_ok name f : lua_function pktgenlib name = Some f → fun_ok f.
Proof.
  assert (Forall (λ x, fun_ok (snd x)) pktgenlib) as HF.
  { unfold pktgenlib. repeat (apply Forall_cons; split); [..|by apply Forall_nil]; cbn [snd].
    all: try first [exact set_ok|exact seq_fun_ok|exact seqTable_ok|exact rnd_fun_ok].
    all: try (apply plain_ok; [intros ?; unfold with_word, with_int; handler_auto|by repeat constructor]; fail).
    all: try (apply with_ok; [intros a ?; unfold with_word, with_int; handler_auto|by repeat constructor]; fail).
    all: try (apply with_ok; [intros [? ?] ?; handler_auto|by repeat constructor]; fail).
    all: try (apply with_ok; [intros [[? ?] ?] ?; handler_auto|by repeat constructor]; fail).
    all: try (apply on_ports_do_ok; [intros ?; handler_auto; intros ?; by repeat constructor|by repeat constructor]; fail).
    all: try (apply const_fun_ok; by repeat constructor).
    all: try (apply steps_fun_ok; intros ?; by repeat constructor).
    all: try (apply report_fun_ok; first [exact pkt_stats_ok|done]).
    - by intros args c c' vs [= <- _].
    - intros args c c' vs E. unfold pktgen_portStats in E. do 3 (apply bind_ok in E as (? & _ & E)). eapply report_ok; [|exact E]. done.
    - intros args c c' vs E. unfold pktgen_portInfo in E. do 2 (apply bind_ok in E as (? & _ & E)).
      destruct (rate_known _ _); [|done]. eapply report_ok; [|exact E]. done.
    - intros args c c' vs E. unfold pktgen_rnd_list in E. destruct (1 <? _)%nat; [done|]. apply bind_ok in E as (? & _ & E).
      eapply report_ok; [|exact E]. done. }
  unfold lua_function. destruct (last _) as [[m g]|] eqn:E; [|done]. intros [= <-].
  apply last_Some_elem_of, list_elem_of_filter in E as [_ E]. rewrite Forall_forall in HF. exact (HF _ E).
Qed.

(** C23. Whatever a Lua script calls, and however its calls end, every port keeps the
    invariant of [port_ok]. *)
Theorem lua_keeps_ports_ok cs c c' b : run_calls cs c = Some (c', b) → ports_ok c → ports_ok c'.
Proof.
  revert c. induction cs as [|[name args] cs IH]; intros c E Hc; cbn [run_calls] in E; [by injection E as <- _|].
  destruct (lua_function pktgenlib name) as [f|] eqn:Ef; [|destruct (bool_decide _); [done|by injection E as <- _]].
  destruct (f args c) as [[c1 vs]| |] eqn:E1; [|by injection E as <- _|done].
  eapply IH; [exact E|]. eapply lib_ok; [exact Ef|exact E1|exact Hc].
Qed.
End Ok.

(** ** Console and Lua *)

Section Same.
Context `{Env} `{Lua} `{Devices}.

(** A handler of the console, as a call *)
Definition as_call (r : res (list step)) (c : console) : res (console * list lua_value) := ss ← r; do_steps ss c.

(** A word as a string of Lua *)
Definition plain_string (s : list Z) : Prop := Forall (λ c, c ≠ 0) s.
Lemma cstr_plain s : plain_string s → cstr s = s.
Proof. intros HF. unfold cstr. rewrite span_out; [done|]. eapply Forall_impl; [exact HF|]. intros c Hc. by apply Z.eqb_neq. Qed.

Lemma foreach_each pl cs c : foreach pl (commands (Ok cs)) shown c = as_call (each pl (Ok cs)) c.
Proof. done. Qed.
Lemma check_str args i s : lua_arg args i = Str s → plain_string s → luaL_checkstring args i = Ok s.
Proof. intros E Hs. unfold luaL_checkstring. rewrite E. cbn [tolstring or_error]. by rewrite cstr_plain. Qed.
Lemma check_int args i n : lua_arg args i = Num (Int n) → luaL_checkinteger args i = Ok n.
Proof. intros E. unfold luaL_checkinteger, luaL_checknumber. by rewrite E. Qed.
Lemma u32_int n : 0 ≤ n < 2 ^ 32 → u32_of (Int n) = Ok n.
Proof. intros Hn. unfold u32_of. cbn [defined_as mbind res_bind]. destruct (Z.leb_spec 0 n); [|lia]. by destruct (Z.ltb_spec n (2 ^ 32)); [|lia]. Qed.

Lemma plain_list args s : lua_arg args 1 = Str s → plain_string s → lua_portlist args 1 = Ok (portlist_of s).
Proof. intros E Hs. unfold lua_portlist. by rewrite (check_str _ _ s). Qed.

(** What a function of a port list does when its arguments are good *)
Lemma on_ports_good n args s cs after c : length args = n → lua_arg args 1 = Str s → plain_string s →
  on_ports n cs after args c = foreach (portlist_of s) (commands (cs args)) after c.
Proof. intros Hl E Hs. unfold on_ports, argc. by rewrite Hl, Nat.eqb_refl, (plain_list args s). Qed.
Lemma on_ports_with_good {A} n (read : list lua_value → res A) a args s cs after c : length args = n → lua_arg args 1 = Str s →
  plain_string s → read args = Ok a → on_ports_with n read cs after args c = foreach (portlist_of s) (commands (cs a args)) after c.
Proof. intros Hl E Hs Hr. unfold on_ports_with, argc. by rewrite Hl, Nat.eqb_refl, (plain_list args s), Hr. Qed.

Variables (pl : list Z) (Hpl : port_word pl) (Hps : plain_string pl).

(** The names and words below *)
Lemma plain_str s : forallb (λ c, negb (c =? 0)) (str s) = true → plain_string (str s).
Proof. intros E. apply Forall_forall. intros c Hc ->. rewrite forallb_forall in E. by specialize (E 0 ltac:(by apply list_elem_of_In)). Qed.

Lemma like_set name n c : In name ["count"; "burst"; "sport"; "dport"; "prime"; "seq_cnt"]%string → 0 ≤ n < 2 ^ 31 →
  pktgen_set [Str pl; Str (str name); Num (Int n)] c = as_call (set_cmd [str "set"; pl; str name; show n]) c.
Proof using Hpl Hps.
  intros Hin Hn. assert (plain_string (str name)) as Hs by (apply plain_str; repeat destruct Hin as [<-|Hin]; by vm_compute || done).
  unfold pktgen_set. rewrite (on_ports_with_good _ _ (str name, n) _ pl); [|done|done|done|].
  2: { rewrite (check_str _ _ (str name)) by done. trans (v ← u32_of (Int n); Ok (str name, v)); [done|]. by rewrite u32_int by lia. }
  assert (number_word (show n)) as Hw by (apply digit_number, show_digit_first; lia).
  pose proof (atoi_w_show 32 n Hn ltac:(unfold in_word; lia)) as Ha.
  repeat (destruct Hin as [<-|Hin]; [erewrite set_number_words by (done || (cbn; tauto)); cbn [set_number]; rewrite Ha; reflexivity|]). done.
Qed.
Lemma like_size n c : 64 ≤ n ≤ 1518 →
  pktgen_set [Str pl; Str (str "size"); Num (Int n)] c = as_call (set_cmd [str "set"; pl; str "size"; show n]) c.
Proof using Hpl Hps.
  intros Hn. unfold pktgen_set. rewrite (on_ports_with_good _ _ (str "size", n) _ pl); [|done|done|done|].
  2: { rewrite (check_str _ _ (str "size")); [|done|by apply plain_str]. trans (v ← u32_of (Int n); Ok (str "size", v)); [done|]. by rewrite u32_int by lia. }
  assert (number_word (show n)) as Hw by (apply digit_number, show_digit_first; lia).
  erewrite set_number_words by (done || (cbn; tauto)). cbn [set_number].
  replace (valid_pkt_size (show n)) with (u16 n); [reflexivity|].
  unfold valid_pkt_size. rewrite atoi_show, (wrap_small 16 n) by (unfold in_word; lia).
  unfold MIN_PKT_SIZE, MAX_PKT_SIZE, PG_ETHER_MIN_LEN, PG_ETHER_MAX_LEN, PG_ETHER_CRC_LEN.
  destruct (Z.ltb_spec n (64 - 4 + 4)); [lia|]. cbn zeta. by destruct (Z.ltb_spec (1518 - 4 + 4) n); [lia|].
Qed.

Lemma like_switch (on : bool) name f c :
  In (name, f) [("process", Enable_process); ("mpls", Enable_mpls); ("qinq", Enable_qinq); ("gre", Enable_gre);
    ("gre_eth", Enable_gre_eth); ("vlan", Enable_vlan); ("latency", Enable_latency); ("range", Enable_range);
    ("vxlan", Enable_vxlan)]%string →
  switched f shown [Str pl; Str (able on)] c = as_call (en_dis_cmd [able on; pl; str name]) c.
Proof using Hpl Hps.
  intros Hin. rewrite (able_words pl Hpl on name f) by (cbn in *; intuition eauto).
  unfold switched. rewrite (on_ports_good _ _ pl) by done. rewrite (check_str _ _ (able on)); [|done|by destruct on; apply plain_str].
  by destruct on.
Qed.

Lemma like_type t c : In t ["ipv4"; "ipv6"; "vlan"; "arp"]%string →
  pktgen_set_type [Str pl; Str (str t)] c = as_call (set_cmd [str "set"; pl; str "type"; str t]) c.
Proof using Hpl Hps.
  intros Hin. rewrite (set_type_words pl Hpl t Hin). unfold pktgen_set_type.
  assert (plain_string (str t)) as Hs by (apply plain_str; repeat destruct Hin as [<-|Hin]; by vm_compute || done).
  rewrite (on_ports_with_good _ _ (text (str t)) _ pl) by (done || (unfold with_word; by rewrite (check_str _ _ (str t)))).
  repeat (destruct Hin as [<-|Hin]; [reflexivity|]). done.
Qed.

Lemma like_pattern t c : In t ["abc"; "none"; "zero"; "user"]%string →
  pktgen_pattern [Str pl; Str (str t)] c = as_call (set_cmd [str "set"; pl; str "pattern"; str t]) c.
Proof using Hpl Hps.
  intros Hin. rewrite (set_pattern_words pl Hpl t Hin). unfold pktgen_pattern, with_word.
  assert (plain_string (str t)) as Hs by (apply plain_str; repeat destruct Hin as [<-|Hin]; by vm_compute || done).
  rewrite (on_ports_good _ _ pl), (check_str _ _ (str t)) by done.
  repeat (destruct Hin as [<-|Hin]; [reflexivity|]). done.
Qed.

(** Three arguments: a word, and a MAC address *)
Lemma mac_call (f : string → Z → command) w x b c : plain_string (str w) → text (str w) = w → plain_string x → pg_ether_aton x = Some b →
  on_ports_with 3 (with_word 3 mac_into) (λ mac, with_word 2 (λ w, [f (text w) mac])) shown [Str pl; Str (str w); Str x] c =
  as_call (each_mac (portlist_of pl) (Ok [with_mac (f w) x])) c.
Proof using Hps.
  intros Hw Ew Hx Eb. rewrite (on_ports_with_good _ _ (mac_into x) _ pl) by (done || (unfold with_word; by rewrite (check_str _ _ x))).
  unfold with_word. rewrite (check_str _ _ (str w)) by done. cbn [mbind res_bind]. rewrite Ew. unfold mac_into, with_mac. by rewrite Eb.
Qed.

Lemma like_macs which w x b c : In which ["dst"; "src"]%string → In w whats → hex_arg x → plain_string x → pg_ether_aton x = Some b →
  pktgen_set_mac [Str pl; Str (str which); Str x] c = as_call (set_cmd [str "set"; pl; str which; str "mac"; x]) c ∧
  range_dst_mac [Str pl; Str (str w); Str x] c = as_call (range_cmd [str "range"; pl; str "dst"; str "mac"; str w; x]) c ∧
  range_src_mac [Str pl; Str (str w); Str x] c = as_call (range_cmd [str "range"; pl; str "src"; str "mac"; str w; x]) c.
Proof using Hpl Hps.
  intros Hin Hw Hx Hxs Eb. rewrite (set_mac_words pl Hpl x which Hx Hin). destruct (range_mac_words pl Hpl w x Hw Hx) as [-> ->].
  split_and!; apply (mac_call _ _ _ b); try done.
  all: first [apply plain_str|idtac]; first [repeat (destruct Hin as [<-|Hin]; [by vm_compute|]); done|repeat (destruct Hw as [<-|Hw]; [by vm_compute|]); done].
Qed.

(** The address of a packet: a source with its mask, a destination without *)
Lemma like_ip x c : address_word x → plain_string x →
  (upto_slash x = x → pktgen_set_ip_addr [Str pl; Str (str "dst"); Str x] c = as_call (set_cmd [str "set"; pl; str "dst"; str "ip"; x]) c) ∧
  (existsb (λ c, c =? 47) x = true →
   pktgen_set_ip_addr [Str pl; Str (str "src"); Str x] c = as_call (set_cmd [str "set"; pl; str "src"; str "ip"; x]) c).
Proof using Hpl Hps.
  intros Hx Hxs. destruct (set_ip_words pl Hpl x Hx) as [-> ->]. unfold dst_ip, src_ip.
  split; [intros ->|intros ->]; unfold pktgen_set_ip_addr.
  - by rewrite (on_ports_with_good _ _ ("d"%char, x) _ pl) by (done || rewrite (check_str _ 2 (str "dst")), (check_str _ 3 x) by (done || by apply plain_str); done).
  - by rewrite (on_ports_with_good _ _ ("s"%char, x) _ pl) by (done || rewrite (check_str _ 2 (str "src")), (check_str _ 3 x) by (done || by apply plain_str); done).
Qed.

Lemma whats_plain w : In w whats → plain_string (str w) ∧ text (str w) = w.
Proof. intros Hin. repeat (destruct Hin as [<-|Hin]; [split; [by apply plain_str|by vm_compute]|]). done. Qed.

Lemma like_range_ips w x c : In w whats → address_word x → plain_string x →
  range_dst_ip [Str pl; Str (str w); Str x] c = as_call (range_cmd [str "range"; pl; str "dst"; str "ip"; str w; x]) c ∧
  range_src_ip [Str pl; Str (str w); Str x] c = as_call (range_cmd [str "range"; pl; str "src"; str "ip"; str w; x]) c.
Proof using Hpl Hps.
  intros Hw Hx Hxs. destruct (whats_plain w Hw) as [Hws Ew]. destruct (range_ip_words pl Hpl w x Hw Hx) as [-> ->].
  split; unfold range_dst_ip, range_src_ip, range_address;
    rewrite (on_ports_with_good _ _ (x, str w) _ pl) by (done || rewrite (check_str _ 3 x), (check_str _ 2 (str w)) by done; done);
    by rewrite Ew.
Qed.

(** Numbers of a range: the console cuts what [strtol] makes of the text. *)
Lemma range_number_good (f : string → Z → command) cut w n c : In w whats →
  range_number f cut [Str pl; Str (str w); Num (Int n)] c = as_call (each (portlist_of pl) (Ok [f w (cut n)])) c ∧
  range_number_first f cut [Str pl; Str (str w); Num (Int n)] c = as_call (each (portlist_of pl) (Ok [f w (cut n)])) c.
Proof using Hps.
  intros Hw. destruct (whats_plain w Hw) as [Hws Ew]. split.
  - unfold range_number. rewrite (on_ports_good _ _ pl) by done. rewrite (check_str _ 2 (str w)), (check_int _ 3 n) by done.
    cbn [mbind res_bind]. by rewrite Ew.
  - unfold range_number_first. rewrite (on_ports_with_good _ _ (cut n) _ pl) by (done || (unfold with_int; by rewrite (check_int _ 3 n))).
    unfold with_word. rewrite (check_str _ 2 (str w)) by done. cbn [mbind res_bind]. by rewrite Ew.
Qed.
Lemma atoi_cut w n : 0 ≤ n < 2 ^ 31 → atoi_w w (show n) = wrap w n.
Proof. intros Hn. unfold atoi_w. by rewrite atoi_show. Qed.

Lemma like_range_ports w n c : In w whats → 0 ≤ n < 2 ^ 31 →
  range_dst_port [Str pl; Str (str w); Num (Int n)] c = as_call (range_cmd [str "range"; pl; str "dst"; str "port"; str w; show n]) c ∧
  range_src_port [Str pl; Str (str w); Num (Int n)] c = as_call (range_cmd [str "range"; pl; str "src"; str "port"; str w; show n]) c.
Proof using Hpl Hps.
  intros Hw Hn. assert (number_word (show n)) as Hx by (apply digit_number, show_digit_first; lia).
  destruct (range_port_words pl Hpl w (show n) Hw Hx) as [-> ->]. rewrite !atoi_cut by done.
  split; by apply (range_number_good _ u16).
Qed.

Lemma like_range_number name (f : string → Z → command) k cut w n c : In w whats → 0 ≤ n < 2 ^ 31 →
  In (name, f, k, cut) [("vlan", Range_vlan, 16, u16); ("cos", Range_cos, 8, u8); ("tos", Range_tos, 8, u8)]%string →
  range_number_first f cut [Str pl; Str (str w); Num (Int n)] c =
    as_call (range_cmd [str "range"; pl; str name; str w; show n]) c.
Proof using Hpl Hps.
  intros Hw Hn Hin. pose proof (show_digit_first n ltac:(lia)) as Hd.
  assert (atoi_w k (show n) = cut n) as Ef.
  { rewrite atoi_cut by done. by repeat (destruct Hin as [[= <- <- <- <-]|Hin]; [done|]). }
  rewrite (range_number_words pl Hpl w (show n) name (λ w, f w (atoi_w k (show n))) Hw);
    [|by apply digit_number|by apply digit_first_valid|].
  2: { repeat (destruct Hin as [[= <- <- <- <-]|Hin]; [cbn; tauto|]). done. }
  rewrite Ef. by apply range_number_good.
Qed.
End Same.

(** ** Twins

    A call of a script and a line of the console, with the same list of ports [pl] *)
Definition the_numbers : list string := ["count"; "burst"; "sport"; "dport"; "prime"; "seq_cnt"].
Definition the_switches : list (string * string) :=
  [("process", "process"); ("mpls", "mpls"); ("qinq", "qinq"); ("gre", "gre"); ("gre_eth", "gre_eth"); ("vlan", "vlan");
   ("latency", "latency"); ("set_range", "range"); ("vxlan", "vxlan")]%string.
Definition the_ends : list string := ["dst"; "src"].

Inductive twin (pl : list Z) : string → list lua_value → list (list Z) → Prop :=
| Twin_number name n : In name the_numbers → 0 ≤ n < 2 ^ 31 →
    twin pl "set" [Str pl; Str (str name); Num (Int n)] [str "set"; pl; str name; show n]
| Twin_size n : 64 ≤ n ≤ 1518 →
    twin pl "set" [Str pl; Str (str "size"); Num (Int n)] [str "set"; pl; str "size"; show n]
| Twin_switch f name (on : bool) : In (f, name) the_switches →
    twin pl f [Str pl; Str (able on)] [able on; pl; str name]
| Twin_type t : In t ["ipv4"; "ipv6"; "vlan"; "arp"]%string →
    twin pl "set_type" [Str pl; Str (str t)] [str "set"; pl; str "type"; str t]
| Twin_pattern t : In t ["abc"; "none"; "zero"; "user"]%string →
    twin pl "pattern" [Str pl; Str (str t)] [str "set"; pl; str "pattern"; str t]
| Twin_mac e x b : In e the_ends → hex_arg x → wordy x → pg_ether_aton x = Some b →
    twin pl "set_mac" [Str pl; Str (str e); Str x] [str "set"; pl; str e; str "mac"; x]
| Twin_range_mac e w x b : In e the_ends → In w whats → hex_arg x → wordy x → pg_ether_aton x = Some b →
    twin pl (e ++ "_mac") [Str pl; Str (str w); Str x] [str "range"; pl; str e; str "mac"; str w; x]
| Twin_dst_ip x : address_word x → wordy x → upto_slash x = x →
    twin pl "set_ipaddr" [Str pl; Str (str "dst"); Str x] [str "set"; pl; str "dst"; str "ip"; x]
| Twin_src_ip x : address_word x → wordy x → existsb (λ c, c =? 47) x = true →
    twin pl "set_ipaddr" [Str pl; Str (str "src"); Str x] [str "set"; pl; str "src"; str "ip"; x]
| Twin_range_ip e w x : In e the_ends → In w whats → address_word x → wordy x →
    twin pl (e ++ "_ip") [Str pl; Str (str w); Str x] [str "range"; pl; str e; str "ip"; str w; x]
| Twin_range_port e w n : In e the_ends → In w whats → 0 ≤ n < 2 ^ 31 →
    twin pl (e ++ "_port") [Str pl; Str (str w); Num (Int n)] [str "range"; pl; str e; str "port"; str w; show n]
| Twin_range_number f name w n : In (f, name) [("vlan_id", "vlan"); ("cos", "cos"); ("tos", "tos")]%string → In w whats → 0 ≤ n < 2 ^ 31 →
    twin pl f [Str pl; Str (str w); Num (Int n)] [str "range"; pl; str name; str w; show n].

Section Twins.
Context `{Env} `{Lua} `{Devices}.

Lemma wordy_string x : wordy x → plain_string x.
Proof.
  intros [_ Hx]. eapply Forall_impl; [exact Hx|]. by intros c Hc ->.
Qed.

(** The two functions that carry out a call and a line *)
Definition handled (name : string) (argv : list (list Z)) (f : lua_fun) (h : list (list Z) → res (list step)) : Prop :=
  lua_function pktgenlib name = Some f ∧
  ∃ w rest, argv = w :: rest ∧ starts_line w ∧ assoc w alias_table = None ∧ assoc w command_table = Some h.

#[local] Ltac starts := by apply (bool_decide_unpack _).
#[local] Ltac found := split; [reflexivity|do 2 eexists; split_and!; [reflexivity|starts|reflexivity|reflexivity]].

Lemma twin_handled pl name args argv : port_word pl → plain_string pl → twin pl name args argv →
  ∃ f h, handled name argv f h ∧ ∀ c, f args c = as_call (h argv) c.
Proof.
  intros Hpl Hps Ht. destruct Ht as [name n Hin Hn|n Hn|f name on Hin|t Hin|t Hin|e x b He Hx Hxs Eb|e w x b He Hw Hx Hxs Eb
    |x Hx Hxs Hu|x Hx Hxs Hu|e w x He Hw Hx Hxs|e w n He Hw Hn|f name w n Hin Hw Hn].
  - exists pktgen_set, set_cmd. split; [found|]. intros c. by apply like_set.
  - exists pktgen_set, set_cmd. split; [found|]. intros c. by apply like_size.
  - assert (∃ g, In (name, g) [("process", Enable_process); ("mpls", Enable_mpls); ("qinq", Enable_qinq); ("gre", Enable_gre);
      ("gre_eth", Enable_gre_eth); ("vlan", Enable_vlan); ("latency", Enable_latency); ("range", Enable_range);
      ("vxlan", Enable_vxlan)]%string ∧ lua_function pktgenlib f = Some (switched g shown)) as (g & Hg & Ef).
    { repeat (destruct Hin as [[= <- <-]|Hin]; [eexists; split; [|reflexivity]; cbn; tauto|]). done. }
    exists (switched g shown), en_dis_cmd. split; [split; [exact Ef|]|intros c; by apply like_switch].
    exists (able on), [pl; str name]. split; [done|]. destruct on; split_and!; [starts|done|done|starts|done|done].
  - exists pktgen_set_type, set_cmd. split; [found|]. intros c. by apply like_type.
  - exists pktgen_pattern, set_cmd. split; [found|]. intros c. by apply like_pattern.
  - exists pktgen_set_mac, set_cmd. split; [found|]. intros c. exact (proj1 (like_macs pl Hpl Hps e "start" x b c He ltac:(by left) Hx (wordy_string x Hxs) Eb)).
  - destruct He as [<-|[<-|[]]].
    + exists range_dst_mac, range_cmd. split; [found|]. intros c. exact (proj1 (proj2 (like_macs pl Hpl Hps "dst" w x b c ltac:(by left) Hw Hx (wordy_string x Hxs) Eb))).
    + exists range_src_mac, range_cmd. split; [found|]. intros c. exact (proj2 (proj2 (like_macs pl Hpl Hps "dst" w x b c ltac:(by left) Hw Hx (wordy_string x Hxs) Eb))).
  - exists pktgen_set_ip_addr, set_cmd. split; [found|]. intros c. exact (proj1 (like_ip pl Hpl Hps x c Hx (wordy_string x Hxs)) Hu).
  - exists pktgen_set_ip_addr, set_cmd. split; [found|]. intros c. exact (proj2 (like_ip pl Hpl Hps x c Hx (wordy_string x Hxs)) Hu).
  - destruct He as [<-|[<-|[]]].
    + exists range_dst_ip, range_cmd. split; [found|]. intros c. exact (proj1 (like_range_ips pl Hpl Hps w x c Hw Hx (wordy_string x Hxs))).
    + exists range_src_ip, range_cmd. split; [found|]. intros c. exact (proj2 (like_range_ips pl Hpl Hps w x c Hw Hx (wordy_string x Hxs))).
  - destruct He as [<-|[<-|[]]].
    + exists range_dst_port, range_cmd. split; [found|]. intros c. exact (proj1 (like_range_ports pl Hpl Hps w n c Hw Hn)).
    + exists range_src_port, range_cmd. split; [found|]. intros c. exact (proj2 (like_range_ports pl Hpl Hps w n c Hw Hn)).
  - destruct Hin as [[= <- <-]|[[= <- <-]|[[= <- <-]|[]]]].
    + exists range_vlan_id, range_cmd. split; [found|]. intros c. exact (like_range_number pl Hpl Hps "vlan" Range_vlan 16 u16 w n c Hw Hn ltac:(by left)).
    + exists range_cos, range_cmd. split; [found|]. intros c. exact (like_range_number pl Hpl Hps "cos" Range_cos 8 u8 w n c Hw Hn ltac:(by right; left)).
    + exists range_tos, range_cmd. split; [found|]. intros c. exact (like_range_number pl Hpl Hps "tos" Range_tos 8 u8 w n c Hw Hn ltac:(by right; right; left)).
Qed.

(** No such line is refused, *)
Lemma twin_accepted pl name args argv f h : port_word pl → twin pl name args argv → handled name argv f h → ∃ ss, h argv = Ok ss.
Proof.
  intros Hpl Ht (_ & w0 & rest & Ew & _ & _ & Eh).
  assert (∀ n, 0 ≤ n → number_word (show n)) as Hnum by (intros; by apply digit_number, show_digit_first).
  destruct Ht as [nm n Hin Hn|n Hn|g nm on Hin|t Hin|t Hin|e x b He Hx Hxs Eb|e w x b He Hw Hx Hxs Eb
    |x Hx Hxs Hu|x Hx Hxs Hu|e w x He Hw Hx Hxs|e w n He Hw Hn|g nm w n Hin Hw Hn]; injection Ew as <- <-;
    first [injection Eh as <-|assert (h = en_dis_cmd) as -> by (by destruct on; injection Eh as <-)].
  - repeat (destruct Hin as [<-|Hin]; [erewrite set_number_words by (first [done|apply Hnum; lia|cbn; tauto]); by eexists|]). done.
  - erewrite set_number_words by (first [done|apply Hnum; lia|cbn; tauto]). by eexists.
  - repeat (destruct Hin as [[= <- <-]|Hin]; [erewrite able_words by (done || (cbn; tauto)); by eexists|]). done.
  - rewrite set_type_words by done. by eexists.
  - rewrite set_pattern_words by done. by eexists.
  - rewrite set_mac_words by done. by eexists.
  - destruct (range_mac_words pl Hpl w x Hw Hx) as [E1 E2]. destruct He as [<-|[<-|[]]]; rewrite ?E1, ?E2; by eexists.
  - rewrite (proj1 (set_ip_words pl Hpl x Hx)). by eexists.
  - rewrite (proj2 (set_ip_words pl Hpl x Hx)). by eexists.
  - destruct (range_ip_words pl Hpl w x Hw Hx) as [E1 E2]. destruct He as [<-|[<-|[]]]; rewrite ?E1, ?E2; by eexists.
  - destruct (range_port_words pl Hpl w (show n) Hw ltac:(apply Hnum; lia)) as [E1 E2].
    destruct He as [<-|[<-|[]]]; rewrite ?E1, ?E2; by eexists.
  - assert (is_map_valid (str "%b") (show n) = Some true) as Hb by (apply digit_first_valid; [apply show_digit_first; lia|done]).
    repeat (destruct Hin as [[= <- <-]|Hin];
      [erewrite range_number_words by (first [done|apply Hnum; lia|cbn; tauto]); by eexists|]). done.
Qed.

Lemma twin_length pl name args argv : twin pl name args argv → (length argv ≤ 64)%nat.
Proof. intros Ht. apply Nat.leb_le. by destruct Ht. Qed.

(** and every one consists of words. *)
Lemma twin_wordy pl name args argv : wordy pl → twin pl name args argv → Forall wordy argv.
Proof.
  intros Hpl Ht.
  assert (∀ n, 0 ≤ n → wordy (show n)) as Hn by (intros; by apply show_wordy).
  assert (∀ l s, In s l → forallb (λ s, forallb word_char (str s) && negb (bool_decide (str s = []))) l = true → wordy (str s)) as Hc.
  { intros l s Hin Hl. rewrite forallb_forall in Hl. apply Hl, andb_prop in Hin as [Hin Hne].
    apply wordy_chars; [|done]. by apply negb_true_iff, bool_decide_eq_false in Hne. }
  pose proof (λ s Hs, Hc whats s Hs eq_refl) as Hwh. pose proof (λ s Hs, Hc the_ends s Hs eq_refl) as Hen.
  destruct Ht; rewrite ?Forall_cons, ?Forall_nil; split_and?; try done;
    first [by apply Hwh|by apply Hen|apply Hn; lia|by apply wordy_chars|by destruct on; apply wordy_chars
          |by eapply Hc; [eassumption|vm_compute]|idtac].
  all: eapply (Hc _ _ (in_map snd _ (_, _) ltac:(eassumption))); by vm_compute.
Qed.
End Twins.

(** A call and a line *)
Definition same_as (call : string * list lua_value) (argv : list (list Z)) : Prop :=
  ∃ pl, port_word pl ∧ wordy pl ∧ twin pl (fst call) (snd call) argv.


(** ** Witnesses *)

(** A Lua without numbers in strings, and devices without names *)
Definition lab_lua : Lua := {| flt_text := λ _, []; number_of := λ _, None; whole := λ _, None |}.
Definition lab_devices : Devices := {| mac_addr := λ _, []; link_of := λ _, []; pci_of := λ _, []; junk_stats := Eth.zero |}.

Definition lab_calls : list (string * list lua_value) :=
  [("set", [Str (str "0"); Str (str "count"); Num (Int 1000)]);
   ("set_mac", [Str (str "0"); Str (str "dst"); Str (str "00:11:22:33:44:55")]);
   ("cos", [Str (str "0"); Str (str "start"); Num (Int 5)])]%string.

(** The last call is of a function that does not exist. *)
Definition lab_ended (r : option (console * bool)) : bool := match r with Some (_, b) => negb b | None => false end.
Lemma ended_value r : lab_ended r = true → ∃ c, r = Some (c, false).
Proof. destruct r as [[c []]|]; [done|by exists c|done]. Qed.

Lemma lua_keeps_ports_ok_witness :
  ∃ c, @run_calls lab lab_lua lab_devices (lab_calls ++ [("ttl"%string, [])]) lab_console = Some (c, false) ∧ ports_ok c.
Proof.
  destruct (ended_value (@run_calls lab lab_lua lab_devices (lab_calls ++ [("ttl"%string, [])]) lab_console)) as [c E];
    [vm_compute; reflexivity|].
  exists c. split; [exact E|]. exact (@lua_keeps_ports_ok lab lab_lua lab_devices _ _ c _ E lab_ok).
Defined.

