(* ===== verification/LuaSave.v ===== *)
(** * Saving a configuration as a Lua script

    [pktgen_lua_save] of [app/pktgen-cmds.c]: the state of the program written as
    calls of the functions of [LuaReports.pktgenlib].  A file is the list of its
    statements, each with the lines it is written as and with what a Lua interpreter
    makes of it; loading it carries these out up to the first error. *)
From Stdlib Require Import Floats.SpecFloat Ascii String.
From S2P Require Import Prelude Mem PortInfo RandomBits Headers Pacing Commands Session Capture.
From S2P Require Import Inet Strings PortList CliMap Console ConsoleFacts Save SaveWords SaveFacts Restore Reload.
From S2P Require Import Lua LuaReports LuaFacts.

(** ** Statements *)

(** A quoted text, a numeral, or a row of the table of packets *)
Inductive lua_lit := Quoted (s : list Z) | Numeral (s : list Z) | Row_of (j : Z).

Inductive meaning :=
  | Nothing | Require_pktgen
  | Call (table name : string) (args : list lua_lit)
  | New_table
  | Row (j : Z) (fields : list (string * lua_lit)).

Record stmt := mk_stmt { text : list (list Z); does : meaning }.

Definition lit_text (a : lua_lit) : list Z :=
  match a with
  | Quoted s => 39 :: s ++ [39]
  | Numeral s => s
  | Row_of j => str "seq_table[" ++ dec j ++ [93]
  end.
Definition comma (ws : list (list Z)) : list Z :=
  match ws with [] => [] | w :: ws => foldl (λ t w, t ++ str ", " ++ w) w ws end.

Definition call_in (table name : string) (args : list lua_lit) : stmt :=
  mk_stmt [str table ++ str "." ++ str name ++ str "(" ++ comma (lit_text <$> args) ++ str ");"] (Call table name args).
Definition call (name : string) (args : list lua_lit) : stmt := call_in "pktgen" name args.
Definition lines (ls : list (list Z)) : stmt := mk_stmt ls Nothing.
Definition blank : stmt := lines [[]].

(** ** A port *)

Section Port.
Context `{Texts} (i : Z) (info : port_info_t).
#[local] Abbreviation w := str.
#[local] Abbreviation I := (Quoted (dec i)).
#[local] Abbreviation P := (Quoted (dec (Info.pid info))).
#[local] Abbreviation q s := (Quoted (str s)).
#[local] Abbreviation num n := (Numeral (dec n)).
#[local] Abbreviation pkt := (Info.seq_pkt info SINGLE_PKT).
#[local] Abbreviation range := (Info.range info).
#[local] Abbreviation flags := (Info.port_flags info).

Definition switch (name : string) (f : Z) : stmt := call name [I; Quoted (on_off flags f)].

Definition lua_port_comment : stmt :=
  let buff := if Info.transmit_count info =? 0 then w "Forever" else dec_l (Info.transmit_count info) in
  lines
    [w "-- ######################### Port " ++ padded 32 2 (dec i) ++ w " ##################################"; w "-- ";
     w "-- Port: " ++ padded 32 2 (dec (Info.pid info)) ++ w ", Burst:" ++ padded 32 3 (dec (Info.tx_burst info)) ++
       w ", Rate:" ++ fmt_g (Info.tx_rate info) ++ w "%, Flags:" ++ padded 48 8 (hex flags) ++ w ", TX Count:" ++ buff;
     w "--           Sequence Count:" ++ dec (Info.seqCnt info) ++ w ", Prime:" ++ dec (Info.prime_cnt info) ++
       w " VLAN ID:" ++ padded 48 4 (hex (Info.vlanid info)) ++ w ", Link: " ++ Save.link_state (Info.pid info);
     w "--"; w "-- Set up the primary port information:"].

(** One call is written without a blank after its second comma. *)
Definition lua_source (s : list Z) : stmt :=
  mk_stmt [w "pktgen.set_ipaddr('" ++ dec i ++ w "', 'src','" ++ s ++ w "');"] (Call "pktgen" "set_ipaddr" [I; q "src"; Quoted s]).

Definition lua_user_pattern : list stmt :=
  match Info.fill_pattern_type info, cstring 16 (Info.user_pattern info) with
  | USER_FILL_PATTERN, (_ :: _) as user => [call "userPattern" [I; Quoted user]]
  | _, _ => []
  end.

(** The calls before the one of the table that is not there *)
Definition lua_primary : list stmt :=
  [call "set" [P; q "count"; Numeral (dec_l (Info.transmit_count info))];
   call "set" [P; q "size"; num (Pkt.pktSize pkt + PG_ETHER_CRC_LEN)];
   call "set" [P; q "rate"; Numeral (fmt_g (Info.tx_rate info))];
   call "set" [P; q "burst"; num (Info.tx_burst info)];
   call "set" [P; q "sport"; num (Pkt.sport pkt)];
   call "set" [P; q "dport"; num (Pkt.dport pkt)];
   call "set" [P; q "prime"; num (Info.prime_cnt info)];
   call "set_type" [I; Quoted (type_name (Pkt.ethType pkt) (w "vlan")
                                 (if Pkt.ethType pkt =? PG_ETHER_TYPE_ARP then w "arp" else w "unknown"))];
   call "set_proto" [I; Quoted (proto_name (Pkt.ipProto pkt))];
   call "set_ipaddr" [I; q "dst"; Quoted (inet_ntop4 (ntohl (Pkt.ip_dst_addr pkt)) 0xFFFFFFFF)];
   lua_source (inet_ntop4 (ntohl (Pkt.ip_src_addr pkt)) (Pkt.ip_mask pkt));
   call "set_mac" [P; q "dst"; Quoted (mtoa (Pkt.eth_dst_addr pkt))];
   call "set_mac" [P; q "src"; Quoted (mtoa (Pkt.eth_src_addr pkt))];
   call "vlanid" [I; num (Pkt.vlanid pkt)]; blank;
   call "pattern" [I; Quoted (pattern_name (Info.fill_pattern_type info))]] ++
  lua_user_pattern ++
  [blank;
   call "jitter" [I; Numeral (dec_l (Info.jitter_threshold info))];
   switch "mpls" SEND_MPLS_LABEL;
   call "mpls_entry" [I; Quoted (w "0x" ++ hex (Pkt.mpls_entry pkt))];
   switch "qinq" SEND_Q_IN_Q_IDS;
   call "qinqids" [I; num (Pkt.qinq_outerid pkt); num (Pkt.qinq_innerid pkt)];
   switch "gre" SEND_GRE_IPv4_HEADER;
   switch "gre_eth" SEND_GRE_ETHER_HEADER;
   call "gre_key" [I; Numeral (dec_u (Pkt.gre_key pkt))]].

Definition lua_vxlan : list stmt :=
  [call_in "pkrgen" "vxlan" [I; Quoted (on_off flags SEND_VXLAN_PACKETS)];
   call "vxlan_id" [I; Quoted (w "0x" ++ hex (Pkt.vni_flags pkt)); Quoted (dec (Pkt.group_id pkt));
                    Quoted (dec_u (Pkt.vxlan_id pkt))]].

Definition lua_flags : list stmt :=
  [lines [w "--"; w "-- Port flag values:"];
   switch "icmp_echo" ICMP_ECHO_ENABLE_FLAG; switch "pcap" SEND_PCAP_PKTS; switch "set_range" SEND_RANGE_PKTS;
   switch "latency" SEND_LATENCY_PKTS; switch "process" PROCESS_INPUT_PKTS; switch "capture" CAPTURE_PKTS;
   switch "rxtap" PROCESS_RX_TAP_PKTS; switch "txtap" PROCESS_TX_TAP_PKTS; switch "vlan" SEND_VLAN_ID; blank].

(** Four calls of one setting *)
Definition four_calls (name : string) (start min max inc : lua_lit) : list stmt :=
  [call name [I; q "start"; start]; call name [I; q "min"; min]; call name [I; q "max"; max]; call name [I; q "inc"; inc]].
Definition mac_lit (m : Z) : lua_lit := Quoted (mtoa m).
Definition ip_lit (a : Z) : lua_lit := Quoted (ip4 a).

Definition lua_range : list stmt :=
  lines [w "--"; w "-- Range packet information:"] ::
  four_calls "src_mac" (mac_lit (Rng.src_mac range)) (mac_lit (Rng.src_mac_min range))
    (mac_lit (Rng.src_mac_max range)) (mac_lit (Rng.src_mac_inc range)) ++
  four_calls "dst_mac" (mac_lit (Rng.dst_mac range)) (mac_lit (Rng.dst_mac_min range))
    (mac_lit (Rng.dst_mac_max range)) (mac_lit (Rng.dst_mac_inc range)) ++ blank ::
  four_calls "src_ip" (ip_lit (Rng.src_ip range)) (ip_lit (Rng.src_ip_min range))
    (ip_lit (Rng.src_ip_max range)) (ip_lit (Rng.src_ip_inc range)) ++ blank ::
  four_calls "dst_ip" (ip_lit (Rng.dst_ip range)) (ip_lit (Rng.dst_ip_min range))
    (ip_lit (Rng.dst_ip_max range)) (ip_lit (Rng.dst_ip_inc range)) ++ blank ::
  call "ip_proto" [I; Quoted (range_proto_name (Rng.ip_proto range))] :: blank ::
  four_calls "src_port" (num (Rng.src_port range)) (num (Rng.src_port_min range))
    (num (Rng.src_port_max range)) (num (Rng.src_port_inc range)) ++ blank ::
  four_calls "dst_port" (num (Rng.dst_port range)) (num (Rng.dst_port_min range))
    (num (Rng.dst_port_max range)) (num (Rng.dst_port_inc range)) ++ blank ::
  four_calls "ttl" (num (Rng.ttl range)) (num (Rng.ttl_min range))
    (num (Rng.ttl_max range)) (num (Rng.ttl_inc range)) ++ blank ::
  four_calls "vlan_id" (num (Rng.vlan_id range)) (num (Rng.vlan_id_min range))
    (num (Rng.vlan_id_max range)) (num (Rng.vlan_id_inc range)) ++ blank ::
  four_calls "cos" (num (Rng.cos range)) (num (Rng.cos_min range))
    (num (Rng.cos_max range)) (num (Rng.cos_inc range)) ++ blank ::
  four_calls "tos" (num (Rng.tos range)) (num (Rng.tos_min range))
    (num (Rng.tos_max range)) (num (Rng.tos_inc range)) ++ blank ::
  four_calls "pkt_size" (num (Rng.pkt_size range + PG_ETHER_CRC_LEN)) (num (Rng.pkt_size_min range + PG_ETHER_CRC_LEN))
    (num (Rng.pkt_size_max range + PG_ETHER_CRC_LEN)) (num (Rng.pkt_size_inc range)) ++ [blank].

(** Packets of the sequence: as comments, as rows of a table, and as calls *)
Definition seq_comment (j : Z) : list Z :=
  let p := Info.seq_pkt info j in
  let quoted s := lit_text (Quoted s) in
  w "-- pktgen.seq(" ++ dec j ++ w ", " ++ quoted (dec i) ++ w ", " ++ quoted (mtoa (Pkt.eth_dst_addr p)) ++ w " " ++
  comma [quoted (mtoa (Pkt.eth_src_addr p)); quoted (inet_ntop4 (htonl (Pkt.ip_dst_addr p)) 0xFFFFFFFF);
         quoted (inet_ntop4 (htonl (Pkt.ip_src_addr p)) (Pkt.ip_mask p)); dec (Pkt.sport p); dec (Pkt.dport p);
         quoted (type_name (Pkt.ethType p) (w "vlan") (w "Other")); quoted (proto_name (Pkt.ipProto p));
         dec (Pkt.vlanid p); dec (Pkt.pktSize p + PG_ETHER_CRC_LEN); dec_u (Pkt.gtpu_teid p)] ++ w ");".

Definition seq_row (j : Z) : stmt :=
  let p := Info.seq_pkt info j in
  let fields :=
    [("eth_dst_addr", Quoted (mtoa (Pkt.eth_dst_addr p))); ("eth_src_addr", Quoted (mtoa (Pkt.eth_src_addr p)));
     ("ip_dst_addr", Quoted (inet_ntop4 (htonl (Pkt.ip_dst_addr p)) 0xFFFFFFFF));
     ("ip_src_addr", Quoted (inet_ntop4 (htonl (Pkt.ip_src_addr p)) 0xFFFFFFFF));
     ("sport", num (Pkt.sport p)); ("dport", num (Pkt.dport p));
     ("ethType", Quoted (type_name (Pkt.ethType p) (w "vlan") (w "Other")));
     ("ipProto", Quoted (proto_name (Pkt.ipProto p))); ("vlanid", num (Pkt.vlanid p));
     ("pktSize", num (Pkt.pktSize p)); ("gtpu_teid", Numeral (dec_u (Pkt.gtpu_teid p)))]%string in
  let line '(name, v) := w "  ['" ++ str name ++ w "'] = " ++ lit_text v in
  mk_stmt ((w "seq_table[" ++ dec j ++ w "] = {") ::
           ((λ x, line x ++ w ",") <$> take 10 fields) ++ (line <$> drop 10 fields) ++ [w "}"]) (Row j fields).

Definition lua_seq : list stmt :=
  let js := seqZ 0 (Info.seqCnt info) in
  [lines [w "--"; w "-- Set up the sequence data for the port."];
   call "set" [P; q "seq_cnt"; num (Info.seqCnt info)]; blank] ++
  (if Info.seqCnt info =? 0 then []
   else
     lines (w "-- (seqnum, port, dst_mac, src_mac, ip_dst, ip_src, sport, dport, ethType, proto, vlanid, pktSize, gtpu_teid)"
            :: (seq_comment <$> js)) ::
     mk_stmt [w "local seq_table = {}"] New_table :: (seq_row <$> js) ++
     ((λ j, call "seqTable" [num j; I; Row_of j]) <$> js)).

Definition lua_pcap : list stmt :=
  match Info.pcap info with
  | Some p => [lines [w "--"; w "-- PCAP port " ++ dec i; w "--    Packet count: " ++ dec_u (Pcap.pkt_count p);
                      w "--    Filename    : " ++ filename i]]
  | None => []
  end.

Definition lua_rnd (rnd : rnd_bits_t) : list stmt :=
  if active_specs rnd =? 0 then []
  else [lines [[]; w "-- Rnd bitfeilds"]] ++
    omap (λ j, bf ← specs rnd !! Z.to_nat j;
               if Z.land (active_specs rnd) (u32 (Z.shiftl 1 j)) =? 0 then None
               else Some (call "rnd" [I; num j; num (RandomBits.offset bf); Quoted (convert_bitfield bf)]))
         (seqZ 0 MAX_RND_BITFIELDS) ++ [blank].

Definition lua_port (rnd : rnd_bits_t) : list stmt :=
  lua_port_comment :: lua_primary ++ lua_vxlan ++ lua_flags ++ lua_range ++ lua_seq ++ lua_pcap ++ [blank] ++ lua_rnd rnd.
End Port.

(** ** The file *)

Definition lua_header `{Texts} (c : console) (lcore : Z) : list stmt :=
  let g := globals c in
  [lines [str "--"; str "-- " ++ pktgen_version; str "-- " ++ copyright_msg ++ str ", " ++ powered_by; []];
   mk_stmt [str "package.path = package.path .." ++ [34] ++ str ";?.lua;test/?.lua;app/?.lua;" ++ [34];
            str "require " ++ [34] ++ str "Pktgen" ++ [34]; []] Require_pktgen;
   lines [str "-- Command line arguments: (DPDK args are defaults)";
     str "-- " ++ argv0 ++ str " -c " ++ hex lcore ++ str " -n 3 -m 512 --proc-type " ++
       (if primary then str "primary" else str "secondary") ++ str " -- " ++ mjoin ((λ a, a ++ [32]) <$> args);
     []; str "-- " ++ hash_line; str "-- Pktgen Configuration script information:";
     str "--   GUI socket is " ++ (if tst_bits (Pg.flags g) ENABLE_GUI_FLAG then str "Enabled" else str "Not Enabled");
     str "--   Flags " ++ padded 48 8 (hex (Pg.flags g));
     str "--   Number of ports: " ++ dec (Pg.nb_ports g);
     str "--   Number ports per page: " ++ dec (Pg.nb_ports_per_page g);
     str "--   Number descriptors: RX " ++ dec nb_rxd ++ str " TX: " ++ dec nb_txd;
     str "--   Promiscuous mode is " ++ (if tst_bits (Pg.flags g) PROMISCUOUS_ON_FLAG then str "Enabled" else str "Disabled");
     []; []; str "--" ++ hash_line; str "-- Global configuration:"; str "-- geometry " ++ dec cols ++ str "x" ++ dec rows];
   mk_stmt [str "pktgen.mac_from_arp(" ++ [34] ++ on_off (Pg.flags g) MAC_FROM_ARP_FLAG ++ [34] ++ str ");"; []]
     (Call "pktgen" "mac_from_arp" [Quoted (on_off (Pg.flags g) MAC_FROM_ARP_FLAG)])].

(** All ports there can be; one that is not set up has no burst size. *)
Definition in_use (c : console) (i : Z) : bool :=
  match ports c i with Some info => negb (Info.tx_burst info =? 0) | None => false end.
Definition lua_ports `{Texts} (c : console) : list stmt :=
  flat_map (λ i, match ports c i with
                 | Some info => if Info.tx_burst info =? 0 then [] else lua_port i info (rnd c i)
                 | None => []
                 end) (seqZ 0 Capture.RTE_MAX_ETHPORTS).

Definition pktgen_lua_save `{Texts} (opened : bool) (c : console) : option (option (list stmt)) :=
  if negb opened then Some None
  else
    lcore ← lcore_mask enabled;
    Some (Some (lua_header c lcore ++ lua_ports c ++
                [lines [str "-- ################################ Done #################################"]])).

(** ** Loading it *)

(** Is [Pktgen.lua] found? It defines functions only. *)
Class Loader := { pktgen_lua_found : bool }.

(** A name that is no numeral stands for nothing. *)
Definition lit_value `{Lua} (tab : Z → lua_value) (a : lua_lit) : lua_value :=
  match a with
  | Quoted s => Str s
  | Numeral s => match number_of s with Some n => Num n | None => Nil end
  | Row_of j => tab j
  end.

(** A name other than [pktgen] has no value, and taking a field of it is an error. *)
Fixpoint run_stmts `{Env} `{Lua} `{Devices} `{Loader} (ss : list stmt) (tab : Z → lua_value) (c : console)
    : option (console * bool) :=
  match ss with
  | [] => Some (c, true)
  | s :: ss =>
      match does s with
      | Nothing => run_stmts ss tab c
      | Require_pktgen => if pktgen_lua_found then run_stmts ss tab c else Some (c, false)
      | Call table name args =>
          if String.eqb table "pktgen" then
            match run_calls [(name, lit_value tab <$> args)] c with
            | Some (c, true) => run_stmts ss tab c
            | r => r
            end
          else Some (c, false)
      | New_table => run_stmts ss (λ _, Nil) c
      | Row j fields => run_stmts ss (set_at j (record ((λ '(name, v), (name, lit_value tab v)) <$> fields)) tab) c
      end
  end.

(** What is written between quotes must not need to be escaped; what becomes of a
    file with such a text is left open. *)
Definition plain_lit (a : lua_lit) : bool :=
  match a with Quoted s => forallb (λ c, negb (mem_chr c [10; 13; 39; 92])) s | _ => true end.
Definition plain_stmt (s : stmt) : bool :=
  match does s with
  | Call _ _ args => forallb plain_lit args
  | Row _ fields => forallb (λ x, plain_lit (snd x)) fields
  | _ => true
  end.
Definition load_lua `{Env} `{Lua} `{Devices} `{Loader} (ss : list stmt) (c : console) : option (console * bool) :=
  if forallb plain_stmt ss then run_stmts ss (λ _, Nil) c else None.

(** ** What loading it does *)

Section Load.
Context `{Env} `{Lua} `{Devices} `{Loader} `{Texts}.

Definition stopped (r : option (console * bool)) : option (console * bool) := (λ '(c, _), (c, false)) <$> r.

(** Statements after one that is an error are not reached. *)
Lemma run_stmts_stop pre s post tab c : (∃ name args, does s = Call "pkrgen" name args) →
  run_stmts (pre ++ s :: post) tab c = stopped (run_stmts pre tab c).
Proof.
  intros (name & args & Es). revert tab c.
  induction pre as [|p pre IH]; intros tab c; cbn [app run_stmts].
  - by rewrite Es.
  - destruct (does p) as [| |t n a| |j fs]; try apply IH.
    + destruct pktgen_lua_found; [apply IH|done].
    + destruct (String.eqb t "pktgen"); [|done]. by destruct (run_calls _ c) as [[c1 []]|]; [apply IH|..].
Qed.

(** Ports before the first one in use leave no trace in the file. *)
Lemma lua_ports_first c l i info r : ports c i = Some info → Info.tx_burst info ≠ 0 →
  Forall (λ j, in_use c j = false) l → ∃ post,
  flat_map (λ i, match ports c i with
                 | Some info => if Info.tx_burst info =? 0 then [] else lua_port i info (rnd c i)
                 | None => []
                 end) (l ++ i :: r) =
  lua_port_comment i info :: lua_primary i info ++ call_in "pkrgen" "vxlan"
    [Quoted (dec i); Quoted (on_off (Info.port_flags info) SEND_VXLAN_PACKETS)] :: post.
Proof.
  intros Ei Hb Hl. eexists. rewrite flat_map_app.
  replace (flat_map _ l) with (@nil stmt).
  2: { induction Hl as [|j l Hj _ IH]; [done|]. cbn [flat_map]. rewrite <-IH. unfold in_use in Hj.
       destruct (ports c j) as [x|]; [|done]. by destruct (Info.tx_burst x =? 0). }
  cbn [flat_map app]. rewrite Ei. destruct (Z.eqb_spec (Info.tx_burst info) 0) as [|_]; [done|].
  unfold lua_port. cbn [app]. rewrite <-app_assoc. reflexivity.
Qed.

(** C12. A script written by [pktgen_lua_save] is never loaded to its end: the call
    written as [pkrgen.vxlan] raises an error at the first port that is in use.  What
    is loaded is the header and the calls before it; the flags, the ranges, the
    sequence and the random fields of this port, and all other ports, are lost. *)
Theorem saved_lua_stops c0 ss i info c :
  pktgen_lua_save true c0 = Some (Some ss) →
  0 ≤ i < Capture.RTE_MAX_ETHPORTS → ports c0 i = Some info → Info.tx_burst info ≠ 0 →
  (∀ j, 0 ≤ j < i → in_use c0 j = false) →
  ∃ lcore, lcore_mask enabled = Some lcore ∧
    load_lua ss c =
      if forallb plain_stmt ss
      then stopped (run_stmts (lua_header c0 lcore ++ lua_port_comment i info :: lua_primary i info) (λ _, Nil) c)
      else None.
Proof.
  unfold pktgen_lua_save. cbn [negb]. destruct (lcore_mask enabled) as [lcore|]; [|done]. intros [= <-] Hi Ei Hb Hj.
  exists lcore. split; [done|]. unfold load_lua. destruct (forallb _ _); [|done].
  unfold lua_ports.
  replace (seqZ 0 Capture.RTE_MAX_ETHPORTS) with (seqZ 0 i ++ i :: seqZ (i + 1) (Capture.RTE_MAX_ETHPORTS - i - 1)).
  2: { replace Capture.RTE_MAX_ETHPORTS with (i + (Capture.RTE_MAX_ETHPORTS - i)) at 2 by lia.
       rewrite (seqZ_app 0 i) by lia. rewrite (seqZ_cons (0 + i)) by lia. repeat f_equal; lia. }
  destruct (lua_ports_first c0 (seqZ 0 i) i info (seqZ (i + 1) (Capture.RTE_MAX_ETHPORTS - i - 1)) Ei Hb) as [post ->].
  { apply Forall_forall. intros j Hin%elem_of_seqZ. apply Hj. lia. }
  match goal with |- run_stmts ?l _ _ = _ =>
    assert (l = (lua_header c0 lcore ++ lua_port_comment i info :: lua_primary i info) ++
                call_in "pkrgen" "vxlan" [Quoted (dec i); Quoted (on_off (Info.port_flags info) SEND_VXLAN_PACKETS)] ::
                post ++ [lines [str "-- ################################ Done #################################"]]) as ->
  end.
  { rewrite <-!app_assoc. cbn [app]. by rewrite <-app_assoc. }
  apply run_stmts_stop. by eexists _, _.
Qed.
End Load.

(** ** Witness *)

(** Numerals are whole decimal numbers. *)
Definition counting_lua : Lua :=
  {| flt_text := λ _, [];
     number_of := λ s, match number 10 s with Some (neg, n, []) => Some (Int (if neg : bool then - n else n)) | _ => None end;
     whole := λ _, None |}.
Definition lab_loader : Loader := {| pktgen_lua_found := true |}.
Definition saved_console : console := lab_console <| ports := λ p, if p =? 1 then Some saved_port else None |>.
Definition saved_stmts : list stmt :=
  match @pktgen_lua_save plain_texts true saved_console with Some (Some ss) => ss | _ => [] end.

(** The packet count of the port is set, its range is not. *)
Definition half_loaded (r : option (console * bool)) : bool :=
  match r with
  | Some (c, b) =>
      negb b &&
      match ports c 1 with
      | Some i => (Info.transmit_count i =? 1000) && negb (Rng.vlan_id_max (Info.range i) =? 4095)
      | None => false
      end
  | None => false
  end.

Lemma saved_lua_stops_witness :
  half_loaded (@load_lua lab counting_lua lab_devices lab_loader saved_stmts lab_console) = true.
Proof.
  destruct (@saved_lua_stops lab counting_lua lab_devices lab_loader plain_texts saved_console saved_stmts 1 saved_port lab_console)
    as (lcore & El & E); [reflexivity|done|reflexivity|by apply (bool_decide_unpack _)|intros j Hj; by assert (j = 0) as -> by lia|].
  rewrite E. injection El as <-. by vm_compute.
Defined.
