(* ===== verification/Startup.v ===== *)
(** * Start-up

    [main] and [pktgen_parse_args] of [app/pktgen-main.c] and [pktgen_config_ports]
    of [app/pktgen-port-cfg.c]: from the options of the command line to the state in
    which the cores are launched.  What the operating system and the drivers
    answer is in the class [Boot]; where the program ends with a message, as where
    its behaviour is not defined, there is no state. *)
From Stdlib Require Import Floats.SpecFloat Ascii String.
From S2P Require Import Prelude Mem PortInfo RandomBits Headers L2p Strings Pacing Commands Mbuf Burst Session Capture PcapFile.
From S2P Require Import PortList CliMap Console ConsoleFacts.

(** ** Options *)

(** What [getopt_long] finds, with its argument; [Long n] is the value of entry [n]
    of [lgopts]. *)
Inductive opt :=
  | Opt_p (arg : list Z) | Opt_f (file : list Z) | Opt_l (file : list Z) | Opt_m (matrix : list Z)
  | Opt_s (stream : list Z) | Opt_P | Opt_N | Opt_G | Opt_g (address : list Z) | Opt_T | Opt_v | Opt_h
  | Long (n : nat) | Bad_option.

Definition NUMA_SUPPORT_FLAG := Z.shiftl 1 3.
Definition IS_SERVER_FLAG := Z.shiftl 1 4.
Definition ENABLE_GUI_FLAG := Z.shiftl 1 5.
Definition ENABLE_THEME_FLAG := Z.shiftl 1 11.
Definition DEFAULT_PORTS_PER_PAGE := 4.

(** The files opened for a port: those of its queues, and its own, which may be the
    first of them *)
Inductive own_file := Single (file : list Z) | First_of_list.
Record stream := mk_stream { own : option own_file; pcaps : list (list Z) }.

(** What the options set *)
Record settings := mk_settings {
  flags : Z; matrix : l2p_t; hostname : list Z; socket_port : Z; verbose : bool; hw_strip_crc : Z;
  cmdfiles : list (list Z); log_file : option (list Z); streams : Z → stream }.
#[global] Instance eta_settings : Eta settings := λ s,
  mk_settings (flags s) (matrix s) (hostname s) (socket_port s) (verbose s) (hw_strip_crc s) (cmdfiles s) (log_file s)
    (streams s).

(** The options [lgopts]: no entry has a value of its own. *)
Definition lgopts_val : list Z := [0; 0].

Class Boot := {
  past_text : list Z;                    (* what is behind the end of the matrix string *)
  content : list Z → option (list Z);    (* the bytes of a file that can be opened *)
  has_memory : Z → list Z → bool;        (* rte_malloc_socket in _pcap_open *)
  master_lcore : Z;                      (* rte_get_master_lcore *)
  dev_count : Z;                         (* pg_eth_dev_count_avail *)
  mac_of_dev : Z → Z; tx_capa : Z → Z;
  mempool : string → Z → Z → Z;          (* pktgen_mbuf_pool_create, 0 for NULL *)
  configures : Z → bool;                 (* the device, its queues, and starting it *)
  pcap_pool : Z → Z → Z → option (Z * list Z);    (* rte_mempool_create: the pool and its objects *)
  stack : Z → Z → Z; priv_size : Z; data_room : Z;  (* the buffers on the stack and the sizes of those objects *)
  data_plane : dp;                       (* mbufs and their memory before that *)
  sockets : Z; zone_of : Z → option (Z * Z);
  allocates : Z → bool }.                (* rte_zmalloc_socket *)

(** The file [name], opened for a port *)
Definition opened `{Boot} (port : Z) (name : list Z) : option pcap_t := _pcap_open (has_memory port name) (content name).
Definition opens `{Boot} (port : Z) (name : list Z) : bool := match opened port name with Some _ => true | None => false end.

Definition strchr (c : Z) (s : list Z) : option (list Z) :=
  match snd (span (λ x, x =? c) s) with [] => None | _ :: t => Some t end.
Definition upto (c : Z) (s : list Z) : list Z := fst (span (λ x, x =? c) s).

(** The files of a list, opened one after the other, as many as there are queues *)
Definition NUM_Q := 8.
Fixpoint open_list `{Boot} (fuel : nat) (port : Z) (p : list Z) : option (list (list Z)) :=
  match fuel with
  | O => Some []
  | S fuel =>
      let name := upto 44 p in
      if opens port name
      then rest ← (match strchr 44 p with Some p => open_list fuel port p | None => Some [] end); Some (name :: rest)
      else None
  end.

(** [-s P:file,...]; a port number out of range is not defined. *)
Definition opt_s `{Boot} (arg : list Z) (s : settings) : res settings :=
  let port := swrap 32 (strtol 10 arg) in
  match strchr 58 arg with
  | None => Refused
  | Some p =>
      if negb ((0 <=? port) && (port <? Capture.RTE_MAX_ETHPORTS)) then Undef
      else
        match strchr 44 arg with
        | None => if opens port p then Ok (s <| streams ::= set_at port (mk_stream (Some (Single p)) (pcaps (streams s port))) |>) else Refused
        | Some _ =>
            match open_list (Z.to_nat NUM_Q) port p with
            | Some ps => Ok (s <| streams ::= set_at port (mk_stream (Some First_of_list) (ps ++ drop (length ps) (pcaps (streams s port)))) |>)
            | None => Refused
            end
        end
  end.

Definition set_flag (f : Z) (s : settings) : settings := s <| flags ::= λ v, Z.lor v f |>.

(** [Refused]: the program ends with its usage. *)
Definition one_option `{Boot} (o : opt) (s : settings) : res settings :=
  match o with
  | Opt_p _ => Ok s
  | Opt_f f => Ok (s <| cmdfiles ::= λ l, l ++ [f] |>)
  | Opt_l f => Ok (s <| log_file := Some f |>)
  | Opt_m m =>
      match pg_parse_matrix past_text m (matrix s) with
      | Some (r, l) => if r =? -1 then Refused else Ok (s <| matrix := l |>)
      | None => Undef
      end
  | Opt_s arg => opt_s arg s
  | Opt_P => Ok (set_flag PROMISCUOUS_ON_FLAG s)
  | Opt_N => Ok (set_flag NUMA_SUPPORT_FLAG s)
  | Opt_G => Ok (set_flag (Z.lor ENABLE_GUI_FLAG IS_SERVER_FLAG) s)
  | Opt_g a =>
      let s := set_flag (Z.lor ENABLE_GUI_FLAG IS_SERVER_FLAG) s in
      match strchr 58 a with
      | None => Ok (s <| hostname := a |>)
      | Some p =>
          let host := upto 58 a in
          let s := match host with [] => s | _ => s <| hostname := host |> end in
          Ok (s <| socket_port := swrap 32 (strtol0 p) |>)
      end
  | Opt_T => Ok (set_flag ENABLE_THEME_FLAG s)
  | Opt_v => Ok (s <| verbose := true |>)
  | Opt_h | Bad_option => Refused
  | Long n =>
      match lgopts_val !! n with
      | Some 0 => Ok (s <| hw_strip_crc := 1 |>)
      | Some 1 => Ok (s <| hw_strip_crc := 0 |>)
      | _ => Refused
      end
  end.

Fixpoint parse_options `{Boot} (os : list opt) (s : settings) : res settings :=
  match os with [] => Ok s | o :: os => s ← one_option o s; parse_options os s end.

(** [pktgen_parse_args], after what [main] sets before *)
Definition pktgen_parse_args `{Boot} (os : list opt) : res settings :=
  parse_options os (mk_settings PRINT_LABELS_FLAG l2p_create (str "localhost") 0x5606 false 1 [] None (λ _, mk_stream None [])).

(** ** Ports *)

Definition DEFAULT_JITTER_THRESHOLD := 50.

(** Ports that some core handles are told their number, and known to the table; the
    structure of another one is [NULL]. *)
Definition numbered (l : l2p_t) (pid : Z) : bool :=
  existsb (λ lid, negb (bool_decide (get_map l L2p.RTE_MAX_ETHPORTS lid = (0, 0))) &&
                  negb (bool_decide (get_map l pid lid = (0, 0)))) (seqZ 0 L2p.RTE_MAX_LCORE).
Definition attached (l : l2p_t) (pid : Z) : bool := negb (bool_decide (get_map l pid L2p.RTE_MAX_LCORE = (0, 0))).

Section Configure.
Context `{Env} `{Boot}.

(** A pool for a queue; without it the program ends. *)
Definition queue_pool (name : string) (pid qid : Z) (put : Z → q_info → q_info) (w : world) : option world :=
  let mp := mempool name pid qid in
  if mp =? 0 then None else Some (upd_info (λ i, i <| Info.q ::= λ t, set_at qid (put mp (t qid)) t |>) w).

(** The file of queue [qid], with whether it is the port's own *)
Definition queue_file (st : stream) (qid : Z) : option (list Z * bool) :=
  match pcaps st !! Z.to_nat qid, own st with
  | Some f, Some First_of_list => Some (f, qid =? 0)
  | Some f, _ => Some (f, false)
  | None, Some (Single f) => Some (f, true)
  | None, Some First_of_list => (λ f, (f, true)) <$> pcaps st !! 0%nat
  | None, None => None
  end.

(** [pktgen_pcap_parse] on a file that was opened, wherever its stream is, since it is
    rewound first.  A turn reads a byte at least, and a packet that is read again is
    there at the second turn.  The packets made are the data plane's, of which the
    console has no part. *)
Definition load_file (mine : bool) (pid qid : Z) (name : list Z) (w : world) : option world :=
  p ← opened pid name;
  '(_, s) ← pktgen_pcap_parse stack priv_size data_room (S (S (length (bytes (fd p))))) (pcap_pool pid qid) mine qid
              (p, data_plane <| Mbuf.w := w |>);
  Some (Mbuf.w s).

(** The pools of a transmit queue, and its packets from a file *)
Definition config_txq (st : stream) (pid qid : Z) (w : world) : option world :=
  w ← queue_pool "Default TX" pid qid (λ mp q, q <| Q.tx_mp := mp |>) w;
  w ← queue_pool "Range TX" pid qid (λ mp q, q <| Q.range_mp := mp |>) w;
  w ← queue_pool "Rate TX" pid qid (λ mp q, q <| Q.rate_mp := mp |>) w;
  w ← queue_pool "Sequence TX" pid qid (λ mp q, q <| Q.seq_mp := mp |>) w;
  w ← queue_pool "Special TX" pid qid (λ mp q, q <| Q.special_mp := mp |>) w;
  match queue_file st qid with
  | None => Some w
  | Some (f, mine) => load_file mine pid qid f w
  end.
Fixpoint config_txqs (n : nat) (qid : Z) (st : stream) (pid : Z) (w : world) : option world :=
  match n with
  | O => Some w
  | S n => w ← config_txq st pid qid w; config_txqs n (qid + 1) st pid w
  end.

(** Receive queues have a pool each, which is not looked at again. *)
Definition config_rxqs (rx pid : Z) : bool := forallb (λ q, negb (mempool "Default RX" pid q =? 0)) (seqZ 0 rx).

Definition start_pattern : list Z := str "0123456789abcdef".
(** [snprintf] leaves room for the end of the text. *)
Definition start_user_pattern (k : Z) : Z := if (0 <=? k) && (k <? 15) then default 0 (start_pattern !! Z.to_nat k) else 0.

(** The first pass over a port; the array of queues has [NUM_Q] elements. *)
Definition config_port (s : settings) (pid : Z) (w : world) : option world :=
  let '(rx, tx) := get_map (matrix s) pid L2p.RTE_MAX_LCORE in
  let w := upd_info (λ i, i <| Info.fill_pattern_type := ABC_FILL_PATTERN |> <| Info.user_pattern := start_user_pattern |>) w in
  w ← pktgen_rate_init w;
  if negb (allocates pid) then None
  else
    let w := upd_info (λ i,
      i <| Info.seq_pkt := λ _, Pkt.zero |> <| Info.seqIdx := 0 |> <| Info.seqCnt := 0 |>
        <| Info.jitter_threshold := DEFAULT_JITTER_THRESHOLD |>
        <| Info.jitter_threshold_clks := u64 (DEFAULT_JITTER_THRESHOLD * (timer_hz / 1000000)) |>
        <| Info.tx_offload_capa := tx_capa pid |>) w in
    if negb (configures pid && config_rxqs rx pid) || (NUM_Q <? rx) || (NUM_Q <? tx) then None
    else
      w ← config_txqs (Z.to_nat tx) 0 (streams s pid) pid w;
      let set_mac k := upd_pkt k (λ p, p <| Pkt.eth_src_addr := mac_of_dev pid |>) in
      let w := set_mac RATE_PKT (set_mac SINGLE_PKT w) in
      let w := foldl (λ w k, set_mac k w) w (seqZ 0 NUM_SEQ_PKTS) in
      Some (set_mac RATE_PKT w).

(** The second pass, when all ports are started *)
Definition finish_port (peer : option (Z → pkt_seq_t)) (pid : Z) (w : world) : world :=
  let w := upd_pkt SINGLE_PKT (λ p, p <| Pkt.pktSize := MIN_PKT_SIZE |>) w in
  let w := upd_pkt RATE_PKT (λ p, p <| Pkt.pktSize := MIN_PKT_SIZE |>) w in
  let w := defaults_upto (Z.to_nat NUM_TOTAL_PKTS) 0 peer w in
  let w := pktgen_range_setup w in
  upd_info (λ i, i <| Info.prev_stats := hw_stats pid |>) w.

(** A port before the first pass: [pktgen] was cleared, files were opened. *)
Definition initial_port (s : settings) (pid : Z) : port_info_t :=
  let i := Info.zero <| Info.pid := if numbered (matrix s) pid then pid else 0 |> in
  match own (streams s pid) with None => i | Some _ => i <| Info.pcap := Some (Pcap.mk 0 0 0) |> end.

Fixpoint config_ports (s : settings) (pids : list Z) (c : console) : option console :=
  match pids with
  | [] => Some c
  | pid :: pids =>
      if negb (attached (matrix s) pid) then config_ports s pids c
      else if negb (numbered (matrix s) pid) then None
      else
        w ← config_port s pid (mk_world (globals c) (initial_port s pid));
        config_ports s pids (put_world pid w c)
  end.

Fixpoint finish_ports (s : settings) (pids : list Z) (c : console) : option console :=
  match pids with
  | [] => Some c
  | pid :: pids =>
      if negb (attached (matrix s) pid) then finish_ports s pids c
      else
        i ← ports c pid;
        let c := put_world pid (finish_port (peer_pkts c pid) pid (mk_world (globals c) i)) c in
        let '(rb, _) := pktgen_rnd_bits_init dev_random xor_state in
        finish_ports s pids (c <| rnd ::= set_at pid rb |>)
  end.

Definition initial_globals (s : settings) : pktgen_t :=
  let nb := Z.min dev_count Capture.RTE_MAX_ETHPORTS in
  Pg.mk (flags s) 0x1234 0 nb 0 (if DEFAULT_PORTS_PER_PAGE <? nb then DEFAULT_PORTS_PER_PAGE else nb)
    DEFAULT_PORTS_PER_PAGE 0 timer_hz (get_port_txcnt (matrix s)) Eth.zero 0 0.

(** [pktgen_config_ports]; without a device the program ends. *)
Definition pktgen_config_ports (s : settings) (memory : mem) : option console :=
  if dev_count =? 0 then None
  else
    let caps s := let cap := mk_capture None 0 0 0 0 0 in
                  if (0 <=? s) && (s <? sockets) then pktgen_packet_capture_init (zone_of s) cap else cap in
    c ← config_ports s devs (mk_console (initial_globals s) (λ _, None) (λ _, rnd_bits_zero) (λ _, mk_capture None 0 0 0 0 0) memory);
    c ← finish_ports s devs c;
    Some (c <| Console.caps := caps |>).

(** [main] up to the launch of the cores *)
Definition pktgen_main (os : list opt) (memory : mem) : option (settings * console) :=
  match pktgen_parse_args os with
  | Ok s =>
      if negb (get_lcore_rxcnt (matrix s) master_lcore =? 0) || negb (get_lcore_txcnt (matrix s) master_lcore =? 0) then None
      else c ← pktgen_config_ports s memory; Some (s, c)
  | _ => None
  end.
End Configure.

(** ** A file's packets *)

(** The packets that are counted in a file *)
Definition file_packets `{Boot} (name : list Z) : Z :=
  default 0 (p ← _pcap_open true (content name);
             (λ r, fst (fst r)) <$> count_loop (S (S (length (bytes (fd p))))) (_pcap_rewind p) (mk_rec_hdr 0 0 0 0) (stack 0) 0 0).

(** What loading a file changes of a port: a file without packets changes nothing
    but the rate. *)
Record loads `{Boot} (mine : bool) (f : list Z) (w w' : world) : Prop := {
  ld_g : g w' = g w;
  ld_pid : Info.pid (info w') = Info.pid (info w);
  ld_pkts : Info.seq_pkt (info w') = Info.seq_pkt (info w);
  ld_dump : Info.dump_count (info w') = Info.dump_count (info w);
  ld_flags : Info.port_flags (info w') =
    if file_packets f =? 0 then Info.port_flags (info w) else set_bits (Info.port_flags (info w)) SEND_PCAP_PKTS;
  ld_pcap : if mine && negb (file_packets f =? 0)
            then ∃ p, Info.pcap (info w') = Some p ∧ Pcap.pkt_count p = file_packets f ∧ pcap_ok p
            else Info.pcap (info w') = Info.pcap (info w) }.

(** Files are smaller than two gigabytes, so that counts and sums do not wrap. *)
Class Small_files `{Boot} := content_small f l : content f = Some l → Z.of_nat (length l) < 2 ^ 31.

Lemma open_bytes `{Boot} pid f p : opened pid f = Some p → ∃ l, content f = Some l ∧ _pcap_open true (content f) = Some p ∧ bytes (fd p) = l.
Proof.
  unfold opened, _pcap_open. destruct (has_memory pid f); cbn [negb]; [|done]. intros E. destruct (content f) as [l|] eqn:El; [|done].
  exists l. split; [done|]. split; [exact E|]. cbn [mbind option_bind] in E. unfold fread in E. cbv zeta in E. cbn [bytes pos] in E.
  destruct (negb _); [done|]. destruct (_ && _); [done|]. by destruct (_ =? _); injection E as <-.
Qed.

(** The count and the sum of the lengths, as long as neither wraps around *)
Lemma count_loop_bounds fuel : ∀ p h b n sizes n' sizes' p', 0 ≤ n → n + Z.of_nat fuel < 2 ^ 32 → 0 ≤ sizes ≤ 1514 * n →
  count_loop fuel p h b n sizes = Some (n', sizes', p') → 0 ≤ n' < 2 ^ 32 ∧ 0 ≤ sizes' ≤ 1514 * n'.
Proof.
  induction fuel as [|fuel IH]; intros p h b n sizes n' sizes' p' Hn Hf Hs; [done|]. cbn [count_loop].
  destruct (_pcap_read p h b DEFAULT_MBUF_SIZE) as [[[r h1] b1] p1]. destruct (r <=? 0); [intros [= <- <- _]; lia|].
  assert (0 ≤ adjust_len (incl_len h1) ≤ 1514) as Ha.
  { unfold adjust_len. change MIN_PKT_SIZE with 60. change MAX_PKT_SIZE with 1514.
    destruct (Z.ltb_spec (incl_len h1) 60), (Z.ltb_spec 1514 (incl_len h1)); lia. }
  rewrite (wrap_small 32 (n + 1)), (wrap_small 64 (sizes + adjust_len (incl_len h1))) by (unfold in_word; lia).
  apply IH; lia.
Qed.

Lemma mbuf_ctor_world j ps dr fuel m p s p' s' : pktgen_pcap_mbuf_ctor j ps dr fuel m (p, s) = Some (p', s') → Mbuf.w s' = Mbuf.w s.
Proof.
  unfold pktgen_pcap_mbuf_ctor. destruct (next_packet _ _ _ _) as [[[h b] p1]|]; [|done]. cbn [mbind option_bind]. cbv zeta. by intros [= _ <-].
Qed.
Lemma ctor_objs_world j ps dr fuel objs : ∀ p s p' s', ctor_objs j ps dr fuel objs (p, s) = Some (p', s') → Mbuf.w s' = Mbuf.w s.
Proof.
  induction objs as [|m objs IH]; intros p s p' s'; cbn [ctor_objs]; [by intros [= _ <-]|].
  destruct (pktgen_pcap_mbuf_ctor _ _ _ _ _ _) as [[p1 s1]|] eqn:E; [|done]. cbn [mbind option_bind]. apply mbuf_ctor_world in E.
  intros E1%IH. congruence.
Qed.

(** The rate is all that [pktgen_packet_rate] changes. *)
Lemma packet_rate_keeps w w' : pktgen_packet_rate w = Some w' →
  g w' = g w ∧ Info.pid (info w') = Info.pid (info w) ∧ Info.seq_pkt (info w') = Info.seq_pkt (info w) ∧
  Info.dump_count (info w') = Info.dump_count (info w) ∧ Info.port_flags (info w') = Info.port_flags (info w) ∧
  Info.pcap (info w') = Info.pcap (info w).
Proof. unfold pktgen_packet_rate. cbv zeta. intros E. do 2 (apply bind_Some in E as (? & _ & E)). by injection E as <-. Qed.

Lemma load_file_loads `{Boot} `{!Small_files} mine pid qid f w w' : load_file mine pid qid f w = Some w' → loads mine f w w'.
Proof.
  unfold load_file. intros E. apply bind_Some in E as (p & Ep & E). apply bind_Some in E as ([p' s'] & E & [= <-]).
  destruct (open_bytes _ _ _ Ep) as (l & El & Eo & Eb). pose proof (content_small f l El) as Hl.
  unfold pktgen_pcap_parse in E. apply bind_Some in E as ([[n sizes] p1] & Ec & E). cbv zeta in E.
  assert (file_packets f = n) as En by (unfold file_packets; rewrite Eo; cbn [mbind option_bind]; rewrite Ec; done).
  apply count_loop_bounds in Ec as [Hn Hs]; [|lia|rewrite Eb; lia|lia].
  apply bind_Some in E as ([p2 s2] & E & E2). apply bind_Some in E2 as (w2 & E2 & [= _ <-]).
  destruct (packet_rate_keeps _ _ E2) as (G1 & G2 & G3 & G4 & G5 & G6). clear E2.
  change (Mbuf.w (upd_w (λ _, w2) s2)) with w2.
  destruct (Z.ltb_spec 0 n) as [Hpos|Hzero].
  - apply bind_Some in E as ([mp objs] & _ & E). apply bind_Some in E as ([p3 s3] & E & [= _ <-]). apply ctor_objs_world in E.
    set (wp := Mbuf.w (upd_port _ (data_plane <| Mbuf.w := w |>))) in E.
    assert (Mbuf.w (upd_port (λ i, pktgen_set_port_flags i SEND_PCAP_PKTS) (upd_port (λ i, upd_q i qid (λ q, q <| Q.pcap_mp := mp |>)) s3)) =
            upd_info (λ i, pktgen_set_port_flags i SEND_PCAP_PKTS) (upd_info (λ i, upd_q i qid (λ q, q <| Q.pcap_mp := mp |>)) (Mbuf.w s3))) as Ew by done.
    rewrite Ew, E in G1, G2, G3, G4, G5, G6. unfold wp in *.
    constructor; rewrite ?En, ?(proj2 (Z.eqb_neq n 0)) by lia; cbn [andb negb].
    + by rewrite G1.
    + rewrite G2. by destruct mine.
    + rewrite G3. by destruct mine.
    + rewrite G4. by destruct mine.
    + rewrite G5. by destruct mine.
    + rewrite G6. destruct mine; cbn [andb]; [|done]. eexists. split; [reflexivity|]. split; [done|]. unfold pcap_ok. cbn [Pcap.pkt_size].
      assert (0 ≤ sizes / n ≤ 1514) as Hq by (split; [apply Z.div_pos; lia|apply Z.div_le_upper_bound; lia]).
      rewrite wrap_small by (unfold in_word; lia). lia.
  - injection E as _ <-. constructor; rewrite ?En, ?(proj2 (Z.eqb_eq n 0)) by lia; rewrite ?andb_false_r; try done.
Qed.

(** ** A port that is started *)

Section Started.
Context `{Env} `{Boot} `{!Small_files}.

(** What is true from the first step on; sizes, burst and prime count follow. *)
Record starting (i : port_info_t) : Prop := {
  st_flags : flags_ok (Info.port_flags i) (Info.pcap i);
  st_only : Info.port_flags i = 0 ∨ Info.port_flags i = SEND_PCAP_PKTS;
  st_pcap : ∀ p, Info.pcap i = Some p → pcap_ok p;
  st_sizes : sizes_ok (Info.seq_pkt i);
  st_dump : 0 ≤ Info.dump_count i ≤ MAX_DUMP_PACKETS }.

Lemma flags_pcap_ok p : Pcap.pkt_count p ≠ 0 → flags_ok SEND_PCAP_PKTS (Some p).
Proof.
  intros Hp. split.
  - by vm_compute.
  - intros i j Hi Hj _ _ Ei Ej. unfold SEND_PCAP_PKTS in *. rewrite Z.shiftl_1_l in *.
    rewrite Z.pow2_bits_eqb in Ei, Ej by lia. lia.
  - intros _. by exists p.
  - by vm_compute.
Qed.
Lemma flags_zero_ok x : flags_ok 0 x.
Proof. split; [done| |done|done]. intros i j _ _ _ _. by rewrite Z.testbit_0_l. Qed.

(** *** The first pass *)

(** The slots that get the address of the device *)
Definition has_mac (k : Z) : Prop := 0 ≤ k < NUM_SEQ_PKTS ∨ k = SINGLE_PKT ∨ k = RATE_PKT.
Definition macs_set (pid : Z) (i : port_info_t) : Prop := ∀ k, has_mac k → Pkt.eth_src_addr (Info.seq_pkt i k) = mac_of_dev pid.
Record configured (pid : Z) (i : port_info_t) : Prop := {
  cf_starting : starting i; cf_pid : Info.pid i = pid; cf_macs : macs_set pid i }.

(** A step of the first pass that loads no file *)
Definition keeps (w w' : world) : Prop :=
  g w' = g w ∧ Info.pid (info w') = Info.pid (info w) ∧ Info.port_flags (info w') = Info.port_flags (info w) ∧
  (starting (info w) → starting (info w')).
Lemma keeps_trans w1 w2 w3 : keeps w1 w2 → keeps w2 w3 → keeps w1 w3.
Proof. intros (E1 & E2 & E3 & H2) (E4 & E5 & E6 & H3). split_and!; [congruence..|auto]. Qed.

Lemma keeps_info f w : (∀ i, Info.pid (f i) = Info.pid i ∧ Info.port_flags (f i) = Info.port_flags i) →
  (∀ i, starting i → starting (f i)) → keeps w (upd_info f w).
Proof. intros Hp Hs. split_and!; [done|apply Hp|apply Hp|apply Hs]. Qed.

Lemma queue_pool_keeps name pid qid put w w' : queue_pool name pid qid put w = Some w' → keeps w w'.
Proof. unfold queue_pool. cbn zeta. destruct (_ =? 0); [done|]. intros [= <-]. apply keeps_info; [done|]. by intros i []. Qed.

(** A port is told to send its file when that has packets; [single] ports have no
    files but their own. *)
Definition loaded (st : stream) (w : world) : Prop :=
  Info.port_flags (info w) = SEND_PCAP_PKTS → ∃ f, own st = Some (Single f) ∧ file_packets f ≠ 0.
Definition single (st : stream) : Prop := pcaps st = [].

Lemma load_starting st pid qid f w w' : own st = Some (Single f) → load_file true pid qid f w = Some w' →
  loaded st w → starting (info w) →
  g w' = g w ∧ Info.pid (info w') = Info.pid (info w) ∧ loaded st w' ∧ starting (info w').
Proof.
  intros Eo E%load_file_loads Hl [F1 F2 F3 F4 F5]. destruct E as [Eg Epid Ep Ed Ef Hp].
  destruct (Z.eqb_spec (file_packets f) 0) as [E0|E0]; cbn [andb negb] in Hp.
  - assert (Info.port_flags (info w) = 0) as Hz.
    { destruct F2 as [|Hs]; [done|]. destruct (Hl Hs) as (f' & Eo' & Hf'). rewrite Eo in Eo'. injection Eo' as <-. done. }
    split_and!; [exact Eg|exact Epid|by intros Hs; rewrite Ef in Hs; apply Hl|].
    split; [rewrite Ef, Hz; apply flags_zero_ok|rewrite Ef; by left|by rewrite Hp|by rewrite Ep|by rewrite Ed].
  - destruct Hp as (p & Epc & Ec & Hpo).
    assert (Info.port_flags (info w') = SEND_PCAP_PKTS) as Hfl by (rewrite Ef; by destruct F2 as [->| ->]; vm_compute).
    split_and!; [exact Eg|exact Epid|by intros _; exists f|].
    split; [rewrite Hfl, Epc; apply flags_pcap_ok; congruence|by right|by rewrite Epc; intros ? [= <-]|by rewrite Ep|by rewrite Ed].
Qed.

Lemma config_txq_starting st pid qid w w' : single st → config_txq st pid qid w = Some w' →
  loaded st w → starting (info w) →
  g w' = g w ∧ Info.pid (info w') = Info.pid (info w) ∧ loaded st w' ∧ starting (info w').
Proof.
  intros Hsi E Hl Hs. unfold config_txq in E.
  assert (∃ w1, keeps w w1 ∧ match queue_file st qid with None => Some w1 | Some (f, mine) => load_file mine pid qid f w1 end = Some w')
    as (w1 & (Eg & Ep & Ef & Hk) & E1).
  { do 5 (apply bind_Some in E as (? & ?%queue_pool_keeps & E)).
    eexists. split; [|exact E]. repeat (eapply keeps_trans; [eassumption|]). done. }
  clear E. rewrite <-Eg, <-Ep.
  assert (loaded st w1) as Hl1 by (unfold loaded in *; by rewrite Ef).
  unfold queue_file in E1. rewrite Hsi, lookup_nil in E1. destruct (own st) as [[f|]|] eqn:Eo.
  - eapply load_starting; [done|exact E1|done|by apply Hk].
  - injection E1 as <-. split_and!; auto.
  - injection E1 as <-. split_and!; auto.
Qed.

Lemma config_txqs_starting n st pid : ∀ qid w w', single st → config_txqs n qid st pid w = Some w' →
  loaded st w → starting (info w) →
  g w' = g w ∧ Info.pid (info w') = Info.pid (info w) ∧ starting (info w').
Proof.
  induction n as [|n IH]; intros qid w w' Hsi E Hl Hs; cbn [config_txqs] in E; [by injection E as <-|].
  apply bind_Some in E as (w1 & E1 & E).
  destruct (config_txq_starting _ _ _ _ _ Hsi E1 Hl Hs) as (Eg & Ep & Hl1 & Hs1).
  destruct (IH _ _ _ Hsi E Hl1 Hs1) as (Eg2 & Ep2 & Hs2). split_and!; [congruence..|done].
Qed.

Lemma rate_init_keeps w w' : pktgen_rate_init w = Some w' → keeps w w'.
Proof.
  unfold pktgen_rate_init, calculate_rate. cbn zeta. intros E. repeat (apply bind_Some in E as (? & _ & E)). injection E as <-.
  split_and!; [done..|by intros []].
Qed.

Lemma set_mac_keeps pid k w : keeps w (upd_pkt k (λ p, p <| Pkt.eth_src_addr := mac_of_dev pid |>) w).
Proof.
  split_and!; [done..|]. intros [F1 F2 F3 F4 F5]. split; [done..| |done]. intros j.
  change (in_word 16 (Pkt.pktSize (set_at k (get_pkt w k <| Pkt.eth_src_addr := mac_of_dev pid |>) (Info.seq_pkt (info w)) j))).
  unfold set_at. destruct (j =? k); [apply (F4 k)|apply F4].
Qed.

Lemma set_macs_spec pid ks : ∀ w,
  let w' := foldl (λ w k, upd_pkt k (λ p, p <| Pkt.eth_src_addr := mac_of_dev pid |>) w) w ks in
  keeps w w' ∧ ∀ k, (k ∈ ks ∨ Pkt.eth_src_addr (get_pkt w k) = mac_of_dev pid) → Pkt.eth_src_addr (get_pkt w' k) = mac_of_dev pid.
Proof.
  induction ks as [|k0 ks IH]; intros w; cbn [foldl]; cbn zeta.
  - split; [done|]. by intros k [?%not_elem_of_nil|?].
  - destruct (IH (upd_pkt k0 (λ p, p <| Pkt.eth_src_addr := mac_of_dev pid |>) w)) as [Hk Hm].
    split; [eapply keeps_trans; [apply set_mac_keeps|exact Hk]|]. intros k Hin. apply Hm.
    change (get_pkt (upd_pkt k0 (λ p, p <| Pkt.eth_src_addr := mac_of_dev pid |>) w) k) with
      (set_at k0 (get_pkt w k0 <| Pkt.eth_src_addr := mac_of_dev pid |>) (Info.seq_pkt (info w)) k).
    unfold set_at. destruct (Z.eqb_spec k k0) as [->|Hne]; [by right|].
    destruct Hin as [[?|?]%elem_of_cons|?]; [done|by left|by right].
Qed.

Lemma config_port_spec s pid w w' : single (streams s pid) → config_port s pid w = Some w' →
  Info.pid (info w) = pid → Info.port_flags (info w) = 0 → starting (info w) → g w' = g w ∧ configured pid (info w').
Proof.
  unfold config_port. destruct (get_map _ _ _) as [rx tx]. cbn zeta. intros Hsi E Ep Ef Hs.
  set (w1 := upd_info _ w) in E. assert (keeps w w1) as K1 by (apply keeps_info; [done|by intros i []]).
  apply bind_Some in E as (w2 & E2 & E). pose proof (keeps_trans _ _ _ K1 (rate_init_keeps _ _ E2)) as K2.
  destruct (allocates pid); [|done]. cbn [negb] in E. destruct (_ || _); [done|].
  set (w3 := upd_info _ w2) in E.
  assert (keeps w2 w3) as K3 by (apply keeps_info; [done|]; intros i []; by split).
  destruct (keeps_trans _ _ _ K2 K3) as (Eg3 & Ep3 & Ef3 & Hs3). apply bind_Some in E as (w4 & E4 & E).
  destruct (config_txqs_starting _ _ _ _ _ _ Hsi E4) as (Eg4 & Ep4 & Hs4).
  { intros Hfl. rewrite Ef3, Ef in Hfl. done. }
  { by apply Hs3. }
  injection E as <-.
  set (ks := SINGLE_PKT :: RATE_PKT :: seqZ 0 NUM_SEQ_PKTS ++ [RATE_PKT]).
  match goal with |- context [configured pid (info ?t)] =>
    replace t with (foldl (λ w k, upd_pkt k (λ p, p <| Pkt.eth_src_addr := mac_of_dev pid |>) w) w4 ks)
      by (unfold ks; cbn [foldl]; by rewrite foldl_app) end.
  destruct (set_macs_spec pid ks w4) as [(Eg5 & Ep5 & _ & Hs5) Hm].
  split; [congruence|]. split; [by apply Hs5|congruence|].
  intros k Hk. apply Hm. left. unfold ks. rewrite !elem_of_cons, elem_of_app, elem_of_seqZ. unfold has_mac in Hk. tauto || lia.
Qed.

(** *** The second pass *)

(** A packet with its defaults, apart from what building its headers writes, and a
    port with its own *)
Definition defaulted (peer : option (Z → pkt_seq_t)) (pid : Z) (p : pkt_seq_t) : pkt_seq_t :=
  default_ips pid
    (p <| Pkt.pktSize := MIN_PKT_SIZE |> <| Pkt.sport := DEFAULT_SRC_PORT |> <| Pkt.dport := DEFAULT_DST_PORT |>
       <| Pkt.ttl := DEFAULT_TTL |> <| Pkt.ipProto := PG_IPPROTO_TCP |> <| Pkt.ethType := PG_ETHER_TYPE_IPv4 |>
       <| Pkt.vlanid := DEFAULT_VLAN_ID |> <| Pkt.cos := DEFAULT_COS |> <| Pkt.tos := DEFAULT_TOS |>
       <| Pkt.ip_mask := DEFAULT_NETMASK |>)
    <| Pkt.eth_dst_addr := match peer with Some pkts => Pkt.eth_src_addr (pkts RATE_PKT) | None => 0 end |>.
Definition default_info (i : port_info_t) : port_info_t :=
  i <| Info.transmit_count := DEFAULT_TX_COUNT |> <| Info.current_tx_count := 0 |>
    <| Info.tx_rate := sf_of_u64 DEFAULT_TX_RATE |> <| Info.tx_burst := DEFAULT_PKT_BURST |>
    <| Info.vlanid := DEFAULT_VLAN_ID |> <| Info.cos := DEFAULT_COS |> <| Info.tos := DEFAULT_TOS |>
    <| Info.seqCnt := 0 |> <| Info.seqIdx := 0 |> <| Info.prime_cnt := DEFAULT_PRIME_COUNT |> <| Info.delta := 0 |>.
(** A port without its packets and queues *)
Definition plain (i : port_info_t) : port_info_t := i <| Info.seq_pkt := λ _, Pkt.zero |> <| Info.q := λ _, Q.zero |>.

Lemma q_flags_plain n q f i : plain (set_q_flags_upto n q f i) = plain i ∧ Info.seq_pkt (set_q_flags_upto n q f i) = Info.seq_pkt i.
Proof. revert q i. induction n as [|n IH]; intros q i; [done|]. cbn [set_q_flags_upto]. destruct (IH (q + 1) (pktgen_set_q_flags i q f)) as [-> ->]. done. Qed.

Lemma all_q_flags_plain f w :
  plain (info (all_q_flags f w)) = plain (info w) ∧ Info.seq_pkt (info (all_q_flags f w)) = Info.seq_pkt (info w).
Proof. apply q_flags_plain. Qed.

Lemma rebuild_plain k w : plain (info (rebuild k w)) = plain (info w).
Proof. unfold rebuild, pktgen_set_tx_update. rewrite (proj1 (all_q_flags_plain _ _)). unfold pktgen_packet_ctor. by destruct (ctor_pkt _ _ _ _). Qed.
Lemma rebuild_slot k w j : fixed (get_pkt (rebuild k w) j) = fixed (get_pkt w j).
Proof.
  unfold rebuild, pktgen_set_tx_update, get_pkt at 1. rewrite (proj2 (all_q_flags_plain _ _)). apply packet_ctor_slot.
Qed.

Lemma slot_upd_pkt k f w j : get_pkt (upd_pkt k f w) j = if j =? k then f (get_pkt w k) else get_pkt w j.
Proof. done. Qed.
Lemma default_ips_pid pid pid' p : pid = pid' → default_ips pid p = default_ips pid' p.
Proof. by intros ->. Qed.

Lemma g_flags_pkt f w j : get_pkt (g_set_flags f w) j = get_pkt w j.
Proof. done. Qed.
Lemma g_flags_info f w : info (g_set_flags f w) = info w.
Proof. done. Qed.
Lemma get_upd_info f w j : (∀ i, Info.seq_pkt (f i) = Info.seq_pkt i) → get_pkt (upd_info f w) j = get_pkt w j.
Proof. intros E. unfold get_pkt. change (Info.seq_pkt (f (info w)) j = Info.seq_pkt (info w) j). by rewrite E. Qed.

Lemma port_defaults_slot peer w s j : fixed (get_pkt (pktgen_port_defaults peer w s) j) =
  fixed (if j =? s then defaulted peer (Info.pid (info w)) (get_pkt w s) else get_pkt w j).
Proof.
  unfold pktgen_port_defaults. cbn zeta. rewrite g_flags_pkt, rebuild_slot, !slot_upd_pkt, Z.eqb_refl.
  rewrite !get_upd_info by done. rewrite !slot_upd_pkt, Z.eqb_refl. by destruct (j =? s).
Qed.
Lemma port_defaults_plain peer w s : plain (info (pktgen_port_defaults peer w s)) = default_info (plain (info w)).
Proof. unfold pktgen_port_defaults. cbn zeta. by rewrite g_flags_info, rebuild_plain. Qed.
Lemma plain_pid i : Info.pid (plain i) = Info.pid i.
Proof. done. Qed.
Lemma port_defaults_pid peer w s : Info.pid (info (pktgen_port_defaults peer w s)) = Info.pid (info w).
Proof. rewrite <-plain_pid, port_defaults_plain. done. Qed.
Lemma port_defaults_starting peer w s : starting (info w) → ok (pktgen_port_defaults peer w s).
Proof.
  intros [F1 F2 F3 F4 F5].
  set (f := λ i : port_info_t, i <| Info.tx_burst := DEFAULT_PKT_BURST |> <| Info.seqCnt := 0 |> <| Info.prime_cnt := DEFAULT_PRIME_COUNT |>).
  change (ok (pktgen_port_defaults peer (upd_info f w) s)). apply ok_defaults.
  split; [exact F1|exact F3|exact F4|done|done|done|exact F5].
Qed.

(** Defaults do not depend on what building the headers writes. *)
Lemma defaulted_fixed peer pid p q : fixed p = fixed q → fixed (defaulted peer pid p) = fixed (defaulted peer pid q).
Proof.
  intros E.
  assert (∀ p, fixed (defaulted peer pid p) = fixed (defaulted peer pid (fixed p))) as Ef
    by (intros r; unfold defaulted, default_ips; by destruct (Z.land _ _ =? 0)).
  by rewrite (Ef p), (Ef q), E.
Qed.

Lemma defaults_slot peer n : ∀ s w j,
  fixed (get_pkt (defaults_upto n s peer w) j) =
    fixed (if (s <=? j) && (j <? s + Z.of_nat n) then defaulted peer (Info.pid (info w)) (get_pkt w j) else get_pkt w j).
Proof.
  induction n as [|n IH]; intros s w j; cbn [defaults_upto].
  { destruct (Z.leb_spec s j), (Z.ltb_spec j (s + Z.of_nat 0)); try lia; done. }
  rewrite IH, port_defaults_pid.
  pose proof (port_defaults_slot peer w s j) as E. destruct (decide (j = s)) as [Ej|Hne].
  - subst j. rewrite Z.eqb_refl in E.
    destruct (Z.leb_spec (s + 1) s), (Z.leb_spec s s), (Z.ltb_spec s (s + Z.of_nat (S n))); try lia; exact E.
  - rewrite (proj2 (Z.eqb_neq j s) Hne) in E.
    replace (s <=? j) with (s + 1 <=? j) by (destruct (Z.leb_spec (s + 1) j), (Z.leb_spec s j); lia).
    replace (s + Z.of_nat (S n)) with (s + 1 + Z.of_nat n) by lia.
    destruct (_ && _); [|exact E]. by apply defaulted_fixed.
Qed.

Lemma default_info_twice i : default_info (default_info i) = default_info i.
Proof. destruct i. vm_compute. reflexivity. Qed.
Lemma defaults_plain_more peer n x : ∀ s w, plain (info w) = default_info x → plain (info (defaults_upto n s peer w)) = default_info x.
Proof.
  induction n as [|n IH]; intros s w E; cbn [defaults_upto]; [exact E|]. apply IH.
  by rewrite port_defaults_plain, E, default_info_twice.
Qed.
Lemma defaults_plain peer n s w : plain (info (defaults_upto (S n) s peer w)) = default_info (plain (info w)).
Proof. cbn [defaults_upto]. apply defaults_plain_more, port_defaults_plain. Qed.
Lemma defaults_starting peer n s w : starting (info w) → ok (defaults_upto (S n) s peer w).
Proof.
  intros Hs. cbn [defaults_upto]. pose proof (port_defaults_starting peer w s Hs) as Ho. revert Ho.
  generalize (pktgen_port_defaults peer w s). generalize (s + 1). clear Hs w s.
  induction n as [|n IH]; intros s w Ho; cbn [defaults_upto]; [done|]. by apply IH, ok_defaults.
Qed.

Lemma starting_size k w : starting (info w) → starting (info (upd_pkt k (λ p, p <| Pkt.pktSize := MIN_PKT_SIZE |>) w)).
Proof.
  intros [F1 F2 F3 F4 F5]. split; [exact F1|exact F2|exact F3| |exact F5]. intros j.
  change (in_word 16 (Pkt.pktSize (set_at k (get_pkt w k <| Pkt.pktSize := MIN_PKT_SIZE |>) (Info.seq_pkt (info w)) j))).
  unfold set_at. destruct (j =? k); [done|apply F4].
Qed.

(** What a port is when the program has started, [mac] being its peer's address *)
Record started (pid mac : Z) (i : port_info_t) : Prop := {
  sd_ok : port_ok i;
  sd_pid : Info.pid i = pid;
  sd_flags : Info.port_flags i = 0 ∨ Info.port_flags i = SEND_PCAP_PKTS;
  sd_info : Info.transmit_count i = 0 ∧ Info.tx_burst i = 64 ∧ Info.tx_rate i = sf_of_u64 100 ∧ Info.seqCnt i = 0 ∧
            Info.prime_cnt i = 1 ∧ Info.prev_stats i = hw_stats pid;
  sd_pkts : ∀ k, 0 ≤ k < NUM_TOTAL_PKTS → let p := Info.seq_pkt i k in
    Pkt.pktSize p = 60 ∧ Pkt.ethType p = PG_ETHER_TYPE_IPv4 ∧ Pkt.ipProto p = PG_IPPROTO_TCP ∧ Pkt.sport p = 1234 ∧
    Pkt.vlanid p = 1 ∧ Pkt.ip_mask p = 0xFFFFFF00 ∧ Pkt.eth_dst_addr p = mac ∧
    (has_mac k → Pkt.eth_src_addr p = mac_of_dev pid) }.
Definition mac_of_peer (peer : option (Z → pkt_seq_t)) : Z :=
  match peer with Some pkts => Pkt.eth_src_addr (pkts RATE_PKT) | None => 0 end.

Lemma range_setup_pkt w j : fixed (get_pkt (pktgen_range_setup w) j) =
  fixed (if j =? RANGE_PKT then get_pkt w j <| Pkt.pktSize := MIN_PKT_SIZE |> else get_pkt w j).
Proof. unfold pktgen_range_setup. rewrite slot_upd_pkt. by destruct (Z.eqb_spec j RANGE_PKT) as [->|]. Qed.

Lemma fixed_sized p : fixed (p <| Pkt.pktSize := MIN_PKT_SIZE |>) = fixed p <| Pkt.pktSize := MIN_PKT_SIZE |>.
Proof. done. Qed.
Lemma sized_id p : Pkt.pktSize p = MIN_PKT_SIZE → p <| Pkt.pktSize := MIN_PKT_SIZE |> = p.
Proof. destruct p. intros E. cbn in E. subst. reflexivity. Qed.
Lemma fixed_size p : Pkt.pktSize (fixed p) = Pkt.pktSize p.
Proof. done. Qed.
Lemma default_ips_size pid p : Pkt.pktSize (default_ips pid p) = Pkt.pktSize p.
Proof. unfold default_ips. by destruct (_ =? 0). Qed.
Lemma dst_addr_size f (p : pkt_seq_t) : Pkt.pktSize (p <| Pkt.eth_dst_addr ::= f |>) = Pkt.pktSize p.
Proof. done. Qed.
Lemma defaulted_sized peer pid p : fixed (defaulted peer pid p) <| Pkt.pktSize := MIN_PKT_SIZE |> = fixed (defaulted peer pid p).
Proof. apply sized_id. unfold defaulted. rewrite fixed_size, dst_addr_size, default_ips_size. reflexivity. Qed.

(** The end of the second pass: the range, and the counters *)
Definition final (pid : Z) (w : world) : world := upd_info (λ i, i <| Info.prev_stats := hw_stats pid |>) (pktgen_range_setup w).
Lemma final_fields pid w : let i := info (final pid w) in let j := plain (info w) in
  Info.pid i = Info.pid j ∧ Info.port_flags i = Info.port_flags j ∧ Info.transmit_count i = Info.transmit_count j ∧
  Info.tx_burst i = Info.tx_burst j ∧ Info.tx_rate i = Info.tx_rate j ∧ Info.seqCnt i = Info.seqCnt j ∧
  Info.prime_cnt i = Info.prime_cnt j ∧ Info.prev_stats i = hw_stats pid.
Proof. destruct w as [pg i]. destruct i. split_and!; reflexivity. Qed.
Lemma final_pkt pid w k : get_pkt (final pid w) k = get_pkt (pktgen_range_setup w) k.
Proof. done. Qed.
Lemma final_ok pid w : ok w → ok (final pid w).
Proof. intros Ho. apply (ok_upd_info _ (pktgen_range_setup w)); [done..|]. exact (run_ok Range_setup w _ I eq_refl Ho). Qed.

Lemma fixed_field {A} (f : pkt_seq_t → A) p q : (∀ p, f (fixed p) = f p) → fixed p = fixed q → f p = f q.
Proof. intros Hf E. by rewrite <-(Hf p), E, Hf. Qed.

Lemma defaulted_fields peer pid p : let q := defaulted peer pid p in
  Pkt.pktSize q = 60 ∧ Pkt.ethType q = PG_ETHER_TYPE_IPv4 ∧ Pkt.ipProto q = PG_IPPROTO_TCP ∧ Pkt.sport q = 1234 ∧
  Pkt.vlanid q = 1 ∧ Pkt.ip_mask q = 0xFFFFFF00 ∧ Pkt.eth_dst_addr q = mac_of_peer peer ∧ Pkt.eth_src_addr q = Pkt.eth_src_addr p.
Proof. unfold defaulted, default_ips. destruct (Z.land pid 1 =? 0), p; split_and!; reflexivity. Qed.

Lemma final_slot peer pid w w' k : (∀ j, fixed (get_pkt w' j) =
    fixed (if (0 <=? j) && (j <? 0 + Z.of_nat 21) then defaulted peer pid (get_pkt w j) else get_pkt w j)) →
  0 ≤ k < NUM_TOTAL_PKTS → fixed (get_pkt (final pid w') k) = fixed (defaulted peer pid (get_pkt w k)).
Proof.
  intros Es Hk. specialize (Es k). unfold NUM_TOTAL_PKTS in Hk. rewrite final_pkt, range_setup_pkt.
  destruct (Z.leb_spec 0 k), (Z.ltb_spec k (0 + Z.of_nat 21)); try lia. cbn [andb] in Es.
  destruct (k =? RANGE_PKT); [|exact Es]. by rewrite fixed_sized, Es, defaulted_sized.
Qed.

Lemma finish_port_final peer pid w :
  finish_port peer pid w = final pid (defaults_upto (S 20) 0 peer
    (upd_pkt RATE_PKT (λ p, p <| Pkt.pktSize := MIN_PKT_SIZE |>) (upd_pkt SINGLE_PKT (λ p, p <| Pkt.pktSize := MIN_PKT_SIZE |>) w))).
Proof. reflexivity. Qed.
Lemma sized_macs k w j : Pkt.eth_src_addr (get_pkt (upd_pkt k (λ p, p <| Pkt.pktSize := MIN_PKT_SIZE |>) w) j) = Pkt.eth_src_addr (get_pkt w j).
Proof. rewrite slot_upd_pkt. by destruct (Z.eqb_spec j k) as [->|]. Qed.
Lemma sized_plain k w : plain (info (upd_pkt k (λ p, p <| Pkt.pktSize := MIN_PKT_SIZE |>) w)) = plain (info w).
Proof. done. Qed.

Lemma finish_port_spec peer pid w : configured pid (info w) → started pid (mac_of_peer peer) (info (finish_port peer pid w)).
Proof.
  intros [Hs Hp Hm]. rewrite finish_port_final.
  assert (∀ k, Pkt.eth_src_addr (get_pkt (upd_pkt RATE_PKT (λ p, p <| Pkt.pktSize := MIN_PKT_SIZE |>)
    (upd_pkt SINGLE_PKT (λ p, p <| Pkt.pktSize := MIN_PKT_SIZE |>) w)) k) = Pkt.eth_src_addr (get_pkt w k)) as Em
    by (intros k; by rewrite !sized_macs).
  pose proof (starting_size RATE_PKT _ (starting_size SINGLE_PKT _ Hs)) as Hs2.
  pose proof (eq_trans (sized_plain RATE_PKT _) (sized_plain SINGLE_PKT w)) as Ep2.
  revert Em Hs2 Ep2. generalize (upd_pkt RATE_PKT (λ p, p <| Pkt.pktSize := MIN_PKT_SIZE |>)
    (upd_pkt SINGLE_PKT (λ p, p <| Pkt.pktSize := MIN_PKT_SIZE |>) w)). intros w2 Em Hs2 Ep2.
  assert (Info.pid (info w2) = pid) as Epid by (by rewrite <-plain_pid, Ep2).
  pose proof (defaults_starting peer 20 0 w2 Hs2) as Ho.
  pose proof (defaults_plain peer 20 0 w2) as Ep3. rewrite Ep2 in Ep3.
  pose proof (defaults_slot peer (S 20) 0 w2) as Es3. rewrite Epid in Es3.
  revert Ho Ep3 Es3. generalize (defaults_upto (S 20) 0 peer w2). intros w3 Ho Ep3 Es3.
  destruct (final_fields pid w3) as (I1 & I2 & I3 & I4 & I5 & I6 & I7 & I8). rewrite Ep3 in *.
  split.
  - by apply final_ok.
  - exact (eq_trans I1 Hp).
  - rewrite I2. exact (st_only _ Hs).
  - rewrite I3, I4, I5, I6, I7, I8. split_and!; reflexivity.
  - intros k Hk. pose proof (final_slot peer pid w2 w3 k Es3 Hk) as E. cbn zeta.
    change (Info.seq_pkt (info (final pid w3)) k) with (get_pkt (final pid w3) k).
    destruct (defaulted_fields peer pid (get_pkt w2 k)) as (P1 & P2 & P3 & P4 & P5 & P6 & P7 & P8).
    rewrite (fixed_field Pkt.pktSize _ _ (λ _, eq_refl) E), (fixed_field Pkt.ethType _ _ (λ _, eq_refl) E),
      (fixed_field Pkt.ipProto _ _ (λ _, eq_refl) E), (fixed_field Pkt.sport _ _ (λ _, eq_refl) E),
      (fixed_field Pkt.vlanid _ _ (λ _, eq_refl) E), (fixed_field Pkt.ip_mask _ _ (λ _, eq_refl) E),
      (fixed_field Pkt.eth_dst_addr _ _ (λ _, eq_refl) E), (fixed_field Pkt.eth_src_addr _ _ (λ _, eq_refl) E).
    split_and!; [assumption..|]. intros Hk'. rewrite P8, Em. exact (Hm k Hk').
Qed.

(** *** All ports *)

Lemma initial_starting s pid : numbered (matrix s) pid = true →
  Info.pid (initial_port s pid) = pid ∧ Info.port_flags (initial_port s pid) = 0 ∧ starting (initial_port s pid).
Proof.
  intros Hn. unfold initial_port. rewrite Hn. destruct (own (streams s pid)).
  - split_and!; [done..|]. split; [apply flags_zero_ok|by left|by intros ? [= <-]|intros k; done|done].
  - split_and!; [done..|]. split; [apply flags_zero_ok|by left|done|intros k; done|done].
Qed.

(** After the first pass: ports of the list that have a core are configured. *)
Definition first_pass (s : settings) (pids : list Z) (c : console) : Prop :=
  ∀ pid, (pid ∈ pids ∧ attached (matrix s) pid = true → ∃ i, ports c pid = Some i ∧ configured pid i) ∧
         (¬ (pid ∈ pids ∧ attached (matrix s) pid = true) → ports c pid = None).

Lemma put_world_ports pid w c p : ports (put_world pid w c) p = if p =? pid then Some (info w) else ports c p.
Proof. done. Qed.

Lemma config_ports_spec s pids : (∀ pid, single (streams s pid)) → ∀ before c c', config_ports s pids c = Some c' → first_pass s before c →
  first_pass s (before ++ pids) c'.
Proof.
  intros Hsi. induction pids as [|pid pids IH]; intros before c c' E Hc; cbn [config_ports] in E.
  { injection E as <-. by rewrite app_nil_r. }
  change (before ++ pid :: pids) with (before ++ [pid] ++ pids). rewrite app_assoc.
  destruct (attached (matrix s) pid) eqn:Ea; cbn [negb] in E.
  - destruct (numbered (matrix s) pid) eqn:En; [|done]. cbn [negb] in E. apply bind_Some in E as (w & Ew & E).
    destruct (initial_starting s pid En) as (Ep & Ef & Hs).
    destruct (config_port_spec s pid _ _ (Hsi pid) Ew Ep Ef Hs) as [_ Hcf].
    eapply IH; [exact E|]. intros p. rewrite put_world_ports, elem_of_app, list_elem_of_singleton.
    destruct (Z.eqb_spec p pid) as [->|Hne]; [split; [by eexists|tauto]|].
    destruct (Hc p) as [Hc1 Hc2]. split; intros Hp; [apply Hc1|apply Hc2]; tauto.
  - eapply IH; [exact E|]. intros p. rewrite elem_of_app, list_elem_of_singleton. destruct (Hc p) as [Hc1 Hc2].
    split; intros Hp; [apply Hc1|apply Hc2]; destruct (decide (p = pid)) as [->|]; intuition congruence.
Qed.

(** The address of a port's peer *)
Definition peer_of (pid : Z) : Z := if Z.land pid 1 =? 0 then pid + 1 else pid - 1.
Definition in_system (s : settings) (pid : Z) : bool := bool_decide (pid ∈ devs) && attached (matrix s) pid.
Definition mac_for (s : settings) (pid : Z) : Z := if in_system s (peer_of pid) then mac_of_dev (peer_of pid) else 0.

(** During the second pass: every port is there, configured or started, and has
    its address. *)
Definition second_pass (s : settings) (done : list Z) (c : console) : Prop :=
  ∀ pid, if in_system s pid
         then ∃ i, ports c pid = Some i ∧ macs_set pid i ∧ if decide (pid ∈ done) then started pid (mac_for s pid) i else configured pid i
         else ports c pid = None.

Lemma second_peer s d c pid : second_pass s d c → mac_of_peer (peer_pkts c pid) = mac_for s pid.
Proof.
  intros Hc. unfold peer_pkts, mac_for. fold (peer_of pid). specialize (Hc (peer_of pid)).
  destruct (in_system s (peer_of pid)).
  - destruct Hc as (i & -> & Hm & _). apply Hm. by right; right.
  - by rewrite Hc.
Qed.

Lemma started_macs pid mac i : started pid mac i → macs_set pid i.
Proof.
  intros [_ _ _ _ Hp] k Hk. apply (Hp k); [|exact Hk].
  unfold has_mac, NUM_SEQ_PKTS, SINGLE_PKT, RATE_PKT, NUM_TOTAL_PKTS in *. lia.
Qed.

Lemma finish_ports_spec s pids : ∀ d c c', finish_ports s pids c = Some c' → (∀ p, p ∈ pids → p ∈ devs) → NoDup pids →
  (∀ p, p ∈ pids → p ∉ d) → second_pass s d c → second_pass s (d ++ pids) c'.
Proof.
  induction pids as [|pid pids IH]; intros d c c' E Hin Hnd Hd Hc; cbn [finish_ports] in E.
  { injection E as <-. by rewrite app_nil_r. }
  change (d ++ pid :: pids) with (d ++ [pid] ++ pids). rewrite app_assoc.
  apply NoDup_cons in Hnd as [Hni Hnd].
  assert (∀ p, p ∈ pids → p ∉ d ++ [pid]) as Hd'.
  { intros p Hp. rewrite elem_of_app, list_elem_of_singleton. intros [Hpd| ->]; [|done]. by apply (Hd p); [right|]. }
  assert (∀ p, p ∈ pids → p ∈ devs) as Hin' by (intros p Hp; apply Hin; by right).
  destruct (attached (matrix s) pid) eqn:Ea; cbn [negb] in E.
  - apply bind_Some in E as (i & Ei & E). destruct (pktgen_rnd_bits_init _ _) as [rb z].
    eapply IH; [exact E|done..|]. intros p.
    change (if in_system s p then ∃ j, ports (put_world pid (finish_port (peer_pkts c pid) pid (mk_world (globals c) i)) c) p = Some j ∧
      macs_set p j ∧ (if decide (p ∈ d ++ [pid]) then started p (mac_for s p) j else configured p j)
      else ports (put_world pid (finish_port (peer_pkts c pid) pid (mk_world (globals c) i)) c) p = None).
    rewrite put_world_ports. destruct (Z.eqb_spec p pid) as [->|Hne].
    + assert (in_system s pid = true) as Es.
      { unfold in_system. rewrite Ea, andb_true_r. apply bool_decide_eq_true. apply Hin. by left. }
      pose proof (Hc pid) as Hp. rewrite Es in Hp |- *. destruct Hp as (j & Ej & _ & Hj). rewrite Ei in Ej. injection Ej as <-.
      destruct (decide (pid ∈ d)) as [Hpd|_]; [exfalso; by apply (Hd pid); [left|]|].
      pose proof (finish_port_spec (peer_pkts c pid) pid (mk_world (globals c) i) Hj) as Hf.
      rewrite (second_peer s d c pid Hc) in Hf.
      eexists. split; [reflexivity|]. split; [by eapply started_macs|].
      rewrite decide_True by (rewrite elem_of_app, list_elem_of_singleton; by right). exact Hf.
    + specialize (Hc p). destruct (in_system s p); [|exact Hc]. destruct Hc as (j & Ej & Hm & Hj). exists j. split_and!; [done..|].
      destruct (decide (p ∈ d)) as [Hpd|Hpd].
      * rewrite decide_True by (rewrite elem_of_app; by left). exact Hj.
      * rewrite decide_False by (rewrite elem_of_app, list_elem_of_singleton; tauto). exact Hj.
  - eapply IH; [exact E|done..|]. intros p. specialize (Hc p). destruct (in_system s p) eqn:Es; [|exact Hc].
    assert (p ≠ pid) as Hne by (intros ->; unfold in_system in Es; rewrite Ea, andb_false_r in Es; done).
    destruct Hc as (j & Ej & Hm & Hj). exists j. split_and!; [done..|].
    destruct (decide (p ∈ d)) as [Hpd|Hpd].
    + rewrite decide_True by (rewrite elem_of_app; by left). exact Hj.
    + rewrite decide_False by (rewrite elem_of_app, list_elem_of_singleton; tauto). exact Hj.
Qed.

(** Options that give a port no list of files *)
Definition one_file (o : opt) : Prop := match o with Opt_s arg => strchr 44 arg = None | _ => True end.
Definition all_single (s : settings) : Prop := ∀ pid, single (streams s pid).
Lemma one_option_single o s s' : one_file o → one_option o s = Ok s' → all_single s → all_single s'.
Proof.
  intros Ho E Hs pid. destruct o as [arg|arg|arg|arg|arg| | | |arg| | | |n|]; cbn [one_option one_file] in *; try (injection E as <-; exact (Hs pid)); try done.
  - destruct (pg_parse_matrix _ _ _) as [[r l]|]; [|done]. destruct (r =? -1); [done|]. injection E as <-. exact (Hs pid).
  - unfold opt_s in E. cbn zeta in E. destruct (strchr 58 arg) as [p|]; [|done]. destruct (negb _); [done|].
    rewrite Ho in E. destruct (opens _ p); [|done]. injection E as <-. set (port := swrap 32 _).
    change (single (set_at port (mk_stream (Some (Single p)) (pcaps (streams s port))) (streams s) pid)).
    unfold set_at. destruct (pid =? port); [exact (Hs port)|exact (Hs pid)].
  - cbn zeta in E. destruct (strchr 58 arg); [|injection E as <-; exact (Hs pid)].
    injection E as <-. destruct (upto 58 arg); exact (Hs pid).
  - destruct (lgopts_val !! n) as [[|[]|]|]; try done; injection E as <-; exact (Hs pid).
Qed.
Lemma parse_options_single os : ∀ s s', Forall one_file os → parse_options os s = Ok s' → all_single s → all_single s'.
Proof.
  induction os as [|o os IH]; intros s s' Ho E Hs; cbn [parse_options] in E; [by injection E as <-|].
  apply Forall_cons in Ho as [Ho Hos]. destruct (one_option o s) as [s1| |] eqn:E1; [|done..].
  eapply IH; [done|exact E|]. by eapply one_option_single.
Qed.
Lemma parse_single os s : Forall one_file os → pktgen_parse_args os = Ok s → all_single s.
Proof. intros Ho E. by eapply parse_options_single. Qed.

(** The ports a started program has *)
Lemma main_ports os memory s c : NoDup devs → Forall one_file os → pktgen_main os memory = Some (s, c) → second_pass s devs c.
Proof.
  intros Hnd Ho. unfold pktgen_main. destruct (pktgen_parse_args os) as [s'| |] eqn:Es; [|done..]. destruct (_ || _); [done|].
  intros E. apply bind_Some in E as (c0 & E & [= <- <-]). unfold pktgen_config_ports in E. destruct (_ =? 0); [done|].
  cbn zeta in E. apply bind_Some in E as (c1 & E1 & E). apply bind_Some in E as (c2 & E2 & [= <-]).
  change (second_pass s' devs c2). eapply (finish_ports_spec s' devs []); [exact E2|done|done|..].
  - intros p _. apply not_elem_of_nil.
  - eapply (config_ports_spec s' devs (parse_single _ _ Ho Es) []) in E1; [|intros p; split; [by intros [?%not_elem_of_nil _]|done]].
    intros p. destruct (E1 p) as [P1 P2]. unfold in_system. cbn [app] in *.
    destruct (bool_decide (p ∈ devs)) eqn:Ed; cbn [andb].
    + apply bool_decide_eq_true in Ed. destruct (attached (matrix s') p) eqn:Ea.
      * destruct (P1 (conj Ed eq_refl)) as (i & Ei & Hi). exists i. split_and!; [done|apply Hi|done].
      * apply P2. intros [_ ?]. congruence.
    + apply bool_decide_eq_false in Ed. apply P2. tauto.
Qed.

Lemma main_started os memory s c pid : NoDup devs → Forall one_file os → pktgen_main os memory = Some (s, c) →
  if in_system s pid then ∃ i, ports c pid = Some i ∧ started pid (mac_for s pid) i else ports c pid = None.
Proof.
  intros Hnd Ho E. pose proof (main_ports os memory s c Hnd Ho E pid) as Hp. destruct (in_system s pid) eqn:Es; [|exact Hp].
  destruct Hp as (i & Ei & _ & Hi). exists i. split; [done|]. unfold in_system in Es.
  apply andb_prop in Es as [Es%bool_decide_eq_true _]. by rewrite decide_True in Hi.
Qed.

Lemma lines_ok lines : ∀ c c', run_lines lines c = Ok c' → ports_ok c → ports_ok c'.
Proof.
  induction lines as [|l ls IH]; intros c c' E Hc; cbn [run_lines] in E; [by injection E as <-|].
  destruct (run_line l c) as [c1| |] eqn:E1; [|by eapply IH|done]. eapply IH; [exact E|]. by eapply run_line_ok.
Qed.


(** C5. When no port is given a list of files and files are smaller than two
    gigabytes, then from its options on, through whatever lines are typed then, the
    program has ports that keep the invariant of [port_ok] only.  A port with a list
    of files need not keep it: any of them makes it send packets of files, while its
    counts are those of the first. *)
Theorem startup_safe os memory s c lines c' : NoDup devs → Forall one_file os → pktgen_main os memory = Some (s, c) →
  run_lines lines c = Ok c' → ports_ok c ∧ ports_ok c'.
Proof.
  intros Hnd Ho E.
  assert (ports_ok c) as Hc.
  { intros pid i Ei. pose proof (main_started os memory s c pid Hnd Ho E) as Hp. destruct (in_system s pid); [|congruence].
    destruct Hp as (j & Ej & Hj). rewrite Ei in Ej. injection Ej as <-. apply Hj. }
  intros El. split; [done|]. by eapply lines_ok.
Qed.
End Started.

(** ** Two ports

    Core 1 receives and core 2 sends on port 0, cores 3 and 4 on port 1; the third
    device has no core. *)
Definition bench : Env := {|
  devs := [0; 1; 2]; tap := λ _, mk_tap 0 0 0 0; bond_conf := λ _, 0;
  bond_slaves := λ _, None; bond_active := λ _, None; hw_stats := λ _, Eth.zero;
  rx_view := λ _, Capture.mk_l2p 0 [] (λ _, []); socket_of := λ _, 0; strtod := λ _, S754_zero false;
  timer_hz := 1000000; dev_random := None; xor_state := 1; paused := true;
  junk_portlist := 0; junk_ip := mk_ipaddr 0 0; junk_mac := 0 |}.
Definition bench_boot : Boot := {|
  past_text := [0]; content := λ _, Some (pcap_file true demo_hdr demo_recs); has_memory := λ _ _, true; master_lcore := 0; dev_count := 3; mac_of_dev := λ pid, 0x10 + pid; tx_capa := λ _, 0;
  mempool := λ _ _ _, 1; configures := λ _, true;
  pcap_pool := λ _ _, demo_create; stack := λ _ _, 0; priv_size := 0; data_room := 2048; data_plane := demo_dp;
  sockets := 0; zone_of := λ _, None; allocates := λ _, true |}.
#[global] Instance bench_small : @Small_files bench_boot.
Proof. intros f l [= <-]. by vm_compute. Defined.
Definition bench_options : list opt := [Opt_P; Opt_m (str "[1:2].0, [3:4].1"); Opt_s (str "1:two.pcap"); Opt_T].

Definition bench_state : option (settings * console) := @pktgen_main bench bench_boot bench_options (λ _, 0).
Example bench_starts :
  match bench_state with
  | Some (s, c) => (@in_system bench s 0, @in_system bench s 1, @in_system bench s 2, Info.port_flags <$> ports c 0,
                    Info.port_flags <$> ports c 1, (λ i, Pkt.eth_dst_addr (Info.seq_pkt i 5)) <$> ports c 0,
                    Pg.ending_port (globals c)) =
      (true, true, false, Some 0, Some SEND_PCAP_PKTS, Some 0x11, 3)
  | None => False
  end.
Proof. vm_compute. reflexivity. Qed.

Lemma bench_some : is_Some bench_state.
Proof. apply (bool_decide_unpack _). vm_compute. exact I. Qed.

Lemma bench_devs : NoDup (@devs bench).
Proof. apply (bool_decide_unpack _). vm_compute. exact I. Qed.
Lemma bench_one_file : Forall one_file bench_options.
Proof. repeat constructor. Qed.
Lemma bench_main s c : bench_state = Some (s, c) → @pktgen_main bench bench_boot bench_options (λ _, 0) = Some (s, c).
Proof. unfold bench_state. exact id. Qed.


Definition bench_lines : list (list Z) := [str "set 1 count 1000"; str "enable 0 pcap"; str "start 0-1"].
Lemma after_value {A} (o : option (settings * console)) (f : console → res A) :
  is_ok (match o with Some (_, c) => f c | None => Undef end) = true → ∃ s c a, o = Some (s, c) ∧ f c = Ok a.
Proof. destruct o as [[s c]|]; [|done]. intros (a & E)%ok_value. by exists s, c, a. Qed.
Lemma startup_safe_witness : ∃ s c c', bench_state = Some (s, c) ∧ @run_lines bench bench_lines c = Ok c' ∧
  ports_ok c ∧ ports_ok c'.
Proof.
  destruct (after_value bench_state (@run_lines bench bench_lines)) as (s & c & c' & E & E'); [vm_compute; reflexivity|].
  exists s, c, c'. split; [exact E|]. split; [exact E'|].
  exact (@startup_safe bench bench_boot bench_small bench_options (λ _, 0) s c bench_lines c' bench_devs bench_one_file
    (bench_main s c E) E').
Defined.
